(* ===== verification/_CoqProject ===== *)
-Q . S2P
Prelude.v
Ae.v
ByteBuf.v
Buffer.v
BufferView.v
Buffer2.v
ByteQueue.v
Stream.v
Cli.v
Socket.v
NovaCodec.v
NovaGeneric.v
Nova.v
Utf8.v
Hessian.v
DubboCodec.v
DubboClient.v
DubboAsync.v
Table.v
StrMap.v
Queue.v
Mq.v
Chan.v
Sync.v
ThreadPool.v
Sniff.v
Double.v
Sa.v
CJson.v
CJsonSpec.v
CJsonSafe.v
CJsonGrammar.v
CJsonPrint.v
CJsonPrintOk.v
CJsonRound.v
CJsonDom.v
CJsonTree.v
CJsonDomOk.v
CJsonCopy.v
CJsonCompare.v
CJsonClient.v
CJsonMinify.v
CJsonHeap.v
NovaJson.v
DubboJson.v
