(* ===== verification/Prelude.v ===== *)
(** * Verification of the wee repository

    wee is a collection of C components: byte buffers, queues and channels,
    a handle table, a UTF-8 decoder, socket helpers, a packet sniffer, and
    two command-line RPC clients (nova and dubbo) built on them.  This library
    models the components as executable functions and proves what they do,
    the defects included: a theorem here is about the code as it is written.

    ** Conventions

    A C computation is an [outcome] (below): a value, a failed assertion or
    [abort], undefined behaviour, or a bounded loop out of fuel.  A block of
    memory is the list of its bytes; reads and writes outside it are
    [Undefined] ([mem_read], [mem_write]).  Integers are [Z] with the
    wrap-around of their type written out ([u64], [s32], ...), and [sint] where
    a signed overflow would be undefined.  [malloc] succeeds up to a size that
    the classes [Allocator] and [AllocTotal] say; a failing allocation is
    modelled where the code tests for it.  Structures that the code changes in
    place are records passed along; where two pointers reach one object
    ([BufferView]) the store is explicit.  What the kernel or a
    library answers (read, write, poll, getaddrinfo, libpcap) is an
    argument: a list of answers, or a function about which at most the
    documented behaviour is assumed.

    ** Files and the code they model

    - [Prelude]: outcomes, integers, byte images, memory, C strings, tactics.
    - [ByteBuf]: [base/buffer.h] as the class [ByteBuf], its laws
      [ByteBufSpec], and the integer operations both implementations share.
    - [Buffer]: [base/buffer.c], one buffer; [BufferView]: its read-only
      views, several buffers sharing allocations; [Buffer2]:
      [base/buffer2.c], with pointers for indices; [ByteQueue]: both are
      indistinguishable from a queue of bytes.
    - [Ae]: [3rd/ae/ae.c] and [ae_epoll.c], the event loop; callbacks are
      arguments that may change the loop ([aeDeleteEventLoop] is in
      [DubboAsync], where the loop's memory has a state).
    - [Stream]: bytes arriving in chunks through [buf_readFd]; [Cli]: the
      string functions both command lines use.
    - [Socket]: [net/socket.c]: opening sockets, complete sends and receives.
    - [Sa]: [net/sa.c]: socket addresses and their text.
    - [NovaCodec], [NovaGeneric], [Nova]: [nova_client/codec.c],
      [generic.c] and [nova.c]: header, thrift message, one call; [NovaJson]:
      what [nova.c] does with the trees of its arguments and of the reply.
    - [Utf8]: [base/utf8_decode.c]; [Hessian]: [dubbo_client/dubbo_hessian.c];
      [DubboCodec]: [dubbo_client/dubbo_codec.c], and [DubboJson]: its
      [rebuild_json_args] on the heap of cJSON; [DubboClient]: options of
      [dubbo.c] and the synchronous call of [dubbo_client.c];
      [DubboAsync]: its asynchronous benchmark.
    - [Table]: [base/table.c]; [StrMap]: [base/strmap.c]; [Mq]: [base/mq.c]; [Chan]: [base/chan.c].
    - [Sync]: [base/mtxlock.c], [base/cond.c], [base/waiter.c] and
      [base/waitgroup.c].
    - [Queue]: [base/queue.h], on a store of nodes; [ThreadPool]:
      [base/threadpool.c], workers and clients interleaved.
    - [Sniff]: [net/sniff.c] and [net/sniff.h].
    - [base/cJSON.c]: [CJson], items and the parser, and [CJsonPrint],
      printing; [CJsonSpec]: the JSON values items stand for; [CJsonSafe]: the
      parser on any bytes; [CJsonGrammar]: the grammar of JSON and that the
      parser accepts it; [CJsonPrintOk]: the text that is printed;
      [CJsonRound]: printing and parsing; [CJsonMinify]: [cJSON_Minify].
      [Double] models the conversions of the C library between doubles and
      text, exactly.
    - The trees of [base/cJSON.c]: [CJsonDom], the functions that create, look
      at, change, delete, copy and compare nodes, on a heap with every pointer
      explicit; [CJsonTree]: trees in a heap, as lists of cells up to their
      order; [CJsonDomOk]: one lemma for each function; [CJsonCopy] and
      [CJsonCompare]: copies and comparison; [CJsonClient]: the specification
      of the calls on trees, and clients that keep to it; [CJsonHeap]: the
      parser and the printer on the heap.

    A function of the code is a definition of the same name in the file of
    its component; a loop or a block of a long function that is a definition
    of its own is named after what it does, with the lines in its comment.

    ** How the components meet

    The codecs are functions over [ByteBuf] and their theorems use only
    [ByteBufSpec], which [Buffer] and [Buffer2] instantiate; the clients then
    run on [Buffer].  [Mq] exports [FifoQueue] and [FifoLaws], against which
    [Chan] is verified.  [ThreadPool] runs on [Queue].  [Sync] proves once,
    for the class [Monitor], that no wake-up is lost; waiters and wait groups
    are its instances.  [Nova] and [DubboClient] compose option strings,
    codec, [socket_sendAllSync] and [buf_readFd] into one call.  [DubboAsync]
    instantiates the callbacks of [Ae] and the class [Sys] of its system
    calls: client and loop share one state, and [main] and the exit handler
    run around them; [use_el] is each use of the loop through the client's
    pointer, undefined once [main] has deleted it.  [CJsonHeap] composes the trees of
    [CJsonDom] with the parser of [CJson] and the printer of [CJsonPrint]: a
    parsed item is put into the heap ([parse_in]), and what is printed of a
    node is the item that [read_item] finds there.  [DubboJson] composes this
    with [utf82ascii] and gives the codec its parameter: [request_of_text]
    leads from a text of the JSON grammar to the request.

    ** What the theorems show

    - Equivalence and refinement: [implementations_refine_queue],
      [mq_is_fifo], [queues_refine_lists], [strmap_refines_map];
      [client_runs]: the tree functions of cJSON implement functions on
      trees, with no use after free, no double free and no leak;
      [cJSON_Compare_decides].
    - End to end: [nova_invoke_ok], for every split of the sends and for
      replies in reads of at most 65535 bytes (the first of at least four, or
      the call fails); [dubbo_invoke_sync_ok], for a reply in one read;
      [bench_completes]: the asynchronous client, from the first connection to
      the last response and the deletion of the loop.
    - Round trips and exact images: the packet codecs, Hessian values, thrift
      messages, little-endian integers; [nova_unpack_sound] is the converse;
      [cJSON_print_parse], numbers included.
    - JSON: [cJSON_Parse_well_typed] (any input), [cJSON_ParseWithOpts_accepts]
      (the texts of the grammar [value_text]), [cJSON_PrintPreallocated_fits],
      [cJSON_Minify_keeps_value], [cJSON_Duplicate_copies]; [show_reply_ok]:
      what the nova client shows of a reply; [rebuild_json_args_ok]: what the
      dubbo client makes of its arguments.
    - Addresses: [sa_ipv4_text].
    - Invariants and safety: [view_contract], [chan_safe], [pool_safe],
      [socket_ctor_client_no_leak], [ae_invariant] (every reachable state of an
      event loop whose callbacks use its interface, within the limits that
      section [reach] of [Ae] states; [client_loop_wf]: the dubbo client is
      within them); termination: [processTimeEvents_visits], for the same
      callbacks, finalizers included, and [pool_runs_all]; liveness: [chan_no_lost_wakeup],
      [waitgroup_ok].
    - Text: the UTF-8 decoder accepts exactly well-formed text;
      [utf82ascii] writes its escapes.
    - Defects: each is stated as a theorem about the code, for instance
      [main_args_use_after_free] (the nova client reads the node it has just
      freed), [buf_append_after_prepend_aborts], [table_expand_loses_handle],
      [hs_decode_chunk_overflows], [recv_rest_spins_on_eof],
      [pcap_pkt_handler_short_aborts], [dubbo_invoke_sync_split_reply],
      [bench_refused_undefined].

    ** Fuel

    Loops over a script of answers recurse on the script: [OutOfFuel] there
    means that the call has not returned yet.  Loops over memory have a fuel
    that their definition or theorem fixes (the length of the text, the
    capacity of a table); the theorems show that it suffices.  In
    [DubboAsync] the fuel bounds the depth of calls in one callback (a little
    more than the number of requests of the pipeline) and the iterations of
    the main loop (one for the connection, one for each response).  The
    recursion of the JSON parser has the fuel that its nesting limit gives;
    that of the functions on trees the number of nodes in the heap.

    ** Not modelled

    The kqueue back end of the event loop.  The parser builds item trees; the
    addresses they take in the heap of [CJsonDom] are chosen by [parse_in]
    when the text has been read.  How the dubbo client shows a JSON reply is
    a parameter of it.
    khash and anet, which are vendored.  The php directory is glue for the Zend
    engine, which is not in the repository; log, dbg, svpng and the pollers
    only do input and output; tests and the scratch programs under tmp are
    not part of the program.  Logging, time-outs of system calls and signals
    are left out of the clients, the wrappers of POSIX threads of the thread
    pool. *)

From stdpp Require Import base tactics numbers list list_numbers option gmap strings.
From Stdlib Require Import Lia.

Declare Scope c_scope.
Delimit Scope c_scope with C.
#[global] Open Scope Z_scope.

(** ** Outcomes of a C computation

    [Ret a]: the computation returns [a].  [AssertFail]: an [assert] or
    [abort] stops the process.  [Undefined]: the C standard gives the
    execution no meaning (an access outside an allocation, a signed
    overflow, a division by zero).  [OutOfFuel]: the fuel of a bounded
    loop ran out; theorems about loops rule it out. *)
Inductive outcome (A : Type) : Type :=
| Ret (a : A)
| AssertFail
| Undefined
| OutOfFuel.
Arguments Ret {A} a.
Arguments AssertFail {A}.
Arguments Undefined {A}.
Arguments OutOfFuel {A}.

#[export] Instance outcome_ret : MRet outcome := fun A a => Ret a.
#[export] Instance outcome_bind : MBind outcome := fun A B f m =>
  match m with
  | Ret a => f a
  | AssertFail => AssertFail
  | Undefined => Undefined
  | OutOfFuel => OutOfFuel
  end.

(** [c_assert(e)] of the C code. *)
Definition c_assert (b : bool) : outcome unit :=
  if b then Ret tt else AssertFail.

(** A computation the C standard defines only when [b] holds. *)
Definition defined (b : bool) : outcome unit :=
  if b then Ret tt else Undefined.

(** A lookup that is undefined behaviour outside the object. *)
Definition deref {A} (o : option A) : outcome A :=
  match o with Some a => Ret a | None => Undefined end.

Notation "'let!' x := e 'in' k" := (mbind (M := outcome) (fun x => k) e)
  (at level 10, x pattern, e at level 100, k at level 200) : c_scope.
Notation "e ;; k" := (mbind (M := outcome) (fun _ : unit => k) e)
  (at level 100, k at level 200, right associativity) : c_scope.
#[global] Open Scope c_scope.

Lemma ret_bind {A B} (a : A) (f : A -> outcome B) : mbind f (Ret a) = f a.
Proof. reflexivity. Qed.

Lemma c_assert_true b : b = true -> c_assert b = Ret tt.
Proof. by intros ->. Qed.

Lemma c_assert_false b : b = false -> c_assert b = AssertFail.
Proof. by intros ->. Qed.

Lemma Ret_inj {A} (a b : A) : Ret a = Ret b -> a = b.
Proof. by intros [= ->]. Qed.

Lemma bind_Ret {A B} (f : A -> outcome B) m b :
  mbind f m = Ret b -> exists a, m = Ret a /\ f a = Ret b.
Proof. destruct m; simpl; try discriminate. eauto. Qed.

(** The allocator of the C library: whether a request of [n] bytes is
    served.  [malloc], [calloc] and [realloc] are library code; the model
    only needs to know whether they return NULL. *)
Class Allocator := alloc_ok : Z -> bool.

(** An allocator that serves every request below [PTRDIFF_MAX]. *)
Class AllocTotal `{Allocator} := alloc_total : forall n, 0 <= n < 2 ^ 63 -> alloc_ok n = true.

Definition big_alloc : Allocator := fun n => bool_decide (0 <= n < 2 ^ 63).

#[export] Instance big_alloc_total : @AllocTotal big_alloc.
Proof. intros n Hn. by apply bool_decide_eq_true. Qed.

(** ** Machine integers *)
Definition wrapu (w x : Z) : Z := x mod 2 ^ w.
Definition wraps (w x : Z) : Z := (x + 2 ^ (w - 1)) mod 2 ^ w - 2 ^ (w - 1).

Abbreviation u8 := (wrapu 8).
Abbreviation u16 := (wrapu 16).
Abbreviation u32 := (wrapu 32).
Abbreviation u64 := (wrapu 64).
Abbreviation s8 := (wraps 8).
Abbreviation s16 := (wraps 16).
Abbreviation s32 := (wraps 32).
Abbreviation s64 := (wraps 64).

Definition INT_MAX : Z := 2 ^ 31 - 1.
Definition INT_MIN : Z := - 2 ^ 31.

(** An [int] result: signed overflow is undefined behaviour. *)
Definition sint (x : Z) : outcome Z :=
  if bool_decide (INT_MIN <= x <= INT_MAX) then Ret x else Undefined.

Lemma wrapu_small w x : 0 <= x < 2 ^ w -> wrapu w x = x.
Proof. apply Z.mod_small. Qed.

Lemma wrapu_range w x : 0 <= w -> 0 <= wrapu w x < 2 ^ w.
Proof. intros. apply Z.mod_pos_bound. lia. Qed.

Lemma wraps_small w x :
  0 < w -> - 2 ^ (w - 1) <= x < 2 ^ (w - 1) -> wraps w x = x.
Proof.
  intros Hw Hx. unfold wraps.
  assert (2 ^ w = 2 * 2 ^ (w - 1)).
  { rewrite <- Z.pow_succ_r by lia. f_equal; lia. }
  rewrite Z.mod_small; lia.
Qed.

Lemma wraps_range w x :
  0 < w -> - 2 ^ (w - 1) <= wraps w x < 2 ^ (w - 1).
Proof.
  intros Hw. unfold wraps.
  assert (2 ^ w = 2 * 2 ^ (w - 1)).
  { rewrite <- Z.pow_succ_r by lia. f_equal; lia. }
  pose proof (Z.mod_pos_bound (x + 2 ^ (w - 1)) (2 ^ w)). lia.
Qed.

(** Converting to unsigned and back to signed at the same width. *)
Lemma wraps_wrapu w x : 0 < w -> wraps w (wrapu w x) = wraps w x.
Proof.
  intros Hw. unfold wraps, wrapu. f_equal.
  apply Zplus_mod_idemp_l.
Qed.

Lemma wrapu_wraps w x : 0 < w -> wrapu w (wraps w x) = wrapu w x.
Proof.
  intros Hw. unfold wraps, wrapu.
  rewrite Zminus_mod_idemp_l. f_equal. lia.
Qed.

(** ** Byte sequences *)
Abbreviation bytes := (list Z).

Definition zlen {A} (l : list A) : Z := Z.of_nat (length l).
Definition ztake {A} (n : Z) (l : list A) : list A := take (Z.to_nat n) l.
Definition zdrop {A} (n : Z) (l : list A) : list A := drop (Z.to_nat n) l.
Definition znth {A} (l : list A) (i : Z) : option A :=
  if bool_decide (0 <= i) then l !! Z.to_nat i else None.

Definition is_byte (b : Z) : Prop := 0 <= b < 256.
Definition all_bytes (l : bytes) : Prop := Forall is_byte l.

#[export] Instance is_byte_dec b : Decision (is_byte b).
Proof. unfold is_byte. apply _. Defined.
#[export] Instance all_bytes_dec l : Decision (all_bytes l).
Proof. unfold all_bytes. apply _. Defined.

(** Decide a closed decidable goal by evaluation. *)
Ltac vm_decide := refine (bool_decide_unpack _ _); vm_compute; exact I.

Definition zeros (n : Z) : bytes := replicate (Z.to_nat n) 0.

(** [memcpy] out of and into one allocation [m]. *)
Definition mem_read (m : bytes) (off n : Z) : outcome bytes :=
  if bool_decide (0 <= off /\ 0 <= n /\ off + n <= zlen m)
  then Ret (ztake n (zdrop off m)) else Undefined.

Definition mem_splice (m : bytes) (off : Z) (d : bytes) : bytes :=
  ztake off m ++ d ++ zdrop (off + zlen d) m.

Definition mem_write (m : bytes) (off : Z) (d : bytes) : outcome bytes :=
  if bool_decide (0 <= off /\ off + zlen d <= zlen m)
  then Ret (mem_splice m off d) else Undefined.

(** Memory images of integers: [htole16/32/64] stores the little-endian
    image, [htobe16/32/64] the big-endian one. *)
Definition le_bytes (n x : Z) : bytes := Z_to_little_endian n 8 x.
Definition be_bytes (n x : Z) : bytes := rev (le_bytes n x).
Definition le_val (l : bytes) : Z := little_endian_to_Z 8 l.
Definition be_val (l : bytes) : Z := le_val (rev l).

(** The [n] elements of [l] from [off] on. *)
Definition slice {A} (off n : Z) (l : list A) : list A := ztake n (zdrop off l).

(** *** Lengths *)
Create Rewrite HintDb zlist.

Lemma zlen_nil {A} : zlen (@nil A) = 0.
Proof. reflexivity. Qed.
Lemma zlen_cons {A} (x : A) l : zlen (x :: l) = 1 + zlen l.
Proof. unfold zlen. simpl. lia. Qed.
Lemma zlen_app {A} (l1 l2 : list A) : zlen (l1 ++ l2) = zlen l1 + zlen l2.
Proof. unfold zlen. rewrite length_app. lia. Qed.
Lemma zlen_nonneg {A} (l : list A) : 0 <= zlen l.
Proof. unfold zlen. lia. Qed.
Lemma zlen_rev {A} (l : list A) : zlen (rev l) = zlen l.
Proof. unfold zlen. by rewrite length_rev. Qed.
Lemma zlen_map {A B} (f : A -> B) l : zlen (map f l) = zlen l.
Proof. unfold zlen. by rewrite length_map. Qed.
Lemma zlen_ztake {A} n (l : list A) : zlen (ztake n l) = Z.min (Z.max 0 n) (zlen l).
Proof. unfold zlen, ztake. rewrite length_take. lia. Qed.
Lemma zlen_zdrop {A} n (l : list A) : zlen (zdrop n l) = Z.max 0 (zlen l - Z.max 0 n).
Proof. unfold zlen, zdrop. rewrite length_drop. lia. Qed.
Lemma zlen_slice {A} off n (l : list A) :
  0 <= off -> 0 <= n -> off + n <= zlen l -> zlen (slice off n l) = n.
Proof. intros. unfold slice. rewrite zlen_ztake, zlen_zdrop. lia. Qed.
Lemma zlen_zeros n : 0 <= n -> zlen (zeros n) = n.
Proof. intros. unfold zlen, zeros. rewrite length_replicate. lia. Qed.
Lemma zlen_nil_inv {A} (l : list A) : zlen l = 0 -> l = [].
Proof. destruct l; [done | rewrite zlen_cons; pose proof (zlen_nonneg l); lia]. Qed.
Lemma zlen_le_bytes n x : 0 <= n -> zlen (le_bytes n x) = n.
Proof. intros. apply length_Z_to_little_endian. lia. Qed.
Lemma zlen_be_bytes n x : 0 <= n -> zlen (be_bytes n x) = n.
Proof. intros. unfold be_bytes. by rewrite zlen_rev, zlen_le_bytes. Qed.

#[export] Hint Rewrite @zlen_nil @zlen_cons @zlen_app @zlen_rev @zlen_map
  @zlen_ztake @zlen_zdrop : zlist.
#[export] Hint Rewrite @zlen_slice @zlen_zeros @zlen_le_bytes @zlen_be_bytes
  using lia : zlist.

(** Simplify lengths everywhere, add non-negativity facts, call [lia]. *)
Ltac zlen_facts :=
  repeat match goal with
  | |- context [zlen ?l] =>
    lazymatch goal with
    | _ : 0 <= zlen l |- _ => fail
    | _ => pose proof (zlen_nonneg l)
    end
  | _ : context [zlen ?l] |- _ =>
    lazymatch goal with
    | _ : 0 <= zlen l |- _ => fail
    | _ => pose proof (zlen_nonneg l)
    end
  end.
Ltac zlia := zlen_facts; autorewrite with zlist in *; zlen_facts; lia.

(** Discharge the bounds test of a defined memory access. *)
Ltac step_true :=
  match goal with
  | |- context [bool_decide ?P] =>
    rewrite (bool_decide_true P) by zlia
  end.
Ltac step_false :=
  match goal with
  | |- context [bool_decide ?P] =>
    rewrite (bool_decide_false P) by zlia
  end.

(** *** Splitting lists at an offset *)
Lemma ztake_zdrop {A} n (l : list A) : ztake n l ++ zdrop n l = l.
Proof. apply take_drop. Qed.
Lemma ztake_app_exact {A} n (l1 l2 : list A) : n = zlen l1 -> ztake n (l1 ++ l2) = l1.
Proof. intros ->. unfold ztake, zlen. by rewrite Nat2Z.id, take_app_length. Qed.
Lemma zdrop_app_exact {A} n (l1 l2 : list A) : n = zlen l1 -> zdrop n (l1 ++ l2) = l2.
Proof. intros ->. unfold zdrop, zlen. by rewrite Nat2Z.id, drop_app_length. Qed.
Lemma ztake_all {A} n (l : list A) : zlen l <= n -> ztake n l = l.
Proof. intros. apply take_ge. unfold zlen in *. lia. Qed.
Lemma zdrop_all {A} n (l : list A) : zlen l <= n -> zdrop n l = [].
Proof. intros. apply drop_ge. unfold zlen in *. lia. Qed.
Lemma ztake_0 {A} (l : list A) : ztake 0 l = [].
Proof. reflexivity. Qed.
Lemma zdrop_0 {A} (l : list A) : zdrop 0 l = l.
Proof. reflexivity. Qed.
Lemma zdrop_zdrop {A} a b (l : list A) :
  0 <= a -> 0 <= b -> zdrop a (zdrop b l) = zdrop (a + b) l.
Proof. intros. unfold zdrop. rewrite drop_drop. f_equal. lia. Qed.
Lemma ztake_ztake {A} a b (l : list A) :
  0 <= a -> 0 <= b -> ztake a (ztake b l) = ztake (Z.min a b) l.
Proof. intros. unfold ztake. rewrite take_take. f_equal. lia. Qed.
Lemma zdrop_app_le {A} n (l1 l2 : list A) :
  n <= zlen l1 -> zdrop n (l1 ++ l2) = zdrop n l1 ++ l2.
Proof. intros. unfold zdrop, zlen in *. apply drop_app_le. lia. Qed.
Lemma ztake_app_le {A} n (l1 l2 : list A) :
  n <= zlen l1 -> ztake n (l1 ++ l2) = ztake n l1.
Proof. intros. unfold ztake, zlen in *. apply take_app_le. lia. Qed.
Lemma ztake_app_ge {A} n (l1 l2 : list A) :
  zlen l1 <= n -> ztake n (l1 ++ l2) = l1 ++ ztake (n - zlen l1) l2.
Proof.
  intros. unfold ztake, zlen in *. rewrite take_app_ge by lia. do 2 f_equal. lia.
Qed.
Lemma zdrop_app_ge {A} n (l1 l2 : list A) :
  zlen l1 <= n -> zdrop n (l1 ++ l2) = zdrop (n - zlen l1) l2.
Proof.
  intros. unfold zdrop, zlen in *. rewrite drop_app_ge by lia. f_equal. lia.
Qed.

Lemma split_at {A} n (l : list A) :
  0 <= n <= zlen l -> exists l1 l2, l = l1 ++ l2 /\ zlen l1 = n.
Proof.
  intros. exists (ztake n l), (zdrop n l). rewrite ztake_zdrop. split; [done | zlia].
Qed.

Lemma slice_app_exact {A} off n (a s c : list A) :
  off = zlen a -> n = zlen s -> slice off n (a ++ s ++ c) = s.
Proof. intros. unfold slice. rewrite zdrop_app_exact, ztake_app_exact; auto. Qed.

Lemma split_slice {A} off n (l : list A) :
  0 <= off -> 0 <= n -> off + n <= zlen l ->
  exists a c, l = a ++ slice off n l ++ c /\ zlen a = off /\ zlen c = zlen l - off - n.
Proof.
  intros. exists (ztake off l), (zdrop n (zdrop off l)). unfold slice.
  rewrite ztake_zdrop, ztake_zdrop. split; [done | zlia].
Qed.

Lemma slice_0_all {A} (l : list A) : slice 0 (zlen l) l = l.
Proof. unfold slice. rewrite zdrop_0. apply ztake_all. lia. Qed.

Lemma slice_empty {A} off (l : list A) : slice off 0 l = [].
Proof. reflexivity. Qed.

Lemma slice_advance {A} k off n (l : list A) :
  0 <= off -> 0 <= k <= n -> slice (off + k) (n - k) l = zdrop k (slice off n l).
Proof.
  intros. unfold slice, ztake, zdrop. rewrite skipn_firstn_comm, drop_drop.
  f_equal; [lia | f_equal; lia].
Qed.

Lemma slice_prefix {A} k off n (l : list A) :
  0 <= k <= n -> slice off k l = ztake k (slice off n l).
Proof. intros. unfold slice. rewrite ztake_ztake by lia. f_equal; lia. Qed.

(** *** Writing into a memory block *)
Lemma mem_splice_app a s c d off :
  off = zlen a -> zlen s = zlen d -> mem_splice (a ++ s ++ c) off d = a ++ d ++ c.
Proof.
  intros -> Hs. unfold mem_splice. rewrite ztake_app_exact by done.
  do 2 f_equal. rewrite app_assoc, zdrop_app_exact; [done | zlia].
Qed.

Lemma zlen_mem_splice m off d :
  0 <= off -> off + zlen d <= zlen m -> zlen (mem_splice m off d) = zlen m.
Proof. intros. unfold mem_splice. zlia. Qed.

Lemma slice_splice_append r w m d :
  0 <= r <= w -> w + zlen d <= zlen m ->
  slice r (w - r + zlen d) (mem_splice m w d) = slice r (w - r) m ++ d.
Proof.
  intros. destruct (split_slice r (w - r) m) as (a & c & Hm & Ha & Hc); [zlia..|].
  destruct (split_at (zlen d) c) as (c1 & c2 & -> & Hc1); [zlia|].
  set (s := slice r (w - r) m) in *. assert (zlen s = w - r) by (unfold s; zlia).
  rewrite Hm, app_assoc, mem_splice_app by zlia.
  rewrite <- app_assoc, (app_assoc s d). apply slice_app_exact; zlia.
Qed.

Lemma slice_splice_prepend r w m d :
  zlen d <= r -> r <= w -> w <= zlen m ->
  slice (r - zlen d) (w - r + zlen d) (mem_splice m (r - zlen d) d)
  = d ++ slice r (w - r) m.
Proof.
  intros. zlen_facts.
  destruct (split_slice r (w - r) m) as (a & c & Hm & Ha & Hc); [zlia..|].
  destruct (split_at (r - zlen d) a) as (a1 & a2 & -> & Ha1); [zlia|].
  set (s := slice r (w - r) m) in *. assert (zlen s = w - r) by (unfold s; zlia).
  rewrite Hm, <- app_assoc, mem_splice_app by zlia.
  rewrite (app_assoc d). apply slice_app_exact; zlia.
Qed.

Lemma slice_splice_exact m off d :
  0 <= off -> off + zlen d <= zlen m -> slice off (zlen d) (mem_splice m off d) = d.
Proof.
  intros. pose proof (slice_splice_append off off m d) as E.
  rewrite Z.sub_diag, slice_empty in E. apply E; lia.
Qed.

Lemma mem_read_ok m off n :
  0 <= off -> 0 <= n -> off + n <= zlen m -> mem_read m off n = Ret (slice off n m).
Proof. intros. unfold mem_read. by step_true. Qed.

Lemma mem_write_ok m off d :
  0 <= off -> off + zlen d <= zlen m -> mem_write m off d = Ret (mem_splice m off d).
Proof. intros. unfold mem_write. by step_true. Qed.

(** *** Bytes *)
Lemma all_bytes_app l1 l2 : all_bytes (l1 ++ l2) <-> all_bytes l1 /\ all_bytes l2.
Proof. apply Forall_app. Qed.
Lemma all_bytes_cons x l : all_bytes (x :: l) <-> is_byte x /\ all_bytes l.
Proof. apply Forall_cons. Qed.
Lemma all_bytes_ztake n l : all_bytes l -> all_bytes (ztake n l).
Proof. apply Forall_take. Qed.
Lemma all_bytes_zdrop n l : all_bytes l -> all_bytes (zdrop n l).
Proof. apply Forall_drop. Qed.
Lemma all_bytes_slice off n l : all_bytes l -> all_bytes (slice off n l).
Proof. intros. by apply all_bytes_ztake, all_bytes_zdrop. Qed.
Lemma all_bytes_splice m off d :
  all_bytes m -> all_bytes d -> all_bytes (mem_splice m off d).
Proof.
  intros. unfold mem_splice. rewrite !all_bytes_app.
  auto using all_bytes_ztake, all_bytes_zdrop.
Qed.
Lemma all_bytes_zeros n : all_bytes (zeros n).
Proof. apply Forall_replicate. unfold is_byte. lia. Qed.
Lemma all_bytes_le n x : 0 <= n -> all_bytes (le_bytes n x).
Proof.
  intros. eapply Forall_impl; [apply (Z_to_little_endian_bound n 8 x); lia|].
  unfold is_byte. simpl. lia.
Qed.
Lemma all_bytes_rev l : all_bytes l -> all_bytes (rev l).
Proof. intros. by apply Forall_rev. Qed.
Lemma all_bytes_be n x : 0 <= n -> all_bytes (be_bytes n x).
Proof. intros. by apply all_bytes_rev, all_bytes_le. Qed.

Create HintDb bytes.
#[export] Hint Resolve all_bytes_ztake all_bytes_zdrop all_bytes_slice
  all_bytes_splice all_bytes_zeros all_bytes_rev : bytes.
#[export] Hint Extern 1 (all_bytes (le_bytes _ _)) => apply all_bytes_le; lia : bytes.
#[export] Hint Extern 1 (all_bytes (be_bytes _ _)) => apply all_bytes_be; lia : bytes.
#[export] Hint Extern 2 (all_bytes (_ ++ _)) => apply all_bytes_app; split : bytes.

(** *** Encoding and decoding integers *)
Lemma le_val_le_bytes n x : 0 <= n -> le_val (le_bytes n x) = wrapu (8 * n) x.
Proof.
  intros. unfold le_val, le_bytes, wrapu.
  rewrite little_endian_to_Z_to_little_endian by lia. do 2 f_equal. lia.
Qed.

Lemma le_bytes_le_val l : all_bytes l -> le_bytes (zlen l) (le_val l) = l.
Proof.
  intros. unfold le_bytes, le_val. apply Z_to_little_endian_to_Z; [done | lia |].
  eapply Forall_impl; [done|]. unfold is_byte. simpl. lia.
Qed.

Lemma be_val_be_bytes n x : 0 <= n -> be_val (be_bytes n x) = wrapu (8 * n) x.
Proof. intros. unfold be_val, be_bytes. by rewrite rev_involutive, le_val_le_bytes. Qed.

Lemma be_bytes_be_val l : all_bytes l -> be_bytes (zlen l) (be_val l) = l.
Proof.
  intros. unfold be_bytes, be_val.
  rewrite <- (zlen_rev l), le_bytes_le_val by auto with bytes. apply rev_involutive.
Qed.

Lemma le_val_range l : all_bytes l -> 0 <= le_val l < 2 ^ (8 * zlen l).
Proof.
  intros. unfold le_val. rewrite (Z.mul_comm 8). apply little_endian_to_Z_bound; [lia|].
  eapply Forall_impl; [done|]. unfold is_byte. simpl. lia.
Qed.

Lemma be_val_range l : all_bytes l -> 0 <= be_val l < 2 ^ (8 * zlen l).
Proof. intros. unfold be_val. rewrite <- (zlen_rev l). apply le_val_range. auto with bytes. Qed.

Lemma be_bytes_1 x : is_byte x -> be_bytes 1 x = [x].
Proof.
  intros Hx. pose proof (be_bytes_be_val [x]) as E. unfold be_val, le_val in E. simpl in E.
  rewrite Z.lor_0_r in E. apply E. by constructor.
Qed.

(** A value of an [n]-byte signed type survives the encoding. *)
Lemma be_signed_roundtrip n x :
  0 < n -> - 2 ^ (8 * n - 1) <= x < 2 ^ (8 * n - 1) ->
  wraps (8 * n) (be_val (be_bytes n x)) = x.
Proof.
  intros. rewrite be_val_be_bytes, wraps_wrapu by lia. apply wraps_small; lia.
Qed.

Lemma le_signed_roundtrip n x :
  0 < n -> - 2 ^ (8 * n - 1) <= x < 2 ^ (8 * n - 1) ->
  wraps (8 * n) (le_val (le_bytes n x)) = x.
Proof.
  intros. rewrite le_val_le_bytes, wraps_wrapu by lia. apply wraps_small; lia.
Qed.

(** ** Total correctness
    [returns m P]: the computation [m] returns a value that satisfies [P];
    it neither aborts nor runs into undefined behaviour. *)
Definition returns {A} (m : outcome A) (P : A -> Prop) : Prop :=
  exists a, m = Ret a /\ P a.

Lemma returns_ret {A} (a : A) (P : A -> Prop) : P a -> returns (Ret a) P.
Proof. intros. by exists a. Qed.

Lemma returns_bind {A B} (m : outcome A) (f : A -> outcome B) P Q :
  returns m P -> (forall a, P a -> returns (f a) Q) -> returns (mbind f m) Q.
Proof. intros (a & -> & Ha) Hf. by apply Hf. Qed.

Lemma returns_mono {A} (m : outcome A) (P Q : A -> Prop) :
  returns m P -> (forall a, P a -> Q a) -> returns m Q.
Proof. intros (a & -> & Ha) HPQ. exists a. auto. Qed.

Lemma returns_inv {A} (m : outcome A) P a : returns m P -> m = Ret a -> P a.
Proof. intros (a' & -> & Ha) [= ->]. done. Qed.

Lemma returns_assert b (P : unit -> Prop) : b = true -> P tt -> returns (c_assert b) P.
Proof. intros -> H. by exists tt. Qed.

Lemma returns_defined b (P : unit -> Prop) : b = true -> P tt -> returns (defined b) P.
Proof. intros -> H. by exists tt. Qed.

(** [step by H]: the next command of a sequence returns, by [H]. *)
Tactic Notation "step" "by" uconstr(H) :=
  eapply returns_bind; [eapply H | cbn beta].

(** The next command is an assertion that passes (fails). *)
Ltac passes :=
  lazymatch goal with
  | |- context [mbind _ (c_assert ?b)] =>
    rewrite (c_assert_true b) by first [done | zlia]; rewrite ret_bind
  end.
Ltac aborts :=
  lazymatch goal with
  | |- context [c_assert ?b] => by rewrite (c_assert_false b) by first [done | zlia]
  end.

(** ** String functions of the C library *)

(** [memchr(l, c, n)]: the offset of the first byte equal to [c]. *)
Fixpoint memchr (c : Z) (l : bytes) : option Z :=
  match l with
  | [] => None
  | x :: l => if x =? c then Some 0 else Z.succ <$> memchr c l
  end.

Fixpoint is_prefix (p l : bytes) : bool :=
  match p, l with
  | [], _ => true
  | x :: p, y :: l => (x =? y) && is_prefix p l
  | _, _ => false
  end.

(** [memmem(l, n, p, m)]: the offset of the first occurrence of [p]. *)
Fixpoint memmem (p l : bytes) : option Z :=
  if is_prefix p l then Some 0 else
  match l with
  | [] => None
  | _ :: l => Z.succ <$> memmem p l
  end.

(** [strlen] of the string stored in the block [l]: undefined when the block
    holds no terminator. *)
Definition strlen (l : bytes) : outcome Z := deref (memchr 0 l).
(** The string stored in a block, as [printf("%s")] prints it. *)
Definition c_str (l : bytes) : outcome bytes := let! n := strlen l in Ret (ztake n l).
(** [strcpy] into the block [dst]. *)
Definition strcpy (dst src : bytes) : outcome bytes :=
  let! n := strlen src in
  mem_write dst 0 (ztake (n + 1) src).

Lemma memchr_Some c l i :
  memchr c l = Some i <->
  exists l1 l2, l = l1 ++ [c] ++ l2 /\ (c ∉ l1) /\ i = zlen l1.
Proof.
  split.
  - revert i. induction l as [|x l IH]; intros i; simpl; [done|].
    destruct (Z.eqb_spec x c) as [->|Hne].
    + intros [= <-]. exists [], l. split; [done|]. split; [set_solver|done].
    + destruct (memchr c l) as [j|] eqn:E; simpl; [|done]. intros [= <-].
      destruct (IH j eq_refl) as (l1 & l2 & -> & ? & ->).
      exists (x :: l1), l2. rewrite zlen_cons. split; [done|].
      split; [set_solver|lia].
  - intros (l1 & l2 & -> & Hn & ->).
    induction l1 as [|x l1 IH]; simpl; [by rewrite Z.eqb_refl|].
    destruct (Z.eqb_spec x c); [set_solver|].
    simpl in IH. rewrite IH by set_solver. simpl. by rewrite zlen_cons, Z.add_1_l.
Qed.

Lemma memchr_None c l : memchr c l = None <-> c ∉ l.
Proof.
  induction l as [|x l IH]; simpl; [set_solver|].
  destruct (Z.eqb_spec x c); [set_solver|].
  destruct (memchr c l); simpl; set_solver.
Qed.

Lemma strlen_cstr s rest : 0 ∉ s -> strlen (s ++ [0] ++ rest) = Ret (zlen s).
Proof.
  intros. unfold strlen.
  by rewrite (proj2 (memchr_Some 0 (s ++ [0] ++ rest) (zlen s))) by eauto.
Qed.

Lemma is_prefix_spec p l : is_prefix p l = true <-> exists r, l = p ++ r.
Proof.
  revert l. induction p as [|x p IH]; intros l; simpl.
  - split; eauto.
  - destruct l as [|y l]; [split; [done | by intros [r ?]]|].
    rewrite andb_true_iff, Z.eqb_eq, IH. split.
    + intros [-> [r ->]]. eauto.
    + intros [r [= -> ->]]. eauto.
Qed.

Lemma memmem_Some p l i :
  memmem p l = Some i ->
  exists l1 l2, l = (l1 ++ p ++ l2) /\ i = zlen l1.
Proof.
  revert i. induction l as [|x l IH]; intros i; simpl.
  - destruct (is_prefix p []) eqn:E; [|done].
    apply is_prefix_spec in E as [r E]. intros [= <-]. exists [], r. by split.
  - destruct (is_prefix p (x :: l)) eqn:E.
    + apply is_prefix_spec in E as [r ->]. intros [= <-]. by exists [], r.
    + destruct (memmem p l) as [j|]; simpl; [|done]. intros [= <-].
      destruct (IH j eq_refl) as (l1 & l2 & -> & ->).
      exists (x :: l1), l2. split; [done|]. rewrite zlen_cons. lia.
Qed.

Lemma memmem_None p l : memmem p l = None -> forall l1 l2, l <> l1 ++ p ++ l2.
Proof.
  induction l as [|x l IH]; simpl.
  - destruct (is_prefix p []) eqn:E; [done|]. intros _ l1 l2 Hl.
    symmetry in Hl. apply app_nil in Hl as [-> Hl].
    assert (is_prefix p [] = true) by (apply is_prefix_spec; exists l2; done).
    congruence.
  - destruct (is_prefix p (x :: l)) eqn:E; [done|].
    destruct (memmem p l) eqn:E2; [done|]. intros _ [|y l1] l2 Hl.
    + assert (is_prefix p (x :: l) = true) by (apply is_prefix_spec; eauto). congruence.
    + injection Hl as -> Hl. by apply (IH eq_refl l1 l2).
Qed.

(** The bytes of a string literal. *)
Definition str (s : string) : bytes :=
  map (fun c => Z.of_N (Ascii.N_of_ascii c)) (String.list_ascii_of_string s).
Arguments str s%_string.

(** [strncmp] of two blocks: at most [n] bytes, up to a terminator; undefined
    when a block ends before that. *)
Fixpoint strncmp (n : nat) (a b : bytes) : outcome Z :=
  match n with
  | O => Ret 0
  | S n =>
    match a, b with
    | x :: a, y :: b =>
      if x =? y then if x =? 0 then Ret 0 else strncmp n a b else Ret (x - y)
    | _, _ => Undefined
    end
  end.

(** [strcmp] of two blocks. *)
Fixpoint strcmp (a b : bytes) : outcome Z :=
  match a, b with
  | x :: a, y :: b =>
    if x =? y then if x =? 0 then Ret 0 else strcmp a b else Ret (x - y)
  | _, _ => Undefined
  end.

(** A byte string without a terminator inside. *)
Definition no_nul (s : bytes) : Prop := 0 ∉ s.
#[export] Instance no_nul_dec s : Decision (no_nul s).
Proof. unfold no_nul. apply _. Defined.

Lemma c_str_ok s r : no_nul s -> c_str (s ++ 0 :: r) = Ret s.
Proof.
  intros Hs. unfold c_str. change (0 :: r) with ([0] ++ r). rewrite (strlen_cstr s r Hs), ret_bind. by rewrite ztake_app_exact.
Qed.

Lemma strcpy_ok dst s r : no_nul s -> zlen s < zlen dst ->
  strcpy dst (s ++ 0 :: r) = Ret (s ++ 0 :: zdrop (zlen s + 1) dst).
Proof.
  intros Hs Hl. unfold strcpy. change (0 :: r) with ([0] ++ r). rewrite (strlen_cstr s r Hs), ret_bind.
  replace (ztake (zlen s + 1) (s ++ [0] ++ r)) with (s ++ [0]).
  2: { rewrite app_assoc. symmetry. apply ztake_app_exact. zlia. }
  unfold mem_write. rewrite bool_decide_true by zlia. unfold mem_splice. rewrite ztake_0. cbn [app].
  rewrite <- app_assoc. cbn [app]. do 4 f_equal. zlia.
Qed.

Lemma no_nul_cons x s : no_nul (x :: s) <-> x <> 0 /\ no_nul s.
Proof. unfold no_nul. set_solver. Qed.
Lemma no_nul_app a b : no_nul (a ++ b) <-> no_nul a /\ no_nul b.
Proof. unfold no_nul. rewrite elem_of_app. tauto. Qed.

Lemma no_nul_Forall l : Forall (fun c => c <> 0) l -> no_nul l.
Proof. unfold no_nul. rewrite Forall_forall. intros Hl Hin. by apply (Hl 0). Qed.

Lemma strcmp_cstr s t r r' :
  no_nul s -> no_nul t ->
  exists z, strcmp (s ++ 0 :: r) (t ++ 0 :: r') = Ret z /\ (z = 0 <-> s = t).
Proof.
  revert t. induction s as [|x s IH]; intros [|y t] Hs Ht; simpl.
  - exists 0. naive_solver.
  - apply no_nul_cons in Ht as [Hy Ht].
    exists (0 - y). split; [by destruct y|]. split; [intros; lia|intros [=]].
  - apply no_nul_cons in Hs as [Hx Hs]. destruct (Z.eqb_spec x 0); [congruence|].
    exists (x - 0). split; [done|]. split; [intros; lia|intros [=]].
  - apply no_nul_cons in Hs as [Hx Hs]. apply no_nul_cons in Ht as [Hy Ht].
    destruct (Z.eqb_spec x y) as [->|Hne].
    + destruct (Z.eqb_spec y 0); [done|]. destruct (IH t Hs Ht) as (z & -> & Hz).
      exists z. split; [done|]. rewrite Hz. naive_solver.
    + exists (x - y). split; [done|]. split; [lia|congruence].
Qed.

Lemma strncmp_cstr n s t r r' :
  no_nul s -> no_nul t -> (length t < n)%nat ->
  exists z, strncmp n (s ++ 0 :: r) (t ++ 0 :: r') = Ret z /\ (z = 0 <-> s = t).
Proof.
  revert t n. induction s as [|x s IH]; intros [|y t] [|n] Hs Ht Hn; simpl in *; try lia.
  - exists 0. naive_solver.
  - apply no_nul_cons in Ht as [Hy Ht].
    exists (0 - y). split; [by destruct y|]. split; [intros; lia|intros [=]].
  - apply no_nul_cons in Hs as [Hx Hs]. destruct (Z.eqb_spec x 0); [congruence|].
    exists (x - 0). split; [done|]. split; [intros; lia|intros [=]].
  - apply no_nul_cons in Hs as [Hx Hs]. apply no_nul_cons in Ht as [Hy Ht].
    destruct (Z.eqb_spec x y) as [->|Hne].
    + destruct (Z.eqb_spec y 0); [done|]. destruct (IH t n Hs Ht ltac:(lia)) as (z & -> & Hz).
      exists z. split; [done|]. rewrite Hz. naive_solver.
    + exists (x - y). split; [done|]. split; [lia|congruence].
Qed.

(** *** Searching from the right, trimming *)
Fixpoint dropWhile {A} (f : A -> bool) (l : list A) : list A :=
  match l with
  | [] => []
  | x :: l' => if f x then dropWhile f l' else l
  end.

(** [malloc(n)]: the size of the block, or NULL. *)
Definition malloc `{Allocator} (n : Z) : option Z := if alloc_ok n then Some n else None.

(** *** Bits of bytes *)

(** A decidable fact about one byte, by evaluating it on all of them. *)
Lemma byte_forall (P : Z -> Prop) `{forall b, Decision (P b)} :
  bool_decide (Forall P (seqZ 0 256)) = true -> forall c, is_byte c -> P c.
Proof.
  intros Hf%bool_decide_eq_true c Hc. rewrite Forall_forall in Hf.
  apply Hf, elem_of_seqZ. unfold is_byte in Hc. lia.
Qed.

(** Joining a shifted value and a value below the shift. *)
Lemma lor_shiftl_add a b n : 0 <= n -> 0 <= b < 2 ^ n -> Z.lor (Z.shiftl a n) b = a * 2 ^ n + b.
Proof.
  intros Hn Hb.
  assert (Z.land (Z.shiftl a n) b = 0) as Hl.
  { apply Z.bits_inj'. intros i Hi. rewrite Z.land_spec, Z.bits_0.
    destruct (Z.ltb_spec i n).
    - by rewrite Z.shiftl_spec_low.
    - destruct (Z.eqb_spec b 0) as [-> |]; [by rewrite Z.bits_0, andb_false_r|].
      rewrite (Z.bits_above_log2 b i), andb_false_r; [done|lia|].
      apply Z.lt_le_trans with n; [|done]. apply Z.log2_lt_pow2; lia. }
  rewrite <- Z.lxor_lor, <- Z.add_nocarry_lxor by done. by rewrite Z.shiftl_mul_pow2.
Qed.

(** Settle the integer comparisons in the goal. *)
Ltac decide_tests :=
  repeat match goal with
  | |- context [?a <=? ?b] => destruct (Z.leb_spec a b); try lia; cbn [andb orb negb]; cbv iota
  | |- context [?a <? ?b] => destruct (Z.ltb_spec a b); try lia; cbn [andb orb negb]; cbv iota
  | |- context [?a =? ?b] => destruct (Z.eqb_spec a b); try lia; cbn [andb orb negb]; cbv iota
  end.

(** *** Arrays indexed by integers *)
Definition arr_get {A} (l : list A) (i : Z) : outcome A := deref (znth l i).
Definition arr_set {A} (l : list A) (i : Z) (x : A) : outcome (list A) :=
  if bool_decide (0 <= i < zlen l) then Ret (<[Z.to_nat i := x]> l) else Undefined.

Lemma znth_Some {A} (l : list A) i : 0 <= i < zlen l -> exists x, znth l i = Some x.
Proof.
  intros Hi. unfold znth, zlen in *. rewrite bool_decide_true by lia.
  apply lookup_lt_is_Some_2. lia.
Qed.

Lemma znth_inv {A} (l : list A) i x : znth l i = Some x -> 0 <= i < zlen l.
Proof.
  unfold znth, zlen. case_bool_decide; [|done]. intros ?%lookup_lt_Some. lia.
Qed.

Lemma znth_elem_of {A} (l : list A) i x : znth l i = Some x -> x ∈ l.
Proof. unfold znth. case_bool_decide; [|done]. apply list_elem_of_lookup_2. Qed.

Lemma znth_insert {A} (l : list A) i j x :
  0 <= i < zlen l -> znth (<[Z.to_nat i := x]> l) j = if decide (i = j) then Some x else znth l j.
Proof.
  intros Hi. unfold znth, zlen in *. destruct (decide (i = j)) as [<-|Hne].
  - rewrite bool_decide_true by lia. apply list_lookup_insert_eq. lia.
  - case_bool_decide; [|done]. apply list_lookup_insert_ne. lia.
Qed.

Lemma zlen_insert {A} (l : list A) i x : zlen (<[i := x]> l) = zlen l.
Proof. unfold zlen. by rewrite length_insert. Qed.

Lemma znth_app {A} (l1 l2 : list A) i :
  znth (l1 ++ l2) i = if bool_decide (i < zlen l1) then znth l1 i else znth l2 (i - zlen l1).
Proof.
  unfold znth, zlen. repeat case_bool_decide; try lia; try done.
  - apply lookup_app_l. lia.
  - rewrite lookup_app_r by lia. f_equal. lia.
Qed.

Lemma arr_get_middle {A} (l1 l2 : list A) x : arr_get (l1 ++ x :: l2) (zlen l1) = Ret x.
Proof.
  unfold arr_get. rewrite znth_app, bool_decide_false by lia. rewrite Z.sub_diag. reflexivity.
Qed.
Lemma arr_set_middle {A} (l1 l2 : list A) x y : arr_set (l1 ++ x :: l2) (zlen l1) y = Ret (l1 ++ y :: l2).
Proof.
  unfold arr_set. rewrite bool_decide_true by (zlen_facts; rewrite zlen_app, zlen_cons; zlen_facts; lia).
  f_equal. unfold zlen. rewrite Nat2Z.id. by rewrite insert_app_r_alt, Nat.sub_diag by lia.
Qed.
Lemma arr_get_lookup {A} (l : list A) (i : nat) x : l !! i = Some x -> arr_get l (Z.of_nat i) = Ret x.
Proof. intros Hi. unfold arr_get, znth. rewrite bool_decide_true, Nat2Z.id by lia. by rewrite Hi. Qed.
Lemma arr_set_lookup {A} (l : list A) (i : nat) x y : l !! i = Some x -> arr_set l (Z.of_nat i) y = Ret (<[i := y]> l).
Proof.
  intros Hi%lookup_lt_Some. unfold arr_set, zlen. rewrite bool_decide_true by lia. by rewrite Nat2Z.id.
Qed.

(** *** Sums over a list *)
Definition total {A} (f : A -> Z) (l : list A) : Z := foldr (fun x n => f x + n) 0 l.

Lemma total_insert {A} (f : A -> Z) l i x y :
  l !! i = Some x -> total f (<[i := y]> l) = total f l - f x + f y.
Proof.
  revert i. induction l as [|z l IH]; intros [|i] Hi; simplify_eq/=; [lia|].
  rewrite (IH i Hi). lia.
Qed.

Lemma total_nonneg {A} (f : A -> Z) l : (forall x, 0 <= f x) -> 0 <= total f l.
Proof. intros Hf. induction l as [|x l IH]; simpl; [lia|]. specialize (Hf x). lia. Qed.

Lemma total_lookup {A} (f : A -> Z) l i x :
  (forall x, 0 <= f x) -> l !! i = Some x -> f x <= total f l.
Proof.
  intros Hf. revert i. induction l as [|z l IH]; intros [|i] Hi; simplify_eq/=.
  - pose proof (total_nonneg f l Hf). lia.
  - specialize (IH i Hi). specialize (Hf z). lia.
Qed.

Lemma total_pos {A} (f : A -> Z) l : 0 < total f l -> exists i x, l !! i = Some x /\ 0 < f x.
Proof.
  induction l as [|x l IH]; simpl; [lia|]. intros Hp.
  destruct (Z.ltb_spec 0 (f x)); [by exists 0%nat, x|].
  destruct IH as (i & y & ? & ?); [lia|]. by exists (S i), y.
Qed.

Lemma total_zero {A} (f : A -> Z) l : (forall x, x ∈ l -> f x = 0) -> total f l = 0.
Proof.
  induction l as [|x l IH]; simpl; intros Hf; [done|].
  rewrite IH by (intros; apply Hf; by constructor). rewrite Hf by constructor. done.
Qed.
