(* ===== verification/Ae.v ===== *)
(** * The event loop

    [3rd/ae/ae.c] with its epoll back end [3rd/ae/ae_epoll.c]: file events in
    an array indexed by descriptor, time events in a linked list, and one
    iteration of the loop.  The list is a heap of nodes ([te_heap]) reached
    through [timeEventHead] and [te_next]; [interest] is the interest set of
    the epoll instance, as [epoll_ctl] documents it.  Callbacks, their data
    and the rest of the world ([D]: clock, kernel, client state) are
    parameters; a callback takes the whole [world]. *)

From stdpp Require Import base tactics numbers list option gmap.
From Stdlib Require Import Lia.
From S2P Require Import Prelude.

Definition AE_OK : Z := 0.
Definition AE_ERR : Z := -1.
Definition AE_NONE : Z := 0.
Definition AE_READABLE : Z := 1.
Definition AE_WRITABLE : Z := 2.
Definition AE_FILE_EVENTS : Z := 1.
Definition AE_TIME_EVENTS : Z := 2.
Definition AE_ALL_EVENTS : Z := Z.lor AE_FILE_EVENTS AE_TIME_EVENTS.
Definition AE_DONT_WAIT : Z := 4.
Definition AE_CALL_AFTER_SLEEP : Z := 8.
Definition AE_NOMORE : Z := -1.
Definition AE_DELETED_EVENT_ID : Z := -1.

Definition EPOLLIN : Z := 1.
Definition EPOLLOUT : Z := 4.
Definition EPOLLERR : Z := 8.
Definition EPOLLHUP : Z := 16.

(** [mask & bit]. *)
Definition has (mask bit : Z) : bool := negb (Z.land mask bit =? 0).

(** Signed arithmetic of [long] and [long long]. *)
Definition slong (x : Z) : outcome Z :=
  if bool_decide (- 2 ^ 63 <= x < 2 ^ 63) then Ret x else Undefined.

Inductive epoll_op := EPOLL_CTL_ADD | EPOLL_CTL_MOD | EPOLL_CTL_DEL.

(** [epoll_ctl] on the interest set; [refused]: the kernel fails for a reason
    of its own (a closed descriptor, no memory). *)
Definition epoll_ctl (refused : bool) (op : epoll_op) (fd events : Z) (i : gmap Z Z) : option (gmap Z Z) :=
  if refused then None else
  match op, i !! fd with
  | EPOLL_CTL_ADD, None | EPOLL_CTL_MOD, Some _ => Some (<[fd := events]> i)
  | EPOLL_CTL_DEL, Some _ => Some (delete fd i)
  | _, _ => None
  end.

(** The mask of epoll for a mask of ae, and back. *)
Definition to_epoll (mask : Z) : Z :=
  Z.lor (if has mask AE_READABLE then EPOLLIN else 0) (if has mask AE_WRITABLE then EPOLLOUT else 0).
Definition of_epoll (events : Z) : Z :=
  Z.lor (if has events EPOLLIN then AE_READABLE else 0)
    (Z.lor (if has events EPOLLOUT then AE_WRITABLE else 0)
      (Z.lor (if has events EPOLLERR then AE_WRITABLE else 0)
        (if has events EPOLLHUP then AE_WRITABLE else 0))).

(** What the loop asks of the system. *)
Class Sys (D : Type) := {
  ctl_refuses : D -> epoll_op -> Z -> bool * D;
  epoll_wait : D -> gmap Z Z -> Z -> Z -> list (Z * Z) * D;
  gettimeofday : D -> Z * Z * D;
  time : D -> Z * D
}.

(** [F]: file callbacks, [T]: time callbacks, [H]: finalizers and the two
    sleep callbacks, [C]: client data. *)
Section types.
Context {F T H C : Type}.

Record aeFileEvent := mkFE {
  fe_mask : Z;
  rfileProc : option F;
  wfileProc : option F;
  fe_data : option C
}.

Record aeTimeEvent := mkTE {
  te_id : Z;
  when_sec : Z;
  when_ms : Z;
  timeProc : T;
  finalizerProc : option H;
  te_data : C;
  te_next : option Z
}.

(** [te_brk]: where the allocator places the next node. *)
Record aeEventLoop := mkLoop {
  maxfd : Z;
  setsize : Z;
  timeEventNextId : Z;
  lastTime : Z;
  events : list aeFileEvent;
  fired : list (Z * Z);
  timeEventHead : option Z;
  te_heap : gmap Z aeTimeEvent;
  te_brk : Z;
  stop : Z;
  interest : gmap Z Z;
  beforesleep : option H;
  aftersleep : option H
}.
End types.
Arguments aeFileEvent : clear implicits.
Arguments aeTimeEvent : clear implicits.
Arguments aeEventLoop : clear implicits.

Section setters.
Context {F T H C : Type}.
Definition set_events (l : aeEventLoop F T H C) es m : aeEventLoop F T H C :=
  mkLoop m (setsize l) (timeEventNextId l) (lastTime l) es (fired l) (timeEventHead l) (te_heap l)
    (te_brk l) (stop l) (interest l) (beforesleep l) (aftersleep l).
Definition set_interest (l : aeEventLoop F T H C) i : aeEventLoop F T H C :=
  mkLoop (maxfd l) (setsize l) (timeEventNextId l) (lastTime l) (events l) (fired l) (timeEventHead l)
    (te_heap l) (te_brk l) (stop l) i (beforesleep l) (aftersleep l).
Definition set_fired (l : aeEventLoop F T H C) f : aeEventLoop F T H C :=
  mkLoop (maxfd l) (setsize l) (timeEventNextId l) (lastTime l) (events l) f (timeEventHead l)
    (te_heap l) (te_brk l) (stop l) (interest l) (beforesleep l) (aftersleep l).
Definition set_timers (l : aeEventLoop F T H C) hd h : aeEventLoop F T H C :=
  mkLoop (maxfd l) (setsize l) (timeEventNextId l) (lastTime l) (events l) (fired l) hd
    h (te_brk l) (stop l) (interest l) (beforesleep l) (aftersleep l).
Definition set_lastTime (l : aeEventLoop F T H C) t : aeEventLoop F T H C :=
  mkLoop (maxfd l) (setsize l) (timeEventNextId l) t (events l) (fired l) (timeEventHead l)
    (te_heap l) (te_brk l) (stop l) (interest l) (beforesleep l) (aftersleep l).
Definition set_nextId (l : aeEventLoop F T H C) n b : aeEventLoop F T H C :=
  mkLoop (maxfd l) (setsize l) n (lastTime l) (events l) (fired l) (timeEventHead l)
    (te_heap l) b (stop l) (interest l) (beforesleep l) (aftersleep l).
Definition set_stop (l : aeEventLoop F T H C) s : aeEventLoop F T H C :=
  mkLoop (maxfd l) (setsize l) (timeEventNextId l) (lastTime l) (events l) (fired l) (timeEventHead l)
    (te_heap l) (te_brk l) s (interest l) (beforesleep l) (aftersleep l).
Definition set_size (l : aeEventLoop F T H C) n es f : aeEventLoop F T H C :=
  mkLoop (maxfd l) n (timeEventNextId l) (lastTime l) es f (timeEventHead l)
    (te_heap l) (te_brk l) (stop l) (interest l) (beforesleep l) (aftersleep l).
Definition set_sleeps (l : aeEventLoop F T H C) b a : aeEventLoop F T H C :=
  mkLoop (maxfd l) (setsize l) (timeEventNextId l) (lastTime l) (events l) (fired l) (timeEventHead l)
    (te_heap l) (te_brk l) (stop l) (interest l) b a.

Definition te_set_id (te : aeTimeEvent T H C) id :=
  mkTE id (when_sec te) (when_ms te) (timeProc te) (finalizerProc te) (te_data te) (te_next te).
Definition te_set_when (te : aeTimeEvent T H C) s ms :=
  mkTE (te_id te) s ms (timeProc te) (finalizerProc te) (te_data te) (te_next te).
Definition te_set_next (te : aeTimeEvent T H C) n :=
  mkTE (te_id te) (when_sec te) (when_ms te) (timeProc te) (finalizerProc te) (te_data te) n.
End setters.

(** ** The operations *)
Section ops.
Context {D F T H C : Type} `{Sys D} `{Allocator}.

Record world := mkWorld { el : aeEventLoop F T H C; env : D }.

(** The sizes of [aeEventLoop], [aeFileEvent], [aeFiredEvent], [aeApiState] and
    [struct epoll_event]. *)
Definition aeCreateEventLoop (epoll_create : bool) (n : Z) (d : D) : option world :=
  if negb (alloc_ok 88) then None else
  if negb (alloc_ok (u64 (32 * u64 n)) && alloc_ok (u64 (8 * u64 n))) then None else
  let '(t, d) := time d in
  if negb (alloc_ok 16 && alloc_ok (u64 (12 * u64 n)) && epoll_create) then None else
  Some (mkWorld (mkLoop (-1) n 0 t (replicate (Z.to_nat n) (mkFE AE_NONE None None None))
    (replicate (Z.to_nat n) (0, 0)) None ∅ 0 0 ∅ None None) d).

Definition aeGetSetSize (w : world) : Z := setsize (el w).

(** [realloc] keeps the common prefix; its result is not tested and the code
    goes on to write through it.  The new slots are those from [maxfd + 1]. *)
Definition aeResizeSetSize (w : world) (n : Z) : outcome (Z * world) :=
  let l := el w in
  if n =? setsize l then Ret (AE_OK, w) else
  if n <=? maxfd l then Ret (AE_ERR, w) else
  defined (alloc_ok (u64 (12 * u64 n)) && alloc_ok (u64 (32 * u64 n)) && alloc_ok (u64 (8 * u64 n))) ;;
  let es := ztake (maxfd l + 1) (events l)
            ++ replicate (Z.to_nat (n - (maxfd l + 1))) (mkFE AE_NONE None None None) in
  let f := ztake n (fired l) ++ replicate (Z.to_nat (n - zlen (fired l))) (0, 0) in
  Ret (AE_OK, mkWorld (set_size l n es f) (env w)).

Definition aeStop (w : world) : world := mkWorld (set_stop (el w) 1) (env w).

(** The return value 0 or -1. *)
Definition aeApiAddEvent (w : world) (fd mask : Z) : outcome (bool * world) :=
  let l := el w in
  let! fe := deref (znth (events l) fd) in
  let op := if fe_mask fe =? AE_NONE then EPOLL_CTL_ADD else EPOLL_CTL_MOD in
  let mask := Z.lor mask (fe_mask fe) in
  let '(r, d) := ctl_refuses (env w) op fd in
  match epoll_ctl r op fd (to_epoll mask) (interest l) with
  | None => Ret (false, mkWorld l d)
  | Some i => Ret (true, mkWorld (set_interest l i) d)
  end.

(** The return value of [epoll_ctl] is not looked at. *)
Definition aeApiDelEvent (w : world) (fd delmask : Z) : outcome world :=
  let l := el w in
  let! fe := deref (znth (events l) fd) in
  let mask := Z.land (fe_mask fe) (Z.lnot delmask) in
  let op := if negb (mask =? AE_NONE) then EPOLL_CTL_MOD else EPOLL_CTL_DEL in
  let '(r, d) := ctl_refuses (env w) op fd in
  match epoll_ctl r op fd (to_epoll mask) (interest l) with
  | None => Ret (mkWorld l d)
  | Some i => Ret (mkWorld (set_interest l i) d)
  end.

Definition aeCreateFileEvent (w : world) (fd mask : Z) (proc : F) (data : C) : outcome (Z * world) :=
  if setsize (el w) <=? fd then Ret (AE_ERR, w) else
  let! (ok, w) := aeApiAddEvent w fd mask in
  if negb ok then Ret (AE_ERR, w) else
  let l := el w in
  let! fe := deref (znth (events l) fd) in
  let fe := mkFE (Z.lor (fe_mask fe) mask)
              (if has mask AE_READABLE then Some proc else rfileProc fe)
              (if has mask AE_WRITABLE then Some proc else wfileProc fe) (Some data) in
  let! es := arr_set (events l) fd fe in
  let m := if maxfd l <? fd then fd else maxfd l in
  Ret (AE_OK, mkWorld (set_events l es m) (env w)).

(** [for (j = maxfd - 1; j >= 0; j--) if (events[j].mask != AE_NONE) break;],
    [n] being [j + 1]. *)
Fixpoint last_used (es : list (aeFileEvent F C)) (n : nat) : Z :=
  match n with
  | O => -1
  | S j => match es !! j with
           | Some fe => if fe_mask fe =? AE_NONE then last_used es j else Z.of_nat j
           | None => last_used es j
           end
  end.

Definition aeDeleteFileEvent (w : world) (fd mask : Z) : outcome world :=
  if setsize (el w) <=? fd then Ret w else
  let! fe := deref (znth (events (el w)) fd) in
  if fe_mask fe =? AE_NONE then Ret w else
  let! w := aeApiDelEvent w fd mask in
  let l := el w in
  let fe := mkFE (Z.land (fe_mask fe) (Z.lnot mask)) (rfileProc fe) (wfileProc fe) (fe_data fe) in
  let! es := arr_set (events l) fd fe in
  let m := if (fd =? maxfd l) && (fe_mask fe =? AE_NONE) then last_used es (Z.to_nat (maxfd l))
           else maxfd l in
  Ret (mkWorld (set_events l es m) (env w)).

Definition aeGetFileEvents (w : world) (fd : Z) : outcome Z :=
  if setsize (el w) <=? fd then Ret 0 else
  let! fe := deref (znth (events (el w)) fd) in Ret (fe_mask fe).

(** *** Time events *)
Definition aeGetTime (w : world) : Z * Z * world :=
  let '(sec, usec, d) := gettimeofday (env w) in (sec, Z.quot usec 1000, mkWorld (el w) d).

Definition aeAddMillisecondsToNow (w : world) (milliseconds : Z) : outcome (Z * Z * world) :=
  let '(cur_sec, cur_ms, w) := aeGetTime w in
  let! when_sec := slong (cur_sec + Z.quot milliseconds 1000) in
  let! when_ms := slong (cur_ms + Z.rem milliseconds 1000) in
  if 1000 <=? when_ms then
    let! when_sec := slong (when_sec + 1) in Ret (when_sec, when_ms - 1000, w)
  else Ret (when_sec, when_ms, w).

(** The return value is the id, or [AE_ERR] when there is no memory; the id is
    taken in either case.  The size is that of [aeTimeEvent]. *)
Definition aeCreateTimeEvent (w : world) (milliseconds : Z) (proc : T) (data : C) (fin : option H)
  : outcome (Z * world) :=
  let id := timeEventNextId (el w) in
  let! n := slong (id + 1) in
  let w := mkWorld (set_nextId (el w) n (te_brk (el w))) (env w) in
  if negb (alloc_ok 56) then Ret (AE_ERR, w) else
  let! (s, ms, w) := aeAddMillisecondsToNow w milliseconds in
  let l := el w in
  let a := te_brk l in
  let te := mkTE id s ms proc fin data (timeEventHead l) in
  Ret (id, mkWorld (set_timers (set_nextId l n (a + 1)) (Some a) (<[a := te]> (te_heap l))) (env w)).

(** The loop over the list; [n] bounds its length. *)
Fixpoint delete_time_loop (n : nat) (h : gmap Z (aeTimeEvent T H C)) (p : option Z) (id : Z)
  : outcome (option (gmap Z (aeTimeEvent T H C))) :=
  match n, p with
  | O, _ => OutOfFuel
  | S _, None => Ret None
  | S n, Some a =>
    let! te := deref (h !! a) in
    if te_id te =? id then Ret (Some (<[a := te_set_id te AE_DELETED_EVENT_ID]> h))
    else delete_time_loop n h (te_next te) id
  end.

Definition aeDeleteTimeEvent (w : world) (id : Z) : outcome (Z * world) :=
  let l := el w in
  let! o := delete_time_loop (S (size (te_heap l))) (te_heap l) (timeEventHead l) id in
  match o with
  | Some h => Ret (AE_OK, mkWorld (set_timers l (timeEventHead l) h) (env w))
  | None => Ret (AE_ERR, w)
  end.

Fixpoint search_loop (n : nat) (h : gmap Z (aeTimeEvent T H C)) (p : option Z)
    (nearest : option (aeTimeEvent T H C)) : outcome (option (aeTimeEvent T H C)) :=
  match n, p with
  | O, _ => OutOfFuel
  | S _, None => Ret nearest
  | S n, Some a =>
    let! te := deref (h !! a) in
    let nearest := match nearest with
      | None => te
      | Some m => if (when_sec te <? when_sec m) || ((when_sec te =? when_sec m) && (when_ms te <? when_ms m))
                  then te else m
      end in
    search_loop n h (te_next te) (Some nearest)
  end.

Definition aeSearchNearestTimer (w : world) : outcome (option (aeTimeEvent T H C)) :=
  search_loop (S (size (te_heap (el w)))) (te_heap (el w)) (timeEventHead (el w)) None.

Definition aeSetBeforeSleepProc (w : world) (h : option H) : world :=
  mkWorld (set_sleeps (el w) h (aftersleep (el w))) (env w).
Definition aeSetAfterSleepProc (w : world) (h : option H) : world :=
  mkWorld (set_sleeps (el w) (beforesleep (el w)) h) (env w).
End ops.
Arguments world : clear implicits.

(** ** One iteration *)
Section process.
Context {D F T H C : Type} `{Sys D} `{Allocator} `{EqDecision F}.
Notation World := (world D F T H C).
(** The callbacks. *)
Context (callF : F -> Z -> option C -> Z -> World -> outcome World).
Context (callT : T -> Z -> C -> World -> outcome (Z * World)).
Context (callH : H -> option C -> World -> outcome World).

Definition set_node (w : World) (a : Z) (te : aeTimeEvent T H C) : World :=
  mkWorld (set_timers (el w) (timeEventHead (el w)) (<[a := te]> (te_heap (el w)))) (env w).

(** [prev->next = next], or the head when [prev] is NULL; then [zfree(te)] after
    the finalizer. *)
Definition unlink (w : World) (prev : option Z) (next : option Z) : outcome World :=
  match prev with
  | None => Ret (mkWorld (set_timers (el w) next (te_heap (el w))) (env w))
  | Some p => let! pe := deref (te_heap (el w) !! p) in Ret (set_node w p (te_set_next pe next))
  end.

Definition free_node (w : World) (a : Z) : World :=
  mkWorld (set_timers (el w) (timeEventHead (el w)) (delete a (te_heap (el w)))) (env w).

(** The body of the loop for a deleted node. *)
Definition remove_node (w : World) (prev : option Z) (a : Z) (te : aeTimeEvent T H C) : outcome World :=
  let! w := unlink w prev (te_next te) in
  let! w := match finalizerProc te with
            | Some f => callH f (Some (te_data te)) w
            | None => Ret w
            end in
  Ret (free_node w a).

(** A due node: call it, then reschedule it or mark it. *)
Definition fire_node (w : World) (a : Z) (te : aeTimeEvent T H C) : outcome World :=
  let! (retval, w) := callT (timeProc te) (te_id te) (te_data te) w in
  if negb (retval =? AE_NOMORE) then
    let! (s, ms, w) := aeAddMillisecondsToNow w retval in
    let! te := deref (te_heap (el w) !! a) in
    Ret (set_node w a (te_set_when te s ms))
  else
    let! te := deref (te_heap (el w) !! a) in
    Ret (set_node w a (te_set_id te AE_DELETED_EVENT_ID)).

Definition due (te : aeTimeEvent T H C) (now_sec now_ms : Z) : bool :=
  (when_sec te <? now_sec) || ((now_sec =? when_sec te) && (when_ms te <=? now_ms)).

(** The second [while(te)]. *)
Fixpoint time_loop (n : nat) (w : World) (prev te_ : option Z) (maxId processed : Z)
  : outcome (Z * World) :=
  match n, te_ with
  | O, _ => OutOfFuel
  | S _, None => Ret (processed, w)
  | S n, Some a =>
    let! te := deref (te_heap (el w) !! a) in
    if te_id te =? AE_DELETED_EVENT_ID then
      let! w := remove_node w prev a te in
      time_loop n w prev (te_next te) maxId processed
    else if maxId <? te_id te then time_loop n w prev (te_next te) maxId processed
    else
      let '(now_sec, now_ms, w) := aeGetTime w in
      if due te now_sec now_ms then
        let! w := fire_node w a te in
        let! te := deref (te_heap (el w) !! a) in
        let! p := sint (processed + 1) in
        time_loop n w (Some a) (te_next te) maxId p
      else time_loop n w (Some a) (te_next te) maxId processed
  end.

(** The first [while(te)]: the clock went back. *)
Fixpoint skew_loop (n : nat) (h : gmap Z (aeTimeEvent T H C)) (p : option Z)
  : outcome (gmap Z (aeTimeEvent T H C)) :=
  match n, p with
  | O, _ => OutOfFuel
  | S _, None => Ret h
  | S n, Some a =>
    let! te := deref (h !! a) in
    skew_loop n (<[a := te_set_when te 0 (when_ms te)]> h) (te_next te)
  end.

Definition processTimeEvents (w : World) : outcome (Z * World) :=
  let '(now, d) := time (env w) in
  let l := el w in
  let! h := if now <? lastTime l then skew_loop (S (size (te_heap l))) (te_heap l) (timeEventHead l)
            else Ret (te_heap l) in
  let w := mkWorld (set_lastTime (set_timers l (timeEventHead l) h) now) d in
  let! maxId := slong (timeEventNextId l - 1) in
  time_loop (S (size h)) w None (timeEventHead l) maxId 0.

(** The time-out of [aeApiPoll]; [None]: no limit. *)
Definition poll_timeout (w : World) (flags : Z) : outcome (option (Z * Z) * World) :=
  let! shortest := if has flags AE_TIME_EVENTS && negb (has flags AE_DONT_WAIT)
                   then aeSearchNearestTimer w else Ret None in
  match shortest with
  | Some te =>
    let '(now_sec, now_ms, w) := aeGetTime w in
    let! s := slong (when_sec te - now_sec) in
    let! s := slong (s * 1000) in
    let! ms := slong (s + when_ms te) in
    let! ms := slong (ms - now_ms) in
    Ret (Some (if 0 <? ms then (Z.quot ms 1000, Z.rem ms 1000 * 1000) else (0, 0)), w)
  | None => Ret (if has flags AE_DONT_WAIT then Some (0, 0) else None, w)
  end.

(** The kernel returns at most [setsize] events. *)
Definition aeApiPoll (w : World) (tvp : option (Z * Z)) : outcome (Z * World) :=
  let! t := match tvp with
            | Some (s, us) => let! s := slong (s * 1000) in let! t := slong (s + Z.quot us 1000) in Ret (s32 t)
            | None => Ret (-1)
            end in
  let '(evs, d) := epoll_wait (env w) (interest (el w)) (setsize (el w)) t in
  let fs := map (fun e => (e.1, of_epoll e.2)) evs in
  defined (zlen fs <=? zlen (fired (el w))) ;;
  Ret (zlen fs, mkWorld (set_fired (el w) (fs ++ zdrop (zlen fs) (fired (el w)))) d).

(** One round of the loop over the fired events. *)
Definition dispatch (w : World) (j : Z) : outcome World :=
  let! (fd, mask) := deref (znth (fired (el w)) j) in
  let! fe := deref (znth (events (el w)) fd) in
  let rfired := has (Z.land (fe_mask fe) mask) AE_READABLE in
  let! w := if rfired then let! p := deref (rfileProc fe) in callF p fd (fe_data fe) mask w else Ret w in
  let! fe := deref (znth (events (el w)) fd) in
  if has (Z.land (fe_mask fe) mask) AE_WRITABLE then
    if negb rfired || negb (bool_decide (wfileProc fe = rfileProc fe)) then
      let! p := deref (wfileProc fe) in callF p fd (fe_data fe) mask w
    else Ret w
  else Ret w.

(** [for (j = 0; j < numevents; j++)], [n] being the rounds left. *)
Fixpoint file_loop (n : nat) (j : Z) (w : World) : outcome World :=
  match n with
  | O => Ret w
  | S n => let! w := dispatch w j in file_loop n (j + 1) w
  end.

Definition aeProcessEvents (w : World) (flags : Z) : outcome (Z * World) :=
  if negb (has flags AE_TIME_EVENTS) && negb (has flags AE_FILE_EVENTS) then Ret (0, w) else
  let! (processed, w) :=
    if negb (maxfd (el w) =? -1) || (has flags AE_TIME_EVENTS && negb (has flags AE_DONT_WAIT)) then
      let! (tvp, w) := poll_timeout w flags in
      let! (n, w) := aeApiPoll w tvp in
      let! w := match aftersleep (el w) with
                | Some h => if has flags AE_CALL_AFTER_SLEEP then callH h None w else Ret w
                | None => Ret w
                end in
      let! w := file_loop (Z.to_nat n) 0 w in
      Ret (n, w)
    else Ret (0, w) in
  if has flags AE_TIME_EVENTS then
    let! (p, w) := processTimeEvents w in Ret (processed + p, w)
  else Ret (processed, w).

(** [n] bounds the number of iterations. *)
Fixpoint main_loop (n : nat) (w : World) : outcome World :=
  if negb (stop (el w) =? 0) then Ret w else
  match n with
  | O => OutOfFuel
  | S n =>
    let! w := match beforesleep (el w) with Some h => callH h None w | None => Ret w end in
    let! (_, w) := aeProcessEvents w (Z.lor AE_ALL_EVENTS AE_CALL_AFTER_SLEEP) in
    main_loop n w
  end.

Definition aeMain (n : nat) (w : World) : outcome World :=
  main_loop n (mkWorld (set_stop (el w) 0) (env w)).
End process.

(** [aeWait]: [poll] answers its return value and [revents]. *)
Definition aeWait (poll : Z -> Z -> Z -> Z * Z) (fd mask milliseconds : Z) : Z :=
  let pfd := Z.lor (if has mask AE_READABLE then 1 else 0) (if has mask AE_WRITABLE then 4 else 0) in
  let '(retval, revents) := poll fd pfd (s32 milliseconds) in
  if retval =? 1 then
    Z.lor (if has revents 1 then AE_READABLE else 0)
      (Z.lor (if has revents 4 then AE_WRITABLE else 0)
        (Z.lor (if has revents 8 then AE_WRITABLE else 0) (if has revents 16 then AE_WRITABLE else 0)))
  else retval.

(** ** The list of time events
    A list of nodes, each with its address and without its link, stands for
    the heap in which each node is linked to the next. *)
Section links.
Context {F T H C : Type}.
Notation node := (Z * aeTimeEvent T H C)%type.
Implicit Types (L : list node) (te : aeTimeEvent T H C).

Definition haddr (L : list node) : option Z := fst <$> head L.

Fixpoint link (L : list node) : gmap Z (aeTimeEvent T H C) :=
  match L with
  | [] => ∅
  | (a, te) :: L => <[a := te_set_next te (haddr L)]> (link L)
  end.

(** The nodes reached from [p]. *)
Fixpoint walk (n : nat) (h : gmap Z (aeTimeEvent T H C)) (p : option Z) : list node :=
  match n, p with
  | S n, Some a =>
    match h !! a with
    | Some te => (a, te_set_next te None) :: walk n h (te_next te)
    | None => []
    end
  | _, _ => []
  end.

Definition timers (l : aeEventLoop F T H C) : list node :=
  walk (size (te_heap l)) (te_heap l) (timeEventHead l).

Definition put_timers (l : aeEventLoop F T H C) (L : list node) : aeEventLoop F T H C :=
  set_timers l (haddr L) (link L).

Definition plain (L : list node) : Prop := Forall (fun x => te_next x.2 = None) L.

(** The loop's list is [L], and nothing else is allocated. *)
Definition holds_timers (l : aeEventLoop F T H C) (L : list node) : Prop :=
  NoDup L.*1 /\ plain L /\ timeEventHead l = haddr L /\ te_heap l = link L.

Lemma link_lookup_None L a : a ∉ L.*1 -> link L !! a = None.
Proof.
  induction L as [|[b te] L IH]; simpl; [done|]. rewrite not_elem_of_cons. intros [Hb Ha].
  rewrite lookup_insert_ne by done. by apply IH.
Qed.

Lemma link_lookup L1 a te L2 :
  NoDup (L1 ++ (a, te) :: L2).*1 -> link (L1 ++ (a, te) :: L2) !! a = Some (te_set_next te (haddr L2)).
Proof.
  induction L1 as [|[b tb] L1 IH]; simpl; [by rewrite lookup_insert_eq|].
  intros [Hb Hn]%NoDup_cons. rewrite lookup_insert_ne; [by apply IH|].
  intros ->. apply Hb. rewrite fmap_app. set_solver.
Qed.

Lemma haddr_replace L1 a te te' L2 : haddr (L1 ++ (a, te) :: L2) = haddr (L1 ++ (a, te') :: L2).
Proof. by destruct L1. Qed.

Lemma link_update L1 a te te' L2 :
  NoDup (L1 ++ (a, te) :: L2).*1 ->
  <[a := te_set_next te' (haddr L2)]> (link (L1 ++ (a, te) :: L2)) = link (L1 ++ (a, te') :: L2).
Proof.
  induction L1 as [|[b tb] L1 IH]; simpl; [intros _; apply insert_insert_eq|].
  intros [Hb Hn]%NoDup_cons. rewrite insert_insert_ne; [|].
  - by rewrite (haddr_replace L1 a te te'), IH.
  - intros ->. apply Hb. rewrite fmap_app. set_solver.
Qed.

Lemma link_unlink_head a te L : NoDup (a :: L.*1) -> delete a (<[a := te]> (link L)) = link L.
Proof. intros [Ha _]%NoDup_cons. rewrite delete_insert_eq. apply delete_id. by apply link_lookup_None. Qed.

Lemma link_unlink L1 b tb a te L2 :
  NoDup (L1 ++ (b, tb) :: (a, te) :: L2).*1 ->
  delete a (<[b := te_set_next tb (haddr L2)]> (link (L1 ++ (b, tb) :: (a, te) :: L2)))
  = link (L1 ++ (b, tb) :: L2).
Proof.
  intros Hn. induction L1 as [|[c tc] L1 IH].
  - simpl in *. apply NoDup_cons in Hn as [Hb Hn]. apply not_elem_of_cons in Hb as [Hba Hb].
    rewrite insert_insert_eq, delete_insert_ne by done.
    by rewrite link_unlink_head.
  - simpl in *. apply NoDup_cons in Hn as [Hc Hn]. rewrite fmap_app in Hc. simpl in Hc.
    rewrite !elem_of_app, !elem_of_cons in Hc.
    assert (b <> c) by (intros ->; apply Hc; auto). assert (c <> a) by (intros ->; apply Hc; auto).
    rewrite insert_insert_ne, delete_insert_ne, IH by done. f_equal. by destruct L1.
Qed.

Lemma link_size L : NoDup L.*1 -> size (link L) = length L.
Proof.
  induction L as [|[a te] L IH]; simpl; [done|]. intros [Ha Hn]%NoDup_cons.
  rewrite map_size_insert_None by (by apply link_lookup_None). by rewrite IH.
Qed.

Lemma link_fmap L (f : aeTimeEvent T H C -> aeTimeEvent T H C) :
  (forall te n, f (te_set_next te n) = te_set_next (f te) n) ->
  link (prod_map id f <$> L) = f <$> link L.
Proof.
  intros Hf. induction L as [|[a te] L IH]; csimpl; [by rewrite fmap_empty|].
  rewrite fmap_insert, Hf, IH. do 2 f_equal. by destruct L as [|[]].
Qed.

Lemma te_set_next_plain te n : te_next te = None -> te_set_next (te_set_next te n) None = te.
Proof. destruct te. simpl. by intros ->. Qed.

Lemma walk_link L1 L n :
  NoDup (L1 ++ L).*1 -> plain L -> (length L <= n)%nat ->
  walk n (link (L1 ++ L)) (haddr L) = L.
Proof.
  revert L1 n. induction L as [|[a te] L IH]; intros L1 n Hn Hp Hl; [by destruct n|].
  destruct n as [|n]; simpl in Hl; [lia|]. apply Forall_cons_1 in Hp as [Hte Hp]. simpl.
  rewrite link_lookup by done. rewrite te_set_next_plain by done. f_equal.
  simpl. replace (L1 ++ (a, te) :: L) with ((L1 ++ [(a, te)]) ++ L) by (by rewrite <- app_assoc).
  apply IH; [by rewrite <- app_assoc|done|lia].
Qed.

Lemma timers_eq l L : holds_timers l L -> timers l = L.
Proof.
  intros (Hn & Hp & Hh & Hl). unfold timers. rewrite Hh, Hl.
  apply (walk_link []); [done|done|]. by rewrite link_size.
Qed.
End links.

(** ** What the operations do to the list *)
Section timer_ops.
Context {D F T H C : Type} `{Sys D} `{Allocator}.
Notation node := (Z * aeTimeEvent T H C)%type.
Notation World := (world D F T H C).
Implicit Types (L : list node) (te : aeTimeEvent T H C) (w : World).

(** Marking the first node with an id. *)
Fixpoint mark (id : Z) (L : list node) : option (list node) :=
  match L with
  | [] => None
  | (a, te) :: L =>
    if te_id te =? id then Some ((a, te_set_id te AE_DELETED_EVENT_ID) :: L)
    else cons (a, te) <$> mark id L
  end.

(** The list may be followed by other nodes of the heap, [X]. *)
Lemma delete_time_loop_ok X L1 L n id :
  NoDup (L1 ++ L).*1 -> (length L < n)%nat ->
  delete_time_loop n (link (L1 ++ L) ∪ X) (haddr L) id = Ret ((fun M => link (L1 ++ M) ∪ X) <$> mark id L).
Proof.
  revert L1 n. induction L as [|[a te] L IH]; intros L1 n Hn Hl; (destruct n as [|n]; [simpl in Hl; lia|]); [done|].
  simpl delete_time_loop. rewrite (lookup_union_Some_l _ _ _ _ (link_lookup L1 a te L Hn)). cbn [deref].
  rewrite ret_bind. simpl te_id. simpl mark.
  destruct (te_id te =? id) eqn:E.
  - simpl. by rewrite <- (link_update L1 a te (te_set_id te AE_DELETED_EVENT_ID)), insert_union_l by done.
  - simpl te_next. replace (L1 ++ (a, te) :: L) with ((L1 ++ [(a, te)]) ++ L) in * by (by rewrite <- app_assoc).
    rewrite IH by (done || simpl in Hl; lia). f_equal. destruct (mark id L); [|done]. simpl.
    by rewrite <- app_assoc.
Qed.

Lemma skew_loop_ok L1 L n :
  NoDup (L1 ++ L).*1 -> (length L < n)%nat ->
  skew_loop n (link (L1 ++ L)) (haddr L)
  = Ret (link (L1 ++ (prod_map id (fun te => te_set_when te 0 (when_ms te)) <$> L))).
Proof.
  revert L1 n. induction L as [|[a te] L IH]; intros L1 n Hn Hl; (destruct n as [|n]; [simpl in Hl; lia|]); [done|].
  simpl skew_loop. rewrite link_lookup by done. cbn [deref]. rewrite ret_bind.
  change (te_set_when (te_set_next te (haddr L)) 0 (when_ms (te_set_next te (haddr L))))
    with (te_set_next (te_set_when te 0 (when_ms te)) (haddr L)).
  rewrite link_update by done. simpl te_next. set (te' := te_set_when te 0 (when_ms te)).
  replace (L1 ++ (a, te') :: L) with ((L1 ++ [(a, te')]) ++ L) by (by rewrite <- app_assoc).
  rewrite IH; [by rewrite <- app_assoc| |simpl in Hl; lia].
  rewrite !fmap_app in *. simpl in *. by rewrite <- app_assoc.
Qed.

(** The loop's list is [L]; the heap holds [X] beside it. *)
Definition holds_beside (X : gmap Z (aeTimeEvent T H C)) (l : aeEventLoop F T H C) (L : list node) : Prop :=
  NoDup L.*1 /\ plain L /\ timeEventHead l = haddr L /\ te_heap l = link L ∪ X.

(** Every id in use has been given out, once. *)
Record timers_wf (X : gmap Z (aeTimeEvent T H C)) (l : aeEventLoop F T H C) (L : list node) : Prop := {
  wf_beside : holds_beside X l L;
  wf_brk a : a ∈ L.*1 -> a < te_brk l;
  wf_other a : is_Some (X !! a) -> a ∉ L.*1 /\ a < te_brk l;
  wf_nextId : 0 <= timeEventNextId l;
  wf_ids a te : (a, te) ∈ L -> te_id te = AE_DELETED_EVENT_ID \/ 0 <= te_id te < timeEventNextId l;
  wf_live a b ta tb : (a, ta) ∈ L -> (b, tb) ∈ L -> te_id ta = te_id tb ->
    te_id ta <> AE_DELETED_EVENT_ID -> a = b
}.

Lemma wf_holds l L : timers_wf ∅ l L -> holds_timers l L.
Proof. intros [(? & ? & ? & E) _ _ _ _ _]. rewrite map_union_empty in E. done. Qed.

Lemma holds_wf l L : holds_timers l L -> holds_beside ∅ l L.
Proof. intros (? & ? & ? & E). unfold holds_beside. by rewrite map_union_empty. Qed.

(** A node is unchanged or has been marked. *)
Definition marked (x y : node) : Prop :=
  y = x \/ y = (x.1, te_set_id x.2 AE_DELETED_EVENT_ID).

(** What a callback may do to the list: nodes in front, marks. *)
Definition grown (L L' : list node) : Prop :=
  exists new M, L' = new ++ M /\ Forall2 marked L M.

#[export] Instance marked_preorder : PreOrder marked.
Proof. split; [by left|]. intros [] [] []. unfold marked. naive_solver. Qed.

#[export] Instance grown_preorder : PreOrder grown.
Proof.
  split.
  - intros L. by exists [], L.
  - intros L1 L2 L3 (n1 & M1 & -> & HM1) (n2 & M2 & -> & HM2).
    apply Forall2_app_inv_l in HM2 as (k1 & k2 & Hk1 & Hk2 & ->).
    exists (n2 ++ k1), k2. split; [by rewrite app_assoc|]. by transitivity M1.
Qed.

Lemma grown_addrs L L' : grown L L' -> exists new, L'.*1 = new ++ L.*1.
Proof.
  intros (new & M & -> & HM). exists new.*1. rewrite fmap_app. f_equal.
  induction HM as [|x y L M Hxy HM IH]; [done|]. csimpl. rewrite IH. f_equal. by destruct Hxy as [-> | ->].
Qed.

Lemma mark_grown i L M : mark i L = Some M -> Forall2 marked L M.
Proof.
  revert M. induction L as [|[a te] L IH]; simpl; [done|]. intros M.
  destruct (te_id te =? i).
  - intros [= <-]. constructor; [by right|done].
  - intros (M' & E & ->)%fmap_Some. constructor; [by left|by apply IH].
Qed.

Lemma marked_addrs L M : Forall2 marked L M -> M.*1 = L.*1.
Proof. induction 1 as [|x y L M [-> | ->] ? IH]; csimpl; congruence. Qed.

Lemma marked_plain L M : Forall2 marked L M -> plain L -> plain M.
Proof.
  unfold plain. induction 1 as [|x y L M Hxy ? IH]; [done|]. intros [Hx HL]%Forall_cons_1.
  constructor; [by destruct Hxy as [-> | ->]|by apply IH].
Qed.

(** Marking keeps the list well-formed. *)
Lemma wf_marked X l L M :
  timers_wf X l L -> Forall2 marked L M -> timers_wf X (set_timers l (haddr M) (link M ∪ X)) M.
Proof.
  intros [(Hn & Hp & _ & _) Hb Ho Hi Hids Hl] HM.
  assert (forall a te, (a, te) ∈ M -> (a, te) ∈ L \/ exists t0, (a, t0) ∈ L /\ te = te_set_id t0 AE_DELETED_EVENT_ID)
    as Hin.
  { intros a te Ha. apply list_elem_of_lookup in Ha as [k Hk].
    destruct (Forall2_lookup_r _ _ _ _ _ HM Hk) as ([b tb] & Hbk & [E | E]); simpl in E; simplify_eq.
    - left. by eapply list_elem_of_lookup_2.
    - right. exists tb. split; [by eapply list_elem_of_lookup_2|done]. }
  split; simpl.
  - split_and!; [by rewrite (marked_addrs L)|by apply (marked_plain L)|done|done].
  - rewrite (marked_addrs L) by done. done.
  - rewrite (marked_addrs L) by done. done.
  - done.
  - intros a te [?|(t0 & ? & ->)]%Hin; [by eapply Hids|by left].
  - intros a b ta tb [Ha|(t0 & ? & ->)]%Hin [Hb'|(t1 & ? & ->)]%Hin E Hne; simpl in *; try done.
    by eapply Hl.
Qed.

(** The world changed only outside the timers. *)
Definition same_timers (l l' : aeEventLoop F T H C) : Prop :=
  timeEventHead l' = timeEventHead l /\ te_heap l' = te_heap l /\ te_brk l' = te_brk l /\
  timeEventNextId l' = timeEventNextId l.

Lemma wf_same X l l' L : same_timers l l' -> timers_wf X l L -> timers_wf X l' L.
Proof.
  intros (E1 & E2 & E3 & E4) [(Hn & Hp & Hh & Hl) ? ? ? ? ?].
  split; rewrite ?E3, ?E4; try done. unfold holds_beside. by rewrite E1, E2.
Qed.

Lemma slong_bind {A} x (f : Z -> outcome A) r : mbind f (slong x) = Ret r -> f x = Ret r.
Proof. unfold slong. by case_bool_decide. Qed.

Lemma add_ms_loop w ms s m w' : aeAddMillisecondsToNow w ms = Ret (s, m, w') -> el w' = el w.
Proof.
  unfold aeAddMillisecondsToNow, aeGetTime. destruct (gettimeofday (env w)) as [[sec us] d].
  intros E%slong_bind%slong_bind. destruct (1000 <=? _); [apply slong_bind in E|]; by injection E as _ _ <-.
Qed.

(** What an operation of the interface does to the list; [c]: it may create
    events. *)
Definition evolves (c : bool) (w w' : World) : Prop :=
  forall X L, timers_wf X (el w) L ->
  exists L', timers_wf X (el w') L' /\ grown L L' /\ (c = false -> Forall2 marked L L').

#[export] Instance evolves_preorder c : PreOrder (evolves c).
Proof.
  split.
  - intros w X L HL. by exists L.
  - intros w1 w2 w3 H12 H23 X L HL. destruct (H12 X L HL) as (L2 & HL2 & Hg & Hm).
    destruct (H23 X L2 HL2) as (L3 & HL3 & Hg' & Hm'). exists L3. split; [done|]. split; [by transitivity L2|].
    intros Hc. transitivity L2; auto.
Qed.

Lemma same_evolves c w w' : same_timers (el w) (el w') -> evolves c w w'.
Proof. intros Hs X L HL. exists L. split; [by eapply wf_same|done]. Qed.

Lemma create_time_evolves w ms p c f r w' :
  aeCreateTimeEvent w ms p c f = Ret (r, w') -> evolves true w w'.
Proof.
  unfold aeCreateTimeEvent, slong. case_bool_decide as Hr; [|done]. rewrite ret_bind.
  set (n := timeEventNextId (el w)) in *.
  destruct (negb (alloc_ok 56)).
  { intros [= _ <-] X L [HL ? ? ? Hids ?]. exists L. split; [|done].
    split; simpl; try done; [lia|]. intros a te Ha. destruct (Hids a te Ha); [by left|right; lia]. }
  destruct (aeAddMillisecondsToNow _ _) as [[[s m'] w1]| | |] eqn:Em; try done.
  apply add_ms_loop in Em. rewrite ret_bind, Em. cbn [el].
  intros [= _ <-] X L [(Hn & Hp & Hh & Hl) Hb Ho Hi Hids Hlv].
  set (te := mkTE n s m' p f c None). set (a := te_brk (el w)) in *.
  assert (a ∉ L.*1) as Ha by (intros Ha; apply Hb in Ha; lia).
  exists ((a, te) :: L). split; [|split; [by exists [(a, te)], L|done]].
  split; simpl.
  - split_and!; [by constructor|by constructor|done|]. rewrite Hh, Hl. simpl. by rewrite insert_union_l.
  - intros b [-> |Hin]%elem_of_cons; [lia|]. apply Hb in Hin. lia.
  - intros b Hx. destruct (Ho b Hx). rewrite not_elem_of_cons. split; [split; [lia|done]|lia].
  - lia.
  - intros b tb [[= -> ->]|Hin]%elem_of_cons; [right; simpl; lia|].
    destruct (Hids _ _ Hin); [by left|right; lia].
  - intros b c' tb tc [[= -> ->]|Hin]%elem_of_cons [[= -> ->]|Hin']%elem_of_cons E Hne; simpl in *; try done.
    + destruct (Hids _ _ Hin'); [congruence|lia].
    + destruct (Hids _ _ Hin); [congruence|lia].
    + by eapply Hlv.
Qed.

Lemma beside_size X l L : timers_wf X l L -> (length L <= size (te_heap l))%nat.
Proof.
  intros [(Hn & _ & _ & ->) _ Ho _ _ _]. rewrite map_size_disj_union, link_size by
    (done || (apply map_disjoint_spec; intros a x y Hx Hy; destruct (Ho a) as [Ha _]; [by eexists|];
      by rewrite link_lookup_None in Hx)). lia.
Qed.

Lemma delete_time_evolves c w i r w' : aeDeleteTimeEvent w i = Ret (r, w') -> evolves c w w'.
Proof.
  unfold aeDeleteTimeEvent. intros E X L HL. pose proof (beside_size _ _ _ HL) as Hsz.
  destruct (HL) as [(Hn & Hp & Hh & Hl) _ _ _ _ _].
  rewrite Hl in Hsz. rewrite Hh, Hl, (delete_time_loop_ok X [] L), ret_bind in E by (done || lia).
  destruct (mark i L) as [M|] eqn:Em; simpl in E.
  - assert (el w' = set_timers (el w) (haddr M) (link M ∪ X)) as ->.
    { assert (haddr M = haddr L) as ->; [|by injection E as _ <-].
      clear -Em. destruct L as [|[a te] L]; simpl in Em; [done|]. by repeat case_match; simplify_option_eq. }
    apply mark_grown in Em. exists M. split; [by eapply wf_marked|]. split; [by exists [], M|done].
  - injection E as _ <-. by exists L.
Qed.
End timer_ops.

(** ** The table of file events *)
Section masks.

(** Only the two bits of ae are set. *)
Definition mask_ok (m : Z) : Prop := Z.land m 3 = m.

Lemma has_testbit m i : 0 <= i -> has m (2 ^ i) = Z.testbit m i.
Proof.
  intros Hi. unfold has. destruct (Z.testbit m i) eqn:E.
  - destruct (Z.eqb_spec (Z.land m (2 ^ i)) 0) as [Hz|]; [|done].
    assert (Z.testbit (Z.land m (2 ^ i)) i = true) as Ht; [|by rewrite Hz, Z.bits_0 in Ht].
    by rewrite Z.land_spec, E, Z.pow2_bits_true.
  - destruct (Z.eqb_spec (Z.land m (2 ^ i)) 0) as [|Hz]; [done|]. destruct Hz.
    apply Z.bits_inj'. intros j Hj. rewrite Z.land_spec, Z.bits_0.
    destruct (decide (j = i)) as [->|]; [by rewrite E|]. by rewrite Z.pow2_bits_false, andb_false_r.
Qed.

Lemma has_lor a b i : 0 <= i -> has (Z.lor a b) (2 ^ i) = has a (2 ^ i) || has b (2 ^ i).
Proof. intros Hi. by rewrite !has_testbit, Z.lor_spec. Qed.

Lemma has_land_l a b i : 0 <= i -> has (Z.land a b) (2 ^ i) = true -> has a (2 ^ i) = true.
Proof. intros Hi. rewrite !has_testbit, Z.land_spec by done. by intros [? _]%andb_true_iff. Qed.

Lemma mask_ok_lor a b : mask_ok a -> mask_ok b -> mask_ok (Z.lor a b).
Proof. unfold mask_ok. intros Ha Hb. by rewrite Z.land_lor_distr_l, Ha, Hb. Qed.

Lemma mask_ok_land a b : mask_ok a -> mask_ok (Z.land a b).
Proof. unfold mask_ok. intros Ha. by rewrite <- Z.land_assoc, (Z.land_comm b), Z.land_assoc, Ha. Qed.

Lemma mask_ok_cases m : mask_ok m -> m = 0 \/ m = 1 \/ m = 2 \/ m = 3.
Proof.
  unfold mask_ok. intros E. change 3 with (Z.ones 2) in E. rewrite Z.land_ones in E by lia.
  pose proof (Z.mod_pos_bound m (2 ^ 2) ltac:(lia)). lia.
Qed.

Lemma lor_nonzero a b : b <> 0 -> Z.lor a b <> 0.
Proof. intros Hb E. by apply Z.lor_eq_0_iff in E as [_ ?]. Qed.

(** Epoll is asked for what ae wants, and answers in its terms. *)
Lemma of_to_epoll m : mask_ok m -> of_epoll (to_epoll m) = m.
Proof. by intros [-> | [-> | [-> | ->]]]%mask_ok_cases. Qed.
End masks.

Section files.
Context {D F T H C : Type} `{Sys D} `{Allocator}.
Notation World := (world D F T H C).
Implicit Types (l : aeEventLoop F T H C) (w : World).

Definition mask_at l (fd : Z) : Z :=
  match znth (events l) fd with Some fe => fe_mask fe | None => AE_NONE end.

(** What a registered descriptor has. *)
Definition fe_ok (fe : aeFileEvent F C) : Prop :=
  mask_ok (fe_mask fe) /\
  (has (fe_mask fe) AE_READABLE = true -> is_Some (rfileProc fe)) /\
  (has (fe_mask fe) AE_WRITABLE = true -> is_Some (wfileProc fe)).

Record files_wf l : Prop := {
  fw_size : zlen (events l) = setsize l;
  fw_max : -1 <= maxfd l < setsize l;
  fw_above fd : maxfd l < fd -> mask_at l fd = AE_NONE;
  fw_top : maxfd l <> -1 -> mask_at l (maxfd l) <> AE_NONE;
  fw_fe fd fe : znth (events l) fd = Some fe -> fe_ok fe
}.

(** The interest set of epoll is what the table says. *)
Definition interest_wf l : Prop :=
  forall fd, interest l !! fd = if mask_at l fd =? AE_NONE then None else Some (to_epoll (mask_at l fd)).

Lemma last_used_ok (es : list (aeFileEvent F C)) n :
  (last_used es n = -1 \/ 0 <= last_used es n < Z.of_nat n /\
     exists fe, znth es (last_used es n) = Some fe /\ fe_mask fe <> AE_NONE) /\
  (forall fd fe, last_used es n < fd < Z.of_nat n -> znth es fd = Some fe -> fe_mask fe = AE_NONE).
Proof.
  induction n as [|n [IHl IHa]]; simpl last_used; [split; [by left|intros; lia]|].
  assert (znth es (Z.of_nat n) = es !! n) as Hn.
  { unfold znth. by rewrite bool_decide_true, Nat2Z.id by lia. }
  destruct (es !! n) as [fe|] eqn:E; [destruct (Z.eqb_spec (fe_mask fe) AE_NONE)|].
  - split; [destruct IHl as [|[? ?]]; [by left|right; split; [lia|done]]|].
    intros fd fe' Hfd Hfe. destruct (decide (fd = Z.of_nat n)) as [->|]; [congruence|]. eapply IHa; [|done]. lia.
  - split; [right; split; [lia|by exists fe]|]. intros fd fe' Hfd. lia.
  - split; [destruct IHl as [|[? ?]]; [by left|right; split; [lia|done]]|].
    intros fd fe' Hfd Hfe. destruct (decide (fd = Z.of_nat n)) as [->|]; [congruence|]. eapply IHa; [|done]. lia.
Qed.

(** Descriptors that are registered are open: the kernel does not refuse to
    change or to remove them. *)
Definition registered_open : Prop :=
  forall d op fd, op <> EPOLL_CTL_ADD -> (ctl_refuses d op fd).1 = false.

(** One slot and the interest set change together. *)
Lemma files_wf_set l fd fe i m :
  files_wf l -> 0 <= fd < setsize l -> fe_ok fe ->
  -1 <= m < setsize l ->
  (forall fd', m < fd' -> (if decide (fd = fd') then fe_mask fe else mask_at l fd') = AE_NONE) ->
  (m <> -1 -> (if decide (fd = m) then fe_mask fe else mask_at l m) <> AE_NONE) ->
  let l' := set_events (set_interest l i) (<[Z.to_nat fd := fe]> (events l)) m in
  files_wf l' /\ forall fd', mask_at l' fd' = if decide (fd = fd') then fe_mask fe else mask_at l fd'.
Proof.
  intros [Hs Hm Ha Ht Hf] Hfd Hfe Hmr Hab Htop.
  assert (0 <= fd < zlen (events l)) as Hz by lia.
  assert (forall fd', mask_at (set_events (set_interest l i) (<[Z.to_nat fd := fe]> (events l)) m) fd'
     = if decide (fd = fd') then fe_mask fe else mask_at l fd') as E.
  { intros fd'. unfold mask_at. simpl. rewrite znth_insert by done. by destruct (decide (fd = fd')). }
  split; [|exact E]. split.
  - simpl. by rewrite zlen_insert.
  - done.
  - intros fd' Hlt. rewrite E. by apply Hab.
  - intros Hne. rewrite E. by apply Htop.
  - intros fd' fe'. simpl. rewrite znth_insert by done. destruct (decide (fd = fd')); [by intros [= <-]|by apply Hf].
Qed.

Lemma interest_wf_set l l' fd m :
  interest_wf l -> (forall fd', mask_at l' fd' = if decide (fd = fd') then m else mask_at l fd') ->
  interest l' !! fd = (if m =? AE_NONE then None else Some (to_epoll m)) ->
  (forall fd', fd' <> fd -> interest l' !! fd' = interest l !! fd') ->
  interest_wf l'.
Proof.
  intros Hi E Hfd Hio fd'. rewrite E. destruct (decide (fd = fd')) as [<-|]; [done|]. by rewrite Hio.
Qed.

Lemma add_event_ok w fd mask ok w' :
  aeApiAddEvent w fd mask = Ret (ok, w') ->
  if ok then exists fe, znth (events (el w)) fd = Some fe /\
    el w' = set_interest (el w) (<[fd := to_epoll (Z.lor (fe_mask fe) mask)]> (interest (el w)))
  else el w' = el w.
Proof.
  unfold aeApiAddEvent. destruct (znth (events (el w)) fd) as [fe|] eqn:Hfe; [|done].
  cbn [deref]. rewrite ret_bind.
  destruct (ctl_refuses (env w) _ fd) as [r d]. destruct r; [by intros [= <- <-]|]. unfold epoll_ctl.
  rewrite (Z.lor_comm mask).
  destruct (fe_mask fe =? AE_NONE); destruct (interest (el w) !! fd); intros [= <- <-]; by try exists fe.
Qed.

Lemma create_file_wf w fd mask p c r w' :
  files_wf (el w) -> mask_ok mask -> mask <> AE_NONE ->
  aeCreateFileEvent w fd mask p c = Ret (r, w') ->
  files_wf (el w') /\ (interest_wf (el w) -> interest_wf (el w')).
Proof.
  intros Hw Hm Hne. unfold aeCreateFileEvent.
  destruct (Z.leb_spec (setsize (el w)) fd) as [|Hfd]; [by intros [= _ <-]|].
  destruct (aeApiAddEvent w fd mask) as [[ok w1]| | |] eqn:Ea; try done. rewrite ret_bind.
  apply add_event_ok in Ea. destruct ok; cbn [negb].
  2: { intros [= _ <-]. by rewrite Ea. }
  destruct Ea as (fe & Hfe & E1). rewrite E1. cbn [events set_interest maxfd]. rewrite Hfe. cbn [deref].
  rewrite ret_bind. pose proof (znth_inv _ _ _ Hfe) as Hr. unfold arr_set. rewrite bool_decide_true by done.
  rewrite ret_bind. intros [= _ <-]. cbn [el].
  destruct (fw_fe _ Hw _ _ Hfe) as (Hok & HR & HW). rewrite (fw_size _ Hw) in Hr.
  destruct (fw_max _ Hw).
  assert (fe_mask fe ≠ 0 -> fd <= maxfd (el w)) as Hle.
  { intros Hnz. destruct (decide (fd <= maxfd (el w))); [done|]. destruct Hnz.
    pose proof (fw_above _ Hw fd) as Hab. unfold mask_at in Hab. rewrite Hfe in Hab. apply Hab. lia. }
  set (fe' := mkFE _ _ _ _). set (i := <[_ := _]> _).
  edestruct (files_wf_set (el w) fd fe' i) as [Hw' E]; [done|done| | | | |split; [exact Hw'|]]; cbn [fe_mask fe'].
  - split_and!; cbn [fe' fe_mask rfileProc wfileProc]; [by apply mask_ok_lor| |].
    + change AE_READABLE with (2 ^ 0). rewrite has_lor by lia. destruct (has mask (2 ^ 0)); [by eexists|].
      rewrite orb_false_r. exact HR.
    + change AE_WRITABLE with (2 ^ 1). rewrite has_lor by lia. destruct (has mask (2 ^ 1)); [by eexists|].
      rewrite orb_false_r. exact HW.
  - destruct (Z.ltb_spec (maxfd (el w)) fd); lia.
  - intros fd' Hlt. destruct (decide (fd = fd')) as [<-|].
    + destruct (Z.ltb_spec (maxfd (el w)) fd); lia.
    + apply (fw_above _ Hw). destruct (Z.ltb_spec (maxfd (el w)) fd); lia.
  - intros Hn1. destruct (Z.ltb_spec (maxfd (el w)) fd).
    + destruct (decide (fd = fd)); [by apply lor_nonzero|done].
    + destruct (decide (fd = maxfd (el w))); [by apply lor_nonzero|by apply (fw_top _ Hw)].
  - intros Hi. eapply interest_wf_set; [exact Hi|exact E| |]; cbn.
    + unfold i. rewrite lookup_insert_eq. destruct (Z.eqb_spec (Z.lor (fe_mask fe) mask) AE_NONE) as [E'|]; [|done].
      by apply lor_nonzero in E'.
    + intros fd' Hfd'. unfold i. by rewrite lookup_insert_ne.
Qed.

Lemma del_event_ok w fd mask w' fe :
  znth (events (el w)) fd = Some fe -> fe_mask fe <> AE_NONE -> aeApiDelEvent w fd mask = Ret w' ->
  let m := Z.land (fe_mask fe) (Z.lnot mask) in
  exists i, el w' = set_interest (el w) i /\
    (registered_open -> interest_wf (el w) -> i !! fd = (if m =? AE_NONE then None else Some (to_epoll m))) /\
    (forall fd', fd' <> fd -> i !! fd' = interest (el w) !! fd').
Proof.
  intros Hfe Hne. unfold aeApiDelEvent. rewrite Hfe. cbn [deref]. rewrite ret_bind.
  set (m := Z.land (fe_mask fe) (Z.lnot mask)). cbv zeta.
  set (op := if negb (m =? AE_NONE) then _ else _).
  assert (registered_open -> (ctl_refuses (env w) op fd).1 = false) as Hro.
  { intros Hro. apply Hro. unfold op. by destruct (negb _). }
  destruct (ctl_refuses (env w) op fd) as [r d]. cbn in Hro.
  assert (interest_wf (el w) -> exists e, interest (el w) !! fd = Some e) as Hin.
  { intros Hi. rewrite (Hi fd). unfold mask_at. rewrite Hfe. destruct (Z.eqb_spec (fe_mask fe) AE_NONE); [done|]. by eexists. }
  destruct (epoll_ctl r op fd (to_epoll m) (interest (el w))) as [i|] eqn:Ec; intros [= <-]; cbn [el].
  - exists i. split; [done|]. unfold epoll_ctl in Ec. destruct r; [done|]. unfold op in Ec.
    destruct (interest (el w) !! fd) eqn:Ei; destruct (m =? AE_NONE) eqn:Em; cbn [negb] in Ec; simplify_eq.
    + split; [intros _ _; apply lookup_delete_eq|]. intros fd' Hfd'. by rewrite lookup_delete_ne.
    + split; [intros _ _; apply lookup_insert_eq|]. intros fd' Hfd'. by rewrite lookup_insert_ne.
  - exists (interest (el w)). split; [by destruct (el w)|]. split; [|done]. intros Hr Hi.
    rewrite (Hro Hr) in Ec. destruct (Hin Hi) as [e Ei]. unfold epoll_ctl, op in Ec. rewrite Ei in Ec.
    by destruct (negb _).
Qed.

Lemma delete_file_wf w fd mask w' :
  files_wf (el w) -> aeDeleteFileEvent w fd mask = Ret w' ->
  files_wf (el w') /\ (registered_open -> interest_wf (el w) -> interest_wf (el w')).
Proof.
  intros Hw. unfold aeDeleteFileEvent.
  destruct (Z.leb_spec (setsize (el w)) fd) as [|Hfd]; [by intros [= <-]|].
  destruct (znth (events (el w)) fd) as [fe|] eqn:Hfe; [|done]. cbn [deref]. rewrite ret_bind.
  destruct (Z.eqb_spec (fe_mask fe) AE_NONE) as [|Hne]; [by intros [= <-]|].
  destruct (aeApiDelEvent w fd mask) as [w1| | |] eqn:Ed; try done. rewrite ret_bind.
  destruct (del_event_ok _ _ _ _ _ Hfe Hne Ed) as (i & -> & Hi & Hio).
  pose proof (znth_inv _ _ _ Hfe) as Hr. cbn [events set_interest maxfd]. unfold arr_set.
  rewrite bool_decide_true, ret_bind by done. intros [= <-]. cbn [el fe_mask].
  destruct (fw_fe _ Hw _ _ Hfe) as (Hok & HR & HW). rewrite (fw_size _ Hw) in Hr.
  destruct (fw_max _ Hw) as [Hm1 Hm2].
  set (m := Z.land (fe_mask fe) (Z.lnot mask)) in *. set (fe' := mkFE _ _ _ _). set (es := <[_ := _]> _).
  assert (fd <= maxfd (el w)) as Hle.
  { destruct (decide (fd <= maxfd (el w))); [done|]. destruct Hne.
    pose proof (fw_above _ Hw fd) as Hab. unfold mask_at in Hab. rewrite Hfe in Hab. apply Hab. lia. }
  assert (fe_ok fe') as Hfe'.
  { split_and!; cbn; [by apply mask_ok_land| |].
    - change AE_READABLE with (2 ^ 0). intros ?%has_land_l; [|lia]. by apply HR.
    - change AE_WRITABLE with (2 ^ 1). intros ?%has_land_l; [|lia]. by apply HW. }
  assert (forall mx, let l' := set_events (set_interest (el w) i) es mx in
    files_wf l' /\ (forall fd', mask_at l' fd' = if decide (fd = fd') then fe_mask fe' else mask_at (el w) fd') ->
    files_wf l' /\ (registered_open -> interest_wf (el w) -> interest_wf l')) as Hboth.
  { intros mx l' [Hl' E]. split; [exact Hl'|]. intros Hro Hint.
    eapply interest_wf_set; [exact Hint|exact E|by apply Hi|exact Hio]. }
  destruct ((fd =? maxfd (el w)) && (m =? AE_NONE)) eqn:Etop; apply Hboth.
  - apply andb_true_iff in Etop as [E1%Z.eqb_eq E2%Z.eqb_eq]. rewrite <- E1.
    destruct (last_used_ok es (Z.to_nat fd)) as [Hl Ha]. rewrite Z2Nat.id in Hl, Ha by lia.
    assert (forall fd', fd' <> fd -> znth es fd' = znth (events (el w)) fd') as Hes.
    { intros fd' Hn. unfold es. rewrite znth_insert by (rewrite (fw_size _ Hw); lia).
      by destruct (decide (fd = fd')). }
    apply files_wf_set; try done; cbn [fe_mask fe'].
    + destruct Hl as [-> |[? _]]; lia.
    + intros fd' Hlt. destruct (decide (fd = fd')); [done|].
      destruct (decide (fd < fd')); [apply (fw_above _ Hw); lia|]. unfold mask_at.
      destruct (znth (events (el w)) fd') as [f|] eqn:Ef; [|done]. eapply Ha; [|by rewrite Hes].
      split; [done|lia].
    + intros Hn1. destruct Hl as [|(Hlr & f & Hf & Hfn)]; [done|].
      destruct (decide (fd = last_used es (Z.to_nat fd))); [lia|]. unfold mask_at.
      rewrite <- Hes by lia. by rewrite Hf.
  - apply files_wf_set; try done; cbn [fe_mask fe'].
    + intros fd' Hlt. destruct (decide (fd = fd')); [lia|]. by apply (fw_above _ Hw).
    + intros Hn1. destruct (decide (fd = maxfd (el w))) as [E|]; [|by apply (fw_top _ Hw)].
      apply Z.eqb_eq in E. rewrite E in Etop. cbn in Etop. by apply Z.eqb_neq in Etop.
Qed.

(** Resizing keeps the table: the slots that are dropped or made are free. *)
Lemma resize_wf w n r w' :
  aeResizeSetSize w n = Ret (r, w') -> files_wf (el w) ->
  files_wf (el w') /\ (interest_wf (el w) -> interest_wf (el w')).
Proof.
  unfold aeResizeSetSize. destruct (n =? setsize (el w)); [by intros [= _ <-]|].
  destruct (Z.leb_spec n (maxfd (el w))) as [|Hlt]; [by intros [= _ <-]|].
  unfold defined. destruct (_ && _ && _); [|done]. rewrite ret_bind. intros [= _ <-] Hf. cbn [el].
  set (es := ztake _ _ ++ _). set (l' := set_size _ _ _ _).
  pose proof (fw_max _ Hf) as Hmax. pose proof (fw_size _ Hf) as Hsz.
  assert (forall fd, znth es fd = if bool_decide (fd < maxfd (el w) + 1) then znth (events (el w)) fd
    else znth (replicate (Z.to_nat (n - (maxfd (el w) + 1))) (mkFE AE_NONE None None None)) (fd - (maxfd (el w) + 1))) as Hes.
  { intros fd. unfold es. rewrite znth_app, zlen_ztake. rewrite Hsz.
    replace (Z.max 0 _ `min` _) with (maxfd (el w) + 1) by lia. case_bool_decide; [|done].
    unfold znth, ztake. case_bool_decide; [|done]. by rewrite lookup_take_lt by lia. }
  assert (forall fd, mask_at l' fd = mask_at (el w) fd) as Hm.
  { intros fd. unfold mask_at at 1. simpl. rewrite Hes. case_bool_decide; [done|].
    rewrite (fw_above _ Hf fd) by lia. destruct (znth _ _) as [fe|] eqn:E; [|done].
    apply znth_elem_of in E. by apply elem_of_replicate in E as [-> _]. }
  split; [|by intros Hi fd; rewrite Hm; apply Hi].
  split; try (intros fd; rewrite Hm); try apply Hf.
  - simpl. unfold es. rewrite zlen_app, zlen_ztake, Hsz. unfold zlen. rewrite length_replicate. lia.
  - simpl. lia.
  - done.
  - intros fd fe. simpl. rewrite Hes. case_bool_decide; [apply Hf|]. intros E.
    apply znth_elem_of in E. by apply elem_of_replicate in E as [-> _].
Qed.

(** What holds of the table; [strict]: nothing registered is refused, nor
    closed while it is registered. *)
Definition table_wf (strict : bool) l : Prop := files_wf l /\ (strict = true -> interest_wf l).
End files.

(** ** Callbacks that use the interface *)
Section interface.
Context {D F T H C : Type} `{Sys D} `{Allocator}.
Notation World := (world D F T H C).
Implicit Types w : World.

(** One call of the interface, or anything outside the loop.  The kernel drops
    a descriptor that is closed from the interest set. *)
Inductive api_step (strict creates resizes : bool) : World -> World -> Prop :=
| api_create_file w fd mask p c r w' :
    mask_ok mask -> mask <> AE_NONE -> aeCreateFileEvent w fd mask p c = Ret (r, w') ->
    api_step strict creates resizes w w'
| api_delete_file w fd mask w' : aeDeleteFileEvent w fd mask = Ret w' -> api_step strict creates resizes w w'
| api_create_time w ms p c f r w' :
    creates = true -> aeCreateTimeEvent w ms p c f = Ret (r, w') -> api_step strict creates resizes w w'
| api_delete_time w i r w' : aeDeleteTimeEvent w i = Ret (r, w') -> api_step strict creates resizes w w'
| api_resize w n r w' : resizes = true -> aeResizeSetSize w n = Ret (r, w') -> api_step strict creates resizes w w'
| api_before w h : api_step strict creates resizes w (aeSetBeforeSleepProc w h)
| api_after w h : api_step strict creates resizes w (aeSetAfterSleepProc w h)
| api_stop w : api_step strict creates resizes w (aeStop w)
| api_close w fd d :
    (strict = true -> mask_at (el w) fd = AE_NONE) ->
    api_step strict creates resizes w (mkWorld (set_interest (el w) (delete fd (interest (el w)))) d)
| api_io w d : api_step strict creates resizes w (mkWorld (el w) d).

(** What a callback does that uses nothing else. *)
Definition api (strict creates resizes : bool) : World -> World -> Prop := rtc (api_step strict creates resizes).

(** The operations on files leave the timers alone, and conversely. *)
Definition same_files (l l' : aeEventLoop F T H C) : Prop :=
  maxfd l' = maxfd l /\ setsize l' = setsize l /\ events l' = events l /\ interest l' = interest l.

Lemma table_wf_same s l l' : same_files l l' -> table_wf s l -> table_wf s l'.
Proof.
  intros (E1 & E2 & E3 & E4) [[] Hi].
  assert (forall fd, mask_at l' fd = mask_at l fd) as Em by (intros fd; unfold mask_at; by rewrite E3).
  split; [|intros Hs fd; rewrite E4, Em; by apply Hi].
  split; rewrite ?E1, ?E2, ?E3, ?E4, ?Em; try done; intros fd; rewrite ?Em; auto.
Qed.

Lemma create_file_timers w fd mask p c r w' :
  aeCreateFileEvent w fd mask p c = Ret (r, w') -> same_timers (el w) (el w').
Proof.
  unfold aeCreateFileEvent. destruct (_ <=? fd); [by intros [= _ <-]|].
  destruct (aeApiAddEvent w fd mask) as [[ok w1]| | |] eqn:Ea; try done. rewrite ret_bind.
  assert (same_timers (el w) (el w1)) as Hs.
  { revert Ea. unfold aeApiAddEvent. destruct (znth _ _); [|done]. cbn [deref]. rewrite ret_bind.
    destruct (ctl_refuses _ _ _) as [r' d]. destruct (epoll_ctl _ _ _ _ _); by intros [= _ <-]. }
  destruct ok; [|by intros [= _ <-]]. cbn [negb]. destruct (znth _ _); [|done]. cbn [deref].
  rewrite ret_bind. destruct (arr_set _ _ _); try done. rewrite ret_bind. by intros [= _ <-].
Qed.

Lemma delete_file_timers w fd mask w' : aeDeleteFileEvent w fd mask = Ret w' -> same_timers (el w) (el w').
Proof.
  unfold aeDeleteFileEvent. destruct (_ <=? fd); [by intros [= <-]|].
  destruct (znth _ _); [|done]. cbn [deref]. rewrite ret_bind. destruct (_ =? AE_NONE); [by intros [= <-]|].
  destruct (aeApiDelEvent w fd mask) as [w1| | |] eqn:Ea; try done. rewrite ret_bind.
  assert (same_timers (el w) (el w1)) as Hs.
  { revert Ea. unfold aeApiDelEvent. destruct (znth _ _); [|done]. cbn [deref]. rewrite ret_bind.
    destruct (ctl_refuses _ _ _) as [r' d]. destruct (epoll_ctl _ _ _ _ _); by intros [= <-]. }
  destruct (arr_set _ _ _); try done. rewrite ret_bind. by intros [= <-].
Qed.

Lemma create_time_files w ms p c r f w' :
  aeCreateTimeEvent w ms p c f = Ret (r, w') -> same_files (el w) (el w').
Proof.
  unfold aeCreateTimeEvent. intros E%slong_bind. destruct (negb (alloc_ok 56)); [by injection E as _ <-|].
  destruct (aeAddMillisecondsToNow _ _) as [[[s m'] w1]| | |] eqn:Em; try done.
  apply add_ms_loop in Em. rewrite ret_bind, Em in E. by injection E as _ <-.
Qed.

Lemma delete_time_files w i r w' : aeDeleteTimeEvent w i = Ret (r, w') -> same_files (el w) (el w').
Proof.
  unfold aeDeleteTimeEvent. destruct (delete_time_loop _ _ _ _) as [[h|]| | |]; try done; rewrite ret_bind; by intros [= _ <-].
Qed.

Lemma resize_timers w n r w' : aeResizeSetSize w n = Ret (r, w') -> same_timers (el w) (el w').
Proof.
  unfold aeResizeSetSize. destruct (n =? setsize (el w)); [by intros [= _ <-]|].
  destruct (n <=? maxfd (el w)); [by intros [= _ <-]|].
  unfold defined. destruct (_ && _ && _); [|done]. rewrite ret_bind. by intros [= _ <-].
Qed.

Lemma close_wf s w fd (d : D) :
  (s = true -> mask_at (el w) fd = AE_NONE) -> table_wf s (el w) ->
  table_wf s (el (mkWorld (set_interest (el w) (delete fd (interest (el w)))) d)).
Proof.
  intros Hfd [[] Hi]. split; [by split|]. intros Hs fd'. cbn [el interest set_interest].
  change (mask_at (set_interest (el w) _) fd') with (mask_at (el w) fd'). rewrite lookup_delete. case_decide as E; [|by apply Hi].
  subst fd'. by rewrite Hfd.
Qed.

Lemma api_step_files s c r w w' :
  (s = true -> registered_open (D := D)) -> api_step s c r w w' -> table_wf s (el w) -> table_wf s (el w').
Proof.
  intros Hro Hs [Hw Hi]. inversion Hs; subst; [| | | | |by apply (table_wf_same s (el w))..| |].
  - match goal with E : aeCreateFileEvent _ _ _ _ _ = _ |- _ => apply create_file_wf in E as [? ?]; [split; auto|done..] end.
  - match goal with E : aeDeleteFileEvent _ _ _ = _ |- _ => apply delete_file_wf in E as [? ?]; [split; auto|done] end.
  - eapply table_wf_same; [by eapply create_time_files|done].
  - eapply table_wf_same; [by eapply delete_time_files|done].
  - match goal with E : aeResizeSetSize _ _ = _ |- _ => apply resize_wf in E as [? ?]; [split; auto|done] end.
  - by apply close_wf.
  - done.
Qed.

Lemma api_step_timers s c r w w' : api_step s c r w w' -> evolves c w w'.
Proof.
  intros []; [| | | | |by apply same_evolves..].
  - apply same_evolves. by eapply create_file_timers.
  - apply same_evolves. by eapply delete_file_timers.
  - subst. by eapply create_time_evolves.
  - by eapply delete_time_evolves.
  - apply same_evolves. by eapply resize_timers.
Qed.

Lemma api_files s c r w w' :
  (s = true -> registered_open (D := D)) -> api s c r w w' -> table_wf s (el w) -> table_wf s (el w').
Proof. intros Hro. induction 1; eauto using api_step_files. Qed.

Lemma api_timers s c r w w' : api s c r w w' -> evolves c w w'.
Proof. induction 1 as [|w1 w2 w3 Hs _ IH]; [done|]. transitivity w2; [by eapply api_step_timers|done]. Qed.
End interface.

(** ** One pass over the timers *)
Section pass.
Context {D F T H C : Type} `{Sys D} `{Allocator} `{EqDecision F}.
Notation node := (Z * aeTimeEvent T H C)%type.
Notation World := (world D F T H C).
Implicit Types (L : list node) (te : aeTimeEvent T H C) (w : World).
Context (callF : F -> Z -> option C -> Z -> World -> outcome World).
Context (callT : T -> Z -> C -> World -> outcome (Z * World)).
Context (callH : H -> option C -> World -> outcome World).

Fixpoint timer_at (a : Z) L : option (aeTimeEvent T H C) :=
  match L with
  | [] => None
  | (b, te) :: L => if a =? b then Some te else timer_at a L
  end.

Definition upd (a : Z) (f : aeTimeEvent T H C -> aeTimeEvent T H C) L : list node :=
  (fun x => if x.1 =? a then (x.1, f x.2) else x) <$> L.
Definition del (a : Z) L : list node := filter (fun x => x.1 <> a) L.

(** Changing the list as a list. *)
Definition on_timers (g : list node -> list node) w : World :=
  mkWorld (put_timers (el w) (g (timers (el w)))) (env w).

(** Taking the node at [a] off the list; it stays allocated. *)
Definition detach (a : Z) w : World :=
  let L := del a (timers (el w)) in
  let cell := te_heap (el w) !! a in
  mkWorld (set_timers (el w) (haddr L) (match cell with Some te => <[a := te]> (link L) | None => link L end)) (env w).

(** What a pass does: it visits the nodes that were in the list when it
    began, each once, in order, and looks at each as it then is: a marked
    node is taken off the list, its finalizer called, and freed; a due node
    is called and then rescheduled or marked. *)
Fixpoint visit (todo : list Z) w (processed : Z) : outcome (Z * World) :=
  match todo with
  | [] => Ret (processed, w)
  | a :: todo =>
    let! te := deref (timer_at a (timers (el w))) in
    if te_id te =? AE_DELETED_EVENT_ID then
      let! w := match finalizerProc te with
                | Some f => callH f (Some (te_data te)) (detach a w)
                | None => Ret (detach a w)
                end in
      visit todo (free_node w a) processed
    else
      let '(now_sec, now_ms, w) := aeGetTime w in
      if due te now_sec now_ms then
        let! (retval, w) := callT (timeProc te) (te_id te) (te_data te) w in
        let! w := if retval =? AE_NOMORE
                  then Ret (on_timers (upd a (fun te => te_set_id te AE_DELETED_EVENT_ID)) w)
                  else let! (s, ms, w) := aeAddMillisecondsToNow w retval in
                       Ret (on_timers (upd a (fun te => te_set_when te s ms)) w) in
        let! p := sint (processed + 1) in
        visit todo w p
      else visit todo w processed
  end.

Definition spec_pass w : outcome (Z * World) :=
  let '(now, d) := time (env w) in
  let w1 := mkWorld (set_lastTime (el w) now) d in
  let w1 := if now <? lastTime (el w)
            then on_timers (fmap (prod_map id (fun te => te_set_when te 0 (when_ms te)))) w1 else w1 in
  let! _ := slong (timeEventNextId (el w) - 1) in
  visit (timers (el w)).*1 w1 0.

Lemma timer_at_app L1 a te L2 : NoDup (L1 ++ (a, te) :: L2).*1 -> timer_at a (L1 ++ (a, te) :: L2) = Some te.
Proof.
  induction L1 as [|[b tb] L1 IH]; simpl; [by rewrite Z.eqb_refl|]. intros [Hb Hn]%NoDup_cons.
  destruct (Z.eqb_spec a b) as [->|]; [|by apply IH]. destruct Hb. rewrite fmap_app. set_solver.
Qed.

Lemma upd_notin a f L : a ∉ L.*1 -> upd a f L = L.
Proof.
  induction L as [|[b te] L IH]; [done|]. csimpl. rewrite not_elem_of_cons. intros [Hb Ha].
  destruct (Z.eqb_spec b a); [congruence|]. f_equal. by apply IH.
Qed.

Lemma upd_app L1 a te L2 f :
  NoDup (L1 ++ (a, te) :: L2).*1 -> upd a f (L1 ++ (a, te) :: L2) = L1 ++ (a, f te) :: L2.
Proof.
  rewrite fmap_app. csimpl. intros (_ & Hd & [Ha _]%NoDup_cons)%NoDup_app. unfold upd. rewrite fmap_app. csimpl.
  rewrite Z.eqb_refl. f_equal; [|f_equal]; apply upd_notin; [|done]. intros Hin. apply (Hd a Hin). by left.
Qed.

Lemma del_notin a L : a ∉ L.*1 -> del a L = L.
Proof.
  induction L as [|[b te] L IH]; [done|]. csimpl. rewrite not_elem_of_cons. intros [Hb Ha].
  unfold del. rewrite filter_cons_True by (simpl; congruence). f_equal. by apply IH.
Qed.

Lemma del_app L1 a te L2 :
  NoDup (L1 ++ (a, te) :: L2).*1 -> del a (L1 ++ (a, te) :: L2) = L1 ++ L2.
Proof.
  rewrite fmap_app. csimpl. intros (_ & Hd & [Ha _]%NoDup_cons)%NoDup_app. unfold del.
  rewrite filter_app, filter_cons_False by (simpl; tauto).
  f_equal; apply del_notin; [|done]. intros Hin. apply (Hd a Hin). by left.
Qed.

(** The pointer operations are the list operations. *)
Lemma set_node_upd w L1 a te L2 f :
  holds_timers (el w) (L1 ++ (a, te) :: L2) ->
  (forall n, f (te_set_next te n) = te_set_next (f te) n) ->
  te_heap (el w) !! a = Some (te_set_next te (haddr L2)) /\
  set_node w a (f (te_set_next te (haddr L2))) = on_timers (upd a f) w.
Proof.
  intros Hh Hf. pose proof (timers_eq _ _ Hh) as E. destruct Hh as (Hn & Hp & Hhd & Hl).
  split; [by rewrite Hl, link_lookup|].
  unfold set_node, on_timers, put_timers. rewrite E, upd_app, Hf, Hhd, Hl, link_update by done.
  by rewrite (haddr_replace L1 a te (f te)).
Qed.

Lemma remove_node_detach w pre a te todo :
  holds_timers (el w) (pre ++ (a, te) :: todo) ->
  remove_node callH w (fst <$> last pre) a (te_set_next te (haddr todo)) =
  (let! w := match finalizerProc te with
             | Some f => callH f (Some (te_data te)) (detach a w)
             | None => Ret (detach a w)
             end in Ret (free_node w a)).
Proof.
  intros Hh. pose proof (timers_eq _ _ Hh) as E. destruct Hh as (Hn & Hp & Hhd & Hl).
  unfold remove_node. cbn [te_next te_set_next].
  assert (unlink w (fst <$> last pre) (haddr todo) = Ret (detach a w)) as ->; [|by rewrite ret_bind].
  unfold detach. rewrite E, del_app, Hl, link_lookup by done.
  destruct pre as [|[b tb] pre _] using rev_ind; simpl.
  - by rewrite Hl.
  - rewrite last_snoc. simpl. rewrite <- app_assoc in *. simpl in *. rewrite Hl, link_lookup by done. cbn [deref].
    rewrite !ret_bind. unfold set_node. rewrite Hl, Hhd. do 3 f_equal; [by destruct pre|].
    rewrite <- (link_unlink pre b tb a te todo) by done. rewrite insert_delete_eq.
    assert (a <> b) as Hab.
    { rewrite fmap_app in Hn. csimpl in Hn. intros ->. apply NoDup_app in Hn as (_ & _ & [Hx _]%NoDup_cons).
      apply Hx. by left. }
    rewrite insert_insert_ne by done. do 2 f_equal. symmetry. apply insert_id.
    pose proof (link_lookup (pre ++ [(b, tb)]) a te todo) as Hlk. rewrite <- app_assoc in Hlk. by apply Hlk.
Qed.

(** A node taken off the list is beside it, until it is freed. *)
Lemma wf_detach w L1 a te L2 :
  timers_wf ∅ (el w) (L1 ++ (a, te) :: L2) ->
  timers_wf {[a := te_set_next te (haddr L2)]} (el (detach a w)) (L1 ++ L2).
Proof.
  intros HL. pose proof (wf_holds _ _ HL) as Hh. pose proof (timers_eq _ _ Hh) as E.
  destruct Hh as (Hn & Hp & _ & Hl). destruct HL as [_ Hb _ Hi Hids Hlv].
  assert (forall x, x ∈ L1 ++ L2 -> x ∈ L1 ++ (a, te) :: L2) as Hin.
  { intros x. rewrite !elem_of_app, elem_of_cons. tauto. }
  assert (forall b, b ∈ (L1 ++ L2).*1 -> b ∈ (L1 ++ (a, te) :: L2).*1) as Hin1.
  { intros b. rewrite !fmap_app. csimpl. rewrite !elem_of_app, elem_of_cons. tauto. }
  assert (NoDup (L1 ++ L2).*1 /\ a ∉ (L1 ++ L2).*1) as [Hn2 Ha].
  { rewrite fmap_app in *. csimpl in Hn. apply NoDup_app in Hn as (H1' & H2' & [H3' H4']%NoDup_cons).
    split; [apply NoDup_app; split_and!; [done| |done]; intros b Hb1 Hb2; apply (H2' b Hb1); by right|].
    rewrite elem_of_app. intros [Hx|Hx]; [|done]. apply (H2' a Hx). by left. }
  unfold detach. rewrite E, del_app, Hl, link_lookup by done. split; simpl; eauto.
  - split_and!; [done|unfold plain in *; rewrite !Forall_forall in *; eauto|done|].
    by rewrite insert_union_singleton_r by (by apply link_lookup_None).
  - intros b [x [<- _]%lookup_singleton_Some]. split; [done|]. apply Hb. rewrite fmap_app. csimpl. set_solver.
Qed.

Lemma wf_free w L a te : timers_wf {[a := te]} (el w) L -> timers_wf ∅ (el (free_node w a)) L.
Proof.
  intros [(Hn & Hp & Hh & Hl) Hb Ho Hi Hids Hlv]. destruct (Ho a) as [Ha _]; [rewrite lookup_singleton_eq; by eexists|].
  split; simpl; try done; [|intros b [x Hx]; by rewrite lookup_empty in Hx].
  split_and!; [done..|]. simpl. rewrite Hl, delete_union, delete_singleton_eq.
  by rewrite delete_id by (by apply link_lookup_None).
Qed.

(** Changing a node's time keeps the list well-formed. *)
Lemma wf_update w L1 a te L2 f :
  timers_wf ∅ (el w) (L1 ++ (a, te) :: L2) ->
  (forall te, te_next (f te) = te_next te /\ (te_id (f te) = te_id te \/ te_id (f te) = AE_DELETED_EVENT_ID)) ->
  timers_wf ∅ (el (on_timers (upd a f) w)) (L1 ++ (a, f te) :: L2).
Proof.
  intros HL Hff. pose proof (wf_holds _ _ HL) as Hh. pose proof (timers_eq _ _ Hh) as E.
  destruct Hh as (Hn & Hp & _ & _). destruct HL as [_ Hb Ho Hi Hids Hlv].
  assert ((L1 ++ (a, f te) :: L2).*1 = (L1 ++ (a, te) :: L2).*1) as Ea by (rewrite !fmap_app; done).
  assert (forall b tb, (b, tb) ∈ L1 ++ (a, f te) :: L2 ->
    exists t0, (b, t0) ∈ L1 ++ (a, te) :: L2 /\ (tb = t0 \/ tb = f t0)) as Hin.
  { intros b tb. rewrite !elem_of_app, !elem_of_cons. intros [?|[[= -> ->]|?]].
    - exists tb. rewrite elem_of_app. auto.
    - exists te. rewrite elem_of_app, elem_of_cons. auto.
    - exists tb. rewrite elem_of_app, elem_of_cons. auto. }
  unfold on_timers, put_timers. rewrite E, upd_app by done. split; simpl.
  - split_and!; [by rewrite Ea| |done|by rewrite map_union_empty]. unfold plain in *.
    apply Forall_app in Hp as [H1' [H2' H3']%Forall_cons_1].
    apply Forall_app. split; [done|]. constructor; [|done]. simpl in *. by destruct (Hff te) as (-> & _).
  - by rewrite Ea.
  - intros b [x Hx]. by rewrite lookup_empty in Hx.
  - done.
  - intros b tb (t0 & H0' & [-> | ->])%Hin; [by eapply Hids|].
    destruct (Hff t0) as (_ & [-> | ->]); [by eapply Hids|by left].
  - intros b c tb tc (t0 & H0' & Et)%Hin (t1 & H1' & Et')%Hin Hee Hne.
    eapply (Hlv b c t0 t1); [done|done| |].
    + destruct (Hff t0) as (_ & Hf0), (Hff t1) as (_ & Hf1).
      destruct Et as [-> | ->], Et' as [-> | ->], Hf0, Hf1; congruence.
    + destruct (Hff t0) as (_ & Hf0). destruct Et as [-> | ->], Hf0; congruence.
Qed.

(** Time callbacks use the interface; so do finalizers, and make no timers. *)
Context (strict : bool).
Context (callT_api : forall t i c w r w', callT t i c w = Ret (r, w') -> api strict true true w w').
Context (callH_fin : forall h c w w', callH h (Some c) w = Ret w' -> api strict false true w w').

(** A callback leaves the nodes already visited and those to come in place. *)
Lemma api_split w w' new done_ a te todo :
  api strict true true w w' -> timers_wf ∅ (el w) (new ++ done_ ++ (a, te) :: todo) ->
  exists new' done' te' todo', timers_wf ∅ (el w') (new' ++ done' ++ (a, te') :: todo') /\
    Forall2 marked done_ done' /\ marked (a, te) (a, te') /\ Forall2 marked todo todo'.
Proof.
  intros Hapi HL. destruct (api_timers _ _ _ _ _ Hapi _ _ HL) as (L' & HL' & (new0 & M & -> & HM) & _).
  apply Forall2_app_inv_l in HM as (M1 & M' & HM1 & HM' & ->).
  apply Forall2_app_inv_l in HM' as (M2 & M'' & HM2 & HM'' & ->).
  apply Forall2_cons_inv_l in HM'' as ([b te'] & M3 & Hm & HM3 & ->).
  assert (b = a) as -> by (by destruct Hm as [[= -> ->]|[= -> ->]]).
  exists (new0 ++ M1), M2, te', M3. by rewrite <- app_assoc.
Qed.

(** Removing a node, its finalizer included, leaves the others in place. *)
Lemma remove_split w w' L1 a te L2 :
  timers_wf ∅ (el w) (L1 ++ (a, te) :: L2) ->
  match finalizerProc te with Some f => callH f (Some (te_data te)) (detach a w) | None => Ret (detach a w) end = Ret w' ->
  exists L', timers_wf ∅ (el (free_node w' a)) L' /\ Forall2 marked (L1 ++ L2) L'.
Proof.
  intros HL E. apply wf_detach in HL. set (X := {[a := _]}) in HL.
  assert (exists L', timers_wf X (el w') L' /\ Forall2 marked (L1 ++ L2) L') as (L' & HL' & Hm).
  { destruct (finalizerProc te) as [f|]; [|injection E as <-; by exists (L1 ++ L2)].
    apply callH_fin, api_timers in E. destruct (E _ _ HL) as (L' & HL' & _ & Hm). exists L'. auto. }
  exists L'. split; [|done]. by eapply wf_free.
Qed.

Lemma marked_id (x y : node) : marked x y -> te_id y.2 = te_id x.2 \/ te_id y.2 = AE_DELETED_EVENT_ID.
Proof. intros [-> | ->]; [by left|by right]. Qed.

Definition ids_below (n : Z) L : Prop := Forall (fun x => te_id x.2 <= n) L.

Lemma ids_below_marked n L M : -1 <= n -> Forall2 marked L M -> ids_below n L -> ids_below n M.
Proof.
  unfold ids_below. intros Hn. induction 1 as [|x y L M Hxy _ IH]; [done|]. intros [Hx HL]%Forall_cons_1.
  constructor; [|by apply IH]. unfold AE_DELETED_EVENT_ID in *. destruct (marked_id _ _ Hxy) as [-> | ->]; [done|].
  unfold AE_DELETED_EVENT_ID. lia.
Qed.

Lemma last_addr_marked (L M : list node) : Forall2 marked L M -> fst <$> last M = fst <$> last L.
Proof. intros HM. rewrite <- !fmap_last. f_equal. by apply marked_addrs. Qed.

Lemma haddr_marked (L M : list node) : Forall2 marked L M -> haddr M = haddr L.
Proof. by intros [|x y ? ? [-> | ->]]. Qed.

Lemma last_addr_app (new done_ : list node) :
  (done_ = [] -> new = []) -> fst <$> last (new ++ done_) = fst <$> last done_.
Proof.
  destruct done_ as [|x done_ _] using rev_ind; [by intros -> |]. intros _. by rewrite app_assoc, !last_snoc.
Qed.

(** Changing the node just called, and going on to the next. *)
Lemma after_call w f new done_ a te todo {A} (k : World -> option Z -> outcome A) :
  timers_wf ∅ (el w) (new ++ done_ ++ (a, te) :: todo) ->
  (forall te, te_next (f te) = te_next te /\ (te_id (f te) = te_id te \/ te_id (f te) = AE_DELETED_EVENT_ID)) ->
  (forall te n, f (te_set_next te n) = te_set_next (f te) n) ->
  let w' := on_timers (upd a f) w in
  timers_wf ∅ (el w') (new ++ (done_ ++ [(a, f te)]) ++ todo) /\
  (let! w := (let! te := deref (te_heap (el w) !! a) in Ret (set_node w a (f te))) in
   let! te := deref (te_heap (el w) !! a) in k w (te_next te)) = k w' (haddr todo).
Proof.
  intros HL Hff Hcomm w'. pose proof (wf_holds _ _ HL) as Hh. rewrite app_assoc in Hh.
  destruct (set_node_upd w (new ++ done_) a te todo f Hh) as [Hat Hset]; [done|].
  assert (timers_wf ∅ (el w') (new ++ (done_ ++ [(a, f te)]) ++ todo)) as HL'.
  { rewrite <- (app_assoc done_), app_assoc. apply wf_update; [|done]. by rewrite <- app_assoc. }
  split; [done|]. rewrite Hat. cbn [deref]. rewrite !ret_bind, Hset. fold w'.
  pose proof (wf_holds _ _ HL') as Hh'. rewrite <- (app_assoc done_), app_assoc in Hh'.
  by destruct (set_node_upd w' (new ++ done_) a (f te) todo (fun te => te) Hh') as [-> _].
Qed.

(** The walk over the pointers visits the list. *)
Lemma time_loop_visit : forall n todo new done_ w maxId p,
  timers_wf ∅ (el w) (new ++ done_ ++ todo) -> (done_ = [] -> new = []) -> (length todo < n)%nat ->
  -1 <= maxId -> ids_below maxId todo ->
  time_loop callT callH n w (fst <$> last done_) (haddr todo) maxId p = visit todo.*1 w p.
Proof.
  induction n as [|n IH]; intros [|[a te] todo] new done_ w maxId p HL Hnew Hn Hm Hids;
    [simpl in Hn; lia..|done|].
  pose proof (wf_holds _ _ HL) as Hh. rewrite app_assoc in Hh. pose proof (timers_eq _ _ Hh) as Et.
  destruct (set_node_upd w (new ++ done_) a te todo (fun te => te) Hh) as [Hat _]; [done|].
  apply Forall_cons_1 in Hids as [Hid Hids]. simpl in Hid, Hn.
  cbn [time_loop haddr head fmap option_fmap option_map fst]. csimpl. rewrite Hat. cbn [deref]. rewrite ret_bind.
  rewrite Et, timer_at_app by (apply Hh). cbn [deref]. rewrite ret_bind. cbn [te_id te_set_next].
  destruct (te_id te =? AE_DELETED_EVENT_ID) eqn:Ed.
  { rewrite <- (last_addr_app new) by done. rewrite (remove_node_detach w _ a te todo) by done.
    destruct (match finalizerProc te with Some f => callH f (Some (te_data te)) (detach a w) | None => Ret (detach a w) end)
      as [w1| | |] eqn:Er; try done. rewrite !ret_bind. cbn [te_next te_set_next].
    rewrite app_assoc in HL. destruct (remove_split _ _ _ _ _ _ HL Er) as (L' & HL' & HM).
    rewrite <- app_assoc in HM. apply Forall2_app_inv_l in HM as (new' & M & Hn' & HM & ->).
    apply Forall2_app_inv_l in HM as (done' & todo' & Hd' & Ht' & ->).
    rewrite last_addr_app by done. rewrite <- (last_addr_marked done_ done'), <- (marked_addrs todo todo') by done.
    rewrite <- (haddr_marked todo todo') by done.
    apply (IH todo' new'); try done; [|rewrite <- (Forall2_length _ _ _ Ht'); lia|by eapply ids_below_marked].
    intros ->. apply Forall2_nil_inv_r in Hd' as ->. rewrite Hnew in Hn' by done. by apply Forall2_nil_inv_l in Hn'. }
  destruct (Z.ltb_spec maxId (te_id te)); [lia|]. unfold aeGetTime.
  destruct (gettimeofday (env w)) as [[sec us] d]. cbn [el env].
  change (due (te_set_next te (haddr todo))) with (due te). set (w1 := mkWorld (el w) d).
  destruct (due te sec (Z.quot us 1000)).
  2: { cbn [te_next te_set_next]. replace (Some a) with (fst <$> last (done_ ++ [(a, te)])) by (by rewrite last_snoc).
       apply (IH todo new); try done; [|by intros [_ ?]%app_eq_nil|lia]. by rewrite <- (app_assoc done_). }
  unfold fire_node. cbn [timeProc te_id te_data te_set_next].
  destruct (callT (timeProc te) (te_id te) (te_data te) w1) as [[rv w2]| | |] eqn:Ec; try done.
  rewrite !ret_bind. apply callT_api in Ec.
  destruct (api_split _ _ _ _ _ _ _ Ec HL) as (new2 & done2 & te2 & todo2 & HL2 & Hd2 & Ht2 & Htd2).
  assert (forall w3 (f : aeTimeEvent T H C -> aeTimeEvent T H C),
    timers_wf ∅ (el w3) (new2 ++ (done2 ++ [(a, f te2)]) ++ todo2) ->
    (let! p := sint (p + 1) in time_loop callT callH n w3 (Some a) (haddr todo2) maxId p)
    = let! p := sint (p + 1) in visit todo.*1 w3 p) as Hgo.
  { intros w3 f HL3. destruct (sint (p + 1)) as [p'| | |]; try done. rewrite !ret_bind.
    replace (Some a) with (fst <$> last (done2 ++ [(a, f te2)])) by (by rewrite last_snoc).
    rewrite <- (marked_addrs todo todo2) by done.
    apply (IH todo2 new2); try done; [by intros [_ ?]%app_eq_nil| |by eapply ids_below_marked].
    rewrite <- (Forall2_length _ _ _ Htd2). lia. }
  destruct (rv =? AE_NOMORE); cbn [negb].
  - destruct (after_call w2 (fun te => te_set_id te AE_DELETED_EVENT_ID) _ _ _ _ _
      (fun w nx => let! p := sint (p + 1) in time_loop callT callH n w (Some a) nx maxId p) HL2) as [HL3 ->];
      [intros t0; split_and!; [done..|by right]|done|]. by apply (Hgo _ (fun te => te_set_id te AE_DELETED_EVENT_ID)).
  - destruct (aeAddMillisecondsToNow w2 rv) as [[[s ms] w3]| | |] eqn:Ea; try done. rewrite !ret_bind.
    apply add_ms_loop in Ea. rewrite <- Ea in HL2.
    destruct (after_call w3 (fun te => te_set_when te s ms) _ _ _ _ _
      (fun w nx => let! p := sint (p + 1) in time_loop callT callH n w (Some a) nx maxId p) HL2) as [HL3 ->];
      [intros t0; split_and!; [done..|by left]|done|]. by apply (Hgo _ (fun te => te_set_when te s ms)).
Qed.

Lemma wf_lastTime (l : aeEventLoop F T H C) L n : timers_wf ∅ l L -> timers_wf ∅ (set_lastTime l n) L.
Proof. by apply wf_same. Qed.

(** The clock went back: every node is due at once. *)
Lemma wf_skew (l : aeEventLoop F T H C) L :
  timers_wf ∅ l L ->
  let M := prod_map id (fun te => te_set_when te 0 (when_ms te)) <$> L in
  timers_wf ∅ (set_timers l (haddr M) (link M)) M.
Proof.
  intros [(Hn & Hp & _ & _) Hb Ho Hi Hids Hlv] M.
  assert (M.*1 = L.*1) as E by (unfold M; rewrite <- list_fmap_compose; by apply list_fmap_ext; intros ? []).
  assert (forall a te, (a, te) ∈ M -> exists t0, (a, t0) ∈ L /\ te = te_set_when t0 0 (when_ms t0)) as Hin.
  { intros a te ([b tb] & [= -> ->] & ?)%list_elem_of_fmap. by exists tb. }
  split; simpl.
  - split_and!; [by rewrite E| |done|by rewrite map_union_empty]. unfold plain, M in *. rewrite Forall_fmap. done.
  - by rewrite E.
  - by rewrite E.
  - done.
  - intros a te (t0 & ? & ->)%Hin. simpl. by eapply Hids.
  - intros a b ta tb (t0 & ? & ->)%Hin (t1 & ? & ->)%Hin. simpl. by eapply Hlv.
Qed.

Lemma processTimeEvents_ok w L :
  timers_wf ∅ (el w) L -> processTimeEvents callT callH w = spec_pass w.
Proof.
  intros HL. unfold processTimeEvents, spec_pass. destruct (time (env w)) as [now d].
  pose proof (wf_holds _ _ HL) as Hh. pose proof (timers_eq _ _ Hh) as Et. destruct Hh as (Hn & Hp & Hhd & Hl).
  set (M := if now <? lastTime (el w) then prod_map id (fun te => te_set_when te 0 (when_ms te)) <$> L else L).
  assert (M.*1 = L.*1) as EM.
  { unfold M. destruct (now <? _); [|done]. rewrite <- list_fmap_compose. by apply list_fmap_ext; intros ? []. }
  assert (haddr M = haddr L) as EH by (unfold M; destruct (now <? _); by destruct L as [|[]]).
  assert ((if now <? lastTime (el w)
    then skew_loop (S (size (te_heap (el w)))) (te_heap (el w)) (timeEventHead (el w))
    else Ret (te_heap (el w))) = Ret (link M)) as ->.
  { unfold M. destruct (now <? _); [|by rewrite Hl]. rewrite Hhd, Hl. apply (skew_loop_ok [] L); [done|].
    rewrite link_size by done. lia. }
  rewrite ret_bind. set (w1 := if now <? lastTime (el w) then _ else _).
  assert (mkWorld (set_lastTime (set_timers (el w) (timeEventHead (el w)) (link M)) now) d = w1) as ->.
  { unfold w1, on_timers, put_timers. cbn [el env].
    change (timers (set_lastTime (el w) now)) with (timers (el w)). rewrite Et.
    revert EH. unfold M. destruct (now <? lastTime (el w)); intros EH.
    - cbn [el env]. by rewrite EH, Hhd.
    - rewrite <- Hl. by destruct w as [[] ?]. }
  assert (timers_wf ∅ (el w1) M) as HM.
  { unfold w1, M. destruct (now <? lastTime (el w)); [|by apply wf_lastTime].
    unfold on_timers, put_timers. cbn [el]. change (timers (set_lastTime (el w) now)) with (timers (el w)).
    rewrite Et. apply wf_skew. by apply wf_lastTime. }
  unfold slong. case_bool_decide; [|done]. rewrite !ret_bind, Et, <- EM, Hhd, <- EH.
  rewrite (link_size M) by (by rewrite EM).
  apply (time_loop_visit _ M [] []); [done|done|lia|pose proof (wf_nextId _ _ _ HL); lia|].
  unfold ids_below. apply Forall_forall. intros [a te] Ha. pose proof (wf_nextId _ _ _ HL).
  assert (timeEventNextId (el w1) = timeEventNextId (el w)) as Eid by (unfold w1; by destruct (now <? _)).
  simpl. destruct (wf_ids _ _ _ HM a te Ha) as [-> | Hr]; [unfold AE_DELETED_EVENT_ID; lia|]. lia.
Qed.
End pass.

(** ** The states of an event loop *)
Section reach.
Context {D F T H C : Type} `{Sys D} `{Allocator} `{EqDecision F}.
Notation World := (world D F T H C).
Implicit Types w : World.
Context (callF : F -> Z -> option C -> Z -> World -> outcome World).
Context (callT : T -> Z -> C -> World -> outcome (Z * World)).
Context (callH : H -> option C -> World -> outcome World).

(** The program calls the interface, runs an iteration, or enters [aeMain],
    which clears [stop] before its iterations. *)
Inductive loop_step (strict : bool) : World -> World -> Prop :=
| step_api w w' : api_step strict true true w w' -> loop_step strict w w'
| step_process w flags r w' : aeProcessEvents callF callT callH w flags = Ret (r, w') -> loop_step strict w w'
| step_main w : loop_step strict w (mkWorld (set_stop (el w) 0) (env w)).

Definition reachable (strict : bool) w : Prop :=
  exists e n d w0, 0 <= n /\ aeCreateEventLoop e n d = Some w0 /\ rtc (loop_step strict) w0 w.

Definition loop_wf (strict : bool) w : Prop := table_wf strict (el w) /\ exists L, timers_wf ∅ (el w) L.

(** What the callbacks may do: use the interface, without going back into the
    loop.  A file callback must not resize the table ([aeProcessEvents] holds
    a pointer into it); a finalizer must make no timers (see
    [finalizer_loses_timer]); events are registered for reading, writing or
    both.  [strict]: no descriptor is closed while it is
    registered, and the kernel refuses nothing for those that are. *)
Context (strict : bool).
Context (callF_api : forall f fd c m w w', callF f fd c m w = Ret w' -> api strict true false w w').
Context (callT_api : forall t i c w r w', callT t i c w = Ret (r, w') -> api strict true true w w').
Context (callH_fin : forall h c w w', callH h (Some c) w = Ret w' -> api strict false true w w').
Context (callH_hook : forall h w w', callH h None w = Ret w' -> api strict true true w w').
Context (Hopen : strict = true -> registered_open (D := D)).

Lemma api_loop c r w w' : api strict c r w w' -> loop_wf strict w -> loop_wf strict w'.
Proof.
  intros Ha [Hf [L HL]]. split; [by eapply api_files|].
  destruct (api_timers _ _ _ _ _ Ha _ L HL) as (L' & HL' & _). by exists L'.
Qed.

Lemma same_loop w w' :
  same_files (el w) (el w') -> same_timers (el w) (el w') -> loop_wf strict w -> loop_wf strict w'.
Proof. intros Hf Ht [Hw [L HL]]. split; [by eapply table_wf_same|]. exists L. by eapply wf_same. Qed.

Lemma create_loop e n d w : 0 <= n -> aeCreateEventLoop e n d = Some w -> loop_wf strict w.
Proof.
  intros Hn. unfold aeCreateEventLoop. repeat (case_match; [done|]). destruct (time d) as [t d'].
  case_match; [done|]. intros [= <-].
  assert (forall fd, mask_at (mkLoop (-1) n 0 t (replicate (Z.to_nat n) (mkFE AE_NONE None None None))
    (replicate (Z.to_nat n) (0, 0)) None (∅ : gmap Z (aeTimeEvent T H C)) 0 0 ∅ (None : option H) None : aeEventLoop F T H C) fd = AE_NONE) as Hm.
  { intros fd. unfold mask_at. simpl. destruct (znth _ fd) as [fe|] eqn:E; [|done].
    apply znth_elem_of in E. by apply elem_of_replicate in E as [-> _]. }
  split.
  - split; [|intros _ fd; rewrite Hm; apply lookup_empty].
    split; cbn [el]; try done; try (intros fd; rewrite Hm); try done.
    + simpl. unfold zlen. rewrite length_replicate. lia.
    + simpl. lia.
    + intros fd fe E. apply znth_elem_of in E. by apply elem_of_replicate in E as [-> _].
  - exists []. split; [split_and!; [constructor|constructor|done|done]|..|done| |].
    + intros a Ha. by apply not_elem_of_nil in Ha.
    + intros a [x Hx]. by rewrite lookup_empty in Hx.
    + intros a te Ha. by apply not_elem_of_nil in Ha.
    + intros a b ta tb Ha. by apply not_elem_of_nil in Ha.
Qed.

Lemma get_time_loop w s ms w' : aeGetTime w = (s, ms, w') -> el w' = el w.
Proof. unfold aeGetTime. destruct (gettimeofday (env w)) as [[? ?] ?]. by intros [= _ _ <-]. Qed.

Lemma timer_at_inv a (L : list (Z * aeTimeEvent T H C)) te :
  timer_at a L = Some te -> exists L1 L2, L = L1 ++ (a, te) :: L2.
Proof.
  induction L as [|[b tb] L IH]; simpl; [done|]. destruct (Z.eqb_spec a b) as [<-|].
  - intros [= ->]. by exists [], L.
  - intros (L1 & L2 & ->)%IH. by exists ((b, tb) :: L1), L2.
Qed.

(** Changing a node that may be there. *)
Lemma upd_loop a f w :
  (forall te, te_next (f te) = te_next te /\ (te_id (f te) = te_id te \/ te_id (f te) = AE_DELETED_EVENT_ID)) ->
  loop_wf strict w -> loop_wf strict (on_timers (upd a f) w).
Proof.
  intros Hff [Hf [L HL]]. split; [by apply (table_wf_same strict (el w))|].
  destruct (timer_at a L) as [te|] eqn:Ea.
  - destruct (timer_at_inv _ _ _ Ea) as (L1 & L2 & ->). exists (L1 ++ (a, f te) :: L2). by apply wf_update.
  - exists L. pose proof (wf_holds _ _ HL) as Hh. destruct HL.
    assert (upd a f L = L) as EL.
    { clear -Ea. induction L as [|[b tb] L IH]; [done|]. csimpl. simpl in Ea.
      rewrite Z.eqb_sym in Ea. destruct (b =? a); [done|]. f_equal. by apply IH. }
    unfold on_timers, put_timers. rewrite (timers_eq _ L), EL by done. split; try done. apply holds_wf. by destruct Hh as (? & ? & _).
Qed.

(** A pass keeps the invariant. *)
Lemma visit_loop : forall todo w p q w', visit callT callH todo w p = Ret (q, w') -> loop_wf strict w -> loop_wf strict w'.
Proof.
  induction todo as [|a todo IH]; intros w p q w'; [by intros [= _ <-]|].
  cbn [visit]. intros E Hw. destruct (Hw) as [Hf [L HL]].
  assert (timers (el w) = L) as Et by (by apply timers_eq, wf_holds). rewrite Et in E.
  destruct (timer_at a L) as [te|] eqn:Ea; [|done]. cbn [deref] in E. rewrite ret_bind in E.
  destruct (te_id te =? AE_DELETED_EVENT_ID).
  { destruct (timer_at_inv _ _ _ Ea) as (L1 & L2 & ->).
    match type of E with mbind _ ?m = _ => destruct m as [w1| | |] eqn:Er; try done end. rewrite ret_bind in E.
    eapply IH; [exact E|]. destruct (remove_split callH strict callH_fin _ _ _ _ _ _ HL Er) as (L' & HL' & _).
    split; [|by exists L']. apply (table_wf_same strict (el w1)); [done|].
    assert (table_wf strict (el (detach a w))) as Hd by (by apply (table_wf_same strict (el w))).
    destruct (finalizerProc te); [|by injection Er as <-].
    apply callH_fin in Er. exact (api_files _ _ _ _ _ Hopen Er Hd). }
  destruct (aeGetTime w) as [[s ms] w1] eqn:Eg. apply get_time_loop in Eg.
  assert (loop_wf strict w1) as Hw1 by (unfold loop_wf; rewrite Eg; by split; [|exists L]).
  destruct (due te s ms); [|by eapply IH].
  destruct (callT _ _ _ w1) as [[rv w2]| | |] eqn:Ec; try done. rewrite ret_bind in E.
  apply callT_api, api_loop in Ec as Hw2; [|done].
  match type of E with mbind _ ?m = _ => destruct m as [w3| | |] eqn:Eu; try done end. rewrite ret_bind in E.
  destruct (sint (p + 1)) as [p'| | |]; try done. rewrite ret_bind in E. eapply IH; [exact E|].
  destruct (rv =? AE_NOMORE).
  - injection Eu as <-. apply upd_loop; [|done]. intros t0. split; [done|by right].
  - destruct (aeAddMillisecondsToNow w2 rv) as [[[s' ms'] w4]| | |] eqn:Em; try done. rewrite ret_bind in Eu.
    apply add_ms_loop in Em. injection Eu as <-. apply upd_loop; [intros t0; split; [done|by left]|].
    unfold loop_wf. by rewrite Em.
Qed.

Lemma process_time_loop w p w' : processTimeEvents callT callH w = Ret (p, w') -> loop_wf strict w -> loop_wf strict w'.
Proof.
  intros E Hw. destruct (Hw) as [Hf [L HL]].
  rewrite (processTimeEvents_ok callT callH strict callT_api callH_fin w L) in E by done. unfold spec_pass in E.
  destruct (time (env w)) as [now d]. apply slong_bind in E. eapply visit_loop; [exact E|].
  destruct (now <? lastTime (el w)); [|by apply (same_loop w)].
  split; [by apply (table_wf_same strict (el w))|]. unfold on_timers, put_timers. cbn [el].
  change (timers (set_lastTime (el w) now)) with (timers (el w)).
  rewrite (timers_eq _ L) by (by apply wf_holds). eexists. apply (wf_skew (set_lastTime (el w) now)). by apply wf_lastTime.
Qed.

Lemma file_loop_wf n : forall j w w', file_loop callF n j w = Ret w' -> loop_wf strict w -> loop_wf strict w'.
Proof.
  induction n as [|n IH]; intros j w w'; simpl file_loop; [by intros [= <-]|].
  destruct (dispatch callF w j) as [w1| | |] eqn:Ed; try done. rewrite ret_bind. intros E Hw.
  eapply IH; [exact E|]. revert Ed. unfold dispatch.
  destruct (znth _ j) as [[fd mask]|]; [|done]. cbn [deref]. rewrite ret_bind.
  destruct (znth _ fd) as [fe|]; [|done]. cbn [deref]. rewrite ret_bind.
  match goal with |- mbind _ ?m = _ -> _ => destruct m as [w2| | |] eqn:E2; try done end. rewrite ret_bind.
  assert (loop_wf strict w2) as Hw2.
  { destruct (has _ AE_READABLE); [|by injection E2 as <-]. destruct (rfileProc fe); [|done].
    cbn [deref] in E2. rewrite ret_bind in E2. by eapply api_loop, Hw; eapply callF_api. }
  destruct (znth _ fd) as [fe2|]; [|done]. cbn [deref]. rewrite ret_bind.
  destruct (has _ AE_WRITABLE); [|by intros [= <-]]. destruct (_ || _); [|by intros [= <-]].
  destruct (wfileProc fe2); [|done]. cbn [deref]. rewrite ret_bind. intros ?%callF_api. by eapply api_loop.
Qed.

Lemma poll_timeout_loop w flags t w' : poll_timeout w flags = Ret (t, w') -> el w' = el w.
Proof.
  unfold poll_timeout. match goal with |- mbind _ ?m = _ -> _ => destruct m as [o| | |]; try done end.
  rewrite ret_bind. destruct o as [te|]; [|by intros [= _ <-]].
  destruct (aeGetTime w) as [[s ms] w1] eqn:Eg. apply get_time_loop in Eg.
  intros E%slong_bind%slong_bind%slong_bind%slong_bind. by injection E as _ <-.
Qed.

Lemma poll_loop w tvp n w' : aeApiPoll w tvp = Ret (n, w') -> loop_wf strict w -> loop_wf strict w'.
Proof.
  unfold aeApiPoll. match goal with |- mbind _ ?m = _ -> _ => destruct m as [o| | |]; try done end.
  rewrite ret_bind. destruct (epoll_wait _ _ _ _) as [evs d]. unfold defined.
  destruct (_ <=? _); [|done]. rewrite ret_bind. intros [= _ <-]. by apply same_loop.
Qed.

Lemma process_loop w flags r w' :
  aeProcessEvents callF callT callH w flags = Ret (r, w') -> loop_wf strict w -> loop_wf strict w'.
Proof.
  intros E Hw. revert E. unfold aeProcessEvents. destruct (_ && _); [by intros [= _ <-]|].
  match goal with |- mbind _ ?m = _ -> _ => destruct m as [[n w1]| | |] eqn:E1; try done end. rewrite ret_bind.
  assert (loop_wf strict w1) as Hw1.
  { revert E1. destruct (_ || _); [|by intros [= _ <-]].
    destruct (poll_timeout w flags) as [[tvp w2]| | |] eqn:E2; try done. rewrite ret_bind. apply poll_timeout_loop in E2.
    destruct (aeApiPoll w2 tvp) as [[k w3]| | |] eqn:E3; try done. rewrite ret_bind.
    apply poll_loop in E3; [|unfold loop_wf; by rewrite E2].
    match goal with |- mbind _ ?m = _ -> _ => destruct m as [w4| | |] eqn:E4; try done end. rewrite ret_bind.
    assert (loop_wf strict w4) as Hw4.
    { destruct (aftersleep (el w3)); [|by injection E4 as <-]. destruct (has _ _); [|by injection E4 as <-].
      by eapply api_loop, E3; eapply callH_hook. }
    destruct (file_loop _ _ _ w4) as [w5| | |] eqn:E5; try done. rewrite ret_bind. intros [= _ <-].
    by eapply file_loop_wf. }
  destruct (has flags AE_TIME_EVENTS); [|by intros [= _ <-]].
  destruct (processTimeEvents _ _ w1) as [[p w2]| | |] eqn:E2; try done. rewrite ret_bind. intros [= _ <-].
  by eapply process_time_loop.
Qed.

Lemma loop_step_wf w w' : loop_step strict w w' -> loop_wf strict w -> loop_wf strict w'.
Proof.
  intros []; [|by eapply process_loop|by apply same_loop].
  apply (api_loop true true). by apply rtc_once.
Qed.

Lemma reachable_wf w : reachable strict w -> loop_wf strict w.
Proof.
  intros (e & n & d & w0 & Hn & E & Hr). apply create_loop in E; [|done].
  clear Hn. induction Hr; [done|]. eauto using loop_step_wf.
Qed.

Lemma add_ms_fuel w ms : aeAddMillisecondsToNow w ms <> OutOfFuel.
Proof.
  unfold aeAddMillisecondsToNow, aeGetTime, slong. destruct (gettimeofday (env w)) as [[s u] d].
  repeat (case_bool_decide || case_match || rewrite ret_bind); done.
Qed.

Lemma visit_fuel : (forall t i c w, callT t i c w <> OutOfFuel) -> (forall h c w, callH h c w <> OutOfFuel) ->
  forall todo w p, visit callT callH todo w p <> OutOfFuel.
Proof.
  intros Hc Hh. induction todo as [|a todo IH]; intros w p; [done|]. cbn [visit].
  destruct (timer_at a _) as [te|]; [|done]. cbn [deref]. rewrite ret_bind.
  destruct (_ =? _).
  { destruct (finalizerProc te) as [f|]; [|rewrite ret_bind; apply IH].
    pose proof (Hh f (Some (te_data te)) (detach a w)). destruct (callH _ _ _); try done. rewrite ret_bind. apply IH. }
  destruct (aeGetTime w) as [[s ms] w1].
  destruct (due te s ms); [|apply IH]. pose proof (Hc (timeProc te) (te_id te) (te_data te) w1) as Hr.
  destruct (callT _ _ _ w1) as [[rv w2]| | |]; try done. rewrite ret_bind.
  match goal with |- mbind _ ?m <> _ => assert (m <> OutOfFuel) as Hm end.
  { destruct (rv =? _); [done|]. pose proof (add_ms_fuel w2 rv).
    by destruct (aeAddMillisecondsToNow w2 rv) as [[[? ?] ?]| | |]. }
  match goal with |- mbind _ ?m <> _ => destruct m as [w3| | |]; try done end. rewrite ret_bind.
  unfold sint. destruct (bool_decide _); [|done]. rewrite ret_bind. apply IH.
Qed.

(** C37.  In every state an event loop can reach, when its callbacks and hooks
    use the interface as said above: [maxfd] is the largest descriptor with
    events; every descriptor with events has the callback for each; the time
    events form a list without cycles that holds every allocated node, and no
    two live ones share an id; and, if nothing registered is refused or
    closed, the interest set of epoll is what the table says. *)
Theorem ae_invariant w : reachable strict w ->
  files_wf (el w) /\ (strict = true -> interest_wf (el w)) /\ exists L, timers_wf ∅ (el w) L.
Proof. intros Hr. by destruct (reachable_wf w Hr) as [[? ?] ?]. Qed.

(** C38.  In every such state [processTimeEvents], which walks the list through
    its pointers while the callbacks change it, does exactly [spec_pass]: it
    visits the events that were in the list when it began, each once, calls
    those that are due and not deleted by then, and takes those marked before
    off the list, calls their finalizers and frees them.  It comes to an end
    when its callbacks do. *)
Theorem processTimeEvents_visits w :
  reachable strict w ->
  processTimeEvents callT callH w = spec_pass callT callH w /\
  ((forall t i c w, callT t i c w <> OutOfFuel) -> (forall h c w, callH h c w <> OutOfFuel) ->
   processTimeEvents callT callH w <> OutOfFuel).
Proof.
  intros [Hf [L HL]]%reachable_wf. rewrite (processTimeEvents_ok callT callH strict callT_api callH_fin w L) by done.
  split; [done|].
  intros Hc Hh. unfold spec_pass, slong. destruct (time (env w)) as [now d].
  case_bool_decide; [|done]. rewrite ret_bind. by apply visit_fuel.
Qed.
End reach.

(** ** A concrete loop *)
Section examples.
#[local] Existing Instance big_alloc.

(** A clock that stands still and the answers of [epoll_wait]. *)
#[local] Instance demo_sys : Sys (list (list (Z * Z))) := {
  ctl_refuses d _ _ := (false, d);
  epoll_wait d _ _ _ := (default [] (head d), tail d);
  gettimeofday d := (100, 0, d);
  time d := (100, d)
}.

Notation World := (world (list (list (Z * Z))) unit Z unit unit).

(** A file callback that unregisters itself, a time callback that returns the
    value it was registered with, and a finalizer that stops the loop. *)
Definition demo_file (_ : unit) (fd : Z) (_ : option unit) (_ : Z) (w : World) : outcome World :=
  aeDeleteFileEvent w fd AE_READABLE.
Definition demo_time (t _ : Z) (_ : unit) (w : World) : outcome (Z * World) := Ret (t, w).
Definition demo_hook (_ : unit) (_ : option unit) (w : World) : outcome World := Ret (aeStop w).

(** Descriptor 5 watched, a timer that ends, one that comes again, and one that
    is deleted before the iteration. *)
Definition demo_loop : World :=
  let run := 
    let! w := deref (aeCreateEventLoop true 10 [[(5, EPOLLIN)]]) in
    let! (_, w) := aeCreateFileEvent w 5 AE_READABLE tt tt in
    let! (_, w) := aeCreateTimeEvent w 0 AE_NOMORE tt None in
    let! (_, w) := aeCreateTimeEvent w 0 10 tt None in
    let! (i, w) := aeCreateTimeEvent w 1000 10 tt (Some tt) in
    let! (_, w) := aeDeleteTimeEvent w i in
    let! (_, w) := aeProcessEvents demo_file demo_time demo_hook w AE_ALL_EVENTS in Ret w in
  match run with Ret w => w | _ => mkWorld (mkLoop (-1) 0 0 0 [] [] None ∅ 0 0 ∅ None None) [] end.

Lemma demo_file_api f fd c m (w w' : World) : demo_file f fd c m w = Ret w' -> api true true false w w'.
Proof. intros E. apply rtc_once. by eapply api_delete_file. Qed.
Lemma demo_time_api t i c (w : World) r w' : demo_time t i c w = Ret (r, w') -> api true true true w w'.
Proof. by intros [= _ <-]. Qed.
Lemma demo_hook_api c h o (w w' : World) : demo_hook h o w = Ret w' -> api true c true w w'.
Proof. intros [= <-]. apply rtc_once, api_stop. Qed.
Lemma demo_open : true = true -> registered_open (D := list (list (Z * Z))).
Proof. done. Qed.

Lemma demo_loop_reachable : reachable demo_file demo_time demo_hook true demo_loop.
Proof.
  exists true, 10, [[(5, EPOLLIN)]]. eexists. split; [lia|]. split; [vm_compute; reflexivity|].
  eapply rtc_l; [apply step_api; eapply (api_create_file _ _ _ _ 5 AE_READABLE tt tt); [done|done|vm_compute; reflexivity]|].
  eapply rtc_l; [apply step_api; eapply (api_create_time _ _ _ _ 0 AE_NOMORE tt None); [done|vm_compute; reflexivity]|].
  eapply rtc_l; [apply step_api; eapply (api_create_time _ _ _ _ 0 10 tt None); [done|vm_compute; reflexivity]|].
  eapply rtc_l; [apply step_api; eapply (api_create_time _ _ _ _ 1000 10 tt (Some tt)); [done|vm_compute; reflexivity]|].
  eapply rtc_l; [apply step_api; eapply (api_delete_time _ _ _ _ 2); vm_compute; reflexivity|].
  apply rtc_once. eapply (step_process _ _ _ _ _ AE_ALL_EVENTS). vm_compute. reflexivity.
Qed.

(** After the iteration the descriptor is gone, one timer is marked and one
    rescheduled, and the finalizer of the third has run. *)
Lemma ae_invariant_witness :
  length (timers (el demo_loop)) = 2%nat /\ stop (el demo_loop) = 1 /\
  files_wf (el demo_loop) /\ (true = true -> interest_wf (el demo_loop)) /\ exists L, timers_wf ∅ (el demo_loop) L.
Proof.
  split; [vm_decide|]. split; [vm_decide|].
  apply (ae_invariant demo_file demo_time demo_hook true demo_file_api demo_time_api
    (fun h c => demo_hook_api false h (Some c)) (fun h => demo_hook_api true h None) demo_open demo_loop demo_loop_reachable).
Defined.

Lemma processTimeEvents_visits_witness :
  processTimeEvents demo_time demo_hook demo_loop = spec_pass demo_time demo_hook demo_loop /\
  ((forall t i c w, demo_time t i c w <> OutOfFuel) -> (forall h c w, demo_hook h c w <> OutOfFuel) ->
   processTimeEvents demo_time demo_hook demo_loop <> OutOfFuel).
Proof.
  apply (processTimeEvents_visits demo_file demo_time demo_hook true demo_file_api demo_time_api
    (fun h c => demo_hook_api false h (Some c)) (fun h => demo_hook_api true h None) demo_open demo_loop demo_loop_reachable).
Defined.

(** A finalizer that creates a timer. *)
Definition demo_finalizer (_ : unit) (_ : option unit) (w : World) : outcome World :=
  let! (_, w) := aeCreateTimeEvent w 0 AE_NOMORE tt None in Ret w.

(** A timer made by a finalizer is lost when the next node is deleted too: the
    walk unlinks it through a head it no longer knows. *)
Example finalizer_loses_timer :
  match
    (let! w := deref (aeCreateEventLoop true 10 []) in
     let! (a, w) := aeCreateTimeEvent w 1000 AE_NOMORE tt None in
     let! (b, w) := aeCreateTimeEvent w 1000 AE_NOMORE tt (Some tt) in
     let! (_, w) := aeDeleteTimeEvent w a in
     let! (_, w) := aeDeleteTimeEvent w b in
     processTimeEvents demo_time demo_finalizer w)
  with
  | Ret (_, w) => timers (el w) = [] /\ size (te_heap (el w)) = 1%nat
  | _ => False
  end.
Proof. vm_compute. done. Qed.
End examples.
