(* ===== verification/ByteBuf.v ===== *)
(** * The byte-buffer interface

    [base/buffer.h] declares one interface; [base/buffer.c] and
    [base/buffer2.c] implement it with two representations (indices and
    pointers).  The clients ([nova_client], [dubbo_client]) are written
    against the header.  Here: [ByteBuf], the operations the clients call;
    [ByteBufSpec], what they promise about the readable bytes; the integer
    operations, which both files define by the same text on top of them; and
    the laws of those operations that the clients' theorems use. *)

From stdpp Require Import base tactics numbers list option.
From Stdlib Require Import Lia.
From S2P Require Import Prelude.

Class ByteBuf (B : Type) := {
  bb_create : Z -> Z -> outcome (option B);
  bb_readable : B -> Z;
  bb_writable : B -> Z;
  bb_prependable : B -> Z;
  bb_peek : B -> Z -> outcome bytes;
  bb_append : B -> bytes -> outcome B;
  bb_prepend : B -> bytes -> outcome B;
  bb_retrieve : B -> Z -> outcome B;
  bb_retrieveAll : B -> B;
  bb_poke : B -> bytes -> outcome B;
  bb_has_written : B -> Z -> outcome B
}.

(** [bb_contents b] are the readable bytes, oldest first.  [bb_open b]: bytes
    may be appended (no view locks the buffer, no prepended bytes are
    outstanding).  [bb_room b]: how many bytes may be appended before a size
    exceeds [PTRDIFF_MAX].  [bb_reserve b]: the space kept for prepending. *)
Class ByteBufSpec (B : Type) `{ByteBuf B} := {
  bb_inv : B -> Prop;
  bb_contents : B -> bytes;
  bb_open : B -> Prop;
  bb_unlocked : B -> Prop;
  bb_room : B -> Z;
  bb_reserve : B -> Z;

  bb_readable_spec b : bb_inv b -> bb_readable b = zlen (bb_contents b);
  bb_contents_bytes b : bb_inv b -> all_bytes (bb_contents b);
  bb_contents_small b : bb_inv b -> zlen (bb_contents b) < 2 ^ 63;
  bb_create_spec n p :
    0 < n -> 0 <= p -> n + p < 2 ^ 63 ->
    returns (bb_create n p) (fun ob => exists b, ob = Some b /\
      bb_inv b /\ bb_open b /\ bb_contents b = [] /\
      bb_room b = 2 ^ 63 - 1 - (n + p) /\ bb_reserve b = p /\
      bb_writable b = n /\ bb_prependable b = p);
  bb_peek_spec b n :
    bb_inv b -> 0 <= n <= zlen (bb_contents b) ->
    bb_peek b n = Ret (ztake n (bb_contents b));
  bb_append_spec b d :
    bb_inv b -> bb_open b -> all_bytes d -> zlen d <= bb_room b ->
    returns (bb_append b d) (fun b' =>
      bb_inv b' /\ bb_open b' /\ bb_contents b' = bb_contents b ++ d /\
      bb_room b - zlen d <= bb_room b' /\ bb_reserve b' = bb_reserve b /\
      (zlen d <= bb_writable b ->
         bb_writable b' = bb_writable b - zlen d /\ bb_room b' = bb_room b));
  bb_open_unlocked b : bb_open b -> bb_unlocked b;
  bb_open_prependable b :
    bb_inv b -> bb_open b -> bb_reserve b <= bb_prependable b;
  bb_prepend_spec b d :
    bb_inv b -> all_bytes d -> zlen d <= bb_prependable b ->
    returns (bb_prepend b d) (fun b' =>
      bb_inv b' /\ bb_contents b' = d ++ bb_contents b /\
      bb_prependable b' = bb_prependable b - zlen d /\
      (bb_unlocked b -> bb_unlocked b') /\ bb_room b' = bb_room b);
  bb_retrieve_spec b n :
    bb_inv b -> 0 <= n <= zlen (bb_contents b) ->
    returns (bb_retrieve b n) (fun b' =>
      bb_inv b' /\ bb_contents b' = zdrop n (bb_contents b) /\
      (bb_open b -> bb_open b') /\ bb_room b' = bb_room b /\
      bb_reserve b' = bb_reserve b);
  bb_retrieve_short b n :
    bb_inv b -> zlen (bb_contents b) < n -> bb_retrieve b n = AssertFail;
  bb_retrieveAll_spec b :
    bb_inv b -> bb_inv (bb_retrieveAll b) /\ bb_contents (bb_retrieveAll b) = [] /\
      (bb_unlocked b -> bb_open (bb_retrieveAll b)) /\ bb_room (bb_retrieveAll b) = bb_room b /\
      bb_reserve (bb_retrieveAll b) = bb_reserve b;
  bb_poke_spec b d :
    bb_inv b -> all_bytes d -> zlen d <= bb_writable b ->
    returns (bb_poke b d) (fun b1 =>
      returns (bb_has_written b1 (zlen d)) (fun b' =>
        bb_inv b' /\ (bb_open b -> bb_open b') /\
        bb_contents b' = bb_contents b ++ d /\
        bb_writable b' = bb_writable b - zlen d /\
        bb_prependable b' = bb_prependable b /\
        bb_room b' = bb_room b /\ bb_reserve b' = bb_reserve b));
  bb_poke_overflow b d :
    bb_inv b -> bb_writable b < zlen d -> bb_poke b d = Undefined
}.

#[export] Hint Resolve bb_open_unlocked : core.

#[export] Hint Resolve bb_contents_bytes : bytes.

(** ** Integers over a byte buffer
    The functions of [buffer.c] and [buffer2.c] between [buf_appendInt64] and
    [buf_readInt8], and [buf_retrieveAsString], over any implementation. *)
Section int_ops.
Context {B : Type} `{ByteBuf B}.

(** [htobe<8n>] and [memcpy]: the big-endian image of [x], [n] bytes long. *)
Definition append_int (n : Z) (b : B) (x : Z) : outcome B := bb_append b (be_bytes n x).
Definition prepend_int (n : Z) (b : B) (x : Z) : outcome B := bb_prepend b (be_bytes n x).

Definition appendInt64 : B -> Z -> outcome B := append_int 8.
Definition appendInt32 : B -> Z -> outcome B := append_int 4.
Definition appendInt16 : B -> Z -> outcome B := append_int 2.
Definition appendInt8 : B -> Z -> outcome B := append_int 1.
Definition prependInt64 : B -> Z -> outcome B := prepend_int 8.
Definition prependInt32 : B -> Z -> outcome B := prepend_int 4.
Definition prependInt16 : B -> Z -> outcome B := prepend_int 2.
Definition prependInt8 : B -> Z -> outcome B := prepend_int 1.

(** [assert(buf_readable(buf) >= n); memcpy; be<8n>toh] as a signed value. *)
Definition peek_int (n : Z) (b : B) : outcome Z :=
  c_assert (n <=? bb_readable b) ;;
  let! l := bb_peek b n in
  Ret (wraps (8 * n) (be_val l)).

Definition peekInt64 : B -> outcome Z := peek_int 8.
Definition peekInt32 : B -> outcome Z := peek_int 4.
Definition peekInt16 : B -> outcome Z := peek_int 2.
Definition peekInt8 : B -> outcome Z := peek_int 1.

Definition read_int (n : Z) (b : B) : outcome (Z * B) :=
  let! x := peek_int n b in
  let! b' := bb_retrieve b n in
  Ret (x, b').

Definition readInt64 : B -> outcome (Z * B) := read_int 8.
Definition readInt32 : B -> outcome (Z * B) := read_int 4.
Definition readInt16 : B -> outcome (Z * B) := read_int 2.
Definition readInt8 : B -> outcome (Z * B) := read_int 1.

(** The string written at [str]: [len] bytes and the terminator. *)
Definition retrieveAsString (b : B) (len : Z) : outcome (bytes * B) :=
  let! l := bb_peek b len in
  let! b' := bb_retrieve b len in
  Ret (l ++ [0], b').

(** The whole of [buf_retrieveAsString]: [p] is the block at [str], NULL or
    its size. *)
Definition retrieveTo (b : B) (len : Z) (p : option Z) : outcome (bytes * B) :=
  match p with
  | None => AssertFail
  | Some size => defined (len + 1 <=? size) ;; retrieveAsString b len
  end.
End int_ops.

Section int_laws.
Context {B : Type} `{ByteBufSpec B}.
Implicit Types (b : B) (d rest : bytes).

(** The state of a buffer a client reads from: invariant and contents. *)
Definition holds (l : bytes) (b : B) : Prop := bb_inv b /\ bb_contents b = l.

(** The state of a buffer a client appends to. *)
Definition writes (l : bytes) (room : Z) (b : B) : Prop :=
  bb_inv b /\ bb_open b /\ bb_contents b = l /\ room <= bb_room b.

Lemma writes_append l room b d :
  writes l room b -> all_bytes d -> zlen d <= room ->
  returns (bb_append b d) (writes (l ++ d) (room - zlen d)).
Proof.
  intros (Hi & Ho & Hc & Hr) Hd Hl.
  eapply returns_mono; [apply bb_append_spec; auto; lia|].
  intros b' (? & ? & Hc' & ? & ? & _). rewrite Hc in Hc'. repeat split; auto; lia.
Qed.

Lemma writes_append_int n l room b x :
  writes l room b -> 0 <= n <= room ->
  returns (append_int n b x) (writes (l ++ be_bytes n x) (room - n)).
Proof.
  intros Hw Hn. eapply returns_mono.
  - apply writes_append; [done | auto with bytes | zlia].
  - intros b'. by rewrite zlen_be_bytes by lia.
Qed.

Lemma holds_peek n l rest b :
  holds (l ++ rest) b -> zlen l = n -> bb_peek b n = Ret l.
Proof.
  intros [Hi Hc] Hn. rewrite bb_peek_spec, Hc; [|done|rewrite Hc; zlia].
  by rewrite ztake_app_exact by done.
Qed.

Lemma holds_retrieve n l rest b :
  holds (l ++ rest) b -> zlen l = n -> returns (bb_retrieve b n) (holds rest).
Proof.
  intros [Hi Hc] Hn. eapply returns_mono.
  - apply bb_retrieve_spec; [done|]. rewrite Hc. zlia.
  - intros b' (? & Hc' & _). split; [done|]. by rewrite Hc', Hc, zdrop_app_exact.
Qed.

(** Peeking an integer whose image is at the front of the buffer. *)
Lemma holds_peek_int n x rest b :
  0 < n -> - 2 ^ (8 * n - 1) <= x < 2 ^ (8 * n - 1) ->
  holds (be_bytes n x ++ rest) b -> peek_int n b = Ret x.
Proof.
  intros Hn Hx Hb. unfold peek_int.
  rewrite bb_readable_spec by apply Hb. rewrite (proj2 Hb), c_assert_true by zlia.
  rewrite ret_bind, (holds_peek n (be_bytes n x) rest) by (auto; zlia).
  rewrite ret_bind. by rewrite be_signed_roundtrip.
Qed.

Lemma holds_read_int n x rest b :
  0 < n -> - 2 ^ (8 * n - 1) <= x < 2 ^ (8 * n - 1) ->
  holds (be_bytes n x ++ rest) b ->
  returns (read_int n b) (fun r => fst r = x /\ holds rest (snd r)).
Proof.
  intros Hn Hx Hb. unfold read_int.
  rewrite (holds_peek_int n x rest) by done. rewrite ret_bind.
  step by (holds_retrieve n (be_bytes n x) rest); [done|zlia|].
  intros b' Hb'. by apply returns_ret.
Qed.

(** Reading an integer whose image does not fit is stopped by an assertion. *)
Lemma read_int_short n b :
  bb_inv b -> zlen (bb_contents b) < n -> read_int n b = AssertFail.
Proof.
  intros Hi Hn. unfold read_int, peek_int. rewrite bb_readable_spec by done.
  by rewrite c_assert_false by lia.
Qed.

Lemma holds_retrieveAsString n l rest b :
  holds (l ++ rest) b -> zlen l = n ->
  returns (retrieveAsString b n) (fun r => fst r = l ++ [0] /\ holds rest (snd r)).
Proof.
  intros Hb Hn. unfold retrieveAsString.
  rewrite (holds_peek n l rest) by done. rewrite ret_bind.
  step by (holds_retrieve n l rest); [done|done|].
  intros b' Hb'. by apply returns_ret.
Qed.

(** Any four (eight, ...) bytes read back as the signed value of their
    big-endian reading. *)
Lemma holds_read_int_raw n l rest b :
  0 <= n -> zlen l = n -> holds (l ++ rest) b ->
  returns (read_int n b) (fun r => fst r = wraps (8 * n) (be_val l) /\ holds rest (snd r)).
Proof.
  intros Hn Hl Hb. unfold read_int, peek_int.
  rewrite bb_readable_spec by apply Hb. rewrite (proj2 Hb), c_assert_true by zlia.
  rewrite ret_bind, (holds_peek n l rest) by done. rewrite !ret_bind.
  step by (holds_retrieve n l rest); [done|done|].
  intros b' Hb'. by apply returns_ret.
Qed.

(** ** From results back to contents *)
Lemma be_bytes_wrapu n x : 0 <= n -> be_bytes n (wrapu (8 * n) x) = be_bytes n x.
Proof.
  intros Hn. rewrite <- (be_val_be_bytes n x) by done.
  rewrite <- (zlen_be_bytes n x) at 1 by done. apply be_bytes_be_val. auto with bytes.
Qed.

Lemma be_bytes_wraps n x : 0 < n -> be_bytes n (wraps (8 * n) x) = be_bytes n x.
Proof.
  intros Hn. rewrite <- (be_bytes_wrapu n x), <- (be_bytes_wrapu n (wraps _ _)) by lia.
  by rewrite wrapu_wraps by lia.
Qed.

Lemma be_bytes_be_val_wraps l : 0 < zlen l -> all_bytes l ->
  be_bytes (zlen l) (wraps (8 * zlen l) (be_val l)) = l.
Proof. intros. by rewrite be_bytes_wraps, be_bytes_be_val. Qed.

Lemma read_int_inv n b x b' :
  0 < n -> bb_inv b -> read_int n b = Ret (x, b') ->
  bb_inv b' /\ bb_contents b = be_bytes n x ++ bb_contents b' /\
  - 2 ^ (8 * n - 1) <= x < 2 ^ (8 * n - 1).
Proof.
  intros Hn Hi E. destruct (Z.ltb_spec (zlen (bb_contents b)) n).
  { by rewrite read_int_short in E. }
  set (l := ztake n (bb_contents b)). set (rest := zdrop n (bb_contents b)).
  assert (bb_contents b = l ++ rest) as Hc by (unfold l, rest; by rewrite ztake_zdrop).
  assert (zlen l = n) as Hl by (unfold l; zlia).
  assert (all_bytes l) by (unfold l; auto with bytes). clearbody l rest.
  destruct (holds_read_int_raw n l rest b) as (r & E' & Hx & Hi' & Hc'); [lia|done|done|].
  rewrite E in E'. injection E' as <-. simpl in *. subst x. split; [done|].
  split; [|apply wraps_range; lia]. subst n. rewrite Hc, Hc'.
  by rewrite be_bytes_be_val_wraps.
Qed.

Lemma bind_read_int_inv {R} n b (f : Z * B -> outcome R) r :
  0 < n -> bb_inv b -> mbind f (read_int n b) = Ret r ->
  exists x b', bb_inv b' /\ bb_contents b = be_bytes n x ++ bb_contents b' /\
    - 2 ^ (8 * n - 1) <= x < 2 ^ (8 * n - 1) /\ f (x, b') = Ret r.
Proof.
  intros Hn Hi E. apply bind_Ret in E as ([x b'] & E1 & E2).
  apply read_int_inv in E1 as (? & ? & ?); [|done|done]. exists x, b'. auto.
Qed.

Lemma retrieveAsString_inv n b s b' :
  0 <= n -> bb_inv b -> retrieveAsString b n = Ret (s, b') ->
  exists l, bb_inv b' /\ s = l ++ [0] /\ zlen l = n /\ all_bytes l /\
    bb_contents b = l ++ bb_contents b'.
Proof.
  intros Hn Hi E. unfold retrieveAsString in E.
  apply bind_Ret in E as (l & El & E). apply bind_Ret in E as (b1 & Er & E).
  injection E as <- <-. destruct (Z.ltb_spec (zlen (bb_contents b)) n).
  { by rewrite bb_retrieve_short in Er. }
  rewrite bb_peek_spec in El by (done || lia). injection El as <-.
  destruct (bb_retrieve_spec b n) as (b2 & Er' & Hi' & Hc' & _); [done|lia|].
  rewrite Er in Er'. injection Er' as <-. exists (ztake n (bb_contents b)).
  rewrite Hc', ztake_zdrop. repeat split; auto with bytes. zlia.
Qed.

Lemma retrieveTo_inv n b p s b' :
  0 <= n -> bb_inv b -> retrieveTo b n p = Ret (s, b') ->
  exists l, bb_inv b' /\ s = l ++ [0] /\ zlen l = n /\ all_bytes l /\
    bb_contents b = l ++ bb_contents b'.
Proof.
  intros Hn Hi E. destruct p as [size|]; [|done]. simpl in E.
  apply bind_Ret in E as (_ & _ & E). by apply retrieveAsString_inv.
Qed.

Lemma holds_retrieveTo n l rest b size :
  holds (l ++ rest) b -> zlen l = n -> n + 1 <= size ->
  returns (retrieveTo b n (Some size)) (fun r => fst r = l ++ [0] /\ holds rest (snd r)).
Proof.
  intros. simpl. unfold defined. destruct (Z.leb_spec (n + 1) size); [|lia].
  by apply holds_retrieveAsString.
Qed.

(** The same laws as equations, for rewriting. *)
Lemma read_int_eq n x rest b :
  0 < n -> - 2 ^ (8 * n - 1) <= x < 2 ^ (8 * n - 1) -> holds (be_bytes n x ++ rest) b ->
  exists b', read_int n b = Ret (x, b') /\ holds rest b'.
Proof. intros. edestruct (holds_read_int n x) as ([? b'] & E & <- & ?); eauto. Qed.

Lemma read_raw_eq n l rest b :
  0 <= n -> zlen l = n -> holds (l ++ rest) b ->
  exists b', read_int n b = Ret (wraps (8 * n) (be_val l), b') /\ holds rest b'.
Proof. intros. edestruct (holds_read_int_raw n l) as ([? b'] & E & <- & ?); eauto. Qed.

Lemma retrieveTo_eq n l rest b size :
  holds (l ++ rest) b -> zlen l = n -> n + 1 <= size ->
  exists b', retrieveTo b n (Some size) = Ret (l ++ [0], b') /\ holds rest b'.
Proof. intros. edestruct (holds_retrieveTo n l) as ([? b'] & E & <- & ?); eauto. Qed.

(** Reading an unsigned value through the signed operation. *)
Lemma unsigned_read n x :
  0 < n -> 0 <= x < 2 ^ (8 * n) -> wrapu (8 * n) (wraps (8 * n) (be_val (be_bytes n x))) = x.
Proof.
  intros. rewrite wrapu_wraps, be_val_be_bytes by lia.
  by rewrite !wrapu_small by (rewrite ?wrapu_small; lia).
Qed.
(** Reading leaves a buffer fit for appending. *)
Definition kept (b b' : B) : Prop :=
  bb_inv b' /\ (bb_open b -> bb_open b') /\ bb_room b' = bb_room b.

Lemma kept_trans b1 b2 b3 : kept b1 b2 -> kept b2 b3 -> kept b1 b3.
Proof. intros (_ & Ho & Hr) (Hi' & Ho' & Hr'). split_and!; [done|auto|congruence]. Qed.

Lemma retrieve_kept n b b' : bb_inv b -> 0 <= n -> bb_retrieve b n = Ret b' -> kept b b'.
Proof.
  intros Hi Hn E. destruct (decide (n <= zlen (bb_contents b))).
  - destruct (returns_inv _ _ _ (bb_retrieve_spec b n Hi ltac:(lia)) E) as (? & _ & ? & ? & _). by split_and!.
  - rewrite bb_retrieve_short in E by (done || lia). done.
Qed.

Lemma read_int_kept n x b b' : bb_inv b -> 0 <= n -> read_int n b = Ret (x, b') -> kept b b'.
Proof.
  intros Hi Hn. unfold read_int. destruct (peek_int n b) as [y| | |]; try done. rewrite ret_bind.
  destruct (bb_retrieve b n) as [b1| | |] eqn:E; try done. rewrite ret_bind. intros [= _ <-].
  by eapply retrieve_kept.
Qed.
End int_laws.

(** Execute one read of a buffer [b] with [Hb : holds _ b]; [Hb] then
    describes the buffer after the read. *)
Tactic Notation "reads_int" constr(n) ident(Hb) :=
  step by (holds_read_int n); [lia| |exact Hb|]; [try first [assumption|lia|done]|];
  clear Hb;
  let x := fresh "x" in let b := fresh "b" in let E := fresh "E" in
  intros [x b] [E Hb]; cbn [fst snd] in E, Hb; subst x; cbv beta zeta iota.
Tactic Notation "reads_raw" constr(n) constr(l) ident(Hb) :=
  step by (holds_read_int_raw n l); [lia|zlia|exact Hb|];
  clear Hb;
  let x := fresh "x" in let b := fresh "b" in let E := fresh "E" in
  intros [x b] [E Hb]; cbn [fst snd] in E, Hb; subst x; cbv beta zeta iota.

(** Execute one append with [Hw : writes _ _ b]. *)
Tactic Notation "appends_int" ident(Hw) :=
  step by writes_append_int; [exact Hw|zlia|];
  clear Hw; let b := fresh "b" in intros b Hw.
Tactic Notation "appends" ident(Hw) :=
  step by writes_append; [exact Hw|auto with bytes|zlia|];
  clear Hw; let b := fresh "b" in intros b Hw.
