(* ===== verification/Buffer.v ===== *)
(** * [base/buffer.c]: the growable byte buffer

    [buffer] is [struct buffer]: the allocation is kept in [buf], with its
    size in [sz]; the readable bytes lie between [read_idx] and [write_idx].
    Every function of the file that works on one buffer is a definition of
    the same name; the read-only views, which share an allocation between
    several buffers, are in [BufferView].  Sizes are [size_t]: subtraction
    and addition wrap at 64 bits ([u64]) as they do in C. *)

From stdpp Require Import base tactics numbers list option.
From Stdlib Require Import Lia.
From S2P Require Import Prelude ByteBuf.

Record buffer := mkBuffer {
  read_idx : Z;
  write_idx : Z;
  sz : Z;
  p_sz : Z;
  buf : bytes;
  refcount : Z;
  src : option Z;
  cache : option Z
}.

Definition BufCheapPrepend : Z := 8.
Definition sizeof_buffer : Z := 64.

Definition set_read (b : buffer) (r : Z) : buffer :=
  mkBuffer r (write_idx b) (sz b) (p_sz b) (buf b) (refcount b) (src b) (cache b).
Definition set_write (b : buffer) (w : Z) : buffer :=
  mkBuffer (read_idx b) w (sz b) (p_sz b) (buf b) (refcount b) (src b) (cache b).
Definition set_mem (b : buffer) (m : bytes) : buffer :=
  mkBuffer (read_idx b) (write_idx b) (sz b) (p_sz b) m (refcount b) (src b) (cache b).
Definition set_sz (b : buffer) (n : Z) : buffer :=
  mkBuffer (read_idx b) (write_idx b) n (p_sz b) (buf b) (refcount b) (src b) (cache b).

Section buffer_ops.
Context `{Allocator}.

(** [None] is the NULL result. *)
Definition buf_create_ex (size prepend_size : Z) : outcome (option buffer) :=
  c_assert (0 <? size) ;;
  c_assert (0 <=? prepend_size) ;;
  let n := u64 (size + prepend_size) in
  if negb (alloc_ok sizeof_buffer) then Ret None else
  if negb (alloc_ok n) then Ret None else
  Ret (Some (mkBuffer prepend_size prepend_size n prepend_size (zeros n) 0 None None)).

Definition buf_create (size : Z) : outcome (option buffer) :=
  buf_create_ex size BufCheapPrepend.

Definition buf_readable (b : buffer) : Z := u64 (write_idx b - read_idx b).
Definition buf_writable (b : buffer) : Z := u64 (sz b - write_idx b).
Definition buf_internalCapacity (b : buffer) : Z := sz b.
Definition buf_prependable (b : buffer) : Z := read_idx b.

(** [memcpy(dst, buf_peek(buf), n)]. *)
Definition buf_peek (b : buffer) (n : Z) : outcome bytes := mem_read (buf b) (read_idx b) n.
(** [memcpy(buf_beginWrite(buf), d, n)]. *)
Definition buf_beginWrite (b : buffer) (d : bytes) : outcome buffer :=
  let! m := mem_write (buf b) (write_idx b) d in
  Ret (set_mem b m).

Definition buf_isReadonlyView (b : buffer) : bool := bool_decide (is_Some (src b)).
Definition buf_writeLocked (b : buffer) : bool :=
  buf_isReadonlyView b || (0 <? refcount b).
Definition ASSERT_WRITE (b : buffer) : outcome unit := c_assert (negb (buf_writeLocked b)).

Definition buf_has_written (b : buffer) (len : Z) : outcome buffer :=
  c_assert (len <=? buf_writable b) ;;
  Ret (set_write b (u64 (write_idx b + len))).

Definition buf_unwrite (b : buffer) (len : Z) : outcome buffer :=
  ASSERT_WRITE b ;;
  c_assert (len <=? buf_readable b) ;;
  Ret (set_write b (u64 (write_idx b - len))).

(** Searches return the offset from [buf_peek]. *)
Definition buf_findStr (b : buffer) (str : bytes) : outcome (option Z) :=
  let! n := strlen str in
  let! needle := mem_read str 0 n in
  let! l := buf_peek b (buf_readable b) in
  Ret (memmem needle l).
Definition buf_findChar (b : buffer) (c : Z) : outcome (option Z) :=
  let! l := buf_peek b (buf_readable b) in
  Ret (memchr (u8 c) l).
Definition buf_findCRLF (b : buffer) : outcome (option Z) :=
  let! l := buf_peek b (buf_readable b) in
  Ret (memmem [13; 10] l).
Definition buf_findEOL (b : buffer) : outcome (option Z) :=
  let! l := buf_peek b (buf_readable b) in
  Ret (memchr 10 l).

Definition buf_retrieveAll (b : buffer) : buffer :=
  set_write (set_read b (p_sz b)) (p_sz b).

Definition buf_retrieve (b : buffer) (len : Z) : outcome buffer :=
  c_assert (len <=? buf_readable b) ;;
  Ret (if len <? buf_readable b
       then set_read b (u64 (read_idx b + len))
       else buf_retrieveAll b).

(** [end_] is a pointer into the allocation, given by its offset. *)
Definition buf_retrieveUntil (b : buffer) (end_ : Z) : outcome buffer :=
  c_assert (read_idx b <=? end_) ;;
  c_assert (end_ <=? write_idx b) ;;
  buf_retrieve b (end_ - read_idx b).

Definition buf_retrieveInt64 (b : buffer) : outcome buffer := buf_retrieve b 8.
Definition buf_retrieveInt32 (b : buffer) : outcome buffer := buf_retrieve b 4.
Definition buf_retrieveInt16 (b : buffer) : outcome buffer := buf_retrieve b 2.
Definition buf_retrieveInt8 (b : buffer) : outcome buffer := buf_retrieve b 1.

Definition buf_swap (b : buffer) (nsz : Z) : outcome buffer :=
  c_assert (buf_readable b <=? nsz) ;;
  c_assert (alloc_ok nsz) ;;
  let! d := buf_peek b (buf_readable b) in
  let! nbuf := mem_write (zeros nsz) (p_sz b) d in
  Ret (set_sz (set_mem b nbuf) nsz).

Definition buf_makeSpace (b : buffer) (len : Z) : outcome buffer :=
  let readable := buf_readable b in
  let! b1 :=
    if u64 (buf_prependable b + buf_writable b - p_sz b) <? len
    then buf_swap b (u64 (write_idx b + len))
    else
      c_assert (p_sz b <? read_idx b) ;;
      let! d := buf_peek b readable in
      let! m := mem_write (buf b) (p_sz b) d in
      Ret (set_mem b m) in
  let b2 := set_write (set_read b1 (p_sz b1)) (u64 (p_sz b1 + readable)) in
  c_assert (readable =? buf_readable b2) ;;
  Ret b2.

Definition buf_ensureWritable (b : buffer) (len : Z) : outcome buffer :=
  ASSERT_WRITE b ;;
  let! b' := if buf_writable b <? len then buf_makeSpace b len else Ret b in
  c_assert (len <=? buf_writable b') ;;
  Ret b'.

(** [data] is the [len]-byte block the caller passes. *)
Definition buf_append (b : buffer) (data : bytes) : outcome buffer :=
  ASSERT_WRITE b ;;
  let! b1 := buf_ensureWritable b (zlen data) in
  let! b2 := buf_beginWrite b1 data in
  buf_has_written b2 (zlen data).

Definition buf_prepend (b : buffer) (data : bytes) : outcome buffer :=
  c_assert (zlen data <=? buf_prependable b) ;;
  let r := read_idx b - zlen data in
  let! m := mem_write (buf b) r data in
  Ret (set_mem (set_read b r) m).

Definition buf_shrink (b : buffer) (reserve : Z) : outcome buffer :=
  ASSERT_WRITE b ;;
  buf_swap b (u64 (p_sz b + buf_readable b + reserve)).

(** Little-endian integers (the big-endian ones are in [ByteBuf]). *)
Definition buf_appendInt64LE (b : buffer) (x : Z) : outcome buffer := buf_append b (le_bytes 8 x).
Definition buf_appendInt32LE (b : buffer) (x : Z) : outcome buffer := buf_append b (le_bytes 4 x).
Definition buf_appendInt16LE (b : buffer) (x : Z) : outcome buffer := buf_append b (le_bytes 2 x).
Definition buf_prependInt64LE (b : buffer) (x : Z) : outcome buffer := buf_prepend b (le_bytes 8 x).
Definition buf_prependInt32LE (b : buffer) (x : Z) : outcome buffer := buf_prepend b (le_bytes 4 x).
Definition buf_prependInt16LE (b : buffer) (x : Z) : outcome buffer := buf_prepend b (le_bytes 2 x).

(** [assert(buf_readable(buf) >= n)], copy [n] bytes into a zeroed [w]-bit
    integer, [le<w>toh]. *)
Definition peek_le (n w : Z) (b : buffer) : outcome Z :=
  c_assert (n <=? buf_readable b) ;;
  let! l := buf_peek b n in
  Ret (wraps w (le_val l)).
Definition buf_peekInt64LE (b : buffer) : outcome Z := peek_le 8 64 b.
Definition buf_peekInt32LE (b : buffer) : outcome Z := peek_le 4 32 b.
Definition buf_peekInt32LE24 (b : buffer) : outcome Z := peek_le 3 32 b.
Definition buf_peekInt16LE (b : buffer) : outcome Z := peek_le 2 16 b.

Definition buf_readInt64LE (b : buffer) : outcome (Z * buffer) :=
  let! x := buf_peekInt64LE b in let! b' := buf_retrieveInt64 b in Ret (x, b').
Definition buf_readInt32LE (b : buffer) : outcome (Z * buffer) :=
  let! x := buf_peekInt32LE b in let! b' := buf_retrieveInt32 b in Ret (x, b').
Definition buf_readInt32LE24 (b : buffer) : outcome (Z * buffer) :=
  let! x := buf_peekInt32LE24 b in let! b' := buf_retrieve b 3 in Ret (x, b').
Definition buf_readInt16LE (b : buffer) : outcome (Z * buffer) :=
  let! x := buf_peekInt16LE b in let! b' := buf_retrieveInt16 b in Ret (x, b').

(** [str] is a caller's array of [n] bytes ([int]); [None] is NULL. *)
Definition buf_readCStr (b : buffer) (n : Z) : outcome (option bytes * buffer) :=
  let! eos := buf_findChar b 0 in
  let sz1 := match eos with
             | None => s32 (buf_readable b + 1)
             | Some i => s32 (i + 1)
             end in
  if n <? sz1 then Ret (None, b) else
  let! str := buf_peek b (u64 n) in
  let! b' := buf_retrieve b (u64 (match eos with None => sz1 - 1 | Some _ => sz1 end)) in
  Ret (Some str, b').

Definition buf_readStr (b : buffer) (n : Z) : outcome (bytes * buffer) :=
  let n := if buf_readable b <? u64 n then s32 (buf_readable b) else n in
  let! str := buf_peek b (u64 n) in
  let! b' := buf_retrieve b (u64 n) in
  Ret (str ++ [0], b').

(** The result block has [sz] bytes. *)
Definition buf_dupCStr (b : buffer) : outcome (option bytes * buffer) :=
  let! eos := buf_findChar b 0 in
  let n := match eos with
           | None => s32 (buf_readable b + 1)
           | Some i => s32 (i + 1)
           end in
  if negb (alloc_ok (u64 n)) then Ret (None, b) else
  let! str := buf_peek b (u64 n) in
  let! b' := buf_retrieve b (u64 (match eos with None => n - 1 | Some _ => n end)) in
  Ret (Some str, b').

Definition buf_dupStr (b : buffer) (n : Z) : outcome (option bytes * buffer) :=
  let n := if buf_readable b <? u64 n then s32 (buf_readable b) else n in
  let! n1 := sint (n + 1) in
  if negb (alloc_ok (u64 n1)) then Ret (None, b) else
  let! str := buf_peek b (u64 n) in
  let! b' := buf_retrieve b (u64 n) in
  Ret (Some (str ++ [0]), b').

(** [readv] of the kernel: the lengths of the vectors in, the result and
    the bytes stored out.  The [int*] result is what [*errno_] receives. *)
Definition extrabuf_sz : Z := 65535.
Definition buf_readFd (readv : list Z -> Z * bytes) (b : buffer)
  : outcome (Z * option Z * buffer) :=
  ASSERT_WRITE b ;;
  let writable := buf_writable b in
  let '(n, d) := readv (if writable <? extrabuf_sz then [writable; extrabuf_sz]
                        else [writable]) in
  if n <? 0 then Ret (n, Some n, b) else
  let! b1 := buf_beginWrite b (ztake writable d) in
  if n <=? writable then Ret (n, None, set_write b1 (u64 (write_idx b1 + n)))
  else
    let! b2 := buf_append (set_write b1 (sz b1)) (ztake (n - writable) (zdrop writable d)) in
    Ret (n, None, b2).

Definition buf_getReadIndex (b : buffer) : Z := read_idx b.
Definition buf_setReadIndex (b : buffer) (i : Z) : buffer := set_read b i.
Definition buf_getWriteIndex (b : buffer) : Z := write_idx b.
Definition buf_setWriteIndex (b : buffer) (i : Z) : outcome buffer :=
  ASSERT_WRITE b ;;
  c_assert ((read_idx b <=? i) && (i <? sz b)) ;;
  Ret (set_write b i).
End buffer_ops.

(** ** Invariant and abstraction *)
Definition buf_inv (b : buffer) : Prop :=
  0 <= p_sz b <= sz b /\ 0 <= read_idx b <= write_idx b /\ write_idx b <= sz b /\
  sz b = zlen (buf b) /\ sz b < 2 ^ 63 /\ all_bytes (buf b) /\ 0 <= refcount b.

Definition buf_contents (b : buffer) : bytes :=
  slice (read_idx b) (write_idx b - read_idx b) (buf b).

Definition buf_open (b : buffer) : Prop :=
  buf_writeLocked b = false /\ p_sz b <= read_idx b.

#[export] Instance buf_inv_dec b : Decision (buf_inv b).
Proof. unfold buf_inv. apply _. Defined.
#[export] Instance buf_open_dec b : Decision (buf_open b).
Proof. unfold buf_open. apply _. Defined.

Definition buf_room (b : buffer) : Z := 2 ^ 63 - 1 - sz b.

(** The facts of every invariant in the context, once. *)
Ltac inv_buf :=
  repeat match goal with
  | H : buf_inv ?b |- _ =>
    lazymatch goal with
    | _ : 0 <= refcount b |- _ => fail
    | _ => let E := fresh in pose proof H as E;
           destruct E as ((? & ?) & (? & ?) & ? & ? & ? & ? & ?)
    end
  end.

Ltac buf_simpl := unfold set_write, set_read, set_sz, set_mem; simpl.

Section laws.
Context `{AllocTotal}.
Implicit Types b : buffer.

Lemma buf_readable_inv b : buf_inv b -> buf_readable b = write_idx b - read_idx b.
Proof. intros. inv_buf. apply wrapu_small. lia. Qed.

Lemma buf_writable_inv b : buf_inv b -> buf_writable b = sz b - write_idx b.
Proof. intros. inv_buf. apply wrapu_small. lia. Qed.

Lemma zlen_buf_contents b : buf_inv b -> zlen (buf_contents b) = write_idx b - read_idx b.
Proof. intros. inv_buf. unfold buf_contents. zlia. Qed.

Lemma buf_contents_bytes b : buf_inv b -> all_bytes (buf_contents b).
Proof. intros. inv_buf. unfold buf_contents. auto with bytes. Qed.

Lemma buf_peek_ok b n :
  buf_inv b -> 0 <= n <= zlen (buf_contents b) ->
  buf_peek b n = Ret (ztake n (buf_contents b)).
Proof.
  intros Hi Hn. rewrite zlen_buf_contents in Hn by done. inv_buf.
  unfold buf_peek. rewrite mem_read_ok by lia. f_equal.
  unfold buf_contents. by rewrite <- slice_prefix by lia.
Qed.

Lemma buf_peek_all b :
  buf_inv b -> buf_peek b (buf_readable b) = Ret (buf_contents b).
Proof.
  intros Hi. pose proof (zlen_buf_contents b Hi) as Hl.
  rewrite buf_readable_inv, <- Hl by done. rewrite buf_peek_ok by (done || zlia).
  by rewrite ztake_all by lia.
Qed.

Lemma buf_create_ok n p :
  0 < n -> 0 <= p -> n + p < 2 ^ 63 ->
  returns (buf_create_ex n p) (fun ob => exists b, ob = Some b /\
buf_inv b /\ buf_open b /\ buf_contents b = [] /\
buf_room b = 2 ^ 63 - 1 - (n + p) /\ p_sz b = p /\
buf_writable b = n /\ buf_prependable b = p).
Proof.
  intros. unfold buf_create_ex, sizeof_buffer.
  do 2 passes. rewrite wrapu_small, !alloc_total by lia. simpl.
  eexists. split; [reflexivity|]. eexists. split; [reflexivity|].
  unfold buf_inv, buf_open, buf_contents, buf_room, buf_writable, buf_prependable. simpl.
  rewrite Z.sub_diag, slice_empty, zlen_zeros, wrapu_small by lia.
  repeat split; auto with bytes; lia.
Qed.

Lemma buf_has_written_ok b n :
  buf_inv b -> 0 <= n <= buf_writable b ->
  buf_has_written b n = Ret (set_write b (write_idx b + n)).
Proof.
  intros Hi Hn. unfold buf_has_written. passes.
  rewrite buf_writable_inv in Hn by done. inv_buf.
  by rewrite wrapu_small by lia.
Qed.

(** Storing [d] behind the readable bytes, then advancing [write_idx]. *)
Definition stored (b : buffer) (d : bytes) : buffer :=
  set_mem b (mem_splice (buf b) (write_idx b) d).
Definition extended (b : buffer) (d : bytes) : buffer :=
  set_write (stored b d) (write_idx b + zlen d).

Lemma buf_beginWrite_ok b d :
  buf_inv b -> zlen d <= buf_writable b -> buf_beginWrite b d = Ret (stored b d).
Proof.
  intros Hi Hn. rewrite buf_writable_inv in Hn by done. inv_buf.
  unfold buf_beginWrite. by rewrite mem_write_ok by zlia.
Qed.

Lemma stored_inv b d :
  buf_inv b -> all_bytes d -> zlen d <= buf_writable b -> buf_inv (stored b d).
Proof.
  intros Hi Hd Hn. rewrite buf_writable_inv in Hn by done. inv_buf.
  unfold buf_inv. simpl. rewrite zlen_mem_splice by zlia.
  repeat split; auto with bytes.
Qed.

Lemma extended_ok b d :
  buf_inv b -> all_bytes d -> zlen d <= buf_writable b ->
  buf_inv (extended b d) /\ buf_contents (extended b d) = buf_contents b ++ d.
Proof.
  intros Hi Hd Hn. pose proof (stored_inv b d Hi Hd Hn) as Hs.
  rewrite buf_writable_inv in Hn by done. split.
  - unfold buf_inv in *. simpl in *. zlen_facts. intuition lia.
  - inv_buf. unfold buf_contents. simpl.
    replace (write_idx b + zlen d - read_idx b)
      with (write_idx b - read_idx b + zlen d) by lia.
    apply slice_splice_append; lia.
Qed.

Lemma buf_poke_ok b d :
  buf_inv b -> all_bytes d -> zlen d <= buf_writable b ->
  returns (buf_beginWrite b d) (fun b1 =>
    returns (buf_has_written b1 (zlen d)) (fun b' =>
      b' = extended b d /\ buf_inv b' /\ buf_contents b' = buf_contents b ++ d)).
Proof.
  intros Hi Hd Hn. rewrite buf_beginWrite_ok by done. apply returns_ret. cbn beta.
  rewrite buf_has_written_ok; [|apply stored_inv; done|].
  - apply returns_ret. split; [done|]. exact (extended_ok b d Hi Hd Hn).
  - change (buf_writable (stored b d)) with (buf_writable b). zlia.
Qed.

Lemma buf_poke_overflow b d :
  buf_inv b -> buf_writable b < zlen d -> buf_beginWrite b d = Undefined.
Proof.
  intros Hi Hn. rewrite buf_writable_inv in Hn by done. inv_buf.
  unfold buf_beginWrite, mem_write. by step_false.
Qed.

Lemma ASSERT_WRITE_ok b : buf_writeLocked b = false -> ASSERT_WRITE b = Ret tt.
Proof. intros E. unfold ASSERT_WRITE. by rewrite E. Qed.

(** Moving the readable bytes to [p_sz], in place or into a new block. *)
Definition moved (b b' : buffer) : Prop :=
  buf_inv b' /\ read_idx b' = p_sz b /\ p_sz b' = p_sz b /\
buf_contents b' = buf_contents b /\ refcount b' = refcount b /\ src b' = src b.

Lemma moved_intro b m n :
  buf_inv b -> n = zlen m -> n < 2 ^ 63 -> all_bytes m ->
  p_sz b + (write_idx b - read_idx b) <= n ->
  slice (p_sz b) (write_idx b - read_idx b) m = buf_contents b ->
  moved b (mkBuffer (p_sz b) (p_sz b + (write_idx b - read_idx b)) n (p_sz b) m
             (refcount b) (src b) (cache b)).
Proof.
  intros Hi -> Hn Hm Hl Hs. unfold moved, buf_inv. simpl. inv_buf.
  repeat split; auto; try lia.
  rewrite <- Hs. unfold buf_contents. simpl. f_equal. lia.
Qed.

Lemma buf_swap_ok b nsz :
  buf_inv b -> p_sz b + (write_idx b - read_idx b) <= nsz -> nsz < 2 ^ 63 ->
  returns (buf_swap b nsz) (fun b' =>
    b' = set_sz (set_mem b (mem_splice (zeros nsz) (p_sz b) (buf_contents b))) nsz).
Proof.
  intros Hi Hn Hl. unfold buf_swap. pose proof (zlen_buf_contents b Hi).
  rewrite buf_peek_all, buf_readable_inv by done. inv_buf.
  passes. rewrite alloc_total by lia. passes. rewrite ret_bind.
  rewrite mem_write_ok by zlia. by apply returns_ret.
Qed.

Lemma buf_makeSpace_ok b len :
  buf_inv b -> buf_open b -> buf_writable b < len -> len <= buf_room b ->
  returns (buf_makeSpace b len) (fun b' =>
    moved b b' /\ len <= buf_writable b' /\ buf_room b - len <= buf_room b').
Proof.
  intros Hi [_ Ho] Hw Hr. pose proof (zlen_buf_contents b Hi) as Hc.
  pose proof (buf_contents_bytes b Hi). rewrite buf_writable_inv in Hw by done.
  unfold buf_makeSpace, buf_prependable, buf_room in *.
  rewrite buf_writable_inv, buf_readable_inv by done. inv_buf.
  rewrite (wrapu_small 64 (read_idx b + _ - _)) by lia.
  destruct (Z.ltb_spec (read_idx b + (sz b - write_idx b) - p_sz b) len).
  - rewrite (wrapu_small 64 (write_idx b + len)) by lia.
    step by buf_swap_ok; [done|lia|lia|]. intros b' ->. simpl.
    rewrite wrapu_small by lia. rewrite c_assert_true by
      (unfold buf_readable; simpl; rewrite wrapu_small by lia; lia).
    rewrite ret_bind. apply returns_ret. buf_simpl.
    match goal with |- moved _ ?x /\ _ => assert (moved b x) as Hm end.
    { apply moved_intro; auto with bytes; rewrite ?zlen_mem_splice; try zlia.
      rewrite <- Hc. apply slice_splice_exact; zlia. }
    split; [done|]. split; [|unfold buf_room; simpl; lia].
    rewrite buf_writable_inv by apply Hm. simpl. lia.
  - passes. rewrite <- (buf_readable_inv b), buf_peek_all by done. rewrite ret_bind.
    rewrite mem_write_ok, !ret_bind by zlia. simpl. rewrite buf_readable_inv by done.
    rewrite wrapu_small by lia. rewrite c_assert_true by
      (unfold buf_readable; simpl; rewrite wrapu_small by lia; lia).
    rewrite ret_bind. apply returns_ret. buf_simpl.
    match goal with |- moved _ ?x /\ _ => assert (moved b x) as Hm end.
    { apply moved_intro; auto with bytes; rewrite ?zlen_mem_splice; try zlia.
      rewrite <- Hc. apply slice_splice_exact; zlia. }
    split; [done|]. split; [|unfold buf_room; simpl; lia].
    rewrite buf_writable_inv by apply Hm. simpl. lia.
Qed.

Lemma moved_unlocked b b' : moved b b' -> buf_writeLocked b' = buf_writeLocked b.
Proof.
  intros (_ & _ & _ & _ & Hr & Hs).
  unfold buf_writeLocked, buf_isReadonlyView. by rewrite Hr, Hs.
Qed.

Lemma buf_ensureWritable_ok b len :
  buf_inv b -> buf_open b -> 0 <= len <= buf_room b ->
  returns (buf_ensureWritable b len) (fun b' =>
    buf_inv b' /\ buf_open b' /\ len <= buf_writable b' /\
    buf_contents b' = buf_contents b /\ p_sz b' = p_sz b /\
    buf_room b - len <= buf_room b' /\ (len <= buf_writable b -> b' = b)).
Proof.
  intros Hi Ho Hl. unfold buf_ensureWritable. rewrite ASSERT_WRITE_ok by apply Ho.
  rewrite ret_bind. destruct (Z.ltb_spec (buf_writable b) len).
  - step by buf_makeSpace_ok; [done|done|done|lia|].
    intros b' (Hm & Hw & Hr). passes. apply returns_ret.
    pose proof (moved_unlocked b b' Hm) as Hu. destruct Hm as (? & Hrd & Hp & ? & _).
    split; [done|]. split; [split; [rewrite Hu; apply Ho | lia]|].
    split; [done|]. split; [done|]. split; [done|]. split; [done|lia].
  - rewrite ret_bind. passes. apply returns_ret. do 5 (split; [done|]). split; [lia|done].
Qed.

Lemma buf_append_ok b d :
  buf_inv b -> buf_open b -> all_bytes d -> zlen d <= buf_room b ->
  returns (buf_append b d) (fun b' =>
    buf_inv b' /\ buf_open b' /\ buf_contents b' = buf_contents b ++ d /\
    buf_room b - zlen d <= buf_room b' /\ p_sz b' = p_sz b /\
    (zlen d <= buf_writable b ->
       buf_writable b' = buf_writable b - zlen d /\ buf_room b' = buf_room b)).
Proof.
  intros Hi Ho Hd Hl. unfold buf_append. rewrite ASSERT_WRITE_ok by apply Ho.
  rewrite ret_bind. step by buf_ensureWritable_ok; [done|done|zlia|].
  intros b1 (Hi1 & Ho1 & Hw1 & Hc1 & Hp1 & Hr1 & Hsame).
  step by buf_poke_ok; [done|done|done|].
  intros b2 Hb2. eapply returns_mono; [exact Hb2|].
  intros b' (-> & Hi' & Hc').
  split; [done|]. split; [exact Ho1|]. split; [by rewrite Hc', Hc1|].
  split; [exact Hr1|]. split; [exact Hp1|].
  intros Hfit. rewrite (Hsame Hfit) in *. split; [|done].
  rewrite !buf_writable_inv by done. simpl. lia.
Qed.

Lemma buf_prepend_ok b d :
  buf_inv b -> all_bytes d -> zlen d <= buf_prependable b ->
  returns (buf_prepend b d) (fun b' =>
    buf_inv b' /\ buf_contents b' = d ++ buf_contents b /\
    buf_prependable b' = buf_prependable b - zlen d /\
    (buf_writeLocked b = false -> buf_writeLocked b' = false) /\ buf_room b' = buf_room b).
Proof.
  intros Hi Hd Hl. unfold buf_prepend, buf_prependable in *. inv_buf. passes.
  rewrite mem_write_ok by zlia. rewrite ret_bind. apply returns_ret. split; [|split].
  - unfold buf_inv. simpl. rewrite zlen_mem_splice by zlia.
    repeat split; auto with bytes; zlia.
  - unfold buf_contents. simpl.
    replace (write_idx b - (read_idx b - zlen d))
      with (write_idx b - read_idx b + zlen d) by lia.
    apply slice_splice_prepend; lia.
  - done.
Qed.

Lemma buf_retrieveAll_ok b :
  buf_inv b -> buf_inv (buf_retrieveAll b) /\ buf_contents (buf_retrieveAll b) = [] /\
    (buf_writeLocked b = false -> buf_open (buf_retrieveAll b)) /\
    buf_room (buf_retrieveAll b) = buf_room b /\ p_sz (buf_retrieveAll b) = p_sz b.
Proof.
  intros Hi. inv_buf. unfold buf_retrieveAll. buf_simpl. split; [|split].
  - unfold buf_inv. simpl. repeat split; auto; lia.
  - unfold buf_contents. simpl. by rewrite Z.sub_diag, slice_empty.
  - split; [|done]. intros ?. split; [done|]. simpl. lia.
Qed.

Lemma buf_retrieve_ok b n :
  buf_inv b -> 0 <= n <= zlen (buf_contents b) ->
  returns (buf_retrieve b n) (fun b' =>
    buf_inv b' /\ buf_contents b' = zdrop n (buf_contents b) /\
    (buf_open b -> buf_open b') /\ buf_room b' = buf_room b /\ p_sz b' = p_sz b).
Proof.
  intros Hi Hn. rewrite zlen_buf_contents in Hn by done.
  unfold buf_retrieve. rewrite buf_readable_inv by done. inv_buf. passes.
  apply returns_ret. destruct (Z.ltb_spec n (write_idx b - read_idx b)).
  - rewrite wrapu_small by lia. buf_simpl. split; [|split].
    + unfold buf_inv. simpl. repeat split; auto; lia.
    + unfold buf_contents. simpl. rewrite <- slice_advance by lia. f_equal. lia.
    + split; [|done]. intros [? ?]. split; [done|]. simpl. lia.
  - assert (n = write_idx b - read_idx b) as -> by lia.
    rewrite zdrop_all by (rewrite zlen_buf_contents by done; lia).
    destruct (buf_retrieveAll_ok b Hi) as (? & ? & Hun & ? & ?).
    split_and!; try done. intros [? _]. by apply Hun.
Qed.

Lemma buf_retrieve_abort b n :
  buf_inv b -> zlen (buf_contents b) < n -> buf_retrieve b n = AssertFail.
Proof.
  intros Hi Hn. rewrite zlen_buf_contents in Hn by done.
  unfold buf_retrieve. rewrite buf_readable_inv by done. aborts.
Qed.
End laws.

(** ** The implementation of the byte-buffer interface *)
#[export] Instance buffer_ByteBuf `{Allocator} : ByteBuf buffer := {
  bb_create := buf_create_ex;
  bb_readable := buf_readable;
  bb_writable := buf_writable;
  bb_prependable := buf_prependable;
  bb_peek := buf_peek;
  bb_append := buf_append;
  bb_prepend := buf_prepend;
  bb_retrieve := buf_retrieve;
  bb_retrieveAll := buf_retrieveAll;
  bb_poke := buf_beginWrite;
  bb_has_written := buf_has_written
}.

#[export] Instance buffer_ByteBufSpec `{AllocTotal} : ByteBufSpec buffer.
Proof.
  refine (Build_ByteBufSpec buffer _ buf_inv buf_contents buf_open
            (fun b => buf_writeLocked b = false) buf_room p_sz _ _ _ _ _ _ _ _ _ _ _ _ _ _).
  - intros b Hi. simpl. by rewrite buf_readable_inv, zlen_buf_contents.
  - apply buf_contents_bytes.
  - intros b Hi. rewrite zlen_buf_contents by done. inv_buf. lia.
  - apply buf_create_ok.
  - apply buf_peek_ok.
  - intros b d Hi Ho Hd Hl. eapply returns_mono; [by apply buf_append_ok|].
    intros b' (? & ? & ? & ? & ? & ?). auto 10.
  - by intros b [? _].
  - intros b Hi [_ Ho]. exact Ho.
  - apply buf_prepend_ok.
  - apply buf_retrieve_ok.
  - apply buf_retrieve_abort.
  - apply buf_retrieveAll_ok.
  - intros b d Hi Hd Hl. simpl in *. eapply returns_mono; [by apply buf_poke_ok|].
    intros b1 Hb1. eapply returns_mono; [exact Hb1|].
    intros b' (-> & Hi' & Hc'). rewrite !buf_writable_inv by done.
    split; [done|]. split; [exact id|]. split; [done|].
    split; [simpl; lia|]. done.
  - apply buf_poke_overflow.
Defined.

(** ** Appending while prepended bytes are outstanding *)
Section after_prepend.
Context `{AllocTotal}.
Implicit Types b : buffer.

(** [buf_makeSpace] counts the space in front of the readable bytes minus
    [p_sz]; when [read_idx < p_sz] that loses what was prepended. *)
Lemma buf_makeSpace_after_prepend b len :
  buf_inv b -> read_idx b < p_sz b -> buf_writable b < len -> len <= buf_room b ->
  buf_makeSpace b len = AssertFail \/
  returns (buf_makeSpace b len) (fun b' => buf_writable b' < len).
Proof.
  intros Hi Hp Hw Hr. pose proof (zlen_buf_contents b Hi) as Hc.
  rewrite buf_writable_inv in Hw by done.
  unfold buf_makeSpace, buf_prependable, buf_room in *.
  rewrite buf_writable_inv, buf_readable_inv by done. inv_buf.
  destruct (Z.ltb_spec (u64 (read_idx b + (sz b - write_idx b) - p_sz b)) len) as [Hlt|].
  - right. rewrite (wrapu_small 64 (write_idx b + len)) by lia.
    assert (p_sz b <= read_idx b + (sz b - write_idx b)).
    { destruct (Z.le_gt_cases (p_sz b) (read_idx b + (sz b - write_idx b))); [done|].
      unfold wrapu in Hlt. rewrite <- (Z_mod_plus_full _ 1), Z.mod_small in Hlt; lia. }
    step by buf_swap_ok; [done|lia|lia|]. intros b' ->. buf_simpl.
    rewrite wrapu_small by lia. rewrite c_assert_true by
      (unfold buf_readable; simpl; rewrite wrapu_small by lia; lia).
    rewrite ret_bind. apply returns_ret.
    unfold buf_writable. simpl. rewrite wrapu_small; lia.
  - left. by rewrite c_assert_false by lia.
Qed.

(** Once bytes have been prepended ([read_idx < p_sz]), an append that
    does not fit behind the readable bytes never returns: an assertion stops
    the process, however much memory is free. *)
Theorem buf_append_after_prepend_aborts b d :
  buf_inv b -> buf_writeLocked b = false -> read_idx b < p_sz b ->
  buf_writable b < zlen d -> zlen d <= buf_room b ->
  buf_append b d = AssertFail.
Proof.
  intros Hi Hu Hp Hw Hr. unfold buf_append, buf_ensureWritable.
  rewrite ASSERT_WRITE_ok, !ret_bind by done.
  destruct (Z.ltb_spec (buf_writable b) (zlen d)); [|lia].
  destruct (buf_makeSpace_after_prepend b (zlen d)) as [->|(b' & -> & Hb')]; try done.
  rewrite ret_bind. by rewrite (c_assert_false (_ <=? _)) by lia.
Qed.
End after_prepend.

(** [buf_create(16)], sixteen bytes appended, eight prepended. *)
Definition prepended_buffer : buffer := mkBuffer 0 24 24 8 (zeros 24) 0 None None.

Lemma buf_append_after_prepend_witness :
  @buf_append big_alloc prepended_buffer [1] = AssertFail.
Proof.
  apply (@buf_append_after_prepend_aborts big_alloc big_alloc_total); vm_decide.
Defined.

(** ** [buf_shrink] *)
Section shrink.
Context `{AllocTotal}.
Implicit Types b : buffer.

(** With the readable bytes at [p_sz], shrinking keeps them and leaves
    exactly [reserve] writable bytes. *)
Lemma buf_shrink_compact b reserve :
  buf_inv b -> buf_open b -> read_idx b = p_sz b -> 0 <= reserve ->
  p_sz b + (write_idx b - read_idx b) + reserve < 2 ^ 63 ->
  returns (buf_shrink b reserve) (fun b' =>
    buf_inv b' /\ buf_contents b' = buf_contents b /\ buf_writable b' = reserve).
Proof.
  intros Hi Ho Hrd Hr Hn. pose proof (zlen_buf_contents b Hi) as Hc.
  pose proof (buf_contents_bytes b Hi).
  unfold buf_shrink. rewrite ASSERT_WRITE_ok, ret_bind, buf_readable_inv by (done || apply Ho).
  inv_buf. rewrite wrapu_small by lia.
  destruct (buf_swap_ok b (p_sz b + (write_idx b - read_idx b) + reserve)) as (b' & -> & ->);
    [done|lia|lia|].
  apply returns_ret. buf_simpl. split; [|split].
  - unfold buf_inv. simpl. rewrite zlen_mem_splice by zlia.
    repeat split; auto with bytes; zlia.
  - unfold buf_contents at 1. simpl. rewrite <- Hc, Hrd. apply slice_splice_exact; zlia.
  - unfold buf_writable. simpl. rewrite wrapu_small; lia.
Qed.

(** Otherwise the indices keep pointing at the old layout.  When the new
    block ends before [write_idx], the writable size wraps around and the
    next append stores outside the allocation. *)
Lemma buf_shrink_wraps b reserve :
  buf_inv b -> buf_open b -> 0 <= reserve < read_idx b - p_sz b ->
  returns (buf_shrink b reserve) (fun b' =>
    2 ^ 63 <= buf_writable b' /\ sz b' < write_idx b' /\ zlen (buf b') = sz b' /\
    buf_writeLocked b' = false).
Proof.
  intros Hi Ho Hr. pose proof (zlen_buf_contents b Hi) as Hc.
  unfold buf_shrink. rewrite ASSERT_WRITE_ok, ret_bind, buf_readable_inv by (done || apply Ho).
  inv_buf. rewrite wrapu_small by lia.
  destruct (buf_swap_ok b (p_sz b + (write_idx b - read_idx b) + reserve)) as (b' & -> & ->);
    [done|lia|lia|].
  apply returns_ret. buf_simpl. unfold buf_writable. simpl.
  rewrite zlen_mem_splice, zlen_zeros by zlia. split; [|split; [lia|split; [lia|apply Ho]]].
  unfold wrapu. rewrite <- (Z_mod_plus_full _ 1), Z.mod_small; lia.
Qed.

(** [buf_shrink] on a buffer from which more than [reserve] bytes were
    retrieved leaves a state in which appending any non-empty block is an
    out-of-bounds store: the new size is computed from [p_sz] but
    [read_idx] and [write_idx] are not moved there. *)
Theorem buf_shrink_then_append_undefined b reserve d :
  buf_inv b -> buf_open b -> 0 <= reserve < read_idx b - p_sz b ->
  0 < zlen d < 2 ^ 63 ->
  (let! b' := buf_shrink b reserve in buf_append b' d) = Undefined.
Proof.
  intros Hi Ho Hr Hd. destruct (buf_shrink_wraps b reserve) as (b' & -> & Hw & Hs & Hl & Hu);
    [done..|]. rewrite ret_bind. unfold buf_append, buf_ensureWritable.
  rewrite ASSERT_WRITE_ok, !ret_bind by done.
  destruct (Z.ltb_spec (buf_writable b') (zlen d)); [lia|].
  rewrite ret_bind, (c_assert_true (_ <=? _)) by lia. rewrite !ret_bind.
  unfold buf_beginWrite, mem_write. by step_false.
Qed.
End shrink.

(** [buf_create(16)], ten bytes appended, five retrieved. *)
Definition half_read_buffer : buffer := mkBuffer 13 18 24 8 (zeros 24) 0 None None.

Lemma buf_shrink_then_append_witness :
  (let! b' := @buf_shrink big_alloc half_read_buffer 0 in @buf_append big_alloc b' [1]) = Undefined.
Proof.
  apply (@buf_shrink_then_append_undefined big_alloc big_alloc_total); vm_decide.
Defined.

(** ** Little-endian integers *)
Section little_endian.
Context `{AllocTotal}.
Implicit Types b : buffer.

Lemma peek_le_ok n w l rest b :
  buf_inv b -> buf_contents b = l ++ rest -> zlen l = n ->
  peek_le n w b = Ret (wraps w (le_val l)).
Proof.
  intros Hi Hc Hn. unfold peek_le.
  rewrite buf_readable_inv, <- zlen_buf_contents, Hc by done. passes.
  rewrite buf_peek_ok, Hc by (rewrite ?Hc; done || zlia).
  by rewrite ztake_app_exact.
Qed.

Lemma peek_le_value n x rest b :
  buf_inv b -> buf_contents b = le_bytes n x ++ rest ->
  0 < n -> - 2 ^ (8 * n - 1) <= x < 2 ^ (8 * n - 1) ->
  peek_le n (8 * n) b = Ret x.
Proof.
  intros Hi Hc Hn Hx. rewrite (peek_le_ok n (8 * n) (le_bytes n x) rest) by (done || zlia).
  by rewrite le_signed_roundtrip.
Qed.

(** What [buf_appendInt64LE], [buf_appendInt32LE] and [buf_appendInt16LE]
    append to an empty buffer is what the matching [buf_read] functions
    return, for every value of the C type, and the buffer ends empty. *)
Theorem buf_readLE_appendLE b x :
  buf_inv b -> buf_open b -> buf_contents b = [] -> 8 <= buf_room b ->
  (- 2 ^ 63 <= x < 2 ^ 63 ->
     returns (let! b' := buf_appendInt64LE b x in buf_readInt64LE b')
       (fun r => fst r = x /\ buf_contents (snd r) = [])) /\
  (- 2 ^ 31 <= x < 2 ^ 31 ->
     returns (let! b' := buf_appendInt32LE b x in buf_readInt32LE b')
       (fun r => fst r = x /\ buf_contents (snd r) = [])) /\
  (- 2 ^ 15 <= x < 2 ^ 15 ->
     returns (let! b' := buf_appendInt16LE b x in buf_readInt16LE b')
       (fun r => fst r = x /\ buf_contents (snd r) = [])).
Proof.
  intros Hi Ho Hc Hr.
  assert (forall n, 0 < n <= 8 -> - 2 ^ (8 * n - 1) <= x < 2 ^ (8 * n - 1) ->
    returns (let! b' := buf_append b (le_bytes n x) in
             let! y := peek_le n (8 * n) b' in
             let! b'' := buf_retrieve b' n in Ret (y, b''))
      (fun r => fst r = x /\ buf_contents (snd r) = [])) as Hn.
  { intros n Hn Hx. step by buf_append_ok; [done|done|auto with bytes|zlia|].
    intros b' (Hi' & _ & Hc' & _). rewrite Hc in Hc'. simpl in Hc'.
    rewrite (peek_le_value n x []) by (rewrite ?app_nil_r; done || lia).
    rewrite ret_bind. step by buf_retrieve_ok; [done|rewrite Hc'; zlia|].
    intros b'' (_ & Hc'' & _). apply returns_ret. split; [done|].
    simpl. rewrite Hc'', Hc'. apply zdrop_all. zlia. }
  split; [|split]; intros Hx; [apply (Hn 8)|apply (Hn 4)|apply (Hn 2)]; (lia || exact Hx).
Qed.
End little_endian.

Definition fresh_buffer : buffer := mkBuffer 8 8 24 8 (zeros 24) 0 None None.

Lemma buf_readLE_appendLE_witness :
  returns (let! b' := @buf_appendInt32LE big_alloc fresh_buffer (-2) in buf_readInt32LE b')
    (fun r => fst r = -2 /\ buf_contents (snd r) = []).
Proof.
  refine (proj1 (proj2 (@buf_readLE_appendLE big_alloc big_alloc_total
            fresh_buffer (-2) _ _ _ _)) _); vm_decide.
Defined.

(** ** Strings *)
Section cstrings.
Context `{AllocTotal}.
Implicit Types b : buffer.

Lemma buf_findChar_ok b c :
  buf_inv b -> buf_findChar b c = Ret (memchr (u8 c) (buf_contents b)).
Proof. intros. unfold buf_findChar. by rewrite buf_peek_all. Qed.

(** A NUL-terminated string at the front of the buffer is duplicated
    with its terminator and consumed; when there is no NUL, the copy takes
    one byte more than is readable, which is outside the allocation once
    the buffer is full. *)
Theorem buf_dupCStr_spec b :
  buf_inv b -> zlen (buf_contents b) < INT_MAX ->
  (forall s rest, buf_contents b = s ++ [0] ++ rest -> 0 ∉ s ->
     returns (buf_dupCStr b) (fun r =>
       fst r = Some (s ++ [0]) /\ buf_inv (snd r) /\ buf_contents (snd r) = rest)) /\
  (0 ∉ buf_contents b -> write_idx b = sz b -> buf_dupCStr b = Undefined).
Proof.
  intros Hi Hl. unfold INT_MAX in Hl. split.
  - intros s rest Hc Hs. unfold buf_dupCStr. rewrite buf_findChar_ok, ret_bind by done.
    change (u8 0) with 0.
    rewrite (proj2 (memchr_Some 0 (buf_contents b) (zlen s))) by eauto.
    assert (zlen s + 1 + zlen rest = zlen (buf_contents b)) as Hz by (rewrite Hc; zlia).
    rewrite wraps_small, wrapu_small, alloc_total by zlia. simpl.
    rewrite buf_peek_ok by (done || zlia). rewrite ret_bind.
    step by buf_retrieve_ok; [done|zlia|]. intros b' (Hi' & Hc' & _).
    apply returns_ret. simpl. rewrite Hc', Hc, app_assoc.
    rewrite ztake_app_exact, zdrop_app_exact by zlia. done.
  - intros Hn Hw. unfold buf_dupCStr. rewrite buf_findChar_ok, ret_bind by done.
    change (u8 0) with 0. rewrite (proj2 (memchr_None 0 _)) by done.
    rewrite buf_readable_inv by done. rewrite zlen_buf_contents in Hl by done. inv_buf.
    rewrite wraps_small, wrapu_small, alloc_total by lia. simpl.
    unfold buf_peek, mem_read. by step_false.
Qed.
End cstrings.

(** Five readable bytes without a terminator fill the allocation. *)
Definition unterminated_buffer : buffer :=
  mkBuffer 8 13 13 8 (zeros 8 ++ [72; 69; 76; 76; 79]) 0 None None.
Definition terminated_buffer : buffer :=
  mkBuffer 8 13 13 8 (zeros 8 ++ [72; 69; 0; 76; 79]) 0 None None.

Lemma buf_dupCStr_spec_witness :
  @buf_dupCStr big_alloc unterminated_buffer = Undefined /\
  returns (@buf_dupCStr big_alloc terminated_buffer)
    (fun r => fst r = Some [72; 69; 0] /\ buf_inv (snd r) /\ buf_contents (snd r) = [76; 79]).
Proof.
  split.
  - apply (@buf_dupCStr_spec big_alloc big_alloc_total); vm_decide.
  - apply (proj1 (@buf_dupCStr_spec big_alloc big_alloc_total terminated_buffer
                    ltac:(vm_decide) ltac:(vm_decide)) [72; 69] [76; 79]); vm_decide.
Defined.

(** ** Reading from a descriptor *)
Section readFd.
Context `{AllocTotal}.
Implicit Types b : buffer.

(** What the kernel promises of [readv]: it fails with a negative result,
    or stores as many bytes as it returns, at most what the vectors hold. *)
Definition readv_ok (readv : list Z -> Z * bytes) : Prop :=
  forall iov, (fst (readv iov) < 0) \/
    (fst (readv iov) = zlen (snd (readv iov)) /\ all_bytes (snd (readv iov)) /\
     zlen (snd (readv iov)) <= foldr Z.add 0 iov).

Definition iov_of (b : buffer) : list Z :=
  if buf_writable b <? extrabuf_sz then [buf_writable b; extrabuf_sz] else [buf_writable b].

Lemma buf_readFd_ok readv b :
  buf_inv b -> buf_open b -> extrabuf_sz <= buf_room b -> readv_ok readv ->
  let n := fst (readv (iov_of b)) in
  let d := snd (readv (iov_of b)) in
  (n < 0 -> buf_readFd readv b = Ret (n, Some n, b)) /\
  (0 <= n -> returns (buf_readFd readv b) (fun r => exists b',
     r = (n, None, b') /\ buf_inv b' /\ buf_open b' /\
     buf_contents b' = buf_contents b ++ d /\ buf_room b - zlen d <= buf_room b')).
Proof.
  intros Hi Ho Hr Hrv n d. unfold buf_readFd. rewrite ASSERT_WRITE_ok, ret_bind by apply Ho.
  fold (iov_of b). specialize (Hrv (iov_of b)). subst n d.
  destruct (readv (iov_of b)) as [n d]; simpl in *. split; intros Hn.
  { by destruct (Z.ltb_spec n 0); [|lia]. }
  destruct Hrv as [|(-> & Hd & Hl)]; [lia|].
  destruct (Z.ltb_spec (zlen d) 0); [lia|].
  assert (0 <= buf_writable b) by (apply wrapu_range; lia).
  set (d1 := ztake (buf_writable b) d).
  assert (all_bytes d1) by (unfold d1; auto with bytes).
  assert (zlen d1 = Z.min (buf_writable b) (zlen d)) as Hd1 by (unfold d1; zlia).
  destruct (extended_ok b d1) as [Hi1 Hc1]; [done|done|lia|].
  rewrite buf_beginWrite_ok, ret_bind by (done || lia).
  pose proof (buf_writable_inv b Hi) as Hwr.
  destruct (Z.leb_spec (zlen d) (buf_writable b)).
  - assert (d1 = d) as Heq by (unfold d1; apply ztake_all; lia).
    change (write_idx (stored b d1)) with (write_idx b).
    rewrite wrapu_small by (inv_buf; lia).
    clearbody d1. subst d1.
    apply returns_ret. eexists. split; [reflexivity|]. split; [done|]. split; [done|].
    split; [done|]. change (buf_room _) with (buf_room b). zlen_facts. lia.
  - assert (buf_writable b = zlen d1) as Hw by lia.
    replace (set_write (stored b d1) (sz (stored b d1))) with (extended b d1)
      by (unfold extended; f_equal; simpl; lia).
    rewrite ztake_all by zlia.
    step by buf_append_ok; [done|exact Ho|auto with bytes| |].
    + rewrite zlen_zdrop. unfold iov_of in Hl. unfold buf_room in *. simpl in *.
      destruct (Z.ltb_spec (buf_writable b) extrabuf_sz); simpl in *; lia.
    + intros b' (? & ? & Hc' & Hr' & _). apply returns_ret. eexists. split; [reflexivity|].
      split; [done|]. split; [done|]. split.
      * rewrite Hc', Hc1, <- app_assoc. unfold d1. by rewrite ztake_zdrop.
      * change (buf_room (extended b d1)) with (buf_room b) in Hr'. zlia.
Qed.

(** C7.  [buf_readFd] appends exactly the bytes the kernel delivered, also
    when they overflow into the stack buffer; on failure nothing changes
    and [*errno_] receives the return value (not [errno]). *)
Theorem buf_readFd_spec readv b :
  buf_inv b -> buf_open b -> extrabuf_sz <= buf_room b -> readv_ok readv ->
  let n := fst (readv (iov_of b)) in
  let d := snd (readv (iov_of b)) in
  (n < 0 -> buf_readFd readv b = Ret (n, Some n, b)) /\
  (0 <= n -> returns (buf_readFd readv b) (fun r => exists b',
     r = (n, None, b') /\ buf_inv b' /\ buf_open b' /\
     buf_contents b' = buf_contents b ++ d)).
Proof.
  intros Hi Ho Hr Hrv n d. destruct (buf_readFd_ok readv b Hi Ho Hr Hrv) as [Hneg Hpos].
  split; [exact Hneg|]. intros Hn. eapply returns_mono; [by apply Hpos|].
  intros r (b' & ? & ? & ? & ? & _). by exists b'.
Qed.
End readFd.

(** A kernel that always delivers "AB". *)
Definition readv_AB (iov : list Z) : Z * bytes :=
  if 2 <=? foldr Z.add 0 iov then (2, [65; 66]) else (-1, []).

Lemma readv_AB_ok : readv_ok readv_AB.
Proof.
  intros iov. unfold readv_AB. destruct (Z.leb_spec 2 (foldr Z.add 0 iov)); simpl.
  - right. split; [done|]. split; [vm_decide|]. zlia.
  - left. lia.
Qed.

Lemma buf_readFd_spec_witness :
  returns (@buf_readFd big_alloc readv_AB unterminated_buffer) (fun r => exists b',
    r = (2, None, b') /\ buf_inv b' /\ buf_open b' /\
    buf_contents b' = [72; 69; 76; 76; 79; 65; 66]).
Proof.
  refine (proj2 (@buf_readFd_spec big_alloc big_alloc_total readv_AB unterminated_buffer
            _ _ _ readv_AB_ok) _); vm_decide.
Defined.

(** ** Buffers for concrete runs *)

(** A buffer whose readable bytes are exactly its block. *)
Definition loaded (l : bytes) : buffer := mkBuffer 0 (zlen l) (zlen l) 0 l 0 None None.

Lemma loaded_holds `{AllocTotal} l : all_bytes l -> zlen l < 2 ^ 63 -> holds l (loaded l).
Proof.
  intros Hl Hs. zlen_facts. split.
  - unfold bb_inv, buffer_ByteBufSpec, buf_inv, loaded. simpl. split_and!; try done; lia.
  - unfold bb_contents, buffer_ByteBufSpec, buf_contents, loaded. simpl.
    rewrite Z.sub_0_r. apply slice_0_all.
Qed.
