(* ===== verification/BufferView.v ===== *)
(** * [base/buffer.c]: read-only views

    A read-only view is a [struct buffer] whose [buf] points into the
    allocation of the buffer it was made from; views nest, and each buffer
    caches one released view.  Here several buffers live in a [store]: a map
    from addresses to structures ([cell]: the structure, the block its [buf]
    points into and the offset) and a map from block identifiers to bytes.
    The functions on one buffer of [Buffer] are lifted to the store by
    [on_buf].  [vstep] is one call by a client that only uses addresses it
    holds ([live]); the theorems are about the states it can reach. *)

From stdpp Require Import base tactics numbers list option gmap fin_maps fin_sets.
From Stdlib Require Import Lia.
From S2P Require Import Prelude Buffer.

Record cell := mkCell { c_buf : buffer; c_blk : Z; c_off : Z }.
Record store := mkStore { cells : gmap Z cell; blocks : gmap Z bytes; next : Z }.

Definition set_links (b : buffer) (rc : Z) (ca : option Z) : buffer :=
  mkBuffer (read_idx b) (write_idx b) (sz b) (p_sz b) (buf b) rc (src b) ca.
Definition set_cell (st : store) (l : Z) (c : cell) : store :=
  mkStore (<[l := c]> (cells st)) (blocks st) (next st).
Definition upd_links (c : cell) (rc : Z) (ca : option Z) : cell :=
  mkCell (set_links (c_buf c) rc ca) (c_blk c) (c_off c).

(** The structure at [l] with the memory its [buf] points to. *)
Definition load (st : store) (l : Z) : outcome buffer :=
  let! c := deref (cells st !! l) in
  let! m := deref (blocks st !! c_blk c) in
  Ret (set_mem (c_buf c) (zdrop (c_off c) m)).

Definition on_buf (st : store) (l : Z) (f : buffer -> outcome buffer) : outcome store :=
  let! c := deref (cells st !! l) in
  let! m := deref (blocks st !! c_blk c) in
  let! b := f (set_mem (c_buf c) (zdrop (c_off c) m)) in
  Ret (mkStore (<[l := mkCell (set_mem b []) (c_blk c) (c_off c)]> (cells st))
         (<[c_blk c := ztake (c_off c) m ++ buf b]> (blocks st)) (next st)).

Section view_ops.
Context `{Allocator}.

(** [buf_create_ex] at the next free address, with a block of its own. *)
Definition store_create (st : store) (size prepend_size : Z) : outcome (option Z * store) :=
  let! ob := buf_create_ex size prepend_size in
  match ob with
  | None => Ret (None, st)
  | Some b =>
    let l := next st in
    Ret (Some l, mkStore (<[l := mkCell (set_mem b []) l 0]> (cells st))
                   (<[l := buf b]> (blocks st)) (l + 1))
  end.

(** [free] is defined on an allocated block, given its first byte, and on the
    address of an allocated structure. *)
Definition buf_release (st : store) (l : Z) : outcome store :=
  let! c := deref (cells st !! l) in
  c_assert (refcount (c_buf c) =? 0) ;;
  match src (c_buf c) with
  | Some s =>
    let! cs := deref (cells st !! s) in
    let rc := u64 (refcount (c_buf cs) - 1) in
    match cache (c_buf cs) with
    | None => Ret (set_cell st s (upd_links cs rc (Some l)))
    | Some v =>
      let st1 := set_cell st s (upd_links cs rc (Some v)) in
      Ret (mkStore (delete l (cells st1)) (blocks st1) (next st1))
    end
  | None =>
    let! _ := deref (blocks st !! c_blk c) in
    defined (c_off c =? 0) ;;
    let! cs := match cache (c_buf c) with
               | Some v => let! _ := deref (cells st !! v) in Ret (delete v (cells st))
               | None => Ret (cells st)
               end in
    Ret (mkStore (delete l cs) (delete (c_blk c) (blocks st)) (next st))
  end.

Definition buf_readonlyView (st : store) (l n : Z) : outcome (option Z * store) :=
  c_assert (0 <? n) ;;
  let! c := deref (cells st !! l) in
  let b := c_buf c in
  let n := if buf_readable b <? n then buf_readable b else n in
  let view := mkCell (mkBuffer 0 n n 0 [] 0 (Some l) None) (c_blk c) (c_off c + read_idx b) in
  let rc := u64 (refcount b + 1) in
  match cache b with
  | Some v =>
    Ret (Some v, set_cell (set_cell st l (upd_links c rc None)) v view)
  | None =>
    if negb (alloc_ok sizeof_buffer) then Ret (None, st) else
    let v := next st in
    let st1 := set_cell (set_cell st l (upd_links c rc None)) v view in
    Ret (Some v, mkStore (cells st1) (blocks st1) (v + 1))
  end.

(** A function on one buffer leaves the fields that link buffers alone. *)
Definition keeps_links (f : buffer -> outcome buffer) : Prop :=
  forall b b', f b = Ret b' ->
    refcount b' = refcount b /\ src b' = src b /\ cache b' = cache b.

Definition vstate : Type := store * gset Z.

(** Addresses are below [PTRDIFF_MAX]. *)
Inductive vstep : vstate -> vstate -> Prop :=
| vs_create st live n p l st' :
    store_create st n p = Ret (Some l, st') -> next st' < 2 ^ 63 -> vstep (st, live) (st', {[l]} ∪ live)
| vs_view st live l n v st' :
    l ∈ live -> buf_readonlyView st l n = Ret (Some v, st') -> next st' < 2 ^ 63 ->
    vstep (st, live) (st', {[v]} ∪ live)
| vs_release st live l st' :
    l ∈ live -> buf_release st l = Ret st' -> vstep (st, live) (st', live ∖ {[l]})
| vs_op st live l f st' :
    l ∈ live -> keeps_links f -> on_buf st l f = Ret st' -> vstep (st, live) (st', live).

Definition vinit : vstate := (mkStore ∅ ∅ 0, ∅).
Definition vreachable : vstate -> Prop := rtc vstep vinit.
End view_ops.

(** ** The invariant *)
Definition src_at (st : store) (v : Z) : option Z :=
  match cells st !! v with Some c => src (c_buf c) | None => None end.

(** The live views made from [l]. *)
Definition children (st : store) (live : gset Z) (l : Z) : gset Z :=
  filter (fun v => src_at st v = Some l) live.

Record vinv (st : store) (live : gset Z) : Prop := {
  vi_live l : l ∈ live -> is_Some (cells st !! l);
  vi_dom l c : cells st !! l = Some c -> 0 <= l < next st;
  vi_next : next st < 2 ^ 63;
  vi_count l c : l ∈ live -> cells st !! l = Some c ->
    refcount (c_buf c) = Z.of_nat (size (children st live l));
  vi_src v c s : v ∈ live -> cells st !! v = Some c -> src (c_buf c) = Some s ->
    s ∈ live /\ exists cs, cells st !! s = Some cs /\ c_blk cs = c_blk c;
  vi_cache l c v : l ∈ live -> cells st !! l = Some c -> cache (c_buf c) = Some v ->
    (v ∉ live) /\ is_Some (cells st !! v);
  vi_cache_inj l1 l2 c1 c2 v : l1 ∈ live -> l2 ∈ live ->
    cells st !! l1 = Some c1 -> cells st !! l2 = Some c2 ->
    cache (c_buf c1) = Some v -> cache (c_buf c2) = Some v -> l1 = l2
}.

Lemma elem_children st live l v :
  v ∈ children st live l <-> v ∈ live /\ src_at st v = Some l.
Proof. unfold children. rewrite elem_of_filter. tauto. Qed.

Lemma gset_size_0 (X : gset Z) : size X = 0%nat <-> X = ∅.
Proof. rewrite size_empty_iff. apply leibniz_equiv_iff. Qed.

Lemma vi_fresh st live : vinv st live -> next st ∉ live.
Proof.
  intros Hi Hn. destruct (vi_live _ _ Hi _ Hn) as [c Hc].
  pose proof (vi_dom _ _ Hi _ _ Hc). lia.
Qed.

(** The number of live addresses, hence of views, fits a [size_t]. *)
Lemma size_below (X : gset Z) n :
  0 <= n -> (forall x, x ∈ X -> 0 <= x < n) -> Z.of_nat (size X) <= n.
Proof.
  intros Hn HX.
  assert (X ⊆ list_to_set (seqZ 0 n)) as Hs.
  { intros x Hx. apply elem_of_list_to_set, elem_of_seqZ. specialize (HX x Hx). lia. }
  apply subseteq_size in Hs. rewrite size_list_to_set in Hs by apply NoDup_seqZ.
  rewrite length_seqZ in Hs. lia.
Qed.

Lemma children_size st live l :
  vinv st live -> 0 <= Z.of_nat (size (children st live l)) < 2 ^ 63.
Proof.
  intros Hi. split; [lia|]. pose proof (vi_next _ _ Hi).
  destruct (decide (0 <= next st)) as [Hn|Hn].
  - assert (Z.of_nat (size (children st live l)) <= next st); [|lia].
    apply size_below; [done|]. intros x Hx. apply elem_children in Hx as [Hx _].
    destruct (vi_live _ _ Hi _ Hx) as [c Hc]. exact (vi_dom _ _ Hi _ _ Hc).
  - assert (children st live l = ∅) as ->; [|rewrite size_empty; lia].
    apply set_eq. intros x. rewrite elem_children. split; [|set_solver].
    intros [Hx _]. destruct (vi_live _ _ Hi _ Hx) as [c Hc].
    pose proof (vi_dom _ _ Hi _ _ Hc). lia.
Qed.

(** Replace a cell by one with the same links. *)
Definition same_links (c c' : cell) : Prop :=
  refcount (c_buf c') = refcount (c_buf c) /\ src (c_buf c') = src (c_buf c) /\
  cache (c_buf c') = cache (c_buf c) /\ c_blk c' = c_blk c.

Ltac cell_cases :=
  repeat match goal with
  | H : <[_ := _]> _ !! _ = Some _ |- _ =>
    rewrite lookup_insert in H; case_decide; simplify_eq/=
  | H : delete _ _ !! _ = Some _ |- _ =>
    apply lookup_delete_Some in H as [? H]
  end.

Lemma vinv_op st live l c c' m :
  vinv st live -> cells st !! l = Some c -> same_links c c' ->
  vinv (mkStore (<[l := c']> (cells st)) m (next st)) live.
Proof.
  intros Hi Hc (Hr & Hs & Hca & Hb).
  assert (forall x, src_at (mkStore (<[l := c']> (cells st)) m (next st)) x = src_at st x) as Hsrc.
  { intros x. unfold src_at. simpl. rewrite lookup_insert. case_decide; [|done].
    subst. by rewrite Hc. }
  assert (forall x, children (mkStore (<[l := c']> (cells st)) m (next st)) live x
                    = children st live x) as Hch.
  { intros x. apply set_eq. intros y. by rewrite !elem_children, Hsrc. }
  assert (forall x cx, <[l := c']> (cells st) !! x = Some cx ->
            exists cx0, cells st !! x = Some cx0 /\ same_links cx0 cx) as Hold.
  { intros x cx Hx. rewrite lookup_insert in Hx. case_decide; simplify_eq.
    - exists c. done.
    - exists cx. done. }
  split; simpl.
  - intros x Hx. rewrite lookup_insert. case_decide; [eauto|]. by apply (vi_live _ _ Hi).
  - intros x cx Hx. destruct (Hold x cx Hx) as (c0 & H0 & _). by apply (vi_dom _ _ Hi x c0).
  - apply (vi_next _ _ Hi).
  - intros x cx Hl Hx. destruct (Hold x cx Hx) as (c0 & H0 & E & _).
    rewrite Hch, E. by apply (vi_count _ _ Hi).
  - intros v cv s Hl Hx Hsv. destruct (Hold v cv Hx) as (c0 & H0 & _ & E & _ & E').
    rewrite E in Hsv. destruct (vi_src _ _ Hi _ _ _ Hl H0 Hsv) as (? & cs & Hcs & Hbs).
    split; [done|]. rewrite lookup_insert. case_decide.
    + subst. exists c'. rewrite Hc in Hcs. injection Hcs as ->. split; [done|congruence].
    + exists cs. split; [done|congruence].
  - intros x cx v Hl Hx Hv. destruct (Hold x cx Hx) as (c0 & H0 & _ & _ & E & _).
    rewrite E in Hv. destruct (vi_cache _ _ Hi _ _ _ Hl H0 Hv) as [? ?].
    split; [done|]. rewrite lookup_insert. case_decide; eauto.
  - intros x1 x2 c1 c2 v Hl1 Hl2 Hx1 Hx2 Hv1 Hv2.
    destruct (Hold x1 c1 Hx1) as (c10 & H10 & _ & _ & E1 & _).
    destruct (Hold x2 c2 Hx2) as (c20 & H20 & _ & _ & E2 & _).
    rewrite E1 in Hv1. rewrite E2 in Hv2.
    exact (vi_cache_inj _ _ Hi _ _ _ _ _ Hl1 Hl2 H10 H20 Hv1 Hv2).
Qed.

(** How a step may change the cells of the live buffers: [x] keeps its cell
    up to [refcount] and [cache], or is new. *)
Lemma children_eq st st' (live live' : gset Z) l :
  (forall x, x ∈ live' /\ src_at st' x = Some l <-> x ∈ live /\ src_at st x = Some l) ->
  children st' live' l = children st live l.
Proof. intros Hx. apply set_eq. intros x. rewrite !elem_children. apply Hx. Qed.

Lemma src_at_cell st x c : cells st !! x = Some c -> src_at st x = src (c_buf c).
Proof. unfold src_at. by intros ->. Qed.

Lemma no_children st live l :
  vinv st live -> l ∉ live -> children st live l = ∅.
Proof.
  intros Hi Hl. apply set_eq. intros x. rewrite elem_children. split; [|set_solver].
  intros [Hx Hs]. unfold src_at in Hs. destruct (cells st !! x) as [c|] eqn:E; [|done].
  by destruct (vi_src _ _ Hi _ _ _ Hx E Hs) as [? _].
Qed.

(** A new buffer at a fresh address. *)
Lemma vinv_create st live b blk m :
  vinv st live -> 0 <= next st -> next st + 1 < 2 ^ 63 ->
  refcount b = 0 -> src b = None -> cache b = None ->
  vinv (mkStore (<[next st := mkCell b blk 0]> (cells st)) m (next st + 1))
       ({[next st]} ∪ live).
Proof.
  intros Hi H0 Hn Hrc Hs Hca. pose proof (vi_fresh _ _ Hi) as Hf.
  set (l := next st) in *. set (st' := mkStore _ _ _).
  assert (cells st' !! l = Some (mkCell b blk 0)) as Hl by apply lookup_insert_eq.
  assert (forall x, x <> l -> cells st' !! x = cells st !! x) as Hne
    by (intros; by apply lookup_insert_ne).
  assert (forall x, children st' ({[l]} ∪ live) x = children st live x) as Hch.
  { intros x. apply children_eq. intros y. unfold src_at.
    destruct (decide (y = l)) as [->|Hy]; [rewrite Hl; simpl|rewrite Hne by done];
      set_solver by congruence. }
  assert (forall x cx, x ∈ {[l]} ∪ live -> cells st' !! x = Some cx ->
    (x = l /\ cx = mkCell b blk 0) \/ (x <> l /\ x ∈ live /\ cells st !! x = Some cx)) as Hcase.
  { intros x cx Hx E. destruct (decide (x = l)) as [->|Hy].
    - left. rewrite Hl in E. by simplify_eq.
    - right. rewrite Hne in E by done. set_solver. }
  split.
  - intros x Hx. destruct (decide (x = l)) as [->|Hy]; [eauto|]. rewrite Hne by done.
    apply (vi_live _ _ Hi). set_solver.
  - intros x cx Hx. simpl. destruct (decide (x = l)) as [->|Hy]; [lia|].
    rewrite Hne in Hx by done. pose proof (vi_dom _ _ Hi _ _ Hx). lia.
  - simpl. lia.
  - intros x cx Hx E. rewrite Hch. destruct (Hcase x cx Hx E) as [[-> ->]|(? & ? & ?)].
    + simpl. rewrite Hrc, no_children by done. by rewrite size_empty.
    + by apply (vi_count _ _ Hi).
  - intros v cv s Hx E Hsv. destruct (Hcase v cv Hx E) as [[-> ->]|(? & Hv & Hcv)];
      [simpl in *; congruence|].
    destruct (vi_src _ _ Hi _ _ _ Hv Hcv Hsv) as (Hsl & cs & ? & ?).
    split; [set_solver|]. exists cs. rewrite Hne; [done|]. intros ->. done.
  - intros x cx v Hx E Hv. destruct (Hcase x cx Hx E) as [[-> ->]|(? & Hxl & Hcx)];
      [simpl in *; congruence|].
    destruct (vi_cache _ _ Hi _ _ _ Hxl Hcx Hv) as [? [cv Hcv]].
    pose proof (vi_dom _ _ Hi _ _ Hcv). assert (v <> l) by (unfold l; lia).
    rewrite Hne by done. split; [set_solver|eauto].
  - intros x1 x2 c1 c2 v Hx1 Hx2 E1 E2 Hv1 Hv2.
    destruct (Hcase _ _ Hx1 E1) as [[-> ->]|(? & ? & ?)]; [simpl in *; congruence|].
    destruct (Hcase _ _ Hx2 E2) as [[-> ->]|(? & ? & ?)]; [simpl in *; congruence|].
    eapply (vi_cache_inj _ _ Hi x1 x2); eauto.
Qed.

(** A new view [v] of the live buffer [l], which gives up its cached view. *)
Lemma vinv_view st live l c v view m n :
  vinv st live -> l ∈ live -> cells st !! l = Some c -> v ∉ live ->
  src (c_buf view) = Some l -> cache (c_buf view) = None -> refcount (c_buf view) = 0 ->
  c_blk view = c_blk c ->
  (forall x cx, x ∈ live -> x <> l -> cells st !! x = Some cx -> cache (c_buf cx) <> Some v) ->
  next st <= n -> n < 2 ^ 63 -> 0 <= v < n ->
  vinv (mkStore (<[v := view]> (<[l := upd_links c (u64 (refcount (c_buf c) + 1)) None]>
                  (cells st))) m n) ({[v]} ∪ live).
Proof.
  intros Hi Hl Hc Hv Hvs Hvc Hvr Hvb Hcv Hn Hn' Hvn.
  assert (v <> l) as Hvl by set_solver.
  pose proof (children_size st live l Hi) as Hsz.
  rewrite (vi_count _ _ Hi l c Hl Hc), wrapu_small by lia.
  set (cl := upd_links _ _ _). set (st' := mkStore _ _ _).
  assert (cells st' !! v = Some view) as Ev by apply lookup_insert_eq.
  assert (cells st' !! l = Some cl) as El.
  { simpl. rewrite lookup_insert_ne by done. apply lookup_insert_eq. }
  assert (forall x, x <> v -> x <> l -> cells st' !! x = cells st !! x) as Hne.
  { intros. simpl. by rewrite !lookup_insert_ne. }
  assert (forall x, x <> v -> src_at st' x = src_at st x) as Hsrc.
  { intros x Hx. unfold src_at. destruct (decide (x = l)) as [->|]; [|by rewrite Hne].
    by rewrite El, Hc. }
  assert (src_at st' v = Some l) as Hsv by (unfold src_at; by rewrite Ev).
  assert (children st' ({[v]} ∪ live) l = {[v]} ∪ children st live l) as Hchl.
  { apply set_eq. intros y. rewrite elem_of_union, !elem_children.
    destruct (decide (y = v)) as [->|]; [|rewrite Hsrc by done]; set_solver. }
  assert (forall x, x <> l -> children st' ({[v]} ∪ live) x = children st live x) as Hch.
  { intros x Hx. apply children_eq. intros y. destruct (decide (y = v)) as [->|].
    - rewrite Hsv. split; [intros [_ [= ->]]; done|]. set_solver.
    - rewrite Hsrc by done. set_solver. }
  assert (forall x cx, x ∈ {[v]} ∪ live -> cells st' !! x = Some cx ->
    (x = v /\ cx = view) \/ (x = l /\ cx = cl) \/
    (x <> v /\ x <> l /\ x ∈ live /\ cells st !! x = Some cx)) as Hcase.
  { intros x cx Hx E. destruct (decide (x = v)) as [->|]; [rewrite Ev in E; simplify_eq; auto|].
    destruct (decide (x = l)) as [->|]; [rewrite El in E; simplify_eq; auto|].
    rewrite Hne in E by done. set_solver. }
  assert (forall x, is_Some (cells st !! x) -> is_Some (cells st' !! x)) as Hdom.
  { intros x Hx. destruct (decide (x = v)) as [->|]; [eauto|].
    destruct (decide (x = l)) as [->|]; [eauto|]. by rewrite Hne. }
  split.
  - intros x Hx. destruct (decide (x = v)) as [->|]; [eauto|].
    apply Hdom, (vi_live _ _ Hi). set_solver.
  - intros x cx Hx. simpl. destruct (decide (x = v)) as [->|]; [lia|].
    destruct (decide (x = l)) as [->|]; [|rewrite Hne in Hx by done].
    + pose proof (vi_dom _ _ Hi _ _ Hc). lia.
    + pose proof (vi_dom _ _ Hi _ _ Hx). lia.
  - done.
  - intros x cx Hx E. destruct (Hcase x cx Hx E) as [[-> ->]|[[-> ->]|(? & ? & ? & ?)]].
    + rewrite Hch, no_children by done. by rewrite Hvr, size_empty.
    + rewrite Hchl. simpl. rewrite size_union, size_singleton; [lia|].
      intros y. rewrite elem_of_singleton, elem_children. set_solver.
    + rewrite Hch by done. by apply (vi_count _ _ Hi).
  - intros x cx s Hx E Hs. destruct (Hcase x cx Hx E) as [[-> ->]|[[-> ->]|(? & ? & Hxl & Hcx)]].
    + rewrite Hvs in Hs. injection Hs as <-. split; [set_solver|]. exists cl. by rewrite Hvb.
    + destruct (vi_src _ _ Hi _ _ _ Hl Hc Hs) as (Hsl & cs & Hcs & Hb).
      split; [set_solver|]. destruct (decide (s = l)) as [->|]; [by exists cl|].
      exists cs. rewrite Hne; [done|set_solver|done].
    + destruct (vi_src _ _ Hi _ _ _ Hxl Hcx Hs) as (Hsl & cs & Hcs & Hb).
      split; [set_solver|]. destruct (decide (s = l)) as [->|].
      * exists cl. split; [done|]. rewrite Hc in Hcs. by simplify_eq.
      * exists cs. rewrite Hne; [done|set_solver|done].
  - intros x cx w Hx E Hw. destruct (Hcase x cx Hx E) as [[-> ->]|[[-> ->]|(? & ? & Hxl & Hcx)]];
      [congruence|done|].
    destruct (vi_cache _ _ Hi _ _ _ Hxl Hcx Hw) as [? ?]. split; [|by apply Hdom].
    rewrite elem_of_union, elem_of_singleton. intros [->|?]; [|done].
    by apply (Hcv x cx).
  - intros x1 x2 c1 c2 w Hx1 Hx2 E1 E2 Hw1 Hw2.
    destruct (Hcase _ _ Hx1 E1) as [[-> ->]|[[-> ->]|(? & ? & ? & ?)]]; [congruence|done|].
    destruct (Hcase _ _ Hx2 E2) as [[-> ->]|[[-> ->]|(? & ? & ? & ?)]]; [congruence|done|].
    eapply (vi_cache_inj _ _ Hi x1 x2); eauto.
Qed.

(** [l] leaves the live buffers; it has no views.  Its source, if any, may
    update its count and cache. *)
Lemma vinv_remove st live l c cells' m :
  vinv st live -> l ∈ live -> cells st !! l = Some c -> refcount (c_buf c) = 0 ->
  (forall x cx, x ∈ live -> x <> l -> src (c_buf c) <> Some x ->
     cells st !! x = Some cx -> cells' !! x = Some cx) ->
  (forall s cs, src (c_buf c) = Some s -> cells st !! s = Some cs -> s <> l ->
     exists ca, cells' !! s = Some (upd_links cs (u64 (refcount (c_buf cs) - 1)) ca) /\
       (ca = cache (c_buf cs) \/ ca = Some l) /\ (ca = Some l -> is_Some (cells' !! l))) ->
  (forall x, is_Some (cells' !! x) -> is_Some (cells st !! x)) ->
  (forall x cx v, x ∈ live -> x <> l -> cells st !! x = Some cx ->
     cache (c_buf cx) = Some v -> is_Some (cells' !! v)) ->
  vinv (mkStore cells' m (next st)) (live ∖ {[l]}).
Proof.
  intros Hi Hl Hc Hrc Hkeep Hsrcc Hsub Hcaches.
  assert (children st live l = ∅) as Hnc.
  { apply gset_size_0. pose proof (vi_count _ _ Hi l c Hl Hc). lia. }
  assert (src (c_buf c) <> Some l) as Hself.
  { intros E. assert (l ∈ children st live l) as Hin; [|rewrite Hnc in Hin; set_solver].
    apply elem_children. split; [done|]. by rewrite (src_at_cell _ _ _ Hc). }
  set (st' := mkStore _ _ _).
  assert (forall x cx', x ∈ live -> x <> l -> cells' !! x = Some cx' -> exists cx,
    cells st !! x = Some cx /\ src (c_buf cx') = src (c_buf cx) /\ c_blk cx' = c_blk cx /\
    (src (c_buf c) <> Some x -> cx' = cx) /\
    (src (c_buf c) = Some x ->
       refcount (c_buf cx') = u64 (refcount (c_buf cx) - 1)) /\
    (cache (c_buf cx') = cache (c_buf cx) \/ cache (c_buf cx') = Some l /\
       src (c_buf c) = Some x /\ is_Some (cells' !! l))) as Hcase.
  { intros x cx' Hx Hxl E. destruct (vi_live _ _ Hi _ Hx) as [cx Hcx]. exists cx.
    destruct (decide (src (c_buf c) = Some x)) as [Hs|Hs].
    - destruct (Hsrcc x cx Hs Hcx Hxl) as (ca & E' & Hca & Hcl). rewrite E in E'.
      simplify_eq/=. split; [done|]. split; [done|]. split; [done|]. split; [done|].
      split; [done|]. destruct Hca as [-> | ->]; auto.
    - rewrite (Hkeep x cx) in E by done. simplify_eq. naive_solver. }
  assert (forall x, x ∈ live -> x <> l -> is_Some (cells' !! x)) as Hlive.
  { intros x Hx Hxl. destruct (vi_live _ _ Hi _ Hx) as [cx Hcx].
    destruct (decide (src (c_buf c) = Some x)) as [Hs|Hs].
    - destruct (Hsrcc x cx Hs Hcx Hxl) as (ca & E' & _). eauto.
    - eauto. }
  assert (forall x, x ∈ live -> x <> l -> src_at st' x = src_at st x) as Hsrc.
  { intros x Hx Hxl. destruct (Hlive x Hx Hxl) as [cx' E].
    destruct (Hcase x cx' Hx Hxl E) as (cx & E' & Hs & _).
    by rewrite (src_at_cell st' x cx' E), (src_at_cell st x cx E'). }
  assert (forall x, children st' (live ∖ {[l]}) x = children st live x ∖ {[l]}) as Hch.
  { intros x. apply set_eq. intros y. rewrite elem_of_difference, !elem_children.
    destruct (decide (y = l)) as [->|]; [set_solver|]. split.
    - intros [Hy E]. rewrite Hsrc in E by set_solver. set_solver.
    - intros [[Hy E] _]. rewrite Hsrc by set_solver. set_solver. }
  split.
  - intros x Hx. apply Hlive; set_solver.
  - intros x cx Hx. simpl in Hx. destruct (Hsub x) as [cx0 E]; [eauto|].
    exact (vi_dom _ _ Hi _ _ E).
  - apply (vi_next _ _ Hi).
  - intros x cx' Hx E. assert (x ∈ live /\ x <> l) as [Hxl Hne] by set_solver.
    destruct (Hcase x cx' Hxl Hne E) as (cx & Ex & _ & _ & Hsame & Hdec & _).
    pose proof (vi_count _ _ Hi x cx Hxl Ex) as Hn. rewrite Hch.
    destruct (decide (src (c_buf c) = Some x)) as [Hs|Hs].
    + assert (l ∈ children st live x) as Hin.
      { apply elem_children. by rewrite (src_at_cell _ _ _ Hc). }
      rewrite Hdec, Hn by done. pose proof (children_size st live x Hi).
      rewrite size_difference, size_singleton by set_solver.
      assert (size (children st live x) <> 0%nat).
      { intros E0%gset_size_0. set_solver. }
      rewrite wrapu_small; lia.
    + rewrite Hsame, Hn by done. do 2 f_equal. apply set_eq. intros y.
      rewrite elem_of_difference, elem_of_singleton. split; [|set_solver].
      intros Hy. split; [done|]. intros ->. apply elem_children in Hy as [_ Hy].
      rewrite (src_at_cell _ _ _ Hc) in Hy. done.
  - intros x cx' s Hx E Hs. assert (x ∈ live /\ x <> l) as [Hxl Hne] by set_solver.
    destruct (Hcase x cx' Hxl Hne E) as (cx & Ex & E1 & E2 & _).
    rewrite E1 in Hs. destruct (vi_src _ _ Hi _ _ _ Hxl Ex Hs) as (Hsl & cs & Hcs & Hb).
    assert (s <> l) as Hsn.
    { intros ->. assert (x ∈ children st live l) as Hin; [|rewrite Hnc in Hin; set_solver].
      apply elem_children. split; [done|]. by rewrite (src_at_cell _ _ _ Ex). }
    split; [set_solver|]. destruct (Hlive s Hsl Hsn) as [cs' Ecs']. exists cs'.
    destruct (Hcase s cs' Hsl Hsn Ecs') as (cs0 & Ecs0 & _ & Hb' & _).
    split; [done|]. congruence.
  - intros x cx' v Hx E Hv. assert (x ∈ live /\ x <> l) as [Hxl Hne] by set_solver.
    destruct (Hcase x cx' Hxl Hne E) as (cx & Ex & _ & _ & _ & _ & Hca).
    destruct Hca as [Hca|(Hca & _ & ?)].
    + rewrite Hca in Hv. destruct (vi_cache _ _ Hi _ _ _ Hxl Ex Hv) as [? _].
      split; [set_solver|]. exact (Hcaches x cx v Hxl Hne Ex Hv).
    + rewrite Hca in Hv. injection Hv as <-. split; [set_solver|done].
  - intros x1 x2 c1 c2 v Hx1 Hx2 E1 E2 Hv1 Hv2.
    assert (x1 ∈ live /\ x1 <> l) as [Hl1 Hn1] by set_solver.
    assert (x2 ∈ live /\ x2 <> l) as [Hl2 Hn2] by set_solver.
    destruct (Hcase _ _ Hl1 Hn1 E1) as (c10 & E10 & _ & _ & _ & _ & Ca1).
    destruct (Hcase _ _ Hl2 Hn2 E2) as (c20 & E20 & _ & _ & _ & _ & Ca2).
    assert (forall x cx, x ∈ live -> cells st !! x = Some cx -> cache (c_buf cx) <> Some l) as Hno.
    { intros x cx Hx E Hxv. by destruct (vi_cache _ _ Hi _ _ _ Hx E Hxv) as [? _]. }
    destruct Ca1 as [Ca1|(Ca1 & S1 & _)], Ca2 as [Ca2|(Ca2 & S2 & _)]; try congruence.
    + rewrite Ca1 in Hv1. rewrite Ca2 in Hv2.
      exact (vi_cache_inj _ _ Hi _ _ _ _ _ Hl1 Hl2 E10 E20 Hv1 Hv2).
    + destruct (Hno x1 c10); [done..|congruence].
    + destruct (Hno x2 c20); [done..|congruence].
Qed.

(** ** The memory of live buffers *)

(** The block of a live buffer is that of a live buffer that is no view; a
    view is made after its source ([rk]). *)
Record binv (st : store) (live : gset Z) : Prop := {
  bi_root l c : l ∈ live -> cells st !! l = Some c -> src (c_buf c) = None -> c_blk c = l /\ c_off c = 0;
  bi_blk l c : l ∈ live -> cells st !! l = Some c ->
    c_blk c ∈ live /\ src_at st (c_blk c) = None /\ is_Some (blocks st !! c_blk c);
  bi_rank : exists rk : Z -> nat, forall v s, v ∈ live -> src_at st v = Some s -> (rk s < rk v)%nat
}.

Definition same_place (c c' : cell) : Prop :=
  src (c_buf c') = src (c_buf c) /\ c_blk c' = c_blk c /\ c_off c' = c_off c.

(** A step that makes no buffer live. *)
Lemma binv_shrink st live st' live' :
  binv st live -> live' ⊆ live ->
  (forall x c', x ∈ live' -> cells st' !! x = Some c' -> exists c, cells st !! x = Some c /\ same_place c c') ->
  (forall x c, x ∈ live' -> cells st !! x = Some c -> c_blk c ∈ live' /\ is_Some (blocks st' !! c_blk c)) ->
  binv st' live'.
Proof.
  intros Hb Hsub Hold Hblk. destruct (bi_rank _ _ Hb) as [rk Hrk].
  assert (forall x s, x ∈ live' -> src_at st' x = Some s -> src_at st x = Some s) as Hsrc.
  { intros x s Hx. unfold src_at. destruct (cells st' !! x) as [c'|] eqn:E; [|done].
    destruct (Hold _ _ Hx E) as (c & -> & -> & _). done. }
  split.
  - intros x c' Hx E Hs. destruct (Hold _ _ Hx E) as (c & Ec & Esrc & -> & ->).
    rewrite Esrc in Hs. exact (bi_root _ _ Hb _ _ (Hsub _ Hx) Ec Hs).
  - intros x c' Hx E. destruct (Hold _ _ Hx E) as (c & Ec & _ & -> & _).
    destruct (Hblk _ _ Hx Ec) as [Hl Hm]. split; [done|]. split; [|done].
    destruct (bi_blk _ _ Hb _ _ (Hsub _ Hx) Ec) as (_ & Hn & _).
    destruct (src_at st' (c_blk c)) as [s|] eqn:Es; [|done]. apply Hsrc in Es; [congruence|done].
  - exists rk. intros v s Hv Hs. apply Hrk; auto.
Qed.

(** Every view leads back to the buffer that owns its block. *)
Lemma block_owner st live r :
  vinv st live -> binv st live -> children st live r = ∅ ->
  forall v c, v ∈ live -> cells st !! v = Some c -> c_blk c = r -> v = r.
Proof.
  intros Hi Hb Hch. destruct (bi_rank _ _ Hb) as [rk Hrk].
  assert (forall n v c, (rk v < n)%nat -> v ∈ live -> cells st !! v = Some c -> c_blk c = r -> v = r) as Hn.
  { induction n as [|n IH]; [lia|]. intros v c Hlt Hv Hc Hr.
    destruct (src (c_buf c)) as [s|] eqn:Hs;
      [|destruct (bi_root _ _ Hb _ _ Hv Hc Hs); congruence].
    destruct (vi_src _ _ Hi _ _ _ Hv Hc Hs) as (Hsl & cs & Hcs & Hbs).
    assert (src_at st v = Some s) as Hsv by (by rewrite (src_at_cell _ _ _ Hc)).
    pose proof (Hrk _ _ Hv Hsv). assert (s = r) as -> by (apply (IH s cs); [lia|done|done|congruence]).
    assert (v ∈ children st live r) as Hin by (by apply elem_children). by rewrite Hch in Hin. }
  intros v c. by apply (Hn (S (rk v))); lia.
Qed.

(** What a new live buffer has to satisfy. *)
Lemma binv_add st live st' l c :
  vinv st live -> binv st live -> l ∉ live -> cells st' !! l = Some c ->
  (forall x c', x ∈ live -> cells st' !! x = Some c' -> exists c, cells st !! x = Some c /\ same_place c c') ->
  (forall x, is_Some (blocks st !! x) -> is_Some (blocks st' !! x)) ->
  (src (c_buf c) = None /\ c_blk c = l /\ c_off c = 0 /\ is_Some (blocks st' !! l) \/
   exists s cs, src (c_buf c) = Some s /\ s ∈ live /\ cells st !! s = Some cs /\ c_blk c = c_blk cs) ->
  binv st' ({[l]} ∪ live).
Proof.
  intros Hi Hb Hl Hc Hold Hblk Hnew. destruct (bi_rank _ _ Hb) as [rk Hrk].
  assert (forall x, x ∈ {[l]} ∪ live -> x = l \/ x <> l /\ x ∈ live) as Hcase by set_solver.
  assert (forall x, x ∈ live -> src_at st' x = None \/ src_at st' x = src_at st x) as Hsrc.
  { intros x Hx. unfold src_at. destruct (cells st' !! x) as [c'|] eqn:E; [|by left].
    destruct (Hold _ _ Hx E) as (c0 & -> & -> & _). by right. }
  assert (forall x, x ∈ live -> src_at st x = None -> src_at st' x = None) as Hnone.
  { intros x Hx E. destruct (Hsrc x Hx); congruence. }
  split.
  - intros x c' Hx E Hs. destruct (Hcase x Hx) as [->|[Hne Hxl]].
    + rewrite Hc in E. injection E as <-. destruct Hnew as [(_ & ? & ? & _)|(s & cs & ? & _)]; [done|congruence].
    + destruct (Hold _ _ Hxl E) as (c0 & Ec & Esrc & -> & ->). rewrite Esrc in Hs. exact (bi_root _ _ Hb _ _ Hxl Ec Hs).
  - intros x c' Hx E. destruct (Hcase x Hx) as [->|[Hne Hxl]].
    + rewrite Hc in E. injection E as <-. destruct Hnew as [(Hs & -> & _ & ?)|(s & cs & _ & Hsl & Hcs & ->)].
      * split; [set_solver|]. split; [by rewrite (src_at_cell _ _ _ Hc)|done].
      * destruct (bi_blk _ _ Hb _ _ Hsl Hcs) as (? & ? & ?). split; [set_solver|]. auto.
    + destruct (Hold _ _ Hxl E) as (c0 & Ec & _ & -> & _). destruct (bi_blk _ _ Hb _ _ Hxl Ec) as (? & ? & ?).
      split; [set_solver|]. auto.
  - exists (fun x => if decide (x = l) then match src (c_buf c) with Some s => S (rk s) | None => O end else rk x).
    intros v s Hv Hs. destruct (Hcase v Hv) as [->|[Hne Hvl]].
    + rewrite (decide_True (P := l = l)) by done. rewrite (src_at_cell _ _ _ Hc) in Hs. rewrite Hs.
      destruct Hnew as [(? & _)|(s' & cs & Es' & Hsl & _)]; [congruence|].
      rewrite decide_False by set_solver. lia.
    + rewrite (decide_False (P := v = l)) by done. destruct (Hsrc v Hvl) as [E|E]; [congruence|].
      rewrite E in Hs. pose proof (Hrk _ _ Hvl Hs). rewrite decide_False; [done|]. intros ->.
      unfold src_at in Hs. destruct (cells st !! v) as [cv|] eqn:Ev; [|done].
      by destruct (vi_src _ _ Hi _ _ _ Hvl Ev Hs).
Qed.

(** ** Every reachable state satisfies the invariant *)
Section reachable.
Context `{Allocator}.

Lemma buf_create_ex_links n p b :
  buf_create_ex n p = Ret (Some b) -> refcount b = 0 /\ src b = None /\ cache b = None.
Proof.
  unfold buf_create_ex. do 2 (destruct (c_assert _); simpl; try done).
  do 2 (destruct (alloc_ok _); simpl; try done). by intros [= <-].
Qed.

Lemma vinv_view_step st live l n v st' :
  vinv st live -> 0 <= next st -> l ∈ live ->
  buf_readonlyView st l n = Ret (Some v, st') -> next st' < 2 ^ 63 ->
  vinv st' ({[v]} ∪ live) /\ next st <= next st'.
Proof.
  intros Hi H0 Hl E Hn'. unfold buf_readonlyView in E.
  apply bind_Ret in E as ([] & _ & E). apply bind_Ret in E as (c & Hc & E).
  destruct (cells st !! l) as [c'|] eqn:Hcl; simpl in Hc; [|done]. injection Hc as ->.
  pose proof (vi_next _ _ Hi). pose proof (vi_fresh _ _ Hi).
  destruct (cache (c_buf c)) as [w|] eqn:Hca.
  - simplify_eq/=. destruct (vi_cache _ _ Hi _ _ _ Hl Hcl Hca) as [Hw [cw Hcw]].
    pose proof (vi_dom _ _ Hi _ _ Hcw). unfold set_cell in *. simpl in *. split; [|lia].
    apply vinv_view; auto; try lia.
    intros x cx Hx Hxl Hcx Hxw. apply Hxl. eapply (vi_cache_inj _ _ Hi x l); eauto.
  - destruct (negb _); simplify_eq/=. split; [|lia]. unfold set_cell. simpl.
    apply vinv_view; auto; try lia.
    intros x cx Hx Hxl Hcx Hxw.
    destruct (vi_cache _ _ Hi _ _ _ Hx Hcx Hxw) as [_ [cw Hcw]].
    pose proof (vi_dom _ _ Hi _ _ Hcw). lia.
Qed.

Lemma vinv_release_step st live l st' :
  vinv st live -> l ∈ live -> buf_release st l = Ret st' ->
  vinv st' (live ∖ {[l]}) /\ next st' = next st.
Proof.
  intros Hi Hl E. unfold buf_release in E.
  apply bind_Ret in E as (c & Hc & E). apply bind_Ret in E as ([] & Hz & E).
  destruct (cells st !! l) as [c'|] eqn:Hcl; simpl in Hc; [|done]. injection Hc as ->.
  assert (refcount (c_buf c) = 0) as Hrc.
  { destruct (Z.eqb_spec (refcount (c_buf c)) 0); [done|discriminate]. }
  destruct (src (c_buf c)) as [s|] eqn:Hs.
  - apply bind_Ret in E as (cs & Hcs & E).
    destruct (cells st !! s) as [cs'|] eqn:Es; simpl in Hcs; [|done]. injection Hcs as ->.
    destruct (cache (c_buf cs)) as [w|] eqn:Hca; simplify_eq/=; (split; [|done]);
      apply (vinv_remove st live l c); auto.
    + intros x cx Hx Hxl Hxs Ex. rewrite lookup_delete_ne, lookup_insert_ne; congruence.
    + intros s' cs' Hs' Ecs Hne. rewrite Hs in Hs'. simplify_eq. exists (Some w).
      rewrite lookup_delete_ne, lookup_insert_eq by done. split; [done|].
      split; [auto|]. intros [= ->].
      destruct (vi_src _ _ Hi _ _ _ Hl Hcl Hs) as [Hsl _].
      by destruct (vi_cache _ _ Hi _ _ _ Hsl Es Hca).
    + intros x [cx Ex]. apply lookup_delete_Some in Ex as [_ Ex].
      rewrite lookup_insert in Ex. case_decide; simplify_eq; eauto.
    + intros x cx v Hx Hxl Ex Hv. destruct (vi_cache _ _ Hi _ _ _ Hx Ex Hv) as [? ?].
      rewrite lookup_delete_ne by set_solver.
      rewrite lookup_insert. case_decide; eauto.
    + intros x cx Hx Hxl Hxs Ex. rewrite lookup_insert_ne; congruence.
    + intros s' cs' Hs' Ecs Hne. rewrite Hs in Hs'. simplify_eq. exists (Some l).
      rewrite lookup_insert_eq. split; [done|]. split; [auto|].
      intros _. rewrite lookup_insert_ne by done. eauto.
    + intros x [cx Ex]. rewrite lookup_insert in Ex. case_decide; simplify_eq; eauto.
    + intros x cx v Hx Hxl Ex Hv. destruct (vi_cache _ _ Hi _ _ _ Hx Ex Hv) as [? ?].
      rewrite lookup_insert. case_decide; eauto.
  - apply bind_Ret in E as (m & _ & E). apply bind_Ret in E as ([] & _ & E). apply bind_Ret in E as (cs & Ecs & E).
    assert (cs = match cache (c_buf c) with Some v => delete v (cells st) | None => cells st end) as ->.
    { destruct (cache (c_buf c)); [apply bind_Ret in Ecs as (? & _ & Ecs)|]; by injection Ecs. }
    clear Ecs. simplify_eq/=. split; [|done]. apply (vinv_remove st live l c); auto; try congruence.
    + intros x cx Hx Hxl _ Ex. rewrite lookup_delete_ne by done.
      destruct (cache (c_buf c)) as [w|] eqn:Hca; [|done].
      destruct (vi_cache _ _ Hi _ _ _ Hl Hcl Hca) as [? ?].
      rewrite lookup_delete_ne; [done|set_solver].
    + intros x [cx Ex]. apply lookup_delete_Some in Ex as [_ Ex].
      destruct (cache (c_buf c)); [apply lookup_delete_Some in Ex as [_ Ex]|]; eauto.
    + intros x cx v Hx Hxl Ex Hv. destruct (vi_cache _ _ Hi _ _ _ Hx Ex Hv) as [? ?].
      rewrite lookup_delete_ne by set_solver.
      destruct (cache (c_buf c)) as [w|] eqn:Hca; [|done].
      rewrite lookup_delete_ne; [done|]. intros ->. apply Hxl.
      eapply (vi_cache_inj _ _ Hi x l); eauto.
Qed.

Lemma binv_view_step st live l n v st' :
  vinv st live -> binv st live -> l ∈ live -> buf_readonlyView st l n = Ret (Some v, st') -> binv st' ({[v]} ∪ live).
Proof.
  intros Hi Hb Hl E. unfold buf_readonlyView in E.
  apply bind_Ret in E as ([] & _ & E). apply bind_Ret in E as (c & Hc & E).
  destruct (cells st !! l) as [c'|] eqn:Hcl; simpl in Hc; [|done]. injection Hc as ->.
  set (view := mkCell _ (c_blk c) _) in E.
  assert (v ∉ live /\ cells st' = <[v := view]> (<[l := upd_links c (u64 (refcount (c_buf c) + 1)) None]> (cells st)) /\
    blocks st' = blocks st) as (Hv & Hcells & Hblocks).
  { pose proof (vi_fresh _ _ Hi). destruct (cache (c_buf c)) as [w|] eqn:Hca.
    - simplify_eq/=. by destruct (vi_cache _ _ Hi _ _ _ Hl Hcl Hca).
    - destruct (negb _); by simplify_eq/=. }
  assert (v <> l) by set_solver.
  apply (binv_add st live st' v view); auto.
  - by rewrite Hcells, lookup_insert_eq.
  - intros x cx Hx. rewrite Hcells, lookup_insert_ne by set_solver. rewrite lookup_insert.
    case_decide; intros E'; simplify_eq; eexists; by split.
  - by rewrite Hblocks.
  - right. exists l, c. done.
Qed.

Lemma binv_release_step st live l st' :
  vinv st live -> binv st live -> l ∈ live -> buf_release st l = Ret st' -> binv st' (live ∖ {[l]}).
Proof.
  intros Hi Hb Hl E. unfold buf_release in E.
  apply bind_Ret in E as (c & Hc & E). apply bind_Ret in E as ([] & Hz & E).
  destruct (cells st !! l) as [c'|] eqn:Hcl; simpl in Hc; [|done]. injection Hc as ->.
  destruct (src (c_buf c)) as [s|] eqn:Hs.
  - apply bind_Ret in E as (cs & Hcs & E). destruct (cells st !! s) as [cs'|] eqn:Es; simpl in Hcs; [|done].
    injection Hcs as ->. apply (binv_shrink st live); [done|set_solver| |].
    + intros x cx Hx Ex.
      assert (exists ca, <[s := upd_links cs (u64 (refcount (c_buf cs) - 1)) ca]> (cells st) !! x = Some cx) as [ca Ex'].
      { destruct (cache (c_buf cs)) as [w|]; simplify_eq/=; [apply lookup_delete_Some in Ex as [_ Ex]|]; eauto. }
      rewrite lookup_insert in Ex'. case_decide; simplify_eq; eexists; by split.
    + intros x cx Hx Ex. destruct (bi_blk _ _ Hb x cx) as (? & Hn & ?); [set_solver|done|]. split.
      * assert (c_blk cx <> l); [|set_solver]. intros <-. rewrite (src_at_cell _ _ _ Hcl) in Hn. congruence.
      * by destruct (cache (c_buf cs)) as [w|]; simplify_eq/=.
  - apply bind_Ret in E as (m & _ & E). apply bind_Ret in E as ([] & _ & E). apply bind_Ret in E as (cs & Ecs & E).
    destruct (bi_root _ _ Hb _ _ Hl Hcl Hs) as [Hbl _]. injection E as <-.
    assert (children st live l = ∅) as Hch.
    { apply gset_size_0. pose proof (vi_count _ _ Hi _ _ Hl Hcl).
      destruct (Z.eqb_spec (refcount (c_buf c)) 0); [lia|discriminate]. }
    apply (binv_shrink st live); [done|set_solver| |]; simpl.
    + intros x cx Hx Ex. apply lookup_delete_Some in Ex as [_ Ex]. exists cx. split; [|done].
      destruct (cache (c_buf c)); [apply bind_Ret in Ecs as (? & _ & Ecs)|]; injection Ecs as <-; [|done].
      by apply lookup_delete_Some in Ex as [_ Ex].
    + intros x cx Hx Ex. destruct (bi_blk _ _ Hb x cx) as (? & _ & ?); [set_solver|done|].
      assert (c_blk cx <> l) by (intros Hr; pose proof (block_owner _ _ _ Hi Hb Hch x cx); set_solver).
      split; [set_solver|]. rewrite lookup_delete_ne by congruence. done.
Qed.

Lemma vreachable_inv s : vreachable s -> vinv s.1 s.2 /\ binv s.1 s.2 /\ 0 <= next s.1.
Proof.
  revert s. apply (rtc_ind_r (fun s => vinv s.1 s.2 /\ binv s.1 s.2 /\ 0 <= next s.1) vinit).
  2: intros s s' _ Hs (Hi & Hb & H0).
  { split; [split|split; [split|]]; simpl; try set_solver by lia || lia. exists (fun _ => O). set_solver. }
  destruct Hs as [st live n p l st' E Hn|st live l n v st' Hl E Hn|st live l st' Hl E
                 |st live l f st' Hl Hf E]; simpl in *.
  - unfold store_create in E. apply bind_Ret in E as (ob & Hob & E).
    destruct ob as [b|]; simplify_eq/=. apply buf_create_ex_links in Hob as (? & Hsrc & ?).
    split; [|split; [|lia]]; [by apply vinv_create|]. pose proof (vi_fresh _ _ Hi).
    eapply (binv_add st live); simpl; [done..|apply lookup_insert_eq| | |].
    + intros x cx Hx. rewrite lookup_insert_ne by set_solver. intros. exists cx. by split.
    + intros x [m Hm]. rewrite lookup_insert. case_decide; eauto.
    + left. rewrite lookup_insert_eq. eauto.
  - destruct (vinv_view_step st live l n v st') as [? ?]; auto. split; [done|]. split; [|lia]. by eapply binv_view_step.
  - destruct (vinv_release_step st live l st') as [? ->]; auto. split; [done|]. split; [|done]. by eapply binv_release_step.
  - unfold on_buf in E. apply bind_Ret in E as (c & Hc & E).
    apply bind_Ret in E as (m & _ & E). apply bind_Ret in E as (b & Hfb & E).
    destruct (cells st !! l) as [c'|] eqn:Hcl; simpl in Hc; [|done]. simplify_eq/=.
    apply Hf in Hfb as (? & ? & ?). split; [by apply (vinv_op _ _ _ c)|]. split; [|done].
    apply (binv_shrink st live); [done..| |]; simpl.
    + intros x cx Hx. rewrite lookup_insert. case_decide; intros; simplify_eq; eexists; by split.
    + intros x cx Hx Ex. destruct (bi_blk _ _ Hb _ _ Hx Ex) as (? & _ & ?). split; [done|].
      rewrite lookup_insert. case_decide; eauto.
Qed.

(** What [buf_release] finds on a live buffer is there. *)
Lemma release_ok st live l :
  vinv st live -> binv st live -> l ∈ live -> children st live l = ∅ -> exists st', buf_release st l = Ret st'.
Proof.
  intros Hi Hb Hl Hch. destruct (vi_live _ _ Hi _ Hl) as [c Hc]. unfold buf_release. rewrite Hc. cbn [deref].
  rewrite ret_bind. pose proof (vi_count _ _ Hi _ _ Hl Hc) as Hrc. rewrite Hch, size_empty in Hrc.
  rewrite c_assert_true, ret_bind by lia.
  destruct (src (c_buf c)) as [s|] eqn:Hs.
  - destruct (vi_src _ _ Hi _ _ _ Hl Hc Hs) as (_ & cs & -> & _). cbn [deref]. rewrite ret_bind.
    destruct (cache (c_buf cs)); eauto.
  - destruct (bi_root _ _ Hb _ _ Hl Hc Hs) as [Hbl Ho]. destruct (bi_blk _ _ Hb _ _ Hl Hc) as (_ & _ & m & ->).
    cbn [deref]. rewrite ret_bind, Ho. cbn [Z.eqb defined]. rewrite ret_bind.
    destruct (cache (c_buf c)) as [v|] eqn:Hv; [|rewrite ret_bind; eauto].
    destruct (vi_cache _ _ Hi _ _ _ Hl Hc Hv) as (_ & cv & ->). cbn [deref]. rewrite !ret_bind. eauto.
Qed.

(** C4.  In every state clients can reach: the reference count of a live
    buffer is the number of live views made from it, and its structure and
    the block of its bytes are allocated; its release is stopped by the
    assertion when it has live views, and otherwise returns, and so does
    making a view of it; the source of a live view is live and shares its
    block; both are locked against writing.  [buf_release] is undefined on
    what has been freed already, the cached view and the bytes included. *)
Theorem view_contract st live :
  vreachable (st, live) ->
  (forall l c, l ∈ live -> cells st !! l = Some c ->
     refcount (c_buf c) = Z.of_nat (size (children st live l))) /\
  (forall v c s, v ∈ live -> cells st !! v = Some c -> src (c_buf c) = Some s ->
     s ∈ live /\ exists cs, cells st !! s = Some cs /\ c_blk cs = c_blk c /\
       buf_writeLocked (c_buf c) = true /\ buf_writeLocked (c_buf cs) = true /\
       buf_release st s = AssertFail) /\
  (forall l, l ∈ live ->
     (exists b, load st l = Ret b) /\
     (children st live l <> ∅ -> buf_release st l = AssertFail) /\
     (children st live l = ∅ -> exists st', buf_release st l = Ret st') /\
     (forall n, 0 < n -> exists r, buf_readonlyView st l n = Ret r)).
Proof.
  intros Hr. destruct (vreachable_inv _ Hr) as (Hi & Hb & _); simpl in Hi, Hb.
  assert (forall l c, l ∈ live -> cells st !! l = Some c -> children st live l <> ∅ ->
    0 < refcount (c_buf c) /\ buf_release st l = AssertFail) as Hstop.
  { intros l c Hl Hc Hch. rewrite <- gset_size_0 in Hch. pose proof (vi_count _ _ Hi _ _ Hl Hc).
    split; [lia|]. unfold buf_release. rewrite Hc. simpl. by rewrite c_assert_false by lia. }
  split; [apply (vi_count _ _ Hi)|split].
  - intros v c s Hv Hc Hs. destruct (vi_src _ _ Hi _ _ _ Hv Hc Hs) as (Hsl & cs & Hcs & Hbs).
    split; [done|]. exists cs. split; [done|]. split; [done|].
    destruct (Hstop _ _ Hsl Hcs) as [Hpos Hrel].
    { intros E. assert (v ∈ children st live s) as Hin; [|set_solver].
      apply elem_children. by rewrite (src_at_cell _ _ _ Hc). }
    unfold buf_writeLocked, buf_isReadonlyView. rewrite Hs. split; [done|]. split; [|done].
    apply orb_true_iff. right. lia.
  - intros l Hl. destruct (vi_live _ _ Hi _ Hl) as [c Hc]. destruct (bi_blk _ _ Hb _ _ Hl Hc) as (_ & _ & m & Hm).
    split; [|split; [intros Hch; by destruct (Hstop _ _ Hl Hc Hch)|split; [by apply release_ok|]]].
    + unfold load. rewrite Hc. cbn [deref]. rewrite ret_bind, Hm. cbn [deref]. rewrite ret_bind. eauto.
    + intros n Hn. unfold buf_readonlyView. rewrite c_assert_true, ret_bind, Hc by lia. cbn [deref]. rewrite ret_bind.
      destruct (cache _); [eauto|]. destruct (negb _); eauto.
Qed.
End reachable.

(** ** The functions of [Buffer] keep the links *)
Section links.
Context `{Allocator}.

(** Walk through a successful computation. *)
Ltac run_Ret :=
  repeat match goal with
  | H : mbind _ _ = Ret _ |- _ => apply bind_Ret in H as (? & ? & H)
  | H : (if ?b then _ else _) = Ret _ |- _ => destruct b
  | H : Ret _ = Ret _ |- _ => injection H as <-
  end; simpl; try done.

Lemma keeps_links_swap nsz : keeps_links (fun b => buf_swap b nsz).
Proof. intros b b' E. unfold buf_swap in E. run_Ret. Qed.

Lemma keeps_links_makeSpace n : keeps_links (fun b => buf_makeSpace b n).
Proof.
  intros b b' E. unfold buf_makeSpace in E. apply bind_Ret in E as (b1 & E1 & E).
  assert (refcount b1 = refcount b /\ src b1 = src b /\ cache b1 = cache b) as Hb1.
  { destruct (_ <? _); [by eapply keeps_links_swap|]. run_Ret. }
  run_Ret.
Qed.

Lemma keeps_links_append d : keeps_links (fun b => buf_append b d).
Proof.
  intros b b' E. unfold buf_append in E.
  apply bind_Ret in E as ([] & _ & E). apply bind_Ret in E as (b1 & E1 & E).
  assert (refcount b1 = refcount b /\ src b1 = src b /\ cache b1 = cache b) as Hb1.
  { unfold buf_ensureWritable in E1. apply bind_Ret in E1 as (? & _ & E1).
    destruct (_ <? _); [apply bind_Ret in E1 as (b2 & E2 & E1)|]; run_Ret.
    by eapply keeps_links_makeSpace. }
  unfold buf_beginWrite, buf_has_written in E. run_Ret.
Qed.

Lemma keeps_links_retrieve n : keeps_links (fun b => buf_retrieve b n).
Proof. intros b b' E. unfold buf_retrieve in E. run_Ret. by destruct (_ <? _). Qed.

Lemma keeps_links_prepend d : keeps_links (fun b => buf_prepend b d).
Proof. intros b b' E. unfold buf_prepend in E. run_Ret. Qed.

End links.

(** ** A client session
    Create a buffer, append five bytes, make a view, read two bytes from the
    source. *)
Definition session : outcome store :=
  let! r := @store_create big_alloc (mkStore ∅ ∅ 0) 16 8 in
  let! st1 := on_buf (snd r) 0 (fun b => @buf_append big_alloc b [1; 2; 3; 4; 5]) in
  let! r2 := @buf_readonlyView big_alloc st1 0 5 in
  on_buf (snd r2) 0 (fun b => buf_retrieve b 2).

Definition session_end : store :=
  match session with Ret st => st | _ => mkStore ∅ ∅ 0 end.

Lemma session_reachable : @vreachable big_alloc (session_end, {[1]} ∪ ({[0]} ∪ ∅)).
Proof.
  eapply rtc_l. { eapply (@vs_create big_alloc _ _ 16 8); [vm_compute; reflexivity|done]. }
  eapply rtc_l.
  { eapply (vs_op _ _ 0); [set_solver| apply (@keeps_links_append big_alloc [1; 2; 3; 4; 5])|].
    vm_compute. reflexivity. }
  eapply rtc_l. { eapply (@vs_view big_alloc _ _ 0 5); [set_solver|vm_compute; reflexivity|done]. }
  eapply rtc_l.
  { eapply (vs_op _ _ 0); [set_solver|apply (keeps_links_retrieve 2)|].
    vm_compute. reflexivity. }
  apply rtc_refl.
Qed.

Lemma view_contract_witness :
  exists c, cells session_end !! 0 = Some c /\
    refcount (c_buf c) = Z.of_nat (size (children session_end {[1; 0]} 0)) /\
    buf_release session_end 0 = AssertFail /\ (exists st', buf_release session_end 1 = Ret st').
Proof.
  assert (({[1]} ∪ ({[0]} ∪ ∅) : gset Z) = {[1; 0]}) as E by set_solver.
  pose proof session_reachable as Hr. rewrite E in Hr.
  pose proof (@view_contract big_alloc session_end {[1; 0]} Hr) as (Hc & Hv & Hl).
  eexists. split; [vm_compute; reflexivity|]. split.
  - apply Hc; [set_solver|vm_compute; reflexivity].
  - split; [|destruct (Hl 1) as (_ & _ & Hrel & _); [set_solver|]; apply Hrel; vm_compute; reflexivity].
    destruct (Hv 1 (mkCell (mkBuffer 0 5 5 0 [] 0 (Some 0) None) 0 8) 0) as (_ & cs & H);
      [set_solver|vm_compute; reflexivity|reflexivity|]. apply H.
Defined.

(** What a buffer of the store reads. *)
Definition reads (st : store) (l : Z) : option bytes :=
  match load st l with Ret b => Some (buf_contents b) | _ => None end.

(** The lock does not cover [buf_prepend]: in a reachable state with a
    live view, prepending to the locked source succeeds and changes the bytes
    the view reads, while [buf_append] to the same source is stopped. *)
Theorem prepend_changes_view :
  exists live st', @vreachable big_alloc (session_end, live) /\ 0 ∈ live /\ 1 ∈ live /\
    src_at session_end 1 = Some 0 /\
    on_buf session_end 0 (fun b => buf_prepend b [9; 9]) = Ret st' /\
    on_buf session_end 0 (fun b => @buf_append big_alloc b [9]) = AssertFail /\
    reads session_end 1 = Some [1; 2; 3; 4; 5] /\
    reads st' 1 = Some [9; 9; 3; 4; 5].
Proof.
  exists ({[1]} ∪ ({[0]} ∪ ∅)). eexists. split; [exact session_reachable|].
  split; [set_solver|]. split; [set_solver|]. split; [vm_compute; reflexivity|].
  split; [vm_compute; reflexivity|]. vm_compute. auto.
Qed.
