(* ===== verification/Buffer2.v ===== *)
(** * [base/buffer2.c]: the pointer implementation of the byte buffer

    The same interface as [buffer.c], with [read_idx] and [write_idx] kept as
    pointers.  A pointer is an address; [buf] is the address of the current
    allocation, [mem] its bytes.  Where [malloc] places a new block is a
    parameter ([place]), and nothing is assumed about it.  [abs] forgets the
    addresses; the functions commute with those of [Buffer]. *)

From stdpp Require Import base tactics numbers list option.
From Stdlib Require Import Lia.
From S2P Require Import Prelude ByteBuf Buffer.

(** The address of a new block of the given size. *)
Class Placement := place : Z -> Z.

Module B2.

Record buffer := mkBuffer {
  read_idx : Z;
  write_idx : Z;
  sz : Z;
  buf : Z;
  p_sz : Z;
  mem : bytes
}.

Definition sizeof_buffer : Z := 40.

Definition set_read (b : buffer) (p : Z) : buffer :=
  mkBuffer p (write_idx b) (sz b) (buf b) (p_sz b) (mem b).
Definition set_write (b : buffer) (p : Z) : buffer :=
  mkBuffer (read_idx b) p (sz b) (buf b) (p_sz b) (mem b).
Definition set_mem (b : buffer) (m : bytes) : buffer :=
  mkBuffer (read_idx b) (write_idx b) (sz b) (buf b) (p_sz b) m.

(** Accesses through an address. *)
Definition load (b : buffer) (p n : Z) : outcome bytes := mem_read (mem b) (p - buf b) n.
Definition store (b : buffer) (p : Z) (d : bytes) : outcome buffer :=
  let! m := mem_write (mem b) (p - buf b) d in
  Ret (set_mem b m).

Section ops.
Context `{Allocator} `{Placement}.

Definition buf_create_ex (size prepend_size : Z) : outcome (option buffer) :=
  let size := if size =? 0 then 1024 else size in
  let n := u64 (size + prepend_size) in
  c_assert (alloc_ok sizeof_buffer) ;;
  c_assert (alloc_ok n) ;;
  let p := place n in
  Ret (Some (mkBuffer (p + prepend_size) (p + prepend_size) n p prepend_size (zeros n))).

Definition buf_getReadIndex (b : buffer) : Z := u64 (read_idx b - buf b).
Definition buf_setReadIndex (b : buffer) (i : Z) : outcome buffer :=
  c_assert ((0 <? i) && (i <=? u64 (write_idx b - buf b))) ;;
  Ret (set_read b (buf b + i)).
Definition buf_getWriteIndex (b : buffer) : Z := u64 (write_idx b - buf b).
Definition buf_setWriteIndex (b : buffer) (i : Z) : outcome buffer :=
  c_assert ((u64 (read_idx b - buf b) <=? i) && (i <? sz b)) ;;
  Ret (set_write b (buf b + i)).

Definition buf_readable (b : buffer) : Z := u64 (write_idx b - read_idx b).
Definition buf_writable (b : buffer) : Z := u64 (buf b + sz b - write_idx b).
Definition buf_prependable (b : buffer) : Z := u64 (read_idx b - buf b).
Definition buf_internalCapacity (b : buffer) : Z := sz b.

Definition buf_peek (b : buffer) (n : Z) : outcome bytes := load b (read_idx b) n.
Definition buf_beginWrite (b : buffer) (d : bytes) : outcome buffer := store b (write_idx b) d.

Definition buf_has_written (b : buffer) (len : Z) : outcome buffer :=
  c_assert (len <=? buf_writable b) ;;
  Ret (set_write b (write_idx b + len)).
Definition buf_unwrite (b : buffer) (len : Z) : outcome buffer :=
  c_assert (len <=? buf_readable b) ;;
  Ret (set_write b (write_idx b - len)).

Definition buf_findStr (b : buffer) (str : bytes) : outcome (option Z) :=
  let! n := strlen str in
  let! needle := mem_read str 0 n in
  let! l := buf_peek b (buf_readable b) in
  Ret (memmem needle l).
Definition buf_findChar (b : buffer) (c : Z) : outcome (option Z) :=
  let! l := buf_peek b (buf_readable b) in
  Ret (memchr (u8 c) l).
Definition buf_findCRLF (b : buffer) : outcome (option Z) :=
  let! l := buf_peek b (buf_readable b) in
  Ret (memmem [13; 10] l).
Definition buf_findEOL (b : buffer) : outcome (option Z) :=
  let! l := buf_peek b (buf_readable b) in
  Ret (memchr 10 l).

Definition buf_retrieveAll (b : buffer) : buffer :=
  set_write (set_read b (buf b + p_sz b)) (buf b + p_sz b).
Definition buf_retrieve (b : buffer) (len : Z) : outcome buffer :=
  c_assert (len <=? buf_readable b) ;;
  Ret (if len <? buf_readable b then set_read b (read_idx b + len) else buf_retrieveAll b).
Definition buf_retrieveUntil (b : buffer) (end_ : Z) : outcome buffer :=
  c_assert (read_idx b <=? end_) ;;
  c_assert (end_ <=? write_idx b) ;;
  buf_retrieve b (end_ - read_idx b).

Definition buf_retrieveInt64 (b : buffer) : outcome buffer := buf_retrieve b 8.
Definition buf_retrieveInt32 (b : buffer) : outcome buffer := buf_retrieve b 4.
Definition buf_retrieveInt16 (b : buffer) : outcome buffer := buf_retrieve b 2.
Definition buf_retrieveInt8 (b : buffer) : outcome buffer := buf_retrieve b 1.

Definition buf_swap (b : buffer) (nsz : Z) : outcome buffer :=
  c_assert (buf_readable b <=? nsz) ;;
  c_assert (alloc_ok nsz) ;;
  let! d := buf_peek b (buf_readable b) in
  let! nbuf := mem_write (zeros nsz) (p_sz b) d in
  Ret (mkBuffer (read_idx b) (write_idx b) nsz (place nsz) (p_sz b) nbuf).

Definition buf_makeSpace (b : buffer) (len : Z) : outcome buffer :=
  let readable := buf_readable b in
  let! b1 :=
    if u64 (buf_prependable b + buf_writable b - p_sz b) <? len
    then buf_swap b (u64 (write_idx b - buf b + len))
    else
      c_assert (buf b + p_sz b <? read_idx b) ;;
      let! d := buf_peek b readable in
      store b (buf b + p_sz b) d in
  let r := buf b1 + p_sz b1 in
  let b2 := set_write (set_read b1 r) (r + readable) in
  c_assert (readable =? buf_readable b2) ;;
  Ret b2.

Definition buf_ensureWritable (b : buffer) (len : Z) : outcome buffer :=
  let! b' := if buf_writable b <? len then buf_makeSpace b len else Ret b in
  c_assert (len <=? buf_writable b') ;;
  Ret b'.

Definition buf_append (b : buffer) (data : bytes) : outcome buffer :=
  let! b1 := buf_ensureWritable b (zlen data) in
  let! b2 := buf_beginWrite b1 data in
  buf_has_written b2 (zlen data).

Definition buf_prepend (b : buffer) (data : bytes) : outcome buffer :=
  c_assert (zlen data <=? buf_prependable b) ;;
  let b1 := set_read b (read_idx b - zlen data) in
  store b1 (read_idx b1) data.

Definition buf_shrink (b : buffer) (reserve : Z) : outcome buffer :=
  buf_swap b (u64 (p_sz b + buf_readable b + reserve)).

Definition buf_readFd (readv : list Z -> Z * bytes) (b : buffer)
  : outcome (Z * option Z * buffer) :=
  let writable := buf_writable b in
  let '(n, d) := readv (if writable <? extrabuf_sz then [writable; extrabuf_sz]
                        else [writable]) in
  if n <? 0 then Ret (n, Some n, b) else
  let! b1 := buf_beginWrite b (ztake writable d) in
  if n <=? writable then Ret (n, None, set_write b1 (write_idx b1 + n))
  else
    let! b2 := buf_append (set_write b1 (buf b1 + sz b1))
                 (ztake (n - writable) (zdrop writable d)) in
    Ret (n, None, b2).

(** The interface; the integer functions are those of [ByteBuf] over it. *)
#[global] Instance buffer2_ByteBuf : ByteBuf buffer := {
  bb_create := buf_create_ex;
  bb_readable := buf_readable;
  bb_writable := buf_writable;
  bb_prependable := buf_prependable;
  bb_peek := buf_peek;
  bb_append := buf_append;
  bb_prepend := buf_prepend;
  bb_retrieve := buf_retrieve;
  bb_retrieveAll := buf_retrieveAll;
  bb_poke := buf_beginWrite;
  bb_has_written := buf_has_written
}.

Definition buf_appendInt64 : buffer -> Z -> outcome buffer := appendInt64.
Definition buf_appendInt32 : buffer -> Z -> outcome buffer := appendInt32.
Definition buf_appendInt16 : buffer -> Z -> outcome buffer := appendInt16.
Definition buf_appendInt8 : buffer -> Z -> outcome buffer := appendInt8.
Definition buf_prependInt64 : buffer -> Z -> outcome buffer := prependInt64.
Definition buf_prependInt32 : buffer -> Z -> outcome buffer := prependInt32.
Definition buf_prependInt16 : buffer -> Z -> outcome buffer := prependInt16.
Definition buf_prependInt8 : buffer -> Z -> outcome buffer := prependInt8.
Definition buf_peekInt64 : buffer -> outcome Z := peekInt64.
Definition buf_peekInt32 : buffer -> outcome Z := peekInt32.
Definition buf_peekInt16 : buffer -> outcome Z := peekInt16.
Definition buf_peekInt8 : buffer -> outcome Z := peekInt8.
Definition buf_readInt64 : buffer -> outcome (Z * buffer) := readInt64.
Definition buf_readInt32 : buffer -> outcome (Z * buffer) := readInt32.
Definition buf_readInt16 : buffer -> outcome (Z * buffer) := readInt16.
Definition buf_readInt8 : buffer -> outcome (Z * buffer) := readInt8.
Definition buf_retrieveAsString : buffer -> Z -> outcome (bytes * buffer) := retrieveAsString.
End ops.

End B2.

(** ** The two implementations agree *)

(** The index representation of a pointer buffer. *)
Definition abs (b : B2.buffer) : buffer :=
  mkBuffer (B2.read_idx b - B2.buf b) (B2.write_idx b - B2.buf b) (B2.sz b) (B2.p_sz b)
    (B2.mem b) 0 None None.

#[export] Instance outcome_fmap : FMap outcome := fun A B f m =>
  match m with
  | Ret a => Ret (f a)
  | AssertFail => AssertFail
  | Undefined => Undefined
  | OutOfFuel => OutOfFuel
  end.

Lemma fmap_bind {A B C} (f : B -> C) (g : A -> outcome B) (m : outcome A) :
  f <$> mbind g m = mbind (fun a => f <$> g a) m.
Proof. by destruct m. Qed.

Lemma bind_fmap {A B C} (f : A -> B) (g : B -> outcome C) (m : outcome A) :
  mbind g (f <$> m) = mbind (fun a => g (f a)) m.
Proof. by destruct m. Qed.

Lemma bind_ext {A B} (f g : A -> outcome B) m : (forall a, f a = g a) -> mbind f m = mbind g m.
Proof. intros E. destruct m; simpl; auto. Qed.

Lemma fmap_returns {A B} (f : A -> B) (m : outcome A) (P : B -> Prop) :
  returns (f <$> m) P -> returns m (fun a => P (f a)).
Proof. intros (b & E & Hb). destruct m; simplify_eq/=. by exists a. Qed.

Section agree.
Context `{Allocator} `{Placement}.
Implicit Types b : B2.buffer.

Lemma abs_readable b : B2.buf_readable b = buf_readable (abs b).
Proof. unfold B2.buf_readable, buf_readable. simpl. f_equal. lia. Qed.
Lemma abs_writable b : B2.buf_writable b = buf_writable (abs b).
Proof. unfold B2.buf_writable, buf_writable. simpl. f_equal. lia. Qed.
Lemma abs_prependable b : buf_inv (abs b) -> B2.buf_prependable b = buf_prependable (abs b).
Proof. intros Hi. inv_buf. simpl in *. apply wrapu_small. simpl. lia. Qed.
Lemma abs_peek b n : B2.buf_peek b n = buf_peek (abs b) n.
Proof. done. Qed.
Lemma abs_beginWrite b d : abs <$> B2.buf_beginWrite b d = buf_beginWrite (abs b) d.
Proof.
  unfold B2.buf_beginWrite, B2.store, buf_beginWrite. rewrite fmap_bind. done.
Qed.

Lemma abs_has_written b n :
  buf_inv (abs b) -> 0 <= n -> abs <$> B2.buf_has_written b n = buf_has_written (abs b) n.
Proof.
  intros Hi Hn. unfold B2.buf_has_written. rewrite abs_writable.
  destruct (Z.leb_spec n (buf_writable (abs b))) as [Hle|Hlt].
  - rewrite buf_has_written_ok by done. rewrite c_assert_true by lia. simpl.
    unfold abs, set_write. simpl. do 2 f_equal. lia.
  - unfold buf_has_written. by rewrite !c_assert_false by lia.
Qed.

Lemma abs_retrieveAll b : abs (B2.buf_retrieveAll b) = buf_retrieveAll (abs b).
Proof. unfold abs, buf_retrieveAll, set_write, set_read. simpl. f_equal; lia. Qed.

Lemma abs_retrieve b n :
  buf_inv (abs b) -> 0 <= n -> abs <$> B2.buf_retrieve b n = buf_retrieve (abs b) n.
Proof.
  intros Hi Hn. unfold B2.buf_retrieve, buf_retrieve. rewrite abs_readable.
  destruct (c_assert _) eqn:E; try done. simpl. f_equal.
  destruct (Z.ltb_spec n (buf_readable (abs b))).
  - rewrite buf_readable_inv in * by done. inv_buf.
    unfold abs, set_read in *. simpl in *. f_equal. rewrite wrapu_small; lia.
  - apply abs_retrieveAll.
Qed.

Lemma abs_prepend b d :
  buf_inv (abs b) -> abs <$> B2.buf_prepend b d = buf_prepend (abs b) d.
Proof.
  intros Hi. unfold B2.buf_prepend, buf_prepend. rewrite abs_prependable by done.
  destruct (c_assert _); try done. unfold B2.store. simpl. rewrite fmap_bind.
  replace (B2.read_idx b - zlen d - B2.buf b) with (B2.read_idx b - B2.buf b - zlen d) by lia.
  apply bind_ext. intros m. simpl. unfold abs, set_mem, set_read. simpl. do 2 f_equal. lia.
Qed.

(** [read_idx] and [write_idx] dangle between [buf_swap] and the end of
    [buf_makeSpace]; what follows only uses [buf], [p_sz] and [readable]. *)
Lemma abs_makeSpace b n :
  buf_inv (abs b) -> 0 <= n ->
  abs <$> B2.buf_makeSpace b n = buf_makeSpace (abs b) n.
Proof.
  intros Hi Hn. unfold B2.buf_makeSpace, buf_makeSpace.
  rewrite abs_readable, abs_writable, abs_prependable by done.
  assert (forall b1 (b1' : buffer), B2.p_sz b1 = p_sz b1' -> p_sz b1' = p_sz (abs b) ->
    B2.sz b1 = sz b1' -> B2.mem b1 = buf b1' -> refcount b1' = 0 -> src b1' = None ->
    cache b1' = None ->
    abs <$> (let r := B2.buf b1 + B2.p_sz b1 in
      let b2 := B2.set_write (B2.set_read b1 r) (r + buf_readable (abs b)) in
      c_assert (buf_readable (abs b) =? B2.buf_readable b2) ;; Ret b2) =
    (let b2 := set_write (set_read b1' (p_sz b1')) (u64 (p_sz b1' + buf_readable (abs b))) in
      c_assert (buf_readable (abs b) =? buf_readable b2) ;; Ret b2)) as Hend.
  { intros b1 b1' Hp Hp' Hs Hm Hr Hsr Hc. cbv zeta. rewrite abs_readable.
    rewrite buf_readable_inv by done. inv_buf. simpl in *.
    set (x := abs _). set (y := set_write _ _). assert (x = y) as ->.
    { unfold x, y, abs, set_write, set_read. simpl. rewrite Hp, Hp', Hs, Hm, Hr, Hsr, Hc.
      f_equal; [lia|]. rewrite wrapu_small; lia. }
    destruct (c_assert _); try done. simpl. f_equal.
    unfold y, abs, set_write, set_read. simpl. rewrite Hp, Hp', Hs, Hm, Hr, Hsr, Hc.
    f_equal; [lia|]. rewrite wrapu_small; lia. }
  destruct (_ <? n).
  - unfold B2.buf_swap, buf_swap. rewrite abs_readable. simpl.
    do 2 (destruct (c_assert _); try done). rewrite !ret_bind, abs_peek.
    destruct (buf_peek (abs b) _); try done. rewrite !ret_bind.
    destruct (mem_write _ _ _); try done. rewrite !ret_bind. by apply Hend.
  - simpl. replace (B2.buf b + B2.p_sz b <? B2.read_idx b)
      with (B2.p_sz b <? B2.read_idx b - B2.buf b) by lia.
    destruct (c_assert _); try done. rewrite !ret_bind, abs_peek.
    destruct (buf_peek (abs b) _); try done. rewrite !ret_bind. unfold B2.store.
    replace (B2.buf b + B2.p_sz b - B2.buf b) with (B2.p_sz b) by lia.
    destruct (mem_write _ _ _); try done. rewrite !ret_bind. by apply Hend.
Qed.

Lemma abs_ensureWritable b n :
  buf_inv (abs b) -> 0 <= n ->
  abs <$> B2.buf_ensureWritable b n = buf_ensureWritable (abs b) n.
Proof.
  intros Hi Hn. unfold B2.buf_ensureWritable, buf_ensureWritable.
  rewrite ASSERT_WRITE_ok, ret_bind, abs_writable by done. rewrite fmap_bind.
  destruct (_ <? n).
  - rewrite <- abs_makeSpace, bind_fmap by done. apply bind_ext. intros b1.
    rewrite abs_writable. by destruct (c_assert _).
  - simpl. rewrite abs_writable. by destruct (c_assert _).
Qed.

Context `{!AllocTotal}.

Lemma abs_append b d :
  buf_inv (abs b) -> buf_open (abs b) -> all_bytes d -> zlen d <= buf_room (abs b) ->
  abs <$> B2.buf_append b d = buf_append (abs b) d.
Proof.
  intros Hi Ho Hd Hl. unfold B2.buf_append, buf_append.
  rewrite ASSERT_WRITE_ok, ret_bind by done.
  destruct (buf_ensureWritable_ok (abs b) (zlen d)) as (b1' & E & Hi1 & _ & Hw1 & _);
    [done|done|zlia|].
  rewrite <- abs_ensureWritable in * by (done || zlia).
  destruct (B2.buf_ensureWritable b (zlen d)) as [b1| | |]; simplify_eq/=.
  rewrite fmap_bind. pose proof (abs_beginWrite b1 d) as Eb.
  rewrite buf_beginWrite_ok in Eb |- * by done.
  destruct (B2.buf_beginWrite b1 d) as [b2| | |]; try discriminate.
  apply Ret_inj in Eb. rewrite !ret_bind.
  rewrite abs_has_written; rewrite ?Eb; [done|by apply stored_inv|zlia].
Qed.
End agree.

(** [buffer2.c] implements the same interface, with the laws of [buffer.c]
    carried over along [abs]. *)
#[export] Instance buffer2_ByteBufSpec `{AllocTotal} `{Placement} : ByteBufSpec B2.buffer.
Proof.
  refine (Build_ByteBufSpec B2.buffer _ (fun b => buf_inv (abs b)) (fun b => buf_contents (abs b))
            (fun b => buf_open (abs b)) (fun b => buf_writeLocked (abs b) = false)
            (fun b => buf_room (abs b)) (fun b => p_sz (abs b)) _ _ _ _ _ _ _ _ _ _ _ _ _ _); simpl.
  - intros b Hi. rewrite abs_readable. exact (bb_readable_spec (abs b) Hi).
  - intros b. exact (bb_contents_bytes (abs b)).
  - intros b. exact (bb_contents_small (abs b)).
  - intros n p Hn Hp Hs. unfold B2.buf_create_ex, B2.sizeof_buffer.
    destruct (Z.eqb_spec n 0); [lia|]. rewrite wrapu_small, !alloc_total by lia.
    apply returns_ret. eexists. split; [reflexivity|].
    pose proof (buf_create_ok n p Hn Hp Hs) as (ob & E & b & -> & Hb).
    unfold buf_create_ex, sizeof_buffer in E.
    rewrite !c_assert_true, !ret_bind, wrapu_small, !alloc_total in E by lia.
    simplify_eq/=.
    match goal with |- context [abs ?x] => assert (abs x = mkBuffer p p (n + p) p (zeros (n + p)) 0 None None) as -> end.
    { unfold abs. simpl. f_equal; lia. }
    destruct Hb as (? & ? & ? & ? & ? & Hw & ?). repeat (split; [done|]). split.
    + rewrite abs_writable. unfold buf_writable in *. simpl in *. rewrite <- Hw. f_equal. lia.
    + unfold B2.buf_prependable. simpl. rewrite wrapu_small; lia.
  - intros b n. exact (bb_peek_spec (abs b) n).
  - intros b d Hi Ho Hd Hl. eapply returns_mono.
    + apply (fmap_returns abs). rewrite abs_append by done.
      exact (bb_append_spec (abs b) d Hi Ho Hd Hl).
    + intros b'. by rewrite !abs_writable.
  - by intros b [? _].
  - intros b Hi Ho. rewrite abs_prependable by done. exact (bb_open_prependable (abs b) Hi Ho).
  - intros b d Hi Hd Hl. rewrite abs_prependable in * by done. eapply returns_mono.
    + apply (fmap_returns abs). rewrite abs_prepend by done.
      exact (bb_prepend_spec (abs b) d Hi Hd Hl).
    + intros b' (? & ? & ? & ?). by rewrite abs_prependable.
  - intros b n Hi Hn. eapply returns_mono.
    + apply (fmap_returns abs). rewrite abs_retrieve by (done || lia).
      exact (bb_retrieve_spec (abs b) n Hi Hn).
    + done.
  - intros b n Hi Hn. pose proof (bb_retrieve_short (abs b) n Hi Hn) as E. simpl in E.
    rewrite <- abs_retrieve in E by (done || zlia). by destruct (B2.buf_retrieve b n).
  - intros b. rewrite abs_retrieveAll. exact (bb_retrieveAll_spec (abs b)).
  - intros b d Hi Hd Hl. rewrite abs_writable in Hl.
    pose proof (bb_poke_spec (abs b) d Hi Hd Hl) as Hp. simpl in Hp.
    pose proof (abs_beginWrite b d) as Eb. rewrite buf_beginWrite_ok in Hp, Eb by done.
    destruct (B2.buf_beginWrite b d) as [b1| | |]; try discriminate. apply Ret_inj in Eb.
    apply returns_inv with (a := stored (abs b) d) in Hp; [|done].
    apply returns_ret. rewrite <- Eb in Hp.
    assert (buf_inv (abs b1)) by (rewrite Eb; by apply stored_inv).
    eapply returns_mono.
    + apply (fmap_returns abs). rewrite abs_has_written by (done || zlia). exact Hp.
    + intros b' (? & ? & ? & ? & ? & ? & ?). rewrite !abs_writable, !abs_prependable by done.
      auto 10.
  - intros b d Hi Hl. rewrite abs_writable in Hl.
    pose proof (bb_poke_overflow (abs b) d Hi Hl) as E. simpl in E.
    rewrite <- abs_beginWrite in E. by destruct (B2.buf_beginWrite b d).
Defined.
