(* ===== verification/ByteQueue.v ===== *)
(** * What clients of [base/buffer.h] rely on

    A client's session with one buffer is a list of [call]s; [run_calls]
    executes it on an implementation, [spec_calls] on the bare sequence of
    readable bytes.  For every session that keeps to the contract the two
    produce the same outputs, aborts included; hence [buffer.c] and
    [buffer2.c] cannot be told apart. *)

From stdpp Require Import base tactics numbers list option.
From Stdlib Require Import Lia.
From S2P Require Import Prelude ByteBuf Buffer Buffer2.

Inductive call :=
| CAppend (d : bytes)
| CAppendInt (n x : Z)
| CRetrieve (n : Z)
| CRetrieveAll
| CPeekInt (n : Z)
| CReadInt (n : Z)
| CReadString (n : Z).

Inductive output := ONone | OInt (x : Z) | OStr (l : bytes).

Section run.
Context {B : Type} `{ByteBuf B}.

Definition run_call (b : B) (c : call) : outcome (output * B) :=
  match c with
  | CAppend d => let! b' := bb_append b d in Ret (ONone, b')
  | CAppendInt n x => let! b' := append_int n b x in Ret (ONone, b')
  | CRetrieve n => let! b' := bb_retrieve b n in Ret (ONone, b')
  | CRetrieveAll => Ret (ONone, bb_retrieveAll b)
  | CPeekInt n => let! x := peek_int n b in Ret (OInt x, b)
  | CReadInt n => let! r := read_int n b in Ret (OInt (fst r), snd r)
  | CReadString n => let! r := retrieveAsString b n in Ret (OStr (fst r), snd r)
  end.

Fixpoint run_calls (b : B) (cs : list call) : outcome (list output) :=
  match cs with
  | [] => Ret []
  | c :: cs =>
    let! r := run_call b c in
    let! os := run_calls (snd r) cs in
    Ret (fst r :: os)
  end.
End run.

(** The integer sizes of the interface. *)
Definition int_size (n : Z) : bool := (n =? 1) || (n =? 2) || (n =? 4) || (n =? 8).

(** [Undefined]: the session breaks the contract (the arguments are not
    bytes, or a string longer than the readable bytes is copied out). *)
Definition spec_call (l : bytes) (c : call) : outcome (output * bytes) :=
  match c with
  | CAppend d => defined (bool_decide (all_bytes d)) ;; Ret (ONone, l ++ d)
  | CAppendInt n x => defined (int_size n) ;; Ret (ONone, l ++ be_bytes n x)
  | CRetrieve n =>
    defined (0 <=? n) ;; c_assert (n <=? zlen l) ;; Ret (ONone, zdrop n l)
  | CRetrieveAll => Ret (ONone, [])
  | CPeekInt n =>
    defined (int_size n) ;; c_assert (n <=? zlen l) ;;
    Ret (OInt (wraps (8 * n) (be_val (ztake n l))), l)
  | CReadInt n =>
    defined (int_size n) ;; c_assert (n <=? zlen l) ;;
    Ret (OInt (wraps (8 * n) (be_val (ztake n l))), zdrop n l)
  | CReadString n =>
    defined ((0 <=? n) && (n <=? zlen l)) ;; Ret (OStr (ztake n l ++ [0]), zdrop n l)
  end.

Fixpoint spec_calls (l : bytes) (cs : list call) : outcome (list output) :=
  match cs with
  | [] => Ret []
  | c :: cs =>
    let! r := spec_call l c in
    let! os := spec_calls (snd r) cs in
    Ret (fst r :: os)
  end.

Definition call_size (c : call) : Z :=
  match c with CAppend d => zlen d | CAppendInt n _ => n | _ => 0 end.
Definition total_size (cs : list call) : Z := foldr (fun c z => Z.max 0 (call_size c) + z) 0 cs.

Section refine.
Context {B : Type} `{ByteBufSpec B}.
Implicit Types (b : B) (l d : bytes) (cs : list call).

(** One call: the same output, the readable bytes as specified. *)
Definition call_refines (b : B) (room : Z) (l : bytes) (c : call) : Prop :=
  match spec_call l c with
  | Ret (o, l') => returns (run_call b c)
      (fun r => fst r = o /\ writes l' (room - Z.max 0 (call_size c)) (snd r))
  | AssertFail => run_call b c = AssertFail
  | _ => True
  end.

Lemma writes_holds l room b : writes l room b -> holds l b.
Proof. intros (? & ? & ? & ?). by split. Qed.

Lemma writes_retrieve l room b n :
  writes l room b -> 0 <= n <= zlen l -> returns (bb_retrieve b n) (writes (zdrop n l) room).
Proof.
  intros (Hi & Ho & Hc & Hr) Hn. subst l.
  eapply returns_mono; [by apply bb_retrieve_spec|].
  intros b' (? & ? & ? & ? & ?). repeat split; auto; lia.
Qed.

Lemma writes_retrieve_short l room b n :
  writes l room b -> zlen l < n -> bb_retrieve b n = AssertFail.
Proof. intros (Hi & _ & Hc & _) Hn. apply bb_retrieve_short; [done|by rewrite Hc]. Qed.

Lemma writes_peek l room b n :
  writes l room b -> 0 <= n <= zlen l -> bb_peek b n = Ret (ztake n l).
Proof. intros (Hi & _ & Hc & _) Hn. subst l. by apply bb_peek_spec. Qed.

Lemma writes_peek_int l room b n :
  writes l room b -> 0 <= n ->
  peek_int n b = (c_assert (n <=? zlen l) ;; Ret (wraps (8 * n) (be_val (ztake n l)))).
Proof.
  intros Hw Hn. unfold peek_int. rewrite bb_readable_spec by apply Hw.
  destruct Hw as (Hi & Ho & Hc & Hr). rewrite Hc.
  destruct (Z.leb_spec n (zlen l)); [|done]. simpl.
  by rewrite (writes_peek l room) by (done || lia).
Qed.

Lemma int_size_pos n : int_size n = true -> 0 < n <= 8.
Proof. unfold int_size. lia. Qed.

Lemma run_call_refines b room l c :
  writes l room b -> call_size c <= room -> call_refines b room l c.
Proof.
  intros Hw Hroom. unfold call_refines. destruct c; simpl in *; rewrite ?Z.sub_0_r.
  - case_bool_decide; simpl; [|done]. step by writes_append; [done|done|done|].
    intros b' Hb'. apply returns_ret. split; [done|]. simpl. zlen_facts.
    by replace (Z.max 0 (zlen d)) with (zlen d) by lia.
  - destruct (int_size n) eqn:Hs; simpl; [|done]. apply int_size_pos in Hs.
    step by writes_append_int; [done|lia|].
    intros b' Hb'. apply returns_ret. split; [done|]. simpl.
    by replace (Z.max 0 n) with n by lia.
  - destruct (Z.leb_spec 0 n); simpl; [|done]. destruct (Z.leb_spec n (zlen l)); simpl.
    + step by writes_retrieve; [done|lia|]. intros b' Hb'. by apply returns_ret.
    + by rewrite (writes_retrieve_short l room) by (done || lia).
  - apply returns_ret. split; [done|]. destruct Hw as (Hi & Ho & Hc & Hr).
    destruct (bb_retrieveAll_spec b Hi) as (? & ? & ? & Hr' & _).
    repeat split; auto. simpl. lia.
  - destruct (int_size n) eqn:Hs; simpl; [|done]. apply int_size_pos in Hs.
    rewrite (writes_peek_int l room) by (done || lia).
    destruct (Z.leb_spec n (zlen l)); simpl; [by apply returns_ret|done].
  - destruct (int_size n) eqn:Hs; simpl; [|done]. apply int_size_pos in Hs.
    unfold read_int. rewrite (writes_peek_int l room) by (done || lia).
    destruct (Z.leb_spec n (zlen l)); simpl; [|done].
    destruct (writes_retrieve l room b n) as (b' & -> & Hb'); [done|lia|].
    by apply returns_ret.
  - destruct (Z.leb_spec 0 n); simpl; [|done]. destruct (Z.leb_spec n (zlen l)); simpl; [|done].
    unfold retrieveAsString. rewrite (writes_peek l room) by (done || lia). simpl.
    destruct (writes_retrieve l room b n) as (b' & -> & Hb'); [done|lia|].
    by apply returns_ret.
Qed.

Lemma run_calls_refines cs b room l :
  writes l room b -> total_size cs <= room ->
  spec_calls l cs <> Undefined -> run_calls b cs = spec_calls l cs.
Proof.
  revert b room l. induction cs as [|c cs IH]; intros b room l Hw Hroom Hs; [done|].
  simpl in *. assert (0 <= total_size cs) as Hpos.
  { clear. induction cs; simpl; lia. }
  pose proof (run_call_refines b room l c Hw ltac:(lia)) as Hc. unfold call_refines in Hc.
  destruct (spec_call l c) as [[o l']| | |] eqn:E; simpl in *.
  - destruct Hc as ([o' b'] & -> & Ho & Hw'). simpl in *. subst o'.
    rewrite (IH b' (room - Z.max 0 (call_size c)) l'); [done|done|lia|].
    intros Hu. by rewrite Hu in Hs.
  - by rewrite Hc.
  - done.
  - exfalso. clear -E. destruct c; simpl in E; try done;
      repeat (destruct (defined _) eqn:D; simpl in E; try done; unfold defined in D;
              case_match; try done); by destruct (c_assert _) eqn:F; unfold c_assert in F;
              case_match.
Qed.
End refine.

Section implementations.
Context `{AllocTotal} `{Placement}.

(** C1.  Started on fresh buffers of any sizes, [buffer.c] and [buffer2.c]
    answer every client session that keeps to the contract as the byte
    queue does: the same integers and strings in the same order, and an
    abort where the queue specification has one. *)
Theorem implementations_refine_queue n p n2 p2 cs :
  0 < n -> 0 <= p -> n + p < 2 ^ 62 -> 0 < n2 -> 0 <= p2 -> n2 + p2 < 2 ^ 62 ->
  total_size cs < 2 ^ 62 -> spec_calls [] cs <> Undefined ->
  (let! ob := buf_create_ex n p in let! b := deref ob in run_calls b cs) = spec_calls [] cs /\
  (let! ob := B2.buf_create_ex n2 p2 in let! b := deref ob in run_calls b cs) = spec_calls [] cs.
Proof.
  intros. split.
  - destruct (bb_create_spec (B := buffer) n p) as (ob & E & b & -> & Hb); [lia..|].
    simpl in E. rewrite E, ret_bind. simpl.
    destruct Hb as (Hi & Ho & Hc & Hr & _).
    apply (run_calls_refines cs b (2 ^ 62)); [|lia|done].
    refine (conj Hi (conj Ho (conj Hc _))). lia.
  - destruct (bb_create_spec (B := B2.buffer) n2 p2) as (ob & E & b & -> & Hb); [lia..|].
    simpl in E. rewrite E, ret_bind. simpl.
    destruct Hb as (Hi & Ho & Hc & Hr & _).
    apply (run_calls_refines cs b (2 ^ 62)); [|lia|done].
    refine (conj Hi (conj Ho (conj Hc _))). lia.
Qed.
End implementations.

(** A session that makes both buffers grow and move their bytes. *)
Definition demo_session : list call :=
  [CAppendInt 4 (-7); CAppend [65; 66; 67]; CPeekInt 4; CReadInt 4; CAppend [68; 69];
   CReadString 5; CReadInt 2].

Lemma implementations_refine_queue_witness :
  (let! ob := @buf_create_ex big_alloc 2 8 in
   let! b := deref ob in @run_calls _ (@buffer_ByteBuf big_alloc) b demo_session) = AssertFail /\
  spec_calls [] (removelast demo_session)
    = Ret [ONone; ONone; OInt (-7); OInt (-7); ONone; OStr [65; 66; 67; 68; 69; 0]].
Proof.
  split; [|vm_compute; reflexivity].
  transitivity (spec_calls [] demo_session); [|vm_compute; reflexivity].
  refine (proj1 (@implementations_refine_queue big_alloc big_alloc_total (fun _ => 4096)
    2 8 1 0 demo_session _ _ _ _ _ _ _ _)); try lia; vm_compute; congruence.
Defined.
