(* ===== verification/Stream.v ===== *)
(** * Reading a stream into a buffer

    Repeated calls of [buf_readFd] ([base/buffer.c]) on a connection that
    delivers a stream in pieces. *)

From stdpp Require Import base tactics numbers list option strings sets.
From Stdlib Require Import Lia.
From S2P Require Import Prelude ByteBuf Buffer.

(** A kernel that delivers the bytes [d] in one [readv]. *)
Definition deliver (d : bytes) (iov : list Z) : Z * bytes :=
  if zlen d <=? foldr Z.add 0 iov then (zlen d, d) else (-1, []).

(** The peer has closed: nothing arrives. *)
Definition eof : list Z -> Z * bytes := deliver [].

Section stream.
Context `{AllocTotal}.
Implicit Types (b : buffer) (l d : bytes) (chunks : list bytes).

Definition chunks_ok (chunks : list bytes) : Prop :=
  Forall (fun d => all_bytes d /\ zlen d <= extrabuf_sz) chunks.

Lemma deliver_ok d : all_bytes d -> readv_ok (deliver d).
Proof.
  intros Hd iov. unfold deliver. destruct (Z.leb_spec (zlen d) (foldr Z.add 0 iov)); simpl.
  - by right.
  - left. lia.
Qed.

Lemma read_chunk l room b d :
  writes l room b -> extrabuf_sz <= room -> all_bytes d -> zlen d <= extrabuf_sz ->
  exists b', buf_readFd (deliver d) b = Ret (zlen d, None, b') /\
    writes (l ++ d) (room - zlen d) b'.
Proof.
  intros (Hi & Ho & Hc & Hr) Hroom Hd Hl.
  destruct (buf_readFd_ok (deliver d) b Hi Ho ltac:(simpl in Hr; lia) (deliver_ok d Hd))
    as [_ Hpos].
  assert (deliver d (iov_of b) = (zlen d, d)) as E.
  { unfold deliver, iov_of. assert (0 <= buf_writable b) by (apply wrapu_range; lia).
    destruct (Z.ltb_spec (buf_writable b) extrabuf_sz); simpl;
      (case_match eqn:Hle; [done|apply Z.leb_gt in Hle; lia]). }
  rewrite E in Hpos. zlen_facts. destruct Hpos as (? & -> & b' & [= ->] & Hi' & Ho' & Hc' & Hr');
    [simpl; lia|].
  cbn [snd] in Hc', Hr'.
  exists b'. split; [done|]. refine (conj Hi' (conj Ho' (conj _ _))).
  - simpl in Hc |- *. by rewrite Hc', Hc.
  - change (bb_room b') with (buf_room b'). change (bb_room b) with (buf_room b) in Hr. lia.
Qed.

Lemma writes_readable l room b : writes l room b -> buf_readable b = zlen l.
Proof.
  intros (Hi & _ & Hc & _). pose proof (bb_readable_spec b Hi) as E. by rewrite Hc in E.
Qed.
End stream.
