(* ===== verification/Cli.v ===== *)
(** * What the command-line programs share

    [trim_opt] is the same function in [nova_client/nova.c] and in
    [dubbo_client/dubbo.c]; with it the functions of the C library on strings
    that the two option parsers use.  Strings here are C strings: their bytes
    before the terminator. *)

From stdpp Require Import base tactics numbers list option strings sets.
From Stdlib Require Import Lia.
From S2P Require Import Prelude.

(** [isspace] in the C locale. *)
Definition isspace (c : Z) : bool := (c =? 32) || ((9 <=? c) && (c <=? 13)).

(** [while (end > opt && isspace( *end)) end--;], [end] being [opt + i]. *)
Fixpoint trim_end (s : bytes) (i : nat) : nat :=
  match i with
  | O => O
  | S j => if isspace (default 0 (s !! i)) then trim_end s j else i
  end.

(** Strings here are C strings: their bytes before the terminator. *)
Definition trim_opt (opt : option bytes) : option bytes :=
  match opt with
  | None => None
  | Some s =>
    let s := dropWhile (fun c => isspace c || (c =? 61)) s in
    match s with
    | [] => Some []
    | _ => Some (take (S (trim_end s (length s - 1))) s)
    end
  end.

(** [strrchr(s, c)]: the offset of the last byte equal to [c]. *)
Definition strrchr (s : bytes) (c : Z) : option Z :=
  (fun i => zlen s - 1 - i) <$> memchr c (rev s).

Fixpoint digits (acc : Z) (s : bytes) : Z :=
  match s with
  | c :: s => if (48 <=? c) && (c <=? 57) then digits (10 * acc + (c - 48)) s else acc
  | [] => acc
  end.

(** [atoi]: undefined when the value does not fit an [int]. *)
Definition atoi (s : bytes) : outcome Z :=
  match dropWhile isspace s with
  | 45 :: s => sint (- digits 0 s)
  | 43 :: s => sint (digits 0 s)
  | s => sint (digits 0 s)
  end.

(** ** Options: what the parser does *)
Definition trim_spec (s : bytes) : bytes :=
  rev (dropWhile isspace (rev (dropWhile (fun c => isspace c || (c =? 61)) s))).

Lemma dropWhile_head {A} (f : A -> bool) l x l' : dropWhile f l = x :: l' -> f x = false.
Proof.
  induction l as [|y l IH]; simpl; [done|]. destruct (f y) eqn:E; [done|]. by intros [= -> ->].
Qed.

Lemma trim_end_spec s x :
  isspace x = false ->
  forall i, (i <= length s)%nat ->
  rev (dropWhile isspace (rev (take (S i) (x :: s)))) = take (S (trim_end (x :: s) i)) (x :: s).
Proof.
  intros Hx. induction i as [|i IH]; intros Hi.
  - simpl. by rewrite take_0; simpl; rewrite Hx.
  - assert (is_Some (s !! i)) as [c Hc] by (apply lookup_lt_is_Some; lia).
    rewrite (take_S_r (x :: s) (S i) c) by done. rewrite rev_app_distr. simpl rev at 2.
    cbn [app dropWhile trim_end]. change ((x :: s) !! S i) with (s !! i). rewrite Hc. simpl default.
    destruct (isspace c) eqn:E; [apply IH; lia|].
    change (c :: rev (take (S i) (x :: s))) with (rev [c] ++ rev (take (S i) (x :: s))).
    rewrite <- rev_app_distr, rev_involutive. symmetry. by apply take_S_r.
Qed.

Lemma trim_opt_spec s : trim_opt (Some s) = Some (trim_spec s).
Proof.
  unfold trim_opt, trim_spec. destruct (dropWhile _ s) as [|x t] eqn:E; [done|].
  apply dropWhile_head, orb_false_iff in E as [E _]. f_equal.
  assert (length (x :: t) - 1 = length t)%nat as -> by (simpl; lia).
  rewrite <- trim_end_spec by (done || lia).
  rewrite take_ge by (simpl; lia). done.
Qed.

Lemma strrchr_Some s t c : c ∉ t -> strrchr (s ++ c :: t) c = Some (zlen s).
Proof.
  intros Ht. unfold strrchr. rewrite rev_app_distr. simpl. rewrite <- app_assoc.
  rewrite (proj2 (memchr_Some c _ (zlen t))).
  - simpl. f_equal. zlia.
  - exists (rev t), (rev s). split; [done|]. split; [|zlia].
    intros Hin. apply Ht. rewrite list_elem_of_In in *. by apply in_rev.
Qed.

Lemma strrchr_None s c : c ∉ s -> strrchr s c = None.
Proof.
  intros Hs. unfold strrchr. rewrite (proj2 (memchr_None c (rev s))); [done|].
  intros Hin. apply Hs. rewrite list_elem_of_In in *. by apply in_rev.
Qed.
