(* ===== verification/Socket.v ===== *)
(** * Blocking socket helpers

    [net/socket.c]: the loops that send and receive a whole buffer, and the
    creation of client and server sockets.  The kernel is a parameter: the
    answers of [send] and [recv] are a script the loops consume, the answers
    of the other system calls are functions.  File descriptors the process
    holds open are tracked in a list. *)

From stdpp Require Import base tactics numbers list option strings sets.
From Stdlib Require Import Lia.
From S2P Require Import Prelude.

Definition EINTR : Z := 4.

(** ** Sending and receiving
    An answer of [send]: the number of bytes taken, or -1 with [errno]. *)
Inductive send_answer := Sent (n : Z) | SendFailed (errno : Z).

(** An answer of [recv]: the bytes stored (none at end of file), or -1 with
    [errno]. *)
Inductive recv_answer := Received (d : bytes) | RecvFailed (errno : Z).

(** The loop of [socket_sendAllSync]; [wire] is what the kernel has taken.
    The result: the return value, the bytes taken, the answers left.  The
    fuel is the script: [OutOfFuel] means the kernel was not heard to the
    end. *)
Fixpoint send_loop (ans : list send_answer) (buf : bytes) (size sent : Z) (wire : bytes)
  : outcome (Z * bytes * list send_answer) :=
  if sent <? size then
    match ans with
    | [] => OutOfFuel
    | SendFailed e :: ans =>
      if e =? EINTR then send_loop ans buf size sent wire else Ret (sent, wire, ans)
    | Sent n :: ans =>
      let! d := mem_read buf sent n in
      send_loop ans buf size (u64 (sent + n)) (wire ++ d)
    end
  else Ret (sent, wire, ans).

Definition socket_sendAllSync (ans : list send_answer) (buf : bytes) (size : Z) :=
  send_loop ans buf size 0 [].

(** The loop of [socket_recvAllSync]; [buf] is the block received into. *)
Fixpoint recv_loop (ans : list recv_answer) (buf : bytes) (size recved : Z)
  : outcome (Z * bytes * list recv_answer) :=
  if recved <? size then
    match ans with
    | [] => OutOfFuel
    | RecvFailed e :: ans =>
      if e =? EINTR then recv_loop ans buf size recved else Ret (u64 (-1), buf, ans)
    | Received [] :: ans => Ret (recved, buf, ans)
    | Received d :: ans =>
      let! buf := mem_write buf recved d in
      recv_loop ans buf size (u64 (recved + zlen d))
    end
  else Ret (recved, buf, ans).

Definition socket_recvAllSync (ans : list recv_answer) (buf : bytes) (size : Z) :=
  recv_loop ans buf size 0.

(** *** What the kernel promises
    [send_answers rem ans]: each answer takes between 1 and the remaining
    number of bytes; the script runs until everything is sent or a call fails
    for good. *)
Fixpoint send_answers (rem : Z) (ans : list send_answer) : Prop :=
  if rem <=? 0 then True else
  match ans with
  | [] => False
  | SendFailed e :: ans => if e =? EINTR then send_answers rem ans else True
  | Sent n :: ans => 0 < n <= rem /\ send_answers (rem - n) ans
  end.

(** The bytes taken before the loop ends. *)
Fixpoint taken (rem : Z) (ans : list send_answer) : Z :=
  if rem <=? 0 then 0 else
  match ans with
  | [] => 0
  | SendFailed e :: ans => if e =? EINTR then taken rem ans else 0
  | Sent n :: ans => n + taken (rem - n) ans
  end.

#[export] Instance send_answers_dec rem ans : Decision (send_answers rem ans).
Proof.
  revert rem. induction ans as [|[n|e] ans IH]; intros rem; simpl; case_match; try apply _.
  case_match; apply _.
Defined.

Lemma send_loop_ok ans buf size sent wire :
  0 <= sent <= size -> size <= zlen buf -> size < 2 ^ 64 -> wire = ztake sent buf ->
  send_answers (size - sent) ans ->
  exists r ans', send_loop ans buf size sent wire = Ret (r, ztake r buf, ans') /\
    r = sent + taken (size - sent) ans /\ sent <= r <= size.
Proof.
  revert sent wire. induction ans as [|[n|e] ans IH]; intros sent wire Hs Hb Hmax -> Ha; simpl in *;
    destruct (Z.leb_spec (size - sent) 0) as [Hz|Hz]; destruct (Z.ltb_spec sent size); try lia.
  all: try by (eexists _, _; split; [reflexivity|lia]).
  - destruct Ha as [Hn Ha]. rewrite mem_read_ok, ret_bind by lia.
    rewrite wrapu_small by lia.
    destruct (IH (sent + n) (ztake sent buf ++ slice sent n buf)) as (r & ans' & -> & Hr & ?).
    + lia.
    + done.
    + done.
    + unfold slice. rewrite <- (ztake_zdrop sent buf) at 3.
      rewrite ztake_app_ge by zlia. f_equal. f_equal. zlia.
    + by replace (size - (sent + n)) with (size - sent - n) by lia.
    + exists r, ans'. split; [done|].
      replace (size - sent - n) with (size - (sent + n)) by lia. lia.
  - destruct (Z.eqb_spec e EINTR).
    + apply IH; auto; lia.
    + eexists _, _. split; [reflexivity|]. lia.
Qed.

Lemma sendAll_ok ans buf size :
  0 <= size <= zlen buf -> size < 2 ^ 64 -> send_answers size ans ->
  returns (socket_sendAllSync ans buf size) (fun r =>
    r.1 = (taken size ans, ztake (taken size ans) buf)).
Proof.
  intros Hs Hmax Ha.
  destruct (send_loop_ok ans buf size 0 []) as (r & ans' & E & Hr & ?);
    [lia|lia|lia|done|by rewrite Z.sub_0_r|].
  rewrite Z.sub_0_r, Z.add_0_l in Hr. unfold socket_sendAllSync. rewrite E. subst r.
  by apply returns_ret.
Qed.

(** C9.  [socket_sendAllSync] puts a prefix of the buffer on the wire, in
    order and without gaps or repetitions, however the kernel splits it and
    however often it is interrupted; the return value is the prefix's length,
    and it is the whole size unless a call failed for good. *)
Theorem sendAll_sends_prefix ans buf size :
  0 <= size <= zlen buf -> size < 2 ^ 64 -> send_answers size ans ->
  returns (socket_sendAllSync ans buf size) (fun r =>
    r.1 = (taken size ans, ztake (taken size ans) buf) /\ 0 <= taken size ans <= size /\
    ((forall e, SendFailed e ∈ ans -> e = EINTR) -> taken size ans = size)).
Proof.
  intros Hs Hmax Ha.
  destruct (send_loop_ok ans buf size 0 []) as (r & ans' & E & Hr & ?);
    [lia|lia|lia|done|by rewrite Z.sub_0_r|].
  rewrite Z.sub_0_r, Z.add_0_l in Hr. unfold socket_sendAllSync. rewrite E. subst r.
  apply returns_ret. split; [done|]. split; [done|]. intros He.
  assert (0 <= size) as Hn by lia. clear - Ha He Hn. revert size Ha Hn.
  induction ans as [|[n|e] ans IH]; intros size Ha Hn; simpl in *;
    destruct (Z.leb_spec size 0); try lia.
  - destruct Ha as [? Ha]. rewrite IH; [lia|set_solver|done|lia].
  - destruct (Z.eqb_spec e EINTR); [apply IH; set_solver|]. destruct n. apply He. set_solver.
Qed.

(** Three pieces, one interruption. *)
Definition demo_sends : list send_answer := [Sent 2; SendFailed 4; Sent 3; Sent 1].

Lemma sendAll_sends_prefix_witness :
  returns (socket_sendAllSync demo_sends (str "abcdefgh") 6) (fun r =>
    r.1 = (taken 6 demo_sends, ztake (taken 6 demo_sends) (str "abcdefgh")) /\
    0 <= taken 6 demo_sends <= 6 /\
    ((forall e, SendFailed e ∈ demo_sends -> e = EINTR) -> taken 6 demo_sends = 6)).
Proof. apply (sendAll_sends_prefix demo_sends (str "abcdefgh") 6); vm_decide. Defined.

(** The bytes that arrive before the size is reached or the peer closes;
    [None] when a call fails for good. *)
Fixpoint arrived (rem : Z) (ans : list recv_answer) : option bytes :=
  if rem <=? 0 then Some [] else
  match ans with
  | [] => Some []
  | RecvFailed e :: ans => if e =? EINTR then arrived rem ans else None
  | Received [] :: _ => Some []
  | Received d :: ans => app d <$> arrived (rem - zlen d) ans
  end.

(** Each answer fits the space offered; the script runs to the end. *)
Fixpoint recv_answers (rem : Z) (ans : list recv_answer) : Prop :=
  if rem <=? 0 then True else
  match ans with
  | [] => False
  | RecvFailed e :: ans => if e =? EINTR then recv_answers rem ans else True
  | Received [] :: _ => True
  | Received d :: ans => zlen d <= rem /\ recv_answers (rem - zlen d) ans
  end.

#[export] Instance recv_answers_dec rem ans : Decision (recv_answers rem ans).
Proof.
  revert rem. induction ans as [|[[|x d]|e] ans IH]; intros rem; simpl; case_match; try apply _.
  case_match; apply _.
Defined.

Lemma mem_splice_extend m a d :
  zlen a + zlen d <= zlen m ->
  mem_splice (mem_splice m 0 a) (zlen a) d = mem_splice m 0 (a ++ d).
Proof.
  intros Hl. zlen_facts. unfold mem_splice at 1 2.
  rewrite ztake_0, app_nil_l, ztake_app_exact by done. unfold mem_splice.
  rewrite ztake_0, app_nil_l, Z.add_0_l, zdrop_app_ge by lia.
  rewrite zdrop_zdrop by lia. rewrite zlen_app, <- app_assoc. do 3 f_equal. lia.
Qed.

Lemma recv_loop_ok ans buf size pre :
  zlen pre <= size -> size <= zlen buf -> size < 2 ^ 64 ->
  recv_answers (size - zlen pre) ans ->
  match arrived (size - zlen pre) ans with
  | Some d => zlen (pre ++ d) <= size /\ returns (recv_loop ans (mem_splice buf 0 pre) size (zlen pre))
                (fun r => r.1 = (zlen (pre ++ d), mem_splice buf 0 (pre ++ d)))
  | None => returns (recv_loop ans (mem_splice buf 0 pre) size (zlen pre)) (fun r => r.1.1 = 2 ^ 64 - 1)
  end.
Proof.
  revert pre. induction ans as [|[[|x d]|e] ans IH]; intros pre Hp Hb Hmax Ha;
    cbn [arrived recv_answers recv_loop] in *;
    destruct (Z.leb_spec (size - zlen pre) 0); destruct (Z.ltb_spec (zlen pre) size); try lia;
    try (rewrite app_nil_r; split; [lia|by apply returns_ret]).
  - destruct Ha as [Hl Ha]. set (c := x :: d) in *. zlen_facts.
    rewrite mem_write_ok, ret_bind by (rewrite ?zlen_mem_splice by lia; lia).
    rewrite mem_splice_extend, wrapu_small by lia.
    specialize (IH (pre ++ c)). rewrite !zlen_app in IH.
    replace (size - (zlen pre + zlen c)) with (size - zlen pre - zlen c) in IH by lia.
    destruct (arrived (size - zlen pre - zlen c) ans) as [d'|]; simpl.
    + change (x :: d ++ d') with (c ++ d'). rewrite app_assoc. apply IH; auto; lia.
    + apply IH; auto; lia.
  - destruct (Z.eqb_spec e EINTR); [by apply IH|]. by apply returns_ret.
Qed.

(** C10.  [socket_recvAllSync] stores what arrived, in order, at the start of
    the block and nothing else, independently of how the kernel cuts the
    stream; it returns the number of bytes, or [SIZE_MAX] when a call fails. *)
Theorem recvAll_stores_stream ans buf size :
  0 <= size <= zlen buf -> size < 2 ^ 64 -> recv_answers size ans ->
  match arrived size ans with
  | Some d => zlen d <= size /\ returns (socket_recvAllSync ans buf size)
                (fun r => r.1 = (zlen d, mem_splice buf 0 d))
  | None => returns (socket_recvAllSync ans buf size) (fun r => r.1.1 = 2 ^ 64 - 1)
  end.
Proof.
  intros Hs Hmax Ha. pose proof (recv_loop_ok ans buf size []) as L.
  rewrite zlen_nil, Z.sub_0_r in L. simpl in L. apply L; [lia|lia|lia|done].
Qed.

Lemma recvAll_stores_stream_witness :
  match arrived 5 [Received (str "ab"); RecvFailed 4; Received (str "cde")] with
  | Some d => zlen d <= 5 /\
      returns (socket_recvAllSync [Received (str "ab"); RecvFailed 4; Received (str "cde")] (str "......") 5)
                (fun r => r.1 = (zlen d, mem_splice (str "......") 0 d))
  | None => False
  end.
Proof.
  apply (recvAll_stores_stream [Received (str "ab"); RecvFailed 4; Received (str "cde")] (str "......") 5);
    vm_decide.
Defined.

(** ** Creating sockets *)

(** The kernel: addresses are numbers; a descriptor or -1 comes back.
    [k_socket] depends on the descriptors that are open. *)
Record kernel := mkKernel {
  k_getaddrinfo : option (list Z);
  k_socket : list Z -> Z -> Z;
  k_setsockopt : Z -> Z -> Z;
  k_bind : Z -> Z -> Z;
  k_connect : Z -> Z -> Z
}.

Definition SO_REUSEADDR : Z := 2.
Definition SO_REUSEPORT : Z := 15.
Definition SO_KEEPALIVE : Z := 9.
Definition TCP_NODELAY : Z := 1.

Definition close (fd : Z) (fds : list Z) : list Z := filter (fun x => x <> fd) fds.

(** How the loop over the addresses ends: a [return -1] inside it, [break]
    with a socket, or with [p == NULL]. *)
Inductive loop_exit := Returned (fds : list Z) | Broke (sockfd : Z) (fds : list Z)
                     | Exhausted (sockfd : Z) (fds : list Z).

(** The first option that cannot be set. *)
Definition setsockopts (k : kernel) (sockfd : Z) (opts : list Z) : bool :=
  forallb (fun o => 0 <=? k_setsockopt k sockfd o) opts.

Fixpoint ctor_loop (k : kernel) (isServer : bool) (addrs fds : list Z) (sockfd : Z) : loop_exit :=
  match addrs with
  | [] => Exhausted sockfd fds
  | p :: addrs =>
    let sockfd := k_socket k fds p in
    if sockfd =? -1 then ctor_loop k isServer addrs fds sockfd else
    let fds := sockfd :: fds in
    if isServer && negb (setsockopts k sockfd [SO_REUSEADDR; SO_REUSEPORT; SO_KEEPALIVE])
    then Returned (close sockfd fds) else
    if negb (setsockopts k sockfd [TCP_NODELAY]) then Returned (close sockfd fds) else
    if isServer && (k_bind k sockfd p <? 0) then ctor_loop k isServer addrs fds sockfd else
    Broke sockfd fds
  end.

(** The return value and the descriptors open afterwards. *)
Definition socket_ctor (k : kernel) (isServer : bool) (fds : list Z) : Z * list Z :=
  match k_getaddrinfo k with
  | None => (-1, fds)
  | Some servinfo =>
    match ctor_loop k isServer servinfo fds (-1) with
    | Returned fds => (-1, fds)
    | Exhausted sockfd fds => (-1, close sockfd fds)
    | Broke sockfd fds =>
      if isServer then (sockfd, fds) else
      if k_connect k sockfd (default 0 (head servinfo)) <? 0 then (-1, close sockfd fds)
      else (sockfd, fds)
    end
  end.

Definition socket_clientSync (k : kernel) := socket_ctor k false.
Definition socket_client (k : kernel) := socket_ctor k false.
Definition socket_serverSync (k : kernel) := socket_ctor k true.
Definition socket_server (k : kernel) := socket_ctor k true.

(** A new descriptor is not one that is open. *)
Definition fresh_fds (k : kernel) : Prop :=
  forall fds p, k_socket k fds p = -1 \/ 0 <= k_socket k fds p /\ (k_socket k fds p ∉ fds).

Lemma close_fresh fd fds : fd ∉ fds -> close fd (fd :: fds) = fds.
Proof.
  intros Hn. unfold close. rewrite filter_cons_False by naive_solver.
  induction fds as [|x fds IH]; [done|]. rewrite filter_cons_True by set_solver.
  f_equal. apply IH. set_solver.
Qed.

Lemma ctor_loop_client k addrs fds sockfd :
  fresh_fds k ->
  match ctor_loop k false addrs fds sockfd with
  | Returned fds' => fds' = fds
  | Exhausted s fds' => fds' = fds /\ (s = -1 \/ addrs = [] /\ s = sockfd)
  | Broke s fds' => fds' = s :: fds /\ 0 <= s /\ (s ∉ fds)
  end.
Proof.
  intros Hk. revert sockfd. induction addrs as [|p addrs IH]; intros sockfd; simpl; [auto|].
  destruct (Hk fds p) as [E | [E1 E2]].
  - rewrite E. simpl. specialize (IH (-1)). case_match; naive_solver.
  - destruct (Z.eqb_spec (k_socket k fds p) (-1)); [lia|].
    destruct (negb _); [by apply close_fresh|done].
Qed.

(** A client socket: either -1 and no descriptor more than before, or
    exactly one new descriptor, connected.  The address connected to is
    always the resolver's first. *)
Theorem socket_ctor_client_no_leak k fds :
  fresh_fds k -> -1 ∉ fds ->
  let '(r, fds') := socket_clientSync k fds in
  (r = -1 /\ fds' = fds) \/
  (0 <= r /\ (r ∉ fds) /\ fds' = r :: fds /\
   exists a l, k_getaddrinfo k = Some (a :: l) /\ 0 <= k_connect k r a).
Proof.
  intros Hk Hn. unfold socket_clientSync, socket_ctor.
  destruct (k_getaddrinfo k) as [addrs|] eqn:Ea; [|auto].
  pose proof (ctor_loop_client k addrs fds (-1) Hk) as L.
  destruct (ctor_loop k false addrs fds (-1)) as [fds'|s fds'|s fds'] eqn:El.
  - left. by subst.
  - destruct L as (-> & Hs & Hf). destruct addrs as [|a l]; [done|]. simpl.
    destruct (Z.ltb_spec (k_connect k s a) 0).
    + left. by rewrite close_fresh.
    + right. split_and!; auto. by exists a, l.
  - destruct L as (-> & Hs). left. assert (s = -1) as -> by naive_solver.
    split; [done|]. clear -Hn. induction fds as [|x fds IH]; [done|].
    unfold close in *. rewrite filter_cons_True by set_solver. f_equal. apply IH. set_solver.
Qed.

Lemma socket_ctor_client_no_leak_witness :
  exists k : kernel, fresh_fds k /\ socket_clientSync k [] = (3, [3]) /\
    ((3 = -1 /\ [3] = []) \/
     (0 <= 3 /\ (3 ∉ []) /\ [3] = [3] /\
      exists a l, k_getaddrinfo k = Some (a :: l) /\ 0 <= k_connect k 3 a)).
Proof.
  set (k := mkKernel (Some [1; 2]) (fun fds _ => if bool_decide (3 ∈ fds) then -1 else 3)
              (fun _ _ => 0) (fun _ _ => 0) (fun _ _ => 0)).
  exists k. assert (fresh_fds k) as Hk.
  { intros fds p. simpl. case_bool_decide; [by left|]. by right. }
  split; [done|]. split; [done|].
  refine (socket_ctor_client_no_leak k [] Hk _). by apply not_elem_of_nil.
Defined.

(** A host with two addresses and a kernel that hands out the numbers from
    the count of open descriptors on. *)
Definition demo_kernel : kernel :=
  mkKernel (Some [1; 2]) (fun fds _ => zlen fds) (fun _ _ => 0)
    (fun _ p => if p =? 1 then -1 else 0) (fun _ _ => 0).

(** The server loop does not close the socket whose [bind] failed: it is still
    open (descriptor 0) when the next address succeeds. *)
Example socket_server_leaks : socket_serverSync demo_kernel [] = (1, [1; 0]).
Proof. reflexivity. Qed.

(** ** The wrappers of single system calls *)
Section wrappers.

Inductive syscall :=
  | Socket_ (type protocol : Z) | Bind (fd addr : Z) | Listen (fd backlog : Z) | Accept4 (fd flags : Z) | Connect (fd addr : Z)
  | Read_ (fd count : Z) | Readv (fd iovcnt : Z) | Write_ (fd count : Z) | Close (fd : Z) | Shutdown (fd how : Z)
  | Setsockopt (fd level option : Z) | Getsockopt (fd level option : Z) | Fcntl (fd cmd arg : Z) | Signal_ignore (signum : Z).

(** What a system call returns, and the [errno] it leaves; it may depend on
    the calls made before. *)
Context (sys : list syscall -> syscall -> Z * Z).

Definition SOCK_STREAM : Z := 1.
Definition SOCK_NONBLOCK : Z := 2048.
Definition SOCK_CLOEXEC : Z := 524288.
Definition IPPROTO_TCP : Z := 6.
Definition SOL_SOCKET : Z := 1.
Definition SO_ERROR : Z := 4.
Definition SOMAXCONN : Z := 4096.
Definition SHUT_WR : Z := 1.
Definition SIGPIPE : Z := 13.
Definition F_GETFL : Z := 3.
Definition F_SETFL : Z := 4.
Definition O_NONBLOCK : Z := 2048.
Definition O_CLOEXEC : Z := 524288.

(** A call: its result, [errno], and the calls made so far. *)
Definition call (h : list syscall) (c : syscall) : Z * Z * list syscall := (sys h c, h ++ [c]).

(** The flags both kinds of sockets are opened with. *)
Definition sock_flags (nonblock : bool) : Z := Z.lor (if nonblock then SOCK_NONBLOCK else 0) SOCK_CLOEXEC.

Definition socket_bind (h : list syscall) (sockfd addr : Z) : bool * list syscall :=
  let '(r, _, h) := call h (Bind sockfd addr) in
  if r <? 0 then let '(_, _, h) := call h (Close sockfd) in (false, h) else (true, h).

Definition socket_listen (h : list syscall) (sockfd : Z) : bool * list syscall :=
  let '(r, _, h) := call h (Listen sockfd SOMAXCONN) in (negb (r <? 0), h).

Definition socket_connect (h : list syscall) (sockfd addr : Z) : Z * list syscall :=
  let '(r, _, h) := call h (Connect sockfd addr) in (r, h).
Definition socket_read (h : list syscall) (sockfd count : Z) : Z * list syscall :=
  let '(r, _, h) := call h (Read_ sockfd count) in (r, h).
Definition socket_readv (h : list syscall) (sockfd iovcnt : Z) : Z * list syscall :=
  let '(r, _, h) := call h (Readv sockfd iovcnt) in (r, h).
Definition socket_write (h : list syscall) (sockfd count : Z) : Z * list syscall :=
  let '(r, _, h) := call h (Write_ sockfd count) in (r, h).
Definition socket_close (h : list syscall) (sockfd : Z) : list syscall := (call h (Close sockfd)).2.
Definition socket_shutdownWrite (h : list syscall) (sockfd : Z) : list syscall := (call h (Shutdown sockfd SHUT_WR)).2.

(** [optval] is what [getsockopt] stored. *)
Definition socket_getError (h : list syscall) (sockfd optval : Z) : Z * list syscall :=
  let '(r, errno, h) := call h (Getsockopt sockfd SOL_SOCKET SO_ERROR) in
  if r <? 0 then (errno, h) else (optval, h).

Definition socket_setNonblock (h : list syscall) (sockfd : Z) : list syscall :=
  let '(flag, _, h) := call h (Fcntl sockfd F_GETFL 0) in
  if flag <? 0 then h else (call h (Fcntl sockfd F_SETFL (Z.lor flag (Z.lor O_NONBLOCK O_CLOEXEC)))).2.

Definition socket_create_ (h : list syscall) (nonblock : bool) : Z * list syscall :=
  let '(sockfd, _, h) := call h (Socket_ (Z.lor SOCK_STREAM (sock_flags nonblock)) IPPROTO_TCP) in
  if sockfd <? 0 then (-1, h) else
  let h := (call h (Setsockopt sockfd IPPROTO_TCP TCP_NODELAY)).2 in
  let h := (call h (Setsockopt sockfd SOL_SOCKET SO_REUSEADDR)).2 in
  let h := (call h (Setsockopt sockfd SOL_SOCKET SO_REUSEPORT)).2 in
  let h := (call h (Setsockopt sockfd SOL_SOCKET SO_KEEPALIVE)).2 in
  let h := (call h (Signal_ignore SIGPIPE)).2 in
  (sockfd, h).
Definition socket_create (h : list syscall) := socket_create_ h true.
Definition socket_createSync (h : list syscall) := socket_create_ h false.

(** The errors that [socket_accept_] does not report: EAGAIN, ECONNABORTED,
    EINTR, EPROTO, EPERM, EMFILE. *)
Definition accept_expected (errno : Z) : bool :=
  (errno =? 11) || (errno =? 103) || (errno =? EINTR) || (errno =? 71) || (errno =? 1) || (errno =? 24).

(** The return value, [errno] where it is kept, and whether a message is printed. *)
Definition socket_accept_ (h : list syscall) (sockfd : Z) (nonblock : bool) : Z * option Z * bool * list syscall :=
  let '(connfd, errno, h) := call h (Accept4 sockfd (sock_flags nonblock)) in
  if connfd <? 0 then
    if accept_expected errno then (connfd, Some errno, false, h) else (-1, None, true, h)
  else (connfd, None, false, h).
Definition socket_accept (h : list syscall) (sockfd : Z) := socket_accept_ h sockfd true.
Definition socket_acceptSync (h : list syscall) (sockfd : Z) := socket_accept_ h sockfd false.

(** A failed [bind] closes the descriptor of the caller. *)
Lemma socket_bind_spec h fd addr :
  let r := sys h (Bind fd addr) in
  socket_bind h fd addr = if r.1 <? 0 then (false, h ++ [Bind fd addr; Close fd]) else (true, h ++ [Bind fd addr]).
Proof.
  unfold socket_bind, call. destruct (sys h _) as [r e]. cbn. destruct (r <? 0); [|done].
  destruct (sys _ (Close fd)). by rewrite <- app_assoc.
Qed.

(** Whatever the error, the caller of [accept] sees -1, and a descriptor is
    passed on; an expected error can still be read from [errno]. *)
Lemma socket_accept_result h fd nonblock :
  -1 <= (sys h (Accept4 fd (sock_flags nonblock))).1 ->
  exists kept, socket_accept_ h fd nonblock =
    ((sys h (Accept4 fd (sock_flags nonblock))).1, kept.1, kept.2, h ++ [Accept4 fd (sock_flags nonblock)]) /\
    (kept.2 = true <-> (sys h (Accept4 fd (sock_flags nonblock))).1 = -1 /\
                       accept_expected (sys h (Accept4 fd (sock_flags nonblock))).2 = false).
Proof.
  intros Hr. unfold socket_accept_, call. destruct (sys h _) as [r e]. cbn in *. destruct (Z.ltb_spec r 0).
  - assert (r = -1) as -> by lia. destruct (accept_expected e); [exists (Some e, false)|exists (None, true)]; naive_solver.
  - exists (None, false). split; [done|]. cbn. split; [done|]. lia.
Qed.

(** [socket_create] makes a descriptor or reports -1; the options that cannot
    be set are ignored. *)
Lemma socket_create_spec h nonblock :
  let s := Socket_ (Z.lor SOCK_STREAM (sock_flags nonblock)) IPPROTO_TCP in
  socket_create_ h nonblock =
    if (sys h s).1 <? 0 then (-1, h ++ [s]) else
    ((sys h s).1, h ++ s :: ((fun o => Setsockopt (sys h s).1 o.1 o.2) <$>
      [(IPPROTO_TCP, TCP_NODELAY); (SOL_SOCKET, SO_REUSEADDR); (SOL_SOCKET, SO_REUSEPORT); (SOL_SOCKET, SO_KEEPALIVE)]) ++ [Signal_ignore SIGPIPE]).
Proof.
  intros s. unfold socket_create_, call. fold s. destruct (sys h s) as [r e]. cbn.
  destruct (r <? 0); [done|]. by rewrite <- !app_assoc.
Qed.
End wrappers.
