(* ===== verification/NovaCodec.v ===== *)
(** * The nova packet codec and the generic thrift call

    [nova_client/codec.c] (header of a nova packet) and
    [nova_client/generic.c] (the thrift message inside it), written against
    the byte-buffer interface [ByteBuf].  [nova_msg] and [nova_image] are the
    specification: the fields of a packet and the bytes they stand for. *)

From stdpp Require Import base tactics numbers list option strings.
From Stdlib Require Import Lia.
From S2P Require Import Prelude ByteBuf.

(** ** codec.h *)
Definition NOVA_MAGIC : Z := 0xdabc.
Definition NOVA_HEADER_COMMON_LEN : Z := 37.

(** A [char*] field is NULL or the block it points to. *)
Record nova_hdr := mkHdr {
  msg_size : Z;
  magic : Z;
  head_size : Z;
  version : Z;
  ip : Z;
  port : Z;
  service_len : Z;
  service_name : option bytes;
  method_len : Z;
  method_name : option bytes;
  seq_no : Z;
  attach_len : Z;
  attach : option bytes
}.

Definition sizeof_nova_hdr : Z := 72.

Definition with_msg_size (h : nova_hdr) (m : Z) : nova_hdr :=
  mkHdr m (magic h) (head_size h) (version h) (ip h) (port h) (service_len h) (service_name h)
    (method_len h) (method_name h) (seq_no h) (attach_len h) (attach h).
Definition with_head_size (h : nova_hdr) (s : Z) : nova_hdr :=
  mkHdr (msg_size h) (magic h) s (version h) (ip h) (port h) (service_len h) (service_name h)
    (method_len h) (method_name h) (seq_no h) (attach_len h) (attach h).

(** [memcpy] of [n] bytes from the start of the block at [p]. *)
Definition load_ptr (p : option bytes) (n : Z) : outcome bytes :=
  let! m := deref p in mem_read m 0 n.

Definition nova_detect (buf : bytes) (size : Z) : outcome bool :=
  if size <? NOVA_HEADER_COMMON_LEN then Ret false else
  let! m := mem_read buf 4 2 in
  Ret (be_val m =? NOVA_MAGIC).

Section codec.
Context {B : Type} `{ByteBuf B} `{Allocator}.

Definition nova_hdr_create : outcome nova_hdr :=
  c_assert (alloc_ok sizeof_nova_hdr) ;;
  Ret (mkHdr 0 0 0 0 0 0 0 None 0 None 0 0 None).

(** An [int32_t] length passed as a [size_t] is [u64] of it. *)
Definition nova_pack (b : B) (hdr : nova_hdr) (body : bytes) : outcome B :=
  let! b := appendInt32 b (head_size hdr + zlen body) in
  let! b := appendInt16 b (magic hdr) in
  let! b := appendInt16 b (head_size hdr) in
  let! b := appendInt8 b (version hdr) in
  let! b := appendInt32 b (ip hdr) in
  let! b := appendInt32 b (port hdr) in
  let! b := appendInt32 b (service_len hdr) in
  let! s := load_ptr (service_name hdr) (u64 (service_len hdr)) in
  let! b := bb_append b s in
  let! b := appendInt32 b (method_len hdr) in
  let! m := load_ptr (method_name hdr) (u64 (method_len hdr)) in
  let! b := bb_append b m in
  let! b := appendInt64 b (seq_no hdr) in
  let! b := appendInt32 b (attach_len hdr) in
  let! a := load_ptr (attach hdr) (u64 (attach_len hdr)) in
  let! b := bb_append b a in
  bb_append b body.

(** A length, [malloc(len + 1)] and [buf_retrieveAsString]. *)
Definition read_field (b : B) : outcome (Z * bytes * B) :=
  let! (len, b) := readInt32 b in
  let! size := sint (len + 1) in
  let! (s, b) := retrieveTo b (u64 len) (malloc (u64 size)) in
  Ret (len, s, b).

(** [*hdr] is part of the result also when the packet is refused. *)
Definition nova_unpack (b : B) (hdr : nova_hdr) : outcome (bool * nova_hdr * B) :=
  if bb_readable b <=? NOVA_HEADER_COMMON_LEN then Ret (false, hdr, b) else
  let! (msg, b) := readInt32 b in
  let hdr := with_msg_size hdr msg in
  if msg <=? NOVA_HEADER_COMMON_LEN then Ret (false, hdr, b) else
  let! (m, b) := readInt16 b in
  if negb (u16 m =? NOVA_MAGIC) then Ret (false, hdr, b) else
  let! (head, b) := readInt16 b in
  let hdr := with_head_size hdr head in
  if msg <? head then Ret (false, hdr, b) else
  let! (ver, b) := readInt8 b in
  let! (ip_, b) := readInt32 b in
  let! (port_, b) := readInt32 b in
  let! (slen, sname, b) := read_field b in
  let! (mlen, mname, b) := read_field b in
  let! (seq, b) := readInt64 b in
  let! (alen, att, b) := read_field b in
  Ret (true,
       mkHdr msg (magic hdr) head ver (u32 ip_) (u32 port_) slen (Some sname)
             mlen (Some mname) seq alen (Some att),
       b).
End codec.

(** ** Specification: packets and their images *)
Record nova_msg := mkMsg {
  m_size : Z; m_head : Z; m_version : Z; m_ip : Z; m_port : Z;
  m_service : bytes; m_method : bytes; m_seq : Z; m_attach : bytes
}.

Definition field_image (s : bytes) : bytes := be_bytes 4 (zlen s) ++ s.

Definition nova_image (m : nova_msg) : bytes :=
  be_bytes 4 (m_size m) ++ be_bytes 2 NOVA_MAGIC ++ be_bytes 2 (m_head m) ++
  be_bytes 1 (m_version m) ++ be_bytes 4 (m_ip m) ++ be_bytes 4 (m_port m) ++
  field_image (m_service m) ++ field_image (m_method m) ++
  be_bytes 8 (m_seq m) ++ field_image (m_attach m).

(** A string whose length [len + 1] does not overflow an [int]. *)
Definition field_ok (s : bytes) : Prop := all_bytes s /\ zlen s < INT_MAX.

(** The field ranges of the header's C types, and the tests of
    [nova_unpack]. *)
Definition nova_msg_ok (m : nova_msg) : Prop :=
  NOVA_HEADER_COMMON_LEN < m_size m <= INT_MAX /\
  - 2 ^ 15 <= m_head m < 2 ^ 15 /\ m_head m <= m_size m /\
  - 2 ^ 7 <= m_version m < 2 ^ 7 /\ 0 <= m_ip m < 2 ^ 32 /\ 0 <= m_port m < 2 ^ 32 /\
  - 2 ^ 63 <= m_seq m < 2 ^ 63 /\
  field_ok (m_service m) /\ field_ok (m_method m) /\ field_ok (m_attach m).

#[export] Instance field_ok_dec s : Decision (field_ok s).
Proof. unfold field_ok. apply _. Defined.
#[export] Instance nova_msg_ok_dec m : Decision (nova_msg_ok m).
Proof. unfold nova_msg_ok. apply _. Defined.

(** The header [nova_unpack] fills: strings are terminated copies. *)
Definition hdr_of (m : nova_msg) (mg : Z) : nova_hdr :=
  mkHdr (m_size m) mg (m_head m) (m_version m) (m_ip m) (m_port m)
    (zlen (m_service m)) (Some (m_service m ++ [0]))
    (zlen (m_method m)) (Some (m_method m ++ [0]))
    (m_seq m) (zlen (m_attach m)) (Some (m_attach m ++ [0])).

Lemma zlen_field_image s : zlen (field_image s) = 4 + zlen s.
Proof. unfold field_image. zlia. Qed.
#[export] Hint Rewrite zlen_field_image : zlist.

Lemma zlen_nova_image m :
  zlen (nova_image m) =
    NOVA_HEADER_COMMON_LEN + zlen (m_service m) + zlen (m_method m) + zlen (m_attach m).
Proof. unfold nova_image, NOVA_HEADER_COMMON_LEN. zlia. Qed.
#[export] Hint Rewrite zlen_nova_image : zlist.

Lemma load_ptr_ok s r n : zlen s = n -> load_ptr (Some (s ++ r)) n = Ret s.
Proof.
  intros. unfold load_ptr. simpl. rewrite mem_read_ok by zlia.
  unfold slice. by rewrite zdrop_0, ztake_app_exact.
Qed.

Section codec_laws.
Context {B : Type} `{ByteBufSpec B} `{AllocTotal}.
Implicit Types (b : B) (m : nova_msg) (h : nova_hdr).

Lemma read_field_complete s rest b :
  field_ok s -> holds (field_image s ++ rest) b ->
  returns (read_field b) (fun r => r.1 = (zlen s, s ++ [0]) /\ holds rest (r.2)).
Proof.
  intros [Hs Hl] Hb. unfold field_image in Hb. rewrite <- app_assoc in Hb.
  unfold INT_MAX in Hl. unfold read_field, readInt32. zlen_facts.
  step by (holds_read_int 4); [lia| |exact Hb|]; [lia|]. intros [len b1] [E Hb1]. simpl in *. subst len.
  unfold sint. rewrite bool_decide_true by (unfold INT_MIN, INT_MAX; lia). rewrite ret_bind.
  unfold malloc. rewrite !wrapu_small by lia. rewrite alloc_total by lia.
  step by holds_retrieveTo; [exact Hb1|done|lia|]. intros [t b2] [E Hb2]. simpl in *. subst t.
  by apply returns_ret.
Qed.

Lemma read_field_inv b len s b' :
  bb_inv b -> read_field b = Ret (len, s, b') ->
  exists t, bb_inv b' /\ len = zlen t /\ s = t ++ [0] /\ field_ok t /\
    bb_contents b = field_image t ++ bb_contents b'.
Proof.
  intros Hi E. unfold read_field in E.
  apply bind_Ret in E as ([l b1] & E1 & E). apply read_int_inv in E1 as (Hi1 & Hc1 & Hl); [|lia|done].
  apply bind_Ret in E as (size & E2 & E). unfold sint in E2. case_bool_decide as Hs; [|done].
  injection E2 as <-. apply bind_Ret in E as ([t b2] & E3 & E). injection E as <- <- <-.
  apply retrieveTo_inv in E3 as (l' & Hi2 & -> & Hz & Hb & Hc2);
    [|apply wrapu_range; lia|done].
  unfold INT_MIN, INT_MAX in Hs.
  (* a negative length would be a block of 2^63 bytes *)
  assert (zlen l' <= zlen (bb_contents b1)) by (rewrite Hc2; zlia).
  pose proof (bb_contents_small b1 Hi1).
  assert (0 <= l).
  { destruct (Z.ltb_spec l 0); [|done]. exfalso.
    assert (u64 l = l + 2 ^ 64) as E4; [|lia].
    unfold wrapu. rewrite <- (Z_mod_plus_full l 1), Z.mod_small; lia. }
  rewrite wrapu_small in Hz by lia.
  exists l'. split; [done|]. split; [lia|]. split; [done|].
  split; [split; [done|unfold INT_MAX; lia]|].
  unfold field_image. by rewrite Hc1, Hc2, Hz, app_assoc.
Qed.

Lemma bind_read_field_inv {R} b (f : Z * bytes * B -> outcome R) r :
  bb_inv b -> mbind f (read_field b) = Ret r ->
  exists t b', bb_inv b' /\ field_ok t /\ bb_contents b = field_image t ++ bb_contents b' /\
    f (zlen t, t ++ [0], b') = Ret r.
Proof.
  intros Hi E. apply bind_Ret in E as ([[len s] b'] & E1 & E2).
  apply read_field_inv in E1 as (t & ? & -> & -> & ? & ?); [|done]. exists t, b'. auto.
Qed.

Tactic Notation "reads_field" ident(Hb) :=
  step by read_field_complete; [|exact Hb|]; [done|];
  clear Hb;
  let x := fresh "x" in let y := fresh "y" in let b := fresh "b" in
  let E := fresh "E" in
  intros [[x y] b] [E Hb]; cbn [fst snd] in E, Hb; injection E as -> ->;
  cbv beta zeta iota.

Tactic Notation "inv_read_int" hyp(E) ident(x) :=
  apply bind_read_int_inv in E as (x & ?b & ? & ? & ? & E); [|lia|assumption].
Tactic Notation "inv_read_field" hyp(E) ident(s) :=
  apply bind_read_field_inv in E as (s & ?b & ? & ? & ? & E); [|assumption].

Lemma nova_unpack_complete m b h rest :
  nova_msg_ok m -> NOVA_HEADER_COMMON_LEN < zlen (nova_image m ++ rest) ->
  holds (nova_image m ++ rest) b ->
  returns (nova_unpack b h) (fun r => r.1 = (true, hdr_of m (magic h)) /\ holds rest (r.2)).
Proof.
  intros (Hsz & Hhd & Hle & Hv & Hip & Hpt & Hsq & Hs & Hm & Ha) Hlong Hb.
  unfold nova_unpack. rewrite bb_readable_spec, (proj2 Hb) by apply Hb.
  destruct (Z.leb_spec (zlen (nova_image m ++ rest)) NOVA_HEADER_COMMON_LEN); [lia|].
  unfold nova_image in Hb. rewrite <- !app_assoc in Hb.
  unfold INT_MAX, NOVA_HEADER_COMMON_LEN in Hsz.
  unfold readInt32, readInt16, readInt8, readInt64.
  reads_int 4 Hb. destruct (Z.leb_spec (m_size m) NOVA_HEADER_COMMON_LEN);
    [unfold NOVA_HEADER_COMMON_LEN in *; lia|].
  reads_raw 2 (be_bytes 2 NOVA_MAGIC) Hb. change (negb _) with false. cbv iota.
  reads_int 2 Hb. destruct (Z.ltb_spec (m_size m) (m_head m)); [lia|].
  reads_int 1 Hb.
  reads_raw 4 (be_bytes 4 (m_ip m)) Hb. reads_raw 4 (be_bytes 4 (m_port m)) Hb.
  reads_field Hb. reads_field Hb. reads_int 8 Hb. reads_field Hb.
  apply returns_ret. split; [|done]. simpl. unfold hdr_of, with_head_size, with_msg_size. simpl.
  rewrite !be_val_be_bytes by lia. cbn [Z.mul Pos.mul].
  rewrite !wrapu_wraps, !wrapu_small by (try apply wrapu_range; try apply Z.mod_small; lia).
  done.
Qed.

(** The packet a buffer must start with for [nova_unpack] to accept it. *)
Lemma nova_unpack_inv b h h' b' :
  bb_inv b -> nova_unpack b h = Ret (true, h', b') ->
  exists m, nova_msg_ok m /\ h' = hdr_of m (magic h) /\ bb_inv b' /\
    bb_contents b = nova_image m ++ bb_contents b'.
Proof.
  intros Hi E. unfold nova_unpack in E. case_match; [done|].
  inv_read_int E msg. case_match eqn:Hm; [done|]. apply Z.leb_gt in Hm.
  inv_read_int E mg. case_match eqn:Hmg; [done|]. apply negb_false_iff, Z.eqb_eq in Hmg.
  inv_read_int E head. case_match eqn:Hh; [done|]. apply Z.ltb_ge in Hh.
  inv_read_int E ver. inv_read_int E ip_. inv_read_int E port_.
  inv_read_field E sv. inv_read_field E mt. inv_read_int E sq. inv_read_field E at_.
  injection E as <- <-.
  exists (mkMsg msg head ver (u32 ip_) (u32 port_) sv mt sq at_).
  unfold NOVA_HEADER_COMMON_LEN in *.
  split; [|split; [done|split; [done|]]].
  - unfold nova_msg_ok, NOVA_HEADER_COMMON_LEN, INT_MAX; simpl.
    split_and!; try (by apply wrapu_range); try done; try lia.
  - unfold nova_image.
    cbn [m_size m_head m_version m_ip m_port m_service m_method m_seq m_attach].
    assert (forall x, be_bytes 4 (u32 x) = be_bytes 4 x) as Eu
      by (intros; by apply (be_bytes_wrapu 4)).
    rewrite !Eu, <- !app_assoc.
    assert (be_bytes 2 mg = be_bytes 2 NOVA_MAGIC) as <-.
    { rewrite <- Hmg. symmetry. exact (be_bytes_wrapu 2 mg ltac:(lia)). }
    congruence.
Qed.
End codec_laws.

(** The header [h] describes the packet [m]: its strings are at the start of
    the blocks it points to. *)
Definition starts_with (p : option bytes) (s : bytes) : Prop :=
  match p with Some blk => is_prefix s blk = true | None => False end.

Definition hdr_packs (h : nova_hdr) (m : nova_msg) : Prop :=
  magic h = NOVA_MAGIC /\ head_size h = m_head m /\ version h = m_version m /\
  ip h = m_ip m /\ port h = m_port m /\ seq_no h = m_seq m /\
  service_len h = zlen (m_service m) /\ method_len h = zlen (m_method m) /\
  attach_len h = zlen (m_attach m) /\
  starts_with (service_name h) (m_service m) /\ starts_with (method_name h) (m_method m) /\
  starts_with (attach h) (m_attach m).

#[export] Instance starts_with_dec p s : Decision (starts_with p s).
Proof. destruct p; simpl; apply _. Defined.
#[export] Instance hdr_packs_dec h m : Decision (hdr_packs h m).
Proof. unfold hdr_packs. apply _. Defined.

Section pack_laws.
Context {B : Type} `{ByteBufSpec B} `{AllocTotal}.
Implicit Types (b : B) (m : nova_msg) (h : nova_hdr).

Lemma load_starts p s n : starts_with p s -> zlen s = n -> n < INT_MAX ->
  load_ptr p (u64 n) = Ret s.
Proof.
  destruct p as [blk|]; [|done]. simpl. intros [r ->]%is_prefix_spec Hn Hmax.
  unfold INT_MAX in Hmax. rewrite wrapu_small by zlia. by apply load_ptr_ok.
Qed.

Lemma nova_pack_writes h m b l room body :
  nova_msg_ok m -> hdr_packs h m -> m_size m = m_head m + zlen body -> all_bytes body ->
  writes l room b -> zlen (nova_image m ++ body) <= room ->
  returns (nova_pack b h body)
    (writes (l ++ nova_image m ++ body) (room - zlen (nova_image m ++ body))).
Proof.
  intros (Hsz & Hhd & Hle & Hv & Hip & Hpt & Hsq & [? ?] & [? ?] & [? ?])
    (Em & Ehd & Ev & Ei & Ep & Es & E1 & E2 & E3 & P1 & P2 & P3) Hbody Hbb Hw Hroom.
  rewrite zlen_app, zlen_nova_image in Hroom. unfold NOVA_HEADER_COMMON_LEN in Hroom.
  unfold nova_pack, appendInt32, appendInt16, appendInt8, appendInt64.
  do 7 appends_int Hw. rewrite (load_starts (service_name h) (m_service m)), ret_bind by (done || lia).
  appends Hw. appends_int Hw. rewrite (load_starts (method_name h) (m_method m)), ret_bind by (done || lia).
  appends Hw. do 2 appends_int Hw. rewrite (load_starts (attach h) (m_attach m)), ret_bind by (done || lia).
  appends Hw. eapply returns_mono; [apply writes_append; [exact Hw|done|zlia]|].
  intros b'. rewrite Em, Ehd, Ev, Ei, Ep, Es, E1, E2, E3, <- Hbody.
  unfold nova_image, field_image. rewrite <- !app_assoc.
  intros (? & ? & ? & ?). split_and!; try done. zlia.
Qed.

(** C3.  What [nova_pack] writes, [nova_detect] recognises and [nova_unpack]
    reads back: the same header, with the body left in the buffer. *)
Theorem nova_unpack_pack h m body b room h0 :
  nova_msg_ok m -> hdr_packs h m -> m_size m = m_head m + zlen body -> all_bytes body ->
  NOVA_HEADER_COMMON_LEN < zlen (nova_image m ++ body) <= room -> writes [] room b ->
  returns (nova_pack b h body) (fun b1 =>
    (let! p := bb_peek b1 (bb_readable b1) in nova_detect p (bb_readable b1)) = Ret true /\
    returns (nova_unpack b1 h0) (fun r =>
      r.1 = (true, hdr_of m (magic h0)) /\ holds body (r.2))).
Proof.
  intros Hm Hh Hs Hb [Hlong Hroom] Hw.
  eapply returns_mono; [by eapply nova_pack_writes|].
  intros b1 Hw1. rewrite app_nil_l in Hw1. split.
  - destruct Hw1 as (Hi & _ & Hc & _). rewrite bb_readable_spec, Hc by done.
    rewrite bb_peek_spec, Hc, ret_bind by (done || rewrite Hc; zlia).
    rewrite ztake_all by lia. unfold nova_detect.
    destruct (Z.ltb_spec (zlen (nova_image m ++ body)) NOVA_HEADER_COMMON_LEN); [lia|].
    assert (nova_image m ++ body =
      be_bytes 4 (m_size m) ++ be_bytes 2 NOVA_MAGIC ++ zdrop 6 (nova_image m ++ body)) as E.
    { unfold nova_image. rewrite <- !app_assoc.
      rewrite (app_assoc (be_bytes 4 _)), zdrop_app_exact by zlia. by rewrite <- app_assoc. }
    rewrite mem_read_ok; [|lia|lia|unfold NOVA_HEADER_COMMON_LEN in *; lia].
    rewrite E, slice_app_exact by zlia. reflexivity.
  - apply nova_unpack_complete; [done|done|]. by destruct Hw1 as (? & _ & ? & _).
Qed.

(** C5.  [nova_unpack] accepts nothing else: when it returns true the buffer
    started with the image of a well-formed packet, the header is that
    packet's and exactly the image was consumed. *)
Theorem nova_unpack_sound b h h' b' :
  bb_inv b -> nova_unpack b h = Ret (true, h', b') ->
  exists m, nova_msg_ok m /\ h' = hdr_of m (magic h) /\
    bb_contents b = nova_image m ++ bb_contents b'.
Proof.
  intros Hi E. destruct (nova_unpack_inv b h h' b' Hi E) as (m & ? & ? & ? & ?). by exists m.
Qed.
End pack_laws.
