(* ===== verification/NovaGeneric.v ===== *)
(** * The generic thrift call carried by a nova packet

    [nova_client/generic.c]: [thrift_generic_pack] writes the call of
    [GenericService.invoke], [thrift_generic_unpack] reads the reply,
    [create_nova_generic] builds the packet header.  [call_image] and
    [reply_image] are the thrift binary-protocol messages they stand for. *)

From stdpp Require Import base tactics numbers list option strings.
From Stdlib Require Import Lia.
From S2P Require Import Prelude ByteBuf NovaCodec.

Definition GENERIC_SERVICE : bytes :=
  str "com.youzan.nova.framework.generic.service.GenericService".
Definition GENERIC_SERVICE_LEN : Z := 56.
Definition GENERIC_METHOD : bytes := str "invoke".
Definition GENERIC_METHOD_LEN : Z := 6.
Definition GENERIC_COMMON_LEN : Z := 44.
Definition VER_MASK : Z := 0xffff0000.
Definition VER1 : Z := 0x80010000.
Definition T_CALL : Z := 1.
Definition T_REPLY : Z := 2.
Definition T_EX : Z := 3.
Definition TYPE_STRUCT : Z := 12.
Definition TYPE_STRING : Z := 11.
Definition FIELD_STOP : Z := 0.

(** [BufCheapPrepend] of [buffer.c] and [buffer2.c]. *)
Definition cheap_prepend : Z := 8.

Section generic.
Context {B : Type} `{ByteBuf B} `{Allocator}.

(** [buf_create(size)] of an [int] expression. *)
Definition buf_create_int (size : Z) : outcome (option B) := bb_create (u64 size) cheap_prepend.

(** The string arguments are blocks with their lengths. *)
Definition thrift_generic_pack (seq : Z) (serv : bytes) (serv_len : Z)
    (method : bytes) (method_len : Z) (json_args : bytes) (args_len : Z) : outcome B :=
  let! n1 := sint (GENERIC_COMMON_LEN + serv_len) in
  let! n2 := sint (n1 + method_len) in
  let! n3 := sint (n2 + args_len) in
  let! ob := buf_create_int n3 in
  let! b := deref ob in
  let! b := appendInt32 b (Z.lor VER1 T_CALL) in
  let! b := appendInt32 b GENERIC_METHOD_LEN in
  let! s := load_ptr (Some (GENERIC_METHOD ++ [0])) GENERIC_METHOD_LEN in
  let! b := bb_append b s in
  let! b := appendInt32 b seq in
  let! b := appendInt8 b TYPE_STRUCT in
  let! b := appendInt16 b 1 in
  let! b := appendInt8 b TYPE_STRING in
  let! b := appendInt16 b 1 in
  let! b := appendInt32 b serv_len in
  let! s := load_ptr (Some serv) (u64 serv_len) in
  let! b := bb_append b s in
  let! b := appendInt8 b TYPE_STRING in
  let! b := appendInt16 b 2 in
  let! b := appendInt32 b method_len in
  let! s := load_ptr (Some method) (u64 method_len) in
  let! b := bb_append b s in
  let! b := appendInt8 b TYPE_STRING in
  let! b := appendInt16 b 3 in
  let! b := appendInt32 b args_len in
  let! s := load_ptr (Some json_args) (u64 args_len) in
  let! b := bb_append b s in
  let! b := appendInt8 b FIELD_STOP in
  appendInt8 b FIELD_STOP.

(** [thrift_generic_unpack] from the sequence number on. *)
Definition unpack_resp (b : B) : outcome (bool * option bytes * B) :=
  let! (seq, b) := readInt32 b in
  let! (ft, b) := readInt8 b in
  let field_type := u8 ft in
  let! (fi, b) := readInt16 b in
  let field_id := u16 fi in
  c_assert (field_id =? 0) ;;
  if negb (field_type =? TYPE_STRING) then Ret (false, None, b) else
  let! (rl, b) := readInt32 b in
  let resp_len := u32 rl in
  let! (resp, b) := retrieveTo b resp_len (malloc (u32 (resp_len + 1))) in
  let! (ft, b) := readInt8 b in
  c_assert (u8 ft =? FIELD_STOP) ;;
  Ret (true, Some resp, b).

(** The result: the return value, what [*out] receives, the buffer. *)
Definition thrift_generic_unpack (b : B) : outcome (bool * option bytes * B) :=
  let! (v, b) := readInt32 b in
  let ver1 := u32 v in
  let ver1 := if 0x7fffffff <? ver1 then u32 (0 - Z.lxor (u32 (ver1 - 1)) 0xffffffff)
              else ver1 in
  let ver1 := Z.land ver1 VER_MASK in
  if negb (ver1 =? VER1) then Ret (false, None, b) else
  let type := Z.land ver1 0x000000ff in
  if type =? T_EX then Ret (false, None, b) else
  let! (l, b) := readInt32 b in
  let method_len := u32 l in
  let! (method, b) := retrieveTo b method_len (malloc (u32 (method_len + 1))) in
  let! c := strncmp (Z.to_nat GENERIC_COMMON_LEN) method (GENERIC_METHOD ++ [0]) in
  if negb (c =? 0) then Ret (false, None, b) else
  unpack_resp b.
End generic.

(** A terminated copy of [n] bytes of [s] in a new block. *)
Definition dup_asserting `{Allocator} (s : bytes) (n : Z) : outcome bytes :=
  c_assert (alloc_ok (u64 (n + 1))) ;;
  let! d := load_ptr (Some s) (u64 n) in
  Ret (d ++ [0]).

(** [None]: the header would not fit [int16_t]. *)
Definition create_nova_generic `{Allocator} (att : bytes) : outcome (option nova_hdr) :=
  let! hdr := nova_hdr_create in
  let! n := strlen att in
  let attach_len := s32 n in
  let! head_sz := sint (NOVA_HEADER_COMMON_LEN + GENERIC_SERVICE_LEN + GENERIC_METHOD_LEN + attach_len) in
  if 0x7fff <? head_sz then Ret None else
  let! sn := dup_asserting (GENERIC_SERVICE ++ [0]) GENERIC_SERVICE_LEN in
  let! mn := dup_asserting (GENERIC_METHOD ++ [0]) GENERIC_METHOD_LEN in
  let! an := dup_asserting att attach_len in
  Ret (Some (mkHdr (msg_size hdr) NOVA_MAGIC (s16 head_sz) 1 0 0
               GENERIC_SERVICE_LEN (Some sn) GENERIC_METHOD_LEN (Some mn) 1 attach_len (Some an))).

(** ** Specification: thrift messages *)
Definition string_field (id : Z) (s : bytes) : bytes :=
  be_bytes 1 TYPE_STRING ++ be_bytes 2 id ++ field_image s.

Definition msg_head (type seq : Z) (method : bytes) : bytes :=
  be_bytes 4 (VER1 + type) ++ field_image method ++ be_bytes 4 seq.

Definition call_image (seq : Z) (serv method args : bytes) : bytes :=
  msg_head T_CALL seq GENERIC_METHOD ++
  be_bytes 1 TYPE_STRUCT ++ be_bytes 2 1 ++
    string_field 1 serv ++ string_field 2 method ++ string_field 3 args ++
  be_bytes 1 FIELD_STOP ++ be_bytes 1 FIELD_STOP.

Definition reply_image (type seq id : Z) (resp : bytes) : bytes :=
  msg_head type seq GENERIC_METHOD ++ string_field id resp ++ be_bytes 1 FIELD_STOP.

Lemma zlen_call_image seq serv method args :
  zlen (call_image seq serv method args) =
    GENERIC_COMMON_LEN + zlen serv + zlen method + zlen args.
Proof.
  unfold call_image, msg_head, string_field, GENERIC_COMMON_LEN, GENERIC_METHOD. zlen_facts.
  autorewrite with zlist. change (zlen (str "invoke")) with 6. lia.
Qed.

(** The first test of the version word in [thrift_generic_unpack] changes
    nothing: negating twice is the identity on 32 bits. *)
Lemma ver1_sign_fix_id v :
  0 <= v < 2 ^ 32 -> u32 (0 - Z.lxor (u32 (v - 1)) 0xffffffff) = v.
Proof.
  intros Hv. set (w := u32 (v - 1)).
  assert (0 <= w < 2 ^ 32) as Hw by (apply wrapu_range; lia).
  assert (Z.lxor w 0xffffffff = 0xffffffff - w) as ->.
  { change 0xffffffff with (Z.ones 32).
    assert (Z.log2 w < 32).
    { destruct (Z.eqb_spec w 0) as [-> |]; [done|]. apply Z.log2_lt_pow2; lia. }
    rewrite <- Z.ldiff_ones_l_low by lia. symmetry. apply Z.sub_nocarry_ldiff.
    apply Z.ldiff_ones_r_low; lia. }
  unfold w, wrapu. replace (0 - _) with ((v - 1) mod 2 ^ 32 + 1 + (-1) * 2 ^ 32) by lia.
  rewrite Z_mod_plus_full, Zplus_mod_idemp_l. replace (v - 1 + 1) with v by lia.
  by apply Z.mod_small.
Qed.

(** The mask keeps the version and drops the message type. *)
Lemma ver1_mask type : 0 <= type < 256 -> Z.land (VER1 + type) VER_MASK = VER1.
Proof.
  intros Ht. assert (Forall (fun t => Z.land (VER1 + t) VER_MASK = VER1) (seqZ 0 256)) as F
    by vm_decide.
  rewrite Forall_forall in F. apply F, elem_of_seqZ. lia.
Qed.

Section generic_laws.
Context {B : Type} `{ByteBufSpec B} `{AllocTotal}.
Implicit Types (b : B) (s serv method args resp : bytes).

(** A buffer being filled, with the space left before it has to grow. *)
Definition fills (l : bytes) (space : Z) (b : B) : Prop :=
  bb_inv b /\ bb_open b /\ bb_contents b = l /\ bb_writable b = space /\ 2 ^ 40 <= bb_room b.

Lemma fills_append l space b d :
  fills l space b -> all_bytes d -> zlen d <= space -> space < 2 ^ 40 ->
  returns (bb_append b d) (fills (l ++ d) (space - zlen d)).
Proof.
  intros (Hi & Ho & Hc & Hs & Hr) Hd Hl Hsp.
  eapply returns_mono; [apply bb_append_spec; auto; lia|].
  intros b' (? & ? & Hc' & ? & ? & Hw). destruct Hw as [Hw Hr']; [lia|].
  rewrite Hc in Hc'. refine (conj _ (conj _ (conj _ (conj _ _)))); try done; lia.
Qed.

Lemma fills_append_int n l space b x :
  fills l space b -> 0 <= n <= space -> space < 2 ^ 40 ->
  returns (append_int n b x) (fills (l ++ be_bytes n x) (space - n)).
Proof.
  intros Hf Hn Hsp. eapply returns_mono.
  - apply fills_append; [exact Hf|auto with bytes|zlia|done].
  - intros b'. by rewrite zlen_be_bytes by lia.
Qed.

Tactic Notation "fills_int" ident(Hf) :=
  step by fills_append_int; [exact Hf|zlia|zlia|];
  clear Hf; let b := fresh "b" in intros b Hf.
Tactic Notation "fills_str" ident(Hf) :=
  step by fills_append; [exact Hf|done|zlia|zlia|];
  clear Hf; let b := fresh "b" in intros b Hf.

Lemma load_c_str s r n : zlen s = n -> n < 2 ^ 64 -> load_ptr (Some (s ++ r)) (u64 n) = Ret s.
Proof. intros. rewrite wrapu_small by zlia. by apply load_ptr_ok. Qed.

Lemma thrift_generic_pack_ok seq serv method args r1 r2 r3 :
  all_bytes serv -> all_bytes method -> all_bytes args ->
  GENERIC_COMMON_LEN + zlen serv + zlen method + zlen args <= INT_MAX ->
  returns (thrift_generic_pack (B := B) seq (serv ++ r1) (zlen serv) (method ++ r2) (zlen method)
             (args ++ r3) (zlen args))
    (fun b => bb_inv b /\ bb_contents b = call_image seq serv method args /\ bb_writable b = 0).
Proof.
  intros Hs Hm Ha Hmax. unfold INT_MAX, GENERIC_COMMON_LEN in Hmax. zlen_facts.
  unfold thrift_generic_pack, sint, GENERIC_COMMON_LEN, INT_MIN, INT_MAX.
  do 3 (rewrite bool_decide_true by lia; rewrite ret_bind).
  unfold buf_create_int.
  rewrite (wrapu_small 64 (44 + zlen serv + zlen method + zlen args)) by lia.
  destruct (bb_create_spec (B := B) (44 + zlen serv + zlen method + zlen args) cheap_prepend)
    as (ob & -> & b & -> & Hi & Ho & Hc & Hr & _ & Hw & _); [unfold cheap_prepend; lia..|].
  rewrite ret_bind. unfold deref. rewrite ret_bind.
  assert (fills [] (44 + zlen serv + zlen method + zlen args) b) as Hf.
  { refine (conj Hi (conj Ho (conj Hc (conj Hw _)))). unfold cheap_prepend in Hr. lia. }
  clear Hi Ho Hc Hr Hw. unfold appendInt32, appendInt16, appendInt8.
  do 2 fills_int Hf. rewrite (load_ptr_ok GENERIC_METHOD), ret_bind by done.
  assert (all_bytes GENERIC_METHOD) by vm_decide.
  assert (zlen GENERIC_METHOD = 6) as Hmz by reflexivity.
  fills_str Hf. do 6 fills_int Hf. rewrite (load_c_str serv), ret_bind by (done || lia).
  fills_str Hf. do 3 fills_int Hf. rewrite (load_c_str method), ret_bind by (done || lia).
  fills_str Hf. do 3 fills_int Hf. rewrite (load_c_str args), ret_bind by (done || lia).
  fills_str Hf. fills_int Hf.
  eapply returns_mono; [apply fills_append_int; [exact Hf|zlia|zlia]|].
  intros b' (Hi & _ & Hc & Hw & _). split; [done|]. split; [|rewrite Hw; zlia].
  rewrite Hc. unfold call_image, msg_head, string_field, field_image.
  change (zlen GENERIC_METHOD) with GENERIC_METHOD_LEN. change (VER1 + T_CALL) with (Z.lor VER1 T_CALL).
  by rewrite <- !app_assoc.
Qed.

(** C6.  [thrift_generic_pack] writes the thrift call message, and the
    size it computes beforehand is exact: no byte is left over and the
    buffer never grows. *)
Theorem thrift_generic_pack_exact seq serv method args r1 r2 r3 :
  all_bytes serv -> all_bytes method -> all_bytes args ->
  GENERIC_COMMON_LEN + zlen serv + zlen method + zlen args <= INT_MAX ->
  returns (thrift_generic_pack (B := B) seq (serv ++ r1) (zlen serv) (method ++ r2) (zlen method)
             (args ++ r3) (zlen args))
    (fun b => bb_inv b /\ bb_contents b = call_image seq serv method args /\ bb_writable b = 0).
Proof. apply thrift_generic_pack_ok. Qed.

Lemma unpack_resp_reply seq id resp rest b :
  0 <= id < 2 ^ 16 -> - 2 ^ 31 <= seq < 2 ^ 31 -> zlen resp < 2 ^ 32 - 1 ->
  holds (be_bytes 4 seq ++ string_field id resp ++ be_bytes 1 FIELD_STOP ++ rest) b ->
  (id = 0 -> returns (unpack_resp b) (fun r => r.1 = (true, Some (resp ++ [0])) /\ holds rest r.2)) /\
  (id <> 0 -> unpack_resp b = AssertFail).
Proof.
  intros Hid Hseq Hl Hb. unfold unpack_resp, string_field, field_image in *. zlen_facts.
  rewrite <- !app_assoc in Hb. unfold readInt32, readInt16, readInt8.
  destruct (read_int_eq 4 seq _ b ltac:(lia) ltac:(lia) Hb) as (b1 & -> & Hb1).
  destruct (read_int_eq 1 TYPE_STRING _ b1 ltac:(lia) ltac:(done) Hb1) as (b2 & E2 & Hb2).
  destruct (read_raw_eq 2 (be_bytes 2 id) _ b2 ltac:(lia) ltac:(zlia) Hb2) as (b3 & E3 & Hb3).
  rewrite ret_bind, E2, ret_bind, E3, ret_bind.
  rewrite (unsigned_read 2 id : _ -> _ -> u16 _ = _) by lia.
  split; intros Hi; [subst id|].
  - change (c_assert (0 =? 0)) with (Ret tt). rewrite ret_bind.
    change (negb _) with false. cbv iota. clear Hb Hb1 Hb2. rename Hb3 into Hb.
    reads_raw 4 (be_bytes 4 (zlen resp)) Hb.
    rewrite (unsigned_read 4 (zlen resp) : _ -> _ -> u32 _ = _) by lia.
    unfold malloc. rewrite (wrapu_small 32 (zlen resp + 1)), alloc_total by lia.
    step by holds_retrieveTo; [exact Hb|done|lia|]. clear Hb.
    intros [t b4] [E Hb]. cbn [fst snd] in E, Hb. subst t.
    reads_int 1 Hb. by apply returns_ret.
  - by destruct (Z.eqb_spec id 0).
Qed.

(** The version word, the mask and the method name: what follows does not
    depend on the message type. *)
Lemma thrift_unpack_head type seq l b :
  0 <= type < 256 -> holds (msg_head type seq GENERIC_METHOD ++ l) b ->
  exists b', holds (be_bytes 4 seq ++ l) b' /\ thrift_generic_unpack b = unpack_resp b'.
Proof.
  intros Ht Hb. unfold msg_head, field_image in Hb. rewrite <- !app_assoc in Hb.
  unfold thrift_generic_unpack, readInt32.
  destruct (read_raw_eq 4 (be_bytes 4 (VER1 + type)) _ b ltac:(lia) ltac:(zlia) Hb)
    as (b1 & -> & Hb1). rewrite ret_bind.
  rewrite (unsigned_read 4 (VER1 + type) : _ -> _ -> u32 _ = _) by (unfold VER1; lia).
  rewrite ver1_sign_fix_id by (unfold VER1; lia).
  replace (if _ <? _ then _ else _) with (VER1 + type) by (by case_match).
  rewrite ver1_mask by done. change (negb (VER1 =? VER1)) with false. change (Z.land VER1 255 =? T_EX) with false. cbv iota.
  destruct (read_int_eq 4 (zlen GENERIC_METHOD) _ b1 ltac:(lia) ltac:(done) Hb1)
    as (b2 & E2 & Hb2). rewrite E2, ret_bind. unfold malloc.
  change (u32 (zlen GENERIC_METHOD)) with 6. change (u32 (6 + 1)) with 7.
  rewrite alloc_total by lia.
  destruct (retrieveTo_eq 6 GENERIC_METHOD _ b2 7 Hb2 ltac:(done) ltac:(lia))
    as (b3 & E3 & Hb3). rewrite E3, ret_bind.
  exists b3. split; [done|]. reflexivity.
Qed.

(**  Replies.  A reply that carries its string as field 0 is accepted
    and yields the string, whatever its message type; any other reply that
    carries a string, a thrift exception (field 1) in particular, stops the
    process by an assertion: the test for [T_EX] never fires. *)
Theorem thrift_generic_unpack_reply type seq id resp rest b :
  0 <= type < 256 -> 0 <= id < 2 ^ 16 -> - 2 ^ 31 <= seq < 2 ^ 31 ->
  zlen resp < 2 ^ 32 - 1 -> holds (reply_image type seq id resp ++ rest) b ->
  (id = 0 -> returns (thrift_generic_unpack b) (fun r =>
     r.1 = (true, Some (resp ++ [0])) /\ holds rest r.2)) /\
  (id <> 0 -> thrift_generic_unpack b = AssertFail).
Proof.
  intros Ht Hid Hs Hl Hb. unfold reply_image in Hb. rewrite <- !app_assoc in Hb.
  destruct (thrift_unpack_head type seq _ b Ht Hb) as (b' & Hb' & ->).
  by apply unpack_resp_reply with (rest := rest) (seq := seq).
Qed.

(** ** The request header *)
Definition generic_msg (body_len : Z) (att : bytes) : nova_msg :=
  let head := NOVA_HEADER_COMMON_LEN + GENERIC_SERVICE_LEN + GENERIC_METHOD_LEN + zlen att in
  mkMsg (head + body_len) head 1 0 0 GENERIC_SERVICE GENERIC_METHOD 1 att.

Lemma dup_asserting_ok s r n : zlen s = n -> n < 2 ^ 62 -> dup_asserting (s ++ r) n = Ret (s ++ [0]).
Proof.
  intros Hn Hmax. zlen_facts. unfold dup_asserting. rewrite !wrapu_small, alloc_total by lia.
  cbn [c_assert]. by rewrite ret_bind, load_ptr_ok by done.
Qed.

Lemma create_nova_generic_ok att r :
  no_nul att -> zlen att <= 0x7fff - 99 ->
  exists h, create_nova_generic (att ++ [0] ++ r) = Ret (Some h) /\
    forall n, hdr_packs h (generic_msg n att).
Proof.
  intros Hn Hl. zlen_facts. unfold create_nova_generic, nova_hdr_create.
  rewrite alloc_total by done. cbn [c_assert]. rewrite !ret_bind, strlen_cstr, ret_bind by done.
  unfold NOVA_HEADER_COMMON_LEN, GENERIC_SERVICE_LEN, GENERIC_METHOD_LEN, sint.
  rewrite (wraps_small 32 (zlen att)) by lia.
  rewrite bool_decide_true by (unfold INT_MIN, INT_MAX; lia). rewrite ret_bind.
  destruct (Z.ltb_spec 32767 (37 + 56 + 6 + zlen att)); [lia|].
  rewrite (dup_asserting_ok GENERIC_SERVICE), ret_bind by (done || lia).
  rewrite (dup_asserting_ok GENERIC_METHOD), ret_bind by (done || lia).
  rewrite (dup_asserting_ok att), ret_bind by (done || lia).
  eexists. split; [reflexivity|]. intros n. unfold hdr_packs, generic_msg. simpl.
  rewrite wraps_small by lia. split_and!; try done. apply is_prefix_spec. eauto.
Qed.

Lemma create_nova_generic_large att r :
  no_nul att -> 0x7fff - 99 < zlen att < INT_MAX - 99 ->
  create_nova_generic (att ++ [0] ++ r) = Ret None.
Proof.
  intros Hn Hl. zlen_facts. unfold INT_MAX in Hl. unfold create_nova_generic, nova_hdr_create.
  rewrite alloc_total by done. cbn [c_assert]. rewrite !ret_bind, strlen_cstr, ret_bind by done.
  unfold NOVA_HEADER_COMMON_LEN, GENERIC_SERVICE_LEN, GENERIC_METHOD_LEN, sint.
  rewrite (wraps_small 32 (zlen att)) by lia.
  rewrite bool_decide_true by (unfold INT_MIN, INT_MAX; lia). rewrite ret_bind.
  by destruct (Z.ltb_spec 32767 (37 + 56 + 6 + zlen att)); [|lia].
Qed.
End generic_laws.
