(* ===== verification/Nova.v ===== *)
(** * The nova command-line client

    [nova_client/nova.c]: trimming and storing the command-line options, and
    [nova_invoke], which composes the codec of [NovaCodec], the thrift
    messages of [NovaGeneric], [socket_sendAllSync] of [Socket] and
    [buf_readFd] of [Buffer] into one request and reply.  The socket is a
    script of answers.  The JSON check of the arguments and the printing of
    the reply (cJSON) are not modelled: [nova_invoke] stops where it has the
    header and the JSON text of the reply. *)

From stdpp Require Import base tactics numbers list option strings sets.
From Stdlib Require Import Lia.
From S2P Require Import Prelude ByteBuf Buffer Stream Cli Socket NovaCodec NovaGeneric.

(** ** Options *)
Record globalArgs_t := mkArgs {
  host : option bytes;
  port_ : option bytes;
  service : option bytes;
  method : option bytes;
  args : option bytes;
  attach_ : option bytes;
  timeout_sec : Z
}.

(** One round of the [switch]; [None]: the process printed the usage and
    exited. *)
Definition main_opt (g : globalArgs_t) (opt : Z) (optarg : option bytes)
  : outcome (option globalArgs_t) :=
  let optarg := trim_opt optarg in
  if opt =? 115 (* s *) then
    Ret (Some (mkArgs (Some (default (str "127.0.0.1") (host g))) (port_ g)
      (Some (str "com.youzan.service.test")) (Some (str "stats")) (Some (str "{}"))
      (attach_ g) (timeout_sec g)))
  else if opt =? 104 (* h *) then
    Ret (Some (mkArgs optarg (port_ g) (service g) (method g) (args g) (attach_ g) (timeout_sec g)))
  else if opt =? 112 (* p *) then
    Ret (Some (mkArgs (host g) optarg (service g) (method g) (args g) (attach_ g) (timeout_sec g)))
  else if opt =? 109 (* m *) then
    let! s := deref optarg in
    match strrchr s 46 with
    | None => Ret None
    | Some service_len =>
      Ret (Some (mkArgs (host g) (port_ g) (Some (ztake service_len s))
        (Some (zdrop (service_len + 1) s)) (args g) (attach_ g) (timeout_sec g)))
    end
  else if opt =? 97 (* a *) then
    Ret (Some (mkArgs (host g) (port_ g) (service g) (method g) optarg (attach_ g) (timeout_sec g)))
  else if opt =? 101 (* e *) then
    Ret (Some (mkArgs (host g) (port_ g) (service g) (method g) (args g) optarg (timeout_sec g)))
  else if opt =? 116 (* t *) then
    let! s := deref optarg in
    let! n := atoi s in
    Ret (Some (mkArgs (host g) (port_ g) (service g) (method g) (args g) (attach_ g)
      (if 0 <? n then n else 5)))
  else if opt =? 63 (* ? *) then Ret None
  else Ret (Some g).

Fixpoint main_opts (g : globalArgs_t) (opts : list (Z * option bytes))
  : outcome (option globalArgs_t) :=
  match opts with
  | [] => Ret (Some g)
  | (o, a) :: opts =>
    let! g := main_opt g o a in
    match g with None => Ret None | Some g => main_opts g opts end
  end.

(** [main] up to the JSON checks. *)
Definition main (opts : list (Z * option bytes)) : outcome (option globalArgs_t) :=
  let! g := main_opts (mkArgs None None None None None (Some (str "{}")) 5) opts in
  match g with
  | None => Ret None
  | Some g =>
    match host g, port_ g with
    | None, _ | _, None => Ret None
    | Some _, Some p =>
      let! n := atoi p in
      if n <=? 0 then Ret None else
      match service g, method g, args g with
      | Some _, Some _, Some _ => Ret (Some g)
      | _, _, _ => Ret None
      end
    end
  end.

(** ** One call *)
Record env := mkEnv {
  connected : bool;
  sends : list send_answer;
  readvs : list (list Z -> Z * bytes)
}.

Section invoke.
Context `{Allocator}.

(** The first [for (;;)]: [None] is [goto fail]; otherwise the buffer,
    [errno_] and the answers left. *)
Fixpoint recv_first (rs : list (list Z -> Z * bytes)) (b : buffer) (errno_ : Z)
  : outcome (option (buffer * Z * list (list Z -> Z * bytes))) :=
  match rs with
  | [] => OutOfFuel
  | r :: rs =>
    let! (recv_n, e, b) := buf_readFd r b in
    let errno_ := default errno_ e in
    if recv_n <? 0 then
      if errno_ =? EINTR then recv_first rs b errno_ else Ret None
    else if recv_n <? 4 then Ret None
    else Ret (Some (b, errno_, rs))
  end.

(** [while (buf_readable(nova_buf) < msg_size)]. *)
Fixpoint recv_rest (rs : list (list Z -> Z * bytes)) (b : buffer) (errno_ msg : Z)
  : outcome (option buffer) :=
  if buf_readable b <? u64 msg then
    match rs with
    | [] => OutOfFuel
    | r :: rs =>
      let! (recv_n, e, b) := buf_readFd r b in
      let errno_ := default errno_ e in
      if recv_n <? 0 then
        if errno_ =? EINTR then recv_rest rs b errno_ msg else Ret None
      else recv_rest rs b errno_ msg
    end
  else Ret (Some b).

(** From [buf_retrieveAll] on: the reply's header and JSON text. *)
Definition receive_reply (rs : list (list Z -> Z * bytes)) (b : buffer)
  : outcome (option (nova_hdr * bytes)) :=
  let! f := recv_first rs (buf_retrieveAll b) 0 in
  match f with
  | None => Ret None
  | Some (b, errno_, rs) =>
    let! msg := peekInt32 b in
    if msg <=? 0 then Ret None else
    if 1024 * 1024 * 2 <? msg then Ret None else
    let! w := recv_rest rs b errno_ msg in
    match w with
    | None => Ret None
    | Some b =>
      let! p := bb_peek b (bb_readable b) in
      let! ok := nova_detect p (bb_readable b) in
      if negb ok then Ret None else
      let! hdr := nova_hdr_create in
      let! (ok, hdr, b) := nova_unpack b hdr in
      if negb ok then Ret None else
      let! (ok, resp_json, b) := thrift_generic_unpack b in
      if negb ok then Ret None else
      let! json := deref resp_json in
      Ret (Some (hdr, json))
    end
  end.

(** The bytes put on the wire and the reply ([None]: [goto fail]).  The
    arguments are blocks that hold C strings. *)
Definition nova_invoke (serv mth arg att : bytes) (e : env)
  : outcome (bytes * option (nova_hdr * bytes)) :=
  let! ohdr := create_nova_generic att in
  let! obuf := bb_create (B := buffer) 1024 cheap_prepend in
  let! sl := strlen serv in
  let! ml := strlen mth in
  let! al := strlen arg in
  let! generic_buf := thrift_generic_pack (B := buffer) 0 serv (s32 sl) mth (s32 ml) arg (s32 al) in
  let! nova_buf := deref obuf in
  let! nova_hdr := deref ohdr in
  let! body := bb_peek generic_buf (bb_readable generic_buf) in
  let! nova_buf := nova_pack nova_buf nova_hdr body in
  if negb (connected e) then Ret ([], None) else
  let! data := bb_peek nova_buf (bb_readable nova_buf) in
  let! (send_n, wire, rest) := socket_sendAllSync (sends e) data (bb_readable nova_buf) in
  if negb (send_n =? bb_readable nova_buf) then Ret (wire, None) else
  let! reply := receive_reply (readvs e) nova_buf in
  Ret (wire, reply).
End invoke.

(** Option -m: the argument, stripped of leading blanks and [=] and of
    trailing blanks, is split at its last dot into service and method; without
    a dot the process exits with the usage. *)
Theorem main_opt_method g s svc mth :
  (trim_spec s = svc ++ 46 :: mth -> 46 ∉ mth ->
   main_opt g 109 (Some s) = Ret (Some (mkArgs (host g) (port_ g) (Some svc) (Some mth)
     (args g) (attach_ g) (timeout_sec g)))) /\
  (46 ∉ trim_spec s -> main_opt g 109 (Some s) = Ret None).
Proof.
  unfold main_opt. rewrite trim_opt_spec. simpl. split.
  - intros -> Hm. rewrite strrchr_Some by done. do 5 f_equal.
    + by rewrite ztake_app_exact.
    + f_equal. change (46 :: mth) with ([46] ++ mth).
      by rewrite (app_assoc svc [46] mth), zdrop_app_exact by zlia.
  - intros Hs. by rewrite strrchr_None.
Qed.

Lemma main_opt_method_witness :
  main_opt (mkArgs None None None None None None 5) 109 (Some (str "= a.b.get ")) =
    Ret (Some (mkArgs None None (Some (str "a.b")) (Some (str "get")) None None 5)).
Proof.
  apply (main_opt_method (mkArgs None None None None None None 5) (str "= a.b.get ")
           (str "a.b") (str "get")); [reflexivity|vm_decide].
Defined.

(** ** The call *)

Section invoke_laws.
Context `{AllocTotal}.
Implicit Types (b : buffer) (l d : bytes) (chunks : list bytes).

Lemma recv_rest_ok chunks l room b errno_ msg :
  writes l room b -> chunks_ok chunks -> zlen (concat chunks) + extrabuf_sz <= room ->
  zlen (l ++ concat chunks) = msg -> msg < 2 ^ 31 ->
  exists b', recv_rest (map deliver chunks) b errno_ msg = Ret (Some b') /\
    writes (l ++ concat chunks) extrabuf_sz b'.
Proof.
  revert l room b. induction chunks as [|d chunks IH]; intros l room b Hw Hc Hroom Hm Hmax;
    cbn [map recv_rest concat] in *; zlen_facts;
    rewrite (writes_readable l room b) by done; rewrite wrapu_small by zlia.
  - rewrite app_nil_r in *. destruct (Z.ltb_spec (zlen l) msg); [lia|].
    exists b. split; [done|]. destruct Hw as (? & ? & ? & ?). refine (conj _ (conj _ (conj _ _))); auto.
    rewrite zlen_nil in *. lia.
  - apply Forall_cons in Hc as [[Hd Hl] Hc].
    rewrite zlen_app in Hroom. zlen_facts.
    destruct (Z.ltb_spec (zlen l) msg).
    + destruct (read_chunk l room b d) as (b1 & -> & Hw1); [done|lia|done|done|].
      rewrite ret_bind. destruct (Z.ltb_spec (zlen d) 0); [lia|].
      rewrite (app_assoc l). eapply IH; [exact Hw1|done|lia| |done].
      by rewrite <- app_assoc.
    + exists b. split; [done|]. destruct Hw as (? & ? & Hc' & ?).
      assert (d ++ concat chunks = []) as -> by (apply zlen_nil_inv; zlia).
      rewrite app_nil_r. refine (conj _ (conj _ (conj _ _))); auto. lia.
Qed.

(** The client does not survive a peer that closes early: while a
    packet is incomplete it goes on reading for ever, whatever the number
    of reads that find the end of the stream. *)
Theorem recv_rest_spins_on_eof n l room b errno_ msg :
  writes l room b -> extrabuf_sz <= room -> zlen l < msg < 2 ^ 31 ->
  recv_rest (replicate n eof) b errno_ msg = OutOfFuel.
Proof.
  revert b room. induction n as [|n IH]; intros b room Hw Hroom Hm;
    cbn [replicate recv_rest]; zlen_facts;
    rewrite (writes_readable l room b) by done; rewrite wrapu_small by lia;
    (destruct (Z.ltb_spec (zlen l) msg); [|lia]); [done|].
  destruct (read_chunk l room b []) as (b1 & E & Hw1); [done|done|vm_decide|done|].
  change (buf_readFd eof b) with (buf_readFd (deliver []) b). rewrite E, ret_bind. rewrite app_nil_r, zlen_nil, Z.sub_0_r in Hw1. simpl.
  by apply (IH _ room).
Qed.

(** A well-formed reply: the packet [m] around the string reply [json]. *)
Definition reply_packet (m : nova_msg) (type seq : Z) (json : bytes) : bytes :=
  nova_image m ++ reply_image type seq 0 json.

Definition reply_ok (m : nova_msg) (type seq : Z) (json : bytes) : Prop :=
  nova_msg_ok m /\ all_bytes json /\ 0 <= type < 256 /\ - 2 ^ 31 <= seq < 2 ^ 31 /\
  zlen (reply_packet m type seq json) = m_size m /\ m_size m <= 1024 * 1024 * 2.

Lemma zlen_reply_image type seq id resp : zlen (reply_image type seq id resp) = 26 + zlen resp.
Proof.
  unfold reply_image, msg_head, string_field. zlen_facts. autorewrite with zlist.
  change (zlen GENERIC_METHOD) with 6. lia.
Qed.

Lemma nova_image_size m : exists t, nova_image m = be_bytes 4 (m_size m) ++ t.
Proof. unfold nova_image. eauto. Qed.

Lemma nova_detect_image m r : nova_detect (nova_image m ++ r) (zlen (nova_image m ++ r)) = Ret true.
Proof.
  unfold nova_detect. zlen_facts. rewrite zlen_app, zlen_nova_image in *.
  unfold NOVA_HEADER_COMMON_LEN in *.
  destruct (Z.ltb_spec (37 + zlen (m_service m) + zlen (m_method m) + zlen (m_attach m) + zlen r) 37);
    [zlia|].
  unfold nova_image. rewrite <- !app_assoc, mem_read_ok by zlia.
  by rewrite slice_app_exact by zlia.
Qed.

(** Parsing the complete packet. *)
Lemma parse_reply m type seq json b room :
  reply_ok m type seq json -> writes (reply_packet m type seq json) room b ->
  exists h, h = hdr_of m 0 /\
  (let! p := bb_peek b (bb_readable b) in
   let! ok := nova_detect p (bb_readable b) in
   if negb ok then Ret None else
   let! hdr := nova_hdr_create in
   let! (ok, hdr, b) := nova_unpack b hdr in
   if negb ok then Ret None else
   let! (ok, resp_json, b) := thrift_generic_unpack b in
   if negb ok then Ret None else
   let! json := deref resp_json in
   Ret (Some (hdr, json))) = Ret (Some (h, json ++ [0])).
Proof.
  intros (Hm & Hj & Ht & Hs & Hz & Hmax) (Hi & _ & Hc & _). exists (hdr_of m 0). split; [done|].
  unfold reply_packet in *. set (r := reply_image type seq 0 json) in *.
  assert (zlen r = 26 + zlen json) as Hr by apply zlen_reply_image. zlen_facts.
  rewrite bb_readable_spec, Hc, bb_peek_spec, Hc by (done || rewrite Hc; lia).
  rewrite ret_bind, ztake_all, nova_detect_image, ret_bind by lia. simpl negb. cbv iota.
  unfold nova_hdr_create. rewrite alloc_total by done. cbn [c_assert]. rewrite !ret_bind.
  destruct (nova_unpack_complete m b (mkHdr 0 0 0 0 0 0 0 None 0 None 0 0 None) r)
    as ([[ok h] b1] & -> & [= -> ->] & Hb1); [done| |by split|].
  { destruct Hm as [[Hlo _] _]. lia. }
  rewrite ret_bind. simpl negb. cbv iota.
  assert (holds (msg_head type seq GENERIC_METHOD ++
            string_field 0 json ++ be_bytes 1 FIELD_STOP) b1) as Hb1' by exact Hb1.
  destruct (thrift_unpack_head type seq _ b1 Ht Hb1') as (b2 & Hb2 & ->).
  destruct (unpack_resp_reply seq 0 json [] b2) as [Hok _]; [lia|done| |by rewrite app_nil_r|].
  { rewrite zlen_app, zlen_nova_image in Hz. unfold NOVA_HEADER_COMMON_LEN in Hz. zlia. }
  destruct (Hok eq_refl) as ([[ok o] b3] & -> & [= -> ->] & _). reflexivity.
Qed.

(** However the reply is cut into pieces (the first has its length). *)
Lemma receive_reply_ok m type seq json l0 b c chunks :
  reply_ok m type seq json -> chunks_ok (c :: chunks) ->
  concat (c :: chunks) = reply_packet m type seq json -> 4 <= zlen c ->
  writes l0 (2 ^ 40) b ->
  receive_reply (map deliver (c :: chunks)) b = Ret (Some (hdr_of m 0, json ++ [0])).
Proof.
  intros Hok [[Hcb Hcl] Hcs]%Forall_cons Hcat Hc4 (Hi & Ho & Hc & Hr).
  pose proof Hok as (Hm & Hj & Ht & Hs & Hz & Hmax). cbn [concat] in Hcat.
  assert (writes [] (2 ^ 40) (buf_retrieveAll b)) as Hw.
  { destruct (bb_retrieveAll_spec b Hi) as (? & ? & ? & E & _).
    refine (conj _ (conj _ (conj _ _))); auto. }
  rewrite <- Hcat, zlen_app in Hz. zlen_facts.
  assert (extrabuf_sz <= 2 ^ 40) by (unfold extrabuf_sz; lia).
  unfold receive_reply. cbn [map recv_first].
  destruct (read_chunk [] (2 ^ 40) (buf_retrieveAll b) c) as (b1 & -> & Hw1); [done|done|done|done|].
  rewrite ret_bind. simpl default.
  destruct (Z.ltb_spec (zlen c) 0); [lia|]. destruct (Z.ltb_spec (zlen c) 4); [lia|].
  rewrite ret_bind. rewrite app_nil_l in Hw1.
  (* the length word is in the first piece *)
  destruct (nova_image_size m) as [t Et].
  destruct (split_at 4 c) as (w & c' & -> & Hw4); [lia|].
  assert (w = be_bytes 4 (m_size m)) as ->.
  { unfold reply_packet in Hcat. rewrite Et, <- !app_assoc in Hcat.
    assert (zlen w = zlen (be_bytes 4 (m_size m))) as Hwl by zlia.
    apply app_inj_1 in Hcat; [exact (proj1 Hcat)|unfold zlen in Hwl; lia]. }
  destruct Hm as [[Hlo Hhi] _]. unfold INT_MAX in Hhi. unfold NOVA_HEADER_COMMON_LEN in Hlo.
  unfold peekInt32. rewrite (holds_peek_int 4 (m_size m) c');
    [|lia|lia|by destruct Hw1 as (? & _ & ? & _)].
  rewrite ret_bind. destruct (Z.leb_spec (m_size m) 0); [lia|].
  destruct (Z.ltb_spec (1024 * 1024 * 2) (m_size m)); [lia|].
  destruct (recv_rest_ok chunks (be_bytes 4 (m_size m) ++ c') (2 ^ 40 - zlen (be_bytes 4 (m_size m) ++ c'))
    b1 0 (m_size m)) as (b2 & -> & Hw2);
    [done|done|unfold extrabuf_sz in *; lia|rewrite zlen_app; lia|lia|].
  rewrite ret_bind, Hcat in *.
  destruct (parse_reply m type seq json b2 extrabuf_sz Hok Hw2) as (h & -> & E). exact E.
Qed.

(** A first read of fewer than four bytes is taken for a failure. *)
Lemma receive_reply_short l0 b c chunks :
  chunks_ok (c :: chunks) -> zlen c < 4 -> writes l0 (2 ^ 40) b ->
  receive_reply (map deliver (c :: chunks)) b = Ret None.
Proof.
  intros [[Hcb Hcl] _]%Forall_cons Hc4 (Hi & Ho & Hc & Hr).
  assert (writes [] (2 ^ 40) (buf_retrieveAll b)) as Hw.
  { destruct (bb_retrieveAll_spec b Hi) as (? & ? & ? & E & _).
    refine (conj _ (conj _ (conj _ _))); auto. }
  assert (extrabuf_sz <= 2 ^ 40) by (unfold extrabuf_sz; lia). zlen_facts.
  unfold receive_reply. cbn [map recv_first].
  destruct (read_chunk [] (2 ^ 40) (buf_retrieveAll b) c) as (b1 & -> & _); [done..|].
  rewrite ret_bind. destruct (Z.ltb_spec (zlen c) 0); [lia|]. destruct (Z.ltb_spec (zlen c) 4); [|lia].
  by rewrite ret_bind.
Qed.

(** C2.  One call, end to end: the request on the wire is the nova packet
    around the thrift call with the given service, method, arguments and
    attachment, however [send] splits it; and a well-formed reply that arrives
    in reads of at most 65535 bytes each ([extrabuf_sz]) yields its header and
    JSON text when the first read brings at least four bytes, and makes the
    call fail when it brings fewer (nova.c tests the result of the first
    [readv] against 4). *)
Theorem nova_invoke_ok serv mth arg att ss c chunks m type seq json :
  let body := call_image 0 serv mth arg in
  let request := nova_image (generic_msg (zlen body) att) ++ body in
  no_nul serv -> no_nul mth -> no_nul arg -> no_nul att ->
  all_bytes serv -> all_bytes mth -> all_bytes arg -> all_bytes att ->
  zlen att <= 0x7fff - 99 -> zlen body < 2 ^ 30 ->
  send_answers (zlen request) ss -> taken (zlen request) ss = zlen request ->
  reply_ok m type seq json -> chunks_ok (c :: chunks) ->
  concat (c :: chunks) = reply_packet m type seq json ->
  nova_invoke (serv ++ [0]) (mth ++ [0]) (arg ++ [0]) (att ++ [0])
    (mkEnv true ss (map deliver (c :: chunks)))
  = Ret (request, if zlen c <? 4 then None else Some (hdr_of m 0, json ++ [0])).
Proof.
  intros body request Ns Nm Na Nt Bs Bm Ba Bt Hatt Hbody Hss Htk Hrep Hch Hcat.
  assert (zlen body = GENERIC_COMMON_LEN + zlen serv + zlen mth + zlen arg) as Hbl
    by apply zlen_call_image.
  unfold GENERIC_COMMON_LEN in Hbl. zlen_facts. unfold nova_invoke.
  destruct (create_nova_generic_ok att [] Nt Hatt) as (h & Eh & Hpack).
  rewrite app_nil_r in Eh. rewrite Eh, ret_bind.
  destruct (bb_create_spec (B := buffer) 1024 cheap_prepend)
    as (ob & -> & b & -> & Hi & Ho & Hc & Hr & _); [unfold cheap_prepend; lia..|].
  rewrite ret_bind. pose proof (fun s => strlen_cstr s []) as Hsl. rewrite app_nil_r in Hsl.
  rewrite !Hsl, !ret_bind by done. rewrite !wraps_small by lia.
  destruct (thrift_generic_pack_ok (B := buffer) 0 serv mth arg [0] [0] [0])
    as (gb & -> & Hgi & Hgc & _); [done..|unfold GENERIC_COMMON_LEN, INT_MAX; lia|].
  rewrite ret_bind. cbn [deref]. rewrite !ret_bind.
  rewrite (bb_readable_spec gb), Hgc, bb_peek_spec, Hgc, ret_bind by (done || rewrite Hgc; fold body; lia).
  fold body. rewrite ztake_all by lia.
  assert (nova_msg_ok (generic_msg (zlen body) att)) as Hmok.
  { assert (field_ok GENERIC_SERVICE) by vm_decide. assert (field_ok GENERIC_METHOD) by vm_decide.
    unfold nova_msg_ok, generic_msg, NOVA_HEADER_COMMON_LEN, GENERIC_SERVICE_LEN, GENERIC_METHOD_LEN,
      INT_MAX; simpl. split_and!; try done; try lia. split; [done|]. unfold INT_MAX. lia. }
  assert (zlen request = 99 + zlen att + zlen body) as Hrl.
  { unfold request. rewrite zlen_app, zlen_nova_image. unfold NOVA_HEADER_COMMON_LEN. simpl.
    change (zlen GENERIC_SERVICE) with 56. change (zlen GENERIC_METHOD) with 6. lia. }
  assert (all_bytes body) as Hbb by (unfold body; rewrite <- Hgc; by apply bb_contents_bytes).
  destruct (nova_pack_writes h (generic_msg (zlen body) att) b [] (2 ^ 41) body)
    as (nb & -> & Hw); [done|by apply Hpack|done|done| |fold request; lia|].
  { refine (conj Hi (conj Ho (conj Hc _))). unfold cheap_prepend in Hr. lia. }
  rewrite ret_bind, app_nil_l in *. fold request in Hw. cbn [connected negb].
  destruct Hw as (Hni & Hno & Hnc & Hnr).
  rewrite !(bb_readable_spec nb), Hnc, bb_peek_spec, Hnc, ret_bind by (done || rewrite Hnc; lia).
  rewrite ztake_all by lia. cbn [sends readvs].
  destruct (sendAll_ok ss request (zlen request)) as (r & E & Er); [lia|lia|done|].
  rewrite E. destruct r as [[n wire] rest]. cbn [fst snd] in Er. injection Er as -> ->.
  rewrite Htk, ret_bind, ztake_all by lia. rewrite Z.eqb_refl. simpl negb. cbv iota.
  assert (writes request (2 ^ 40) nb) as Hnw by (refine (conj Hni (conj Hno (conj Hnc _))); lia).
  destruct (Z.ltb_spec (zlen c) 4).
  - by erewrite receive_reply_short, ret_bind.
  - by erewrite receive_reply_ok, ret_bind.
Qed.
End invoke_laws.

(** ** Concrete calls *)
Section examples.
#[local] Existing Instances big_alloc big_alloc_total.

Lemma fresh_writes : writes [] (2 ^ 40) fresh_buffer.
Proof.
  refine (conj (_ : buf_inv _) (conj (_ : buf_open _) (conj _ _))); [vm_decide|vm_decide|done|].
  change (2 ^ 40 <= buf_room fresh_buffer). vm_decide.
Qed.

(** The header of a "stats" request and a body of three bytes. *)
Definition demo_msg : nova_msg :=
  mkMsg 46 43 1 0x7f000001 8050 (str "svc") (str "go") 7 (str "{}").
Definition demo_hdr : nova_hdr :=
  mkHdr 0 NOVA_MAGIC 43 1 0x7f000001 8050 3 (Some (str "svc")) 2 (Some (str "gone")) 7 2 (Some (str "{}")).
Definition zero_hdr : nova_hdr := mkHdr 0 0 0 0 0 0 0 None 0 None 0 0 None.

Lemma nova_unpack_pack_witness :
  returns (nova_pack fresh_buffer demo_hdr (str "abc")) (fun b1 =>
    (let! p := bb_peek b1 (bb_readable b1) in nova_detect p (bb_readable b1)) = Ret true /\
    returns (nova_unpack b1 zero_hdr) (fun r =>
      r.1 = (true, hdr_of demo_msg 0) /\ holds (str "abc") (r.2))).
Proof.
  refine (nova_unpack_pack demo_hdr demo_msg (str "abc") fresh_buffer (2 ^ 40) zero_hdr
            _ _ _ _ _ fresh_writes); vm_decide.
Defined.

(** A buffer that holds the packet and one byte more. *)
Definition packet_buffer : buffer :=
  let l := nova_image demo_msg ++ [33] in mkBuffer 0 (zlen l) (zlen l) 0 l 0 None None.

Lemma nova_unpack_sound_witness :
  exists h' b', nova_unpack packet_buffer zero_hdr = Ret (true, h', b') /\
  exists m, nova_msg_ok m /\ h' = hdr_of m (magic zero_hdr) /\
    bb_contents packet_buffer = nova_image m ++ bb_contents b'.
Proof.
  assert (exists h' b', nova_unpack packet_buffer zero_hdr = Ret (true, h', b')) as (h' & b' & E).
  { vm_compute. eexists _, _. reflexivity. }
  exists h', b'. split; [exact E|].
  refine (nova_unpack_sound packet_buffer zero_hdr h' b' (_ : buf_inv _) E). vm_decide.
Defined.

Lemma thrift_generic_pack_exact_witness :
  returns (thrift_generic_pack (B := buffer) 0 (str "a.b" ++ [0]) (zlen (str "a.b"))
             (str "get" ++ [0]) (zlen (str "get")) (str "{}" ++ [0]) (zlen (str "{}")))
    (fun b => bb_inv b /\ bb_contents b = call_image 0 (str "a.b") (str "get") (str "{}") /\
              bb_writable b = 0).
Proof. apply (thrift_generic_pack_exact (B := buffer)); vm_decide. Defined.

(** A thrift exception reply: message type 3, the text in field 1. *)
Definition exception_buffer : buffer :=
  let l := reply_image T_EX 0 1 (str "oops") in mkBuffer 0 (zlen l) (zlen l) 0 l 0 None None.

Lemma thrift_generic_unpack_reply_witness :
  thrift_generic_unpack exception_buffer = AssertFail.
Proof.
  refine (proj2 (thrift_generic_unpack_reply T_EX 0 1 (str "oops") [] exception_buffer
            _ _ _ _ (conj (_ : buf_inv _) _)) _); try vm_decide; reflexivity.
Defined.

Lemma recv_rest_spins_on_eof_witness :
  recv_rest (replicate 1000 eof) fresh_buffer 0 100 = OutOfFuel.
Proof.
  refine (recv_rest_spins_on_eof 1000 [] (2 ^ 40) fresh_buffer 0 100 fresh_writes _ _);
    vm_decide.
Defined.

Definition demo_reply : nova_msg :=
  mkMsg 72 44 1 0 0 (str "svc") (str "go") 1 (str "{}").

Lemma nova_invoke_ok_witness :
  exists request,
  nova_invoke (str "a.b" ++ [0]) (str "get" ++ [0]) (str "{}" ++ [0]) (str "{}" ++ [0])
    (mkEnv true [Sent 100; SendFailed EINTR; Sent 53]
       (map deliver [ztake 40 (reply_packet demo_reply T_REPLY 0 (str "{}"));
                     zdrop 40 (reply_packet demo_reply T_REPLY 0 (str "{}"))]))
  = Ret (request, Some (hdr_of demo_reply 0, str "{}" ++ [0])).
Proof.
  eexists.
  refine (nova_invoke_ok (str "a.b") (str "get") (str "{}") (str "{}")
    [Sent 100; SendFailed EINTR; Sent 53] (ztake 40 (reply_packet demo_reply T_REPLY 0 (str "{}")))
    [zdrop 40 (reply_packet demo_reply T_REPLY 0 (str "{}"))] demo_reply T_REPLY 0 (str "{}")
    _ _ _ _ _ _ _ _ _ _ _ _ _ _ _); unfold reply_ok, chunks_ok; try vm_decide; reflexivity.
Defined.
End examples.
