(* ===== verification/Utf8.v ===== *)
(** * The strict UTF-8 decoder

    [base/utf8_decode.c]: a decoder with its position in static variables,
    here a state record.  The specification is the encoding of a Unicode
    scalar value, [enc]: the decoder yields a character exactly when the
    input continues with its encoding. *)

From stdpp Require Import base tactics numbers list option.
From Stdlib Require Import Lia.
From S2P Require Import Prelude.

Definition UTF8_END : Z := -1.
Definition UTF8_ERROR : Z := -2.

(** The static variables; [the_input] is the block it points to. *)
Record utf8_state := mkUtf8 {
  the_index : Z;
  the_length : Z;
  the_char : Z;
  the_byte : Z;
  the_input : bytes
}.

Definition get (st : utf8_state) : outcome (Z * utf8_state) :=
  if the_length st <=? the_index st then Ret (UTF8_END, st) else
  let! x := deref (znth (the_input st) (the_index st)) in
  Ret (Z.land x 0xff,
       mkUtf8 (the_index st + 1) (the_length st) (the_char st) (the_byte st) (the_input st)).

Definition cont (st : utf8_state) : outcome (Z * utf8_state) :=
  let! (c, st) := get st in
  Ret (if Z.land c 0xc0 =? 0x80 then Z.land c 0x3f else UTF8_ERROR, st).

Definition utf8_decode_init (p : bytes) (length : Z) : utf8_state := mkUtf8 0 length 0 0 p.

Definition utf8_decode_at_byte (st : utf8_state) : Z := the_byte st.
Definition utf8_decode_at_character (st : utf8_state) : Z :=
  if 0 <? the_char st then the_char st - 1 else 0.

Definition utf8_decode_next (st : utf8_state) : outcome (Z * utf8_state) :=
  if the_length st <=? the_index st
  then Ret (if the_index st =? the_length st then UTF8_END else UTF8_ERROR, st) else
  let st := mkUtf8 (the_index st) (the_length st) (the_char st + 1) (the_index st) (the_input st) in
  let! (c, st) := get st in
  if Z.land c 0x80 =? 0 then Ret (c, st) else
  if Z.land c 0xe0 =? 0xc0 then
    let! (c1, st) := cont st in
    let r := Z.lor (Z.shiftl (Z.land c 0x1f) 6) c1 in
    Ret (if (0 <=? c1) && (128 <=? r) then r else UTF8_ERROR, st)
  else if Z.land c 0xf0 =? 0xe0 then
    let! (c1, st) := cont st in
    let! (c2, st) := cont st in
    let r := Z.lor (Z.lor (Z.shiftl (Z.land c 0x0f) 12) (Z.shiftl c1 6)) c2 in
    Ret (if (0 <=? Z.lor c1 c2) && ((2048 <=? r) && ((r <? 55296) || (57343 <? r)))
         then r else UTF8_ERROR, st)
  else if Z.land c 0xf8 =? 0xf0 then
    let! (c1, st) := cont st in
    let! (c2, st) := cont st in
    let! (c3, st) := cont st in
    let r := Z.lor (Z.lor (Z.lor (Z.shiftl (Z.land c 0x07) 18) (Z.shiftl c1 12)) (Z.shiftl c2 6)) c3 in
    Ret (if (0 <=? Z.lor (Z.lor c1 c2) c3) && ((65536 <=? r) && (r <=? 1114111))
         then r else UTF8_ERROR, st)
  else Ret (UTF8_ERROR, st).

(** ** Specification *)
Definition scalar (c : Z) : Prop := 0 <= c <= 1114111 /\ ~ (55296 <= c <= 57343).

#[export] Instance scalar_dec c : Decision (scalar c).
Proof. unfold scalar. apply _. Defined.

(** The UTF-8 encoding of a scalar value. *)
Definition enc (c : Z) : bytes :=
  if c <? 128 then [c]
  else if c <? 2048 then [192 + c / 64; 128 + c mod 64]
  else if c <? 65536 then [224 + c / 4096; 128 + c / 64 mod 64; 128 + c mod 64]
  else [240 + c / 262144; 128 + c / 4096 mod 64; 128 + c / 64 mod 64; 128 + c mod 64].

(** ** Bit tests of bytes *)
Definition in_range (a b c : Z) : bool := (a <=? c) && (c <? b).

Record byte_facts (c : Z) : Prop := {
  bf_80 : (Z.land c 0x80 =? 0) = in_range 0 128 c;
  bf_e0 : (Z.land c 0xe0 =? 0xc0) = in_range 192 224 c;
  bf_f0 : (Z.land c 0xf0 =? 0xe0) = in_range 224 240 c;
  bf_f8 : (Z.land c 0xf8 =? 0xf0) = in_range 240 248 c;
  bf_c0 : (Z.land c 0xc0 =? 0x80) = in_range 128 192 c;
  bf_3f : Z.land c 0x3f = c mod 64;
  bf_1f : Z.land c 0x1f = c mod 32;
  bf_0f : Z.land c 0x0f = c mod 16;
  bf_07 : Z.land c 0x07 = c mod 8;
  bf_ff : Z.land c 0xff = c
}.

Lemma byte_bits c : is_byte c -> byte_facts c.
Proof.
  intros Hc. constructor; revert c Hc; apply (byte_forall _); vm_compute; reflexivity.
Qed.

(** Joining the payloads of two, three and four bytes. *)
Lemma join2 x y : 0 <= y < 64 -> Z.lor (Z.shiftl x 6) y = x * 64 + y.
Proof. intros. by rewrite lor_shiftl_add by lia. Qed.

Lemma join3 x y z :
  0 <= y < 64 -> 0 <= z < 64 ->
  Z.lor (Z.lor (Z.shiftl x 12) (Z.shiftl y 6)) z = x * 4096 + y * 64 + z.
Proof.
  intros. rewrite (Z.shiftl_mul_pow2 y) by lia.
  rewrite lor_shiftl_add by lia.
  replace (x * 2 ^ 12 + y * 2 ^ 6) with (Z.shiftl (x * 64 + y) 6)
    by (rewrite Z.shiftl_mul_pow2; lia).
  rewrite lor_shiftl_add by lia. lia.
Qed.

Lemma join4 w x y z :
  0 <= x < 64 -> 0 <= y < 64 -> 0 <= z < 64 ->
  Z.lor (Z.lor (Z.lor (Z.shiftl w 18) (Z.shiftl x 12)) (Z.shiftl y 6)) z
  = w * 262144 + x * 4096 + y * 64 + z.
Proof.
  intros. rewrite (Z.shiftl_mul_pow2 x) by lia. rewrite lor_shiftl_add by lia.
  replace (w * 2 ^ 18 + x * 2 ^ 12) with (Z.shiftl (w * 64 + x) 12)
    by (rewrite Z.shiftl_mul_pow2; lia).
  rewrite join3 by lia. lia.
Qed.

(** ** The state *)
Definition utf8_ok (st : utf8_state) : Prop :=
  0 <= the_index st <= the_length st /\ the_length st <= zlen (the_input st) /\
  all_bytes (ztake (the_length st) (the_input st)).

(** The text still to be decoded. *)
Definition rest (st : utf8_state) : bytes :=
  slice (the_index st) (the_length st - the_index st) (the_input st).

#[export] Instance utf8_ok_dec st : Decision (utf8_ok st).
Proof. unfold utf8_ok. apply _. Defined.

Lemma utf8_init_ok s r :
  all_bytes s -> utf8_ok (utf8_decode_init (s ++ r) (zlen s)) /\
  rest (utf8_decode_init (s ++ r) (zlen s)) = s.
Proof.
  intros. zlen_facts. split.
  - unfold utf8_ok. simpl. rewrite zlen_app, ztake_app_exact by done. split_and!; auto; zlia.
  - unfold rest. simpl. rewrite Z.sub_0_r. unfold slice. by rewrite zdrop_0, ztake_app_exact.
Qed.

Lemma rest_bytes st : utf8_ok st -> all_bytes (rest st).
Proof.
  intros (Hi & Hl & Hb). unfold rest, slice. replace (the_length st) with (the_index st + (the_length st - the_index st)) in Hb by lia.
  rewrite <- (ztake_zdrop (the_index st) (the_input st)), ztake_app_ge, all_bytes_app in Hb by zlia. destruct Hb as [_ Hb].
  by replace (the_index st + (the_length st - the_index st) - zlen (ztake (the_index st) (the_input st))) with (the_length st - the_index st) in Hb by zlia.
Qed.

Lemma zlen_rest st : utf8_ok st -> zlen (rest st) = the_length st - the_index st.
Proof. intros (? & ? & _). unfold rest. zlia. Qed.

Lemma get_nil st : utf8_ok st -> rest st = [] -> get st = Ret (UTF8_END, st).
Proof.
  intros Hok Hr. pose proof (zlen_rest st Hok) as Hl. rewrite Hr, zlen_nil in Hl.
  unfold get. by destruct (Z.leb_spec (the_length st) (the_index st)); [|lia].
Qed.

Lemma get_cons st x r :
  utf8_ok st -> rest st = x :: r ->
  exists st', get st = Ret (x, st') /\ utf8_ok st' /\ rest st' = r.
Proof.
  intros Hok Hr. pose proof (zlen_rest st Hok) as Hl. pose proof (rest_bytes st Hok) as Hb.
  rewrite Hr in Hl, Hb. rewrite zlen_cons in Hl. zlen_facts.
  destruct Hok as (Hi & Hlen & Hin). unfold get.
  destruct (Z.leb_spec (the_length st) (the_index st)); [lia|].
  destruct (split_slice (the_index st) (the_length st - the_index st) (the_input st))
    as (a & c & Hs & Ha & _); [lia..|]. unfold rest in Hr. rewrite Hr in Hs.
  assert (znth (the_input st) (the_index st) = Some x) as ->.
  { unfold znth. rewrite bool_decide_true by lia. rewrite Hs, <- Ha. unfold zlen.
    rewrite Nat2Z.id, lookup_app_r, Nat.sub_diag by lia. done. }
  cbn [deref]. rewrite ret_bind. apply all_bytes_cons in Hb as [Hx _].
  rewrite (bf_ff x (byte_bits x Hx)). eexists. split; [reflexivity|]. split.
  - unfold utf8_ok. simpl. split_and!; auto; lia.
  - unfold rest. simpl.
    replace (the_length st - (the_index st + 1)) with (the_length st - the_index st - 1) by lia.
    rewrite slice_advance, Hr by lia. reflexivity.
Qed.

(** A continuation byte and its payload. *)
Lemma cont_ok st y r :
  utf8_ok st -> rest st = y :: r -> 128 <= y < 192 ->
  exists st', cont st = Ret (y - 128, st') /\ utf8_ok st' /\ rest st' = r.
Proof.
  intros Hok Hr Hy. destruct (get_cons st y r Hok Hr) as (st' & E & Hok' & Hr').
  exists st'. unfold cont. rewrite E, ret_bind.
  assert (is_byte y) as Hb by (unfold is_byte; lia). pose proof (byte_bits y Hb) as F.
  rewrite (bf_c0 y F), (bf_3f y F). unfold in_range.
  destruct (Z.leb_spec 128 y); [|lia]. destruct (Z.ltb_spec y 192); [|lia]. simpl.
  split; [|done]. do 2 f_equal. symmetry. apply (Z.mod_unique _ _ 2); lia.
Qed.

(** What [cont] returns in general. *)
Lemma cont_inv st :
  utf8_ok st ->
  exists v st', cont st = Ret (v, st') /\ utf8_ok st' /\
    (v = UTF8_ERROR \/
     0 <= v < 64 /\ rest st = (128 + v) :: rest st').
Proof.
  intros Hok. destruct (rest st) as [|y r] eqn:Hr.
  - exists UTF8_ERROR, st. unfold cont. rewrite get_nil by done. auto.
  - destruct (get_cons st y r Hok Hr) as (st' & E & Hok' & Hr').
    pose proof (rest_bytes st Hok) as Hb. rewrite Hr in Hb. apply all_bytes_cons in Hb as [Hb _].
    destruct (decide (128 <= y < 192)) as [Hy|Hy].
    + destruct (cont_ok st y r Hok Hr Hy) as (st2 & E2 & Hok2 & Hr2).
      exists (y - 128), st2. split; [done|]. split; [done|]. right. split; [lia|].
      rewrite Hr2. f_equal. lia.
    + exists UTF8_ERROR, st'. unfold cont. rewrite E, ret_bind.
      rewrite (bf_c0 y (byte_bits y Hb)). unfold in_range.
      destruct (Z.leb_spec 128 y), (Z.ltb_spec y 192); simpl; try lia; auto.
Qed.

(** ** One character *)

(** Entering [utf8_decode_next] with text left. *)
Definition entered (st : utf8_state) : utf8_state :=
  mkUtf8 (the_index st) (the_length st) (the_char st + 1) (the_index st) (the_input st).

Lemma entered_ok st x r :
  utf8_ok st -> rest st = x :: r ->
  the_index st < the_length st /\ utf8_ok (entered st) /\ rest (entered st) = x :: r.
Proof.
  intros Hok Hr. pose proof (zlen_rest st Hok) as Hl. rewrite Hr, zlen_cons in Hl.
  zlen_facts. split; [lia|]. by split.
Qed.

#[local] Ltac Zify.zify_post_hook ::= Z.to_euclidean_division_equations.

(** Execute one [cont] on a continuation byte. *)
#[local] Tactic Notation "run_cont" ident(Hok) ident(Hr) "as" ident(Hok') ident(Hr') :=
  let st := fresh "st" in let E := fresh "E" in
  destruct (cont_ok _ _ _ Hok Hr) as (st & E & Hok' & Hr'); [lia|]; rewrite E, ret_bind.

(** The encoding of a scalar value is decoded to it. *)
Lemma decode_enc st c r :
  utf8_ok st -> scalar c -> rest st = enc c ++ r ->
  exists st', utf8_decode_next st = Ret (c, st') /\ utf8_ok st' /\ rest st' = r.
Proof.
  intros Hok [Hc Hsur] Hr. unfold enc in Hr.
  repeat case_match; cbn [app] in Hr;
    repeat match goal with
    | H : (_ <? _) = true |- _ => apply Z.ltb_lt in H
    | H : (_ <? _) = false |- _ => apply Z.ltb_ge in H
    end;
    destruct (entered_ok _ _ _ Hok Hr) as (Hlt & Hok1 & Hr1);
    destruct (get_cons _ _ _ Hok1 Hr1) as (st1 & E1 & Hok2 & Hr2);
    unfold utf8_decode_next;
    (destruct (Z.leb_spec (the_length st) (the_index st)); [lia|]); fold (entered st);
    rewrite E1, ret_bind;
    match type of Hr1 with _ = ?x :: _ =>
      pose proof (byte_bits x ltac:(unfold is_byte; lia)) as F end;
    rewrite ?(bf_80 _ F), ?(bf_e0 _ F), ?(bf_f0 _ F), ?(bf_f8 _ F); unfold in_range.
  - decide_tests. eauto.
  - decide_tests. run_cont Hok2 Hr2 as Hok3 Hr3.
    rewrite (bf_1f _ F), join2 by lia. decide_tests. eexists. split; [|done].
    do 2 f_equal. lia.
  - decide_tests. run_cont Hok2 Hr2 as Hok3 Hr3. run_cont Hok3 Hr3 as Hok4 Hr4.
    rewrite (bf_0f _ F), join3 by lia. rewrite (proj2 (Z.leb_le _ _)) by (apply Z.lor_nonneg; lia).
    decide_tests; eexists; (split; [|done]); do 2 f_equal; lia.
  - decide_tests. run_cont Hok2 Hr2 as Hok3 Hr3. run_cont Hok3 Hr3 as Hok4 Hr4. run_cont Hok4 Hr4 as Hok5 Hr5.
    rewrite (bf_07 _ F), join4 by lia.
    rewrite (proj2 (Z.leb_le _ _)) by (rewrite !Z.lor_nonneg; lia).
    decide_tests. eexists. split; [|done]. do 2 f_equal. lia.
Qed.

(** A character the decoder returns is the scalar value encoded there. *)
Lemma decode_inv st x r :
  utf8_ok st -> rest st = x :: r ->
  exists c st', utf8_decode_next st = Ret (c, st') /\ utf8_ok st' /\
    (c = UTF8_ERROR \/ scalar c /\ rest st = enc c ++ rest st').
Proof.
  intros Hok Hr.
  destruct (entered_ok _ _ _ Hok Hr) as (Hlt & Hok1 & Hr1).
  destruct (get_cons _ _ _ Hok1 Hr1) as (st1 & E1 & Hok2 & Hr2).
  pose proof (rest_bytes st Hok) as Hb. rewrite Hr in Hb. apply all_bytes_cons in Hb as [Hx _].
  pose proof (byte_bits x Hx) as F. unfold is_byte in Hx.
  unfold utf8_decode_next. destruct (Z.leb_spec (the_length st) (the_index st)); [lia|].
  fold (entered st). rewrite E1, ret_bind.
  rewrite (bf_80 _ F), (bf_e0 _ F), (bf_f0 _ F), (bf_f8 _ F), Hr, <- Hr2.
  rewrite (bf_1f _ F), (bf_0f _ F), (bf_07 _ F). unfold in_range. clear Hr Hr1 Hr2 F.
  destruct (Z.ltb_spec x 128); [|destruct (Z.ltb_spec x 192); [|destruct (Z.ltb_spec x 224);
    [|destruct (Z.ltb_spec x 240); [|destruct (Z.ltb_spec x 248)]]]]; decide_tests.
  - exists x, st1. split_and!; auto. right. split; [unfold scalar; lia|].
    unfold enc. by decide_tests.
  - exists UTF8_ERROR, st1. auto.
  - destruct (cont_inv st1 Hok2) as (c1 & st2 & E2 & Hok3 & G2). rewrite E2, ret_bind.
    eexists _, st2. split; [reflexivity|]. split; [done|].
    destruct G2 as [-> | [Hc1 G2]]; [by left|].
    rewrite join2 by lia. decide_tests; try (by left). right.
    split; [unfold scalar; lia|]. unfold enc. decide_tests. rewrite G2. cbn [app]. repeat f_equal; lia.
  - destruct (cont_inv st1 Hok2) as (c1 & st2 & E2 & Hok3 & G2). rewrite E2, ret_bind.
    destruct (cont_inv st2 Hok3) as (c2 & st3 & E3 & Hok4 & G3). rewrite E3, ret_bind.
    eexists _, st3. split; [reflexivity|]. split; [done|].
    destruct (Z.leb_spec 0 (Z.lor c1 c2)) as [Hn|Hn]; [|by left]. apply Z.lor_nonneg in Hn.
    destruct G2 as [-> | [Hc1 G2]]; [unfold UTF8_ERROR in Hn; lia|].
    destruct G3 as [-> | [Hc2 G3]]; [unfold UTF8_ERROR in Hn; lia|].
    rewrite join3 by lia. cbn [andb]. case_match eqn:Ht; [|by left]. right.
    assert (2048 <= x mod 16 * 4096 + c1 * 64 + c2 /\
      ~ (55296 <= x mod 16 * 4096 + c1 * 64 + c2 <= 57343)) as [? ?] by lia.
    clear Ht. split; [unfold scalar; lia|]. unfold enc. decide_tests.
    rewrite G2, G3. cbn [app]. repeat f_equal; lia.
  - destruct (cont_inv st1 Hok2) as (c1 & st2 & E2 & Hok3 & G2). rewrite E2, ret_bind.
    destruct (cont_inv st2 Hok3) as (c2 & st3 & E3 & Hok4 & G3). rewrite E3, ret_bind.
    destruct (cont_inv st3 Hok4) as (c3 & st4 & E4 & Hok5 & G4). rewrite E4, ret_bind.
    eexists _, st4. split; [reflexivity|]. split; [done|].
    destruct (Z.leb_spec 0 (Z.lor (Z.lor c1 c2) c3)) as [Hn|Hn]; [|by left].
    rewrite !Z.lor_nonneg in Hn.
    destruct G2 as [-> | [Hc1 G2]]; [unfold UTF8_ERROR in Hn; lia|].
    destruct G3 as [-> | [Hc2 G3]]; [unfold UTF8_ERROR in Hn; lia|].
    destruct G4 as [-> | [Hc3 G4]]; [unfold UTF8_ERROR in Hn; lia|].
    rewrite join4 by lia. decide_tests; try (by left). right.
    split; [unfold scalar; lia|]. unfold enc. decide_tests.
    rewrite G2, G3, G4. cbn [app]. repeat f_equal; lia.
  - exists UTF8_ERROR, st1. auto.
Qed.

Lemma decode_nil st : utf8_ok st -> rest st = [] -> utf8_decode_next st = Ret (UTF8_END, st).
Proof.
  intros Hok Hr. pose proof (zlen_rest st Hok) as Hl. rewrite Hr, zlen_nil in Hl.
  destruct Hok as (? & _). unfold utf8_decode_next.
  destruct (Z.leb_spec (the_length st) (the_index st)); [|lia].
  by destruct (Z.eqb_spec (the_index st) (the_length st)); [|lia].
Qed.

Lemma enc_nonempty c : exists x l, enc c = x :: l.
Proof. unfold enc. repeat case_match; eauto. Qed.

(** C21.  The decoder is total and exactly as strict as announced: at the end
    of the text it returns [UTF8_END]; a returned character is a Unicode
    scalar value whose (shortest) encoding was consumed; and [UTF8_ERROR]
    means that the text continues with no scalar value's encoding. *)
Theorem utf8_decode_next_strict st :
  utf8_ok st ->
  returns (utf8_decode_next st) (fun r => let '(c, st') := r in utf8_ok st' /\
    ((c = UTF8_END /\ rest st = []) \/
     (scalar c /\ rest st = enc c ++ rest st') \/
     (c = UTF8_ERROR /\ rest st <> [] /\ forall d l, scalar d -> rest st <> enc d ++ l))).
Proof.
  intros Hok. destruct (rest st) as [|x r] eqn:Hr.
  - rewrite decode_nil by done. apply returns_ret. auto.
  - destruct (decode_inv st x r Hok Hr) as (c & st' & E & Hok' & Hc). rewrite E.
    apply returns_ret. split; [done|]. right. rewrite <- Hr.
    destruct Hc as [-> | Hc]; [right|by left]. split; [done|]. split; [congruence|].
    intros d l Hd Hdl. destruct (decode_enc st d l Hok Hd Hdl) as (st2 & E2 & _).
    rewrite E in E2. injection E2 as E2 _. destruct Hd. unfold UTF8_ERROR in E2. lia.
Qed.

(** An overlong encoding of the character 0. *)
Lemma utf8_decode_next_strict_witness :
  returns (utf8_decode_next (utf8_decode_init [192; 128] 2)) (fun r => let '(c, st') := r in
    utf8_ok st' /\
    ((c = UTF8_END /\ rest (utf8_decode_init [192; 128] 2) = []) \/
     (scalar c /\ rest (utf8_decode_init [192; 128] 2) = enc c ++ rest st') \/
     (c = UTF8_ERROR /\ rest (utf8_decode_init [192; 128] 2) <> [] /\
      forall d l, scalar d -> rest (utf8_decode_init [192; 128] 2) <> enc d ++ l))).
Proof. apply (utf8_decode_next_strict (utf8_decode_init [192; 128] 2)). vm_decide. Defined.

(** ** Whole texts *)
Definition encs (cs : list Z) : bytes := concat (map enc cs).

Lemma all_bytes_enc c : scalar c -> all_bytes (enc c).
Proof.
  intros [Hc _]. unfold enc, all_bytes. repeat case_match; decide_tests;
    repeat match goal with
    | H : (_ <? _) = true |- _ => apply Z.ltb_lt in H
    | H : (_ <? _) = false |- _ => apply Z.ltb_ge in H
    end; repeat constructor; unfold is_byte; lia.
Qed.

Lemma all_bytes_encs cs : Forall scalar cs -> all_bytes (encs cs).
Proof.
  induction 1; [by constructor|]. unfold encs in *. simpl. apply all_bytes_app.
  auto using all_bytes_enc.
Qed.

(** Text that starts with no character. *)
Definition malformed (t : bytes) : Prop := t <> [] /\ forall d l, scalar d -> t <> enc d ++ l.

Lemma decode_malformed st :
  utf8_ok st -> malformed (rest st) ->
  exists st', utf8_decode_next st = Ret (UTF8_ERROR, st') /\ utf8_ok st'.
Proof.
  intros Hok [Hn Hm]. destruct (rest st) as [|x r] eqn:Hr; [done|].
  destruct (decode_inv st x r Hok Hr) as (c & st' & E & Hok' & [-> | [Hc Hx]]); [by exists st'|].
  rewrite Hr in Hx. by destruct (Hm c (rest st') Hc).
Qed.

(** Every text is a sequence of characters up to a malformed rest. *)
Lemma text_split s :
  all_bytes s -> exists cs t, Forall scalar cs /\ s = encs cs ++ t /\ (t = [] \/ malformed t).
Proof.
  induction s as [s IH] using (well_founded_induction (Wf_nat.well_founded_ltof _ length)).
  intros Hb. destruct s as [|x s]; [exists [], []; auto|].
  destruct (utf8_init_ok (x :: s) []) as [Hok Hr]; [done|].
  rewrite app_nil_r in *.
  destruct (decode_inv _ x s Hok Hr) as (c & st' & E & Hok' & Hc).
  destruct Hc as [-> | [Hc Hx]].
  - exists [], (x :: s). split_and!; auto. right. split; [done|]. intros d l Hd Hl.
    destruct (decode_enc _ d l Hok Hd (eq_trans Hr Hl)) as (st2 & E2 & _).
    rewrite E in E2. injection E2 as E2 _. destruct Hd. unfold UTF8_ERROR in E2. lia.
  - rewrite Hr in Hx. destruct (IH (rest st')) as (cs & t & Hcs & Ht & Hm).
    + unfold Wf_nat.ltof. rewrite Hx, length_app. destruct (enc_nonempty c) as (y & l & ->). simpl. lia.
    + by apply rest_bytes.
    + exists (c :: cs), t. split; [by constructor|]. split; [|done].
      rewrite Hx, Ht. unfold encs. simpl. by rewrite app_assoc.
Qed.
