(* ===== verification/Hessian.v ===== *)
(** * Hessian values and the ASCII form of JSON text

    [dubbo_client/dubbo_hessian.c]: null, integers and strings of the Hessian
    2 serialization, and [utf82ascii], which rewrites UTF-8 text with \u
    escapes through the byte-buffer interface.  Byte pointers are blocks read
    from their start; functions that write at [out] return what they write. *)

From stdpp Require Import base tactics numbers list option strings.
From Stdlib Require Import Lia.
From S2P Require Import Prelude ByteBuf Utf8.

(** ** utf82ascii *)
Definition hex_digits : bytes := str "0123456789abcdef" ++ [0].

Section utf82ascii.
Context {B : Type} `{ByteBuf B} `{Allocator}.

Definition append_digit (b : B) (i : Z) : outcome B :=
  let! d := deref (znth hex_digits i) in
  appendInt8 b d.

(** The backslash, the [u] and four digits of [c]. *)
Definition append_escape (b : B) (c : Z) : outcome B :=
  let! b := bb_append b (str "\u") in
  let! b := append_digit b (Z.shiftr (Z.land c 0xf000) 12) in
  let! b := append_digit b (Z.shiftr (Z.land c 0xf00) 8) in
  let! b := append_digit b (Z.shiftr (Z.land c 0xf0) 4) in
  append_digit b (Z.land c 0xf).

Definition append_char (b : B) (c : Z) : outcome B :=
  if (0 <=? c) && (c <=? 127) then appendInt8 b c else
  if 0x10000 <=? c then
    let c := c - 0x10000 in
    let next_c := u16 (Z.lor (Z.land c 0x3ff) 0xdc00) in
    let! b := append_escape b (u16 (Z.lor (Z.shiftr c 10) 0xd800)) in
    append_escape b next_c
  else append_escape b c.

(** The [while] loop; [None] is the return on a decoding error. *)
Fixpoint escape_loop (fuel : nat) (st : utf8_state) (b : B) (c : Z) : outcome (option B) :=
  match fuel with
  | O => OutOfFuel
  | S fuel =>
    if c =? UTF8_END then Ret (Some b) else
    if c =? UTF8_ERROR then Ret None else
    let! b := append_char b c in
    let! (c, st) := utf8_decode_next st in
    escape_loop fuel st b c
  end.

(** [s] is the block at the argument; the result is the block returned, or
    NULL.  The loop ends within a round per byte. *)
Definition utf82ascii (s : bytes) : outcome (option bytes) :=
  let! n := strlen s in
  let! ob := bb_create (u64 (n * 2)) 8 in
  let st := utf8_decode_init s (s32 n) in
  let! (c, st) := utf8_decode_next st in
  let! b := deref ob in
  let! r := escape_loop (S (length s)) st b c in
  match r with
  | None => Ret None
  | Some b =>
    let n := bb_readable b in
    let! (t, b) := retrieveTo b n (malloc (u64 (n + 1))) in
    Ret (Some t)
  end.
End utf82ascii.

(** *** Specification: the escaped form of a character *)
Definition hex_digit (d : Z) : Z := if d <? 10 then 48 + d else 87 + d.
Definition hex4 (c : Z) : bytes :=
  [hex_digit (c / 4096 mod 16); hex_digit (c / 256 mod 16); hex_digit (c / 16 mod 16); hex_digit (c mod 16)].
Definition escape (c : Z) : bytes :=
  if c <=? 127 then [c]
  else if c <? 0x10000 then str "\u" ++ hex4 c
  else str "\u" ++ hex4 (0xd800 + (c - 0x10000) / 1024) ++
       str "\u" ++ hex4 (0xdc00 + (c - 0x10000) mod 1024).
Definition escapes (cs : list Z) : bytes := concat (map escape cs).

Lemma hex_digits_nth d : 0 <= d < 16 -> znth hex_digits d = Some (hex_digit d).
Proof.
  intros Hd. assert (Forall (fun d => znth hex_digits d = Some (hex_digit d)) (seqZ 0 16)) as F
    by vm_decide.
  rewrite Forall_forall in F. apply F, elem_of_seqZ. lia.
Qed.

Lemma land_digit c k m :
  0 <= k -> 0 <= m -> Z.shiftr (Z.land c (Z.shiftl (Z.ones m) k)) k = c / 2 ^ k mod 2 ^ m.
Proof.
  intros. rewrite Z.shiftr_land, Z.shiftr_shiftl_l, Z.sub_diag by lia.
  rewrite Z.shiftl_0_r, Z.land_ones, Z.shiftr_div_pow2 by lia. done.
Qed.

#[local] Ltac Zify.zify_post_hook ::= Z.to_euclidean_division_equations.

Lemma hex_digit_range d : 0 <= d < 16 -> 48 <= hex_digit d < 128.
Proof. intros. unfold hex_digit. case_match; lia. Qed.

Lemma zlen_hex4 c : zlen (hex4 c) = 4.
Proof. reflexivity. Qed.

Lemma all_bytes_hex4 c : all_bytes (hex4 c).
Proof.
  unfold hex4, all_bytes. repeat constructor; unfold is_byte;
    (pose proof (hex_digit_range (c / 4096 mod 16)); pose proof (hex_digit_range (c / 256 mod 16));
     pose proof (hex_digit_range (c / 16 mod 16)); pose proof (hex_digit_range (c mod 16)); lia).
Qed.

Lemma zlen_escape c : 1 <= zlen (escape c) <= 12.
Proof. unfold escape. repeat case_match; rewrite ?zlen_app, ?zlen_hex4; vm_compute; done. Qed.

Section utf82ascii_laws.
Context {B : Type} `{ByteBufSpec B} `{AllocTotal}.
Implicit Types b : B.

Lemma append_digit_ok l room b i :
  writes l room b -> 0 <= i < 16 -> 1 <= room ->
  returns (append_digit b i) (writes (l ++ [hex_digit i]) (room - 1)).
Proof.
  intros Hw Hi Hr. unfold append_digit, appendInt8. rewrite hex_digits_nth by done. cbn [deref].
  rewrite ret_bind. eapply returns_mono; [apply writes_append_int; [exact Hw|lia]|].
  intros b'. pose proof (hex_digit_range i Hi).
  rewrite be_bytes_1; [done|unfold is_byte; lia].
Qed.

Lemma append_escape_ok l room b c :
  writes l room b -> 0 <= c < 0x10000 -> 6 <= room ->
  returns (append_escape b c) (writes (l ++ str "\u" ++ hex4 c) (room - 6)).
Proof.
  intros Hw Hc Hr. unfold append_escape.
  rewrite (land_digit c 12 4 : _ -> _ -> Z.shiftr (Z.land c 0xf000) 12 = _) by lia.
  rewrite (land_digit c 8 4 : _ -> _ -> Z.shiftr (Z.land c 0xf00) 8 = _) by lia.
  rewrite (land_digit c 4 4 : _ -> _ -> Z.shiftr (Z.land c 0xf0) 4 = _) by lia.
  rewrite (Z.land_ones c 4 : _ -> Z.land c 0xf = _) by lia.
  step by writes_append; [exact Hw|vm_decide|change (zlen (str "\u")) with 2; lia|].
  change (zlen (str "\u")) with 2. intros b1 Hw1.
  step by append_digit_ok; [exact Hw1|lia|lia|]. intros b2 Hw2.
  step by append_digit_ok; [exact Hw2|lia|lia|]. intros b3 Hw3.
  step by append_digit_ok; [exact Hw3|lia|lia|]. intros b4 Hw4.
  eapply returns_mono; [apply append_digit_ok; [exact Hw4|lia|lia]|].
  intros b5. rewrite <- !app_assoc. replace (room - 2 - 1 - 1 - 1 - 1) with (room - 6) by lia.
  done.
Qed.

(** The surrogate halves, as arithmetic. *)
Lemma surrogates c :
  0 <= c < 0x100000 ->
  u16 (Z.lor (Z.land c 0x3ff) 0xdc00) = 0xdc00 + c mod 1024 /\
  u16 (Z.lor (Z.shiftr c 10) 0xd800) = 0xd800 + c / 1024.
Proof.
  intros Hc. rewrite (Z.land_ones c 10 : _ -> Z.land c 0x3ff = _), Z.shiftr_div_pow2 by lia.
  split.
  - rewrite Z.lor_comm, (lor_shiftl_add 55 (c mod 2 ^ 10) 10 : _ -> _ -> Z.lor 0xdc00 _ = _) by lia.
    rewrite wrapu_small; lia.
  - rewrite Z.lor_comm, (lor_shiftl_add 54 (c / 2 ^ 10) 10 : _ -> _ -> Z.lor 0xd800 _ = _) by lia.
    rewrite wrapu_small; lia.
Qed.

Lemma append_char_ok l room b c :
  writes l room b -> scalar c -> 12 <= room ->
  returns (append_char b c) (writes (l ++ escape c) (room - 12)).
Proof.
  intros Hw [Hc Hs] Hr. unfold append_char, escape.
  destruct (Z.leb_spec 0 c); [|lia]. destruct (Z.leb_spec c 127); cbn [andb].
  - unfold appendInt8. eapply returns_mono; [apply writes_append_int; [exact Hw|lia]|].
    intros b' (? & ? & Hc' & ?). refine (conj _ (conj _ (conj _ _))); auto; [|lia].
    rewrite Hc', be_bytes_1; [done|unfold is_byte; lia].
  - destruct (Z.leb_spec 0x10000 c), (Z.ltb_spec c 0x10000); try lia.
    + destruct (surrogates (c - 0x10000)) as [-> ->]; [lia|].
      step by append_escape_ok; [exact Hw|lia|lia|]. intros b1 Hw1.
      eapply returns_mono; [apply append_escape_ok; [exact Hw1|lia|lia]|].
      intros b2. rewrite <- !app_assoc. by replace (room - 6 - 6) with (room - 12) by lia.
    + eapply returns_mono; [apply append_escape_ok; [exact Hw|lia|lia]|].
      intros b' (? & ? & ? & ?). refine (conj _ (conj _ (conj _ _))); auto; lia.
Qed.

Lemma escape_loop_ok fuel cs t st b c l room :
  utf8_ok st -> rest st = encs cs ++ t -> Forall scalar (c :: cs) ->
  writes l room b -> 12 * (1 + zlen cs) <= room -> (length cs + 1 < fuel)%nat ->
  (t = [] -> returns (escape_loop fuel st b c) (fun r => exists b', r = Some b' /\
     writes (l ++ escapes (c :: cs)) 0 b')) /\
  (malformed t -> escape_loop fuel st b c = Ret None).
Proof.
  revert fuel st b c l room. induction cs as [|d cs IH]; intros [|fuel] st b c l room Hok Hr Hcs Hw Hroom Hf;
    try (simpl in Hf; lia); apply Forall_cons in Hcs as [Hc Hcs]; cbn [escape_loop];
    (destruct (Z.eqb_spec c UTF8_END); [destruct Hc; unfold UTF8_END in *; lia|]);
    (destruct (Z.eqb_spec c UTF8_ERROR); [destruct Hc; unfold UTF8_ERROR in *; lia|]);
    rewrite ?zlen_cons, ?zlen_nil in Hroom; zlen_facts;
    (destruct (append_char_ok l room b c Hw Hc) as (b' & -> & Hw'); [lia|]); rewrite ret_bind.
  - simpl in Hr. split; intros Ht.
    + rewrite decode_nil, ret_bind by (done || congruence). destruct fuel; [simpl in Hf; lia|].
      simpl. apply returns_ret. exists b'. split; [done|]. unfold escapes. simpl.
      rewrite app_nil_r. destruct Hw' as (? & ? & ? & ?). refine (conj _ (conj _ (conj _ _))); auto; lia.
    + destruct (decode_malformed st) as (st' & -> & _); [done|by rewrite Hr|].
      rewrite ret_bind. by destruct fuel; [simpl in Hf; lia|].
  - apply Forall_cons in Hcs as [Hd Hcs]. unfold encs in Hr. simpl in Hr. rewrite <- app_assoc in Hr.
    destruct (decode_enc st d _ Hok Hd Hr) as (st' & -> & Hok' & Hr'). rewrite ret_bind.
    destruct (IH fuel st' b' d (l ++ escape c) (room - 12)) as [Hgood Hbad]; try done; try lia.
    + by constructor.
    + simpl in Hf. lia.
    + split; [|done]. intros Ht. eapply returns_mono; [by apply Hgood|].
      intros r (b2 & -> & Hw2). exists b2. split; [done|].
      unfold escapes in *. simpl in *. by rewrite <- app_assoc in Hw2.
Qed.

Lemma zlen_encs cs : zlen cs <= zlen (encs cs).
Proof.
  induction cs as [|c cs IH]; [done|]. unfold encs in *. simpl.
  destruct (enc_nonempty c) as (y & l & ->). rewrite zlen_app, !zlen_cons. zlen_facts. lia.
Qed.

Lemma zlen_escapes cs : zlen (escapes cs) <= 12 * zlen cs.
Proof.
  induction cs as [|c cs IH]; [done|]. unfold escapes in *. simpl.
  pose proof (zlen_escape c). rewrite zlen_app, zlen_cons. lia.
Qed.

(** [utf82ascii] on a text, given how far it is well-formed. *)
Lemma utf82ascii_ok text r cs t :
  all_bytes text -> no_nul text -> text <> [] -> zlen text < 2 ^ 30 ->
  Forall scalar cs -> text = encs cs ++ t -> t = [] \/ malformed t ->
  (t = [] /\ utf82ascii (B := B) (text ++ [0] ++ r) = Ret (Some (escapes cs ++ [0]))) \/
  (malformed t /\ utf82ascii (B := B) (text ++ [0] ++ r) = Ret None).
Proof.
  intros Hb Hn Hne Hl Hcs Ht Hm. zlen_facts.
  assert (0 < zlen text) by (destruct text; [done|rewrite zlen_cons; zlen_facts; lia]).
  unfold utf82ascii. rewrite strlen_cstr, ret_bind by done.
  rewrite (wrapu_small 64 (zlen text * 2)), wraps_small by lia.
  destruct (bb_create_spec (B := B) (zlen text * 2) 8) as (ob & -> & b & -> & Hi & Ho & Hc & Hr & _);
    [lia..|]. rewrite ret_bind.
  destruct (utf8_init_ok text ([0] ++ r)) as [Hok Hrest]; [done|].
  destruct cs as [|c cs].
  - simpl in Ht. subst t. right. destruct Hm as [-> | Hm]; [done|]. split; [done|].
    destruct (decode_malformed _ Hok) as (st' & -> & _); [by rewrite Hrest|].
    rewrite ret_bind. cbn [deref]. rewrite ret_bind. destruct text; [done|]. reflexivity.
  - apply Forall_cons in Hcs as [Hcc Hcs]. unfold encs in Ht. simpl in Ht. rewrite <- app_assoc in Ht.
    rewrite Ht in Hrest at 3.
    destruct (decode_enc _ c _ Hok Hcc Hrest) as (st' & -> & Hok' & Hr'). rewrite ret_bind.
    cbn [deref]. rewrite ret_bind.
    assert (1 + zlen cs <= zlen text) as Hcl.
    { rewrite Ht. destruct (enc_nonempty c) as (y & l & ->). pose proof (zlen_encs cs).
      unfold encs in *. rewrite !zlen_app, zlen_cons. zlen_facts. lia. }
    destruct (escape_loop_ok (S (length (text ++ [0] ++ r))) cs t st' b c [] (2 ^ 40)) as [Hgood Hbad].
    + done.
    + done.
    + by constructor.
    + refine (conj Hi (conj Ho (conj Hc _))). lia.
    + lia.
    + unfold zlen in Hcl. rewrite !length_app. simpl. lia.
    + destruct Hm as [-> | Hm]; [left|right]; (split; [done|]).
      * destruct (Hgood eq_refl) as (r' & -> & b' & -> & Hi' & Ho' & Hc' & _).
        rewrite ret_bind. rewrite bb_readable_spec, Hc' by done. rewrite app_nil_l in *.
        pose proof (zlen_escapes (c :: cs)) as Hsm. rewrite zlen_cons in Hsm. zlen_facts.
        unfold malloc. rewrite wrapu_small, alloc_total by lia.
        destruct (retrieveTo_eq (zlen (escapes (c :: cs))) (escapes (c :: cs)) [] b'
          (zlen (escapes (c :: cs)) + 1)) as (b2 & -> & _); [|done|lia|done].
        split; [done|]. by rewrite Hc', app_nil_r.
      * by rewrite Hbad.
Qed.

(** [utf82ascii] on any text: valid UTF-8 becomes its escaped form,
    terminated; anything else gives NULL.  (On the empty string the buffer
    of size 0 cannot be created.) *)
Theorem utf82ascii_spec text r :
  all_bytes text -> no_nul text -> text <> [] -> zlen text < 2 ^ 30 ->
  exists cs t, Forall scalar cs /\ text = encs cs ++ t /\
    ((t = [] /\ utf82ascii (B := B) (text ++ [0] ++ r) = Ret (Some (escapes cs ++ [0]))) \/
     (malformed t /\ utf82ascii (B := B) (text ++ [0] ++ r) = Ret None)).
Proof.
  intros Hb Hn Hne Hl. destruct (text_split text Hb) as (cs & t & Hcs & Ht & Hm).
  exists cs, t. split; [done|]. split; [done|]. by apply utf82ascii_ok.
Qed.
End utf82ascii_laws.

(** ** Lengths and copies of UTF-8 text *)

(** [utf8len]: the loop does not advance [s], so it looks at the first byte
    [sz] times. *)
Fixpoint utf8len_loop (s : bytes) (k : nat) (len : Z) : outcome Z :=
  match k with
  | O => Ret len
  | S k =>
    let! x := deref (znth s 0) in
    utf8len_loop s k (if negb (Z.land x 0xc0 =? 0x80) then u64 (len + 1) else len)
  end.
Definition utf8len (s : bytes) (sz : Z) : outcome Z := utf8len_loop s (Z.to_nat sz) 0.

(** The scan of [utf8cpy]: [i] after [sz] characters, -1 on an invalid lead
    byte. *)
Fixpoint utf8cpy_scan (src : bytes) (k : nat) (i : Z) : outcome Z :=
  match k with
  | O => Ret i
  | S k =>
    let! c := deref (znth src i) in
    if c <=? 0x80 then let! i := sint (i + 1) in utf8cpy_scan src k i
    else if Z.land c 0xe0 =? 0xc0 then let! i := sint (i + 2) in utf8cpy_scan src k i
    else if Z.land c 0xf0 =? 0xe0 then let! i := sint (i + 3) in utf8cpy_scan src k i
    else if Z.land c 0xf8 =? 0xf0 then let! i := sint (i + 4) in utf8cpy_scan src k i
    else Ret (-1)
  end.

(** [utf8cpy(dst + off, src, sz)]: the return value and the block at [dst]. *)
Definition utf8cpy (dst : bytes) (off : Z) (src : bytes) (sz : Z) : outcome (Z * bytes) :=
  let! i := utf8cpy_scan src (Z.to_nat sz) 0 in
  if i =? -1 then Ret (-1, dst) else
  if i =? 0 then Ret (0, dst) else
  let! d := mem_read src 0 i in
  let! dst := mem_write dst off d in
  Ret (i, dst).

(** ** Null and integers *)
Definition hs_encode_null : bytes := [78].

Definition hs_decode_null (buf : bytes) (sz : Z) : outcome bool :=
  if sz =? 1 then let! x := deref (znth buf 0) in Ret (x =? 78) else Ret false.

(** Shifts of negative numbers are arithmetic. *)
Definition hs_encode_int (val : Z) : outcome bytes :=
  if (-0x10 <=? val) && (val <=? 0x2f) then Ret [u8 (val + 0x90)] else
  let! v := sint (val + 0xc8) in
  if (-0x800 <=? v) && (val <=? 0x7ff) then Ret [u8 (Z.shiftr val 8 + 0xc8); Z.land val 0xff]
  else if (-0x40000 <=? val) && (val <=? 0x3ffff) then
    Ret (u8 (Z.shiftr val 16 + 0xd4) :: be_bytes 2 (Z.land val 0xffff))
  else Ret (73 :: be_bytes 4 val).

(** [None]: the return value is false. *)
Definition hs_decode_int (buf : bytes) (sz : Z) : outcome (option Z) :=
  let! code := deref (znth buf 0) in
  if (1 <=? sz) && ((0x80 <=? code) && (code <=? 0xbf)) then Ret (Some (code - 0x90))
  else if (2 <=? sz) && ((0xc0 <=? code) && (code <=? 0xcf)) then
    let! b1 := deref (znth buf 1) in
    Ret (Some (Z.shiftl (code - 0xc8) 8 + b1))
  else if (3 <=? sz) && ((0xd0 <=? code) && (code <=? 0xd7)) then
    let! b1 := deref (znth buf 1) in
    let! b2 := deref (znth buf 2) in
    Ret (Some (Z.shiftl (code - 0xd4) 16 + Z.shiftl b1 8 + b2))
  else if (5 <=? sz) && (code =? 73) then
    let! l := mem_read buf 1 4 in
    Ret (Some (s32 (be_val l)))
  else Ret None.

(** ** Strings *)

(** The state of the decoder: [out_str], [*out_length], [*is_last_chunk]. *)
Record hs_string := mkHsString { out_str : bytes; out_length : Z; is_last_chunk : Z }.

(** The common end of the cases: [delta_length] characters from [pos] on. *)
Definition copy_chunk (buf : bytes) (buf_length pos delta : Z) (s : hs_string)
  : outcome (bool * hs_string) :=
  if buf_length <? pos + delta then Ret (false, s) else
  let! (sz, d) := utf8cpy (out_str s) (out_length s) (zdrop pos buf) delta in
  if sz =? -1 then Ret (false, mkHsString d (out_length s) (is_last_chunk s))
  else Ret (true, mkHsString d (u64 (out_length s + sz)) (is_last_chunk s)).

Definition set_last (s : hs_string) (l : Z) : hs_string := mkHsString (out_str s) (out_length s) l.

(** The [while] of case 0x52 calls the function again with the same buffer;
    the fuel bounds the depth. *)
Fixpoint internal_decode_string (fuel : nat) (buf : bytes) (buf_length : Z) (s : hs_string)
  : outcome (bool * hs_string) :=
  match fuel with
  | O => OutOfFuel
  | S fuel =>
    let! code := deref (znth buf 0) in
    if (0 <=? code) && (code <=? 0x1f) then copy_chunk buf buf_length 1 code (set_last s 1)
    else if (0x30 <=? code) && (code <=? 0x33) then
      let s := set_last s 1 in
      if buf_length <? 2 then Ret (false, s) else
      let! b1 := deref (znth buf 1) in
      copy_chunk buf buf_length 2 ((code - 0x30) * 256 + b1) s
    else if code =? 0x53 then
      let s := set_last s 1 in
      if buf_length <? 3 then Ret (false, s) else
      let! l := mem_read buf 1 2 in
      copy_chunk buf buf_length 3 (be_val l) s
    else if code =? 0x52 then
      let s := set_last s 0 in
      if buf_length <? 3 then Ret (false, s) else
      let! l := mem_read buf 1 2 in
      let! (ok, s) := copy_chunk buf buf_length 3 (be_val l) s in
      if negb ok then Ret (false, s) else
      (fix again (k : nat) (s : hs_string) : outcome (bool * hs_string) :=
         if negb (is_last_chunk s =? 0) then Ret (false, s) else
         match k with
         | O => OutOfFuel
         | S k =>
           let! (ok, s) := internal_decode_string fuel buf buf_length s in
           if negb ok then Ret (false, s) else again k s
         end) fuel s
    else Ret (false, s)
  end.

(** What is written at [out]; [None]: the return value is -1. *)
Definition hs_encode_string (s : bytes) : outcome (option bytes) :=
  let! n := strlen s in
  let length := s32 n in
  if 0x8000 <? length then Ret None else
  let! d := mem_read s 0 length in
  Ret (Some ((if length <=? 31 then [u8 length]
              else if length <=? 1023 then [u8 (48 + Z.shiftr length 8); u8 length]
              else [83; u8 (Z.shiftr length 8); u8 length]) ++ d)).

(** The pointer and size stored on success.  [realloc] to size 0 frees the
    block and returns NULL; the pointer kept then is dangling ([None]). *)
Definition hs_decode_string `{Allocator} (fuel : nat) (buf : bytes) (sz : Z)
  : outcome (option (option bytes * Z)) :=
  if negb (alloc_ok sz) then Ret None else
  let! (ok, s) := internal_decode_string fuel buf sz (mkHsString (zeros sz) 0 0) in
  if negb ok then Ret None else
  Ret (Some (if out_length s =? 0 then None else Some (ztake (out_length s) (out_str s)),
             out_length s)).

(** *** Integers: round trip, and the range it misses *)
Definition int32_ok (v : Z) : Prop := - 2 ^ 31 <= v < 2 ^ 31.

Lemma hs_encode_int_size v l : hs_encode_int v = Ret l -> 1 <= zlen l <= 5.
Proof.
  unfold hs_encode_int. case_match; [by intros [= <-]|]. destruct (sint _); simpl; try done.
  repeat case_match; intros [= <-]; rewrite ?zlen_cons; zlia.
Qed.

Lemma be_bytes_2 x : 0 <= x < 65536 -> be_bytes 2 x = [x / 256; x mod 256].
Proof.
  intros Hx. pose proof (be_bytes_be_val [x / 256; x mod 256]) as E.
  assert (be_val [x / 256; x mod 256] = x) as Ev.
  { unfold be_val, le_val. simpl. rewrite Z.lor_0_r, Z.lor_comm.
    rewrite (lor_shiftl_add (x / 256) (x mod 256) 8) by lia. lia. }
  rewrite Ev in E. apply E. repeat constructor; unfold is_byte; lia.
Qed.

Lemma mem_read_at a s c n off :
  off = zlen a -> n = zlen s -> mem_read (a ++ s ++ c) off n = Ret s.
Proof. intros -> ->. rewrite mem_read_ok by zlia. by rewrite slice_app_exact. Qed.

(** The four forms, decoded. *)
Lemma decode_int_1 c rest sz :
  0x80 <= c <= 0xbf -> 1 <= sz -> hs_decode_int (c :: rest) sz = Ret (Some (c - 0x90)).
Proof. intros. unfold hs_decode_int, znth. simpl. by decide_tests. Qed.

Lemma decode_int_2 c x rest :
  0xc0 <= c <= 0xcf -> hs_decode_int (c :: x :: rest) 2 = Ret (Some ((c - 0xc8) * 256 + x)).
Proof.
  intros. unfold hs_decode_int, znth. simpl. decide_tests. simpl.
  by rewrite Z.shiftl_mul_pow2 by lia.
Qed.

Lemma decode_int_3 c x y rest :
  0xd0 <= c <= 0xd7 ->
  hs_decode_int (c :: x :: y :: rest) 3 = Ret (Some ((c - 0xd4) * 65536 + x * 256 + y)).
Proof.
  intros. unfold hs_decode_int, znth. simpl. decide_tests. simpl.
  by rewrite !Z.shiftl_mul_pow2 by lia.
Qed.

Lemma decode_int_5 v rest :
  int32_ok v -> hs_decode_int (73 :: be_bytes 4 v ++ rest) 5 = Ret (Some v).
Proof.
  intros Hv. unfold int32_ok in Hv. unfold hs_decode_int.
  change (znth (73 :: be_bytes 4 v ++ rest) 0) with (Some 73). cbn [deref]. rewrite ret_bind.
  change (73 :: be_bytes 4 v ++ rest) with ([73] ++ be_bytes 4 v ++ rest).
  rewrite mem_read_at by zlia. rewrite ret_bind.
  rewrite (be_signed_roundtrip 4 v : _ -> _ -> s32 _ = _) by lia. done.
Qed.

(** Hessian integers: what [hs_encode_int] writes for an [int32_t],
    [hs_decode_int] reads back, except in the range -2248 .. -2049: the test
    of the two-byte form adds its offset to the value, and these come back as
    47.  Within 200 of [INT_MAX] that addition overflows. *)
Theorem hs_int_roundtrip v rest :
  int32_ok v ->
  (v <= INT_MAX - 200 -> returns (hs_encode_int v) (fun l =>
     hs_decode_int (l ++ rest) (zlen l)
     = Ret (Some (if (-2248 <=? v) && (v <=? -2049) then 47 else v)))) /\
  (INT_MAX - 200 < v -> hs_encode_int v = Undefined).
Proof.
  unfold int32_ok, INT_MAX. intros Hv. unfold hs_encode_int, sint, INT_MIN, INT_MAX.
  split; intros Hmax; [|by rewrite bool_decide_false by lia; decide_tests].
  rewrite (Z.land_ones v 8 : _ -> Z.land v 0xff = _) by lia.
  rewrite (Z.land_ones v 16 : _ -> Z.land v 0xffff = _), !Z.shiftr_div_pow2 by lia.
  rewrite bool_decide_true by lia.
  destruct (decide (-16 <= v <= 47)); [|destruct (decide (-2248 <= v <= -2049));
    [|destruct (decide (-2248 <= v <= 2047)); [|destruct (decide (-0x40000 <= v <= 0x3ffff))]]];
    decide_tests; rewrite ?ret_bind; decide_tests; apply returns_ret; cbn [app].
  all: rewrite ?be_bytes_2, ?wrapu_small, ?zlen_cons, ?zlen_be_bytes, ?zlen_nil by lia; cbn [app].
  all: first [ rewrite decode_int_1 by lia; do 2 f_equal; lia
             | rewrite decode_int_2 by lia; do 2 f_equal; lia
             | rewrite decode_int_3 by lia; do 2 f_equal; lia
             | by apply decode_int_5 ].
Qed.

(** *** Strings *)

(** The length prefix of a string of [n] characters. *)
Definition hs_header (n : Z) : bytes :=
  if n <=? 31 then [n] else if n <=? 1023 then [48 + n / 256; n mod 256] else 83 :: be_bytes 2 n.

Lemma znth_app_r {A} (a : list A) x l : znth (a ++ x :: l) (zlen a) = Some x.
Proof.
  unfold znth. pose proof (zlen_nonneg a). rewrite bool_decide_true by lia.
  unfold zlen. rewrite Nat2Z.id. by apply list_lookup_middle.
Qed.

(** The first byte of a character tells [utf8cpy] its size. *)
Lemma utf8cpy_scan_char a c t k :
  scalar c -> zlen a + 4 < 2 ^ 31 ->
  utf8cpy_scan (a ++ enc c ++ t) (S k) (zlen a) =
  utf8cpy_scan (a ++ enc c ++ t) k (zlen a + zlen (enc c)).
Proof.
  intros [Hc Hs] Ha. zlen_facts. destruct (enc c) as [|x l] eqn:E.
  { destruct (enc_nonempty c) as (y & l & E2). congruence. }
  cbn [utf8cpy_scan]. cbn [app]. rewrite znth_app_r. cbn [deref]. rewrite ret_bind.
  assert (is_byte x) as Hx.
  { pose proof (all_bytes_enc c (conj Hc Hs)) as Hb. rewrite E in Hb.
    by apply all_bytes_cons in Hb as [? _]. }
  pose proof (byte_bits x Hx) as F. rewrite (bf_e0 _ F), (bf_f0 _ F), (bf_f8 _ F). unfold in_range.
  assert (forall n, 1 <= n <= 4 -> sint (zlen a + n) = Ret (zlen a + n)) as Hsint.
  { intros n Hn. unfold sint. rewrite bool_decide_true; [done|unfold INT_MIN, INT_MAX; lia]. }
  clear F Hx. unfold enc in E. revert E.
  destruct (Z.ltb_spec c 128); [|destruct (Z.ltb_spec c 2048); [|destruct (Z.ltb_spec c 65536)]];
    intros [= <- <-]; decide_tests; by rewrite Hsint by lia.
Qed.

Lemma utf8cpy_scan_app cs k a t :
  Forall scalar cs -> zlen a + zlen (encs cs) + 4 < 2 ^ 31 ->
  utf8cpy_scan (a ++ encs cs ++ t) (length cs + k) (zlen a) =
  utf8cpy_scan (a ++ encs cs ++ t) k (zlen a + zlen (encs cs)).
Proof.
  intros Hcs. revert a. induction Hcs as [|c cs Hc Hcs IH]; intros a Hl.
  - change (zlen (encs [])) with 0. by rewrite Z.add_0_r.
  - unfold encs in *. cbn [map concat length Nat.add] in *. zlen_facts. rewrite zlen_app in *.
    rewrite <- app_assoc. rewrite utf8cpy_scan_char by (done || lia). rewrite (app_assoc a).
    replace (zlen a + zlen (enc c)) with (zlen (a ++ enc c)) by zlia.
    rewrite IH by zlia. f_equal. zlia.
Qed.

Lemma utf8cpy_scan_ok cs t :
  Forall scalar cs -> zlen (encs cs) + 4 < 2 ^ 31 ->
  utf8cpy_scan (encs cs ++ t) (length cs) 0 = Ret (zlen (encs cs)).
Proof.
  intros Hcs Hl. pose proof (utf8cpy_scan_app cs 0 [] t Hcs) as E.
  rewrite Nat.add_0_r, zlen_nil, Z.add_0_l in E. simpl in E. by rewrite E.
Qed.

(** Reading on behind the last character is an access out of bounds. *)
Lemma utf8cpy_scan_overrun cs k :
  Forall scalar cs -> zlen (encs cs) + 4 < 2 ^ 31 -> (length cs < k)%nat ->
  utf8cpy_scan (encs cs) k 0 = Undefined.
Proof.
  intros Hcs Hl Hk. pose proof (utf8cpy_scan_app cs (k - length cs) [] [] Hcs) as E.
  rewrite zlen_nil, Z.add_0_l in E. simpl in E. rewrite app_nil_r in E.
  replace (length cs + (k - length cs))%nat with k in E by lia. rewrite E by done.
  replace (k - length cs)%nat with (S (k - length cs - 1)) by lia. simpl. unfold znth.
  pose proof (zlen_nonneg (encs cs)). rewrite bool_decide_true by lia. unfold zlen.
  by rewrite Nat2Z.id, lookup_ge_None_2.
Qed.

Lemma utf8cpy_ok dst off cs t :
  Forall scalar cs -> zlen (encs cs) + 4 < 2 ^ 31 ->
  0 <= off -> off + zlen (encs cs) <= zlen dst ->
  utf8cpy dst off (encs cs ++ t) (zlen cs) = Ret (zlen (encs cs), mem_splice dst off (encs cs)).
Proof.
  intros Hcs Hl Ho Hd. zlen_facts. unfold utf8cpy.
  assert (Z.to_nat (zlen cs) = length cs) as -> by (unfold zlen; lia).
  rewrite utf8cpy_scan_ok, ret_bind by done.
  destruct (Z.eqb_spec (zlen (encs cs)) (-1)); [lia|].
  destruct (Z.eqb_spec (zlen (encs cs)) 0) as [E|E].
  - rewrite E. apply zlen_nil_inv in E. rewrite E. do 2 f_equal.
    unfold mem_splice. rewrite zlen_nil, Z.add_0_r. simpl. by rewrite ztake_zdrop.
  - rewrite mem_read_ok by zlia. rewrite ret_bind. unfold slice.
    rewrite zdrop_0, ztake_app_exact by done. by rewrite mem_write_ok.
Qed.

Lemma zlen_hs_header n : 0 <= n -> 1 <= zlen (hs_header n) <= 3.
Proof. intros. unfold hs_header. repeat case_match; rewrite ?zlen_cons; zlia. Qed.

(** A header makes the decoder copy [n] characters from behind it. *)
Lemma decode_header fuel n r sz s :
  0 <= n < 65536 -> zlen (hs_header n) <= sz ->
  internal_decode_string (S fuel) (hs_header n ++ r) sz s =
  copy_chunk (hs_header n ++ r) sz (zlen (hs_header n)) n (set_last s 1).
Proof.
  intros Hn Hsz. unfold hs_header in *. cbn [internal_decode_string].
  destruct (Z.leb_spec n 31); [|destruct (Z.leb_spec n 1023)]; cbn [app].
  - change (znth (n :: r) 0) with (Some n). cbn [deref]. rewrite ret_bind. by decide_tests.
  - rewrite !zlen_cons, zlen_nil in *.
    change (znth (48 + n / 256 :: n mod 256 :: r) 0) with (Some (48 + n / 256)).
    change (znth (48 + n / 256 :: n mod 256 :: r) 1) with (Some (n mod 256)).
    cbn [deref]. rewrite !ret_bind. decide_tests. f_equal. lia.
  - rewrite zlen_cons, zlen_be_bytes in * by lia.
    change (znth (83 :: be_bytes 2 n ++ r) 0) with (Some 83).
    change (83 :: be_bytes 2 n ++ r) with ([83] ++ be_bytes 2 n ++ r).
    cbn [deref]. rewrite !ret_bind, mem_read_at, ret_bind by zlia. decide_tests.
    rewrite be_val_be_bytes, wrapu_small by lia. done.
Qed.

Lemma hs_decode_string_chars `{AllocTotal} fuel cs t sz :
  Forall scalar cs -> zlen cs < 65536 ->
  zlen (hs_header (zlen cs)) + zlen (encs cs) <= sz < 2 ^ 31 - 8 ->
  hs_decode_string (S fuel) (hs_header (zlen cs) ++ encs cs ++ t) sz =
  Ret (Some (if zlen (encs cs) =? 0 then None else Some (encs cs), zlen (encs cs))).
Proof.
  intros Hcs Hl Hsz. zlen_facts. pose proof (zlen_hs_header (zlen cs) ltac:(done)).
  pose proof (zlen_encs cs). unfold hs_decode_string.
  rewrite alloc_total by lia. cbn [negb]. cbv iota. rewrite decode_header by lia.
  unfold copy_chunk. destruct (Z.ltb_spec sz (zlen (hs_header (zlen cs)) + zlen cs)); [lia|].
  rewrite zdrop_app_exact by done. cbn [out_str out_length set_last is_last_chunk].
  assert (zlen (zeros sz) = sz) as Hz by (apply zlen_zeros; lia).
  rewrite utf8cpy_ok by (done || lia). rewrite ret_bind.
  destruct (Z.eqb_spec (zlen (encs cs)) (-1)); [lia|]. rewrite ret_bind. cbn [negb]. cbv iota.
  cbn [out_str out_length]. rewrite Z.add_0_l, wrapu_small by lia. case_match; [done|].
  do 4 f_equal. unfold mem_splice. rewrite ztake_0, app_nil_l. by apply ztake_app_exact.
Qed.

Lemma encs_ascii s : Forall (fun c => 0 <= c < 128) s -> encs s = s /\ Forall scalar s.
Proof.
  induction 1 as [|c s Hc Hs [IH1 IH2]]; [done|]. split.
  - unfold encs in *. simpl. rewrite IH1. unfold enc. by destruct (Z.ltb_spec c 128); [|lia].
  - constructor; [|done]. unfold scalar. lia.
Qed.

Lemma zlen_encs_wide cs :
  Forall scalar cs -> Exists (fun c => 128 <= c) cs -> zlen cs < zlen (encs cs).
Proof.
  intros Hcs Hex. induction Hex as [c cs Hc|c cs Hex IH]; apply Forall_cons in Hcs as [Hs Hcs];
    unfold encs in *; cbn [map concat]; rewrite zlen_app, zlen_cons.
  - pose proof (zlen_encs cs). unfold encs in *. assert (2 <= zlen (enc c)); [|lia].
    unfold enc. destruct (Z.ltb_spec c 128); [lia|]. repeat case_match; vm_compute; done.
  - destruct (enc_nonempty c) as (y & l & ->). rewrite zlen_cons. zlen_facts.
    specialize (IH Hcs). lia.
Qed.

Lemma hs_encode_string_ok s r :
  no_nul s -> zlen s <= 0x8000 ->
  hs_encode_string (s ++ [0] ++ r) = Ret (Some (hs_header (zlen s) ++ s)).
Proof.
  intros Hn Hl. zlen_facts. unfold hs_encode_string. rewrite strlen_cstr, ret_bind by done.
  rewrite wraps_small by lia. destruct (Z.ltb_spec 0x8000 (zlen s)); [lia|].
  rewrite mem_read_ok by zlia. rewrite ret_bind. unfold slice. rewrite zdrop_0, ztake_app_exact by done.
  do 3 f_equal. unfold hs_header. rewrite Z.shiftr_div_pow2 by lia.
  destruct (Z.leb_spec (zlen s) 31); [by rewrite wrapu_small by lia|].
  destruct (Z.leb_spec (zlen s) 1023).
  - rewrite wrapu_small by lia. by unfold wrapu.
  - rewrite be_bytes_2 by lia. rewrite wrapu_small by lia. by unfold wrapu.
Qed.

(** C23.  Hessian strings.  [hs_encode_string] writes the length in bytes where
    the decoder expects it in characters: an ASCII string survives the round
    trip, and the image of any other text, alone in its block, makes the
    decoder read past the block's end. *)
Theorem hs_string_roundtrip `{AllocTotal} fuel cs r t :
  Forall scalar cs -> no_nul (encs cs) -> cs <> [] -> zlen (encs cs) <= 0x8000 ->
  let l := hs_header (zlen (encs cs)) ++ encs cs in
  hs_encode_string (encs cs ++ [0] ++ r) = Ret (Some l) /\
  (Forall (fun c => c < 128) cs ->
   hs_decode_string (S fuel) (l ++ t) (zlen l) = Ret (Some (Some (encs cs), zlen (encs cs)))) /\
  (Exists (fun c => 128 <= c) cs -> hs_decode_string (S fuel) l (zlen l) = Undefined).
Proof.
  intros Hcs Hn Hne Hl l. zlen_facts. pose proof (zlen_encs cs).
  pose proof (zlen_hs_header (zlen (encs cs)) ltac:(done)) as Hh.
  assert (0 < zlen cs) by (destruct cs; [done|rewrite zlen_cons; zlen_facts; lia]).
  split; [by apply hs_encode_string_ok|]. subst l. split.
  - intros Ha. assert (Forall (fun c => 0 <= c < 128) cs) as Ha2.
    { apply Forall_forall. intros c Hc. rewrite Forall_forall in Hcs, Ha.
      specialize (Hcs c Hc). specialize (Ha c Hc). destruct Hcs. lia. }
    apply encs_ascii in Ha2 as [E _]. rewrite <- app_assoc. rewrite E at 1.
    rewrite hs_decode_string_chars; [|done|lia|rewrite zlen_app, E in *; lia].
    by destruct (Z.eqb_spec (zlen (encs cs)) 0); [lia|].
  - intros Hex. pose proof (zlen_encs_wide cs Hcs Hex). unfold hs_decode_string.
    rewrite alloc_total by zlia. cbn [negb]. cbv iota.
    rewrite decode_header by zlia. unfold copy_chunk. rewrite zlen_app.
    rewrite Z.ltb_irrefl, zdrop_app_exact by done. unfold utf8cpy.
    rewrite utf8cpy_scan_overrun; [done|done|lia|unfold zlen in *; lia].
Qed.

Lemma hs_string_roundtrip_witness :
  hs_decode_string (H := big_alloc) 1 [2; 195; 169] 3 = Undefined.
Proof.
  refine (proj2 (proj2 (@hs_string_roundtrip big_alloc big_alloc_total 0 [233] [] [] _ _ _ _)) _);
    vm_decide.
Defined.

(** A chunk that is not the last one: the decoder starts again on the same
    buffer until it has written past the end of its block. *)
Lemma decode_chunk_loops fuel n d t sz s :
  0 < n < 65536 -> n = zlen d -> Forall (fun c => 0 <= c < 128) d -> 3 + n <= sz < 2 ^ 31 - 8 ->
  zlen (out_str s) = sz -> 0 <= out_length s <= sz -> (Z.to_nat (sz - out_length s) < fuel)%nat ->
  internal_decode_string fuel (82 :: be_bytes 2 n ++ d ++ t) sz s = Undefined.
Proof.
  intros Hn Hd Ha Hsz. apply encs_ascii in Ha as [Ed Hcs]. revert s.
  induction fuel as [|fuel IH]; intros s Hout Hlen Hf; [lia|]. cbn [internal_decode_string].
  change (znth (82 :: be_bytes 2 n ++ d ++ t) 0) with (Some 82). cbn [deref].
  rewrite ret_bind. change (82 :: be_bytes 2 n ++ d ++ t) with ([82] ++ be_bytes 2 n ++ d ++ t) in *.
  decide_tests. rewrite mem_read_at by zlia. rewrite ret_bind.
  rewrite be_val_be_bytes, wrapu_small by lia. unfold copy_chunk. destruct (Z.ltb_spec sz (3 + n)); [lia|].
  replace (zdrop 3 ([82] ++ be_bytes 2 n ++ d ++ t)) with (d ++ t)
    by (rewrite app_assoc, zdrop_app_exact; [done|zlia]).
  cbn [out_str out_length set_last is_last_chunk].
  destruct (Z.leb_spec (out_length s + n) sz).
  - rewrite <- Ed at 1. rewrite Hd at 1. rewrite utf8cpy_ok; [|done|rewrite Ed; lia|lia|rewrite Ed; lia].
    rewrite ret_bind. rewrite Ed, <- Hd. destruct (Z.eqb_spec n (-1)); [lia|]. rewrite ret_bind.
    cbn [negb]. cbv iota. rewrite wrapu_small by lia.
    destruct fuel as [|fuel]; [lia|]. cbn [is_last_chunk Z.eqb negb]. rewrite IH; [done| | |].
    + cbn [out_str]. rewrite zlen_mem_splice; lia.
    + cbn [out_length]. lia.
    + cbn [out_length]. lia.
  - unfold utf8cpy. assert (Z.to_nat n = length d) as -> by (rewrite Hd; unfold zlen; lia).
    rewrite <- Ed at 1. rewrite utf8cpy_scan_ok by (rewrite ?Ed; done || lia). rewrite ret_bind.
    rewrite Ed, <- Hd. destruct (Z.eqb_spec n (-1)); [lia|]. destruct (Z.eqb_spec n 0); [lia|].
    rewrite mem_read_ok by zlia. rewrite ret_bind. unfold slice. rewrite zdrop_0, Hd, ztake_app_exact by done.
    unfold mem_write. by rewrite bool_decide_false by lia.
Qed.

(**  Chunked strings (0x52) are never decoded: [hs_decode_string] on a
    well-formed chunk overruns the block it allocated. *)
Theorem hs_decode_chunk_overflows `{AllocTotal} fuel d t sz :
  d <> [] -> zlen d < 65536 -> Forall (fun c => 0 <= c < 128) d ->
  3 + zlen d <= sz < 2 ^ 31 - 8 -> (Z.to_nat sz < fuel)%nat ->
  hs_decode_string fuel (82 :: be_bytes 2 (zlen d) ++ d ++ t) sz = Undefined.
Proof.
  intros Hne Hl Ha Hsz Hf. zlen_facts.
  assert (0 < zlen d) by (destruct d; [done|rewrite zlen_cons; zlen_facts; lia]).
  unfold hs_decode_string. rewrite alloc_total by lia. cbn [negb]. cbv iota.
  rewrite decode_chunk_loops; [done|lia|done|done|done|apply zlen_zeros; lia| |];
    cbn [out_length]; lia.
Qed.

Lemma hs_decode_chunk_overflows_witness :
  hs_decode_string (H := big_alloc) 20 (82 :: be_bytes 2 2 ++ str "hi" ++ hs_header 1 ++ str "!") 7
  = Undefined.
Proof.
  apply (@hs_decode_chunk_overflows big_alloc big_alloc_total 20 (str "hi") (hs_header 1 ++ str "!") 7);
    first [vm_decide | lia].
Defined.

Lemma hs_int_roundtrip_witness :
  returns (hs_encode_int (-2100)) (fun l =>
     hs_decode_int (l ++ []) (zlen l)
     = Ret (Some (if (-2248 <=? -2100) && (-2100 <=? -2049) then 47 else -2100))).
Proof. apply (hs_int_roundtrip (-2100) []); vm_compute; [split; congruence | congruence]. Defined.
