(* ===== verification/DubboCodec.v ===== *)
(** * The dubbo packet codec

    [dubbo_client/dubbo_codec.c]: the encoding of a generic call and the
    decoding of its response, over the byte-buffer interface and the Hessian
    values of [Hessian].  [packet_image] around [request_body] or
    [response_body] is the packet on the wire.  What cJSON (vendored) makes of
    the JSON arguments is a parameter. *)

From stdpp Require Import base tactics numbers list option strings.
From Stdlib Require Import Lia.
From S2P Require Import Prelude ByteBuf Buffer Utf8 Hessian.

Definition DUBBO_BUF_LEN : Z := 8192.
Definition DUBBO_MAX_PKT_SZ : Z := 1024 * 1024 * 4.
Definition DUBBO_HDR_LEN : Z := 16.
Definition DUBBO_MAGIC : Z := 0xdabb.
Definition DUBBO_VER : bytes := str "3.1.0-RELEASE".
Definition DUBBO_GENERIC_METHOD_NAME : bytes := str "$invokeWithJsonArgs".
Definition DUBBO_GENERIC_METHOD_VER : bytes := str "0.0.0".
Definition DUBBO_GENERIC_METHOD_PARA_TYPES : bytes :=
  str "Ljava/lang/String;[Ljava/lang/String;Ljava/lang/String;".
Definition DUBBO_HESSIAN2_SERI_ID : Z := 2.
Definition DUBBO_FLAG_REQ : Z := 0x80.
Definition DUBBO_FLAG_TWOWAY : Z := 0x40.
Definition DUBBO_FLAG_EVT : Z := 0x20.
Definition DUBBO_SERI_MASK : Z := 0x1f.
Definition DUBBO_RES_T_OK : Z := 20.
Definition DUBBO_RES_EX : Z := 0.
Definition DUBBO_RES_VAL : Z := 1.
Definition DUBBO_RES_NULL : Z := 2.

(** [char*] fields are blocks; [argv] is a block of pointers. *)
Record dubbo_req := mkReq {
  req_reqid : Z;
  req_is_twoway : bool;
  req_is_evt : bool;
  req_service : bytes;
  req_method : bytes;
  req_argv : list (option bytes);
  req_argc : Z;
  req_attach : option bytes;
  req_data : option bytes;
  req_data_sz : Z
}.

Record dubbo_hdr := mkDHdr { hdr_flag : Z; hdr_status : Z; hdr_body_sz : Z; hdr_reqid : Z }.

(** [data]: NULL, or the pointer [hs_decode_string] stored ([Some None] when
    it dangles). *)
Record dubbo_res := mkRes {
  res_reqid : Z;
  res_is_evt : bool;
  res_ok : bool;
  res_type : Z;
  res_desc : bytes;
  res_data : option (option bytes);
  res_data_sz : Z
}.

Definition get_res_status_desc (status : Z) : bytes :=
  if status =? 20 then str "OK"
  else if status =? 30 then str "CLIENT TIMEOUT"
  else if status =? 31 then str "SERVER TIMEOUT"
  else if status =? 40 then str "BAD REQUEST"
  else if status =? 50 then str "BAD RESPONSE"
  else if status =? 60 then str "SERVICE NOT FOUND"
  else if status =? 70 then str "SERVICE ERROR"
  else if status =? 80 then str "SERVER ERROR"
  else if status =? 90 then str "CLIENT ERROR"
  else str "UNKNOWN".

(** The static counter: its new value is the result. *)
Definition next_reqid (id : Z) : Z := if id + 1 =? 0x7fffffffffffffff then 1 else id + 1.

Section codec.
Context {B : Type} `{ByteBuf B} `{Allocator}.

(** *** Encoding *)
Definition encode_req_hdr (b : B) (hdr : dubbo_hdr) : outcome (option B) :=
  if bb_prependable b <? DUBBO_HDR_LEN then Ret None else
  let! b := prependInt32 b (hdr_body_sz hdr) in
  let! b := prependInt64 b (hdr_reqid hdr) in
  let! b := prependInt8 b (hdr_status hdr) in
  let! b := prependInt8 b (hdr_flag hdr) in
  let! b := prependInt16 b DUBBO_MAGIC in
  Ret (Some b).

(** Writing [d] at [buf_beginWrite] and then counting it in. *)
Definition write_raw (b : B) (d : bytes) : outcome B :=
  let! b := bb_poke b d in
  bb_has_written b (zlen d).

(** The macro [write_hs_str]; [None] is its [return false]. *)
Definition write_hs_str (b : B) (s : bytes) : outcome (option B) :=
  let! o := hs_encode_string s in
  match o with
  | None => Ret None
  | Some d => let! b := write_raw b d in Ret (Some b)
  end.

(** Going on after a macro that may return. *)
Definition or_false {A} (o : option B) (k : B -> outcome (option A)) : outcome (option A) :=
  match o with None => Ret None | Some b => k b end.

Definition encode_req_data (b : B) (req : dubbo_req) : outcome (option B) :=
  let! o := write_hs_str b (DUBBO_VER ++ [0]) in
  or_false o (fun b =>
  let! o := write_hs_str b (req_service req) in
  or_false o (fun b =>
  let! o := write_hs_str b (DUBBO_GENERIC_METHOD_VER ++ [0]) in
  or_false o (fun b =>
  let! o := write_hs_str b (DUBBO_GENERIC_METHOD_NAME ++ [0]) in
  or_false o (fun b =>
  let! o := write_hs_str b (DUBBO_GENERIC_METHOD_PARA_TYPES ++ [0]) in
  or_false o (fun b =>
  let! p := deref (req_argv req !! 0%nat) in
  let! s := deref p in
  let! o := write_hs_str b s in
  or_false o (fun b =>
  let! b := write_raw b hs_encode_null in
  let! p := deref (req_argv req !! 2%nat) in
  let! s := deref p in
  let! o := write_hs_str b s in
  or_false o (fun b =>
  let! b := write_raw b hs_encode_null in
  Ret (Some b)))))))).

Definition encode_req (b : B) (req : dubbo_req) : outcome (option B) :=
  let flag := Z.lor (s8 DUBBO_FLAG_REQ) (s8 DUBBO_HESSIAN2_SERI_ID) in
  let flag := if req_is_twoway req then s8 (Z.lor flag DUBBO_FLAG_TWOWAY) else flag in
  let flag := if req_is_evt req then s8 (Z.lor flag DUBBO_FLAG_EVT) else flag in
  let! o :=
    if req_is_evt req then
      let! m := deref (req_data req) in
      let! d := mem_read m 0 (req_data_sz req) in
      let! b := bb_append b d in
      Ret (Some b)
    else encode_req_data b req in
  or_false o (fun b =>
    encode_req_hdr b (mkDHdr flag 0 (s32 (bb_readable b)) (req_reqid req))).

Definition dubbo_encode (req : dubbo_req) : outcome (option B) :=
  let! ob := bb_create DUBBO_BUF_LEN DUBBO_HDR_LEN in
  let! b := deref ob in
  encode_req b req.

(** *** Decoding *)
Definition is_dubbo_pkt (b : B) : outcome bool :=
  if DUBBO_HDR_LEN <=? bb_readable b then
    let! m := peekInt16 b in Ret (u16 m =? DUBBO_MAGIC)
  else Ret false.

(** The return value and what [*remaining] receives ([want]: whether the
    pointer is not NULL). *)
Definition is_completed_dubbo_pkt (b : B) (want : bool) : outcome (bool * option Z) :=
  let! ok := is_dubbo_pkt b in
  if negb ok then Ret (false, None) else
  let! h := bb_peek b DUBBO_HDR_LEN in
  let body_sz := s32 (be_val (slice (DUBBO_HDR_LEN - 4) 4 h)) in
  if (body_sz <=? 0) || (DUBBO_MAX_PKT_SZ <? body_sz) then Ret (false, None) else
  Ret (true, if want then Some (s32 (u64 (body_sz + DUBBO_HDR_LEN - bb_readable b))) else None).

Definition decode_res_hdr (b : B) : outcome (option dubbo_hdr * B) :=
  let! ok := is_dubbo_pkt b in
  if negb ok then Ret (None, b) else
  let! (_, b) := readInt16 b in
  let! (flag, b) := readInt8 b in
  let! (status, b) := readInt8 b in
  let! (reqid, b) := readInt64 b in
  let! (body_sz, b) := readInt32 b in
  if DUBBO_MAX_PKT_SZ <? body_sz then Ret (None, b) else
  let seria_id := Z.land flag DUBBO_SERI_MASK in
  if negb (seria_id =? DUBBO_HESSIAN2_SERI_ID) then Ret (None, b) else
  if Z.land flag DUBBO_FLAG_REQ =? 0 then Ret (Some (mkDHdr flag status body_sz reqid), b)
  else Ret (None, b).

(** The macro [read_hs_str]: the readable bytes end where the block ends (the
    body buffer was created for exactly them). *)
Definition read_hs_str (fuel : nat) (b : B) : outcome (option (option bytes * Z) * B) :=
  let! l := bb_peek b (bb_readable b) in
  let! o := hs_decode_string fuel l (bb_readable b) in
  match o with
  | None => Ret (None, b)
  | Some (p, n) => let! b := bb_retrieve b n in Ret (Some (p, n), b)
  end.

(** Type, data and size of the result; [None]: false. *)
Definition decode_res_data (fuel : nat) (b : B)
  : outcome (option (Z * option (option bytes) * Z)) :=
  let! (f, b) := readInt8 b in
  let flag := u8 f in
  if (flag <? 0x80) || (0xbf <? flag) then Ret None else
  let flag := u8 (flag - 0x90) in
  if flag =? DUBBO_RES_NULL then Ret (Some (flag, None, 0))
  else if (flag =? DUBBO_RES_EX) || (flag =? DUBBO_RES_VAL) then
    let! (o, b) := read_hs_str fuel b in
    match o with None => Ret None | Some (p, n) => Ret (Some (flag, Some p, n)) end
  else Ret None.

Definition decode_res (fuel : nat) (b : B) (hdr : dubbo_hdr) : outcome (option dubbo_res) :=
  let is_evt := negb (Z.land (hdr_flag hdr) DUBBO_FLAG_EVT =? 0) in
  let desc := get_res_status_desc (hdr_status hdr) in
  if hdr_status hdr =? DUBBO_RES_T_OK then
    if is_evt then Ret (Some (mkRes (hdr_reqid hdr) is_evt true (-1) desc None 0)) else
    let! o := decode_res_data fuel b in
    match o with
    | None => Ret None
    | Some (t, p, n) => Ret (Some (mkRes (hdr_reqid hdr) is_evt true t desc p n))
    end
  else
    let! (o, b) := read_hs_str fuel b in
    match o with
    | None => Ret None
    | Some (p, n) => Ret (Some (mkRes (hdr_reqid hdr) is_evt false (-1) desc (Some p) n))
    end.

(** The result and the buffer read from. *)
Definition dubbo_decode (fuel : nat) (b : B) : outcome (option dubbo_res * B) :=
  let! (o, b) := decode_res_hdr b in
  match o with
  | None => Ret (None, b)
  | Some hdr =>
    let! ob := bb_create (u64 (hdr_body_sz hdr)) 8 in
    let! body_buf := deref ob in
    let! d := bb_peek b (u64 (hdr_body_sz hdr)) in
    let! body_buf := bb_append body_buf d in
    let! b := bb_retrieve b (u64 (hdr_body_sz hdr)) in
    let! res := decode_res fuel body_buf hdr in
    Ret (res, b)
  end.
End codec.

(** *** Requests *)
Definition strdup (s : bytes) : outcome bytes :=
  let! n := strlen s in Ret (ztake (n + 1) s).

Section requests.
Context {B : Type} `{ByteBuf B} `{Allocator}.
(** Parse, check for an array or an object, collect the elements in an array
    and print it: the part of [rebuild_json_args] that is cJSON's. *)
Context (cjson_elements : bytes -> option bytes).

Definition rebuild_json_args (json_str : bytes) : outcome (option bytes) :=
  match cjson_elements json_str with
  | None => Ret None
  | Some utf8_json => utf82ascii (B := B) utf8_json
  end.

(** The request ([None]: NULL) and the static counter of [next_reqid]. *)
Definition dubbo_req_create (id : Z) (service method json_args : bytes) (json_attach : option bytes)
  : outcome (option dubbo_req * Z) :=
  let id := next_reqid id in
  let! svc := strdup service in
  let! mth := strdup method in
  let! args := rebuild_json_args json_args in
  match args with
  | None => Ret (None, id)
  | Some args =>
    let! mth0 := strdup method in
    let! attach := match json_attach with
      | Some a => let! a := strdup a in Ret (Some a)
      | None => Ret None
      end in
    Ret (Some (mkReq id true false svc mth [Some mth0; None; Some args] 3 attach None 0), id)
  end.
End requests.

Definition dubbo_req_getid (req : dubbo_req) : Z := req_reqid req.

(** Freeing a response: a dangling [data] is freed a second time. *)
Definition dubbo_res_release (res : dubbo_res) : outcome unit :=
  match res_data res with
  | Some None => Undefined
  | _ => Ret tt
  end.

(** ** Specification: packets *)
Definition hs_string_image (s : bytes) : bytes := hs_header (zlen s) ++ s.

(** The pieces [encode_req_data] writes. *)
Definition request_pieces (service method args : bytes) : list bytes :=
  [hs_string_image DUBBO_VER; hs_string_image service; hs_string_image DUBBO_GENERIC_METHOD_VER;
   hs_string_image DUBBO_GENERIC_METHOD_NAME; hs_string_image DUBBO_GENERIC_METHOD_PARA_TYPES;
   hs_string_image method; hs_encode_null; hs_string_image args; hs_encode_null].

Definition request_body (service method args : bytes) : bytes :=
  concat (request_pieces service method args).

Definition packet_image (flag status reqid : Z) (body : bytes) : bytes :=
  be_bytes 2 DUBBO_MAGIC ++ be_bytes 1 flag ++ be_bytes 1 status ++ be_bytes 8 reqid ++
  be_bytes 4 (zlen body) ++ body.

Definition header_image (flag status reqid n : Z) : bytes :=
  be_bytes 2 DUBBO_MAGIC ++ be_bytes 1 flag ++ be_bytes 1 status ++ be_bytes 8 reqid ++ be_bytes 4 n.

Lemma packet_image_header flag status reqid body :
  packet_image flag status reqid body = header_image flag status reqid (zlen body) ++ body.
Proof. unfold packet_image, header_image. by rewrite <- !app_assoc. Qed.

Lemma zlen_header_image flag status reqid n : zlen (header_image flag status reqid n) = DUBBO_HDR_LEN.
Proof. unfold header_image, DUBBO_HDR_LEN. zlia. Qed.

Lemma zlen_packet_image flag status reqid body :
  zlen (packet_image flag status reqid body) = DUBBO_HDR_LEN + zlen body.
Proof. unfold packet_image, DUBBO_HDR_LEN. zlia. Qed.

Lemma all_bytes_hs_header n : 0 <= n < 65536 -> all_bytes (hs_header n).
Proof.
  intros Hn. unfold hs_header. repeat case_match; unfold all_bytes;
    repeat match goal with
    | H : (_ <=? _) = true |- _ => apply Z.leb_le in H
    | H : (_ <=? _) = false |- _ => apply Z.leb_gt in H
    end.
  - repeat constructor; unfold is_byte; lia.
  - assert (0 <= n / 256 < 4) by (split; [apply Z.div_pos|apply Z.div_lt_upper_bound]; lia).
    pose proof (Z.mod_pos_bound n 256). repeat constructor; unfold is_byte; lia.
  - constructor; [unfold is_byte; lia|]. change (all_bytes (be_bytes 2 n)). auto with bytes.
Qed.

(** A string [hs_encode_string] can encode. *)
Definition hs_ok (s : bytes) : Prop := no_nul s /\ all_bytes s /\ zlen s <= 0x8000.

#[export] Instance hs_ok_dec s : Decision (hs_ok s).
Proof. unfold hs_ok. apply _. Defined.

Lemma all_bytes_hs_image s : hs_ok s -> all_bytes (hs_string_image s).
Proof.
  intros (_ & Hb & Hl). zlen_facts. apply all_bytes_app. split; [|done].
  apply all_bytes_hs_header. lia.
Qed.

Section encode_laws.
Context {B : Type} `{ByteBufSpec B} `{AllocTotal}.
Implicit Types b : B.

(** A buffer written to in place: contents, space left, space in front. *)
Definition filling (l : bytes) (w p : Z) (b : B) : Prop :=
  bb_inv b /\ bb_contents b = l /\ bb_writable b = w /\ bb_prependable b = p /\
  bb_open b /\ 2 ^ 62 <= bb_room b.

Lemma write_raw_ok l w p b d :
  filling l w p b -> all_bytes d -> zlen d <= w ->
  exists b', write_raw b d = Ret b' /\ filling (l ++ d) (w - zlen d) p b'.
Proof.
  intros (Hi & Hc & Hw & Hp & Ho & Hr) Hd Hl. unfold write_raw.
  destruct (bb_poke_spec b d Hi Hd) as (b1 & -> & b2 & E & Hi2 & Ho2 & Hc2 & Hw2 & Hp2 & Hr2 & _); [lia|].
  rewrite ret_bind, E. exists b2. split; [done|]. rewrite Hc in Hc2.
  refine (conj Hi2 (conj Hc2 (conj _ (conj _ (conj (Ho2 Ho) _))))); lia.
Qed.

Lemma write_raw_overflow l w p b d : filling l w p b -> w < zlen d -> write_raw b d = Undefined.
Proof. intros (Hi & _ & Hw & _) Hl. unfold write_raw. rewrite bb_poke_overflow; [done..|lia]. Qed.

Lemma raw_step {A} l w p b d (k : B -> outcome A) :
  filling l w p b -> all_bytes d ->
  (w < zlen d /\ mbind k (write_raw b d) = Undefined) \/
  (zlen d <= w /\ exists b', mbind k (write_raw b d) = k b' /\ filling (l ++ d) (w - zlen d) p b').
Proof.
  intros Hf Hd. destruct (Z.leb_spec (zlen d) w); [right|left]; (split; [done|]).
  - destruct (write_raw_ok l w p b d) as (b' & -> & ?); [done..|]. by exists b'.
  - by rewrite (write_raw_overflow l w p).
Qed.

Lemma hs_step {A} l w p b s r (k : B -> outcome (option A)) :
  filling l w p b -> hs_ok s ->
  let m := mbind (fun o => or_false o k) (write_hs_str b (s ++ [0] ++ r)) in
  (w < zlen (hs_string_image s) /\ m = Undefined) \/
  (zlen (hs_string_image s) <= w /\ exists b', m = k b' /\
     filling (l ++ hs_string_image s) (w - zlen (hs_string_image s)) p b').
Proof.
  intros Hf Hs m. subst m. unfold write_hs_str. pose proof (all_bytes_hs_image s Hs) as Hb.
  destruct Hs as (Hn & _ & Hl). rewrite hs_encode_string_ok, ret_bind by done.
  fold (hs_string_image s).
  destruct (raw_step l w p b (hs_string_image s) (fun b => Ret (Some b)) Hf Hb)
    as [[? ->] | (? & b' & -> & Hf')]; [by left|].
  right. split; [done|]. exists b'. by split.
Qed.

(** The request describes the strings. *)
Definition req_describes (req : dubbo_req) (service method args : bytes) : Prop :=
  (exists r, req_service req = service ++ [0] ++ r) /\
  (exists r, req_argv req !! 0%nat = Some (Some (method ++ [0] ++ r))) /\
  (exists r, req_argv req !! 2%nat = Some (Some (args ++ [0] ++ r))).

(** One piece: either it overruns the block or the buffer goes on filling. *)
Ltac hs_piece Hf :=
  repeat (progress cbn [deref] || rewrite ret_bind);
  match goal with
  | |- context [mbind (fun o => or_false o ?k) (write_hs_str ?b (?s ++ [0] ++ ?r))] =>
    let b' := fresh "b" in let Hle := fresh "Hle" in let Hf' := fresh "Hf" in
    destruct (hs_step _ _ _ b s r k Hf) as [[? ->] | (Hle & b' & -> & Hf')];
      [assumption|left; split; [lia|reflexivity]|];
    clear Hf; rename Hf' into Hf
  end.
Ltac raw_piece Hf :=
  repeat (progress cbn [deref] || rewrite ret_bind);
  match goal with
  | |- context [mbind ?k (write_raw ?b ?d)] =>
    let b' := fresh "b" in let Hle := fresh "Hle" in let Hf' := fresh "Hf" in
    destruct (raw_step _ _ _ b d k Hf) as [[? ->] | (Hle & b' & -> & Hf')];
      [assumption|left; split; [lia|reflexivity]|];
    clear Hf; rename Hf' into Hf
  end.

Lemma encode_req_data_ok l w p b req service method args :
  filling l w p b -> req_describes req service method args ->
  hs_ok service -> hs_ok method -> hs_ok args ->
  let body := request_body service method args in
  (w < zlen body /\ encode_req_data b req = Undefined) \/
  (zlen body <= w /\ exists b', encode_req_data b req = Ret (Some b') /\
     filling (l ++ body) (w - zlen body) p b').
Proof.
  intros Hf ([r1 E1] & [r2 E2] & [r3 E3]) Hs Hm Ha body.
  assert (zlen body = foldr (fun d n => zlen d + n) 0 (request_pieces service method args)) as Hl.
  { unfold body, request_body. induction (request_pieces service method args) as [|d ds IH]; [done|].
    simpl. by rewrite zlen_app, IH. }
  assert (body = concat (request_pieces service method args)) as Hbody by done. clearbody body.
  unfold request_pieces in Hl, Hbody. cbn [foldr] in Hl. cbn [concat] in Hbody.
  unfold encode_req_data. rewrite E1, E2, E3.
  change (DUBBO_VER ++ [0]) with (DUBBO_VER ++ [0] ++ []).
  change (DUBBO_GENERIC_METHOD_VER ++ [0]) with (DUBBO_GENERIC_METHOD_VER ++ [0] ++ []).
  change (DUBBO_GENERIC_METHOD_NAME ++ [0]) with (DUBBO_GENERIC_METHOD_NAME ++ [0] ++ []).
  change (DUBBO_GENERIC_METHOD_PARA_TYPES ++ [0])
    with (DUBBO_GENERIC_METHOD_PARA_TYPES ++ [0] ++ []).
  assert (hs_ok DUBBO_VER) by vm_decide. assert (hs_ok DUBBO_GENERIC_METHOD_VER) by vm_decide.
  assert (hs_ok DUBBO_GENERIC_METHOD_NAME) by vm_decide.
  assert (hs_ok DUBBO_GENERIC_METHOD_PARA_TYPES) by vm_decide.
  assert (all_bytes hs_encode_null) by vm_decide. zlen_facts.
  hs_piece Hf. hs_piece Hf. hs_piece Hf. hs_piece Hf. hs_piece Hf.
  hs_piece Hf. raw_piece Hf. hs_piece Hf. raw_piece Hf.
  right. split; [lia|]. eexists. split; [reflexivity|].
  destruct Hf as (Hi & Hc & Hw & Hp). refine (conj Hi (conj _ (conj _ Hp))); [|lia].
  rewrite app_nil_r in Hbody. by rewrite Hc, Hbody, <- !app_assoc.
Qed.

(** A buffer prepended to: contents and the space in front. *)
Definition fronting (l : bytes) (p : Z) (b : B) : Prop :=
  bb_inv b /\ bb_contents b = l /\ bb_prependable b = p /\ bb_unlocked b /\ 2 ^ 62 <= bb_room b.

Lemma fronting_prepend_int n l p b x :
  fronting l p b -> 0 <= n <= p ->
  exists b', prepend_int n b x = Ret b' /\ fronting (be_bytes n x ++ l) (p - n) b'.
Proof.
  intros (Hi & Hc & Hp & Hu & Hr) Hn. unfold prepend_int.
  destruct (bb_prepend_spec b (be_bytes n x) Hi) as (b' & E & Hi' & Hc' & Hp' & Hu' & Hr'); [auto with bytes|zlia|].
  rewrite zlen_be_bytes in Hp' by lia. rewrite Hc in Hc'.
  exists b'. split; [done|]. refine (conj Hi' (conj Hc' (conj _ (conj (Hu' Hu) _)))); lia.
Qed.

Lemma encode_req_hdr_ok body b flag status reqid :
  fronting body DUBBO_HDR_LEN b ->
  exists b', encode_req_hdr b (mkDHdr flag status (s32 (zlen body)) reqid) = Ret (Some b') /\
    fronting (be_bytes 2 DUBBO_MAGIC ++ be_bytes 1 flag ++ be_bytes 1 status ++ be_bytes 8 reqid ++
              be_bytes 4 (zlen body) ++ body) 0 b'.
Proof.
  intros Hf. unfold encode_req_hdr, DUBBO_HDR_LEN in *. rewrite (proj1 (proj2 (proj2 Hf))). simpl.
  unfold prependInt32, prependInt64, prependInt8, prependInt16.
  destruct (fronting_prepend_int 4 _ _ _ (s32 (zlen body)) Hf ltac:(lia)) as (b1 & -> & Hf1).
  destruct (fronting_prepend_int 8 _ _ _ reqid Hf1 ltac:(lia)) as (b2 & E2 & Hf2).
  destruct (fronting_prepend_int 1 _ _ _ status Hf2 ltac:(lia)) as (b3 & E3 & Hf3).
  destruct (fronting_prepend_int 1 _ _ _ flag Hf3 ltac:(lia)) as (b4 & E4 & Hf4).
  destruct (fronting_prepend_int 2 _ _ _ DUBBO_MAGIC Hf4 ltac:(lia)) as (b5 & E5 & Hf5).
  rewrite ret_bind, E2, ret_bind, E3, ret_bind, E4, ret_bind, E5, ret_bind.
  exists b5. split; [done|].
  rewrite (be_bytes_wraps 4 (zlen body) : _ -> be_bytes 4 (s32 _) = _) in Hf5 by lia.
  exact Hf5.
Qed.

(** The flag byte of a request. *)
Definition request_flag (twoway : bool) : Z := if twoway then 0xc2 else 0x82.

(** The packet, or the overrun. *)
Lemma dubbo_encode_ok req service method args :
  req_is_evt req = false -> req_describes req service method args ->
  hs_ok service -> hs_ok method -> hs_ok args ->
  let body := request_body service method args in
  (zlen body <= DUBBO_BUF_LEN -> returns (dubbo_encode (B := B) req) (fun o => exists b, o = Some b /\
     bb_inv b /\ bb_contents b =
       packet_image (request_flag (req_is_twoway req)) 0 (req_reqid req) body /\
     bb_unlocked b /\ 2 ^ 62 <= bb_room b)) /\
  (DUBBO_BUF_LEN < zlen body -> dubbo_encode (B := B) req = Undefined).
Proof.
  intros He Hd Hs Hm Ha body. unfold dubbo_encode.
  destruct (bb_create_spec (B := B) DUBBO_BUF_LEN DUBBO_HDR_LEN)
    as (ob & -> & b & -> & Hi & Ho & Hc & Hr & _ & Hw & Hp); [unfold DUBBO_BUF_LEN, DUBBO_HDR_LEN; lia..|].
  rewrite ret_bind. cbn [deref]. rewrite ret_bind. unfold encode_req. rewrite He.
  assert (filling [] DUBBO_BUF_LEN DUBBO_HDR_LEN b) as Hf.
  { split_and!; try done. rewrite Hr. unfold DUBBO_BUF_LEN, DUBBO_HDR_LEN. lia. }
  destruct (encode_req_data_ok [] _ _ b req service method args Hf Hd Hs Hm Ha)
    as [[Hlt ->] | (Hle & b1 & -> & Hi1 & Hc1 & _ & Hp1 & Ho1 & Hr1)].
  - split; [fold body in Hlt; lia|done].
  - fold body in Hle, Hc1. split; [|lia]. intros _. rewrite ret_bind. cbn [or_false].
    rewrite bb_readable_spec, Hc1 by done. rewrite app_nil_l in *.
    destruct (encode_req_hdr_ok body b1
      (if req_is_twoway req then s8 (Z.lor (Z.lor (s8 DUBBO_FLAG_REQ) (s8 DUBBO_HESSIAN2_SERI_ID)) DUBBO_FLAG_TWOWAY)
       else Z.lor (s8 DUBBO_FLAG_REQ) (s8 DUBBO_HESSIAN2_SERI_ID)) 0 (req_reqid req))
      as (b2 & -> & Hi2 & Hc2 & _ & Hu2 & Hr2); [split_and!; auto|].
    apply returns_ret. exists b2. split; [done|]. split; [done|]. split; [|done]. rewrite Hc2. unfold packet_image.
    by destruct (req_is_twoway req).
Qed.

(** C24.  [dubbo_encode] of a call whose strings can be encoded: the request
    packet when the body fits the 8192 bytes reserved, otherwise a write
    past the end of the buffer (nothing checks the space). *)
Theorem dubbo_encode_image req service method args :
  req_is_evt req = false -> req_describes req service method args ->
  hs_ok service -> hs_ok method -> hs_ok args ->
  let body := request_body service method args in
  (zlen body <= DUBBO_BUF_LEN -> returns (dubbo_encode (B := B) req) (fun o => exists b, o = Some b /\
     bb_inv b /\ bb_contents b =
       packet_image (request_flag (req_is_twoway req)) 0 (req_reqid req) body)) /\
  (DUBBO_BUF_LEN < zlen body -> dubbo_encode (B := B) req = Undefined).
Proof.
  intros He Hd Hs Hm Ha body. destruct (dubbo_encode_ok req service method args He Hd Hs Hm Ha) as [Hfit Hover].
  split; [|exact Hover]. intros Hl. eapply returns_mono; [by apply Hfit|].
  intros o (b & -> & Hi & Hc & _). by exists b.
Qed.

Lemma strdup_cstr t : no_nul t -> strdup (t ++ [0]) = Ret (t ++ [0]).
Proof.
  intros Hn. unfold strdup. pose proof (strlen_cstr t []) as E. rewrite app_nil_r in E.
  rewrite E, ret_bind by done. f_equal. apply ztake_all. zlia.
Qed.

(** cJSON prints the arguments as the text [cs]; the block may be longer. *)
Definition prints_args (cjson : bytes -> option bytes) (args cs : bytes) : Prop :=
  exists pad, cjson (args ++ [0]) = Some (encs cs ++ [0] ++ pad).

(** A request for arguments that cJSON prints as the text [cs]. *)
Lemma dubbo_req_create_ok cjson id service method args attach cs :
  no_nul service -> no_nul method -> no_nul attach -> prints_args cjson args cs ->
  Forall scalar cs -> no_nul (encs cs) -> cs <> [] -> zlen (encs cs) < 2 ^ 30 ->
  exists req, dubbo_req_create (B := B) cjson id (service ++ [0]) (method ++ [0]) (args ++ [0]) (Some (attach ++ [0])) =
      Ret (Some req, next_reqid id) /\
    req_is_evt req = false /\ req_is_twoway req = true /\ req_reqid req = next_reqid id /\
    req_describes req service method (escapes cs).
Proof.
  intros Hs Hm Ha [pad Hc] Hcs Hn Hne Hl. unfold dubbo_req_create, rebuild_json_args. rewrite Hc.
  rewrite !strdup_cstr, !ret_bind by done.
  destruct (utf82ascii_ok (B := B) (encs cs) pad cs []) as [[_ E]|[Hbad _]]; try done.
  - by apply all_bytes_encs.
  - destruct cs as [|c cs]; [done|]. intros E. apply (f_equal zlen) in E. pose proof (zlen_encs (c :: cs)).
    rewrite zlen_cons, E, zlen_nil in *. zlen_facts. lia.
  - by rewrite app_nil_r.
  - by left.
  - rewrite E, !ret_bind.
    eexists. split; [reflexivity|]. unfold req_describes. cbn [req_service req_argv]. split_and!; try done; by exists [].
  - by destruct Hbad.
Qed.
End encode_laws.

(** ** Receiving *)
Section decode_laws.
Context {B : Type} `{ByteBufSpec B} `{AllocTotal}.
Implicit Types b : B.

Lemma is_dubbo_pkt_image flag status reqid body k b :
  0 <= k -> holds (ztake k (packet_image flag status reqid body)) b ->
  k <= DUBBO_HDR_LEN + zlen body ->
  is_dubbo_pkt b = Ret (DUBBO_HDR_LEN <=? k).
Proof.
  intros Hk Hb Hk2. unfold is_dubbo_pkt. rewrite bb_readable_spec, (proj2 Hb) by apply Hb.
  zlen_facts. rewrite zlen_ztake, zlen_packet_image.
  replace (Z.min (Z.max 0 k) (DUBBO_HDR_LEN + zlen body)) with k by lia.
  destruct (Z.leb_spec DUBBO_HDR_LEN k); [|done]. unfold DUBBO_HDR_LEN in *.
  unfold packet_image in Hb. rewrite ztake_app_ge in Hb by zlia.
  unfold peekInt16, peek_int. rewrite bb_readable_spec, (proj2 Hb) by apply Hb.
  rewrite c_assert_true by zlia. rewrite ret_bind.
  rewrite (holds_peek 2 (be_bytes 2 DUBBO_MAGIC) _ b Hb), ret_bind by done. reflexivity.
Qed.

(** The first [k] bytes of a packet. *)
Lemma is_completed_ok flag status reqid body k b want :
  0 < zlen body <= DUBBO_MAX_PKT_SZ -> 0 <= k <= DUBBO_HDR_LEN + zlen body ->
  holds (ztake k (packet_image flag status reqid body)) b ->
  is_completed_dubbo_pkt b want =
    Ret (if k <? DUBBO_HDR_LEN then (false, None)
         else (true, if want then Some (DUBBO_HDR_LEN + zlen body - k) else None)).
Proof.
  intros Hbody Hk Hb. unfold is_completed_dubbo_pkt.
  rewrite (is_dubbo_pkt_image flag status reqid body k) by (done || lia). rewrite ret_bind.
  unfold DUBBO_MAX_PKT_SZ, DUBBO_HDR_LEN in *.
  destruct (Z.leb_spec 16 k), (Z.ltb_spec k 16); try lia; cbn [negb]; cbv iota; [|done].
  rewrite bb_readable_spec, (proj2 Hb) by apply Hb.
  set (pre := be_bytes 2 DUBBO_MAGIC ++ be_bytes 1 flag ++ be_bytes 1 status ++ be_bytes 8 reqid).
  assert (packet_image flag status reqid body = pre ++ be_bytes 4 (zlen body) ++ body) as Ei.
  { unfold packet_image, pre. by rewrite <- !app_assoc. }
  assert (zlen pre = 12) as Hpre by (unfold pre; zlia).
  assert (zlen (ztake k (packet_image flag status reqid body)) = k) as ->.
  { rewrite zlen_ztake, zlen_packet_image. unfold DUBBO_HDR_LEN. lia. }
  rewrite Ei in Hb. rewrite app_assoc, ztake_app_ge in Hb by zlia.
  rewrite (holds_peek 16 (pre ++ be_bytes 4 (zlen body)) _ b Hb), ret_bind by zlia.
  rewrite <- (app_nil_r (pre ++ _)), <- app_assoc, slice_app_exact by zlia.
  rewrite (be_signed_roundtrip 4 (zlen body) : _ -> _ -> s32 _ = _) by lia.
  decide_tests. do 2 f_equal. destruct want; [|done]. f_equal.
  rewrite wrapu_small, wraps_small by lia. lia.
Qed.

(** [is_completed_dubbo_pkt] on the first [k] bytes of a packet: false
    before the header is there; then always true, with [*remaining] the
    number of bytes still missing (so positive, not negative, while the
    packet is incomplete) and 0 exactly when it is complete. *)
Theorem is_completed_remaining flag status reqid body k b want :
  0 < zlen body <= DUBBO_MAX_PKT_SZ -> 0 <= k <= DUBBO_HDR_LEN + zlen body ->
  holds (ztake k (packet_image flag status reqid body)) b ->
  is_completed_dubbo_pkt b want =
    Ret (if k <? DUBBO_HDR_LEN then (false, None)
         else (true, if want then Some (DUBBO_HDR_LEN + zlen body - k) else None)).
Proof. apply is_completed_ok. Qed.

(** Reading the header of a response. *)
Lemma decode_header_ok flag status reqid n rest b :
  0 <= flag < 128 -> Z.land flag DUBBO_SERI_MASK = DUBBO_HESSIAN2_SERI_ID ->
  - 2 ^ 7 <= status < 2 ^ 7 -> - 2 ^ 63 <= reqid < 2 ^ 63 -> 0 <= n <= DUBBO_MAX_PKT_SZ ->
  holds (header_image flag status reqid n ++ rest) b ->
  exists b', decode_res_hdr b = Ret (Some (mkDHdr flag status n reqid), b') /\
    holds rest b'.
Proof.
  intros Hf Hs Hst Hrq Hbody Hb. pose proof (zlen_nonneg rest). zlen_facts. unfold decode_res_hdr.
  assert (is_dubbo_pkt b = Ret true) as ->.
  { unfold is_dubbo_pkt. rewrite bb_readable_spec, (proj2 Hb) by apply Hb.
    rewrite zlen_app, zlen_header_image. unfold DUBBO_HDR_LEN.
    destruct (Z.leb_spec 16 (16 + zlen rest)); [|lia].
    unfold header_image in Hb. rewrite <- !app_assoc in Hb.
    unfold peekInt16, peek_int. rewrite bb_readable_spec, (proj2 Hb) by apply Hb.
    rewrite c_assert_true by zlia. rewrite ret_bind.
    by rewrite (holds_peek 2 (be_bytes 2 DUBBO_MAGIC) _ b Hb). }
  rewrite ret_bind. cbn [negb]. cbv iota. unfold header_image in Hb. rewrite <- !app_assoc in Hb.
  unfold DUBBO_MAX_PKT_SZ in *. unfold readInt16, readInt8, readInt64, readInt32.
  destruct (read_raw_eq 2 (be_bytes 2 DUBBO_MAGIC) _ b ltac:(lia) ltac:(done) Hb) as (b1 & -> & Hb1).
  rewrite ret_bind.
  destruct (read_int_eq 1 flag _ b1 ltac:(lia) ltac:(lia) Hb1) as (b2 & E2 & Hb2). rewrite E2, ret_bind.
  destruct (read_int_eq 1 status _ b2 ltac:(lia) ltac:(lia) Hb2) as (b3 & E3 & Hb3). rewrite E3, ret_bind.
  destruct (read_int_eq 8 reqid _ b3 ltac:(lia) ltac:(lia) Hb3) as (b4 & E4 & Hb4). rewrite E4, ret_bind.
  destruct (read_int_eq 4 n _ b4 ltac:(lia) ltac:(lia) Hb4) as (b5 & E5 & Hb5). rewrite E5, ret_bind.
  destruct (Z.ltb_spec (1024 * 1024 * 4) n); [lia|]. rewrite Hs.
  assert (Z.land flag DUBBO_FLAG_REQ = 0) as ->.
  { pose proof (bf_80 flag (byte_bits flag ltac:(unfold is_byte; lia))) as E.
    unfold in_range in E. apply Z.eqb_eq. unfold DUBBO_FLAG_REQ. rewrite E. by decide_tests. }
  exists b5. by split.
Qed.

Lemma decode_res_hdr_ok flag status reqid body rest b :
  0 <= flag < 128 -> Z.land flag DUBBO_SERI_MASK = DUBBO_HESSIAN2_SERI_ID ->
  - 2 ^ 7 <= status < 2 ^ 7 -> - 2 ^ 63 <= reqid < 2 ^ 63 -> zlen body <= DUBBO_MAX_PKT_SZ ->
  holds (packet_image flag status reqid body ++ rest) b ->
  exists b', decode_res_hdr b = Ret (Some (mkDHdr flag status (zlen body) reqid), b') /\
    holds (body ++ rest) b'.
Proof.
  intros Hf Hs Hst Hrq Hbody Hb. zlen_facts. rewrite packet_image_header, <- app_assoc in Hb.
  by apply decode_header_ok.
Qed.

(** A string image at the front of a body buffer. *)
Lemma read_hs_str_ok fuel cs t b :
  Forall scalar cs -> zlen cs < 65536 -> zlen (bb_contents b) < 2 ^ 31 - 8 ->
  holds (hs_header (zlen cs) ++ encs cs ++ t) b ->
  exists b', read_hs_str (S fuel) b =
    Ret (Some (if zlen (encs cs) =? 0 then None else Some (encs cs), zlen (encs cs)), b').
Proof.
  intros Hcs Hl Hsmall [Hi Hc]. zlen_facts. pose proof (zlen_hs_header (zlen cs) ltac:(done)).
  rewrite Hc in Hsmall. unfold read_hs_str.
  rewrite bb_readable_spec, Hc, bb_peek_spec, Hc by (done || rewrite Hc; zlia).
  rewrite ret_bind, ztake_all by lia. rewrite hs_decode_string_chars by (done || zlia).
  rewrite ret_bind. destruct (bb_retrieve_spec b (zlen (encs cs)) Hi) as (b' & -> & _).
  { rewrite Hc. zlia. }
  by exists b'.
Qed.

(** The body of a response: result flag and string, or an error message. *)
Definition response_body (status t : Z) (cs : list Z) (extra : bytes) : bytes :=
  (if status =? DUBBO_RES_T_OK then [0x90 + t] else []) ++ hs_header (zlen cs) ++ encs cs ++ extra.

Lemma decode_res_ok fuel hdr t cs extra b :
  Z.land (hdr_flag hdr) DUBBO_FLAG_EVT = 0 -> t = DUBBO_RES_EX \/ t = DUBBO_RES_VAL ->
  Forall scalar cs -> zlen cs < 65536 -> zlen (bb_contents b) < 2 ^ 31 - 8 ->
  holds (response_body (hdr_status hdr) t cs extra) b ->
  decode_res (S fuel) b hdr =
    Ret (Some (mkRes (hdr_reqid hdr) false (hdr_status hdr =? DUBBO_RES_T_OK)
                 (if hdr_status hdr =? DUBBO_RES_T_OK then t else -1)
                 (get_res_status_desc (hdr_status hdr))
                 (Some (if zlen (encs cs) =? 0 then None else Some (encs cs))) (zlen (encs cs)))).
Proof.
  intros Hev Ht Hcs Hl Hsmall Hb. unfold decode_res. rewrite Hev. unfold response_body in Hb.
  destruct (hdr_status hdr =? DUBBO_RES_T_OK).
  - change (negb (0 =? 0)) with false. cbv iota. unfold decode_res_data, readInt8.
    unfold DUBBO_RES_EX, DUBBO_RES_VAL, DUBBO_RES_NULL in *.
    rewrite <- (be_bytes_1 (0x90 + t)) in Hb by (unfold is_byte; lia).
    destruct (read_raw_eq 1 (be_bytes 1 (0x90 + t)) _ b ltac:(lia) ltac:(done) Hb) as (b1 & E1 & Hb1).
    rewrite E1, ret_bind, (unsigned_read 1 (0x90 + t) : _ -> _ -> u8 _ = _) by lia.
    destruct (read_hs_str_ok fuel cs extra b1) as (b2 & E2); [done|done| |done|].
    { rewrite (proj2 Hb1). rewrite (proj2 Hb) in Hsmall. zlia. }
    replace (0x90 + t - 0x90) with t by lia. rewrite (wrapu_small 8 t) by lia.
    decide_tests; by rewrite E2, ret_bind.
  - destruct (read_hs_str_ok fuel cs extra b) as (b2 & ->); [done..|]. done.
Qed.

(** Decoding a response packet. *)
Lemma dubbo_decode_ok fuel flag status reqid t cs extra rest b :
  let body := response_body status t cs extra in
  0 <= flag < 128 -> Z.land flag DUBBO_SERI_MASK = DUBBO_HESSIAN2_SERI_ID ->
  Z.land flag DUBBO_FLAG_EVT = 0 -> - 2 ^ 7 <= status < 2 ^ 7 -> - 2 ^ 63 <= reqid < 2 ^ 63 ->
  t = DUBBO_RES_EX \/ t = DUBBO_RES_VAL -> Forall scalar cs -> zlen cs < 65536 ->
  all_bytes extra -> zlen body <= DUBBO_MAX_PKT_SZ ->
  holds (packet_image flag status reqid body ++ rest) b ->
  returns (dubbo_decode (S fuel) b) (fun r => holds rest r.2 /\ exists res, r.1 = Some res /\
    res_reqid res = reqid /\ res_ok res = (status =? DUBBO_RES_T_OK) /\
    res_type res = (if status =? DUBBO_RES_T_OK then t else -1) /\
    res_desc res = get_res_status_desc status /\ res_data_sz res = zlen (encs cs) /\
    (cs <> [] -> res_data res = Some (Some (encs cs)) /\ dubbo_res_release res = Ret tt) /\
    (cs = [] -> dubbo_res_release res = Undefined) /\ res_is_evt res = false).
Proof.
  intros body Hf Hs Hev Hst Hrq Ht Hcs Hl Hx Hbody Hb. unfold dubbo_decode.
  destruct (decode_res_hdr_ok flag status reqid body rest b) as (b1 & -> & Hb1); [done..|].
  rewrite ret_bind. cbn [hdr_body_sz]. zlen_facts. unfold DUBBO_MAX_PKT_SZ in Hbody.
  pose proof (zlen_hs_header (zlen cs) ltac:(apply zlen_nonneg)).
  assert (0 < zlen body) by (unfold body, response_body; zlia).
  rewrite (wrapu_small 64 (zlen body)) by lia.
  destruct (bb_create_spec (B := B) (zlen body) 8) as (ob & -> & bd & -> & Hi & Ho & Hc & Hr & _);
    [lia..|]. rewrite ret_bind. cbn [deref]. rewrite ret_bind.
  rewrite (holds_peek (zlen body) body rest b1 Hb1), ret_bind by done.
  assert (all_bytes body) as Hbb.
  { pose proof (bb_contents_bytes b1 (proj1 Hb1)) as Hcb. rewrite (proj2 Hb1) in Hcb.
    by apply all_bytes_app in Hcb as [? _]. }
  destruct (bb_append_spec bd body Hi Ho Hbb) as (bd2 & -> & Hi2 & _ & Hc2 & _); [lia|].
  rewrite Hc, app_nil_l in Hc2. rewrite ret_bind.
  destruct (holds_retrieve (zlen body) body rest b1 Hb1 eq_refl) as (b2 & -> & Hb2). rewrite ret_bind.
  rewrite (decode_res_ok fuel (mkDHdr flag status (zlen body) reqid) t cs extra) by
    (first [done | by split | rewrite Hc2; lia]).
  rewrite ret_bind. apply returns_ret. split; [done|]. eexists. split; [reflexivity|].
  cbn [hdr_status hdr_reqid res_reqid res_ok res_type res_desc res_data_sz res_data].
  split_and!; try done.
  - intros Hne. assert (0 < zlen (encs cs)).
    { pose proof (zlen_encs cs). destruct cs; [done|]. rewrite zlen_cons in *. zlen_facts. lia. }
    destruct (Z.eqb_spec (zlen (encs cs)) 0); [lia|]. by split.
  - by intros ->.
Qed.

(** C25.  [dubbo_decode] of a response with a string result, or with an error
    status and a message: the request id, the status, the result type and
    the text (as UTF-8) are those sent, and the next packet is left in the
    buffer.  An empty text leaves a dangling pointer, which
    [dubbo_res_release] frees again. *)
Theorem dubbo_decode_response fuel flag status reqid t cs extra rest b :
  let body := response_body status t cs extra in
  0 <= flag < 128 -> Z.land flag DUBBO_SERI_MASK = DUBBO_HESSIAN2_SERI_ID ->
  Z.land flag DUBBO_FLAG_EVT = 0 -> - 2 ^ 7 <= status < 2 ^ 7 -> - 2 ^ 63 <= reqid < 2 ^ 63 ->
  t = DUBBO_RES_EX \/ t = DUBBO_RES_VAL -> Forall scalar cs -> zlen cs < 65536 ->
  all_bytes extra -> zlen body <= DUBBO_MAX_PKT_SZ ->
  holds (packet_image flag status reqid body ++ rest) b ->
  returns (dubbo_decode (S fuel) b) (fun r => holds rest r.2 /\ exists res, r.1 = Some res /\
    res_reqid res = reqid /\ res_ok res = (status =? DUBBO_RES_T_OK) /\
    res_type res = (if status =? DUBBO_RES_T_OK then t else -1) /\
    res_desc res = get_res_status_desc status /\ res_data_sz res = zlen (encs cs) /\
    (cs <> [] -> res_data res = Some (Some (encs cs)) /\ dubbo_res_release res = Ret tt) /\
    (cs = [] -> dubbo_res_release res = Undefined)).
Proof.
  intros body Hf Hs Hev Hst Hrq Ht Hcs Hl Hx Hbody Hb.
  eapply returns_mono; [by apply (dubbo_decode_ok fuel flag status reqid t cs extra rest b)|].
  intros r (Hr & res & -> & ? & ? & ? & ? & ? & ? & ? & _). split; [done|]. by exists res.
Qed.

(** Decoding leaves the buffer fit for the next packet. *)
Lemma decode_res_hdr_kept b o b' : bb_inv b -> decode_res_hdr b = Ret (o, b') -> kept b b'.
Proof.
  intros Hi. assert (kept b b) as Hb by (by split_and!). unfold decode_res_hdr, readInt16, readInt8, readInt64, readInt32.
  destruct (is_dubbo_pkt b) as [ok| | |]; try done. rewrite ret_bind. destruct ok; [cbn [negb]|by intros [= _ <-]].
  do 5 (match goal with |- mbind _ (read_int ?n ?b) = _ -> _ =>
    let E := fresh in
    destruct (read_int n b) as [[? ?]| | |] eqn:E; try done; rewrite ret_bind;
    apply read_int_kept in E; [|by apply Hb|lia];
    let Hb' := fresh in pose proof (kept_trans _ _ _ Hb E) as Hb'; clear Hb; rename Hb' into Hb
  end).
  repeat case_match; by intros [= _ <-].
Qed.

Lemma dubbo_decode_kept fuel b o b' : bb_inv b -> dubbo_decode fuel b = Ret (o, b') -> kept b b'.
Proof.
  intros Hi. unfold dubbo_decode. destruct (decode_res_hdr b) as [[oh b1]| | |] eqn:E1; try done. rewrite ret_bind.
  apply decode_res_hdr_kept in E1; [|done]. destruct oh as [hdr|]; [|by intros [= _ <-]].
  destruct (bb_create _ _) as [ob| | |]; try done. rewrite ret_bind. destruct ob as [bd|]; [|done].
  cbn [deref]. rewrite ret_bind. destruct (bb_peek b1 _) as [d| | |]; try done. rewrite ret_bind.
  destruct (bb_append bd d) as [bd'| | |]; try done. rewrite ret_bind.
  destruct (bb_retrieve b1 _) as [b2| | |] eqn:E2; try done. rewrite ret_bind.
  destruct (decode_res fuel bd' hdr) as [r| | |]; try done. rewrite ret_bind. intros [= _ <-].
  eapply kept_trans; [exact E1|]. eapply retrieve_kept; [apply E1| |exact E2]. apply wrapu_range. lia.
Qed.
End decode_laws.

(** ** Concrete packets *)
Section examples.
#[local] Existing Instances big_alloc big_alloc_total.

Lemma utf82ascii_spec_witness :
  exists cs t, Forall scalar cs /\ str "a" ++ [195; 169; 240; 159; 152; 128] = encs cs ++ t /\
    ((t = [] /\ utf82ascii (B := buffer) ((str "a" ++ [195; 169; 240; 159; 152; 128]) ++ [0] ++ [])
                = Ret (Some (escapes cs ++ [0]))) \/
     (malformed t /\ utf82ascii (B := buffer) ((str "a" ++ [195; 169; 240; 159; 152; 128]) ++ [0] ++ [])
                = Ret None)).
Proof.
  refine (utf82ascii_spec (B := buffer) (str "a" ++ [195; 169; 240; 159; 152; 128]) [] _ _ _ _);
    first [vm_decide | discriminate].
Defined.

(** The empty text: the buffer of size 0 cannot be created. *)
Example utf82ascii_empty_aborts : utf82ascii (B := buffer) [0] = AssertFail.
Proof. reflexivity. Qed.

Definition demo_req : dubbo_req :=
  mkReq 7 true false (str "a.Svc" ++ [0]) (str "get" ++ [0])
    [Some (str "get" ++ [0]); None; Some (str "[1]" ++ [0])] 3 None None 0.

Lemma dubbo_encode_image_witness :
  returns (dubbo_encode (B := buffer) demo_req) (fun o => exists b, o = Some b /\
    bb_inv b /\ bb_contents b =
      packet_image (request_flag true) 0 7 (request_body (str "a.Svc") (str "get") (str "[1]"))).
Proof.
  refine (proj1 (dubbo_encode_image (B := buffer) demo_req (str "a.Svc") (str "get") (str "[1]")
            _ _ _ _ _) _); try vm_decide; try reflexivity.
  split_and!; exists []; reflexivity.
Defined.

(** Twenty of the twenty-six bytes of a packet have arrived. *)
Lemma is_completed_remaining_witness :
  is_completed_dubbo_pkt (loaded (ztake 20 (packet_image 2 20 7 (str "0123456789")))) true
  = Ret (true, Some 6).
Proof.
  refine (is_completed_remaining (B := buffer) 2 20 7 (str "0123456789") 20
    (loaded (ztake 20 (packet_image 2 20 7 (str "0123456789")))) true _ _ _); [vm_decide|vm_decide|].
  apply loaded_holds; vm_decide.
Defined.

Lemma dubbo_decode_response_witness :
  let body := response_body 20 1 [233; 65] [78] in
  let b := loaded (packet_image 2 20 7 body ++ [9]) in
  returns (dubbo_decode 1 b) (fun r => holds [9] r.2 /\ exists res, r.1 = Some res /\
    res_reqid res = 7 /\ res_ok res = (20 =? DUBBO_RES_T_OK) /\
    res_type res = (if 20 =? DUBBO_RES_T_OK then 1 else -1) /\
    res_desc res = get_res_status_desc 20 /\ res_data_sz res = zlen (encs [233; 65]) /\
    ([233; 65] <> [] -> res_data res = Some (Some (encs [233; 65])) /\ dubbo_res_release res = Ret tt) /\
    ([233; 65] = [] -> dubbo_res_release res = Undefined)).
Proof.
  refine (dubbo_decode_response (B := buffer) 0 2 20 7 1 [233; 65] [78] [9]
    (loaded (packet_image 2 20 7 (response_body 20 1 [233; 65] [78]) ++ [9])) _ _ _ _ _ _ _ _ _ _ _);
    try vm_decide; try reflexivity; try (by right).
Defined.
End examples.
