(* ===== verification/DubboClient.v ===== *)
(** * The dubbo command-line client

    [dubbo_client/dubbo_client.c]: the synchronous call, which composes the
    codec of [DubboCodec] with [socket_sendAllSync] and [buf_readFd]; and
    the option parsing of [dubbo_client/dubbo.c].  The connection is a
    script of answers; what cJSON (vendored) parses and prints is a
    parameter. *)

From stdpp Require Import base tactics numbers list option strings.
From Stdlib Require Import Lia.
From S2P Require Import Prelude ByteBuf Buffer Stream Cli Socket Utf8 Hessian DubboCodec.

(** ** Options ([dubbo.c]) *)
Record dubbo_args := mkArgs {
  host : option bytes;
  port : option bytes;
  service : option bytes;
  method : option bytes;
  args : option bytes;
  attach : option bytes;
  timeout_sec : Z
}.

Record dubbo_async_args := mkAsync { pipe_n : Z; req_n : Z; verbos : bool }.

(** One round of the [switch]; [None]: usage and exit. *)
Definition main_opt (g : dubbo_args) (a : dubbo_async_args) (opt : Z) (optarg : option bytes)
  : outcome (option (dubbo_args * dubbo_async_args)) :=
  let optarg := trim_opt optarg in
  if opt =? 104 (* h *) then
    Ret (Some (mkArgs optarg (port g) (service g) (method g) (args g) (attach g) (timeout_sec g), a))
  else if opt =? 112 (* p *) then
    Ret (Some (mkArgs (host g) optarg (service g) (method g) (args g) (attach g) (timeout_sec g), a))
  else if opt =? 109 (* m *) then
    let! s := deref optarg in
    match strrchr s 46 with
    | None => Ret None
    | Some c =>
      Ret (Some (mkArgs (host g) (port g) (Some (ztake c s)) (Some (zdrop (c + 1) s))
        (args g) (attach g) (timeout_sec g), a))
    end
  else if opt =? 97 (* a *) then
    Ret (Some (mkArgs (host g) (port g) (service g) (method g) optarg (attach g) (timeout_sec g), a))
  else if opt =? 101 (* e *) then
    Ret (Some (mkArgs (host g) (port g) (service g) (method g) (args g) optarg (timeout_sec g), a))
  else if opt =? 116 (* t *) then
    let! s := deref optarg in
    let! n := atoi s in
    Ret (Some (mkArgs (host g) (port g) (service g) (method g) (args g) (attach g) n, a))
  else if opt =? 99 (* c *) then
    let! s := deref optarg in
    let! n := atoi s in
    Ret (Some (g, mkAsync n (req_n a) (verbos a)))
  else if opt =? 110 (* n *) then
    let! s := deref optarg in
    let! n := atoi s in
    Ret (Some (g, mkAsync (pipe_n a) n (verbos a)))
  else if opt =? 118 (* v *) then Ret (Some (g, mkAsync (pipe_n a) (req_n a) true))
  else if opt =? 63 (* ? *) then Ret None
  else Ret (Some (g, a)).

Fixpoint main_opts (g : dubbo_args) (a : dubbo_async_args) (opts : list (Z * option bytes))
  : outcome (option (dubbo_args * dubbo_async_args)) :=
  match opts with
  | [] => Ret (Some (g, a))
  | (o, arg) :: opts =>
    let! r := main_opt g a o arg in
    match r with None => Ret None | Some (g, a) => main_opts g a opts end
  end.

(** The checks of [main] after the options; the two arguments say what cJSON
    parses: the arguments to an object or an array, the attachment to an
    object.  [None]: usage and exit. *)
Definition main_checks (json_args json_attach : bytes -> bool) (g : dubbo_args) (a : dubbo_async_args)
  : option (dubbo_args * dubbo_async_args) :=
  match host g, port g, service g, method g, args g with
  | Some _, Some _, Some _, Some _, Some ar =>
    if negb (0 <? timeout_sec g) then None else
    if negb (json_args ar) then None else
    match attach g with
    | Some at_ => if json_attach at_ then Some (g, a) else None
    | None => None
    end
  | _, _, _, _, _ => None
  end.

Definition main (json_args json_attach : bytes -> bool) (opts : list (Z * option bytes))
  : outcome (option (dubbo_args * dubbo_async_args)) :=
  let! r := main_opts (mkArgs None None None None None (Some (str "{}")) 3) (mkAsync 0 0 false) opts in
  match r with None => Ret None | Some (g, a) => Ret (main_checks json_args json_attach g a) end.

(** Which of the two clients [main] starts. *)
Definition bench (a : dubbo_async_args) : bool := (0 <? req_n a) && (0 <? pipe_n a).

(** ** The synchronous call *)

(** What the kernel answers: whether the connection is made, then [send]
    and [readv]. *)
Record env := mkEnv {
  connected : bool;
  sends : list send_answer;
  readvs : list (list Z -> Z * bytes)
}.

(** A line printed: green or red. *)
Inductive line := Green (s : bytes) | Red (s : bytes).

(** The return value, the bytes sent, the lines printed, and whether the
    request, the buffer and the socket acquired were given back. *)
Record invoked := mkInvoked { ret : bool; wire : bytes; lines : list line; released : bool }.

Section sync.
Context `{Allocator}.
Context (cjson_elements : bytes -> option bytes).
(** [cJSON_Parse] followed by [cJSON_Print]. *)
Context (cjson_pretty : bytes -> option bytes).

(** The first [for (;;)]; [None]: [goto release]. *)
Fixpoint recv_first (rs : list (list Z -> Z * bytes)) (b : buffer) (errno_ : Z)
  : outcome (option (buffer * Z * list (list Z -> Z * bytes))) :=
  match rs with
  | [] => OutOfFuel
  | r :: rs =>
    let! (recv_n, e, b) := buf_readFd r b in
    let errno_ := default errno_ e in
    if recv_n <? 0 then
      if errno_ =? EINTR then recv_first rs b errno_ else Ret None
    else
      let! ok := is_dubbo_pkt b in
      if negb ok then Ret None else Ret (Some (b, errno_, rs))
  end.

(** [while (remaining < 0)]. *)
Fixpoint recv_remaining (rs : list (list Z -> Z * bytes)) (b : buffer) (errno_ remaining : Z)
  : outcome (option buffer) :=
  if remaining <? 0 then
    match rs with
    | [] => OutOfFuel
    | r :: rs =>
      let! (recv_n, e, b) := buf_readFd r b in
      let errno_ := default errno_ e in
      if recv_n <? 0 then
        if errno_ =? EINTR then recv_remaining rs b errno_ remaining else Ret None
      else recv_remaining rs b errno_ (s32 (remaining + recv_n))
    end
  else Ret (Some b).

(** The lines printed for a response. *)
Definition show_response (res : dubbo_res) : outcome (list line) :=
  if res_is_evt res then Ret [] else
  if negb (res_data_sz res =? 0) then
    let! p := deref (res_data res) in
    let! data := deref p in
    let! d := mem_read data 0 (res_data_sz res) in
    let json := d ++ [0] in
    let! c := arr_get json 0 in
    match (if (c =? 91) || (c =? 123) then cjson_pretty json else None) with
    | Some text =>
      if res_ok res then Ret [Green text] else Ret [Red (res_desc res); Red text]
    | None =>
      let! s := c_str json in
      if res_ok res then Ret [Green s] else Ret [Red s]
    end
  else Ret [Green (str "NULL")].

(** From the first read on.  [res == NULL] returns without releasing. *)
Definition receive_response (fuel : nat) (rs : list (list Z -> Z * bytes)) (b : buffer) (wire : bytes)
  : outcome invoked :=
  let! f := recv_first rs b 0 in
  match f with
  | None => Ret (mkInvoked false wire [] true)
  | Some (b, errno_, rs) =>
    let! (ok, rem) := is_completed_dubbo_pkt b true in
    if negb ok then Ret (mkInvoked false wire [] true) else
    let! w := recv_remaining rs b errno_ (default 0 rem) in
    match w with
    | None => Ret (mkInvoked false wire [] true)
    | Some b =>
      let! (res, b) := dubbo_decode fuel b in
      match res with
      | None => Ret (mkInvoked false wire [] false)
      | Some res =>
        let! ls := show_response res in
        dubbo_res_release res ;;
        Ret (mkInvoked false wire ls true)
      end
    end
  end.

(** [id]: the static request counter.  [ret] is initialised to false and
    never set. *)
Definition dubbo_invoke_sync (fuel : nat) (id : Z) (serv mth arg : bytes) (att : option bytes) (e : env)
  : outcome invoked :=
  let! (oreq, id) := dubbo_req_create (B := buffer) cjson_elements id serv mth arg att in
  match oreq with
  | None => Ret (mkInvoked false [] [] true)
  | Some req =>
    let! obuf := dubbo_encode (B := buffer) req in
    match obuf with
    | None => Ret (mkInvoked false [] [] true)
    | Some buf =>
      if negb (connected e) then Ret (mkInvoked false [] [] true) else
      let! data := bb_peek buf (bb_readable buf) in
      let! (send_n, wire, rest) := socket_sendAllSync (sends e) data (bb_readable buf) in
      if negb (send_n =? bb_readable buf) then Ret (mkInvoked false wire [] true) else
      receive_response fuel (readvs e) (buf_retrieveAll buf) wire
    end
  end.
End sync.

(** ** What a call does *)
Section sync_laws.
Context `{AllocTotal}.
Context (cjson_elements cjson_pretty : bytes -> option bytes).

(** The lines for a text: as cJSON formats it when it looks like an array or
    an object and is one. *)
Definition shown (ok : bool) (desc text : bytes) : list line :=
  let pretty := match text with
    | c :: _ => if (c =? 91) || (c =? 123) then cjson_pretty (text ++ [0]) else None
    | [] => None
    end in
  match pretty with
  | Some s => if ok then [Green s] else [Red desc; Red s]
  | None => if ok then [Green text] else [Red text]
  end.

Lemma show_response_ok res text :
  res_is_evt res = false -> res_data res = Some (Some text) -> res_data_sz res = zlen text ->
  text <> [] -> no_nul text ->
  show_response cjson_pretty res = Ret (shown (res_ok res) (res_desc res) text).
Proof.
  intros He Hd Hs Hne Hn. unfold show_response. rewrite He, Hd, Hs. cbn [deref]. zlen_facts.
  destruct (Z.eqb_spec (zlen text) 0) as [E|_]; [by apply zlen_nil_inv in E|]. cbn [negb]. repeat (rewrite ret_bind; cbn [deref]).
  rewrite mem_read_ok, slice_0_all, ret_bind by lia. destruct text as [|c text]; [done|].
  change (arr_get ((c :: text) ++ [0]) 0) with (Ret c). rewrite ret_bind. unfold shown, c_str.
  destruct (if (c =? 91) || (c =? 123) then cjson_pretty ((c :: text) ++ [0]) else None) as [s|];
    [by destruct (res_ok res)|].
  pose proof (strlen_cstr (c :: text) []) as E. rewrite app_nil_r in E. rewrite E, !ret_bind by done.
  rewrite ztake_app_exact by done. by destruct (res_ok res).
Qed.

(** The request goes out whole. *)
Lemma invoke_sends fuel id serv mth arg att acs ss rs :
  let request := packet_image (request_flag true) 0 (next_reqid id) (request_body serv mth (escapes acs)) in
  hs_ok serv -> hs_ok mth -> no_nul att ->
  prints_args cjson_elements arg acs -> Forall scalar acs -> acs <> [] ->
  no_nul (encs acs) -> zlen (encs acs) < 2 ^ 30 -> hs_ok (escapes acs) ->
  zlen (request_body serv mth (escapes acs)) <= DUBBO_BUF_LEN ->
  send_answers (zlen request) ss -> taken (zlen request) ss = zlen request ->
  exists b, writes [] (2 ^ 62) b /\
    dubbo_invoke_sync cjson_elements cjson_pretty fuel id (serv ++ [0]) (mth ++ [0]) (arg ++ [0]) (Some (att ++ [0]))
      (mkEnv true ss rs) = receive_response cjson_pretty fuel rs b request.
Proof.
  intros request Hs Hm Ha Hc Hcs Hne Hn Hl He Hfit Hss Htk. unfold dubbo_invoke_sync.
  destruct (dubbo_req_create_ok (B := buffer) cjson_elements id serv mth arg att acs)
    as (req & -> & Hev & Htw & Hid & Hd); try done; [apply Hs|apply Hm|].
  rewrite ret_bind. destruct (dubbo_encode_ok (B := buffer) req serv mth (escapes acs)) as [Henc _]; try done.
  destruct (Henc Hfit) as (ob & -> & b & -> & Hi & Hcb & Hu & Hr). rewrite Htw, Hid in Hcb.
  fold request in Hcb. clear Henc. rewrite ret_bind. cbn [connected negb sends readvs].
  pose proof (zlen_nonneg request). assert (zlen request < 2 ^ 63) as Hsm.
  { pose proof (bb_contents_small b Hi) as E. by rewrite Hcb in E. }
  rewrite (bb_readable_spec b), Hcb by done. rewrite bb_peek_spec, Hcb, ret_bind by (done || rewrite Hcb; lia).
  rewrite ztake_all by done.
  destruct (sendAll_ok ss request (zlen request)) as ([[n w] rest] & E & Er); [lia|lia|done|].
  simpl in Er. injection Er as -> ->. rewrite E, ret_bind, Htk, Z.eqb_refl. cbn [negb].
  rewrite ztake_all by done. exists (buf_retrieveAll b). split; [|done].
  destruct (bb_retrieveAll_spec b Hi) as (? & ? & Ho & E' & _). simpl in Ho, E'.
  refine (conj _ (conj (Ho Hu) (conj _ _))); [done|done|]. simpl. rewrite E'. done.
Qed.

(** The first read brings [c], which starts with a packet header. *)
Lemma recv_first_ok c b rs flag status reqid body k :
  writes [] (2 ^ 62) b -> all_bytes (packet_image flag status reqid body) ->
  c = ztake k (packet_image flag status reqid body) ->
  DUBBO_HDR_LEN <= k <= DUBBO_HDR_LEN + zlen body -> zlen c <= extrabuf_sz ->
  exists b', recv_first (deliver c :: rs) b 0 = Ret (Some (b', 0, rs)) /\ holds c b' /\ buf_open b'.
Proof.
  intros Hw Hb Hc Hk Hl. cbn [recv_first]. zlen_facts.
  destruct (read_chunk [] (2 ^ 62) b c) as (b1 & -> & Hi & Ho & Hc1 & _);
    [done|unfold extrabuf_sz; lia|rewrite Hc; auto with bytes|done|].
  rewrite ret_bind. destruct (Z.ltb_spec (zlen c) 0); [lia|]. cbn [default].
  assert (holds c b1) as Hh by (split; [exact Hi|exact Hc1]).
  rewrite (is_dubbo_pkt_image flag status reqid body k), ret_bind; [|unfold DUBBO_HDR_LEN in *; lia|by rewrite <- Hc|lia].
  destruct (Z.leb_spec DUBBO_HDR_LEN k); [|lia]. cbn [negb]. by exists b1.
Qed.

(** The second loop does not run while bytes are missing. *)
Lemma recv_remaining_skip rs b e r : 0 <= r -> recv_remaining rs b e r = Ret (Some b).
Proof. intros Hr. destruct rs; cbn [recv_remaining]; by destruct (Z.ltb_spec r 0); [lia|]. Qed.

Lemma all_bytes_response status t cs extra :
  t = DUBBO_RES_EX \/ t = DUBBO_RES_VAL -> Forall scalar cs -> zlen cs < 65536 -> all_bytes extra ->
  all_bytes (response_body status t cs extra).
Proof.
  intros Ht Hcs Hl Hx. unfold response_body. zlen_facts. rewrite !all_bytes_app. split_and!; try done.
  - destruct (status =? DUBBO_RES_T_OK); [|constructor]. constructor; [|constructor].
    unfold is_byte, DUBBO_RES_EX, DUBBO_RES_VAL in *. lia.
  - by apply all_bytes_hs_header.
  - by apply all_bytes_encs.
Qed.

Lemma all_bytes_packet flag status reqid body : all_bytes body -> all_bytes (packet_image flag status reqid body).
Proof. intros Hb. unfold packet_image. rewrite !all_bytes_app. auto 20 with bytes. Qed.

(** C36.  One synchronous call, end to end, when the reply arrives in one
    read: the request on the wire is the generic call of the service and the
    method with the arguments as cJSON prints them, in ASCII escapes, for
    every split of [send]; the text of the reply is printed, formatted when
    it is JSON, green or red by its status.  The return value is false all
    the same. *)
Theorem dubbo_invoke_sync_ok fuel id serv mth arg att acs ss rs flag status reqid t cs extra :
  let request := packet_image (request_flag true) 0 (next_reqid id) (request_body serv mth (escapes acs)) in
  let reply := packet_image flag status reqid (response_body status t cs extra) in
  hs_ok serv -> hs_ok mth -> no_nul att ->
  prints_args cjson_elements arg acs -> Forall scalar acs -> acs <> [] ->
  no_nul (encs acs) -> zlen (encs acs) < 2 ^ 30 -> hs_ok (escapes acs) ->
  zlen (request_body serv mth (escapes acs)) <= DUBBO_BUF_LEN ->
  send_answers (zlen request) ss -> taken (zlen request) ss = zlen request ->
  0 <= flag < 128 -> Z.land flag DUBBO_SERI_MASK = DUBBO_HESSIAN2_SERI_ID ->
  Z.land flag DUBBO_FLAG_EVT = 0 -> - 2 ^ 7 <= status < 2 ^ 7 -> - 2 ^ 63 <= reqid < 2 ^ 63 ->
  t = DUBBO_RES_EX \/ t = DUBBO_RES_VAL -> Forall scalar cs -> cs <> [] -> no_nul (encs cs) ->
  all_bytes extra -> zlen reply <= extrabuf_sz ->
  dubbo_invoke_sync cjson_elements cjson_pretty (S fuel) id (serv ++ [0]) (mth ++ [0]) (arg ++ [0])
    (Some (att ++ [0])) (mkEnv true ss (deliver reply :: rs)) =
  Ret (mkInvoked false request
    (shown (status =? DUBBO_RES_T_OK) (get_res_status_desc status) (encs cs)) true).
Proof.
  intros request reply Hs Hm Ha Hc Hacs Hne Hn Hl He Hfit Hss Htk Hf Hser Hev Hst Hrq Ht Hcs Hcne Hcn Hx Hrep.
  destruct (invoke_sends (S fuel) id serv mth arg att acs ss (deliver reply :: rs)) as (b & Hw & ->); try done.
  fold request. subst reply. set (body := response_body status t cs extra) in *.
  assert (zlen body <= extrabuf_sz - 16) as Hbl.
  { rewrite zlen_packet_image in Hrep. unfold DUBBO_HDR_LEN in Hrep. lia. }
  assert (0 < zlen cs) by (destruct cs; [done|rewrite zlen_cons; zlen_facts; lia]).
  pose proof (zlen_encs cs). unfold extrabuf_sz in *.
  assert (zlen (encs cs) <= zlen body) by (unfold body, response_body; rewrite !zlen_app; zlen_facts; lia).
  assert (all_bytes body) as Hbb by (apply all_bytes_response; done || lia).
  unfold receive_response.
  destruct (recv_first_ok (packet_image flag status reqid body) b rs flag status reqid body (DUBBO_HDR_LEN + zlen body))
    as (b1 & -> & Hb1 & _); [done|by apply all_bytes_packet| |lia|done|].
  { symmetry. apply ztake_all. rewrite zlen_packet_image. lia. }
  rewrite ret_bind. rewrite (is_completed_ok flag status reqid body (DUBBO_HDR_LEN + zlen body));
    [|unfold DUBBO_MAX_PKT_SZ; lia|unfold DUBBO_HDR_LEN; lia|].
  2: { rewrite ztake_all by (rewrite zlen_packet_image; lia). exact Hb1. }
  destruct (Z.ltb_spec (DUBBO_HDR_LEN + zlen body) DUBBO_HDR_LEN); [lia|]. rewrite ret_bind. cbn [negb default].
  rewrite recv_remaining_skip, ret_bind by (simpl; lia).
  destruct (dubbo_decode_ok fuel flag status reqid t cs extra [] b1) as ([r b2] & -> & _ & res & Er & Hres);
    try done; [lia|unfold DUBBO_MAX_PKT_SZ; fold body; lia|by rewrite app_nil_r|].
  simpl in Er. subst r. destruct Hres as (_ & Hok & _ & Hdesc & Hsz & Hdata & _ & Hevt).
  destruct (Hdata Hcne) as [Hd Hrel]. rewrite ret_bind.
  rewrite (show_response_ok res (encs cs)), ret_bind; try done.
  - by rewrite Hrel, ret_bind, Hok, Hdesc.
  - intros En. rewrite En in *. rewrite zlen_nil in *. lia.
Qed.

(** A header whose announced body has not arrived in full: the body is copied
    from the buffer all the same. *)
Lemma dubbo_decode_cut fuel flag status reqid n rest (b : buffer) :
  0 <= flag < 128 -> Z.land flag DUBBO_SERI_MASK = DUBBO_HESSIAN2_SERI_ID ->
  - 2 ^ 7 <= status < 2 ^ 7 -> - 2 ^ 63 <= reqid < 2 ^ 63 -> zlen rest < n <= DUBBO_MAX_PKT_SZ ->
  holds (header_image flag status reqid n ++ rest) b ->
  dubbo_decode fuel b = AssertFail \/ dubbo_decode fuel b = Undefined.
Proof.
  intros Hf Hs Hst Hrq Hn Hb. zlen_facts. unfold DUBBO_MAX_PKT_SZ in Hn. unfold dubbo_decode.
  destruct (decode_header_ok flag status reqid n rest b) as (b1 & -> & [Hi Hc]);
    [done..|unfold DUBBO_MAX_PKT_SZ; lia|done|]. rewrite ret_bind. cbn [hdr_body_sz].
  rewrite (wrapu_small 64 n) by lia.
  destruct (bb_create_spec (B := buffer) n 8) as (ob & -> & bd & -> & Hbi & Ho & Hbc & Hr & _ & Hw & _);
    [lia..|]. rewrite ret_bind. cbn [deref]. rewrite ret_bind.
  change (bb_peek b1 n) with (mem_read (Buffer.buf b1) (read_idx b1) n). unfold mem_read.
  case_bool_decide as Hin; [|by right]. left. rewrite ret_bind.
  assert (zlen (ztake n (zdrop (read_idx b1) (Buffer.buf b1))) = n) as Hl.
  { rewrite zlen_ztake, zlen_zdrop. lia. }
  destruct (bb_append_spec bd (ztake n (zdrop (read_idx b1) (Buffer.buf b1)))) as (b2 & -> & _);
    [done|done| |rewrite Hl, Hr; lia|].
  { apply all_bytes_ztake, all_bytes_zdrop, Hi. }
  rewrite ret_bind. by rewrite bb_retrieve_short by (done || (rewrite Hc; lia)).
Qed.

(** A reply that arrives in more than one read, the header in the first:
    [is_completed_dubbo_pkt] reports the missing bytes as a positive number,
    the loop waits while the number is negative, so the packet is decoded
    before it is there, and the process dies. *)
Theorem dubbo_invoke_sync_split_reply fuel id serv mth arg att acs ss rs flag status reqid body k :
  let request := packet_image (request_flag true) 0 (next_reqid id) (request_body serv mth (escapes acs)) in
  let reply := packet_image flag status reqid body in
  hs_ok serv -> hs_ok mth -> no_nul att ->
  prints_args cjson_elements arg acs -> Forall scalar acs -> acs <> [] ->
  no_nul (encs acs) -> zlen (encs acs) < 2 ^ 30 -> hs_ok (escapes acs) ->
  zlen (request_body serv mth (escapes acs)) <= DUBBO_BUF_LEN ->
  send_answers (zlen request) ss -> taken (zlen request) ss = zlen request ->
  0 <= flag < 128 -> Z.land flag DUBBO_SERI_MASK = DUBBO_HESSIAN2_SERI_ID ->
  - 2 ^ 7 <= status < 2 ^ 7 -> - 2 ^ 63 <= reqid < 2 ^ 63 ->
  all_bytes body -> zlen body <= DUBBO_MAX_PKT_SZ ->
  DUBBO_HDR_LEN <= k < zlen reply -> k <= extrabuf_sz ->
  let run := dubbo_invoke_sync cjson_elements cjson_pretty fuel id (serv ++ [0]) (mth ++ [0]) (arg ++ [0])
    (Some (att ++ [0])) (mkEnv true ss (deliver (ztake k reply) :: rs)) in
  run = AssertFail \/ run = Undefined.
Proof.
  intros request reply Hs Hm Ha Hc Hacs Hne Hn Hl He Hfit Hss Htk Hf Hser Hst Hrq Hbb Hbody Hk Hke run.
  subst run. destruct (invoke_sends fuel id serv mth arg att acs ss (deliver (ztake k reply) :: rs))
    as (b & Hw & ->); try done. fold request. unfold receive_response.
  assert (zlen reply = DUBBO_HDR_LEN + zlen body) as Hrl by apply zlen_packet_image.
  assert (zlen (ztake k reply) = k) as Hkl.
  { rewrite zlen_ztake. unfold DUBBO_HDR_LEN in *. lia. }
  destruct (recv_first_ok (ztake k reply) b rs flag status reqid body k)
    as (b1 & -> & Hb1 & _); [done|by apply all_bytes_packet|done|lia|lia|].
  rewrite ret_bind, (is_completed_ok flag status reqid body k); [|split; [unfold DUBBO_HDR_LEN in *; lia|done]|unfold DUBBO_HDR_LEN in *; lia|done].
  destruct (Z.ltb_spec k DUBBO_HDR_LEN); [lia|]. rewrite ret_bind. cbn [negb default].
  rewrite recv_remaining_skip, ret_bind by (simpl; lia).
  assert (reply = header_image flag status reqid (zlen body) ++ body) as Er.
  { apply packet_image_header. }
  rewrite Er, ztake_app_ge in Hb1 by (rewrite zlen_header_image; unfold DUBBO_HDR_LEN in *; lia).
  eapply (dubbo_decode_cut fuel flag status reqid (zlen body)) in Hb1 as [-> | ->]; try done; [by left|by right|].
  rewrite zlen_header_image, zlen_ztake. unfold DUBBO_HDR_LEN in *. zlen_facts. lia.
Qed.
End sync_laws.

(** ** Concrete calls *)
Section examples.
#[local] Existing Instances big_alloc big_alloc_total.

(** Both parameters, at one input. *)
Definition demo_elements (arg : bytes) : option bytes :=
  if bool_decide (arg = str "[1]" ++ [0]) then Some (str "[1]" ++ [0]) else None.
Definition demo_pretty (text : bytes) : option bytes :=
  if bool_decide (text = str "{}" ++ [0]) then Some (str "{ }") else None.

Definition demo_request : bytes :=
  packet_image (request_flag true) 0 (next_reqid 6)
    (request_body (str "a.Svc") (str "get") (escapes (str "[1]"))).

Lemma dubbo_invoke_sync_witness :
  dubbo_invoke_sync demo_elements demo_pretty 1 6 (str "a.Svc" ++ [0]) (str "get" ++ [0]) (str "[1]" ++ [0])
    (Some (str "{}" ++ [0]))
    (mkEnv true [Sent 10; SendFailed EINTR; Sent (zlen demo_request - 10)]
       [deliver (packet_image 2 20 7 (response_body 20 1 (str "{}") [78]))]) =
  Ret (mkInvoked false demo_request (shown demo_pretty true (get_res_status_desc 20) (str "{}")) true).
Proof.
  refine (dubbo_invoke_sync_ok demo_elements demo_pretty 0 6 (str "a.Svc") (str "get") (str "[1]") (str "{}")
    (str "[1]") [Sent 10; SendFailed EINTR; Sent (zlen demo_request - 10)] [] 2 20 7 1 (str "{}") [78]
    _ _ _ _ _ _ _ _ _ _ _ _ _ _ _ _ _ _ _ _ _ _ _); try vm_decide; try reflexivity; try (by right); by exists [].
Defined.
Lemma dubbo_invoke_sync_split_witness :
  let run := dubbo_invoke_sync demo_elements demo_pretty 1 6 (str "a.Svc" ++ [0]) (str "get" ++ [0]) (str "[1]" ++ [0])
    (Some (str "{}" ++ [0]))
    (mkEnv true [Sent 10; SendFailed EINTR; Sent (zlen demo_request - 10)]
       (deliver (ztake 20 (packet_image 2 20 7 (response_body 20 1 (str "{}") [78])))
        :: [deliver (zdrop 20 (packet_image 2 20 7 (response_body 20 1 (str "{}") [78])))])) in
  run = AssertFail \/ run = Undefined.
Proof.
  refine (dubbo_invoke_sync_split_reply demo_elements demo_pretty 1 6 (str "a.Svc") (str "get") (str "[1]") (str "{}")
    (str "[1]") [Sent 10; SendFailed EINTR; Sent (zlen demo_request - 10)] _ 2 20 7 (response_body 20 1 (str "{}") [78]) 20
    _ _ _ _ _ _ _ _ _ _ _ _ _ _ _ _ _ _ _ _); try vm_decide; try reflexivity; by exists [].
Defined.
End examples.
