(* ===== verification/DubboAsync.v ===== *)
(** * The dubbo benchmark client

    [dubbo_client/dubbo_client.c], the part that drives requests through the
    event loop of [Ae]: a client record, the functions that change it, and the
    four callbacks.  The callbacks and the loop share one [world]: the loop of
    [Ae] next to [sys], which holds the client ([None] once it is freed), the
    counter of request ids, what the kernel will answer and what has been
    sent.  Printing is reduced to what is printed about responses; signals
    are left out. *)

From stdpp Require Import base tactics numbers list option gmap strings.
From Stdlib Require Import Lia.
From S2P Require Import Prelude ByteBuf Buffer Stream Socket Utf8 Hessian DubboCodec DubboClient Ae.

Definition CLI_INIT_BUF_SZ : Z := 1024.
Definition EAGAIN : Z := 11.
Definition EINPROGRESS : Z := 115.

Record dubbo_client := mkClient {
  timeout_ms : Z;
  timerid : Z;
  rcv_buf : buffer;
  snd_buf : buffer;
  cpipe_n : Z;
  pipe_left : Z;
  creq_n : Z;
  req_left : Z;
  ok_n : Z;
  ko_n : Z;
  cfd : Z;
  cconnected : bool;
  run : bool;
  cverbos : bool
}.

Section setters.
Implicit Types c : dubbo_client.
Definition set_timerid c t := mkClient (timeout_ms c) t (rcv_buf c) (snd_buf c) (cpipe_n c) (pipe_left c)
  (creq_n c) (req_left c) (ok_n c) (ko_n c) (cfd c) (cconnected c) (run c) (cverbos c).
Definition set_rcv c b := mkClient (timeout_ms c) (timerid c) b (snd_buf c) (cpipe_n c) (pipe_left c)
  (creq_n c) (req_left c) (ok_n c) (ko_n c) (cfd c) (cconnected c) (run c) (cverbos c).
Definition set_snd c b := mkClient (timeout_ms c) (timerid c) (rcv_buf c) b (cpipe_n c) (pipe_left c)
  (creq_n c) (req_left c) (ok_n c) (ko_n c) (cfd c) (cconnected c) (run c) (cverbos c).
Definition set_left c p r := mkClient (timeout_ms c) (timerid c) (rcv_buf c) (snd_buf c) (cpipe_n c) p
  (creq_n c) r (ok_n c) (ko_n c) (cfd c) (cconnected c) (run c) (cverbos c).
Definition set_ok c n := mkClient (timeout_ms c) (timerid c) (rcv_buf c) (snd_buf c) (cpipe_n c) (pipe_left c)
  (creq_n c) (req_left c) n (ko_n c) (cfd c) (cconnected c) (run c) (cverbos c).
Definition set_fd c f := mkClient (timeout_ms c) (timerid c) (rcv_buf c) (snd_buf c) (cpipe_n c) (pipe_left c)
  (creq_n c) (req_left c) (ok_n c) (ko_n c) f (cconnected c) (run c) (cverbos c).
Definition set_connected c b := mkClient (timeout_ms c) (timerid c) (rcv_buf c) (snd_buf c) (cpipe_n c) (pipe_left c)
  (creq_n c) (req_left c) (ok_n c) (ko_n c) (cfd c) b (run c) (cverbos c).
Definition set_run c b := mkClient (timeout_ms c) (timerid c) (rcv_buf c) (snd_buf c) (cpipe_n c) (pipe_left c)
  (creq_n c) (req_left c) (ok_n c) (ko_n c) (cfd c) (cconnected c) b (cverbos c).
End setters.

Inductive file_proc := cli_on_connect_ | cli_on_read_ | cli_on_write_.
#[export] Instance file_proc_dec : EqDecision file_proc.
Proof. solve_decision. Defined.
Inductive time_proc := cli_connect_timeout_.

Inductive write_answer := Wrote (n : Z) | WriteFailed (e : Z).

(** What is printed about a response when [verbos] is set. *)
Inductive report := Event | Success (text : bytes) | Failure (desc : option bytes) (text : bytes).

(** The answers of the kernel, in order: the descriptors of [socket] (-1: it
    failed), 0 or the errno of [connect], the answers of [write] and [readv],
    whether [epoll_ctl] refuses, the answers of [epoll_wait], the clock.
    [wire]: the bytes each [write] took.  [g_cli]: whether the global points
    to the client.  [el_live]: whether the event loop that [cli->el] points to
    is still allocated. *)
Record sys := mkSys {
  cli : option dubbo_client;
  g_cli : bool;
  reqid_ : Z;
  errno : Z;
  sockets : list Z;
  connects : list Z;
  writes_ : list write_answer;
  reads : list (list Z -> Z * bytes);
  refusals : list bool;
  polls : list (list (Z * Z));
  clock : list (Z * Z);
  wire_ : list (Z * bytes);
  reports : list (Z * report);
  closed : list Z;
  el_live : bool
}.

Section sys_setters.
Implicit Types s : sys.
Definition with_cli s c g := mkSys c g (reqid_ s) (errno s) (sockets s) (connects s) (writes_ s) (reads s)
  (refusals s) (polls s) (clock s) (wire_ s) (reports s) (closed s) (el_live s).
Definition with_reqid s i := mkSys (cli s) (g_cli s) i (errno s) (sockets s) (connects s) (writes_ s) (reads s)
  (refusals s) (polls s) (clock s) (wire_ s) (reports s) (closed s) (el_live s).
Definition with_sockets s l := mkSys (cli s) (g_cli s) (reqid_ s) (errno s) l (connects s) (writes_ s) (reads s)
  (refusals s) (polls s) (clock s) (wire_ s) (reports s) (closed s) (el_live s).
Definition with_connects s e l := mkSys (cli s) (g_cli s) (reqid_ s) e (sockets s) l (writes_ s) (reads s)
  (refusals s) (polls s) (clock s) (wire_ s) (reports s) (closed s) (el_live s).
Definition with_writes s e l w := mkSys (cli s) (g_cli s) (reqid_ s) e (sockets s) (connects s) l (reads s)
  (refusals s) (polls s) (clock s) w (reports s) (closed s) (el_live s).
Definition with_reads s l := mkSys (cli s) (g_cli s) (reqid_ s) (errno s) (sockets s) (connects s) (writes_ s) l
  (refusals s) (polls s) (clock s) (wire_ s) (reports s) (closed s) (el_live s).
Definition with_refusals s l := mkSys (cli s) (g_cli s) (reqid_ s) (errno s) (sockets s) (connects s) (writes_ s)
  (reads s) l (polls s) (clock s) (wire_ s) (reports s) (closed s) (el_live s).
Definition with_polls s l := mkSys (cli s) (g_cli s) (reqid_ s) (errno s) (sockets s) (connects s) (writes_ s)
  (reads s) (refusals s) l (clock s) (wire_ s) (reports s) (closed s) (el_live s).
Definition with_clock s l := mkSys (cli s) (g_cli s) (reqid_ s) (errno s) (sockets s) (connects s) (writes_ s)
  (reads s) (refusals s) (polls s) l (wire_ s) (reports s) (closed s) (el_live s).
Definition with_reports s l := mkSys (cli s) (g_cli s) (reqid_ s) (errno s) (sockets s) (connects s) (writes_ s)
  (reads s) (refusals s) (polls s) (clock s) (wire_ s) l (closed s) (el_live s).
Definition with_closed s l := mkSys (cli s) (g_cli s) (reqid_ s) (errno s) (sockets s) (connects s) (writes_ s)
  (reads s) (refusals s) (polls s) (clock s) (wire_ s) (reports s) l (el_live s).
Definition with_live s b := mkSys (cli s) (g_cli s) (reqid_ s) (errno s) (sockets s) (connects s) (writes_ s) (reads s)
  (refusals s) (polls s) (clock s) (wire_ s) (reports s) (closed s) b.
End sys_setters.

(** A script that has run out: nothing is refused, nothing is ready, the
    clock stands at the last reading. *)
#[export] Instance sys_Sys : Sys sys := {
  ctl_refuses s _ _ := (default false (head (refusals s)), with_refusals s (tail (refusals s)));
  epoll_wait s _ _ _ := (default [] (head (polls s)), with_polls s (tail (polls s)));
  gettimeofday s :=
    let '(sec, us) := default (0, 0) (head (clock s)) in
    (sec, us, with_clock s (match clock s with _ :: (_ :: _) as l => l | l => l end));
  time s := ((default (0, 0) (head (clock s))).1, s)
}.

Notation World := (world sys file_proc time_proc unit unit).

Definition put_env (w : World) (s : sys) : World := mkWorld (el w) s.
Definition the_cli (w : World) : outcome dubbo_client := deref (cli (env w)).
Definition put_cli (w : World) (c : dubbo_client) : World := put_env w (with_cli (env w) (Some c) (g_cli (env w))).

(** [close(fd)] also removes the descriptor from the interest set of epoll. *)
Definition sys_close (w : World) (fd : Z) : World :=
  mkWorld (set_interest (el w) (delete fd (interest (el w))))
    (with_closed (env w) (fd :: closed (env w))).

(** The dereference of [cli->el] in a call on the loop. *)
Definition use_el (w : World) : outcome World := if el_live (env w) then Ret w else Undefined.

(** [aeApiFree] closes the epoll instance; the arrays and the loop are freed.
    The nodes of the timers are not. *)
Definition aeDeleteEventLoop (w : World) : outcome World :=
  let! w := use_el w in
  let l := set_interest (el w) ∅ in
  Ret (mkWorld (set_size l (setsize l) [] []) (with_live (env w) false)).

Section client.
Context `{Allocator}.
Context (cjson_elements : bytes -> option bytes) (cjson_pretty : bytes -> option bytes).
Context (ar : dubbo_args).

(** The request is never released. *)
Definition cli_encode_req (w : World) : outcome (option buffer * World) :=
  let! svc := deref (service ar) in
  let! mth := deref (method ar) in
  let! json := deref (args ar) in
  let! (oreq, id) := dubbo_req_create (B := buffer) cjson_elements (reqid_ (env w)) (svc ++ [0]) (mth ++ [0])
    (json ++ [0]) ((fun a => a ++ [0]) <$> attach ar) in
  let w := put_env w (with_reqid (env w) id) in
  match oreq with
  | None => Ret (None, w)
  | Some req => let! b := dubbo_encode req in Ret (b, w)
  end.

Definition cli_clear_timer (w : World) : outcome World :=
  let! c := the_cli w in
  if negb (timerid c =? AE_NOMORE) then
    let! w := use_el w in
    let! (_, w) := aeDeleteTimeEvent w (timerid c) in
    Ret (put_cli w (set_timerid c AE_NOMORE))
  else Ret w.

Definition cli_reset (w : World) : outcome World :=
  let! c := the_cli w in
  let w := put_cli w (set_connected c false) in
  let! w := cli_clear_timer w in
  let! c := the_cli w in
  let c := set_fd c (-1) in
  let c := set_left c (cpipe_n c) (req_left c) in
  let c := set_rcv c (buf_retrieveAll (rcv_buf c)) in
  Ret (put_cli w (set_snd c (buf_retrieveAll (snd_buf c)))).

(** [None]: the process stops with a message ([PANIC]). *)
Definition cli_create (resolved : bool) (a : dubbo_async_args) (w : World) : outcome (option World) :=
  let! rb := bb_create (B := buffer) CLI_INIT_BUF_SZ 8 in
  let! sb := bb_create (B := buffer) CLI_INIT_BUF_SZ 8 in
  let! rb := deref rb in
  let! sb := deref sb in
  let p := if req_n a <? pipe_n a then req_n a else pipe_n a in
  let! t := slong (timeout_sec ar * 1000) in
  let c := mkClient t AE_NOMORE rb sb p (pipe_n a) (req_n a) (req_n a) 0 0 0 false false (verbos a) in
  let! w := cli_reset (put_cli w c) in
  if negb resolved then Ret None else Ret (Some w).

(** [while (buf_readable(buf))] of [cli_write]; [nw]: the last return value of
    [write]. *)
Fixpoint write_loop (ws : list write_answer) (b : buffer) (fd e nw : Z) (wr : list (Z * bytes))
  : outcome (Z * buffer * Z * list write_answer * list (Z * bytes)) :=
  if buf_readable b =? 0 then Ret (nw, b, e, ws, wr) else
  match ws with
  | [] => OutOfFuel
  | Wrote n :: ws =>
    if n <=? 0 then
      if e =? EINTR then write_loop ws b fd e n wr else Ret (n, b, e, ws, wr)
    else
      let! d := bb_peek b n in
      let! b := bb_retrieve b n in
      write_loop ws b fd e n (wr ++ [(fd, d)])
  | WriteFailed e :: ws =>
    if e =? EINTR then write_loop ws b fd e (-1) wr else Ret (-1, b, e, ws, wr)
  end.

Definition cli_write (w : World) : outcome (bool * World) :=
  let! c := the_cli w in
  if buf_readable (snd_buf c) =? 0 then
    let! w := use_el w in
    let! w := aeDeleteFileEvent w (cfd c) AE_WRITABLE in Ret (true, w)
  else
    let s := env w in
    let! (nw, b, e, ws, wr) := write_loop (writes_ s) (snd_buf c) (cfd c) (errno s) 0 (wire_ s) in
    let w := put_cli (put_env w (with_writes s e ws wr)) (set_snd c b) in
    if nw <=? 0 then
      if e =? EAGAIN then
        let! w := use_el w in
        let! (r, w) := aeCreateFileEvent w (cfd c) AE_WRITABLE cli_on_write_ tt in
        Ret (negb (r =? AE_ERR), w)
      else Ret (false, w)
    else if buf_readable b =? 0 then
      let! w := use_el w in
      let! w := aeDeleteFileEvent w (cfd c) AE_WRITABLE in Ret (true, w)
    else Ret (true, w).

Definition cli_close (w : World) : outcome World :=
  let! c := the_cli w in
  let! w := use_el w in
  let! w := aeDeleteFileEvent w (cfd c) (Z.lor AE_READABLE AE_WRITABLE) in
  cli_reset (sys_close w (cfd c)).

Definition cli_release (w : World) : World := put_env w (with_cli (env w) None (g_cli (env w))).

Definition cli_end (w : World) : outcome World :=
  let! c := the_cli w in
  if run c then
    let! w := cli_close w in
    let! w := cli_clear_timer w in
    let '(_, _, w) := aeGetTime w in
    let! c := the_cli w in
    let w := put_env w (with_cli (env w) (Some (set_run c false)) false) in
    let! w := use_el w in
    Ret (cli_release (aeStop w))
  else Ret w.

(** The functions that call each other; [n] bounds the depth of the calls and
    the rounds of the loop of [cli_pipe_send]. *)
Fixpoint cli_connected (n : nat) (w : World) : outcome (bool * World) :=
  match n with
  | O => OutOfFuel
  | S n =>
    let! c := the_cli w in
    let! w := cli_clear_timer (put_cli w (set_connected c true)) in
    let! c := the_cli w in
    let! w := use_el w in
    let! (r, w) := aeCreateFileEvent w (cfd c) AE_READABLE cli_on_read_ tt in
    if r =? AE_ERR then Ret (false, w) else
    let! w := cli_pipe_send n w in Ret (true, w)
  end
with cli_pipe_send (n : nat) (w : World) : outcome World :=
  match n with
  | O => OutOfFuel
  | S n =>
    let! c := the_cli w in
    let left := pipe_left c in
    let! p := sint (left - 1) in
    let w := put_cli w (set_left c p (req_left c)) in
    if left =? 0 then
      let! p := sint (p + 1) in
      Ret (put_cli w (set_left c p (req_left c)))
    else
      let! w := cli_send_req n w in
      cli_pipe_send n w
  end
with cli_send_req (n : nat) (w : World) : outcome World :=
  match n with
  | O => OutOfFuel
  | S n =>
    let! (ob, w) := cli_encode_req w in
    match ob with
    | None => AssertFail
    | Some b =>
      let! d := bb_peek b (bb_readable b) in
      let! c := the_cli w in
      let! sb := bb_append (snd_buf c) d in
      let w := put_cli w (set_snd c sb) in
      let! (ok, w) := cli_write w in
      if (ok : bool) then Ret w else cli_reconnect n w
    end
  end
with cli_reconnect (n : nat) (w : World) : outcome World :=
  match n with
  | O => OutOfFuel
  | S n =>
    let! w := cli_close w in
    let! (_, w) := cli_connect n w in
    Ret w
  end
with cli_connect (n : nat) (w : World) : outcome (bool * World) :=
  match n with
  | O => OutOfFuel
  | S n =>
    match sockets (env w) with
    | [] => OutOfFuel
    | fd :: ss =>
      let w := put_env w (with_sockets (env w) ss) in
      if fd <? 0 then Ret (false, w) else
      let! c := the_cli w in
      let w := put_cli w (set_fd c fd) in
      match connects (env w) with
      | [] => OutOfFuel
      | status :: cs =>
        let s := env w in
        let w := put_env w (with_connects s (if status =? 0 then errno s else status) cs) in
        if status =? 0 then
          let! (ok, w) := cli_connected n w in
          if (ok : bool) then Ret (true, w) else Ret (false, sys_close w fd)
        else if status =? EINPROGRESS then
          let! w := use_el w in
          let! (r, w) := aeCreateFileEvent w fd AE_WRITABLE cli_on_connect_ tt in
          if r =? AE_ERR then Ret (false, sys_close w fd) else
          let! c := the_cli w in
          let! w := use_el w in
          let! (t, w) := aeCreateTimeEvent w (timeout_ms c) cli_connect_timeout_ tt None in
          if t =? AE_ERR then
            Ret (false, sys_close (put_cli w (set_timerid c AE_NOMORE)) fd)
          else Ret (true, put_cli w (set_timerid c t))
        else Ret (false, sys_close w fd)
      end
    end
  end.

(** [gettimeofday] and the registration of the handlers are left out of the
    state. *)
Definition cli_start (n : nat) (w : World) : outcome (bool * World) :=
  let! c := the_cli w in
  if run c then Ret (false, w) else
  let '(_, _, w) := aeGetTime w in
  cli_connect n (put_env w (with_cli (env w) (Some (set_run c true)) true)).

(** What [cli_decode_resp] prints. *)
Definition show_report (res : dubbo_res) : outcome (option report) :=
  if res_is_evt res then Ret (Some Event) else
  if negb (res_data_sz res =? 0) then
    let! p := deref (res_data res) in
    let! data := deref p in
    let! d := mem_read data 0 (res_data_sz res) in
    let json := d ++ [0] in
    let! ch := arr_get json 0 in
    match (if (ch =? 91) || (ch =? 123) then cjson_pretty json else None) with
    | Some text =>
      if res_ok res then Ret (Some (Success text)) else Ret (Some (Failure (Some (res_desc res)) text))
    | None =>
      let! s := c_str json in
      if res_ok res then Ret (Some (Success s)) else Ret (Some (Failure None s))
    end
  else Ret (Some (Success (str "NULL"))).

Definition cli_decode_resp (fuel : nat) (w : World) : outcome (bool * World) :=
  let! c := the_cli w in
  let! (ores, b) := dubbo_decode fuel (rcv_buf c) in
  let c := set_rcv c b in
  match ores with
  | None => Ret (false, put_cli w c)
  | Some res =>
    let! ok := sint (ok_n c + 1) in
    let c := if res_ok res then set_ok c ok else set_ok c ok in
    let w := put_cli w c in
    let! w := if cverbos c then
        let! r := show_report res in
        match r with
        | Some r => Ret (put_env w (with_reports (env w) (reports (env w) ++ [(res_reqid res, r)])))
        | None => Ret w
        end
      else Ret w in
    dubbo_res_release res ;;
    Ret (true, w)
  end.

(** The [for (;;)] of [cli_on_read]: [None]: reconnect and return. *)
Fixpoint read_loop (rs : list (list Z -> Z * bytes)) (b : buffer)
  : outcome (bool * buffer * list (list Z -> Z * bytes)) :=
  match rs with
  | [] => OutOfFuel
  | r :: rs =>
    let! (recv_n, e, b) := buf_readFd r b in
    let errno_ := default 0 e in
    if recv_n <? 0 then
      if errno_ =? EINTR then read_loop rs b
      else if errno_ =? EAGAIN then Ret (true, b, rs)
      else Ret (false, b, rs)
    else if recv_n =? 0 then Ret (false, b, rs)
    else Ret (true, b, rs)
  end.

Definition cli_on_read (fuel : nat) (w : World) : outcome World :=
  let! c := the_cli w in
  c_assert (cconnected c) ;;
  let! (ok, b, rs) := read_loop (reads (env w)) (rcv_buf c) in
  let w := put_cli (put_env w (with_reads (env w) rs)) (set_rcv c b) in
  if negb ok then cli_reconnect fuel w else
  let! pkt := is_dubbo_pkt b in
  let! w := if negb pkt then cli_reconnect fuel w else Ret w in
  let! c := the_cli w in
  let! (complete, _) := is_completed_dubbo_pkt (rcv_buf c) false in
  if negb complete then Ret w else
  let! p := sint (pipe_left c + 1) in
  let! r := sint (req_left c - 1) in
  let! (ok, w) := cli_decode_resp fuel (put_cli w (set_left c p r)) in
  let! c := the_cli w in
  if req_left c <=? 0 then cli_end w
  else if (ok : bool) then cli_pipe_send fuel w
  else cli_reconnect fuel w.

Definition cli_on_write (fuel : nat) (w : World) : outcome World :=
  let! c := the_cli w in
  c_assert (cconnected c) ;;
  let! (ok, w) := cli_write w in
  if (ok : bool) then Ret w else cli_reconnect fuel w.

Definition cli_on_connect (fuel : nat) (fd mask : Z) (w : World) : outcome World :=
  if has mask AE_WRITABLE then
    let! w := use_el w in
    let! w := aeDeleteFileEvent w fd AE_WRITABLE in
    let! (_, w) := cli_connected fuel w in
    Ret w
  else cli_reconnect fuel w.

Definition cli_connect_timeout (fuel : nat) (w : World) : outcome (Z * World) :=
  let! w := cli_reconnect fuel w in Ret (AE_NOMORE, w).

(** The callbacks as the loop calls them. *)
Definition callF (fuel : nat) (f : file_proc) (fd : Z) (_ : option unit) (mask : Z) (w : World) : outcome World :=
  match f with
  | cli_on_connect_ => cli_on_connect fuel fd mask w
  | cli_on_read_ => cli_on_read fuel w
  | cli_on_write_ => cli_on_write fuel w
  end.
Definition callT (fuel : nat) (t : time_proc) (_ : Z) (_ : unit) (w : World) : outcome (Z * World) :=
  cli_connect_timeout fuel w.
Definition callH (_ : unit) (_ : option unit) (w : World) : outcome World := Ret w.

(** [dubbo_bench_async] and what [main] of [dubbo.c] does around it: the loop,
    its deletion, then [exit], which runs [exit_handler]: that ends the global
    client when it still runs. *)
Definition dubbo_bench_async (fuel : nat) (resolved : bool) (a : dubbo_async_args) (w : World)
  : outcome (bool * World) :=
  let! o := cli_create resolved a w in
  match o with
  | None => AssertFail
  | Some w => cli_start fuel w
  end.

Definition exit_handler (w : World) : outcome World :=
  if g_cli (env w) then
    let! c := the_cli w in
    if run c then cli_end w else Ret w
  else Ret w.

Definition main_bench (fuel iterations : nat) (resolved epoll : bool) (a : dubbo_async_args) (s : sys)
  : outcome (Z * World) :=
  let! w := deref (aeCreateEventLoop epoll 1024 s) in
  let w := put_env w (with_live (env w) true) in
  let! (ok, w) := dubbo_bench_async fuel resolved a w in
  if (ok : bool) then
    let! w := aeMain (callF fuel) (callT fuel) callH iterations w in
    let! w := aeDeleteEventLoop w in
    let! w := exit_handler w in Ret (0, w)
  else
    let! w := aeDeleteEventLoop w in
    let! w := exit_handler w in Ret (1, w).
End client.

(** ** The client uses the interface of the loop

    What the callbacks of the client do to the loop is a sequence of calls of
    its interface, as [Ae] asks of callbacks; the client closes descriptors
    that may be registered, so the table and the interest set may disagree
    ([strict] is [false]). *)
Notation client_api := (@api sys file_proc time_proc unit unit _ _ false true false).

Section client_interface.
Context `{Allocator}.
Context (cjson_elements cjson_pretty : bytes -> option bytes) (ar : dubbo_args).
Implicit Types w : World.

Lemma api_put_env w s : client_api w (put_env w s).
Proof. apply rtc_once, api_io. Qed.
Lemma api_sys_close w fd : client_api w (sys_close w fd).
Proof. by apply rtc_once, api_close. Qed.
Lemma api_aeStop w : client_api w (aeStop w).
Proof. apply rtc_once, api_stop. Qed.
Lemma api_use_el w w' : use_el w = Ret w' -> client_api w w'.
Proof. unfold use_el. destruct (el_live _); [|done]. by intros [= <-]. Qed.
Lemma api_get_time w s ms w' : aeGetTime w = (s, ms, w') -> client_api w w'.
Proof. unfold aeGetTime. destruct (gettimeofday _) as [[? ?] ?]. intros [= _ _ <-]. apply rtc_once, api_io. Qed.
Lemma api_delete_file_ev w fd mask w' : aeDeleteFileEvent w fd mask = Ret w' -> client_api w w'.
Proof. intros. apply rtc_once. by eapply api_delete_file. Qed.
Lemma api_create_file_ev w fd mask p c r w' :
  mask = AE_READABLE \/ mask = AE_WRITABLE -> aeCreateFileEvent w fd mask p c = Ret (r, w') -> client_api w w'.
Proof. intros Hm E. apply rtc_once. eapply api_create_file; [..|exact E]; by destruct Hm as [-> | ->]. Qed.
Lemma api_delete_time_ev w i r w' : aeDeleteTimeEvent w i = Ret (r, w') -> client_api w w'.
Proof. intros. apply rtc_once. by eapply api_delete_time. Qed.
Lemma api_create_time_ev w ms p c f r w' : aeCreateTimeEvent w ms p c f = Ret (r, w') -> client_api w w'.
Proof. intros. apply rtc_once. by eapply api_create_time. Qed.

(** A call that returned, taken apart. *)
Ltac run_call :=
  repeat match goal with
  | E : mbind _ _ = Ret _ |- _ => apply bind_Ret in E as (? & ? & E)
  | E : Ret _ = Ret _ |- _ => injection E as E; subst
  | x : (_ * _)%type |- _ => destruct x
  | E : (_, _) = (_, _) |- _ => injection E as E; subst
  | E : (if ?b then _ else _) = Ret _ |- _ => destruct b
  | E : match ?x with _ => _ end = Ret _ |- _ => destruct x eqn:?; try discriminate E
  end.

Ltac api_facts :=
  repeat match goal with
  | E : use_el _ = Ret _ |- _ => apply api_use_el in E
  | E : aeGetTime _ = _ |- _ => apply api_get_time in E
  | E : aeDeleteFileEvent _ _ _ = Ret _ |- _ => apply api_delete_file_ev in E
  | E : aeCreateFileEvent _ _ _ _ _ = Ret _ |- _ => apply api_create_file_ev in E; [|by auto]
  | E : aeDeleteTimeEvent _ _ = Ret _ |- _ => apply api_delete_time_ev in E
  | E : aeCreateTimeEvent _ _ _ _ _ = Ret _ |- _ => apply api_create_time_ev in E
  end.
Ltac api_back :=
  repeat lazymatch goal with
  | |- client_api ?w ?w => reflexivity
  | |- client_api ?w (put_env ?x _) => transitivity x; [|apply api_put_env]
  | |- client_api ?w (put_cli ?x _) => transitivity x; [|apply api_put_env]
  | |- client_api ?w (cli_release ?x) => transitivity x; [|apply api_put_env]
  | |- client_api ?w (sys_close ?x _) => transitivity x; [|apply api_sys_close]
  | |- client_api ?w (aeStop ?x) => transitivity x; [|apply api_aeStop]
  | _ => match goal with E : client_api ?x ?y |- client_api _ ?y => transitivity x; [|exact E]; clear E end
  end.
Ltac api_solve := run_call; api_facts; api_back.

Lemma api_clear_timer w w' : cli_clear_timer w = Ret w' -> client_api w w'.
Proof. unfold cli_clear_timer. intros E. api_solve. Qed.

Lemma api_reset w w' : cli_reset w = Ret w' -> client_api w w'.
Proof.
  unfold cli_reset. intros E. run_call.
  match goal with E : cli_clear_timer _ = Ret _ |- _ => apply api_clear_timer in E end. api_back.
Qed.

Lemma api_close_ w w' : cli_close w = Ret w' -> client_api w w'.
Proof. unfold cli_close. intros E. run_call. apply api_reset in E. api_facts. api_back. Qed.

Lemma api_encode w o w' : cli_encode_req cjson_elements ar w = Ret (o, w') -> client_api w w'.
Proof. unfold cli_encode_req. intros E. api_solve. Qed.

Lemma api_write w r w' : cli_write w = Ret (r, w') -> client_api w w'.
Proof. unfold cli_write. cbv zeta. intros E. api_solve. Qed.

Lemma api_end w w' : cli_end w = Ret w' -> client_api w w'.
Proof.
  unfold cli_end. intros E. run_call; [|api_back].
  match goal with E : cli_clear_timer _ = Ret _ |- _ => apply api_clear_timer in E end.
  match goal with E : cli_close _ = Ret _ |- _ => apply api_close_ in E end. api_facts. api_back.
Qed.

(** The five functions that call each other, unfolded once. *)
Lemma cli_connected_S k w :
  cli_connected cjson_elements ar (S k) w =
  (let! c := the_cli w in
   let! w := cli_clear_timer (put_cli w (set_connected c true)) in
   let! c := the_cli w in
   let! w := use_el w in
   let! (r, w) := aeCreateFileEvent w (cfd c) AE_READABLE cli_on_read_ tt in
   if r =? AE_ERR then Ret (false, w) else
   let! w := cli_pipe_send cjson_elements ar k w in Ret (true, w)).
Proof. reflexivity. Qed.

Lemma cli_pipe_send_S k w :
  cli_pipe_send cjson_elements ar (S k) w =
  (let! c := the_cli w in
   let! p := sint (pipe_left c - 1) in
   let w := put_cli w (set_left c p (req_left c)) in
   if pipe_left c =? 0 then
     let! p := sint (p + 1) in Ret (put_cli w (set_left c p (req_left c)))
   else
     let! w := cli_send_req cjson_elements ar k w in
     cli_pipe_send cjson_elements ar k w).
Proof. reflexivity. Qed.

Lemma cli_send_req_S k w :
  cli_send_req cjson_elements ar (S k) w =
  (let! (ob, w) := cli_encode_req cjson_elements ar w in
   match ob with
   | None => AssertFail
   | Some b =>
     let! d := bb_peek b (bb_readable b) in
     let! c := the_cli w in
     let! sb := bb_append (snd_buf c) d in
     let w := put_cli w (set_snd c sb) in
     let! (ok, w) := cli_write w in
     if (ok : bool) then Ret w else cli_reconnect cjson_elements ar k w
   end).
Proof. reflexivity. Qed.

Lemma cli_reconnect_S k w :
  cli_reconnect cjson_elements ar (S k) w =
  (let! w := cli_close w in
   let! (_, w) := cli_connect cjson_elements ar k w in
   Ret w).
Proof. reflexivity. Qed.

Lemma cli_connect_S k w :
  cli_connect cjson_elements ar (S k) w =
    match sockets (env w) with
    | [] => OutOfFuel
    | fd :: ss =>
      let w := put_env w (with_sockets (env w) ss) in
      if fd <? 0 then Ret (false, w) else
      let! c := the_cli w in
      let w := put_cli w (set_fd c fd) in
      match connects (env w) with
      | [] => OutOfFuel
      | status :: cs =>
        let s := env w in
        let w := put_env w (with_connects s (if status =? 0 then errno s else status) cs) in
        if status =? 0 then
          let! (ok, w) := cli_connected cjson_elements ar k w in
          if (ok : bool) then Ret (true, w) else Ret (false, sys_close w fd)
        else if status =? EINPROGRESS then
          let! w := use_el w in
          let! (r, w) := aeCreateFileEvent w fd AE_WRITABLE cli_on_connect_ tt in
          if r =? AE_ERR then Ret (false, sys_close w fd) else
          let! c := the_cli w in
          let! w := use_el w in
          let! (t, w) := aeCreateTimeEvent w (timeout_ms c) cli_connect_timeout_ tt None in
          if t =? AE_ERR then
            Ret (false, sys_close (put_cli w (set_timerid c AE_NOMORE)) fd)
          else Ret (true, put_cli w (set_timerid c t))
        else Ret (false, sys_close w fd)
      end
    end.
Proof. reflexivity. Qed.

Lemma api_calls n :
  (forall w r w', cli_connected cjson_elements ar n w = Ret (r, w') -> client_api w w') /\
  (forall w w', cli_pipe_send cjson_elements ar n w = Ret w' -> client_api w w') /\
  (forall w w', cli_send_req cjson_elements ar n w = Ret w' -> client_api w w') /\
  (forall w w', cli_reconnect cjson_elements ar n w = Ret w' -> client_api w w') /\
  (forall w r w', cli_connect cjson_elements ar n w = Ret (r, w') -> client_api w w').
Proof.
  induction n as [|n (IHd & IHp & IHs & IHr & IHc)]; [done|].
  split_and!; intros w; [intros r w' E|intros w' E..|intros r w' E].
  - rewrite cli_connected_S in E. run_call; api_facts;
      repeat match goal with
      | E : cli_clear_timer _ = Ret _ |- _ => apply api_clear_timer in E
      | E : cli_pipe_send _ _ _ _ = Ret _ |- _ => apply IHp in E
      end; api_back.
  - rewrite cli_pipe_send_S in E. cbv zeta in E. run_call;
      repeat match goal with
      | E : cli_pipe_send _ _ _ _ = Ret _ |- _ => apply IHp in E
      | E : cli_send_req _ _ _ _ = Ret _ |- _ => apply IHs in E
      end; api_back.
  - rewrite cli_send_req_S in E. cbv zeta in E. run_call;
      repeat match goal with
      | E : cli_encode_req _ _ _ = Ret _ |- _ => apply api_encode in E
      | E : cli_write _ = Ret _ |- _ => apply api_write in E
      | E : cli_reconnect _ _ _ _ = Ret _ |- _ => apply IHr in E
      end; api_back.
  - rewrite cli_reconnect_S in E. run_call.
    match goal with E : cli_connect _ _ _ _ = Ret _ |- _ => apply IHc in E end.
    match goal with E : cli_close _ = Ret _ |- _ => apply api_close_ in E end. api_back.
  - rewrite cli_connect_S in E. cbv zeta in E. run_call; api_facts;
      repeat match goal with E : cli_connected _ _ _ _ = Ret _ |- _ => apply IHd in E end; api_back.
Qed.

Lemma api_decode fuel w r w' : cli_decode_resp cjson_pretty fuel w = Ret (r, w') -> client_api w w'.
Proof. unfold cli_decode_resp. cbv zeta. intros E. api_solve. Qed.

(** The callbacks of the client are as [Ae.ae_invariant] and
    [Ae.processTimeEvents_visits] ask. *)
Lemma client_callbacks_api fuel :
  (forall f fd c m w w', callF cjson_elements cjson_pretty ar fuel f fd c m w = Ret w' -> client_api w w') /\
  (forall t i c w r w', callT cjson_elements ar fuel t i c w = Ret (r, w') -> client_api w w') /\
  (forall h c w w', callH h c w = Ret w' -> client_api w w').
Proof.
  destruct (api_calls fuel) as (IHd & IHp & IHs & IHr & IHc).
  assert (forall w r w', cli_write w = Ret (r, w') -> client_api w w') as Hw by apply api_write.
  split_and!.
  - intros [] fd c m w w' E; cbn [callF] in E.
    + unfold cli_on_connect in E. run_call; api_facts;
        repeat match goal with
        | E : cli_connected _ _ _ _ = Ret _ |- _ => apply IHd in E
        | E : cli_reconnect _ _ _ _ = Ret _ |- _ => apply IHr in E
        end; api_back.
    + unfold cli_on_read in E. cbv zeta in E. run_call;
        repeat match goal with
        | E : cli_reconnect _ _ _ _ = Ret _ |- _ => apply IHr in E
        | E : cli_pipe_send _ _ _ _ = Ret _ |- _ => apply IHp in E
        | E : cli_decode_resp _ _ _ = Ret _ |- _ => apply api_decode in E
        | E : cli_end _ = Ret _ |- _ => apply api_end in E
        end; api_back.
    + unfold cli_on_write in E. run_call;
        repeat match goal with
        | E : cli_reconnect _ _ _ _ = Ret _ |- _ => apply IHr in E
        | E : cli_write _ = Ret _ |- _ => apply Hw in E
        end; api_back.
  - intros t i c w r w' E. unfold callT, cli_connect_timeout in E. run_call.
    match goal with E : cli_reconnect _ _ _ _ = Ret _ |- _ => apply IHr in E end. api_back.
  - intros h c w w' E. unfold callH in E. by injection E as <-.
Qed.

(** So the loop keeps its invariant under the client. *)
Lemma client_loop_wf fuel w :
  reachable (callF cjson_elements cjson_pretty ar fuel) (callT cjson_elements ar fuel) callH false w -> loop_wf false w.
Proof.
  destruct (client_callbacks_api fuel) as (HF & HT & HH).
  assert (forall c r h o w w', callH h o w = Ret w' -> api false c r w w') as Hh by (by intros c r h o ? ? [= <-]).
  apply (reachable_wf _ _ _ false HF).
  - intros t i c w0 r w' E. apply HT in E. clear -E. induction E as [|x y z Hs _ IH]; [done|].
    eapply rtc_l; [|exact IH]. destruct Hs; eauto using @api_step.
  - intros. by eapply Hh.
  - intros. by eapply Hh.
  - done.
Qed.
End client_interface.

(** ** The benchmark, end to end *)
Ltac sys_simpl := cbv beta iota delta [put_env put_cli env el deref cli g_cli reqid_ errno sockets connects writes_ reads
  refusals polls clock wire_ reports closed with_cli with_reqid with_sockets with_connects with_writes with_reads
  with_refusals with_polls with_clock with_reports with_closed with_live el_live].

Section bench.
Context `{AllocTotal}.

(** The loop watches the connection [fd], for reading only. *)
Definition watching (fd : Z) (l : aeEventLoop file_proc time_proc unit unit) : Prop :=
  0 <= fd < 1024 /\ setsize l = 1024 /\ zlen (events l) = 1024 /\
  (exists wp, znth (events l) fd = Some (mkFE AE_READABLE (Some cli_on_read_) wp (Some tt))) /\
  interest l !! fd = Some EPOLLIN /\ maxfd l = fd.

(** And nothing else is going on. *)
Definition quiet (fd : Z) (l : aeEventLoop file_proc time_proc unit unit) : Prop :=
  watching fd l /\ zlen (fired l) = 1024 /\ timeEventHead l = None /\ 0 <= timeEventNextId l < 2 ^ 62 /\
  beforesleep l = None /\ aftersleep l = None.

(** The client with an empty pair of buffers: [left] requests may be sent,
    [r] responses are awaited, [n] have come; the scripts left and what has
    been sent and reported. *)
Record at_rest (fd left r n : Z) (vb : bool) (room id : Z) (ws : list write_answer)
    (rs : list (list Z -> Z * bytes)) (ps : list (list (Z * Z))) (sent : bytes) (rep : list (Z * report))
    (w : World) : Prop := {
  ar_cli : exists c, cli (env w) = Some c /\ cfd c = fd /\ cconnected c = true /\ run c = true /\
    timerid c = AE_NOMORE /\ pipe_left c = left /\ req_left c = r /\ ok_n c = n /\ cverbos c = vb /\
    writes [] room (rcv_buf c) /\ writes [] room (snd_buf c);
  ar_g : g_cli (env w) = true;
  ar_id : reqid_ (env w) = id;
  ar_ws : writes_ (env w) = ws;
  ar_rs : reads (env w) = rs;
  ar_ps : polls (env w) = ps;
  ar_sent : concat (snd <$> wire_ (env w)) = sent;
  ar_fd : Forall (fun x => x.1 = fd) (wire_ (env w));
  ar_rep : reports (env w) = rep;
  ar_refusals : refusals (env w) = [];
  ar_closed : closed (env w) = [];
  ar_live : el_live (env w) = true
}.

(** The kernel takes [n] bytes in pieces, interrupted at will. *)
Inductive accepts : list write_answer -> Z -> Prop :=
| accepts_done : accepts [] 0
| accepts_some k ws n : 0 < k <= n -> accepts ws (n - k) -> accepts (Wrote k :: ws) n
| accepts_intr ws n : 0 < n -> accepts ws n -> accepts (WriteFailed EINTR :: ws) n.

Fixpoint request_ids (id : Z) (k : nat) : list Z :=
  match k with
  | O => []
  | S k => next_reqid id :: request_ids (next_reqid id) k
  end.
Definition id_after (id : Z) (k : nat) : Z := Nat.iter k next_reqid id.

Context (cjson_elements cjson_pretty : bytes -> option bytes).
Context (serv mth arg att acs : bytes) (host_ port_ : option bytes) (sec : Z).
(** The arguments make a request that fits the codec's buffer. *)
Record request_ok : Prop := {
  ro_serv : hs_ok serv;
  ro_mth : hs_ok mth;
  ro_att : no_nul att;
  ro_json : prints_args cjson_elements arg acs;
  ro_scalar : Forall scalar acs;
  ro_nonempty : acs <> [];
  ro_nul : no_nul (encs acs);
  ro_small : zlen (encs acs) < 2 ^ 30;
  ro_args : hs_ok (escapes acs);
  ro_fits : zlen (request_body serv mth (escapes acs)) <= DUBBO_BUF_LEN
}.
Context (Hok : request_ok).

Definition bench_args : dubbo_args := mkArgs host_ port_ (Some serv) (Some mth) (Some arg) (Some att) sec.
Definition request (id : Z) : bytes :=
  packet_image (request_flag true) 0 id (request_body serv mth (escapes acs)).
Definition request_len : Z := DUBBO_HDR_LEN + zlen (request_body serv mth (escapes acs)).

Lemma zlen_request id : zlen (request id) = request_len.
Proof. unfold request, request_len. by rewrite zlen_packet_image. Qed.

Lemma encode_req_ok w :
  exists b, cli_encode_req cjson_elements bench_args w
    = Ret (Some b, put_env w (with_reqid (env w) (next_reqid (reqid_ (env w))))) /\
    holds (request (next_reqid (reqid_ (env w)))) b.
Proof.
  destruct Hok. unfold cli_encode_req. cbn [service method args attach bench_args deref]. rewrite !ret_bind.
  destruct (dubbo_req_create_ok (B := buffer) cjson_elements (reqid_ (env w)) serv mth arg att acs)
    as (req & E & Hev & Htw & Hid & Hd); try done; [apply ro_serv0|apply ro_mth0|].
  cbn [fmap option_fmap option_map]. rewrite E, ret_bind.
  destruct (dubbo_encode_ok (B := buffer) req serv mth (escapes acs)) as [Henc _]; try done.
  destruct (Henc ro_fits0) as (ob & -> & b & -> & Hi & Hcb & _). rewrite ret_bind. rewrite Htw, Hid in Hcb.
  by exists b.
Qed.

(** The loop of [cli_write] sends what the buffer holds. *)
Lemma write_loop_ok ws : forall rest l room b fd e nw wr,
  accepts ws (zlen l) -> writes l room b -> 0 < nw \/ l <> [] ->
  exists nw' b' e' chunks, write_loop (ws ++ rest) b fd e nw wr
      = Ret (nw', b', e', rest, wr ++ (pair fd <$> chunks)) /\
    0 < nw' /\ concat chunks = l /\ writes [] room b'.
Proof.
  induction ws as [|a ws IH]; intros rest l room b fd e nw wr Ha Hb Hnw; inversion Ha; subst;
    pose proof (writes_readable _ _ _ Hb) as Hr.
  - assert (l = []) as -> by (by apply zlen_nil_inv). exists nw, b, e, [].
    destruct rest; cbn [app write_loop]; rewrite Hr; (split; [by rewrite app_nil_r|]); split_and!; done || (destruct Hnw; done || lia).
  - cbn [app write_loop]. rewrite Hr. destruct (Z.eqb_spec (zlen l) 0); [lia|]. destruct (Z.leb_spec k 0); [lia|].
    destruct Hb as (Hi & Ho & Hc & Hrm). simpl in Hc.
    pose proof (bb_peek_spec b k Hi) as Hp. simpl in Hp. rewrite Hc in Hp. cbn [bb_peek]. simpl bb_peek. rewrite Hp by lia. rewrite ret_bind.
    destruct (bb_retrieve_spec b k Hi) as (b1 & E1 & Hi1 & Hc1 & Ho1 & Hr1 & _); [simpl; rewrite Hc; lia|].
    rewrite E1, ret_bind. simpl in Hc1. rewrite Hc in Hc1.
    destruct (IH rest (zdrop k l) room b1 fd e k (wr ++ [(fd, ztake k l)])) as (nw' & b' & e' & cs & E & Hpos & Hcs & Hw).
    + rewrite zlen_zdrop. replace (Z.max 0 (zlen l - Z.max 0 k)) with (zlen l - k) by lia. assumption.
    + refine (conj Hi1 (conj (Ho1 Ho) (conj Hc1 _))). by rewrite Hr1.
    + by left; lia.
    + exists nw', b', e', (ztake k l :: cs). rewrite E. csimpl. rewrite <- app_assoc. split_and!; try done.
      simpl. rewrite Hcs. by rewrite ztake_zdrop.
  - cbn [app write_loop]. rewrite Hr. destruct (Z.eqb_spec (zlen l) 0); [lia|]. rewrite Z.eqb_refl.
    apply IH; [done|done|]. right. intros ->. rewrite zlen_nil in *. lia.
Qed.

Lemma use_el_live w : el_live (env w) = true -> use_el w = Ret w.
Proof. unfold use_el. by intros ->. Qed.

(** Removing the writable event changes nothing: there is none. *)
Lemma delete_writable fd w :
  watching fd (el w) -> refusals (env w) = [] -> aeDeleteFileEvent w fd AE_WRITABLE = Ret w.
Proof.
  intros (Hfd & Hs & He & [wp Hfe] & Hi & Hm) Hr. unfold aeDeleteFileEvent. rewrite Hs.
  destruct (Z.leb_spec 1024 fd); [lia|]. rewrite Hfe. cbn [deref]. rewrite ret_bind.
  change (fe_mask _ =? AE_NONE) with false. cbv iota. unfold aeApiDelEvent. rewrite Hfe. cbn [deref]. rewrite ret_bind.
  change (ctl_refuses (env w) _ fd) with (default false (head (refusals (env w))), with_refusals (env w) (tail (refusals (env w)))).
  rewrite Hr. cbn [head tail default fe_mask]. unfold epoll_ctl. rewrite Hi.
  change (negb (Z.land AE_READABLE (Z.lnot AE_WRITABLE) =? AE_NONE)) with true. cbv iota. rewrite ret_bind.
  cbn [el events set_interest maxfd]. unfold arr_set. rewrite bool_decide_true, ret_bind by lia.
  rewrite andb_false_r. f_equal. destruct w as [l s]. cbn [el env] in *. f_equal.
  - destruct l. unfold set_events, set_interest. cbn in *. f_equal.
    + apply list_insert_id. unfold znth in Hfe. rewrite bool_decide_true in Hfe by lia. done.
    + by apply insert_id.
  - destruct s. unfold with_refusals. cbn in *. by rewrite Hr.
Qed.

Lemma cli_write_ok w c l room ws rest :
  cli (env w) = Some c -> writes l room (snd_buf c) -> l <> [] -> writes_ (env w) = ws ++ rest ->
  accepts ws (zlen l) -> watching (cfd c) (el w) -> refusals (env w) = [] -> el_live (env w) = true ->
  exists b e chunks, cli_write w = Ret (true, mkWorld (el w)
      (with_cli (with_writes (env w) e rest (wire_ (env w) ++ (pair (cfd c) <$> chunks))) (Some (set_snd c b)) (g_cli (env w)))) /\
    concat chunks = l /\ writes [] room b.
Proof.
  intros Hc Hw Hne Hws Ha Hq Hr Hl. unfold cli_write, the_cli. rewrite Hc. cbn [deref]. rewrite ret_bind.
  rewrite (writes_readable _ _ _ Hw).
  destruct (Z.eqb_spec (zlen l) 0) as [E|_]; [by apply zlen_nil_inv in E|].
  destruct (write_loop_ok ws rest l room (snd_buf c) (cfd c) (errno (env w)) 0 (wire_ (env w)) Ha Hw ltac:(by right))
    as (nw & b & e & chunks & E & Hpos & Hch & Hb).
  rewrite Hws, E, ret_bind. destruct (Z.leb_spec nw 0); [lia|].
  rewrite (writes_readable _ _ _ Hb). change (zlen [] =? 0) with true. cbv iota.
  rewrite use_el_live, ret_bind, delete_writable, ret_bind by done. by exists b, e, chunks.
Qed.

Lemma concat_wire (wr : list (Z * bytes)) fd chunks :
  concat (snd <$> (wr ++ (pair fd <$> chunks))) = concat (snd <$> wr) ++ concat chunks.
Proof.
  rewrite fmap_app, concat_app. f_equal. induction chunks as [|c chunks IH]; [done|]. csimpl. by rewrite IH.
Qed.

(** Sending one request. *)
Lemma send_req_ok k fd left r n vb room id ws rest rs ps sent rep w :
  at_rest fd left r n vb room id (ws ++ rest) rs ps sent rep w -> watching fd (el w) ->
  accepts ws request_len -> request_len <= room ->
  exists w', cli_send_req cjson_elements bench_args (S k) w = Ret w' /\ el w' = el w /\
    at_rest fd left r n vb (room - request_len) (next_reqid id) rest rs ps (sent ++ request (next_reqid id)) rep w'.
Proof.
  intros [(c & Hc & Hfd & Hcon & Hrun & Ht & Hl & Hrl & Hokn & Hv & Hrb & Hsb) Hg Hid Hws Hrs Hps Hse Hfds Hrep Href Hcl Hlive] Hq Ha Hroom.
  cbn [cli_send_req]. destruct (encode_req_ok w) as (b & -> & Hb). rewrite ret_bind. rewrite Hid in *.
  rewrite (bb_readable_spec b), (proj2 Hb), zlen_request by apply Hb.
  rewrite (holds_peek request_len (request (next_reqid id)) [] b), ret_bind; [|by rewrite app_nil_r|apply zlen_request].
  unfold the_cli. cbn [env put_env with_reqid cli]. rewrite Hc. cbn [deref]. rewrite ret_bind.
  destruct (writes_append [] room (snd_buf c) (request (next_reqid id)) Hsb) as (sb & -> & Hsb');
    [|rewrite zlen_request; done|].
  { unfold holds in Hb. destruct Hb as [Hbi <-]. by apply bb_contents_bytes. }
  rewrite ret_bind. rewrite app_nil_l, zlen_request in Hsb'.
  set (w1 := put_cli _ _).
  destruct (cli_write_ok w1 (set_snd c sb) (request (next_reqid id)) (room - request_len) ws rest)
    as (b' & e & chunks & -> & Hch & Hb'); [done|done| |done| | |done|done|].
  - intros E. pose proof (zlen_request (next_reqid id)) as Hz. rewrite E, zlen_nil in Hz.
    unfold request_len, DUBBO_HDR_LEN in Hz. zlen_facts. lia.
  - by rewrite zlen_request.
  - cbn [set_snd cfd]. by rewrite Hfd.
  - rewrite ret_bind. eexists. split; [reflexivity|]. split; [done|].
    assert (writes [] (room - request_len) (rcv_buf c)) as Hrb'.
    { destruct Hrb as (? & ? & ? & ?). refine (conj _ (conj _ (conj _ _))); try done.
      unfold request_len, DUBBO_HDR_LEN in *. zlen_facts. lia. }
    split; cbn [env w1 put_cli put_env with_cli with_writes with_reqid cli g_cli reqid_ writes_ reads polls wire_ reports refusals closed];
      try done.
    + exists (set_snd (set_snd c sb) b'). by split_and!.
    + by rewrite concat_wire, Hse, Hch.
    + apply Forall_app. split; [done|]. apply Forall_fmap, Forall_true. by intros x.
Qed.

Lemma sint_small x : - 2 ^ 31 <= x < 2 ^ 31 -> sint x = Ret x.
Proof. intros Hx. unfold sint. rewrite bool_decide_true; [done|unfold INT_MIN, INT_MAX; lia]. Qed.

(** Changing the two counters. *)
Lemma at_rest_left fd left r n vb room id ws rs ps sent rep w c left' r' :
  at_rest fd left r n vb room id ws rs ps sent rep w -> cli (env w) = Some c ->
  at_rest fd left' r' n vb room id ws rs ps sent rep (put_cli w (set_left c left' r')).
Proof.
  intros [(c0 & Hc & ? & ? & ? & ? & ? & ? & ? & ? & ? & ?) ? ? ? ? ? ? ? ? ? ?] E. rewrite Hc in E. injection E as ->.
  split; cbn; try done. exists (set_left c left' r'). by split_and!.
Qed.

(** Sending all that may be sent. *)
Lemma pipe_send_ok : forall wss k fd r n vb room id rest rs ps sent rep w,
  at_rest fd (zlen wss) r n vb room id (concat wss ++ rest) rs ps sent rep w -> watching fd (el w) ->
  Forall (fun ws => accepts ws request_len) wss -> zlen wss * request_len <= room -> zlen wss < 2 ^ 31 ->
  (length wss < k)%nat ->
  exists w', cli_pipe_send cjson_elements bench_args k w = Ret w' /\ el w' = el w /\
    at_rest fd 0 r n vb (room - zlen wss * request_len) (id_after id (length wss)) rest rs ps
      (sent ++ concat (request <$> request_ids id (length wss))) rep w'.
Proof.
  induction wss as [|ws wss IH]; intros [|k] fd r n vb room id rest rs ps sent rep w Hr Hq Ha Hroom Hlen Hk;
    [simpl in Hk; lia| |simpl in Hk; lia|].
  - rewrite cli_pipe_send_S. destruct (ar_cli _ _ _ _ _ _ _ _ _ _ _ _ _ Hr) as (c & Hc & _ & _ & _ & _ & Hl & Hrl & _).
    unfold the_cli. rewrite Hc. cbn [deref]. rewrite ret_bind, Hl. change (zlen (@nil (list write_answer))) with 0 in *.
    change (sint (0 - 1)) with (Ret (-1)). rewrite ret_bind. cbn [Z.eqb]. cbv iota.
    change (sint (-1 + 1)) with (Ret 0). rewrite ret_bind. eexists. split; [reflexivity|]. split; [done|].
    cbn [length request_ids id_after Nat.iter nat_rect concat fmap list_fmap]. rewrite app_nil_r, Z.mul_0_l, Z.sub_0_r.
    rewrite Hrl. change (put_cli (put_cli w _) ?x) with (put_cli w x). by eapply at_rest_left.
  - rewrite cli_pipe_send_S. destruct (ar_cli _ _ _ _ _ _ _ _ _ _ _ _ _ Hr) as (c & Hc & _ & _ & _ & _ & Hl & Hrl & _).
    unfold the_cli. rewrite Hc. cbn [deref]. rewrite ret_bind, Hl. rewrite zlen_cons in *. zlen_facts.
    rewrite sint_small, ret_bind by lia. destruct (Z.eqb_spec (1 + zlen wss) 0); [lia|].
    apply Forall_cons_1 in Ha as [Ha1 Ha]. cbn [concat] in Hr. rewrite <- app_assoc in Hr.
    destruct k as [|k]; [simpl in Hk; lia|].
    apply (at_rest_left _ _ _ _ _ _ _ _ _ _ _ _ _ c (1 + zlen wss - 1) (req_left c)) in Hr; [|done].
    rewrite Hrl in *. replace (1 + zlen wss - 1) with (zlen wss) in * by lia.
    assert (0 < request_len) by (unfold request_len, DUBBO_HDR_LEN; zlen_facts; lia).
    destruct (send_req_ok k _ _ _ _ _ _ _ _ _ _ _ _ _ _ Hr) as (w1 & -> & E1 & Hr1); [done|done|nia|].
    rewrite ret_bind.
    destruct (IH (S k) _ _ _ _ _ _ _ _ _ _ _ _ Hr1) as (w2 & -> & E2 & Hr2);
      [by rewrite E1|done|nia|lia|simpl in *; lia|].
    exists w2. split; [done|]. split; [by rewrite E2, E1|].
    cbn [length request_ids concat fmap list_fmap]. rewrite app_assoc.
    replace (id_after id (S (length wss))) with (id_after (next_reqid id) (length wss))
      by (unfold id_after; by rewrite Nat.iter_succ_r).
    by replace (room - (1 + zlen wss) * request_len) with (room - request_len - zlen wss * request_len) by lia.
Qed.

(** A response packet. *)
Record response := mkResponse {
  rp_flag : Z; rp_status : Z; rp_id : Z; rp_type : Z; rp_text : bytes; rp_extra : bytes
}.
Definition response_image (p : response) : bytes :=
  packet_image (rp_flag p) (rp_status p) (rp_id p) (response_body (rp_status p) (rp_type p) (rp_text p) (rp_extra p)).
Record response_ok (p : response) : Prop := {
  po_flag : 0 <= rp_flag p < 128;
  po_seri : Z.land (rp_flag p) DUBBO_SERI_MASK = DUBBO_HESSIAN2_SERI_ID;
  po_evt : Z.land (rp_flag p) DUBBO_FLAG_EVT = 0;
  po_status : - 2 ^ 7 <= rp_status p < 2 ^ 7;
  po_id : - 2 ^ 63 <= rp_id p < 2 ^ 63;
  po_type : rp_type p = DUBBO_RES_EX \/ rp_type p = DUBBO_RES_VAL;
  po_scalar : Forall scalar (rp_text p);
  po_nonempty : rp_text p <> [];
  po_nul : no_nul (encs (rp_text p));
  po_extra : all_bytes (rp_extra p);
  po_size : zlen (response_image p) <= extrabuf_sz
}.

(** What is printed for it. *)
Definition report_of (p : response) : report :=
  let text := encs (rp_text p) in
  let ok := rp_status p =? DUBBO_RES_T_OK in
  match (match text with
         | c :: _ => if (c =? 91) || (c =? 123) then cjson_pretty (text ++ [0]) else None
         | [] => None
         end) with
  | Some s => if ok then Success s else Failure (Some (get_res_status_desc (rp_status p))) s
  | None => if ok then Success text else Failure None text
  end.

Lemma show_report_ok res p :
  res_is_evt res = false -> res_data res = Some (Some (encs (rp_text p))) -> res_data_sz res = zlen (encs (rp_text p)) ->
  res_ok res = (rp_status p =? DUBBO_RES_T_OK) -> res_desc res = get_res_status_desc (rp_status p) ->
  encs (rp_text p) <> [] -> no_nul (encs (rp_text p)) ->
  show_report cjson_pretty res = Ret (Some (report_of p)).
Proof.
  intros He Hd Hs Hok_ Hde Hne Hn. unfold show_report, report_of. rewrite He, Hd, Hs, Hok_, Hde. cbn [deref]. zlen_facts.
  destruct (Z.eqb_spec (zlen (encs (rp_text p))) 0) as [E|_]; [by apply zlen_nil_inv in E|]. cbn [negb].
  repeat (rewrite ret_bind; cbn [deref]). rewrite mem_read_ok, slice_0_all, ret_bind by lia.
  destruct (encs (rp_text p)) as [|c text]; [done|].
  change (arr_get ((c :: text) ++ [0]) 0) with (Ret c). rewrite ret_bind. unfold c_str.
  destruct (if (c =? 91) || (c =? 123) then cjson_pretty ((c :: text) ++ [0]) else None) as [s|];
    [by destruct (rp_status p =? _)|].
  pose proof (strlen_cstr (c :: text) []) as E. rewrite app_nil_r in E. rewrite E, !ret_bind by done.
  rewrite ztake_app_exact by done. by destruct (rp_status p =? _).
Qed.

Lemma response_sizes p : response_ok p ->
  0 < zlen (rp_text p) /\ zlen (rp_text p) < 65536 /\ encs (rp_text p) <> [] /\
  let body := response_body (rp_status p) (rp_type p) (rp_text p) (rp_extra p) in
  all_bytes (response_image p) /\ zlen (response_image p) = DUBBO_HDR_LEN + zlen body /\
  0 < zlen body <= DUBBO_MAX_PKT_SZ.
Proof.
  intros []. unfold response_image in *. rewrite zlen_packet_image in *. unfold DUBBO_HDR_LEN, extrabuf_sz, DUBBO_MAX_PKT_SZ in *.
  set (body := response_body _ _ _ _) in *.
  assert (0 < zlen (rp_text p)) by (destruct (rp_text p); [done|rewrite zlen_cons; zlen_facts; lia]).
  pose proof (zlen_encs (rp_text p)).
  assert (zlen (encs (rp_text p)) <= zlen body) by (unfold body, response_body; rewrite !zlen_app; zlen_facts; lia).
  split_and!; try lia.
  - intros En. rewrite En in *. rewrite zlen_nil in *. lia.
  - apply all_bytes_packet. by apply all_bytes_response; [|done|lia|].
Qed.

Lemma decode_resp_ok k w c p room :
  cli (env w) = Some c -> response_ok p -> writes (response_image p) room (rcv_buf c) ->
  0 <= ok_n c < 2 ^ 31 - 1 ->
  exists b, cli_decode_resp cjson_pretty (S k) w = Ret (true, mkWorld (el w)
      (with_reports (with_cli (env w) (Some (set_ok (set_rcv c b) (ok_n c + 1))) (g_cli (env w)))
        (reports (env w) ++ (if cverbos c then [(rp_id p, report_of p)] else [])))) /\
    writes [] room b.
Proof.
  intros Hc Hp (Hi & Ho & Hcon & Hrm) Hn. destruct (response_sizes p Hp) as (Ht0 & Ht1 & Hte & _ & _ & Hb).
  destruct (Hp). unfold cli_decode_resp, the_cli. rewrite Hc. cbn [deref]. rewrite ret_bind.
  destruct (dubbo_decode_ok k (rp_flag p) (rp_status p) (rp_id p) (rp_type p) (rp_text p) (rp_extra p) [] (rcv_buf c))
    as ([r b] & E & [Hbi Hbc] & res & Er & Hres); try done; [apply Hb|by rewrite app_nil_r|].
  destruct (dubbo_decode_kept _ _ _ _ Hi E) as (_ & Hbo & Hbr). rewrite E, ret_bind.
  simpl in Er. subst r. destruct Hres as (Hrid & Hrok & _ & Hdesc & Hsz & Hdata & _ & Hevt).
  destruct (Hdata po_nonempty0) as [Hd Hrel]. rewrite sint_small, ret_bind by (cbn; lia).
  assert ((if res_ok res then set_ok (set_rcv c b) (ok_n (set_rcv c b) + 1) else set_ok (set_rcv c b) (ok_n (set_rcv c b) + 1))
    = set_ok (set_rcv c b) (ok_n c + 1)) as -> by (by destruct (res_ok res)).
  cbn [cverbos set_ok set_rcv]. exists b.
  split; [|refine (conj Hbi (conj (Hbo Ho) (conj Hbc _))); simpl in *; congruence].
  destruct (cverbos c).
  - rewrite (show_report_ok res p) by (done || congruence). rewrite !ret_bind, Hrel, ret_bind. by rewrite Hrid.
  - rewrite ret_bind, Hrel, ret_bind, app_nil_r. by destruct w as [l []].
Qed.

(** A read event that brings one whole response. *)
Lemma on_read_ok k fd r n vb room id ws p rs ps sent rep w :
  at_rest fd 0 r n vb room id ws (deliver (response_image p) :: rs) ps sent rep w -> response_ok p ->
  extrabuf_sz <= room -> 0 <= n < 2 ^ 31 - 1 -> - 2 ^ 31 < r < 2 ^ 31 ->
  exists w', el w' = el w /\
    at_rest fd 1 (r - 1) (n + 1) vb (room - zlen (response_image p)) id ws rs ps sent
      (rep ++ (if vb then [(rp_id p, report_of p)] else [])) w' /\
    cli_on_read cjson_elements cjson_pretty bench_args (S k) w =
      if r - 1 <=? 0 then cli_end w' else cli_pipe_send cjson_elements bench_args (S k) w'.
Proof.
  intros [(c & Hc & Hfd & Hcon & Hrun & Ht & Hl & Hrl & Hokn & Hv & Hrb & Hsb) Hg Hid Hws Hrs Hps Hse Hfds Hrep Href Hcl Hlive] Hp Hroom Hn Hr.
  destruct (response_sizes p Hp) as (_ & _ & _ & Hab & Hlen & Hb). pose proof (po_size _ Hp) as Hsz.
  set (img := response_image p) in *. set (body := response_body (rp_status p) (rp_type p) (rp_text p) (rp_extra p)) in *.
  set (full := DUBBO_HDR_LEN + zlen body) in *. assert (0 < full) by (unfold full, DUBBO_HDR_LEN; lia).
  unfold cli_on_read, the_cli. rewrite Hc. cbn [deref]. rewrite ret_bind, Hcon, Hrs. cbn [c_assert]. rewrite ret_bind.
  cbn [read_loop].
  destruct (read_chunk [] room (rcv_buf c) img) as (b & -> & Hbw); [done..|].
  rewrite ret_bind. destruct (Z.ltb_spec (zlen img) 0); [lia|]. destruct (Z.eqb_spec (zlen img) 0); [lia|].
  rewrite ret_bind. cbn [negb]. cbv iota. rewrite app_nil_l in Hbw.
  assert (holds (ztake full img) b) as Hh.
  { rewrite ztake_all by lia. destruct Hbw as (? & _ & ? & _). by split. }
  rewrite (is_dubbo_pkt_image (rp_flag p) (rp_status p) (rp_id p) body full b) by (done || lia).
  rewrite ret_bind. replace (DUBBO_HDR_LEN <=? full) with true by (unfold full, DUBBO_HDR_LEN; lia).
  cbn [negb]. rewrite ret_bind. cbn [put_cli put_env with_cli with_reads env cli deref]. rewrite ret_bind. cbn [rcv_buf set_rcv].
  rewrite (is_completed_ok (rp_flag p) (rp_status p) (rp_id p) body full b false) by (done || lia).
  replace (full <? DUBBO_HDR_LEN) with false by (unfold full, DUBBO_HDR_LEN; lia).
  rewrite ret_bind. cbn [negb pipe_left req_left set_rcv]. rewrite Hl, Hrl, !sint_small, !ret_bind by lia.
  set (w1 := put_cli _ _).
  destruct (decode_resp_ok k w1 (set_left (set_rcv c b) (0 + 1) (r - 1)) p (room - zlen img))
    as (b' & -> & Hb'); [done|done|done|cbn; lia|].
  rewrite ret_bind. cbn [env with_reports with_cli cli deref]. rewrite ret_bind. cbn [req_left set_ok set_rcv set_left].
  eexists. split; [|split; [|reflexivity]]; [done|].
  split; cbn; try done; [|by rewrite Hrep, Hv].
  exists (set_ok (set_rcv (set_left (set_rcv c b) 1 (r - 1)) b') (n + 1)).
  split_and!; try done; [by rewrite Hokn|]. cbn. destruct Hsb as (? & ? & ? & ?).
  refine (conj _ (conj _ (conj _ _))); try done. lia.
Qed.

(** Nothing to do for the timers. *)
Lemma process_no_timers (w : World) callT :
  timeEventHead (el w) = None -> 0 <= timeEventNextId (el w) < 2 ^ 62 ->
  exists now, processTimeEvents callT callH w = Ret (0, mkWorld (set_lastTime (el w) now) (env w)).
Proof.
  intros Hh Hn. unfold processTimeEvents. cbn [time sys_Sys]. eexists. rewrite Hh.
  match goal with |- context [mbind _ (if ?b then _ else _)] => assert ((if b
    then skew_loop (S (size (te_heap (el w)))) (te_heap (el w)) None else Ret (te_heap (el w))) = Ret (te_heap (el w))) as -> end.
  { by destruct (_ <? _). }
  rewrite ret_bind. unfold slong. rewrite bool_decide_true by lia. cbv iota. rewrite ret_bind. cbn [time_loop].
  do 2 f_equal. destruct (el w). cbn in *. by subst.
Qed.

Lemma no_write_bit m : has (Z.land m AE_READABLE) AE_WRITABLE = false.
Proof. unfold has. rewrite <- Z.land_assoc. change (Z.land AE_READABLE AE_WRITABLE) with 0. by rewrite Z.land_0_r. Qed.

(** One iteration in which the connection is readable. *)
Lemma read_iteration cF cT fd ps (w : World) :
  quiet fd (el w) -> polls (env w) = [(fd, EPOLLIN)] :: ps ->
  exists fs, zlen fs = 1024 /\ forall w2,
    cF cli_on_read_ fd (Some tt) AE_READABLE (mkWorld (set_fired (el w) fs) (with_polls (env w) ps)) = Ret w2 ->
    is_Some (znth (events (el w2)) fd) -> timeEventHead (el w2) = None -> 0 <= timeEventNextId (el w2) < 2 ^ 62 ->
    exists n now, aeProcessEvents cF cT callH w (Z.lor AE_ALL_EVENTS AE_CALL_AFTER_SLEEP)
      = Ret (n, mkWorld (set_lastTime (el w2) now) (env w2)).
Proof.
  intros ((Hfd & Hs & He & [wp Hfe] & Hi & Hm) & Hf & Hh & Hn & Hb & Ha) Hp.
  exists ((fd, AE_READABLE) :: zdrop 1 (fired (el w))). split.
  { rewrite zlen_cons, zlen_zdrop. lia. }
  intros w2 Hcall [fe2 Hfe2] Hh2 Hn2. unfold aeProcessEvents.
  change (negb (has _ AE_TIME_EVENTS) && negb (has _ AE_FILE_EVENTS)) with false. cbv iota.
  rewrite Hm. destruct (Z.eqb_spec fd (-1)); [lia|]. cbn [negb orb].
  unfold poll_timeout, aeSearchNearestTimer. rewrite Hh. cbn [search_loop].
  change (has _ AE_TIME_EVENTS && negb (has _ AE_DONT_WAIT)) with true. cbv iota. rewrite !ret_bind.
  change (has _ AE_DONT_WAIT) with false. cbv iota. unfold aeApiPoll. rewrite ret_bind.
  cbn [epoll_wait sys_Sys]. rewrite Hp. cbn [head tail default].
  change (map _ (id [(fd, EPOLLIN)])) with [(fd, AE_READABLE)]. unfold defined.
  change (zlen [(fd, AE_READABLE)]) with 1. rewrite Hf. change (1 <=? 1024) with true. cbv iota. rewrite !ret_bind.
  cbn [el set_fired aftersleep]. rewrite Ha, ret_bind. change (Z.to_nat 1) with 1%nat. cbn [file_loop].
  unfold dispatch. cbn [el set_fired fired app]. change (znth ((fd, AE_READABLE) :: zdrop 1 (fired (el w))) 0) with (Some (fd, AE_READABLE)).
  cbn [deref]. rewrite ret_bind. change (events (set_fired (el w) _)) with (events (el w)).
  rewrite Hfe. cbn [deref]. rewrite ret_bind. cbn [fe_mask rfileProc fe_data].
  change (has (Z.land AE_READABLE AE_READABLE) AE_READABLE) with true. cbn [deref]. cbv iota. rewrite ret_bind.
  rewrite Hcall, ret_bind, Hfe2. cbn [deref]. rewrite ret_bind, no_write_bit, !ret_bind.
  change (has _ AE_TIME_EVENTS) with true. cbv iota.
  destruct (process_no_timers w2 cT Hh2 Hn2) as [now ->]. rewrite ret_bind. by eexists _, _.
Qed.

(** The client is gone, its connection closed, once. *)
Record finished (fd : Z) (sent : bytes) (rep : list (Z * report)) (w : World) : Prop := {
  fi_cli : cli (env w) = None;
  fi_g : g_cli (env w) = false;
  fi_sent : concat (snd <$> wire_ (env w)) = sent;
  fi_fd : Forall (fun x => x.1 = fd) (wire_ (env w));
  fi_rep : reports (env w) = rep;
  fi_closed : closed (env w) = [fd]
}.

Definition reset_of (c : dubbo_client) : dubbo_client :=
  mkClient (timeout_ms c) AE_NOMORE (buf_retrieveAll (rcv_buf c)) (buf_retrieveAll (snd_buf c)) (cpipe_n c) (cpipe_n c)
    (creq_n c) (req_left c) (ok_n c) (ko_n c) (-1) false (run c) (cverbos c).

Lemma clear_timer_none w c : cli (env w) = Some c -> timerid c = AE_NOMORE -> cli_clear_timer w = Ret w.
Proof. intros Hc Ht. unfold cli_clear_timer, the_cli. rewrite Hc. cbn [deref]. by rewrite ret_bind, Ht. Qed.

Lemma reset_ok w c :
  cli (env w) = Some c -> timerid c = AE_NOMORE -> cli_reset w = Ret (put_cli w (reset_of c)).
Proof.
  intros Hc Ht. unfold cli_reset. assert (the_cli w = Ret c) as -> by (unfold the_cli; by rewrite Hc). rewrite ret_bind.
  rewrite (clear_timer_none _ (set_connected c false)), ret_bind by done.
  unfold the_cli. cbn [put_cli put_env with_cli env cli deref]. rewrite ret_bind. unfold reset_of. by rewrite <- Ht.
Qed.

Lemma delete_all fd (w : World) :
  watching fd (el w) -> refusals (env w) = [] ->
  exists es m i, aeDeleteFileEvent w fd (Z.lor AE_READABLE AE_WRITABLE)
      = Ret (mkWorld (set_events (set_interest (el w) i) es m) (env w)) /\ is_Some (znth es fd).
Proof.
  intros (Hfd & Hs & He & [wp Hfe] & Hi & Hm) Hr. unfold aeDeleteFileEvent. rewrite Hs.
  destruct (Z.leb_spec 1024 fd); [lia|]. rewrite Hfe. cbn [deref]. rewrite ret_bind.
  cbn [fe_mask]. change (AE_READABLE =? AE_NONE) with false. cbv iota. unfold aeApiDelEvent. rewrite Hfe. cbn [deref]. rewrite ret_bind.
  change (ctl_refuses (env w) _ fd) with (default false (head (refusals (env w))), with_refusals (env w) (tail (refusals (env w)))).
  rewrite Hr. cbn [head tail default fe_mask]. unfold epoll_ctl. rewrite Hi.
  change (negb (Z.land AE_READABLE (Z.lnot (Z.lor AE_READABLE AE_WRITABLE)) =? AE_NONE)) with false. cbv iota. rewrite ret_bind.
  cbn [el events set_interest maxfd env]. unfold arr_set. rewrite bool_decide_true, ret_bind by lia.
  eexists _, _, _. split.
  - do 2 f_equal. destruct (env w). unfold with_refusals. cbn in *. by rewrite Hr.
  - rewrite znth_insert by lia. destruct (decide (fd = fd)); [by eexists|done].
Qed.

Lemma end_ok fd left r n vb room id ws rs ps sent rep w :
  at_rest fd left r n vb room id ws rs ps sent rep w -> quiet fd (el w) ->
  exists w', cli_end w = Ret w' /\ finished fd sent rep w' /\ el_live (env w') = true /\ is_Some (znth (events (el w')) fd) /\
    timeEventHead (el w') = None /\ timeEventNextId (el w') = timeEventNextId (el w) /\ stop (el w') = 1.
Proof.
  intros [(c & Hc & Hfd & Hcon & Hrun & Ht & Hl & Hrl & Hokn & Hv & Hrb & Hsb) Hg Hid Hws Hrs Hps Hse Hfds Hrep Href Hcl Hlive] Hq.
  unfold cli_end, the_cli. rewrite Hc. cbn [deref]. rewrite ret_bind, Hrun. unfold cli_close, the_cli.
  rewrite Hc. cbn [deref]. rewrite ret_bind, Hfd, use_el_live, ret_bind by done.
  destruct (delete_all fd w (proj1 Hq) Href) as (es & m & i & -> & Hes). rewrite ret_bind.
  rewrite (reset_ok _ c), ret_bind by done. rewrite (clear_timer_none _ (reset_of c)), ret_bind by done.
  unfold aeGetTime. destruct (gettimeofday _) as [[sec_ us] d] eqn:Eg. cbn [env cli].
  assert (exists k, d = with_clock (with_cli (with_closed (env w) (fd :: closed (env w))) (cli d) (g_cli (env w))) k /\ is_Some (cli d)) as (k & Ed & [c' Hc']).
  { revert Eg. unfold gettimeofday, sys_Sys. destruct (default (0, 0) _) as [s0 u0]. intros [= _ _ <-].
    eexists. split; [reflexivity|]. by eexists. }
  rewrite Hc'. cbn [deref]. rewrite ret_bind, use_el_live, ret_bind by (rewrite Ed; done).
  eexists. split; [reflexivity|]. cbn [el aeStop cli_release put_env].
  destruct Hq as (_ & _ & Hh & Hn & _).
  split; [|split; [by rewrite Ed|split; [exact Hes|by split_and!]]]. rewrite Ed. split; cbn; try done. by rewrite Hcl.
Qed.

Lemma quiet_ext fd (l l' : aeEventLoop file_proc time_proc unit unit) :
  quiet fd l -> setsize l' = setsize l -> events l' = events l -> zlen (fired l') = 1024 ->
  interest l' = interest l -> maxfd l' = maxfd l -> timeEventHead l' = timeEventHead l ->
  timeEventNextId l' = timeEventNextId l -> beforesleep l' = beforesleep l -> aftersleep l' = aftersleep l -> quiet fd l'.
Proof. unfold quiet, watching. intros Hq -> -> ? -> -> -> -> -> ->. naive_solver. Qed.

Notation loop_cb k := (main_loop (callF cjson_elements cjson_pretty bench_args k) (callT cjson_elements bench_args k) callH).

Lemma main_loop_S k m w :
  stop (el w) = 0 -> beforesleep (el w) = None ->
  loop_cb k (S m) w =
  (let! (_, w) := aeProcessEvents (callF cjson_elements cjson_pretty bench_args k) (callT cjson_elements bench_args k)
     callH w (Z.lor AE_ALL_EVENTS AE_CALL_AFTER_SLEEP) in loop_cb k m w).
Proof. intros Hs Hb. cbn [main_loop]. rewrite Hs, Hb. done. Qed.

Lemma at_rest_polls fd left r n vb room id ws rs ps sent rep w l ps' :
  at_rest fd left r n vb room id ws rs ps sent rep w ->
  at_rest fd left r n vb room id ws rs ps' sent rep (mkWorld l (with_polls (env w) ps')).
Proof. intros []. split; done. Qed.

Lemma at_rest_loop fd left r n vb room id ws rs ps sent rep w l :
  at_rest fd left r n vb room id ws rs ps sent rep w ->
  at_rest fd left r n vb room id ws rs ps sent rep (mkWorld l (env w)).
Proof. intros []. split; done. Qed.

(** From the first response to the last. *)
Lemma bench_loop : forall ps wss k m fd n vb room id sent rep w,
  at_rest fd 0 (zlen ps) n vb room id (concat wss) (deliver <$> (response_image <$> ps))
    (replicate (length ps) [(fd, EPOLLIN)]) sent rep w ->
  quiet fd (el w) -> stop (el w) = 0 -> Forall response_ok ps -> ps <> [] ->
  Forall (fun ws => accepts ws request_len) wss -> length ps = S (length wss) ->
  0 <= n -> n + zlen ps < 2 ^ 31 -> zlen ps * (extrabuf_sz + request_len) <= room -> (length ps < m)%nat ->
  exists w', loop_cb (S (S (S k))) m w = Ret w' /\
    finished fd (sent ++ concat (request <$> request_ids id (length wss)))
      (rep ++ (if vb then (fun p => (rp_id p, report_of p)) <$> ps else [])) w' /\ el_live (env w') = true.
Proof.
  induction ps as [|p ps IH]; intros wss k [|m] fd n vb room id sent rep w Hr Hq Hstop Hps Hne Ha Hlen Hn Hn2 Hroom Hm;
    [done|done|simpl in Hm; lia|].
  apply Forall_cons_1 in Hps as [Hp Hps]. rewrite zlen_cons in *. zlen_facts. csimpl in Hr.
  assert (0 < request_len) by (unfold request_len, DUBBO_HDR_LEN; zlen_facts; lia).
  assert (0 < extrabuf_sz) by done.
  rewrite main_loop_S by (done || apply Hq).
  destruct (read_iteration (callF cjson_elements cjson_pretty bench_args (S (S (S k)))) (callT cjson_elements bench_args (S (S (S k))))
    fd (replicate (length ps) [(fd, EPOLLIN)]) w Hq (ar_ps _ _ _ _ _ _ _ _ _ _ _ _ _ Hr)) as (fs & Hfs & Hit).
  set (w1 := mkWorld (set_fired (el w) fs) (with_polls (env w) (replicate (length ps) [(fd, EPOLLIN)]))) in *.
  assert (at_rest fd 0 (1 + zlen ps) n vb room id (concat wss)
    (deliver (response_image p) :: (deliver <$> (response_image <$> ps))) (replicate (length ps) [(fd, EPOLLIN)]) sent rep w1)
    as Hr1 by (eapply at_rest_polls; exact Hr).
  assert (quiet fd (el w1)) as Hq1 by (by eapply quiet_ext).
  destruct (on_read_ok (S (S k)) _ _ _ _ _ _ _ _ _ _ _ _ _ Hr1 Hp) as (w2 & E2 & Hr2 & Hread); [nia|lia|lia|].
  pose proof (po_size _ Hp). change (callF _ _ _ _ cli_on_read_ fd (Some tt) AE_READABLE w1)
    with (cli_on_read cjson_elements cjson_pretty bench_args (S (S (S k))) w1) in Hit.
  rewrite Hread in Hit. replace (1 + zlen ps - 1) with (zlen ps) in * by lia.
  assert (quiet fd (el w2)) as Hq2 by (by rewrite E2).
  destruct ps as [|p2 ps].
  - destruct wss; [|done]. change (zlen (@nil response) <=? 0) with true in Hit. cbv iota in Hit.
    destruct (end_ok _ _ _ _ _ _ _ _ _ _ _ _ _ Hr2 Hq2) as (w3 & E3 & Hfin & Hlv & Hev & Hth & Hid & Hst).
    destruct (Hit w3 E3 Hev Hth) as (q & now & ->); [rewrite Hid; apply Hq2|]. rewrite ret_bind.
    exists (mkWorld (set_lastTime (el w3) now) (env w3)). split.
    + destruct m as [|m]; [simpl in Hm; lia|]. cbn [main_loop el set_lastTime stop]. rewrite Hst. done.
    + cbn [length request_ids fmap list_fmap concat]. rewrite app_nil_r. by destruct Hfin.
  - destruct wss as [|ws wss]; [done|]. apply Forall_cons_1 in Ha as [Ha1 Ha].
    replace (zlen (p2 :: ps) <=? 0) with false in Hit by (rewrite zlen_cons in *; zlen_facts; lia).
    destruct (pipe_send_ok [ws] (S (S (S k))) fd (zlen (p2 :: ps)) (n + 1) vb (room - zlen (response_image p)) id (concat wss)
      (deliver <$> (response_image <$> (p2 :: ps))) (replicate (length (p2 :: ps)) [(fd, EPOLLIN)]) sent
      (rep ++ (if vb then [(rp_id p, report_of p)] else [])) w2) as (w3 & E3 & Eel & Hr3);
      [by cbn [concat]; rewrite app_nil_r|apply Hq2|by constructor|change (zlen [ws]) with 1; nia|done|simpl; lia|].
    destruct Hq2 as ((? & ? & ? & [wp Hfe] & ? & ?) & ? & Hth & ? & ? & ?).
    destruct (Hit w3 E3) as (q & now & ->); [rewrite Eel; by eexists|by rewrite Eel|by rewrite Eel|]. rewrite ret_bind.
    destruct (IH wss k m fd (n + 1) vb (room - zlen (response_image p) - 1 * request_len) (id_after id 1)
      (sent ++ request (next_reqid id)) (rep ++ (if vb then [(rp_id p, report_of p)] else []))
      (mkWorld (set_lastTime (el w3) now) (env w3))) as (w4 & -> & Hfin & Hlv4); try done.
    + apply at_rest_loop. cbn [length request_ids fmap list_fmap concat] in Hr3. by rewrite app_nil_r in Hr3.
    + cbn [el]. eapply quiet_ext; [exact Hq1|rewrite Eel, E2; done..| | | | | | |]; by rewrite ?Eel, ?E2.
    + cbn [el set_lastTime stop]. by rewrite Eel, E2.
    + simpl in *. lia.
    + lia.
    + rewrite zlen_cons in *. zlen_facts. lia.
    + rewrite zlen_cons in *. zlen_facts. nia.
    + simpl in *. lia.
    + exists w4. split; [done|]. split; [|exact Hlv4]. cbn [length request_ids fmap list_fmap concat] in Hfin |- *.
      rewrite <- !app_assoc in Hfin. destruct vb; csimpl; done.
Qed.

(** *** Connecting *)
Definition blank : aeFileEvent file_proc unit := mkFE AE_NONE None None None.
Definition fresh_loop (t : Z) : aeEventLoop file_proc time_proc unit unit :=
  mkLoop (-1) 1024 0 t (replicate 1024 blank) (replicate 1024 (0, 0)) None ∅ 0 0 ∅ None None.
(** The connection is under way and the timer is set. *)
Definition connecting_loop (fd t sec_ ms : Z) : aeEventLoop file_proc time_proc unit unit :=
  mkLoop fd 1024 1 t (<[Z.to_nat fd := mkFE AE_WRITABLE None (Some cli_on_connect_) (Some tt)]> (replicate 1024 blank))
    (replicate 1024 (0, 0)) (Some 0) {[0 := mkTE 0 sec_ ms cli_connect_timeout_ None tt None]} 1 0
    {[fd := EPOLLOUT]} None None.

Definition clock_ok (l : list (Z * Z)) : Prop := Forall (fun x => 0 <= x.1 < 2 ^ 40 /\ 0 <= x.2 < 1000000) l.

(** The client before it is connected. *)
Definition client_for (a : dubbo_async_args) (fd t : Z) (r : bool) (rb sb : buffer) : dubbo_client :=
  mkClient (sec * 1000) t rb sb (Z.min (pipe_n a) (req_n a)) (Z.min (pipe_n a) (req_n a)) (req_n a) (req_n a) 0 0
    fd false r (verbos a).

Lemma create_event_loop_ok s :
  exists t, aeCreateEventLoop (F := file_proc) (T := time_proc) (H := unit) (C := unit) true 1024 s
    = Some (mkWorld (fresh_loop t) s).
Proof.
  unfold aeCreateEventLoop. rewrite !alloc_total by (vm_compute; split; congruence). cbn [negb andb time sys_Sys].
  by eexists.
Qed.

Definition fresh_buf : buffer := mkBuffer 8 8 1032 8 (zeros 1032) 0 None None.

Lemma fresh_buf_ok : bb_create (B := buffer) CLI_INIT_BUF_SZ 8 = Ret (Some fresh_buf) /\ writes [] (2 ^ 62) fresh_buf.
Proof.
  assert (bb_create (B := buffer) CLI_INIT_BUF_SZ 8 = Ret (Some fresh_buf)) as E.
  { cbn [bb_create buffer_ByteBuf]. unfold buf_create_ex. change (u64 (CLI_INIT_BUF_SZ + 8)) with 1032.
    rewrite !alloc_total by (vm_compute; split; congruence). reflexivity. }
  split; [done|]. destruct (bb_create_spec (B := buffer) CLI_INIT_BUF_SZ 8) as (ob & E' & b & -> & Hi & Ho & Hc & Hr & _); [done..|].
  rewrite E in E'. injection E' as <-. refine (conj Hi (conj Ho (conj Hc _))). by rewrite Hr.
Qed.

Lemma create_ok a t (s : sys) :
  0 < pipe_n a -> 0 < req_n a -> 0 < sec < 2 ^ 31 -> cli s = None ->
  cli_create bench_args true a (mkWorld (fresh_loop t) s)
  = Ret (Some (mkWorld (fresh_loop t) (with_cli s (Some (client_for a (-1) AE_NOMORE false fresh_buf fresh_buf)) (g_cli s)))).
Proof.
  intros Hp Hr Hs Hc. unfold cli_create. destruct fresh_buf_ok as [E _]. rewrite E, !ret_bind. cbn [deref]. rewrite !ret_bind.
  cbn [timeout_sec bench_args]. unfold slong. rewrite bool_decide_true by lia. cbv iota. rewrite ret_bind.
  replace (if req_n a <? pipe_n a then req_n a else pipe_n a) with (Z.min (pipe_n a) (req_n a))
    by (destruct (Z.ltb_spec (req_n a) (pipe_n a)); lia).
  erewrite reset_ok by reflexivity. rewrite ret_bind. done.
Qed.

Lemma gettimeofday_ok s :
  clock_ok (clock s) -> exists sec_ us l, gettimeofday s = (sec_, us, with_clock s l) /\
    0 <= sec_ < 2 ^ 40 /\ 0 <= us < 1000000 /\ clock_ok l.
Proof.
  intros Hc. cbn [gettimeofday sys_Sys]. destruct (clock s) as [|[s0 u0] l]; cbn.
  - eexists 0, 0, _. split; [reflexivity|]. split; [lia|]. by split; [lia|].
  - apply Forall_cons_1 in Hc as [[] Hl]. eexists s0, u0, _. split; [reflexivity|]. split; [done|]. split; [done|].
    destruct l; [|done]. by constructor.
Qed.

Lemma get_time_ok l s :
  clock_ok (clock s) -> exists sec_ ms k, aeGetTime (mkWorld l s : World) = (sec_, ms, mkWorld l (with_clock s k)) /\
    0 <= sec_ < 2 ^ 40 /\ 0 <= ms < 1000 /\ clock_ok k.
Proof.
  intros Hc. destruct (gettimeofday_ok s Hc) as (sec_ & us & k & E & Hs & Hu & Hk).
  unfold aeGetTime. cbn [env el]. rewrite E. eexists sec_, (Z.quot us 1000), k. split; [done|]. split; [done|].
  split; [|done]. rewrite Z.quot_div_nonneg by lia. pose proof (Z.div_mod us 1000 ltac:(lia)).
  pose proof (Z.mod_pos_bound us 1000 ltac:(lia)). lia.
Qed.

Lemma slong_small x : - 2 ^ 63 <= x < 2 ^ 63 -> slong x = Ret x.
Proof. intros Hx. unfold slong. by rewrite bool_decide_true. Qed.

Lemma add_ms_ok l s ms :
  clock_ok (clock s) -> 0 <= ms < 2 ^ 42 ->
  exists s' ms' k, aeAddMillisecondsToNow (mkWorld l s : World) ms = Ret (s', ms', mkWorld l (with_clock s k)) /\
    0 <= s' < 2 ^ 50 /\ 0 <= ms' < 2000 /\ clock_ok k.
Proof.
  intros Hc Hms. unfold aeAddMillisecondsToNow. destruct (get_time_ok l s Hc) as (s0 & m0 & k & -> & Hs & Hm & Hk).
  assert (0 <= Z.quot ms 1000 < 2 ^ 42 /\ 0 <= Z.rem ms 1000 < 1000) as [Hq Hr].
  { rewrite Z.quot_div_nonneg, Z.rem_mod_nonneg by lia. pose proof (Z.div_mod ms 1000 ltac:(lia)).
    pose proof (Z.mod_pos_bound ms 1000 ltac:(lia)). lia. }
  rewrite !slong_small, !ret_bind by lia. rewrite slong_small, ret_bind by lia.
  destruct (Z.leb_spec 1000 (m0 + Z.rem ms 1000)).
  - rewrite ?slong_small, ?ret_bind by lia. eexists _, _, k. split; [reflexivity|]. split; [lia|]. by split; [lia|].
  - eexists _, _, k. split; [reflexivity|]. split; [lia|]. by split; [lia|].
Qed.

Lemma blank_at fd : 0 <= fd < 1024 -> znth (replicate 1024 blank) fd = Some blank.
Proof.
  intros Hfd. unfold znth. rewrite bool_decide_true by lia. apply lookup_replicate_2. lia.
Qed.

Lemma zlen_blanks : zlen (replicate 1024 blank) = 1024.
Proof. reflexivity. Qed.

(** The states of the system before and after the connection is requested. *)
Definition start_sys (fd id : Z) ws rs ps clk : sys :=
  mkSys None false id 0 [fd] [EINPROGRESS] ws rs [] ps clk [] [] [] false.
Definition client_sys (c : dubbo_client) (id : Z) ws rs ps clk : sys :=
  mkSys (Some c) true id EINPROGRESS [] [] ws rs [] ps clk [] [] [] true.

(** Registering the first event of a descriptor. *)
Lemma first_event_ok l (s : sys) fd mask p fe :
  0 <= fd < setsize l -> znth (events l) fd = Some fe -> fe_mask fe = AE_NONE -> interest l !! fd = None ->
  refusals s = [] ->
  aeCreateFileEvent (mkWorld l s : World) fd mask p tt = Ret (AE_OK, mkWorld
    (set_events (set_interest l (<[fd := to_epoll mask]> (interest l)))
      (<[Z.to_nat fd := mkFE mask (if has mask AE_READABLE then Some p else rfileProc fe)
          (if has mask AE_WRITABLE then Some p else wfileProc fe) (Some tt)]> (events l))
      (if maxfd l <? fd then fd else maxfd l)) s).
Proof.
  intros Hfd Hfe Hm Hi Hr. unfold aeCreateFileEvent. cbn [el]. destruct (Z.leb_spec (setsize l) fd); [lia|].
  unfold aeApiAddEvent. cbn [el env]. rewrite Hfe. cbn [deref]. rewrite ret_bind, Hm, Z.lor_0_r.
  change (ctl_refuses s (if AE_NONE =? AE_NONE then EPOLL_CTL_ADD else EPOLL_CTL_MOD) fd)
    with (default false (head (refusals s)), with_refusals s (tail (refusals s))).
  rewrite Hr. cbn [head tail default]. change (AE_NONE =? AE_NONE) with true. cbv iota.
  unfold epoll_ctl. change (from_option id false None) with false. cbv iota. rewrite Hi, ret_bind. cbn [negb].
  cbv iota. cbn [el events set_interest maxfd env]. rewrite Hfe. cbn [deref]. rewrite ret_bind.
  unfold arr_set. rewrite bool_decide_true by (by eapply znth_inv). rewrite ret_bind, Hm, Z.lor_0_l.
  do 3 f_equal. destruct s. unfold with_refusals. cbn in *. by rewrite Hr.
Qed.

Lemma create_timer_ok l (s : sys) ms p :
  clock_ok (clock s) -> 0 <= ms < 2 ^ 42 -> 0 <= timeEventNextId l < 2 ^ 62 ->
  exists s' ms' k, aeCreateTimeEvent (mkWorld l s : World) ms p tt None = Ret (timeEventNextId l, mkWorld
      (set_timers (set_nextId l (timeEventNextId l + 1) (te_brk l + 1)) (Some (te_brk l))
        (<[te_brk l := mkTE (timeEventNextId l) s' ms' p None tt (timeEventHead l)]> (te_heap l)))
      (with_clock s k)) /\
    0 <= s' < 2 ^ 50 /\ 0 <= ms' < 2000 /\ clock_ok k.
Proof.
  intros Hc Hms Hn. unfold aeCreateTimeEvent. cbn [el env]. rewrite slong_small, ret_bind by lia.
  rewrite alloc_total by lia. cbn [negb]. cbv iota.
  destruct (add_ms_ok (set_nextId l (timeEventNextId l + 1) (te_brk l)) s ms Hc Hms) as (s' & ms' & k & -> & Hs' & Hms' & Hk).
  rewrite ret_bind. cbn [el env]. exists s', ms', k. split; [reflexivity|done].
Qed.

Lemma start_ok k a t fd id ws rs ps clk :
  0 <= fd < 1024 -> 0 < sec < 2 ^ 31 -> clock_ok clk -> 0 < pipe_n a -> 0 < req_n a ->
  exists s' ms' clk', dubbo_bench_async cjson_elements bench_args (S k) true a 
      (mkWorld (fresh_loop t) (with_live (start_sys fd id ws rs ps clk) true))
    = Ret (true, mkWorld (connecting_loop fd t s' ms')
        (client_sys (client_for a fd 0 true fresh_buf fresh_buf) id ws rs ps clk')) /\
    0 <= s' < 2 ^ 50 /\ 0 <= ms' < 2000 /\ clock_ok clk'.
Proof.
  intros Hfd Hs Hclk Hp Hr. unfold dubbo_bench_async. rewrite create_ok, ret_bind by done.
  unfold cli_start, the_cli. sys_simpl. rewrite ret_bind. cbn [run client_for].
  unfold start_sys. sys_simpl.
  match goal with |- context [aeGetTime (mkWorld ?l ?s)] =>
    destruct (get_time_ok l s Hclk) as (s0 & m0 & k1 & E0 & _ & _ & Hk1); rewrite E0; clear E0 end.
  rewrite cli_connect_S. sys_simpl.
  destruct (Z.ltb_spec fd 0); [lia|]. unfold the_cli. sys_simpl. rewrite ret_bind. sys_simpl. change (EINPROGRESS =? 0) with false. change (EINPROGRESS =? EINPROGRESS) with true.
  cbv iota. rewrite use_el_live, ret_bind by done. rewrite (first_event_ok (fresh_loop t) _ fd AE_WRITABLE cli_on_connect_ blank), ret_bind;
    [|cbn; lia|by apply blank_at|done|apply lookup_empty|done].
  change (AE_OK =? AE_ERR) with false. cbv iota. unfold the_cli.
  sys_simpl. rewrite ret_bind, use_el_live, ret_bind by done.
  cbn [timeout_ms client_for set_fd set_run].
  match goal with |- context [aeCreateTimeEvent (mkWorld ?l ?s) _ _ _ _] =>
    destruct (create_timer_ok l s (sec * 1000) cli_connect_timeout_) as (s' & ms' & k2 & E & Hs' & Hms' & Hk2);
    [done|lia|done|] end.
  rewrite E, ret_bind. change (timeEventNextId _ =? AE_ERR) with false. cbv iota.
  exists s', ms', k2. split; [|done]. do 2 f_equal. unfold put_cli, put_env, client_sys, connecting_loop. cbn.
  destruct (Z.ltb_spec (-1) fd); [|lia]. do 2 f_equal.
Qed.

(** A list that consists of one timer. *)
Definition one_timer (l : aeEventLoop file_proc time_proc unit unit) (te : aeTimeEvent time_proc unit unit) : Prop :=
  timeEventHead l = Some 0 /\ te_heap l = {[0 := te]} /\ te_next te = None /\ finalizerProc te = None.

Lemma poll_timeout_one l s te :
  one_timer l te -> 0 <= when_sec te < 2 ^ 50 -> 0 <= when_ms te < 2000 -> clock_ok (clock s) ->
  exists a b k, poll_timeout (mkWorld l s : World) (Z.lor AE_ALL_EVENTS AE_CALL_AFTER_SLEEP)
      = Ret (Some (a, b), mkWorld l (with_clock s k)) /\ 0 <= a < 2 ^ 62 / 1000 /\ 0 <= b < 1000000 /\ clock_ok k.
Proof.
  intros (Hh & Hp & Hn & _) Hws Hwm Hc. unfold poll_timeout.
  change (has _ AE_TIME_EVENTS && negb (has _ AE_DONT_WAIT)) with true. cbv iota.
  unfold aeSearchNearestTimer. cbn [el]. rewrite Hh, Hp, map_size_singleton. cbn [search_loop].
  rewrite lookup_singleton_eq. cbn [deref]. rewrite ret_bind, Hn, ret_bind.
  destruct (get_time_ok l s Hc) as (s0 & m0 & k & -> & Hs0 & Hm0 & Hk).
  assert (2 ^ 62 / 1000 = 4611686018427387) as -> by reflexivity.
  do 4 (rewrite slong_small, ret_bind by lia).
  set (ms := (when_sec te - s0) * 1000 + when_ms te - m0).
  destruct (Z.ltb_spec 0 ms) as [Hpos|]; [|eexists 0, 0, k; split; [reflexivity|]; split; [lia|]; by split; [lia|]].
  eexists _, _, k. split; [reflexivity|].
  rewrite Z.quot_div_nonneg, Z.rem_mod_nonneg by lia. pose proof (Z.div_mod ms 1000 ltac:(lia)).
  pose proof (Z.mod_pos_bound ms 1000 ltac:(lia)). split; [unfold ms in *; lia|]. by split; [lia|].
Qed.

(** A marked timer is removed. *)
Lemma process_marked_timer l s te callT :
  one_timer l te -> te_id te = AE_DELETED_EVENT_ID -> 0 <= timeEventNextId l < 2 ^ 62 ->
  exists now, processTimeEvents callT callH (mkWorld l s : World)
    = Ret (0, mkWorld (set_lastTime (set_timers l None ∅) now) s).
Proof.
  intros (Hh & Hp & Hn & Hf) Hid Hni. unfold processTimeEvents. cbn [time sys_Sys env el]. eexists.
  rewrite Hh, Hp, map_size_singleton.
  match goal with |- context [mbind _ (if ?b then _ else _)] => set (skew := b) end.
  set (te' := if skew then te_set_when te 0 (when_ms te) else te).
  assert ((if skew then skew_loop 2 {[0 := te]} (Some 0) else Ret {[0 := te]}) = Ret {[0 := te']}) as ->.
  { unfold te'. destruct skew; [|done]. cbn [skew_loop]. rewrite lookup_singleton_eq. cbn [deref].
    rewrite ret_bind, Hn. by rewrite insert_singleton_eq. }
  rewrite ret_bind, slong_small, ret_bind, map_size_singleton by lia. cbn [time_loop el set_lastTime set_timers te_heap].
  rewrite lookup_singleton_eq. cbn [deref]. rewrite ret_bind.
  assert (te_id te' = AE_DELETED_EVENT_ID /\ te_next te' = None /\ finalizerProc te' = None) as (-> & Hn' & Hf').
  { unfold te'. by destruct skew. }
  rewrite Z.eqb_refl. unfold remove_node, unlink. rewrite Hn', !ret_bind, Hf', !ret_bind. cbn [time_loop].
  unfold free_node, set_lastTime, set_timers. cbn. by rewrite delete_singleton_eq.
Qed.

(** Removing the last event of the highest descriptor. *)
Lemma last_event_ok l (s : sys) fd fe e :
  0 <= fd < setsize l -> znth (events l) fd = Some fe -> fe_mask fe = AE_WRITABLE -> interest l !! fd = Some e ->
  maxfd l = fd -> refusals s = [] ->
  exists m, m < fd /\ aeDeleteFileEvent (mkWorld l s : World) fd AE_WRITABLE = Ret (mkWorld
    (set_events (set_interest l (delete fd (interest l)))
      (<[Z.to_nat fd := mkFE AE_NONE (rfileProc fe) (wfileProc fe) (fe_data fe)]> (events l)) m) s).
Proof.
  intros Hfd Hfe Hm Hi Hmax Hr. unfold aeDeleteFileEvent. cbn [el]. destruct (Z.leb_spec (setsize l) fd); [lia|].
  rewrite Hfe. cbn [deref]. rewrite ret_bind, Hm. change (AE_WRITABLE =? AE_NONE) with false. cbv iota.
  unfold aeApiDelEvent. cbn [el env]. rewrite Hfe. cbn [deref]. rewrite ret_bind, Hm.
  change (ctl_refuses s _ fd) with (default false (head (refusals s)), with_refusals s (tail (refusals s))).
  rewrite Hr. cbn [head tail default]. change (negb (Z.land AE_WRITABLE (Z.lnot AE_WRITABLE) =? AE_NONE)) with false. cbv iota.
  unfold epoll_ctl. change (from_option id false None) with false. cbv iota. rewrite Hi, ret_bind.
  cbn [el events set_interest maxfd env fe_mask]. unfold arr_set. rewrite bool_decide_true by (by eapply znth_inv).
  rewrite ret_bind. rewrite Hmax, Z.eqb_refl. change (Z.land AE_WRITABLE (Z.lnot AE_WRITABLE)) with AE_NONE.
  change (AE_NONE =? AE_NONE) with true. cbn [andb]. eexists. split.
  2: { do 3 f_equal. destruct s. unfold with_refusals. cbn in *. by rewrite Hr. }
  destruct (last_used_ok (<[Z.to_nat fd:=mkFE AE_NONE (rfileProc fe) (wfileProc fe) (fe_data fe)]> (events l)) (Z.to_nat fd))
    as [[-> |[Hlt _]] _]; lia.
Qed.

Lemma clear_timer_one l s c te :
  cli s = Some c -> timerid c = te_id te -> te_id te <> AE_NOMORE -> one_timer l te -> el_live s = true ->
  cli_clear_timer (mkWorld l s) = Ret (mkWorld
    (set_timers l (Some 0) {[0 := te_set_id te AE_DELETED_EVENT_ID]})
    (with_cli s (Some (set_timerid c AE_NOMORE)) (g_cli s))).
Proof.
  intros Hc Hid Hne (Hh & Hp & Hn & _) Hl. unfold cli_clear_timer, the_cli. cbn [env]. rewrite Hc. cbn [deref].
  rewrite ret_bind, Hid. destruct (Z.eqb_spec (te_id te) AE_NOMORE); [done|]. cbn [negb].
  rewrite use_el_live, ret_bind by done. unfold aeDeleteTimeEvent. cbn [el]. rewrite Hh, Hp, map_size_singleton. cbn [delete_time_loop].
  rewrite lookup_singleton_eq. cbn [deref]. rewrite ret_bind, Z.eqb_refl, !ret_bind.
  unfold put_cli, put_env. cbn. by rewrite insert_singleton_eq.
Qed.

(** The connection is made: the first requests go out. *)
Lemma on_connect_ok k a wss rest fd id rs ps clk t s' ms' fs :
  0 <= fd < 1024 -> zlen fs = 1024 -> zlen wss = Z.min (pipe_n a) (req_n a) -> zlen wss < 2 ^ 31 ->
  Forall (fun ws => accepts ws request_len) wss -> zlen wss * request_len <= 2 ^ 62 -> (length wss < k)%nat ->
  exists w', cli_on_connect cjson_elements bench_args (S k) fd AE_WRITABLE
      (mkWorld (set_fired (connecting_loop fd t s' ms') fs)
        (client_sys (client_for a fd 0 true fresh_buf fresh_buf) id (concat wss ++ rest) rs ps clk)) = Ret w' /\
    at_rest fd 0 (req_n a) 0 (verbos a) (2 ^ 62 - zlen wss * request_len) (id_after id (length wss)) rest rs ps
      (concat (request <$> request_ids id (length wss))) [] w' /\
    watching fd (el w') /\ zlen (fired (el w')) = 1024 /\ stop (el w') = 0 /\ timeEventNextId (el w') = 1 /\
    beforesleep (el w') = None /\ aftersleep (el w') = None /\
    one_timer (el w') (mkTE AE_DELETED_EVENT_ID s' ms' cli_connect_timeout_ None tt None).
Proof.
  intros Hfd Hfs Hlen Hlen2 Ha Hroom Hk. unfold cli_on_connect. change (has AE_WRITABLE AE_WRITABLE) with true. cbv iota.
  set (fe := mkFE AE_WRITABLE None (Some cli_on_connect_) (Some tt)).
  assert (forall j x, znth (<[Z.to_nat fd := x]> (replicate 1024 blank)) j = if decide (fd = j) then Some x else znth (replicate 1024 blank) j) as Hz.
  { intros j x. apply znth_insert. rewrite zlen_blanks. lia. }
  rewrite use_el_live, ret_bind by done.
  destruct (last_event_ok (set_fired (connecting_loop fd t s' ms') fs)
    (client_sys (client_for a fd 0 true fresh_buf fresh_buf) id (concat wss ++ rest) rs ps clk) fd fe EPOLLOUT)
    as (m & Hm & ->); [cbn; lia|cbn; rewrite Hz; by destruct (decide (fd = fd))|done|cbn; apply lookup_singleton_eq|done|done|].
  rewrite ret_bind, cli_connected_S. unfold the_cli. unfold client_sys. sys_simpl. rewrite ret_bind.
  cbn [fe fe_data rfileProc wfileProc].
  rewrite (clear_timer_one _ _ (set_connected (client_for a fd 0 true fresh_buf fresh_buf) true)
    (mkTE 0 s' ms' cli_connect_timeout_ None tt None)) by (done || by split_and!).
  rewrite ret_bind. sys_simpl. rewrite ret_bind, use_el_live, ret_bind by done.
  cbn [cfd client_for set_connected set_timerid].
  set (fe2 := mkFE AE_NONE None (Some cli_on_connect_) (Some tt)).
  rewrite (first_event_ok _ _ fd AE_READABLE cli_on_read_ fe2);
    [|cbn; lia|cbn; rewrite list_insert_insert_eq, Hz; by destruct (decide (fd = fd))|done|cbn; apply lookup_delete_eq|done].
  rewrite ret_bind. change (AE_OK =? AE_ERR) with false. cbv iota.
  match goal with |- context [cli_pipe_send _ _ k ?w] => set (w1 := w) end.
  assert (watching fd (el w1)) as Hw1.
  { unfold w1. split_and!; cbn; try lia; try done.
    - by rewrite !zlen_insert.
    - exists (Some cli_on_connect_). rewrite !list_insert_insert_eq, Hz. by destruct (decide (fd = fd)).
    - by rewrite lookup_insert_eq.
    - destruct (Z.ltb_spec m fd); lia. }
  destruct fresh_buf_ok as [_ Hfb].
  destruct (pipe_send_ok wss k fd (req_n a) 0 (verbos a) (2 ^ 62) id rest rs ps [] [] w1) as (w2 & -> & E2 & H2);
    [split; try done|..]; try done.
  - exists (set_timerid (set_connected (client_for a fd 0 true fresh_buf fresh_buf) true) AE_NOMORE).
    by split_and!.
  - rewrite !ret_bind. exists w2. split; [done|]. rewrite app_nil_l in H2. split; [done|].
    change (let (el, _) := w2 in el) with (el w2). rewrite E2. by split_and!.
Qed.

(** One iteration in which the connection becomes writable. *)
Lemma connect_iteration cF cT fd t s' ms' s ps te :
  0 <= fd < 1024 -> 0 <= s' < 2 ^ 50 -> 0 <= ms' < 2000 -> clock_ok (clock s) -> polls s = [(fd, EPOLLOUT)] :: ps ->
  exists fs k, zlen fs = 1024 /\ forall w2,
    cF cli_on_connect_ fd (Some tt) AE_WRITABLE
      (mkWorld (set_fired (connecting_loop fd t s' ms') fs) (with_polls (with_clock s k) ps)) = Ret w2 ->
    one_timer (el w2) te -> te_id te = AE_DELETED_EVENT_ID -> timeEventNextId (el w2) = 1 ->
    exists n now, aeProcessEvents cF cT callH (mkWorld (connecting_loop fd t s' ms') s) (Z.lor AE_ALL_EVENTS AE_CALL_AFTER_SLEEP)
      = Ret (n, mkWorld (set_lastTime (set_timers (el w2) None ∅) now) (env w2)).
Proof.
  intros Hfd Hs' Hms' Hc Hp.
  destruct (poll_timeout_one (connecting_loop fd t s' ms') s (mkTE 0 s' ms' cli_connect_timeout_ None tt None))
    as (a & b & k & E & Ha & Hb & Hk); [by split_and!|done..|].
  exists ((fd, AE_WRITABLE) :: zdrop 1 (replicate 1024 (0, 0))), k. split; [reflexivity|].
  intros w2 Hcall H1 Hid Hn. unfold aeProcessEvents.
  change (negb (has _ AE_TIME_EVENTS) && negb (has _ AE_FILE_EVENTS)) with false. cbv iota.
  cbn [el connecting_loop maxfd]. destruct (Z.eqb_spec fd (-1)); [lia|]. cbn [negb orb]. rewrite E, ret_bind.
  assert (2 ^ 62 / 1000 = 4611686018427387) as E62 by reflexivity. rewrite E62 in Ha.
  unfold aeApiPoll. rewrite Z.quot_div_nonneg by lia.
  assert (0 <= b / 1000 < 1000) by (pose proof (Z.div_mod b 1000 ltac:(lia)); pose proof (Z.mod_pos_bound b 1000 ltac:(lia)); lia).
  do 2 (rewrite slong_small, ret_bind by lia). rewrite ret_bind.
  cbn [epoll_wait sys_Sys env with_clock polls]. rewrite Hp. cbn [head tail default].
  change (map _ (id [(fd, EPOLLOUT)])) with [(fd, AE_WRITABLE)]. unfold defined.
  change (zlen (fired (el _))) with 1024. change (zlen [(fd, AE_WRITABLE)]) with 1. change (1 <=? 1024) with true. cbv iota. rewrite !ret_bind.
  change (aftersleep (el _)) with (@None unit). cbv iota. rewrite ret_bind. change (Z.to_nat 1) with 1%nat. cbn [file_loop].
  unfold dispatch. cbn [el set_fired fired app connecting_loop].
  change (znth ((fd, AE_WRITABLE) :: zdrop 1 (replicate 1024 (0, 0))) 0) with (Some (fd, AE_WRITABLE)).
  cbn [deref]. rewrite ret_bind. cbn [el set_fired events].
  assert (znth (events (connecting_loop fd t s' ms')) fd = Some (mkFE AE_WRITABLE None (Some cli_on_connect_) (Some tt))) as Hfe.
  { cbn [connecting_loop events]. rewrite znth_insert by (rewrite zlen_blanks; lia). by destruct (decide (fd = fd)). }
  rewrite Hfe. cbn [deref]. rewrite ret_bind. cbn [fe_mask].
  change (has (Z.land AE_WRITABLE AE_WRITABLE) AE_READABLE) with false. cbv iota. rewrite ret_bind.
  change (events (el (mkWorld (set_fired (connecting_loop fd t s' ms') _) _))) with (events (connecting_loop fd t s' ms')).
  rewrite Hfe. cbn [deref]. rewrite ret_bind. cbn [fe_mask wfileProc fe_data negb orb].
  change (has (Z.land AE_WRITABLE AE_WRITABLE) AE_WRITABLE) with true. cbn [deref]. cbv iota. rewrite ret_bind.
  rewrite Hcall, !ret_bind. change (has _ AE_TIME_EVENTS) with true. cbv iota.
  destruct w2 as [l2 s2]. cbn [el env] in *.
  destruct (process_marked_timer l2 s2 te cT H1 Hid) as [now ->]; [lia|]. rewrite ret_bind. by eexists _, _.
Qed.

(** A first connection that is refused at once: [cli_start] fails after it
    has set [run], and the descriptor is closed. *)
Lemma refused_start k a fd e t s :
  0 <= fd < 1024 -> 0 < sec < 2 ^ 31 -> clock_ok (clock s) -> 0 < pipe_n a -> 0 < req_n a ->
  cli s = None -> head (sockets s) = Some fd -> head (connects s) = Some e -> e <> 0 -> e <> EINPROGRESS ->
  exists s1, dubbo_bench_async cjson_elements bench_args (S k) true a (mkWorld (fresh_loop t) s)
      = Ret (false, mkWorld (fresh_loop t) s1) /\
    cli s1 = Some (client_for a fd AE_NOMORE true fresh_buf fresh_buf) /\ g_cli s1 = true /\
    el_live s1 = el_live s /\ closed s1 = fd :: closed s.
Proof.
  intros Hfd Hs Hclk Hp Hr Hc Hsock Hcon He0 He1.
  unfold dubbo_bench_async. rewrite create_ok, ret_bind by done.
  unfold cli_start, the_cli. cbn [env with_cli cli deref]. rewrite ret_bind. cbn [run client_for].
  match goal with |- context [aeGetTime (mkWorld ?l ?s)] =>
    destruct (get_time_ok l s Hclk) as (s0 & m0 & k1 & E0 & _ & _ & Hk1); rewrite E0; clear E0 end.
  rewrite cli_connect_S. destruct s as [? ? ? ? socks conns]. cbn in Hsock, Hcon.
  destruct socks; [done|]. destruct conns; [done|]. injection Hsock as ->. injection Hcon as ->. sys_simpl.
  destruct (Z.ltb_spec fd 0); [lia|]. unfold the_cli. sys_simpl. rewrite ret_bind. sys_simpl.
  destruct (Z.eqb_spec e 0); [done|]. destruct (Z.eqb_spec e EINPROGRESS); [done|].
  unfold sys_close. cbn. rewrite delete_empty. eexists. split; [reflexivity|done].
Qed.

(** What the exit handler does to the client of such a run while the loop is
    there. *)
Lemma exit_handler_live a fd t s :
  0 <= fd < 1024 -> cli s = Some (client_for a fd AE_NOMORE true fresh_buf fresh_buf) -> g_cli s = true ->
  el_live s = true ->
  exists w, exit_handler (mkWorld (fresh_loop t) s) = Ret w /\ cli (env w) = None /\ g_cli (env w) = false /\
    closed (env w) = fd :: closed s.
Proof.
  intros Hfd Hc Hg Hl. set (w := mkWorld (fresh_loop t) s).
  assert (the_cli w = Ret (client_for a fd AE_NOMORE true fresh_buf fresh_buf)) as Ew
    by (unfold the_cli; cbn [w env]; by rewrite Hc).
  unfold exit_handler. change (g_cli (env w)) with (g_cli s). rewrite Hg, Ew, ret_bind. cbn [run client_for].
  unfold cli_end. rewrite Ew, ret_bind. cbn [run client_for].
  unfold cli_close. rewrite Ew, ret_bind, use_el_live, ret_bind by done. cbn [cfd client_for].
  unfold aeDeleteFileEvent. cbn [el w fresh_loop setsize events]. destruct (Z.leb_spec 1024 fd); [lia|].
  rewrite blank_at by done. cbn [deref]. rewrite ret_bind. change (fe_mask blank =? AE_NONE) with true. cbv iota. rewrite ret_bind.
  erewrite reset_ok by done. rewrite ret_bind. erewrite clear_timer_none by reflexivity. rewrite ret_bind.
  unfold aeGetTime. cbn [gettimeofday sys_Sys]. destruct (default (0, 0) _) as [sec_ us].
  unfold the_cli. sys_simpl. rewrite ret_bind. rewrite use_el_live, ret_bind by done.
  eexists. split; [reflexivity|]. done.
Qed.

(** C40.  A first connection that is refused at once: [cli_start] fails after it
    has set [run]; [main] deletes the event loop and returns, and the exit
    handler then ends the client through the deleted loop.  Called on the
    state [cli_start] leaves, with the loop still there, the same handler ends
    the client, closing its descriptor a second time. *)
Theorem bench_refused_undefined k m a fd e s :
  0 <= fd < 1024 -> 0 < sec < 2 ^ 31 -> clock_ok (clock s) -> 0 < pipe_n a -> 0 < req_n a ->
  cli s = None -> head (sockets s) = Some fd -> head (connects s) = Some e -> e <> 0 -> e <> EINPROGRESS ->
  main_bench cjson_elements cjson_pretty bench_args (S k) m true true a s = Undefined /\
  forall w : World, aeCreateEventLoop true 1024 (with_live s true) = Some w ->
  exists w1 w2, dubbo_bench_async cjson_elements bench_args (S k) true a w = Ret (false, w1) /\
    exit_handler w1 = Ret w2 /\ cli (env w2) = None /\ closed (env w2) = fd :: fd :: closed s.
Proof.
  intros Hfd Hs Hclk Hp Hr Hc Hsock Hcon He0 He1.
  assert (forall t, exists s1, dubbo_bench_async cjson_elements bench_args (S k) true a
      (mkWorld (fresh_loop t) (with_live s true)) = Ret (false, mkWorld (fresh_loop t) s1) /\
    cli s1 = Some (client_for a fd AE_NOMORE true fresh_buf fresh_buf) /\ g_cli s1 = true /\
    el_live s1 = true /\ closed s1 = fd :: closed s) as Hstart
    by (intros t; by apply (refused_start k a fd e t (with_live s true))).
  split.
  - unfold main_bench. destruct (create_event_loop_ok s) as [t ->]. cbn [deref]. rewrite ret_bind.
    destruct (Hstart t) as (s1 & E & Hc1 & Hg1 & Hl1 & _). unfold put_env. cbn [el env]. rewrite E, ret_bind.
    unfold aeDeleteEventLoop. rewrite use_el_live, !ret_bind by done.
    unfold exit_handler, the_cli. cbn [env with_live g_cli cli]. rewrite Hg1, Hc1. cbn [deref]. rewrite ret_bind.
    unfold cli_end, the_cli. cbn [env with_live cli run client_for]. rewrite Hc1. cbn [deref]. rewrite ret_bind.
    unfold cli_close, the_cli. cbn [env with_live cli run client_for]. rewrite Hc1. cbn [deref]. by rewrite ret_bind.
  - intros w. destruct (create_event_loop_ok (with_live s true)) as [t ->]. intros [= <-].
    destruct (Hstart t) as (s1 & E & Hc1 & Hg1 & Hl1 & Hcl1).
    destruct (exit_handler_live a fd t s1) as (w2 & E2 & Hc2 & _ & Hcl2); [done..|].
    exists (mkWorld (fresh_loop t) s1), w2. by rewrite <- Hcl1.
Qed.

Lemma request_ids_app i j : forall id, request_ids id (i + j) = request_ids id i ++ request_ids (id_after id i) j.
Proof.
  induction i as [|i IH]; intros id; [done|]. cbn [Nat.add request_ids app]. rewrite IH. unfold id_after.
  by rewrite <- Nat.iter_succ_r.
Qed.

(** C39.  The benchmark, end to end, when nothing goes wrong: the connection is
    made after [EINPROGRESS], [write] takes the requests in any pieces, each
    response arrives in one read.  The program ends with 0 after exactly
    [req_n] responses, the client released and its connection closed once;
    each response is reported once; and it has sent [req_n + pipe_n - 1]
    requests (with [pipe_n] cut to [req_n]): the pipeline is kept full until
    the last response. *)
Theorem bench_completes k m a fd id rs clk wss ps :
  0 <= fd < 1024 -> 0 < sec < 2 ^ 31 -> clock_ok clk -> 0 < pipe_n a -> 0 < req_n a < 2 ^ 31 ->
  zlen ps = req_n a -> Forall response_ok ps ->
  zlen wss = Z.min (pipe_n a) (req_n a) + req_n a - 1 -> Forall (fun ws => accepts ws request_len) wss ->
  (length wss < k)%nat -> (length ps + 1 < m)%nat ->
  rs = deliver <$> (response_image <$> ps) ->
  exists w, main_bench cjson_elements cjson_pretty bench_args (S (S (S k))) m true true a
      (start_sys fd id (concat wss) rs ([(fd, EPOLLOUT)] :: replicate (length ps) [(fd, EPOLLIN)]) clk) = Ret (0, w) /\
    finished fd (concat (request <$> request_ids id (length wss)))
      (if verbos a then (fun p => (rp_id p, report_of p)) <$> ps else []) w /\ el_live (env w) = false.
Proof.
  intros Hfd Hs Hclk Hp Hr Hps Hresp Hwss Hacc Hk Hm ->. unfold main_bench.
  destruct (create_event_loop_ok (start_sys fd id (concat wss) (deliver <$> (response_image <$> ps))
    ([(fd, EPOLLOUT)] :: replicate (length ps) [(fd, EPOLLIN)]) clk)) as [t ->]. cbn [deref]. rewrite ret_bind.
  change (env (mkWorld (fresh_loop t) ?x)) with x. unfold put_env at 1. cbn [el env].
  destruct (start_ok (S (S k)) a t fd id (concat wss) (deliver <$> (response_image <$> ps))
    ([(fd, EPOLLOUT)] :: replicate (length ps) [(fd, EPOLLIN)]) clk) as (s' & ms' & clk' & -> & Hs' & Hms' & Hclk'); [done..|lia|].
  rewrite ret_bind.
  (* the requests of the pipeline, and those that answer a response *)
  set (p := Z.min (pipe_n a) (req_n a)) in *.
  assert (zlen (ztake p wss) = p) as Hp1 by (rewrite zlen_ztake; lia).
  assert (zlen (zdrop p wss) = req_n a - 1) as Hp2 by (rewrite zlen_zdrop; lia).
  rewrite <- (ztake_zdrop p wss), Forall_app in Hacc. destruct Hacc as [Hacc1 Hacc2].
  assert (request_len <= 16 + 8192) as Hrl by (unfold request_len; destruct Hok; unfold DUBBO_HDR_LEN, DUBBO_BUF_LEN in *; lia).
  assert (0 <= request_len) by (unfold request_len, DUBBO_HDR_LEN; zlen_facts; lia).
  assert (concat wss = concat (ztake p wss) ++ concat (zdrop p wss)) as Ecat.
  { by rewrite <- concat_app, ztake_zdrop. }
  unfold aeMain. change (mkWorld (set_stop (el (mkWorld (connecting_loop fd t s' ms') _)) 0) (env (mkWorld (connecting_loop fd t s' ms') ?s)))
    with (mkWorld (connecting_loop fd t s' ms') s : World).
  destruct m as [|m]; [lia|]. rewrite main_loop_S by done.
  set (cF := callF cjson_elements cjson_pretty bench_args (S (S (S k)))).
  set (cT := callT cjson_elements bench_args (S (S (S k)))).
  set (s0 := client_sys _ _ _ _ _ _).
  destruct (connect_iteration cF cT fd t s' ms' s0 (replicate (length ps) [(fd, EPOLLIN)])
    (mkTE AE_DELETED_EVENT_ID s' ms' cli_connect_timeout_ None tt None)) as (fs & clk2 & Hfs & Hit); [done..|].
  destruct (on_connect_ok (S (S k)) a (ztake p wss) (concat (zdrop p wss)) fd id (deliver <$> (response_image <$> ps))
    (replicate (length ps) [(fd, EPOLLIN)]) clk2 t s' ms' fs) as (w2 & E2 & Hrest & Hwat & Hf2 & Hst & Hn & Hb & Haf & Hone);
    [done|done|done|lia|done|nia|unfold ztake; rewrite length_take; lia|].
  destruct (Hit w2) as (q & now & ->); [|done|done|done|].
  { unfold s0. rewrite Ecat. exact E2. }
  rewrite ret_bind. subst cF cT.
  destruct (bench_loop ps (zdrop p wss) k m fd 0 (verbos a) (2 ^ 62 - zlen (ztake p wss) * request_len)
    (id_after id (length (ztake p wss))) (concat (request <$> request_ids id (length (ztake p wss)))) []
    (mkWorld (set_lastTime (set_timers (el w2) None ∅) now) (env w2))) as (w3 & -> & Hfin & Hlv); try done.
  - rewrite Hps. by apply at_rest_loop.
  - split; [exact Hwat|]. split; [exact Hf2|]. split; [done|]. split; [cbn; lia|]. by split.
  - intros ->. rewrite zlen_nil in Hps. lia.
  - unfold zlen in *. lia.
  - lia.
  - unfold extrabuf_sz. rewrite Hp1. nia.
  - lia.
  - rewrite ret_bind. unfold aeDeleteEventLoop. rewrite use_el_live, !ret_bind by done.
    unfold exit_handler. cbn [env with_live g_cli]. rewrite (fi_g _ _ _ _ Hfin), ret_bind.
    eexists. split; [reflexivity|]. split; [|done].
    rewrite app_nil_l, <- concat_app, <- fmap_app, <- request_ids_app, <- length_app, ztake_zdrop in Hfin. by destruct Hfin.
Qed.
End bench.

(** ** Concrete runs *)
Section examples.
#[local] Existing Instances big_alloc big_alloc_total.

Definition demo_args : dubbo_args :=
  bench_args (str "a.Svc") (str "get") (str "[1]") (str "{}") (Some (str "h")) (Some (str "80")) 3.
Definition demo_response : response := mkResponse 2 20 7 1 (str "{}") [78].
Definition demo_len : Z := zlen demo_request.

Lemma demo_request_ok : request_ok demo_elements (str "a.Svc") (str "get") (str "[1]") (str "{}") (str "[1]").
Proof. split; first [vm_decide | discriminate | reflexivity | by exists []]. Qed.

(** Two requests in the pipeline, two responses: three requests sent. *)
Lemma bench_completes_witness :
  exists w, main_bench demo_elements demo_pretty demo_args 8 4 true true (mkAsync 2 2 true)
      (start_sys 5 6 (concat [[Wrote 100; WriteFailed EINTR; Wrote (demo_len - 100)]; [Wrote demo_len]; [Wrote demo_len]])
        (deliver <$> (response_image <$> [demo_response; demo_response]))
        ([(5, EPOLLOUT)] :: replicate 2 [(5, EPOLLIN)]) [(100, 0)]) = Ret (0, w) /\
    finished 5 (concat (request (str "a.Svc") (str "get") (str "[1]") <$> request_ids 6 3))
      ((fun p => (rp_id p, report_of demo_pretty p)) <$> [demo_response; demo_response]) w /\ el_live (env w) = false.
Proof.
  refine (bench_completes demo_elements demo_pretty (str "a.Svc") (str "get") (str "[1]") (str "{}") (str "[1]")
    (Some (str "h")) (Some (str "80")) 3 demo_request_ok 5 4 (mkAsync 2 2 true) 5 6 _ [(100, 0)]
    [[Wrote 100; WriteFailed EINTR; Wrote (demo_len - 100)]; [Wrote demo_len]; [Wrote demo_len]]
    [demo_response; demo_response] _ _ _ _ _ _ _ _ _ _ _ _);
    try vm_decide; try reflexivity.
  - repeat constructor; try vm_decide; discriminate.
  - repeat constructor; vm_decide.
Defined.

Definition refused_sys : sys := mkSys None false 6 0 [5] [111] [] [] [] [] [(100, 0)] [] [] [] false.

Lemma bench_refused_witness :
  main_bench demo_elements demo_pretty demo_args 1 0 true true (mkAsync 2 2 true) refused_sys = Undefined /\
  forall w : World, aeCreateEventLoop true 1024 (with_live refused_sys true) = Some w ->
  exists w1 w2, dubbo_bench_async demo_elements demo_args 1 true (mkAsync 2 2 true) w = Ret (false, w1) /\
    exit_handler w1 = Ret w2 /\ cli (env w2) = None /\ closed (env w2) = [5; 5].
Proof.
  refine (bench_refused_undefined demo_elements demo_pretty (str "a.Svc") (str "get") (str "[1]") (str "{}")
    (Some (str "h")) (Some (str "80")) 3 0 0 (mkAsync 2 2 true) 5 111 refused_sys _ _ _ _ _ _ _ _ _ _);
    try vm_decide; try reflexivity; discriminate.
Defined.

Notation demo_run fuel iterations a s := (main_bench demo_elements demo_pretty demo_args fuel iterations true true a s).
Definition with_kernel (socks conns : list Z) (ws : list write_answer) (rs : list (list Z -> Z * bytes))
    (ps : list (list (Z * Z))) : sys :=
  mkSys None false 6 0 socks conns ws rs [] ps [(100, 0)] [] [] [] false.

(** A send fails while the pipeline is refilled: the client reconnects, goes
    on filling the pipeline of a connection that is not made yet, and so
    replaces [cli_on_connect] by [cli_on_write] as the callback for the
    moment it is made.  The assertion of [cli_on_write] stops the program. *)
Example reconnect_aborts :
  demo_run 20 10 (mkAsync 2 2 true) (with_kernel [5; 5] [EINPROGRESS; EINPROGRESS]
    [Wrote demo_len; Wrote demo_len; WriteFailed 32; WriteFailed EAGAIN; WriteFailed EAGAIN]
    [deliver (response_image demo_response)]
    [[(5, EPOLLOUT)]; [(5, EPOLLIN)]; [(5, EPOLLOUT)]]) = AssertFail.
Proof. vm_compute. reflexivity. Qed.

(** The peer closes, and epoll reports it with [EPOLLHUP].  The client
    reconnects inside the readable callback and the kernel gives it the same
    descriptor; the writable half of the old event is then delivered to the
    new connection, which counts as made although [connect] has only
    answered [EINPROGRESS]. *)
Example stale_event_connects :
  match
    (let! w := deref (aeCreateEventLoop true 1024 (with_kernel [5; 5] [EINPROGRESS; EINPROGRESS]
       [Wrote demo_len; Wrote demo_len; WriteFailed EAGAIN; WriteFailed EAGAIN] [eof]
       [[(5, EPOLLOUT)]; [(5, Z.lor EPOLLIN EPOLLHUP)]])) in
     let w := put_env w (with_live (env w) true) in
     let! (_, w) := dubbo_bench_async demo_elements demo_args 20 true (mkAsync 2 2 true) w in
     let iteration w := aeProcessEvents (callF demo_elements demo_pretty demo_args 20) (callT demo_elements demo_args 20)
       callH w AE_ALL_EVENTS in
     let! (_, w) := iteration w in
     let! (_, w) := iteration w in Ret w)
  with
  | Ret w => cconnected <$> cli (env w) = Some true /\ timers (el w) = [] /\ closed (env w) = [5]
  | _ => False
  end.
Proof. vm_compute. done. Qed.

(** A reconnection that is refused leaves a loop that watches nothing: the
    program does not end. *)
Example refused_reconnection_hangs :
  demo_run 20 200 (mkAsync 1 2 true) (with_kernel [5; 5] [EINPROGRESS; 111] [Wrote demo_len] [eof]
    [[(5, EPOLLOUT)]; [(5, EPOLLIN)]]) = OutOfFuel.
Proof. vm_compute. reflexivity. Qed.
End examples.
