(* ===== verification/Table.v ===== *)
(** * The handle table

    [base/table.c]: an open table that hands out 32-bit handles for pointers.
    A pointer is its value (0 is NULL).  A handle's slot is its low bits; the
    table is correct as long as every handle sits in its slot, which doubling
    the capacity does not preserve. *)

From stdpp Require Import base tactics numbers list option.
From Stdlib Require Import Lia.
From S2P Require Import Prelude.

Record slot := mkSlot { slot_id : Z; slot_ud : Z }.
Record table := mkTable { last : Z; cap : Z; sz : Z; slots : list slot }.

Definition empty_slot : slot := mkSlot 0 0.
Definition INIT_SZ : Z := 16.
Definition sizeof_table : Z := 24.
Definition sizeof_slot : Z := 16.

(** [id & (t->cap - 1)]. *)
Definition hash (t : table) (id : Z) : Z := Z.land id (cap t - 1).

(** [t->slots[i]] read and written. *)
Definition slot_at (t : table) (i : Z) : outcome slot := deref (znth (slots t) i).
Definition set_slot (t : table) (i : Z) (s : slot) : list slot :=
  <[Z.to_nat i := s]> (slots t).

Section table.
Context `{Allocator}.

Definition table_create : option table :=
  if negb (alloc_ok sizeof_table) then None else
  if negb (alloc_ok (INIT_SZ * sizeof_slot)) then None else
  Some (mkTable 0 INIT_SZ 0 (replicate (Z.to_nat INIT_SZ) empty_slot)).

(** The slots are copied to the same positions. *)
Definition table_expand (t : table) : outcome (option table) :=
  let! ncap := sint (cap t * 2) in
  if negb (alloc_ok (ncap * sizeof_slot)) then Ret None else
  Ret (Some (mkTable (last t) ncap (sz t)
               (slots t ++ replicate (Z.to_nat (ncap - cap t)) empty_slot))).

(** The [for (;;)] of [table_set]. *)
Fixpoint set_loop (fuel : nat) (t : table) (ud : Z) : outcome (Z * table) :=
  match fuel with
  | O => OutOfFuel
  | S fuel =>
    let id := u32 (last t + 1) in
    let id := if id =? 0 then u32 (id + 1) else id in
    let t := mkTable id (cap t) (sz t) (slots t) in
    let! s := slot_at t (hash t id) in
    if negb (slot_id s =? 0) then set_loop fuel t ud else
    let! n := sint (sz t + 1) in
    Ret (id, mkTable id (cap t) n (set_slot t (hash t id) (mkSlot id ud)))
  end.

(** Two rounds over the capacity are enough fuel.  [sz >= cap * 0.75] is
    exact in double precision. *)
Definition table_set (t : table) (ud : Z) : outcome (Z * table) :=
  if ud =? 0 then Ret (0, t) else
  let! o := if 3 * cap t <=? 4 * sz t then table_expand t else Ret (Some t) in
  match o with
  | None => Ret (0, t)
  | Some t => set_loop (Z.to_nat (2 * cap t + 2)) t ud
  end.

Definition table_get (t : table) (id : Z) : outcome Z :=
  if (id =? 0) || (sz t =? 0) then Ret 0 else
  let! s := slot_at t (hash t id) in
  Ret (if negb (slot_id s =? id) then 0 else slot_ud s).

Definition table_del (t : table) (id : Z) : outcome (Z * table) :=
  if (id =? 0) || (sz t =? 0) then Ret (0, t) else
  let! s := slot_at t (hash t id) in
  if negb (slot_id s =? id) then Ret (0, t) else
  Ret (slot_ud s, mkTable (last t) (cap t) (sz t - 1) (set_slot t (hash t id) empty_slot)).

Definition table_size (t : table) : Z := sz t.

(** The loop of [table_list] over the slots: the handles stored in [ids]. *)
Fixpoint list_loop (l : list slot) (n : Z) : list Z :=
  match l with
  | [] => []
  | s :: l =>
    if n <=? 0 then [] else
    if slot_id s =? 0 then list_loop l n else slot_id s :: list_loop l (n - 1)
  end.
Definition table_list (t : table) (n : Z) : list Z := list_loop (slots t) n.
End table.

(** Calls of a client. *)
Inductive table_op := TSet (ud : Z) | TDel (id : Z).

Fixpoint run_table `{Allocator} (t : table) (ops : list table_op) : outcome table :=
  match ops with
  | [] => Ret t
  | TSet ud :: ops => let! (_, t) := table_set t ud in run_table t ops
  | TDel id :: ops => let! (_, t) := table_del t id in run_table t ops
  end.

(** ** The invariant *)

(** The handles in use. *)
Definition live (t : table) : list Z := filter (fun i => i <> 0) (map slot_id (slots t)).

(** Every handle is in its slot. *)
Definition placed (t : table) : Prop :=
  forall i s, znth (slots t) i = Some s -> slot_id s <> 0 -> hash t (slot_id s) = i.

(** What every table satisfies that the operations build. *)
Record tshape (t : table) : Prop := {
  ti_cap : exists k, 4 <= k <= 30 /\ cap t = 2 ^ k;
  ti_len : zlen (slots t) = cap t;
  ti_sz : sz t = zlen (live t);
  ti_last : 0 <= last t < 2 ^ 32;
  ti_ids : forall s, s ∈ slots t -> 0 <= slot_id s < 2 ^ 32
}.

(** And as long as no handle is lost. *)
Record tinv (t : table) : Prop := {
  ti_shape :> tshape t;
  ti_placed : placed t
}.

(** [table_set] doubles the table. *)
Definition grows (t : table) : bool := 3 * cap t <=? 4 * sz t.

Lemma hash_mod t id : (exists k, 0 <= k /\ cap t = 2 ^ k) -> hash t id = id mod cap t.
Proof.
  intros (k & Hk & E). unfold hash. rewrite E.
  replace (2 ^ k - 1) with (Z.ones k) by (rewrite Z.ones_equiv; lia). by apply Z.land_ones.
Qed.

Section laws.
Context `{AllocTotal}.
Implicit Types t : table.

Lemma cap_range t : tshape t -> 16 <= cap t <= 2 ^ 30.
Proof.
  intros [(k & Hk & ->) _ _ _ _].
  change 16 with (2 ^ 4). split; apply Z.pow_le_mono_r; lia.
Qed.

Lemma hash_range t id : tshape t -> 0 <= hash t id < cap t /\ hash t id = id mod cap t.
Proof.
  intros Hi. pose proof (cap_range t Hi). destruct (ti_cap t Hi) as (k & Hk & E).
  rewrite hash_mod by (exists k; split; [lia|done]). split; [|done]. apply Z.mod_pos_bound. lia.
Qed.

Lemma slot_at_ok t i : tshape t -> 0 <= i < cap t -> exists s, slot_at t i = Ret s /\ znth (slots t) i = Some s.
Proof.
  intros Hi Hr. unfold slot_at, znth. rewrite bool_decide_true by lia.
  destruct (lookup_lt_is_Some_2 (slots t) (Z.to_nat i)) as [s Hs].
  { pose proof (ti_len t Hi) as Hl. unfold zlen in Hl. lia. }
  rewrite Hs. by exists s.
Qed.

(** *** Inserting into a slot *)
Definition ids (l : list slot) : list Z := filter (fun i => i <> 0) (map slot_id l).
Definition used (s : slot) : Z := if slot_id s =? 0 then 0 else 1.

Lemma ids_insert l i s s' :
  l !! i = Some s -> zlen (ids (<[i := s']> l)) = zlen (ids l) - used s + used s'.
Proof.
  revert i. induction l as [|x l IH]; intros [|i] Hi; simplify_eq/=; unfold ids, used in *;
    rewrite ?map_cons, ?filter_cons.
  - destruct (Z.eqb_spec (slot_id s) 0), (Z.eqb_spec (slot_id s') 0);
      repeat case_decide; try tauto; rewrite ?zlen_cons; lia.
  - specialize (IH i Hi). case_decide; rewrite ?zlen_cons; lia.
Qed.

Lemma ids_length l : (length (ids l) <= length l)%nat.
Proof.
  unfold ids. rewrite <- (length_map slot_id l). apply length_filter.
Qed.

(** With fewer handles than slots a slot is free. *)
Lemma free_slot l : (length (ids l) < length l)%nat -> exists i s, l !! i = Some s /\ slot_id s = 0.
Proof.
  induction l as [|x l IH]; simpl; [lia|]. unfold ids in *. rewrite map_cons, filter_cons.
  case_decide as Hx; simpl; intros Hl.
  - destruct IH as (i & s & ? & ?); [lia|]. by exists (S i), s.
  - exists 0%nat, x. split; [done|]. by destruct (Z.eq_dec (slot_id x) 0).
Qed.

(** The handles as a map. *)
Definition tget t (id : Z) : option Z :=
  match znth (slots t) (hash t id) with
  | Some s => if (slot_id s =? id) && negb (id =? 0) then Some (slot_ud s) else None
  | None => None
  end.

Lemma table_get_ok t id : tshape t -> table_get t id = Ret (default 0 (tget t id)).
Proof.
  intros Hi. unfold table_get, tget. destruct (hash_range t id Hi) as [Hr _].
  destruct (slot_at_ok t _ Hi Hr) as (s & Es & Hs). rewrite Hs.
  destruct (Z.eqb_spec id 0); [by rewrite andb_false_r|]. rewrite andb_true_r. simpl.
  destruct (Z.eqb_spec (sz t) 0) as [Hz|].
  - destruct (Z.eqb_spec (slot_id s) id) as [Hid|]; [|done]. exfalso.
    rewrite (ti_sz t Hi) in Hz. apply zlen_nil_inv in Hz.
    unfold znth in Hs. rewrite bool_decide_true in Hs by lia.
    assert (slot_id s ∈ live t) as Hin; [|rewrite Hz in Hin; by apply not_elem_of_nil in Hin].
    unfold live. apply list_elem_of_filter. split; [lia|].
    apply list_elem_of_fmap. exists s. split; [done|]. by eapply list_elem_of_lookup_2.
  - rewrite Es, ret_bind. by destruct (Z.eqb_spec (slot_id s) id).
Qed.

Definition with_last t (l : Z) : table := mkTable l (cap t) (sz t) (slots t).

(** The table after a handle has found its slot. *)
Definition added t (id ud : Z) : table :=
  mkTable id (cap t) (sz t + 1) (set_slot t (hash t id) (mkSlot id ud)).

(** The handle following [l]. *)
Definition next_handle (l : Z) : Z := if l + 1 =? 2 ^ 32 then 1 else l + 1.

Definition free_at t (i : Z) : Prop := exists s, znth (slots t) i = Some s /\ slot_id s = 0.

Lemma set_loop_step t ud fuel l :
  tshape t -> sz t < cap t -> 0 <= l < 2 ^ 32 ->
  (free_at t (hash t (next_handle l)) /\
     set_loop (S fuel) (with_last t l) ud = Ret (next_handle l, added t (next_handle l) ud)) \/
  (~ free_at t (hash t (next_handle l)) /\
     set_loop (S fuel) (with_last t l) ud = set_loop fuel (with_last t (next_handle l)) ud).
Proof.
  intros Hi Hsz Hl. cbn [set_loop]. cbn [with_last last].
  assert ((if u32 (l + 1) =? 0 then u32 (u32 (l + 1) + 1) else u32 (l + 1)) = next_handle l) as E.
  { unfold next_handle. destruct (Z.eqb_spec (l + 1) (2 ^ 32)) as [-> |]; [done|].
    rewrite (wrapu_small 32 (l + 1)) by lia. destruct (Z.eqb_spec (l + 1) 0); [lia|done]. }
  cbv zeta. rewrite E. unfold with_last. cbn [cap sz slots].
  change (hash (mkTable (next_handle l) (cap t) (sz t) (slots t)) (next_handle l))
    with (hash t (next_handle l)).
  destruct (hash_range t (next_handle l) Hi) as [Hr _].
  destruct (slot_at_ok t _ Hi Hr) as (s & Es & Hs).
  change (slot_at (mkTable (next_handle l) (cap t) (sz t) (slots t)) (hash t (next_handle l)))
    with (slot_at t (hash t (next_handle l))).
  rewrite Es, ret_bind. pose proof (cap_range t Hi).
  destruct (Z.eqb_spec (slot_id s) 0) as [Hz|Hz]; cbn [negb]; cbv iota; [left|right].
  - split; [by exists s|]. unfold sint. rewrite (ti_sz t Hi) in *. zlen_facts.
    rewrite bool_decide_true by (unfold INT_MIN, INT_MAX; lia). rewrite ret_bind.
    unfold added. by rewrite (ti_sz t Hi).
  - split; [|done]. intros (s' & Hs' & ?). congruence.
Qed.

(** Starting below the wrap-around, a free slot [f] is reached in as many
    steps as it is away. *)
Lemma set_loop_near t ud f d fuel l :
  tshape t -> sz t < cap t -> 0 <= l -> l + 1 + Z.of_nat d < 2 ^ 32 ->
  free_at t f -> f = (l + 1 + Z.of_nat d) mod cap t -> (d < fuel)%nat ->
  exists id, 0 < id < 2 ^ 32 /\ free_at t (hash t id) /\
    set_loop fuel (with_last t l) ud = Ret (id, added t id ud).
Proof.
  intros Hi Hsz. revert fuel l. induction d as [|d IH]; intros [|fuel] l Hl Hmax Hf Ef Hfuel; try lia;
    (destruct (set_loop_step t ud fuel l Hi Hsz) as [[Hfree E] | [Hocc E]]; [lia|..]);
    unfold next_handle in *; (destruct (Z.eqb_spec (l + 1) (2 ^ 32)); [lia|]).
  - exists (l + 1). split; [lia|]. by split.
  - destruct Hocc. destruct (hash_range t (l + 1) Hi) as [_ ->].
    replace (l + 1 + Z.of_nat 0) with (l + 1) in Ef by lia. by rewrite <- Ef.
  - exists (l + 1). split; [lia|]. by split.
  - rewrite E. apply IH; [lia|lia|done| |lia]. rewrite Ef. f_equal. lia.
Qed.

Lemma near_distance t f l :
  tshape t -> 0 <= f < cap t ->
  exists d, (d < Z.to_nat (cap t))%nat /\ f = (l + 1 + Z.of_nat d) mod cap t.
Proof.
  intros Hi Hf. pose proof (cap_range t Hi).
  exists (Z.to_nat ((f - (l + 1)) mod cap t)).
  pose proof (Z.mod_pos_bound (f - (l + 1)) (cap t)). split; [lia|].
  rewrite Z2Nat.id by lia. rewrite Zplus_mod_idemp_r.
  replace (l + 1 + (f - (l + 1))) with f by lia. by rewrite Z.mod_small.
Qed.

(** The general case: at most one wrap-around. *)
Lemma set_loop_ok t ud l :
  tshape t -> sz t < cap t -> 0 <= l < 2 ^ 32 ->
  exists id, 0 < id < 2 ^ 32 /\ free_at t (hash t id) /\
    set_loop (Z.to_nat (2 * cap t + 2)) (with_last t l) ud = Ret (id, added t id ud).
Proof.
  intros Hi Hsz Hl. pose proof (cap_range t Hi).
  assert (exists f, 0 <= f < cap t /\ free_at t f) as (f & Hf & Hfree).
  { destruct (free_slot (slots t)) as (i & s & Hs & Hz).
    - pose proof (ti_len t Hi) as E1. pose proof (ti_sz t Hi) as E2.
      change (live t) with (ids (slots t)) in E2. unfold zlen in *. lia.
    - pose proof (lookup_lt_Some _ _ _ Hs). pose proof (ti_len t Hi). unfold zlen in *.
      exists (Z.of_nat i). split; [lia|]. exists s. split; [|done]. unfold znth.
      rewrite bool_decide_true by lia. by rewrite Nat2Z.id. }
  assert (forall n l, 0 <= l < 2 ^ 32 -> l + 1 + Z.of_nat n = 2 ^ 32 ->
    forall fuel, (n + Z.to_nat (cap t) + 1 < fuel)%nat ->
    exists id, 0 < id < 2 ^ 32 /\ free_at t (hash t id) /\
      set_loop fuel (with_last t l) ud = Ret (id, added t id ud)) as Hwrap.
  { clear l Hl. induction n as [|n IH]; intros l Hl Hn [|fuel] Hfuel; try lia;
      (destruct (set_loop_step t ud fuel l Hi Hsz) as [[Hfr E] | [Hocc E]]; [lia|..]);
      unfold next_handle in *; destruct (Z.eqb_spec (l + 1) (2 ^ 32)); try lia.
    - exists 1. split; [lia|]. by split.
    - rewrite E. destruct (near_distance t f 1 Hi Hf) as (d & Hd & Ed).
      apply (set_loop_near t ud f d); [done|done|lia|lia|done|done|lia].
    - exists (l + 1). split; [lia|]. by split.
    - rewrite E. apply IH; lia. }
  destruct (Z.ltb_spec (l + 1 + cap t) (2 ^ 32)).
  - destruct (near_distance t f l Hi Hf) as (d & Hd & Ed).
    apply (set_loop_near t ud f d); [done|done|lia|lia|done|done|lia].
  - apply (Hwrap (Z.to_nat (2 ^ 32 - 1 - l))); lia.
Qed.

(** *** One slot changed *)
(** Storing [s'] in slot [i] when its handle belongs there. *)
Lemma tshape_insert t i s s' l n :
  tshape t -> 0 <= i < cap t -> znth (slots t) i = Some s -> 0 <= slot_id s' < 2 ^ 32 -> 0 <= l < 2 ^ 32 ->
  n = sz t - used s + used s' ->
  tshape (mkTable l (cap t) n (set_slot t i s')).
Proof.
  intros Hi Hr Hs Hid Hl ->. pose proof (ti_len t Hi) as Hlen.
  assert (slots t !! Z.to_nat i = Some s) as Hs'.
  { unfold znth in Hs. by rewrite bool_decide_true in Hs by lia. }
  constructor; cbn [cap slots last sz].
  - apply (ti_cap t Hi).
  - unfold set_slot, zlen in *. by rewrite length_insert.
  - change (live (mkTable l (cap t) (sz t - used s + used s') (set_slot t i s')))
      with (ids (set_slot t i s')). unfold set_slot. rewrite (ids_insert _ _ s) by done.
    rewrite (ti_sz t Hi). done.
  - done.
  - intros x Hx. unfold set_slot in Hx. apply list_elem_of_lookup in Hx as [j Hj].
    apply list_lookup_insert_Some in Hj as [(_ & <- & _) | [_ Hj]]; [done|].
    apply (ti_ids t Hi). by eapply list_elem_of_lookup_2.
Qed.

(** Storing [s'] in slot [i] when its handle belongs there. *)
Lemma placed_insert t i s' l n :
  tinv t -> 0 <= i < cap t -> (slot_id s' <> 0 -> hash t (slot_id s') = i) ->
  placed (mkTable l (cap t) n (set_slot t i s')).
Proof.
  intros Hi Hr Hh j x Hj Hx. pose proof (ti_len t Hi). unfold set_slot in Hj. cbn [slots] in Hj.
  rewrite znth_insert in Hj by lia. destruct (decide (i = j)) as [->|]; [by simplify_eq; apply Hh|].
  by apply (ti_placed t Hi j x).
Qed.

Lemma tget_insert t i s' l n j :
  tshape t -> 0 <= i < cap t ->
  tget (mkTable l (cap t) n (set_slot t i s')) j =
    if decide (hash t j = i)
    then if (slot_id s' =? j) && negb (j =? 0) then Some (slot_ud s') else None
    else tget t j.
Proof.
  intros Hi Hr. unfold tget. cbn [slots]. change (hash (mkTable l (cap t) n _) j) with (hash t j).
  unfold set_slot. rewrite znth_insert by (rewrite (ti_len t Hi); lia).
  destruct (decide (i = hash t j)), (decide (hash t j = i)); congruence || done.
Qed.

Lemma added_ok t id ud :
  tshape t -> sz t < cap t -> 0 < id < 2 ^ 32 -> free_at t (hash t id) ->
  tshape (added t id ud) /\ (tinv t -> tinv (added t id ud)) /\ tget t id = None /\
  forall j, tget (added t id ud) j = if decide (j = id) then Some ud else tget t j.
Proof.
  intros Hi Hsz Hid (s & Hs & Hz). destruct (hash_range t id Hi) as [Hr _]. unfold added.
  assert (tshape (mkTable id (cap t) (sz t + 1) (set_slot t (hash t id) (mkSlot id ud)))) as Hi'.
  { apply (tshape_insert t (hash t id) s); try done; simpl; try lia.
    unfold used. simpl. rewrite Hz. destruct (Z.eqb_spec id 0); [lia|]. simpl. lia. }
  split; [done|]. split; [intros Ht; split; [done|by apply placed_insert]|]. split.
  - unfold tget. rewrite Hs, Hz. by destruct (Z.eqb_spec 0 id); [lia|].
  - intros j. rewrite tget_insert by done. simpl.
    destruct (decide (hash t j = hash t id)) as [E|E], (decide (j = id)) as [-> |Hne]; try congruence.
    + rewrite Z.eqb_refl. by destruct (Z.eqb_spec id 0); [lia|].
    + destruct (Z.eqb_spec id j); [congruence|]. simpl. unfold tget. rewrite E, Hs, Hz.
      destruct (Z.eqb_spec 0 j), (Z.eqb_spec j 0); try done; lia.
Qed.

(** A handle is in use exactly when some slot holds it. *)
Lemma tget_Some t id ud : tinv t -> tget t id = Some ud <-> id <> 0 /\ mkSlot id ud ∈ slots t.
Proof.
  intros Hi. unfold tget. split.
  - destruct (znth (slots t) (hash t id)) as [s|] eqn:Es; [|done].
    destruct (Z.eqb_spec (slot_id s) id) as [<-|]; [|done].
    destruct (Z.eqb_spec (slot_id s) 0); [done|]. intros [= <-]. split; [done|].
    unfold znth in Es. case_bool_decide; [|done]. destruct s. by eapply list_elem_of_lookup_2.
  - intros [Hne [i Hs]%list_elem_of_lookup].
    assert (znth (slots t) (Z.of_nat i) = Some (mkSlot id ud)) as Hz.
    { unfold znth. rewrite bool_decide_true by lia. by rewrite Nat2Z.id. }
    rewrite (ti_placed t Hi _ _ Hz Hne : hash t id = _), Hz. simpl. rewrite Z.eqb_refl.
    by destruct (Z.eqb_spec id 0).
Qed.

(** *** Doubling *)
Definition expanded t : table :=
  mkTable (last t) (cap t * 2) (sz t) (slots t ++ replicate (Z.to_nat (cap t)) empty_slot).

Lemma ids_replicate l n : ids (l ++ replicate n empty_slot) = ids l.
Proof.
  unfold ids. rewrite map_app, list.filter_app. rewrite <- (app_nil_r (filter _ (map slot_id l))) at 2.
  f_equal. induction n as [|n IH]; [done|]. simpl replicate. rewrite map_cons, filter_cons. by case_decide.
Qed.

Lemma znth_app_cases {A} (l l' : list A) i x :
  znth (l ++ l') i = Some x -> znth l i = Some x \/ zlen l <= i /\ x ∈ l'.
Proof.
  unfold znth, zlen. case_bool_decide; [|done]. rewrite lookup_app_Some.
  intros [|[? Hl]]; [by left|right]. split; [lia|]. by eapply list_elem_of_lookup_2.
Qed.

Lemma tshape_expanded t : tshape t -> cap t < 2 ^ 30 ->
  tshape (expanded t) /\ forall id, hash (expanded t) id = id mod (cap t * 2).
Proof.
  intros Hi Hcap. pose proof (cap_range t Hi). pose proof (ti_len t Hi) as Hlen.
  destruct (ti_cap t Hi) as (k & Hk & Ek).
  assert (cap t * 2 = 2 ^ (k + 1)) as Ek2 by (rewrite Ek, Z.pow_add_r; lia).
  assert (k + 1 <= 30) as Hk2.
  { destruct (Z.leb_spec (k + 1) 30); [done|]. assert (k = 30) as -> by lia. lia. }
  split; [constructor|].
  - exists (k + 1). split; [lia|done].
  - unfold expanded. simpl. rewrite zlen_app, Hlen. unfold zlen. rewrite length_replicate. lia.
  - change (live (expanded t)) with (ids (slots (expanded t))). unfold expanded. simpl.
    rewrite ids_replicate. apply (ti_sz t Hi).
  - apply (ti_last t Hi).
  - intros s Hs. apply elem_of_app in Hs as [Hs|Hs]; [by apply (ti_ids t Hi)|].
    apply elem_of_replicate in Hs as [-> _]. cbn. lia.
  - intros id. apply hash_mod. exists (k + 1). split; [lia|done].
Qed.

(** The handles that doubling keeps: those whose position it does not
    change. *)
Definition stays t (id : Z) : bool := id mod (cap t * 2) <? cap t.

Lemma tget_expanded t j : tshape t -> cap t < 2 ^ 30 ->
  tget (expanded t) j = if stays t j then tget t j else None.
Proof.
  intros Hi Hcap. destruct (tshape_expanded t Hi Hcap) as [_ Hhash]. destruct (hash_range t j Hi) as [Hr E].
  pose proof (cap_range t Hi). pose proof (ti_len t Hi) as Hlen. unfold zlen in Hlen.
  unfold tget, stays. rewrite Hhash, E. pose proof (Z.mod_pos_bound j (cap t * 2) ltac:(lia)).
  unfold expanded, znth. cbn [slots]. rewrite !bool_decide_true by lia.
  destruct (Z.ltb_spec (j mod (cap t * 2)) (cap t)).
  - rewrite lookup_app_l by lia.
    assert (j mod (cap t * 2) = j mod cap t) as ->; [|done].
    rewrite <- (Z.mod_small (j mod (cap t * 2)) (cap t)) by lia. symmetry.
    rewrite (Z.mul_comm (cap t) 2), Z.mul_comm. rewrite <- Znumtheory.Zmod_div_mod; [done|lia|lia|by exists 2; lia].
  - rewrite lookup_app_r by lia. destruct (replicate _ _ !! _) as [s|] eqn:Es; [|done].
    apply lookup_replicate in Es as [-> _]. cbn [slot_id empty_slot slot_ud]. by destruct (Z.eqb_spec 0 j) as [<-|].
Qed.

Lemma placed_expanded t : tinv t -> cap t < 2 ^ 30 -> Forall (fun id => id < cap t) (live t) -> tinv (expanded t).
Proof.
  intros Hi Hcap Hlow. destruct (tshape_expanded t Hi Hcap) as [Hi2 Hhash]. split; [done|].
  pose proof (cap_range t Hi). intros i s Hs Hne. apply znth_app_cases in Hs as [Hs|[_ Hs]];
    [|by apply elem_of_replicate in Hs as [-> _]].
  rewrite Hhash. pose proof (ti_placed t Hi i s Hs Hne) as Hp.
  destruct (hash_range t (slot_id s) Hi) as [_ E]. rewrite E in Hp.
  assert (s ∈ slots t) as Hin.
  { unfold znth in Hs. case_bool_decide; [|done]. by eapply list_elem_of_lookup_2. }
  assert (0 <= slot_id s < cap t) as Hids.
  { split; [by apply (ti_ids t Hi)|]. rewrite Forall_forall in Hlow. apply Hlow, list_elem_of_In.
    unfold live. apply list_elem_of_filter. split; [done|]. apply list_elem_of_fmap. by exists s. }
  rewrite Z.mod_small in Hp |- * by lia. done.
Qed.
End laws.

Section theorems.
Context `{AllocTotal}.
Implicit Types t : table.

Lemma created_ok : exists t, table_create = Some t /\ tinv t /\ forall id, tget t id = None.
Proof.
  unfold table_create. rewrite !alloc_total by (unfold sizeof_table, INT_MAX, INIT_SZ, sizeof_slot; lia).
  eexists. split; [reflexivity|].
  assert (forall s, s ∈ replicate 16 empty_slot -> s = empty_slot) as Hs.
  { intros s Hs. by apply elem_of_replicate in Hs as [-> _]. }
  assert (tinv (mkTable 0 INIT_SZ 0 (replicate (Z.to_nat INIT_SZ) empty_slot))) as Hi.
  { split; [constructor; try done|].
    - exists 4. done.
    - intros s Hin. simpl in Hin. by rewrite (Hs s Hin).
    - intros i s Hz Hne. unfold znth in Hz. case_bool_decide; [|done].
      by rewrite (Hs s (list_elem_of_lookup_2 _ _ _ Hz)) in Hne. }
  split; [done|]. intros id. apply option_eq. intros ud. rewrite tget_Some by done.
  split; [|done]. intros [Hne Hin]. apply Hs in Hin. by injection Hin.
Qed.

(** The table that [table_set] searches for a free slot. *)
Lemma grown_ok t : tshape t -> (grows t = true -> cap t < 2 ^ 30) ->
  let t1 := if grows t then expanded t else t in
  (if grows t then table_expand t else Ret (Some t)) = Ret (Some t1) /\ tshape t1 /\ sz t1 < cap t1.
Proof.
  intros Hi Hc. pose proof (cap_range t Hi).
  pose proof (ids_length (slots t)) as Hlen. pose proof (ti_sz t Hi) as Es. pose proof (ti_len t Hi) as El.
  change (live t) with (ids (slots t)) in Es. unfold zlen in Es, El. destruct (grows t) eqn:Hg; unfold grows in Hg.
  - specialize (Hc eq_refl). destruct (tshape_expanded t Hi Hc) as [Hi1 _].
    split; [|split; [done|simpl; lia]].
    unfold table_expand, sint. rewrite bool_decide_true by (unfold INT_MIN, INT_MAX; lia).
    rewrite ret_bind, alloc_total by (unfold sizeof_slot; lia). unfold expanded.
    by replace (cap t * 2 - cap t) with (cap t) by lia.
  - split; [done|]. split; [done|]. lia.
Qed.

Lemma table_set_shape t ud id t' : tshape t -> table_set t ud = Ret (id, t') -> tshape t'.
Proof.
  intros Hi. unfold table_set. destruct (ud =? 0); [by intros [= _ <-]|]. fold (grows t).
  destruct (Z.ltb_spec (cap t) (2 ^ 30)) as [Hc|Hc].
  - destruct (grown_ok t Hi (fun _ => Hc)) as (-> & Hi1 & Hsz). set (t1 := if grows t then _ else _) in *.
    rewrite ret_bind. destruct (set_loop_ok t1 ud (last t1) Hi1 Hsz (ti_last t1 Hi1)) as (i & Hr & Hf & E).
    assert (with_last t1 (last t1) = t1) as Ew by (by destruct t1). rewrite Ew in E. rewrite E. intros [= _ <-].
    by destruct (added_ok t1 i ud Hi1 Hsz Hr Hf) as [? _].
  - pose proof (cap_range t Hi). destruct (grows t) eqn:Hg.
    + unfold table_expand, sint. by rewrite bool_decide_false by (unfold INT_MIN, INT_MAX; lia).
    + destruct (grown_ok t Hi) as (_ & _ & Hsz); [congruence|]. rewrite Hg in Hsz.
      rewrite ret_bind. destruct (set_loop_ok t ud (last t) Hi Hsz (ti_last t Hi)) as (i & Hr & Hf & E).
      assert (with_last t (last t) = t) as Ew by (by destruct t). rewrite Ew in E. rewrite E. intros [= _ <-].
      by destruct (added_ok t i ud Hi Hsz Hr Hf) as [? _].
Qed.

Lemma table_del_shape t id ud t' : tshape t -> table_del t id = Ret (ud, t') -> tshape t'.
Proof.
  intros Hi. unfold table_del. destruct ((id =? 0) || (sz t =? 0)) eqn:Hz; [by intros [= _ <-]|].
  destruct (hash_range t id Hi) as [Hr _]. destruct (slot_at_ok t _ Hi Hr) as (s & -> & Hs). rewrite ret_bind.
  destruct (Z.eqb_spec (slot_id s) id) as [Hid|]; cbn [negb]; intros [= _ <-]; [|done].
  pose proof (ti_last t Hi). apply (tshape_insert t (hash t id) s); try done; simpl; try lia.
  unfold used. rewrite Hid. apply orb_false_iff in Hz as [-> _]. simpl. lia.
Qed.

(** Every table that calls build. *)
Lemma run_table_shape ops : forall t t', tshape t -> run_table t ops = Ret t' -> tshape t'.
Proof.
  induction ops as [|[ud|id] ops IH]; intros t t' Hi E; cbn [run_table] in E; [by injection E as <-|..];
    apply bind_Ret in E as ([x t1] & E1 & E); eapply IH; [|exact E| |exact E];
    [by eapply table_set_shape|by eapply table_del_shape].
Qed.

(** C26.  [table_set] on every table that calls of [table_set] and [table_del]
    build from a new one.  NULL gets no handle.  A pointer gets, within two
    rounds over the slots and also across the wrap-around of the counter, a
    handle that finds it, and every other handle gives what it gave before,
    except that a doubling loses the handles whose position depends on the
    capacity ([stays]); the new handle gave NULL before, unless it is one of
    those.  At the largest capacity doubling overflows an [int].  While no
    handle has been lost ([tinv]) and the table does not grow, or grows with
    all handles below its capacity, none is lost. *)
Theorem table_set_fresh t0 ops t ud :
  table_create = Some t0 -> run_table t0 ops = Ret t ->
  table_set t 0 = Ret (0, t) /\
  (grows t = true -> cap t = 2 ^ 30 -> ud <> 0 -> table_set t ud = Undefined) /\
  ((grows t = true -> cap t <> 2 ^ 30) -> ud <> 0 ->
   returns (table_set t ud) (fun r => let '(id, t') := r in 0 < id < 2 ^ 32 /\
     table_get t' id = Ret ud /\
     (forall j, j <> id -> table_get t' j = if grows t && negb (stays t j) then Ret 0 else table_get t j) /\
     (grows t && negb (stays t id) = false -> table_get t id = Ret 0) /\
     (tinv t -> (grows t = true -> Forall (fun i => i < cap t) (live t)) ->
        tinv t' /\ table_get t id = Ret 0 /\ forall j, j <> id -> table_get t' j = table_get t j))).
Proof.
  intros Hcr Hrun.
  assert (tshape t) as Hi.
  { destruct created_ok as (t0' & E & Hi0 & _). rewrite E in Hcr. injection Hcr as ->.
    exact (run_table_shape _ _ _ Hi0 Hrun). }
  pose proof (cap_range t Hi). split; [done|]. unfold table_set. fold (grows t). split.
  { intros -> Hc Hud. destruct (Z.eqb_spec ud 0); [done|]. unfold table_expand, sint. rewrite Hc.
    by rewrite bool_decide_false by (unfold INT_MIN, INT_MAX; lia). }
  intros Hcap Hud. destruct (Z.eqb_spec ud 0); [done|].
  assert (grows t = true -> cap t < 2 ^ 30) as Hc by (intros Hg; specialize (Hcap Hg); lia).
  destruct (grown_ok t Hi Hc) as (-> & Hi1 & Hsz1). set (t1 := if grows t then expanded t else t) in *.
  rewrite ret_bind. destruct (set_loop_ok t1 ud (last t1) Hi1 Hsz1 (ti_last t1 Hi1)) as (id & Hid & Hfree & E).
  assert (with_last t1 (last t1) = t1) as Ew by (by destruct t1). rewrite Ew in E. rewrite E.
  destruct (added_ok t1 id ud Hi1 Hsz1 Hid Hfree) as (Hi2 & Hplaced & Hnone & Hget2).
  assert (forall j, tget t1 j = if grows t && negb (stays t j) then None else tget t j) as Hget1.
  { intros j. unfold t1. destruct (grows t) eqn:Hg; [|done]. rewrite tget_expanded by auto. by destruct (stays t j). }
  assert (forall j, j <> id -> table_get (added t1 id ud) j = if grows t && negb (stays t j) then Ret 0 else table_get t j) as Hoth.
  { intros j Hj. rewrite !table_get_ok, Hget2, Hget1 by done. destruct (decide (j = id)); [done|]. by destruct (_ && _). }
  assert (grows t && negb (stays t id) = false -> table_get t id = Ret 0) as Hnew.
  { intros Hk. rewrite table_get_ok by done. rewrite Hget1, Hk in Hnone. by rewrite Hnone. }
  apply returns_ret. split; [done|]. split; [rewrite table_get_ok, Hget2 by done; by destruct (decide (id = id))|].
  split; [done|]. split; [done|]. intros Ht Hlow.
  assert (tinv t1) as Ht1 by (unfold t1; destruct (grows t) eqn:Hg; [apply placed_expanded; auto|done]).
  assert (forall j, tget t1 j = tget t j) as Hsame.
  { intros j. apply option_eq. intros x. rewrite !tget_Some by done. unfold t1. destruct (grows t); [|done].
    unfold expanded. cbn [slots]. rewrite elem_of_app. split; [|naive_solver]. intros [Hj [?|Hs]]; [by split|].
    apply elem_of_replicate in Hs as [Hs _]. unfold empty_slot in Hs. congruence. }
  split; [by apply Hplaced|]. split; [rewrite table_get_ok, <- Hsame, Hnone; done|].
  intros j Hj. rewrite !table_get_ok, Hget2, Hsame by done. by destruct (decide (j = id)).
Qed.

(** [table_del] returns the handle's pointer (NULL for a handle not in
    use) and removes exactly that handle. *)
Theorem table_del_spec t id :
  tinv t ->
  returns (table_del t id) (fun r => let '(ud, t') := r in tinv t' /\ table_get t id = Ret ud /\
    table_get t' id = Ret 0 /\ (forall j, j <> id -> table_get t' j = table_get t j)).
Proof.
  intros Hi. pose proof (ti_shape t Hi) as Hw. unfold table_del. rewrite (table_get_ok t id) by done.
  destruct (hash_range t id Hi) as [Hr _]. destruct (slot_at_ok t _ Hi Hr) as (s & Es & Hs).
  assert (tget t id = None -> returns (Ret (0, t)) (fun r => let '(ud, t') := r in tinv t' /\
    Ret (default 0 (tget t id)) = Ret ud /\ table_get t' id = Ret 0 /\
    (forall j, j <> id -> table_get t' j = table_get t j))) as Hnone.
  { intros Hn. apply returns_ret. rewrite table_get_ok, Hn by done. auto. }
  destruct (Z.eqb_spec id 0) as [->|Hne]; cbn [orb].
  { apply Hnone. unfold tget. case_match; [|done]. by rewrite andb_false_r. }
  destruct (Z.eqb_spec (sz t) 0) as [Hz|Hz].
  { apply Hnone. pose proof (table_get_ok t id Hi) as E. unfold table_get in E.
    destruct (tget t id) as [ud|] eqn:Et; [|done]. exfalso.
    apply tget_Some in Et as [_ Hin]; [|done]. rewrite (ti_sz t Hi) in Hz.
    apply zlen_nil_inv in Hz. assert (id ∈ live t) as Hl; [|rewrite Hz in Hl; by apply not_elem_of_nil in Hl].
    unfold live. apply list_elem_of_filter. split; [done|]. apply list_elem_of_fmap. by exists (mkSlot id ud). }
  rewrite Es, ret_bind. destruct (Z.eqb_spec (slot_id s) id) as [Hid|Hid]; cbn [negb]; cbv iota.
  - apply returns_ret. pose proof (ti_last t Hi).
    assert (tinv (mkTable (last t) (cap t) (sz t - 1) (set_slot t (hash t id) empty_slot))) as Hi2.
    { split; [|by apply placed_insert]. apply (tshape_insert t (hash t id) s); try done; simpl; try lia.
      unfold used. rewrite Hid. destruct (Z.eqb_spec id 0); [done|]. simpl. lia. }
    pose proof (ti_shape _ Hi2) as Hw2. split; [done|].
    assert (tget t id = Some (slot_ud s)) as ->.
    { unfold tget. rewrite Hs, Hid, Z.eqb_refl. by destruct (Z.eqb_spec id 0). }
    split; [done|]. split.
    + rewrite table_get_ok, tget_insert by done. destruct (decide (hash t id = hash t id)); [|done].
      cbn [slot_id slot_ud empty_slot]. destruct (Z.eqb_spec 0 id); [lia|done].
    + intros j Hj. rewrite !table_get_ok, tget_insert by done.
      destruct (decide (hash t j = hash t id)) as [E|]; [|done]. unfold tget. rewrite E, Hs.
      cbn [slot_id slot_ud empty_slot].
      destruct (Z.eqb_spec 0 j) as [<-|]; cbn [negb Z.eqb andb]; [by rewrite andb_false_r|].
      destruct (Z.eqb_spec (slot_id s) j); [lia|done].
  - apply Hnone. unfold tget. rewrite Hs. by destruct (Z.eqb_spec (slot_id s) id).
Qed.

Lemma table_list_ok t n : 0 <= n -> table_list t n = ztake n (live t).
Proof.
  unfold table_list, live. revert n. induction (slots t) as [|s l IH]; intros n Hn; [by rewrite ztake_all|].
  cbn [list_loop]. rewrite map_cons, filter_cons. destruct (Z.leb_spec n 0) as [Hz|Hz].
  { assert (n = 0) as -> by lia. by rewrite ztake_0. }
  destruct (Z.eqb_spec (slot_id s) 0), (decide (slot_id s <> 0)); try done.
  - apply IH. lia.
  - rewrite IH by lia. unfold ztake. replace (Z.to_nat n) with (S (Z.to_nat (n - 1))) by lia. done.
Qed.
End theorems.

(** ** The handle that doubling loses *)
(** Ten handles that come and go, then twelve that stay. *)
Definition churn : list table_op :=
  flat_map (fun i => [TSet 1; TDel (Z.of_nat i)]) (seq 1 10) ++ replicate 12 (TSet 7).

Section lost.
#[local] Existing Instances big_alloc big_alloc_total.

(** A handle is lost without being deleted: in a session of 22 calls of
    [table_set] handle 17 gives its pointer; the next [table_set] doubles the
    table, and handle 17 gives NULL and cannot be deleted, while its slot
    stays occupied. *)
Theorem table_expand_loses_handle :
  exists t0 t t' id, table_create = Some t0 /\ run_table t0 churn = Ret t /\
    table_get t 17 = Ret 7 /\ table_set t 7 = Ret (id, t') /\ id <> 17 /\
    table_get t' 17 = Ret 0 /\ table_del t' 17 = Ret (0, t') /\ 17 ∈ table_list t' 32.
Proof.
  eexists _, _, _, _. split; [reflexivity|]. split; [vm_compute; reflexivity|].
  split; [vm_compute; reflexivity|]. split; [vm_compute; reflexivity|].
  split; [lia|]. split; [vm_compute; reflexivity|]. split; [vm_compute; reflexivity|].
  apply list_elem_of_In. vm_compute. tauto.
Qed.

(** The table whose next handle doubles it, and loses handle 17. *)
Lemma table_set_fresh_witness :
  exists t0 t, table_create = Some t0 /\ run_table t0 churn = Ret t /\ grows t = true /\ stays t 17 = false /\
  returns (table_set t 99) (fun r => let '(id, t') := r in 0 < id < 2 ^ 32 /\
    table_get t' id = Ret 99 /\
    (forall j, j <> id -> table_get t' j = if grows t && negb (stays t j) then Ret 0 else table_get t j)).
Proof.
  eexists _, _. split; [reflexivity|]. split; [vm_compute; reflexivity|]. split; [reflexivity|]. split; [reflexivity|].
  match goal with |- returns (table_set ?t _) _ =>
    destruct (table_set_fresh (mkTable 0 INIT_SZ 0 (replicate 16 empty_slot)) churn t 99) as (_ & _ & Hset);
      [reflexivity|vm_compute; reflexivity|] end.
  destruct Hset as (r & E & Hr); [done|done|]. exists r. split; [exact E|]. destruct r as [id t'].
  destruct Hr as (? & ? & ? & _). auto.
Defined.

Lemma table_del_spec_witness :
  exists t, table_create = Some t /\
  returns (table_del t 5) (fun r => let '(ud, t') := r in tinv t' /\ table_get t 5 = Ret ud /\
    table_get t' 5 = Ret 0 /\ (forall j, j <> 5 -> table_get t' j = table_get t j)).
Proof.
  destruct created_ok as (t & E & Hi & _). exists t. split; [exact E|].
  exact (table_del_spec t 5 Hi).
Defined.
End lost.
