(* ===== verification/StrMap.v ===== *)
(** * String maps

    [base/strmap.c]: a hash table from strings to strings with separate
    chaining.  A pair holds the two blocks its pointers lead to; a bucket is
    its counter and its array of pairs.  [None] for a map, a key, a value or a
    buffer is a null pointer.  The table is a finite map ([gmap]): every
    session of calls gives the answers of one, also when allocations fail. *)

From stdpp Require Import base tactics numbers list option gmap.
From Stdlib Require Import Lia.
From S2P Require Import Prelude.

Record Pair := mkPair { key : bytes; value : bytes }.
Record Bucket := mkBucket { b_count : Z; pairs : list Pair }.
Record StrMap := mkMap { count : Z; buckets : list Bucket }.

Definition sizeof_Pair : Z := 16.
Definition sizeof_Bucket : Z := 16.
Definition sizeof_StrMap : Z := 16.

(** ** The operations *)

(** [char] is signed: bytes from 128 on are subtracted. *)
Fixpoint hash_loop (str : bytes) (hash : Z) : outcome Z :=
  match str with
  | [] => Undefined
  | x :: str =>
    let c := s8 x in
    if c =? 0 then Ret hash else hash_loop str (u64 (u64 (Z.shiftl hash 5) + hash + c))
  end.
Definition hash (str : bytes) : outcome Z := hash_loop str 5381.

(** The index of the pair in the bucket. *)
Fixpoint get_pair_loop (n : nat) (i : Z) (ps : list Pair) (k : bytes) : outcome (option Z) :=
  match n with
  | O => Ret None
  | S n =>
    match ps with
    | [] => Undefined
    | p :: ps =>
      let! c := strcmp (key p) k in
      if c =? 0 then Ret (Some i) else get_pair_loop n (i + 1) ps k
    end
  end.
Definition get_pair (bucket : Bucket) (k : bytes) : outcome (option Z) :=
  if b_count bucket =? 0 then Ret None else
  get_pair_loop (Z.to_nat (b_count bucket)) 0 (pairs bucket) k.

(** [hash(key) % map->count]; a map of no buckets is a division by zero. *)
Definition bucket_index (m : StrMap) (k : bytes) : outcome Z :=
  let! h := hash k in
  defined (negb (count m =? 0)) ;;
  Ret (u32 (h mod count m)).

Section operations.
Context `{Allocator}.

Definition sm_new (capacity : Z) : option StrMap :=
  match malloc sizeof_StrMap with
  | None => None
  | Some _ =>
    match malloc (capacity * sizeof_Bucket) with
    | None => None
    | Some _ => Some (mkMap capacity (replicate (Z.to_nat capacity) (mkBucket 0 [])))
    end
  end.

(** The blocks that [sm_delete] frees, in order. *)
Inductive block := Key_of (i j : Z) | Value_of (i j : Z) | Pairs_of (i : Z) | Buckets_block | Map_block.

Fixpoint delete_pairs (n : nat) (i j : Z) (ps : list Pair) : outcome (list block) :=
  match n with
  | O => Ret []
  | S n =>
    match ps with
    | [] => Undefined
    | _ :: ps => let! l := delete_pairs n i (j + 1) ps in Ret (Key_of i j :: Value_of i j :: l)
    end
  end.
Fixpoint delete_buckets (n : nat) (i : Z) (bs : list Bucket) : outcome (list block) :=
  match n with
  | O => Ret []
  | S n =>
    match bs with
    | [] => Undefined
    | b :: bs =>
      let! l := delete_pairs (Z.to_nat (b_count b)) i 0 (pairs b) in
      let! l' := delete_buckets n (i + 1) bs in
      Ret (l ++ Pairs_of i :: l')
    end
  end.
Definition sm_delete (map : option StrMap) : outcome (list block) :=
  match map with
  | None => Ret []
  | Some m =>
    let! l := delete_buckets (Z.to_nat (count m)) 0 (buckets m) in
    Ret (l ++ [Buckets_block; Map_block])
  end.

(** The return value and the output buffer. *)
Definition sm_get (map : option StrMap) (k : option bytes) (out_buf : option bytes) (n_out_buf : Z)
  : outcome (Z * option bytes) :=
  match map, k with
  | Some m, Some k =>
    let! index := bucket_index m k in
    let! bucket := arr_get (buckets m) index in
    let! found := get_pair bucket k in
    match found with
    | None => Ret (0, out_buf)
    | Some j =>
      let! p := arr_get (pairs bucket) j in
      match out_buf with
      | None =>
        if n_out_buf =? 0 then let! n := strlen (value p) in Ret (s32 (n + 1), None) else Ret (0, None)
      | Some out =>
        let! n := strlen (value p) in
        if n_out_buf <=? n then Ret (0, Some out) else
        let! out := strcpy out (value p) in
        Ret (1, Some out)
      end
    end
  | _, _ => Ret (0, out_buf)
  end.

Definition sm_exists (map : option StrMap) (k : option bytes) : outcome Z :=
  match map, k with
  | Some m, Some k =>
    let! index := bucket_index m k in
    let! bucket := arr_get (buckets m) index in
    let! found := get_pair bucket k in
    Ret (match found with None => 0 | Some _ => 1 end)
  | _, _ => Ret 0
  end.

(** [realloc] of a block of bytes. *)
Definition realloc (b : bytes) (n : Z) : option bytes :=
  _ ← malloc n; Some (ztake n b ++ zeros (n - zlen b)).

Definition put_bucket (m : StrMap) (i : Z) (b : Bucket) : outcome StrMap :=
  let! bs := arr_set (buckets m) i b in Ret (mkMap (count m) bs).

Definition sm_put (map : option StrMap) (k v : option bytes) : outcome (Z * option StrMap) :=
  match map, k, v with
  | Some m, Some k, Some v =>
    let! n := strlen k in
    let key_len := u32 n in
    let! n := strlen v in
    let value_len := u32 n in
    let! index := bucket_index m k in
    let! bucket := arr_get (buckets m) index in
    let! found := get_pair bucket k in
    match found with
    | Some j =>
      let! p := arr_get (pairs bucket) j in
      let! old := strlen (value p) in
      match (if old <? value_len then realloc (value p) (u32 (value_len + 1)) else Some (value p)) with
      | None => Ret (0, Some m)
      | Some block =>
        let! block := strcpy block v in
        let! ps := arr_set (pairs bucket) j (mkPair (key p) block) in
        let! m := put_bucket m index (mkBucket (b_count bucket) ps) in
        Ret (1, Some m)
      end
    | None =>
      match malloc (u32 (key_len + 1)) with
      | None => Ret (0, Some m)
      | Some nk =>
        match malloc (u32 (value_len + 1)) with
        | None => Ret (0, Some m)
        | Some nv =>
          let n := if b_count bucket =? 0 then 1 else u32 (b_count bucket + 1) in
          match malloc (n * sizeof_Pair) with
          | None => Ret (0, Some m)
          | Some _ =>
            let ps := ztake n (pairs bucket ++ [mkPair [] []]) in
            let! new_key := strcpy (zeros nk) k in
            let! new_value := strcpy (zeros nv) v in
            let! ps := arr_set ps (u32 (n - 1)) (mkPair new_key new_value) in
            let! m := put_bucket m index (mkBucket n ps) in
            Ret (1, Some m)
          end
        end
      end
    end
  | _, _, _ => Ret (0, map)
  end.

Fixpoint count_loop (n : nat) (bs : list Bucket) (c : Z) : outcome Z :=
  match n with
  | O => Ret c
  | S n =>
    match bs with
    | [] => Undefined
    | b :: bs => count_loop n bs (Nat.iter (Z.to_nat (b_count b)) (fun c => u32 (c + 1)) c)
    end
  end.
Definition sm_get_count (map : option StrMap) : outcome Z :=
  match map with
  | None => Ret 0
  | Some m => let! c := count_loop (Z.to_nat (count m)) (buckets m) 0 in Ret (s32 c)
  end.

(** The arguments of the calls of [enum_func], in order. *)
Fixpoint enum_pairs (n : nat) (ps : list Pair) : outcome (list (bytes * bytes)) :=
  match n with
  | O => Ret []
  | S n =>
    match ps with
    | [] => Undefined
    | p :: ps => let! l := enum_pairs n ps in Ret ((key p, value p) :: l)
    end
  end.
Fixpoint enum_buckets (n : nat) (bs : list Bucket) : outcome (list (bytes * bytes)) :=
  match n with
  | O => Ret []
  | S n =>
    match bs with
    | [] => Undefined
    | b :: bs =>
      let! l := enum_pairs (Z.to_nat (b_count b)) (pairs b) in
      let! l' := enum_buckets n bs in
      Ret (l ++ l')
    end
  end.
Definition sm_enum (map : option StrMap) (enum_func : bool) : outcome (Z * list (bytes * bytes)) :=
  match map with
  | None => Ret (0, [])
  | Some m =>
    if negb enum_func then Ret (0, []) else
    let! l := enum_buckets (Z.to_nat (count m)) (buckets m) in
    Ret (1, l)
  end.
End operations.

(** ** What a map holds *)
Section representation.

(** The bytes of a string. *)
Definition cstring (s : bytes) : Prop := all_bytes s /\ no_nul s.

Definition hash_val (k : bytes) : Z := foldl (fun h x => u64 (u64 (Z.shiftl h 5) + h + s8 x)) 5381 k.
(** The bucket of a key in a map of [n] buckets. *)
Definition slot (n : Z) (k : bytes) : nat := Z.to_nat (hash_val k mod n).

Record pair_holds (p : Pair) (kv : bytes * bytes) : Prop := {
  ph_key : key p = kv.1 ++ [0];
  ph_value : exists r, value p = kv.2 ++ 0 :: r;
  ph_cstring : cstring kv.1;
  ph_no_nul : no_nul kv.2
}.

Record bucket_holds (n : Z) (i : nat) (b : Bucket) (l : list (bytes * bytes)) : Prop := {
  bh_count : b_count b = zlen l;
  bh_pairs : Forall2 pair_holds (pairs b) l;
  bh_keys : NoDup l.*1;
  bh_slot : forall kv, kv ∈ l -> slot n kv.1 = i
}.

Record map_holds (m : StrMap) (ls : list (list (bytes * bytes))) : Prop := {
  mh_count : count m = zlen (buckets m);
  mh_range : 0 < count m < 2 ^ 32;
  mh_length : length ls = length (buckets m);
  mh_buckets : forall i b l, buckets m !! i = Some b -> ls !! i = Some l -> bucket_holds (count m) i b l
}.

(** The abstract value. *)
Notation dict := (gmap bytes bytes).
Definition represents (m : StrMap) (M : dict) : Prop :=
  exists ls, map_holds m ls /\ M = list_to_map (concat ls).

Lemma hash_loop_ok k : forall h r, cstring k ->
  hash_loop (k ++ 0 :: r) h = Ret (foldl (fun h x => u64 (u64 (Z.shiftl h 5) + h + s8 x)) h k).
Proof.
  induction k as [|x k IH]; intros h r [Hb Hn]; cbn [app hash_loop foldl]; [done|].
  apply all_bytes_cons in Hb as [Hx Hb]. apply no_nul_cons in Hn as [Hx0 Hn].
  destruct (Z.eqb_spec (s8 x) 0) as [Hz|]; [exfalso|by apply IH].
  unfold is_byte in Hx. unfold wraps in Hz. change (2 ^ (8 - 1)) with 128 in Hz. change (2 ^ 8) with 256 in Hz.
  destruct (Z_lt_ge_dec x 128).
  - rewrite Z.mod_small in Hz by lia. lia.
  - replace (x + 128) with (x - 128 + 1 * 256) in Hz by lia. rewrite Z.mod_add, Z.mod_small in Hz by lia. lia.
Qed.

Lemma hash_val_nonneg k : 0 <= hash_val k.
Proof.
  unfold hash_val. induction k as [|x k _] using rev_ind; [done|]. rewrite foldl_app. cbn [foldl].
  apply (wrapu_range 64). lia.
Qed.

Lemma hash_ok k r : cstring k -> hash (k ++ 0 :: r) = Ret (hash_val k).
Proof. apply hash_loop_ok. Qed.

Lemma slot_range n k : 0 < n -> (Z.of_nat (slot n k) = hash_val k mod n) /\ hash_val k mod n < n.
Proof.
  intros Hn. pose proof (Z.mod_pos_bound (hash_val k) n Hn). unfold slot. lia.
Qed.

Lemma bucket_index_ok m ls k r : map_holds m ls -> cstring k ->
  bucket_index m (k ++ 0 :: r) = Ret (Z.of_nat (slot (count m) k)).
Proof.
  intros [] Hk. unfold bucket_index. rewrite hash_ok, ret_bind by done.
  destruct (Z.eqb_spec (count m) 0); [lia|]. cbn [negb defined]. unfold defined. rewrite ret_bind.
  destruct (slot_range (count m) k) as [E1 E2]; [lia|]. rewrite wrapu_small by lia. by rewrite E1.
Qed.

(** The bucket of a key, and what it holds. *)
Lemma slot_bucket m ls k : map_holds m ls -> exists b l,
  buckets m !! slot (count m) k = Some b /\ ls !! slot (count m) k = Some l /\
  arr_get (buckets m) (Z.of_nat (slot (count m) k)) = Ret b /\ bucket_holds (count m) (slot (count m) k) b l.
Proof.
  intros []. destruct (slot_range (count m) k) as [E1 E2]; [lia|].
  assert (slot (count m) k < length (buckets m))%nat as Hlt by (unfold zlen in *; lia).
  destruct (lookup_lt_is_Some_2 _ _ Hlt) as [b Hb]. rewrite <- mh_length0 in Hlt.
  destruct (lookup_lt_is_Some_2 _ _ Hlt) as [l Hl]. exists b, l. split_and!; [done..|by apply arr_get_lookup|by eapply mh_buckets0].
Qed.

Lemma elem_concat {A} (x : A) ls : x ∈ concat ls <-> exists l, x ∈ l /\ l ∈ ls.
Proof. induction ls as [|l ls IH]; cbn [concat]; set_solver. Qed.

Lemma concat_keys n (ls : list (list (bytes * bytes))) : forall off,
  (forall i l, ls !! i = Some l -> NoDup l.*1 /\ forall kv, kv ∈ l -> slot n kv.1 = (off + i)%nat) -> NoDup (concat ls).*1.
Proof.
  induction ls as [|l ls IH]; intros off Hls; cbn [concat]; [constructor|]. rewrite fmap_app, NoDup_app.
  destruct (Hls 0%nat l eq_refl) as [Hd Hs]. split; [done|]. split.
  - intros k (kv & -> & Hkv)%list_elem_of_fmap ([k' v'] & E1 & Hin)%list_elem_of_fmap. apply elem_concat in Hin as (l' & Hin & Hl').
    apply list_elem_of_lookup in Hl' as [i Hi]. destruct (Hls (S i) l' Hi) as [_ Hs']. specialize (Hs kv Hkv). specialize (Hs' (k', v') Hin).
    cbn in E1, Hs'. subst. lia.
  - apply (IH (S off)). intros i l' Hi. destruct (Hls (S i) l' Hi) as [Hd' Hs']. split; [done|]. intros kv Hkv. rewrite (Hs' kv Hkv). lia.
Qed.

Lemma map_holds_keys m ls : map_holds m ls -> NoDup (concat ls).*1.
Proof.
  intros []. apply (concat_keys (count m) ls 0). intros i l Hl. pose proof (lookup_lt_Some _ _ _ Hl) as Hlt. rewrite mh_length0 in Hlt.
  destruct (lookup_lt_is_Some_2 _ _ Hlt) as [b Hb]. destruct (mh_buckets0 i b l Hb Hl). done.
Qed.

(** A key is looked up in its bucket. *)
Lemma lookup_slot m ls k l : map_holds m ls -> ls !! slot (count m) k = Some l ->
  (list_to_map (concat ls) : dict) !! k = (list_to_map l : dict) !! k.
Proof.
  intros Hm Hl. pose proof (map_holds_keys m ls Hm) as Hd. destruct (slot_bucket m ls k Hm) as (b & l' & _ & Hl' & _ & Hb).
  rewrite Hl in Hl'. injection Hl' as <-. apply option_eq. intros v.
  rewrite <- (elem_of_list_to_map _ _ _ Hd), <- (elem_of_list_to_map _ _ _ (bh_keys _ _ _ _ Hb)), elem_concat. split.
  - intros (l' & Hin & Hl'). apply list_elem_of_lookup in Hl' as [i Hi].
    assert (i = slot (count m) k) as ->; [|congruence]. destruct Hm. pose proof (lookup_lt_Some _ _ _ Hi) as Hlt. rewrite mh_length0 in Hlt.
    destruct (lookup_lt_is_Some_2 _ _ Hlt) as [b' Hb']. destruct (mh_buckets0 i b' l' Hb' Hi). symmetry. exact (bh_slot0 _ Hin).
  - intros Hin. exists l. split; [done|]. by eapply list_elem_of_lookup_2.
Qed.
End representation.

(** ** What the operations do *)
Section specs.
Notation dict := (gmap bytes bytes).

Lemma get_pair_loop_ok k r : no_nul k -> forall ps l n i, Forall2 pair_holds ps l -> n = length ps ->
  exists o, get_pair_loop n i ps (k ++ 0 :: r) = Ret o /\
    match o with
    | None => k ∉ l.*1
    | Some j => exists l1 v l2 ps1 p ps2, l = l1 ++ (k, v) :: l2 /\ ps = ps1 ++ p :: ps2 /\ j = i + zlen ps1 /\
        Forall2 pair_holds ps1 l1 /\ pair_holds p (k, v) /\ Forall2 pair_holds ps2 l2
    end.
Proof.
  intros Hk ps l n i Hf. revert n i. induction Hf as [|p [k' v'] ps l Hp Hf IH]; intros n i ->; cbn [length get_pair_loop].
  - exists None. split; [done|]. set_solver.
  - pose proof Hp as []. cbn [fst snd] in *. rewrite ph_key0.
    destruct (strcmp_cstr k' k [] r) as (c & -> & Hc); [apply ph_cstring0|done|]. rewrite ret_bind.
    destruct (Z.eqb_spec c 0) as [Hz|Hz].
    + apply Hc in Hz as ->. exists (Some i). split; [done|]. exists [], v', l, [], p, ps. split_and!; try done; zlia.
    + destruct (IH (length ps) (i + 1) eq_refl) as (o & -> & Ho). exists o. split; [done|]. destruct o as [j|].
      * destruct Ho as (l1 & v & l2 & ps1 & q & ps2 & -> & -> & -> & Hf1 & Hq & Hf2).
        exists ((k', v') :: l1), v, l2, (p :: ps1), q, ps2. split_and!; try done; [zlia|by constructor].
      * cbn. rewrite not_elem_of_cons. split; [|done]. intros ->. by apply Hz, Hc.
Qed.

Lemma get_pair_ok n i b l k r : bucket_holds n i b l -> no_nul k ->
  exists o, get_pair b (k ++ 0 :: r) = Ret o /\
    match o with
    | None => (list_to_map l : dict) !! k = None
    | Some j => exists l1 v l2 ps1 p ps2, l = l1 ++ (k, v) :: l2 /\ pairs b = ps1 ++ p :: ps2 /\ j = zlen ps1 /\
        Forall2 pair_holds ps1 l1 /\ pair_holds p (k, v) /\ Forall2 pair_holds ps2 l2 /\
        (list_to_map l : dict) !! k = Some v
    end.
Proof.
  intros [Hc Hf Hd _] Hk. unfold get_pair. rewrite Hc. pose proof (Forall2_length _ _ _ Hf) as Hlen.
  destruct (Z.eqb_spec (zlen l) 0) as [Hz|Hz].
  { exists None. split; [done|]. apply zlen_nil_inv in Hz as ->. done. }
  destruct (get_pair_loop_ok k r Hk (pairs b) l (Z.to_nat (zlen l)) 0 Hf) as (o & -> & Ho); [unfold zlen; lia|].
  exists o. split; [done|]. destruct o as [j|]; [|by apply not_elem_of_list_to_map_1].
  destruct Ho as (l1 & v & l2 & ps1 & p & ps2 & -> & Hps & -> & Hf1 & Hp & Hf2). exists l1, v, l2, ps1, p, ps2.
  split_and!; try done. apply elem_of_list_to_map; [done|set_solver].
Qed.

Lemma sm_get_ok m M k r out n :
  represents m M -> cstring k -> 0 <= n <= zlen (default (zeros n) out) ->
  sm_get (Some m) (Some (k ++ 0 :: r)) out n = Ret
    match M !! k with
    | None => (0, out)
    | Some v =>
      match out with
      | None => (if n =? 0 then s32 (zlen v + 1) else 0, None)
      | Some o => if n <=? zlen v then (0, Some o) else (1, Some (v ++ 0 :: zdrop (zlen v + 1) o))
      end
    end.
Proof.
  intros (ls & Hm & ->) Hk Hn. unfold sm_get. destruct (slot_bucket m ls k Hm) as (b & l & _ & Hl & Hb & Hh).
  rewrite (bucket_index_ok m ls k r Hm Hk), ret_bind, Hb, ret_bind, (lookup_slot m ls k l Hm Hl).
  destruct (get_pair_ok _ _ b l k r Hh) as (o & -> & Ho); [apply Hk|]. rewrite ret_bind. destruct o as [j|]; [|by rewrite Ho].
  destruct Ho as (l1 & v & l2 & ps1 & p & ps2 & _ & -> & -> & _ & Hp & _ & ->). rewrite arr_get_middle, ret_bind.
  destruct Hp as [_ [rv Hv] _ Hnv]. cbn [fst snd] in *. rewrite Hv.
  assert (strlen (v ++ 0 :: rv) = Ret (zlen v)) as Hs by (by apply (strlen_cstr v rv)).
  destruct out as [out|]; rewrite ?Hs, ?ret_bind.
  - destruct (Z.leb_spec n (zlen v)); [done|]. cbn [default] in Hn. rewrite strcpy_ok, ret_bind by (done || cbn in Hn; lia). done.
  - by destruct (n =? 0).
Qed.

Lemma sm_exists_ok m M k r : represents m M -> cstring k ->
  sm_exists (Some m) (Some (k ++ 0 :: r)) = Ret (if decide (is_Some (M !! k)) then 1 else 0).
Proof.
  intros (ls & Hm & ->) Hk. unfold sm_exists. destruct (slot_bucket m ls k Hm) as (b & l & _ & Hl & Hb & Hh).
  rewrite (bucket_index_ok m ls k r Hm Hk), ret_bind, Hb, ret_bind, (lookup_slot m ls k l Hm Hl).
  destruct (get_pair_ok _ _ b l k r Hh) as (o & -> & Ho); [apply Hk|]. rewrite ret_bind. destruct o as [j|].
  - destruct Ho as (l1 & v & l2 & ps1 & p & ps2 & _ & _ & _ & _ & _ & _ & ->). rewrite decide_True; [done|by eexists].
  - rewrite Ho, decide_False; [done|by intros [? ?]].
Qed.

(** *** Changing one bucket *)
Lemma map_holds_put m ls i b l b' l' :
  map_holds m ls -> buckets m !! i = Some b -> ls !! i = Some l -> bucket_holds (count m) i b' l' ->
  put_bucket m (Z.of_nat i) b' = Ret (mkMap (count m) (<[i := b']> (buckets m))) /\
  map_holds (mkMap (count m) (<[i := b']> (buckets m))) (<[i := l']> ls).
Proof.
  intros [] Hb Hl Hh. split.
  - unfold put_bucket. by rewrite (arr_set_lookup _ _ _ _ Hb), ret_bind.
  - split; cbn [count buckets]; [by rewrite zlen_insert|done|by rewrite !length_insert|].
    intros j bj lj Hbj Hlj. destruct (decide (i = j)) as [<-|Hne].
    + rewrite list_lookup_insert_eq in Hbj by (by eapply lookup_lt_Some).
      rewrite list_lookup_insert_eq in Hlj by (by eapply lookup_lt_Some). by simplify_eq.
    + rewrite list_lookup_insert_ne in Hbj by done. rewrite list_lookup_insert_ne in Hlj by done. by eapply mh_buckets0.
Qed.

Lemma concat_insert (ls : list (list (bytes * bytes))) i l l' : ls !! i = Some l ->
  exists rest, concat ls ≡ₚ l ++ rest /\ concat (<[i := l']> ls) ≡ₚ l' ++ rest.
Proof.
  intros Hl. pose proof (lookup_lt_Some _ _ _ Hl) as Hlt. exists (concat (take i ls) ++ concat (drop (S i) ls)). split.
  - rewrite <- (take_drop_middle _ _ _ Hl) at 1. rewrite concat_app. cbn [concat]. solve_Permutation.
  - rewrite insert_take_drop, concat_app by done. cbn [concat]. solve_Permutation.
Qed.

(** The map after the pairs of a bucket have changed from [l] to [l']. *)
Lemma represents_put m ls i b l b' l' (k v : bytes) :
  map_holds m ls -> buckets m !! i = Some b -> ls !! i = Some l -> bucket_holds (count m) i b' l' ->
  (exists rest, l' ≡ₚ (k, v) :: rest /\ (l ≡ₚ rest \/ exists v0, l ≡ₚ (k, v0) :: rest)) ->
  exists m', put_bucket m (Z.of_nat i) b' = Ret m' /\ represents m' (<[k := v]> (list_to_map (concat ls) : dict)).
Proof.
  intros Hm Hb Hl Hh (rest & Hl' & Hor). destruct (map_holds_put m ls i b l b' l' Hm Hb Hl Hh) as [E1 Hm'].
  eexists. split; [exact E1|]. eexists. split; [exact Hm'|]. pose proof (map_holds_keys _ _ Hm') as Hd'. pose proof (map_holds_keys _ _ Hm) as Hd.
  destruct (concat_insert ls i l l' Hl) as (others & Hc & Hc').
  apply map_eq. intros k'. apply option_eq. intros v'.
  rewrite <- (elem_of_list_to_map _ _ _ Hd').
  rewrite Hc', Hl' in Hd'. rewrite Hc', Hl'. rewrite lookup_insert_Some, <- (elem_of_list_to_map _ _ _ Hd), Hc.
  assert (forall w, (k, w) ∉ rest ++ others) as Hnin.
  { intros w Hw. cbn in Hd'. apply NoDup_cons in Hd' as [Hd' _]. apply Hd'. apply list_elem_of_fmap. by exists (k, w). }
  cbn [app]. rewrite elem_of_cons.
  destruct Hor as [Hor|[v0 Hor]]; rewrite Hor; cbn [app]; rewrite ?elem_of_cons; naive_solver.
Qed.

Lemma bucket_holds_replace n i b ps1 p ps2 l1 k v0 l2 v blk r :
  bucket_holds n i b (l1 ++ (k, v0) :: l2) -> Forall2 pair_holds ps1 l1 -> pair_holds p (k, v0) -> Forall2 pair_holds ps2 l2 ->
  blk = v ++ 0 :: r -> no_nul v ->
  bucket_holds n i (mkBucket (b_count b) (ps1 ++ mkPair (key p) blk :: ps2)) (l1 ++ (k, v) :: l2).
Proof.
  intros [Hc _ Hd Hs] Hf1 [Hk _ Hck _] Hf2 -> Hv. split; cbn [b_count pairs].
  - rewrite Hc. zlia.
  - apply Forall2_app; [done|]. constructor; [|done]. split; cbn [key value fst snd]; [done|by eexists|done..].
  - rewrite fmap_app, fmap_cons in *. exact Hd.
  - intros kv Hin. rewrite elem_of_app, elem_of_cons in Hin. destruct Hin as [?|[->|?]]; [apply Hs; set_solver| |apply Hs; set_solver].
    apply (Hs (k, v0)). set_solver.
Qed.

Lemma bucket_holds_snoc n i b l k v rv :
  bucket_holds n i b l -> (list_to_map l : dict) !! k = None -> slot n k = i -> cstring k -> no_nul v ->
  bucket_holds n i (mkBucket (b_count b + 1) (pairs b ++ [mkPair (k ++ [0]) (v ++ 0 :: rv)])) (l ++ [(k, v)]).
Proof.
  intros [Hc Hf Hd Hs] Hnone Hk Hck Hv. split; cbn [b_count pairs].
  - rewrite Hc. zlia.
  - apply Forall2_app; [done|]. constructor; [|constructor]. split; cbn [key value fst snd]; [done|by eexists|done..].
  - rewrite fmap_app. apply not_elem_of_list_to_map_2 in Hnone. apply NoDup_app. split; [done|]. cbn.
    split; [set_solver|apply NoDup_singleton].
  - intros kv. rewrite elem_of_app, list_elem_of_singleton. intros [? | ->]; auto.
Qed.

(** The value of a present key is replaced, in its block or in a new one. *)
Lemma put_value_ok `{Allocator} v0 r0 v rv : no_nul v0 -> no_nul v -> zlen v < 2 ^ 32 - 1 ->
  let blk := if zlen v0 <? zlen v then realloc (v0 ++ 0 :: r0) (u32 (zlen v + 1)) else Some (v0 ++ 0 :: r0) in
  match blk with
  | None => zlen v0 < zlen v /\ ~ AllocTotal
  | Some b => exists r, strcpy b (v ++ 0 :: rv) = Ret (v ++ 0 :: r)
  end.
Proof.
  intros Hv0 Hv Hl blk. unfold blk. destruct (Z.ltb_spec (zlen v0) (zlen v)).
  - unfold realloc, malloc. rewrite wrapu_small by (zlen_facts; lia). destruct (alloc_ok _) eqn:Ha; cbn.
    + eexists. apply strcpy_ok; [done|]. rewrite zlen_app, zlen_ztake. zlen_facts. destruct (Z_lt_ge_dec (zlen v + 1) (zlen (v0 ++ 0 :: r0))).
      * zlia.
      * rewrite zlen_zeros by lia. zlia.
    + split; [done|]. intros Ht. rewrite Ht in Ha; [done|]. zlen_facts. lia.
  - eexists. apply strcpy_ok; [done|]. zlia.
Qed.

Lemma bucket_size m ls i l : map_holds m ls -> ls !! i = Some l ->
  zlen l <= Z.of_nat (size (list_to_map (concat ls) : dict)).
Proof.
  intros Hm Hl. rewrite map_size_list_to_map by (by eapply map_holds_keys).
  destruct (concat_insert ls i l l Hl) as (others & Hc & _). rewrite Hc, length_app. unfold zlen. lia.
Qed.

(** Storing a value: every outcome of the allocations. *)
Lemma sm_put_ok `{Allocator} m M k rk v rv :
  represents m M -> cstring k -> no_nul v -> zlen k < 2 ^ 32 - 1 -> zlen v < 2 ^ 32 - 1 -> Z.of_nat (size M) < 2 ^ 32 - 1 ->
  exists r m', sm_put (Some m) (Some (k ++ 0 :: rk)) (Some (v ++ 0 :: rv)) = Ret (r, Some m') /\
    (r = 0 /\ m' = m /\ ~ AllocTotal \/ r = 1 /\ represents m' (<[k := v]> M)).
Proof.
  intros (ls & Hm & ->) Hk Hv Hlk Hlv Hsz. unfold sm_put.
  assert (strlen (k ++ 0 :: rk) = Ret (zlen k)) as -> by (apply (strlen_cstr k rk), Hk).
  assert (strlen (v ++ 0 :: rv) = Ret (zlen v)) as -> by (by apply (strlen_cstr v rv)).
  rewrite !ret_bind. destruct (slot_bucket m ls k Hm) as (b & l & Hbl & Hl & Hb & Hh).
  rewrite (bucket_index_ok m ls k rk Hm Hk), ret_bind, Hb, ret_bind.
  destruct (get_pair_ok _ _ b l k rk Hh) as (o & -> & Ho); [apply Hk|]. rewrite ret_bind.
  rewrite !(wrapu_small 32 (zlen _)) by (zlen_facts; lia).
  destruct o as [j|].
  - destruct Ho as (l1 & v0 & l2 & ps1 & p & ps2 & -> & Hps & -> & Hf1 & Hp & Hf2 & _). rewrite Hps, arr_get_middle, ret_bind.
    pose proof Hp as [_ [r0 Hr0] _ Hv0]. cbn [fst snd] in *. rewrite Hr0.
    assert (strlen (v0 ++ 0 :: r0) = Ret (zlen v0)) as -> by (by apply (strlen_cstr v0 r0)). rewrite ret_bind.
    pose proof (put_value_ok v0 r0 v rv Hv0 Hv Hlv) as Hblk. cbn zeta in Hblk.
    destruct (if zlen v0 <? zlen v then _ else _) as [blk|]; [|exists 0, m; naive_solver].
    destruct Hblk as [r ->]. rewrite ret_bind, arr_set_middle, ret_bind.
    pose proof (bucket_holds_replace _ _ _ ps1 p ps2 l1 k v0 l2 v _ r Hh Hf1 Hp Hf2 eq_refl Hv) as Hh'.
    destruct (represents_put m ls _ _ _ _ _ k v Hm Hbl Hl Hh') as (m' & -> & Hm').
    { exists (l1 ++ l2). split; [solve_Permutation|]. right. exists v0. solve_Permutation. }
    rewrite ret_bind. exists 1, m'. auto.
  - assert (zlen l <= Z.of_nat (size (list_to_map (concat ls) : dict))) as Hle by (by eapply bucket_size).
    unfold malloc. rewrite !(wrapu_small 32 (zlen _ + 1)) by (zlen_facts; lia).
    assert (forall n, alloc_ok n = false -> 0 <= n < 2 ^ 63 -> ~ AllocTotal) as Hno by (intros n Hf Hr Ht; rewrite Ht in Hf; done).
    destruct (alloc_ok (zlen k + 1)) eqn:E1; [|exists 0, m; zlen_facts; split; [done|left; split_and!; [done..|eapply Hno; [done|lia]]]].
    destruct (alloc_ok (zlen v + 1)) eqn:E2; [|exists 0, m; zlen_facts; split; [done|left; split_and!; [done..|eapply Hno; [done|lia]]]].
    pose proof (bh_count _ _ _ _ Hh) as Hc. pose proof (Forall2_length _ _ _ (bh_pairs _ _ _ _ Hh)) as Hlen.
    assert (zlen (pairs b) = zlen l) as Hzl by (unfold zlen; lia).
    replace (if b_count b =? 0 then 1 else u32 (b_count b + 1)) with (zlen l + 1).
    2: { rewrite Hc. destruct (Z.eqb_spec (zlen l) 0); [lia|]. rewrite wrapu_small by (zlen_facts; lia). done. }
    destruct (alloc_ok ((zlen l + 1) * sizeof_Pair)) eqn:E3;
      [|exists 0, m; split; [done|left; split_and!; [done..|eapply Hno; [done|unfold sizeof_Pair; zlen_facts; lia]]]].
    rewrite ztake_all by zlia.
    rewrite (strcpy_ok _ k rk (proj2 Hk)), ret_bind by (zlen_facts; rewrite zlen_zeros; lia).
    rewrite (strcpy_ok _ v rv Hv), ret_bind by (zlen_facts; rewrite zlen_zeros; lia).
    rewrite wrapu_small by (zlen_facts; lia). replace (zlen l + 1 - 1) with (zlen (pairs b)) by lia.
    rewrite arr_set_middle, ret_bind.
    rewrite (zdrop_all (zlen k + 1)) by (zlen_facts; rewrite zlen_zeros; lia).
    pose proof (bucket_holds_snoc _ _ b l k v (zdrop (zlen v + 1) (zeros (zlen v + 1))) Hh Ho eq_refl Hk Hv) as Hh'. rewrite Hc in Hh'.
    destruct (represents_put m ls _ _ _ _ _ k v Hm Hbl Hl Hh') as (m' & -> & Hm').
    { exists l. split; [solve_Permutation|by left]. }
    rewrite ret_bind. exists 1, m'. auto.
Qed.

Lemma sm_new_ok `{Allocator} capacity m : 0 < capacity < 2 ^ 32 -> sm_new capacity = Some m -> represents m ∅.
Proof.
  intros Hc Hm. unfold sm_new in Hm. destruct (malloc sizeof_StrMap); [|done]. destruct (malloc (capacity * sizeof_Bucket)); [|done].
  injection Hm as <-. exists (replicate (Z.to_nat capacity) []). split.
  - split; cbn [count buckets]; [unfold zlen; rewrite length_replicate; lia|done|by rewrite !length_replicate|].
    intros i b l [-> _]%lookup_replicate [-> _]%lookup_replicate. split; cbn; [done|constructor|constructor|set_solver].
  - by induction (Z.to_nat capacity).
Qed.

Lemma sm_new_total `{Allocator} `{!AllocTotal} capacity : 0 <= capacity < 2 ^ 32 -> is_Some (sm_new capacity).
Proof.
  intros Hc. unfold sm_new, malloc. rewrite !alloc_total by (unfold sizeof_StrMap, sizeof_Bucket; lia). by eexists.
Qed.

(** *** Walking the whole table *)
Lemma iter_count n : forall c, u32 c = c -> Nat.iter n (fun c => u32 (c + 1)) c = u32 (c + Z.of_nat n).
Proof.
  induction n as [|n IH]; intros c Hc.
  - cbn. by rewrite Z.add_0_r.
  - rewrite Nat.iter_succ, IH by done. unfold wrapu. rewrite Z.add_mod_idemp_l by lia. f_equal. lia.
Qed.

Lemma count_loop_ok n bs : forall ls c, u32 c = c -> length ls = length bs ->
  (forall i b l, bs !! i = Some b -> ls !! i = Some l -> exists i, bucket_holds n i b l) ->
  count_loop (length bs) bs c = Ret (u32 (c + zlen (concat ls))).
Proof.
  induction bs as [|b bs IH]; intros [|l ls] c Hc Hlen Hb; try discriminate; cbn [length count_loop concat].
  - by rewrite zlen_nil, Z.add_0_r, Hc.
  - destruct (Hb 0%nat b l eq_refl eq_refl) as [i Hh]. rewrite iter_count by done. rewrite (IH ls).
    + f_equal. rewrite (bh_count _ _ _ _ Hh), zlen_app, Z2Nat.id by apply zlen_nonneg.
      unfold wrapu. rewrite Z.add_mod_idemp_l by lia. f_equal. lia.
    + unfold wrapu. by rewrite Z.mod_mod.
    + cbn in Hlen. lia.
    + intros j. exact (Hb (S j)).
Qed.

(** The number of keys, read as an [int]. *)
Lemma sm_get_count_ok m M : represents m M -> sm_get_count (Some m) = Ret (s32 (Z.of_nat (size M))).
Proof.
  intros (ls & Hm & ->). rewrite map_size_list_to_map by (by eapply map_holds_keys). unfold sm_get_count.
  destruct Hm. rewrite mh_count0 at 1. unfold zlen at 1. rewrite Nat2Z.id.
  rewrite (count_loop_ok (count m) (buckets m) ls 0 eq_refl mh_length0), ret_bind.
  - f_equal. unfold zlen. rewrite Z.add_0_l. unfold wraps, wrapu. by rewrite Z.add_mod_idemp_l.
  - intros i b l Hb Hl. exists i. by apply mh_buckets0.
Qed.

(** The strings that two blocks hold. *)
Definition strings_of (blocks kv : bytes * bytes) : Prop := c_str blocks.1 = Ret kv.1 /\ c_str blocks.2 = Ret kv.2.

Lemma enum_pairs_ok ps l : Forall2 pair_holds ps l ->
  exists bs, enum_pairs (length ps) ps = Ret bs /\ Forall2 strings_of bs l.
Proof.
  induction 1 as [|p kv ps l Hp _ (bs & IH & Hbs)]; cbn [length enum_pairs]; [by eexists|].
  rewrite IH, ret_bind. eexists. split; [done|]. constructor; [|done]. destruct Hp as [Hk [r Hv] [_ Hn] Hnv].
  split; cbn; [rewrite Hk|rewrite Hv]; by apply c_str_ok.
Qed.

Lemma enum_buckets_ok n bs : forall ls, length ls = length bs ->
  (forall i b l, bs !! i = Some b -> ls !! i = Some l -> exists i, bucket_holds n i b l) ->
  exists blocks, enum_buckets (length bs) bs = Ret blocks /\ Forall2 strings_of blocks (concat ls).
Proof.
  induction bs as [|b bs IH]; intros [|l ls] Hlen Hb; try discriminate; cbn [length enum_buckets concat]; [by eexists|].
  destruct (Hb 0%nat b l eq_refl eq_refl) as [i Hh]. destruct (enum_pairs_ok _ _ (bh_pairs _ _ _ _ Hh)) as (b1 & E1 & H1).
  destruct (IH ls) as (b2 & E2 & H2); [cbn in Hlen; lia|intros j; exact (Hb (S j))|].
  rewrite (bh_count _ _ _ _ Hh). unfold zlen. rewrite Nat2Z.id, <- (Forall2_length _ _ _ (bh_pairs _ _ _ _ Hh)), E1, ret_bind, E2, ret_bind.
  eexists. split; [done|]. by apply Forall2_app.
Qed.

(** Every entry is given to the callback, once. *)
Lemma sm_enum_ok m M : represents m M ->
  exists blocks l, sm_enum (Some m) true = Ret (1, blocks) /\ Forall2 strings_of blocks l /\ l ≡ₚ map_to_list M.
Proof.
  intros (ls & Hm & ->). pose proof (map_holds_keys _ _ Hm) as Hd. destruct Hm. unfold sm_enum. cbn [negb].
  destruct (enum_buckets_ok (count m) (buckets m) ls mh_length0) as (blocks & E & Hf).
  { intros i b l Hb Hl. exists i. by apply mh_buckets0. }
  exists blocks, (concat ls). rewrite mh_count0. unfold zlen. rewrite Nat2Z.id, E, ret_bind. split_and!; [done..|].
  by rewrite map_to_list_to_map.
Qed.
End specs.

(** ** Every block is freed, once *)
Section delete.

(** The blocks that a map owns. *)
Definition owned (m : StrMap) (x : block) : Prop :=
  match x with
  | Key_of i j | Value_of i j => exists b, znth (buckets m) i = Some b /\ 0 <= j < zlen (pairs b)
  | Pairs_of i => 0 <= i < zlen (buckets m)
  | Buckets_block | Map_block => True
  end.

Lemma znth_lookup {A} (l : list A) i x : znth l i = Some x <-> exists n, i = Z.of_nat n /\ l !! n = Some x.
Proof.
  unfold znth. split.
  - case_bool_decide; [|done]. intros Hx. exists (Z.to_nat i). split; [lia|done].
  - intros (n & -> & Hn). by rewrite bool_decide_true, Nat2Z.id by lia.
Qed.

Lemma delete_pairs_ok i ps : forall j, exists l, delete_pairs (length ps) i j ps = Ret l /\ NoDup l /\
  forall x, x ∈ l <-> exists j', j <= j' < j + zlen ps /\ (x = Key_of i j' \/ x = Value_of i j').
Proof.
  induction ps as [|p ps IH]; intros j; cbn [length delete_pairs].
  - exists []. split_and!; [done|constructor|]. intros x. split; [set_solver|]. intros (j' & Hj' & _). zlia.
  - destruct (IH (j + 1)) as (l & -> & Hd & Hl). rewrite ret_bind. eexists. split; [done|]. split.
    + apply NoDup_cons. split; [|apply NoDup_cons; split; [|done]].
      * rewrite elem_of_cons, Hl. intros [?|(j' & Hj' & [?|?])]; simplify_eq; lia.
      * rewrite Hl. intros (j' & Hj' & [?|?]); simplify_eq; lia.
    + intros x. rewrite !elem_of_cons, Hl, zlen_cons. zlen_facts. split.
      * intros [->|[->|(j' & Hj' & Hx)]]; [exists j; split; [lia|by left]|exists j; split; [lia|by right]|exists j'; split; [lia|done]].
      * intros (j' & Hj' & Hx). destruct (decide (j' = j)) as [->|]; [tauto|]. right; right. exists j'. split; [lia|done].
Qed.

Lemma delete_buckets_ok bs : forall i, Forall (fun b => b_count b = zlen (pairs b)) bs ->
  exists l, delete_buckets (length bs) i bs = Ret l /\ NoDup l /\
  forall x, x ∈ l <-> exists n b, bs !! n = Some b /\
    (x = Pairs_of (i + Z.of_nat n) \/ exists j, 0 <= j < zlen (pairs b) /\ (x = Key_of (i + Z.of_nat n) j \/ x = Value_of (i + Z.of_nat n) j)).
Proof.
  induction bs as [|b bs IH]; intros i Hc; cbn [length delete_buckets].
  - exists []. split_and!; [done|constructor|]. intros x. split; [set_solver|]. naive_solver.
  - apply Forall_cons in Hc as [Hb Hc]. rewrite Hb. unfold zlen at 1. rewrite Nat2Z.id.
    destruct (delete_pairs_ok i (pairs b) 0) as (l1 & -> & Hd1 & Hl1). rewrite ret_bind.
    destruct (IH (i + 1) Hc) as (l2 & -> & Hd2 & Hl2). rewrite ret_bind. eexists. split; [done|].
    assert (forall n, i + 1 + Z.of_nat n = i + Z.of_nat (S n)) as HS by lia. split.
    + apply NoDup_app. split; [done|]. split; [|apply NoDup_cons; split; [|done]].
      * intros x Hx. apply Hl1 in Hx as (j & Hj & Hx). rewrite elem_of_cons, Hl2.
        intros [->|(n & b' & Hn & [->|(j' & Hj' & Hx')])]; [naive_solver..|].
        rewrite HS in Hx'. destruct Hx as [-> | ->], Hx' as [?|?]; simplify_eq; lia.
      * rewrite Hl2. intros (n & b' & Hn & [Hx|(j' & Hj' & [Hx|Hx])]); [injection Hx; lia|done|done].
    + intros x. rewrite elem_of_app, elem_of_cons, Hl1, Hl2. split.
      * intros [(j & Hj & Hx)|[->|(n & b' & Hn & Hx)]].
        -- exists 0%nat, b. split; [done|]. right. exists j. rewrite Z.add_0_r. split; [lia|done].
        -- exists 0%nat, b. split; [done|]. left. by rewrite Z.add_0_r.
        -- exists (S n), b'. split; [done|]. by rewrite HS in Hx.
      * intros ([|n] & b' & Hn & Hx).
        -- cbn in Hn. injection Hn as <-. rewrite Z.add_0_r in Hx. destruct Hx as [->|(j & Hj & Hx)]; [tauto|]. left. exists j. split; [lia|done].
        -- right; right. exists n, b'. split; [done|]. by rewrite HS.
Qed.

Lemma sm_delete_blocks m M : represents m M ->
  exists l, sm_delete (Some m) = Ret l /\ NoDup l /\ forall x, x ∈ l <-> owned m x.
Proof.
  intros (ls & [] & _). unfold sm_delete. rewrite mh_count0. unfold zlen. rewrite Nat2Z.id.
  destruct (delete_buckets_ok (buckets m) 0) as (l & -> & Hd & Hl).
  { apply Forall_lookup. intros i b Hb. pose proof (lookup_lt_Some _ _ _ Hb) as Hlt. rewrite <- mh_length0 in Hlt.
    destruct (lookup_lt_is_Some_2 _ _ Hlt) as [l' Hl']. destruct (mh_buckets0 i b l' Hb Hl') as [Hc Hf _ _].
    rewrite Hc. unfold zlen. by rewrite (Forall2_length _ _ _ Hf). }
  rewrite ret_bind. eexists. split; [done|]. split.
  - apply NoDup_app. split; [done|]. split; [|apply NoDup_cons; split; [set_solver|apply NoDup_singleton]].
    intros x (n & b & _ & [->|(j & _ & [-> | ->])])%Hl; set_solver.
  - intros x. rewrite elem_of_app, Hl. split.
    + intros [(n & b & Hb & Hx)|Hx].
      * destruct Hx as [->|(j & Hj & [-> | ->])]; cbn [owned].
        -- apply lookup_lt_Some in Hb. unfold zlen. lia.
        -- exists b. split; [apply znth_lookup; eauto|done].
        -- exists b. split; [apply znth_lookup; eauto|done].
      * assert (x = Buckets_block \/ x = Map_block) as [-> | ->] by set_solver; done.
    + destruct x as [i j|i j|i| |]; cbn [owned]; [| | |set_solver..].
      * intros (b & (n & -> & Hb)%znth_lookup & Hj). left. exists n, b. split; [done|]. right. exists j. auto.
      * intros (b & (n & -> & Hb)%znth_lookup & Hj). left. exists n, b. split; [done|]. right. exists j. auto.
      * intros (b & (n & -> & Hb)%znth_lookup)%znth_Some. left. exists n, b. split; [done|]. by left.
Qed.
End delete.

(** ** Sessions *)
Section session.
Notation dict := (gmap bytes bytes).

Inductive op := Put (k v : bytes) | Get (k : bytes) (n : Z) | Value_size (k : bytes) | Exists (k : bytes) | Count | Enum.
Inductive answer := Int (n : Z) | Buf (r : Z) (buf : bytes) | Blocks (l : list (bytes * bytes)).

Definition exec `{Allocator} (m : StrMap) (o : op) : outcome (answer * StrMap) :=
  match o with
  | Put k v => let! r := sm_put (Some m) (Some (k ++ [0])) (Some (v ++ [0])) in Ret (Int r.1, default m r.2)
  | Get k n => let! r := sm_get (Some m) (Some (k ++ [0])) (Some (zeros n)) n in Ret (Buf r.1 (default [] r.2), m)
  | Value_size k => let! r := sm_get (Some m) (Some (k ++ [0])) None 0 in Ret (Int r.1, m)
  | Exists k => let! r := sm_exists (Some m) (Some (k ++ [0])) in Ret (Int r, m)
  | Count => let! r := sm_get_count (Some m) in Ret (Int r, m)
  | Enum => let! r := sm_enum (Some m) true in Ret (Blocks r.2, m)
  end.
Fixpoint exec_all `{Allocator} (m : StrMap) (ops : list op) : outcome (list answer * StrMap) :=
  match ops with
  | [] => Ret ([], m)
  | o :: ops => let! r := exec m o in let! r' := exec_all r.2 ops in Ret (r.1 :: r'.1, r'.2)
  end.

(** The strings a caller may pass. *)
Definition op_ok (o : op) : Prop :=
  match o with
  | Put k v => cstring k /\ no_nul v /\ zlen k < 2 ^ 32 - 1 /\ zlen v < 2 ^ 32 - 1
  | Get k n => cstring k /\ 0 <= n
  | Value_size k | Exists k => cstring k
  | Count | Enum => True
  end.

(** What each operation promises of the finite map [M]. *)
Inductive op_spec `{Allocator} (M : dict) : op -> answer -> dict -> Prop :=
  | put_done k v : op_spec M (Put k v) (Int 1) (<[k := v]> M)
  | put_failed k v : ~ AllocTotal -> op_spec M (Put k v) (Int 0) M
  | get_fits k n v : M !! k = Some v -> zlen v < n -> op_spec M (Get k n) (Buf 1 (v ++ zeros (n - zlen v))) M
  | get_too_long k n v : M !! k = Some v -> n <= zlen v -> op_spec M (Get k n) (Buf 0 (zeros n)) M
  | get_none k n : M !! k = None -> op_spec M (Get k n) (Buf 0 (zeros n)) M
  | size_some k v : M !! k = Some v -> op_spec M (Value_size k) (Int (s32 (zlen v + 1))) M
  | size_none k : M !! k = None -> op_spec M (Value_size k) (Int 0) M
  | exists_yes k : is_Some (M !! k) -> op_spec M (Exists k) (Int 1) M
  | exists_no k : M !! k = None -> op_spec M (Exists k) (Int 0) M
  | count_size : op_spec M Count (Int (s32 (Z.of_nat (size M)))) M
  | enum_all blocks l : Forall2 strings_of blocks l -> l ≡ₚ map_to_list M -> op_spec M Enum (Blocks blocks) M.

Inductive session `{Allocator} : dict -> list op -> list answer -> dict -> Prop :=
  | session_nil M : session M [] [] M
  | session_cons M o a M1 ops l M2 :
    op_spec M o a M1 -> session M1 ops l M2 -> session M (o :: ops) (a :: l) M2.

Lemma op_spec_size `{Allocator} M o a M' : op_spec M o a M' -> (size M' <= size M + 1)%nat.
Proof.
  intros []; try lia. destruct (M !! k) eqn:E; [rewrite map_size_insert_Some by (by rewrite E)|rewrite map_size_insert_None by done]; lia.
Qed.

Lemma exec_ok `{Allocator} m M o : represents m M -> op_ok o -> Z.of_nat (size M) < 2 ^ 32 - 1 ->
  exists a m' M', exec m o = Ret (a, m') /\ op_spec M o a M' /\ represents m' M'.
Proof.
  intros Hm Ho Hs. destruct o as [k v|k n|k|k| |]; cbn [op_ok exec] in *.
  - destruct Ho as (Hk & Hv & Hlk & Hlv). destruct (sm_put_ok m M k [] v [] Hm Hk Hv Hlk Hlv Hs) as (r & m' & -> & Hr).
    rewrite ret_bind. eexists _, _. destruct Hr as [(-> & -> & Hn)|[-> Hm']]; cbn; eexists; split_and!; try done; by constructor.
  - destruct Ho as [Hk Hn]. rewrite (sm_get_ok m M k [] (Some (zeros n)) n Hm Hk) by (cbn; rewrite zlen_zeros; lia).
    destruct (M !! k) as [v|] eqn:E; [destruct (Z.leb_spec n (zlen v))|]; rewrite ret_bind; cbn.
    + eexists _, _, _. split_and!; [done|by eapply get_too_long|done].
    + eexists _, _, M. split_and!; [done| |done].
      replace (0 :: zdrop (zlen v + 1) (zeros n)) with (zeros (n - zlen v)); [by constructor|].
      unfold zeros, zdrop. zlen_facts. rewrite drop_replicate, <- replicate_S. f_equal. lia.
    + eexists _, _, _. split_and!; [done|by constructor|done].
  - rewrite (sm_get_ok m M k [] None 0 Hm Ho) by (cbn; change (zlen (zeros 0)) with 0; lia).
    destruct (M !! k) as [v|] eqn:E; rewrite ret_bind; eexists _, _, _; (split_and!; [done|by econstructor|done]).
  - rewrite (sm_exists_ok m M k [] Hm Ho), ret_bind. eexists _, _, _. split_and!; [done| |done].
    case_decide as E; [by constructor|]. constructor. by apply eq_None_not_Some.
  - rewrite (sm_get_count_ok m M Hm), ret_bind. eexists _, _, _. split_and!; [done|by constructor|done].
  - destruct (sm_enum_ok m M Hm) as (blocks & l & -> & Hf & Hl). rewrite ret_bind. eexists _, _, _. split_and!; [done|by econstructor|done].
Qed.

Lemma exec_all_ok `{Allocator} ops : forall m M, represents m M -> Forall op_ok ops ->
  Z.of_nat (size M) + zlen ops < 2 ^ 32 ->
  exists l m' M', exec_all m ops = Ret (l, m') /\ session M ops l M' /\ represents m' M'.
Proof.
  induction ops as [|o ops IH]; intros m M Hm Ho Hs; cbn [exec_all].
  - eexists _, _, _. split_and!; [done|constructor|done].
  - apply Forall_cons in Ho as [Ho Hops]. rewrite zlen_cons in Hs. zlen_facts.
    destruct (exec_ok m M o Hm Ho) as (a & m1 & M1 & -> & Ha & Hm1); [lia|]. rewrite ret_bind. pose proof (op_spec_size _ _ _ _ Ha).
    destruct (IH m1 M1 Hm1 Hops) as (l & m2 & M2 & E & Hl & Hm2); [lia|]. cbn [fst snd]. rewrite E, ret_bind.
    eexists _, _, _. split_and!; [done|by econstructor|done].
Qed.

(** C27.  A map from [sm_new] behaves as a finite map from strings to strings:
    for every sequence of calls of [sm_put], [sm_get] (with a buffer, or asking
    for the size), [sm_exists], [sm_get_count] and [sm_enum] no access leaves a
    block and each call answers as the finite map does, whatever the hash
    collisions; a failed allocation answers 0 and changes nothing, and cannot
    happen with a total allocator.  [sm_delete] then frees every block the map
    owns exactly once. *)
Theorem strmap_refines_map `{Allocator} capacity m ops :
  0 < capacity < 2 ^ 32 -> sm_new capacity = Some m -> Forall op_ok ops -> zlen ops < 2 ^ 32 ->
  exists answers m' M freed, exec_all m ops = Ret (answers, m') /\ session ∅ ops answers M /\ represents m' M /\
    sm_delete (Some m') = Ret freed /\ NoDup freed /\ forall x, x ∈ freed <-> owned m' x.
Proof.
  intros Hc Hm Ho Hl. destruct (exec_all_ok ops m ∅ (sm_new_ok _ _ Hc Hm) Ho) as (l & m' & M & E & Hs & Hm').
  { rewrite map_size_empty. lia. }
  destruct (sm_delete_blocks m' M Hm') as (f & Ef & Hd & Hf). eexists _, _, _, _. eauto 10.
Qed.
End session.

(** Two keys of one bucket (of two): "b" = 98 and "d" = 100. *)
Definition demo_ops : list op := [Put [98] [120]; Put [100] [121; 122]; Put [98] [121; 122; 123]; Get [98] 8; Get [100] 2; Exists [97]; Value_size [100]; Count; Enum].

Lemma strmap_refines_map_witness :
  @sm_new big_alloc 2 = Some (mkMap 2 [mkBucket 0 []; mkBucket 0 []]) /\
  exists answers m' M freed, @exec_all big_alloc (mkMap 2 [mkBucket 0 []; mkBucket 0 []]) demo_ops = Ret (answers, m') /\
    @session big_alloc ∅ demo_ops answers M /\ represents m' M /\
    sm_delete (Some m') = Ret freed /\ NoDup freed /\ forall x, x ∈ freed <-> owned m' x.
Proof.
  split; [reflexivity|]. apply (@strmap_refines_map big_alloc 2).
  - lia.
  - reflexivity.
  - repeat constructor; vm_compute; (reflexivity || discriminate || set_solver).
  - reflexivity.
Defined.

Example demo_answers :
  (let! r := @exec_all big_alloc (mkMap 2 [mkBucket 0 []; mkBucket 0 []]) demo_ops in Ret r.1) =
  Ret [Int 1; Int 1; Int 1; Buf 1 [121; 122; 123; 0; 0; 0; 0; 0]; Buf 0 [0; 0]; Int 0; Int 3; Int 2;
       Blocks [([98; 0], [121; 122; 123; 0]); ([100; 0], [121; 122; 0])]].
Proof. vm_compute. reflexivity. Qed.

(** *** What the caller must avoid *)

(** A map of no buckets is created, and divides by zero at its first use. *)
Lemma no_buckets_undefined `{Allocator} m k :
  sm_new 0 = Some m -> cstring k -> sm_exists (Some m) (Some (k ++ [0])) = Undefined.
Proof.
  unfold sm_new. intros Hm Hk. destruct (malloc _); [|done]. destruct (malloc _); [|done]. injection Hm as <-.
  unfold sm_exists, bucket_index. by rewrite (hash_ok k [] Hk), ret_bind.
Qed.

(** The lengths are [unsigned int]: the block of a key of 2^32 - 1 bytes has
    no byte, and the key is copied into it. *)
Lemma sm_put_long_key_undefined `{Allocator} `{!AllocTotal} m M k v :
  represents m M -> cstring k -> no_nul v -> M !! k = None -> zlen k = 2 ^ 32 - 1 -> zlen v < 2 ^ 32 - 1 ->
  Z.of_nat (size M) < 2 ^ 32 - 1 ->
  sm_put (Some m) (Some (k ++ [0])) (Some (v ++ [0])) = Undefined.
Proof.
  intros (ls & Hm & ->) Hk Hv Hnone Hlk Hlv Hsz. unfold sm_put.
  assert (strlen (k ++ [0]) = Ret (zlen k)) as -> by (apply (strlen_cstr k []), Hk).
  assert (strlen (v ++ [0]) = Ret (zlen v)) as -> by (by apply (strlen_cstr v [])).
  rewrite !ret_bind. destruct (slot_bucket m ls k Hm) as (b & l & Hbl & Hl & Hb & Hh).
  rewrite (bucket_index_ok m ls k [] Hm Hk), ret_bind, Hb, ret_bind. rewrite (lookup_slot m ls k l Hm Hl) in Hnone.
  destruct (get_pair_ok _ _ b l k [] Hh) as (o & -> & Ho); [apply Hk|]. rewrite ret_bind. destruct o as [j|].
  { destruct Ho as (l1 & v0 & l2 & ps1 & p & ps2 & _ & _ & _ & _ & _ & _ & Ho). by rewrite Ho in Hnone. }
  pose proof (bucket_size m ls _ l Hm Hl). pose proof (bh_count _ _ _ _ Hh) as Hc. zlen_facts.
  assert (forall n, 0 <= n < 2 ^ 32 -> (if b_count b =? 0 then 1 else n) < 2 ^ 32) as Hn by (intros; destruct (_ =? _); lia).
  assert (forall n, 0 <= n -> 0 <= (if b_count b =? 0 then 1 else n)) as Hn' by (intros; destruct (_ =? _); lia).
  unfold malloc. rewrite !alloc_total; [|unfold sizeof_Pair| |].
  - rewrite Hlk. change (u32 (u32 (2 ^ 32 - 1) + 1)) with 0. unfold strcpy.
    assert (strlen (k ++ [0]) = Ret (zlen k)) as -> by (apply (strlen_cstr k []), Hk). rewrite ret_bind. unfold mem_write. rewrite bool_decide_false; [done|].
    change (zlen (zeros 0)) with 0. rewrite ztake_all by zlia. zlia.
  - pose proof (wrapu_range 32 (b_count b + 1)). specialize (Hn (u32 (b_count b + 1))). specialize (Hn' (u32 (b_count b + 1))). lia.
  - pose proof (wrapu_range 32 (u32 (zlen v) + 1)). lia.
  - pose proof (wrapu_range 32 (u32 (zlen k) + 1)). lia.
Qed.

(** Empty keys and values are stored like any other. *)
Example empty_strings_stored :
  (let! r := @exec_all big_alloc (mkMap 1 [mkBucket 0 []]) [Put [] []; Exists []; Value_size []] in Ret r.1) = Ret [Int 1; Int 1; Int 1].
Proof. reflexivity. Qed.
