(* ===== verification/Queue.v ===== *)
(** * Intrusive queues

    [base/queue.h]: a queue is a node ([QUEUE], two pointers) that heads a
    circular list of nodes embedded in the elements.  The macros are
    functions on the store that holds the nodes, one assignment after the
    other; [QUEUE_DATA] only computes the address of the element. *)

From stdpp Require Import base tactics numbers list option gmap.
From Stdlib Require Import Lia.
From S2P Require Import Prelude.

(** ** The macros *)

(** The two words of a node: next and previous. *)
Notation QUEUE := (Z * Z)%type.
Notation store := (gmap Z QUEUE).

Definition QUEUE_NEXT (m : store) (q : Z) : outcome Z := let! n := deref (m !! q) in Ret n.1.
Definition QUEUE_PREV (m : store) (q : Z) : outcome Z := let! n := deref (m !! q) in Ret n.2.
Definition set_next (m : store) (q x : Z) : outcome store := let! n := deref (m !! q) in Ret (<[q := (x, n.2)]> m).
Definition set_prev (m : store) (q x : Z) : outcome store := let! n := deref (m !! q) in Ret (<[q := (n.1, x)]> m).

Definition QUEUE_PREV_NEXT (m : store) (q : Z) : outcome Z := let! p := QUEUE_PREV m q in QUEUE_NEXT m p.
Definition set_prev_next (m : store) (q x : Z) : outcome store := let! p := QUEUE_PREV m q in set_next m p x.
Definition QUEUE_NEXT_PREV (m : store) (q : Z) : outcome Z := let! n := QUEUE_NEXT m q in QUEUE_PREV m n.
Definition set_next_prev (m : store) (q x : Z) : outcome store := let! n := QUEUE_NEXT m q in set_prev m n x.

Definition QUEUE_EMPTY (m : store) (q : Z) : outcome bool := let! n := QUEUE_NEXT m q in Ret (q =? n).
Definition QUEUE_HEAD (m : store) (q : Z) : outcome Z := QUEUE_NEXT m q.

Definition QUEUE_INIT (m : store) (q : Z) : outcome store :=
  let! m := set_next m q q in
  set_prev m q q.

Definition QUEUE_ADD (m : store) (h n : Z) : outcome store :=
  let! x := QUEUE_NEXT m n in let! m := set_prev_next m h x in
  let! x := QUEUE_PREV m h in let! m := set_next_prev m n x in
  let! x := QUEUE_PREV m n in let! m := set_prev m h x in
  set_prev_next m h h.

Definition QUEUE_SPLIT (m : store) (h q n : Z) : outcome store :=
  let! x := QUEUE_PREV m h in let! m := set_prev m n x in
  let! m := set_prev_next m n n in
  let! m := set_next m n q in
  let! x := QUEUE_PREV m q in let! m := set_prev m h x in
  let! m := set_prev_next m h h in
  set_prev m q n.

Definition QUEUE_MOVE (m : store) (h n : Z) : outcome store :=
  let! e := QUEUE_EMPTY m h in
  if (e : bool) then QUEUE_INIT m n else
  let! q := QUEUE_HEAD m h in
  QUEUE_SPLIT m h q n.

Definition QUEUE_INSERT_HEAD (m : store) (h q : Z) : outcome store :=
  let! x := QUEUE_NEXT m h in let! m := set_next m q x in
  let! m := set_prev m q h in
  let! m := set_next_prev m q q in
  set_next m h q.

Definition QUEUE_INSERT_TAIL (m : store) (h q : Z) : outcome store :=
  let! m := set_next m q h in
  let! x := QUEUE_PREV m h in let! m := set_prev m q x in
  let! m := set_prev_next m q q in
  set_prev m h q.

Definition QUEUE_REMOVE (m : store) (q : Z) : outcome store :=
  let! x := QUEUE_NEXT m q in let! m := set_prev_next m q x in
  let! x := QUEUE_PREV m q in set_next_prev m q x.

(** The nodes that [QUEUE_FOREACH] visits. *)
Fixpoint foreach_loop (fuel : nat) (m : store) (q h : Z) : outcome (list Z) :=
  if q =? h then Ret [] else
  match fuel with
  | O => OutOfFuel
  | S fuel =>
    let! n := QUEUE_NEXT m q in
    let! l := foreach_loop fuel m n h in
    Ret (q :: l)
  end.
Definition QUEUE_FOREACH (fuel : nat) (m : store) (h : Z) : outcome (list Z) :=
  let! q := QUEUE_NEXT m h in foreach_loop fuel m q h.

(** ** Rings *)
Section rings.
Implicit Types (m : store) (x y z h q n p : Z) (l xs ys : list Z).

Definition next m q : option Z := fst <$> m !! q.
Definition prev m q : option Z := snd <$> m !! q.

(** [seg m x l y]: from [x] over the nodes [l] to [y], linked both ways. *)
Fixpoint seg m x l y : Prop :=
  match l with
  | [] => next m x = Some y /\ prev m y = Some x
  | z :: l => next m x = Some z /\ prev m z = Some x /\ seg m z l y
  end.

(** The queue with head [h] holds the nodes [xs]. *)
Definition ring m h xs : Prop := NoDup (h :: xs) /\ seg m h xs h.

(** The store changes at the nodes of [l] only, and no node comes or goes. *)
Definition changes l m m' : Prop :=
  (forall x, x ∉ l -> m' !! x = m !! x) /\ (forall x, is_Some (m !! x) -> is_Some (m' !! x)).

Lemma changes_refl l m : changes l m m.
Proof. done. Qed.
Lemma changes_trans l m1 m2 m3 : changes l m1 m2 -> changes l m2 m3 -> changes l m1 m3.
Proof. intros [A1 B1] [A2 B2]. split; [|by auto]. intros x Hx. by rewrite A2, A1. Qed.
Lemma changes_mono l l' m m' : changes l m m' -> l ⊆ l' -> changes l' m m'.
Proof. intros [A B] Hl. split; [|done]. intros x Hx. apply A. by intros ?%Hl. Qed.
Lemma changes_insert l m q v : q ∈ l -> is_Some (m !! q) -> changes l m (<[q := v]> m).
Proof.
  intros Hq Hm. split.
  - intros x Hx. rewrite lookup_insert_ne; [done|]. by intros ->.
  - intros x Hx. destruct (decide (q = x)) as [->|]; [by rewrite lookup_insert_eq|by rewrite lookup_insert_ne].
Qed.

Lemma next_insert m q v x : next (<[q := v]> m) x = if decide (q = x) then Some v.1 else next m x.
Proof. unfold next. destruct (decide (q = x)) as [->|]; [by rewrite lookup_insert_eq|by rewrite lookup_insert_ne]. Qed.
Lemma prev_insert m q v x : prev (<[q := v]> m) x = if decide (q = x) then Some v.2 else prev m x.
Proof. unfold prev. destruct (decide (q = x)) as [->|]; [by rewrite lookup_insert_eq|by rewrite lookup_insert_ne]. Qed.

Lemma seg_frame m m' x l y :
  seg m x l y -> (forall z, z ∈ x :: l -> next m' z = next m z) ->
  (forall z, z ∈ l ++ [y] -> prev m' z = prev m z) -> seg m' x l y.
Proof.
  revert x. induction l as [|z l IH]; intros x Hs Hn Hp; cbn [seg app] in *.
  - rewrite Hn, Hp by set_solver. done.
  - destruct Hs as (H1 & H2 & H3). rewrite Hn, Hp by set_solver. split_and!; [done..|].
    apply IH; [done|set_solver..].
Qed.

Lemma ring_same m m' h xs : ring m h xs -> (forall x, x ∈ h :: xs -> m' !! x = m !! x) -> ring m' h xs.
Proof.
  intros [Hd Hs] Hl. split; [done|]. eapply seg_frame; [exact Hs|..]; intros z Hz; unfold next, prev; by rewrite Hl by set_solver.
Qed.
Lemma ring_frame m m' h xs l : ring m h xs -> changes l m m' -> (forall x, x ∈ l -> x ∉ h :: xs) -> ring m' h xs.
Proof. intros Hr [Hc _] Hl. eapply ring_same; [exact Hr|]. intros x Hx. apply Hc. intros Hx'. by apply (Hl x). Qed.

Lemma seg_app m x l1 z l2 y : seg m x (l1 ++ z :: l2) y <-> seg m x l1 z /\ seg m z l2 y.
Proof.
  revert x. induction l1 as [|a l1 IH]; intros x; cbn [seg app]; [tauto|]. rewrite IH. tauto.
Qed.

(** The node before the end and the node after the start. *)
Lemma seg_last m x l y : seg m x l y -> exists l' p, x :: l = l' ++ [p] /\ next m p = Some y /\ prev m y = Some p.
Proof.
  revert x. induction l as [|z l IH]; intros x Hs; cbn [seg] in Hs.
  - by exists [], x.
  - destruct Hs as (_ & _ & Hs). destruct (IH z Hs) as (l' & p & E1 & Hp). exists (x :: l'), p. by rewrite E1.
Qed.
Lemma seg_first m x l y : seg m x l y -> exists z, z ∈ l ++ [y] /\ next m x = Some z /\ prev m z = Some x.
Proof.
  destruct l as [|z l]; cbn [seg app]; intros Hs; [exists y|exists z]; (split; [set_solver|tauto]).
Qed.
(** The last node gets another successor. *)
Lemma seg_end m m' x l y y' p :
  seg m x l y -> NoDup (x :: l) -> last (x :: l) = Some p -> next m' p = Some y' -> prev m' y' = Some p ->
  (forall z, z ∈ x :: l -> z <> p -> next m' z = next m z) -> (forall z, z ∈ l -> prev m' z = prev m z) ->
  seg m' x l y'.
Proof.
  revert x. induction l as [|a l IH]; intros x Hs Hd Hl Hn Hp Hnext Hprev; cbn [seg] in *.
  - cbn in Hl. by simplify_eq.
  - destruct Hs as (H1 & H2 & Hs). rewrite last_cons_cons in Hl. apply NoDup_cons in Hd as [Hx Hd].
    assert (x <> p) as Hxp by (intros ->; by apply Hx, last_Some_elem_of).
    rewrite Hnext, Hprev by (done || set_solver). split_and!; [done..|].
    apply IH; try done; intros z Hz; [|set_solver]. intros. apply Hnext; [set_solver|done].
Qed.

(** The first node gets another predecessor. *)
Lemma seg_start m m' x x' l y f :
  seg m x l y -> NoDup (l ++ [y]) -> head (l ++ [y]) = Some f -> next m' x' = Some f -> prev m' f = Some x' ->
  (forall z, z ∈ l -> next m' z = next m z) -> (forall z, z ∈ l ++ [y] -> z <> f -> prev m' z = prev m z) ->
  seg m' x' l y.
Proof.
  intros Hs Hd Hf Hn Hp Hnext Hprev. destruct l as [|a l]; cbn [seg app head] in *; simplify_eq; [done|].
  destruct Hs as (_ & _ & Hs). apply NoDup_cons in Hd as [Ha _]. split_and!; [done..|].
  eapply seg_frame; [exact Hs|done|]. intros z Hz. apply Hprev; [set_solver|]. by intros ->.
Qed.

Lemma seg_succ m x l y f : seg m x l y -> head (l ++ [y]) = Some f -> next m x = Some f /\ prev m f = Some x.
Proof. destruct l as [|a l]; cbn [seg app head]; intros Hs [= <-]; tauto. Qed.

Lemma seg_pred m x l y p : seg m x l y -> last (x :: l) = Some p -> next m p = Some y /\ prev m y = Some p.
Proof.
  revert x. induction l as [|a l IH]; intros x Hs Hl; cbn [seg] in *.
  - cbn in Hl. by simplify_eq.
  - destruct Hs as (_ & _ & Hs). rewrite last_cons_cons in Hl. by apply (IH a).
Qed.

Lemma seg_is_Some m x l y z : seg m x l y -> z ∈ x :: l ++ [y] -> is_Some (m !! z).
Proof.
  revert x. induction l as [|a l IH]; intros x Hs Hz; cbn [seg app] in *.
  - destruct Hs as [H1 H2]. unfold next, prev in *.
    apply fmap_Some in H1 as (? & H1 & _), H2 as (? & H2 & _).
    apply elem_of_cons in Hz as [->|Hz]; [by eexists|]. apply list_elem_of_singleton in Hz as ->. by eexists.
  - destruct Hs as (H1 & _ & Hs). apply elem_of_cons in Hz as [->|Hz]; [|by eapply IH].
    unfold next in H1. apply fmap_Some in H1 as (? & H1 & _). by eexists.
Qed.

Lemma ring_node m h xs x : ring m h xs -> x ∈ h :: xs -> is_Some (m !! x).
Proof. intros [_ Hs] Hx. eapply seg_is_Some; [exact Hs|set_solver]. Qed.

(** ** The assignments *)
Lemma next_ok m q n : next m q = Some n -> QUEUE_NEXT m q = Ret n.
Proof. unfold next, QUEUE_NEXT. by intros (v & -> & ->)%fmap_Some. Qed.
Lemma prev_ok m q n : prev m q = Some n -> QUEUE_PREV m q = Ret n.
Proof. unfold prev, QUEUE_PREV. by intros (v & -> & ->)%fmap_Some. Qed.

(** [m'] is [m] with one word changed. *)
Definition next_set m q x m' : Prop :=
  (forall z, next m' z = if decide (q = z) then Some x else next m z) /\ (forall z, prev m' z = prev m z) /\
  changes [q] m m'.
Definition prev_set m q x m' : Prop :=
  (forall z, prev m' z = if decide (q = z) then Some x else prev m z) /\ (forall z, next m' z = next m z) /\
  changes [q] m m'.

Lemma set_next_ok m q x : is_Some (m !! q) -> exists m', set_next m q x = Ret m' /\ next_set m q x m'.
Proof.
  intros [v Hv]. unfold set_next. rewrite Hv. eexists. split; [done|]. split_and!.
  - intros z. by rewrite next_insert.
  - intros z. rewrite prev_insert. case_decide as Hz; [|done]. subst z. unfold prev. by rewrite Hv.
  - apply changes_insert; [set_solver|by eexists].
Qed.
Lemma set_prev_ok m q x : is_Some (m !! q) -> exists m', set_prev m q x = Ret m' /\ prev_set m q x m'.
Proof.
  intros [v Hv]. unfold set_prev. rewrite Hv. eexists. split; [done|]. split_and!.
  - intros z. by rewrite prev_insert.
  - intros z. rewrite next_insert. case_decide as Hz; [|done]. subst z. unfold next. by rewrite Hv.
  - apply changes_insert; [set_solver|by eexists].
Qed.

Lemma next_is_Some m q n : next m q = Some n -> is_Some (m !! q).
Proof. unfold next. intros (v & -> & _)%fmap_Some. by eexists. Qed.
Lemma prev_is_Some m q n : prev m q = Some n -> is_Some (m !! q).
Proof. unfold prev. intros (v & -> & _)%fmap_Some. by eexists. Qed.
End rings.

(** Evaluates the words that are known in a store that was changed one word
    at a time. *)
Ltac words := repeat match goal with
  | H : next_set _ _ _ ?m |- context [next ?m _] => rewrite (proj1 H)
  | H : next_set _ _ _ ?m |- context [prev ?m _] => rewrite (proj1 (proj2 H))
  | H : prev_set _ _ _ ?m |- context [prev ?m _] => rewrite (proj1 H)
  | H : prev_set _ _ _ ?m |- context [next ?m _] => rewrite (proj1 (proj2 H))
  | |- context [decide (?x = ?x)] => rewrite (decide_True (P := x = x)) by reflexivity
  | H : ?x <> ?y |- context [decide (?x = ?y)] => rewrite (decide_False (P := x = y)) by exact H
  | H : ?x <> ?y |- context [decide (?y = ?x)] => rewrite (decide_False (P := y = x)) by (apply not_eq_sym; exact H)
  end.
(** The nodes stay allocated. *)
Ltac allocated := repeat match goal with
  | H : next_set _ _ _ ?m |- is_Some (?m !! _) => apply (proj2 (proj2 (proj2 H)))
  | H : prev_set _ _ _ ?m |- is_Some (?m !! _) => apply (proj2 (proj2 (proj2 H)))
  end; first [assumption | eapply next_is_Some; eassumption | eapply prev_is_Some; eassumption].
(** Runs one assignment or read. *)
Ltac word_step := match goal with
  | |- context [mbind _ (set_next ?m ?q ?x)] =>
    let m' := fresh "m" in let E := fresh "E" in let H := fresh "W" in
    destruct (set_next_ok m q x) as (m' & E & H); [allocated|rewrite E, ret_bind; clear E]
  | |- context [mbind _ (set_prev ?m ?q ?x)] =>
    let m' := fresh "m" in let E := fresh "E" in let H := fresh "W" in
    destruct (set_prev_ok m q x) as (m' & E & H); [allocated|rewrite E, ret_bind; clear E]
  | |- context [set_next ?m ?q ?x = Ret _] =>
    let m' := fresh "m" in let E := fresh "E" in let H := fresh "W" in
    destruct (set_next_ok m q x) as (m' & E & H); [allocated|rewrite E; clear E]
  | |- context [set_prev ?m ?q ?x = Ret _] =>
    let m' := fresh "m" in let E := fresh "E" in let H := fresh "W" in
    destruct (set_prev_ok m q x) as (m' & E & H); [allocated|rewrite E; clear E]
  | |- context [mbind _ (QUEUE_NEXT ?m ?q)] =>
    erewrite (next_ok m q) by (words; eassumption || reflexivity); rewrite ret_bind
  | |- context [mbind _ (QUEUE_PREV ?m ?q)] =>
    erewrite (prev_ok m q) by (words; eassumption || reflexivity); rewrite ret_bind
  end.
Ltac words_run := repeat word_step.
Ltac changed := repeat match goal with
  | H : next_set _ _ _ ?m' |- changes _ _ ?m' =>
    eapply changes_trans; [|eapply changes_mono; [apply (proj2 (proj2 H))|set_solver]]
  | H : prev_set _ _ _ ?m' |- changes _ _ ?m' =>
    eapply changes_trans; [|eapply changes_mono; [apply (proj2 (proj2 H))|set_solver]]
  end; apply changes_refl.
(** A segment none of whose words was changed. *)
Ltac framed H := eapply seg_frame; [exact H| |]; let z := fresh "z" in let Hz := fresh "Hz" in
  intros z Hz; words; repeat (rewrite decide_False by set_solver); reflexivity.

(** Words of nodes other than the changed ones. *)
Ltac unchanged := intros; words; repeat (rewrite decide_False by set_solver); reflexivity.

(** ** What the macros do to rings *)
Section macros.
Implicit Types (m : store) (h q n : Z) (l xs ys : list Z).

Lemma QUEUE_INIT_ok m q : is_Some (m !! q) ->
  exists m', QUEUE_INIT m q = Ret m' /\ ring m' q [] /\ changes [q] m m'.
Proof.
  intros Hq. unfold QUEUE_INIT. words_run. eexists. split; [done|]. split.
  - split; [apply NoDup_singleton|]. cbn [seg]. by words.
  - eapply changes_trans; [apply W|apply W0].
Qed.

Lemma QUEUE_HEAD_ok m h xs : ring m h xs -> QUEUE_HEAD m h = Ret (default h (head xs)).
Proof. intros [_ Hs]. apply next_ok. destruct xs; apply Hs. Qed.

Lemma QUEUE_EMPTY_ok m h xs : ring m h xs -> QUEUE_EMPTY m h = Ret (bool_decide (xs = [])).
Proof.
  intros [Hd Hs]. unfold QUEUE_EMPTY. destruct xs as [|x xs]; cbn [seg] in Hs.
  - rewrite (next_ok _ _ _ (proj1 Hs)), ret_bind, Z.eqb_refl. by rewrite bool_decide_true.
  - rewrite (next_ok _ _ _ (proj1 Hs)), ret_bind, bool_decide_false by done.
    destruct (Z.eqb_spec h x); [|done]. subst. apply NoDup_cons in Hd as [Hd _]. set_solver.
Qed.

(** Where one ring can be cut in two. *)
Lemma ring_cut h xs ys : NoDup (h :: xs ++ ys) -> NoDup (h :: xs) /\ NoDup ys /\ (forall x, x ∈ ys -> x ∉ h :: xs).
Proof. rewrite app_comm_cons, NoDup_app. set_solver. Qed.

Lemma QUEUE_INSERT_TAIL_ok m h q xs :
  ring m h xs -> is_Some (m !! q) -> q ∉ h :: xs ->
  exists m', QUEUE_INSERT_TAIL m h q = Ret m' /\ ring m' h (xs ++ [q]) /\ changes (q :: h :: xs) m m'.
Proof.
  intros [Hd Hs] Hq Hn. destruct (last (h :: xs)) as [p|] eqn:Hp; [|by apply last_None in Hp].
  destruct (seg_pred _ _ _ _ _ Hs Hp) as [H1 H2]. pose proof (last_Some_elem_of _ _ Hp) as Hin.
  assert (p <> q) by (by intros ->). assert (h <> q) by set_solver.
  unfold QUEUE_INSERT_TAIL, set_prev_next. words_run. eexists. split; [done|]. split; [split|changed].
  - rewrite app_comm_cons. apply NoDup_app. split_and!; [done|set_solver|apply NoDup_singleton].
  - apply seg_app. split; [|cbn [seg]; by words]. apply (seg_end m _ h xs h q p); try done; [by words..| |].
    + unchanged.
    + apply NoDup_cons in Hd as [Hd _]. unchanged.
Qed.

Lemma QUEUE_INSERT_HEAD_ok m h q xs :
  ring m h xs -> is_Some (m !! q) -> q ∉ h :: xs ->
  exists m', QUEUE_INSERT_HEAD m h q = Ret m' /\ ring m' h (q :: xs) /\ changes (q :: h :: xs) m m'.
Proof.
  intros [Hd Hs] Hq Hn. destruct (head (xs ++ [h])) as [f|] eqn:Hf; [|by destruct xs].
  destruct (seg_succ _ _ _ _ _ Hs Hf) as [H1 H2]. assert (f ∈ xs ++ [h]) as Hin by (by apply head_Some_elem_of).
  assert (f <> q) by (intros ->; set_solver). assert (h <> q) by set_solver.
  unfold QUEUE_INSERT_HEAD, set_next_prev. words_run. eexists. split; [done|]. apply NoDup_cons in Hd as [Hh Hd].
  split; [split|changed].
  - rewrite !NoDup_cons. set_solver.
  - cbn [seg]. split_and!; [by words..|]. apply (seg_start m _ h q xs h f); try done; [|by words..| |].
    + apply NoDup_app. split_and!; [done|set_solver|apply NoDup_singleton].
    + unchanged.
    + unchanged.
Qed.

Lemma QUEUE_REMOVE_ok m h q l1 l2 :
  ring m h (l1 ++ q :: l2) ->
  exists m', QUEUE_REMOVE m q = Ret m' /\ ring m' h (l1 ++ l2) /\ changes (h :: l1 ++ l2) m m' /\ is_Some (m' !! q).
Proof.
  intros [Hd [Hs1 Hs2]%seg_app]. destruct (ring_cut _ _ _ Hd) as (Hd1 & [Hq Hd2]%NoDup_cons & Hcut).
  destruct (last (h :: l1)) as [p|] eqn:Hp; [|by apply last_None in Hp].
  destruct (head (l2 ++ [h])) as [f|] eqn:Hf; [|by destruct l2].
  destruct (seg_pred _ _ _ _ _ Hs1 Hp) as [H1 H2]. destruct (seg_succ _ _ _ _ _ Hs2 Hf) as [H3 H4].
  pose proof (last_Some_elem_of _ _ Hp) as Hinp. assert (f ∈ l2 ++ [h]) as Hinf by (by apply head_Some_elem_of).
  assert (q ∉ h :: l1) as Hq1 by (apply Hcut; set_solver). assert (p <> q) by (by intros ->).
  unfold QUEUE_REMOVE, set_next_prev, set_prev_next. words_run. eexists. split; [done|].
  assert (forall y, y = f -> seg m1 h l1 y) as Hnew.
  { intros y ->. apply (seg_end m _ h l1 q f p); try done; [by words..| |].
    + unchanged.
    + intros z Hz. words. rewrite decide_False; [done|]. intros <-. apply NoDup_cons in Hd1 as [Hh _].
      apply elem_of_app in Hinf as [Hin|Hin]; [|set_solver]. apply (Hcut f); set_solver. }
  split; [split|split; [changed|allocated]].
  - rewrite app_comm_cons. apply NoDup_app. set_solver.
  - destruct l2 as [|a l2]; cbn [app head] in Hf; injection Hf as ->; [rewrite app_nil_r; by apply Hnew|].
    apply seg_app. split; [by apply Hnew|]. destruct Hs2 as (_ & _ & Hs2).
    eapply seg_frame; [exact Hs2| |]; intros z Hz; words; (rewrite decide_False; [done|]); intros <-.
    + apply (Hcut p); set_solver.
    + apply NoDup_cons in Hd2 as [Hf _]. apply elem_of_app in Hz as [Hz|Hz]; [done|]. apply (Hcut f); set_solver.
Qed.

Lemma QUEUE_SPLIT_ok m h q n xs ys :
  ring m h (xs ++ q :: ys) -> is_Some (m !! n) -> n ∉ h :: xs ++ q :: ys ->
  exists m', QUEUE_SPLIT m h q n = Ret m' /\ ring m' h xs /\ ring m' n (q :: ys) /\
    changes (n :: h :: xs ++ q :: ys) m m'.
Proof.
  intros [Hd [Hs1 Hs2]%seg_app] Hn Hnot. destruct (ring_cut _ _ _ Hd) as (Hd1 & Hd2 & Hcut).
  destruct (last (h :: xs)) as [p|] eqn:Hp; [|by apply last_None in Hp].
  destruct (last (q :: ys)) as [b|] eqn:Hb; [|by apply last_None in Hb].
  destruct (seg_pred _ _ _ _ _ Hs1 Hp) as [H1 H2]. destruct (seg_pred _ _ _ _ _ Hs2 Hb) as [H3 H4].
  pose proof (last_Some_elem_of _ _ Hp) as Hinp. pose proof (last_Some_elem_of _ _ Hb) as Hinb.
  assert (q ∉ h :: xs) as Hq by (apply Hcut; set_solver). assert (b ∉ h :: xs) as Hb1 by (by apply Hcut).
  assert (n ∉ h :: xs) as Hn1 by set_solver. assert (n ∉ q :: ys) as Hn2 by set_solver. clear Hnot.
  assert (forall z, z ∈ h :: xs -> z ∉ q :: ys) as Hcut' by (intros z Hz Hz'; by apply (Hcut z)).
  assert (p <> q) by (by intros ->). assert (q <> h) by set_solver. assert (n <> h) by set_solver.
  assert (n <> q) by set_solver. assert (p <> n) by (by intros ->). assert (b <> n) by (by intros ->).
  assert (p <> b) by (by intros ->). assert (b <> h) by set_solver.
  unfold QUEUE_SPLIT, set_prev_next. words_run. eexists. split; [done|]. split_and!; [split..|changed]; try done.
  - apply (seg_end m _ h xs q h p); try done; [by words..| |].
    + intros z Hz ?. assert (b <> z) by (by intros ->). assert (n <> z) by (by intros ->). by words.
    + apply NoDup_cons in Hd1 as [Hh _]. intros z Hz. assert (n <> z) by set_solver. assert (h <> z) by (by intros ->).
      assert (q <> z) by set_solver. by words.
  - by apply NoDup_cons.
  - cbn [seg]. split_and!; [by words..|]. apply (seg_end m _ q ys h n b); try done; [by words..| |].
    + intros z Hz ?. assert (p <> z) by (intros ->; by apply (Hcut' z)). assert (n <> z) by (by intros ->). by words.
    + apply NoDup_cons in Hd2 as [Hqy _]. intros z Hz. assert (n <> z) by set_solver. assert (q <> z) by (by intros ->).
      assert (h <> z) by (intros ->; apply (Hcut' z); set_solver). by words.
Qed.

Lemma QUEUE_MOVE_ok m h n xs :
  ring m h xs -> is_Some (m !! n) -> n ∉ h :: xs ->
  exists m', QUEUE_MOVE m h n = Ret m' /\ ring m' h [] /\ ring m' n xs /\ changes (n :: h :: xs) m m'.
Proof.
  intros Hr Hn Hnot. unfold QUEUE_MOVE. rewrite (QUEUE_EMPTY_ok m h xs Hr), ret_bind.
  destruct xs as [|q xs]; case_bool_decide; try done.
  - destruct (QUEUE_INIT_ok m n Hn) as (m' & -> & Hr' & Hc). exists m'. split; [done|]. split; [|split; [done|]].
    + eapply ring_frame; [exact Hr|exact Hc|set_solver].
    + eapply changes_mono; [exact Hc|set_solver].
  - rewrite (QUEUE_HEAD_ok m h _ Hr), ret_bind. cbn [head default from_option].
    by apply (QUEUE_SPLIT_ok m h q n []).
Qed.

Lemma QUEUE_ADD_ok m h n xs ys :
  ring m h xs -> ring m n ys -> (forall x, x ∈ h :: xs -> x ∉ n :: ys) ->
  exists m', QUEUE_ADD m h n = Ret m' /\ ring m' h (xs ++ ys) /\ changes (n :: ys ++ h :: xs) m m'.
Proof.
  intros [Hd1 Hs1] [Hd2 Hs2] Hdis. destruct (last (h :: xs)) as [p|] eqn:Hp; [|by apply last_None in Hp].
  destruct (seg_pred _ _ _ _ _ Hs1 Hp) as [H1 H2]. pose proof (last_Some_elem_of _ _ Hp) as Hinp.
  assert (NoDup (h :: xs ++ ys)) as Hd.
  { rewrite app_comm_cons. apply NoDup_app. apply NoDup_cons in Hd2. set_solver. }
  assert (h <> n) by set_solver. assert (p <> n) by (intros ->; by apply (Hdis n); [|set_solver]).
  apply NoDup_cons in Hd1 as Hh. destruct Hh as [Hh _]. apply NoDup_cons in Hd2 as Hn. destruct Hn as [Hn Hd2'].
  unfold QUEUE_ADD, set_next_prev, set_prev_next. destruct ys as [|a ys]; cbn [seg] in Hs2.
  { destruct Hs2 as [H3 H4]. words_run. eexists. split; [done|]. rewrite app_nil_r. split; [split; [done|]|changed].
    apply (seg_end m _ h xs h h p); try done; [by words..| |].
    - intros z Hz ?. assert (p <> z) by done. by words.
    - intros z Hz. assert (h <> z) by (by intros ->). assert (n <> z) by (intros ->; apply (Hdis z); set_solver). by words. }
  destruct Hs2 as (H3 & H4 & Hs2). destruct (last (a :: ys)) as [b|] eqn:Hb; [|by apply last_None in Hb].
  destruct (seg_pred _ _ _ _ _ Hs2 Hb) as [H5 H6]. pose proof (last_Some_elem_of _ _ Hb) as Hinb.
  assert (forall z, z ∈ h :: xs -> z ∉ a :: ys) as Hdis' by set_solver.
  assert (a <> n) by set_solver. assert (a <> h) by (intros ->; apply (Hdis' h); set_solver).
  assert (p <> a) by (intros ->; apply (Hdis' a); set_solver). assert (p <> b) by (intros ->; by apply (Hdis' b)).
  assert (b <> n) by (by intros ->). assert (b <> h) by (intros ->; apply (Hdis' h); set_solver).
  words_run. eexists. split; [done|]. split; [split; [done|]|changed]. apply seg_app. split.
  - apply (seg_end m _ h xs h a p); try done; [by words..| |].
    + intros z Hz ?. assert (b <> z) by (intros ->; by apply (Hdis' z)). by words.
    + intros z Hz. assert (h <> z) by (by intros ->). assert (a <> z) by (intros ->; apply (Hdis' z); set_solver). by words.
  - apply (seg_end m _ a ys n h b); try done; [by words..| |].
    + intros z Hz ?. assert (p <> z) by (intros ->; by apply (Hdis' z)). by words.
    + apply NoDup_cons in Hd2' as [Ha _]. intros z Hz. assert (a <> z) by (by intros ->).
      assert (h <> z) by (intros ->; apply (Hdis' z); set_solver). by words.
Qed.

(** The loop visits the nodes in order. *)
Lemma foreach_loop_ok m h l : forall x fuel, seg m x l h -> h ∉ l -> (length l <= fuel)%nat ->
  exists f, next m x = Some f /\ foreach_loop fuel m f h = Ret l.
Proof.
  induction l as [|a l IH]; intros x fuel Hs Hh Hf; cbn [seg length] in *.
  - exists h. split; [apply Hs|]. destruct fuel; cbn [foreach_loop]; by rewrite Z.eqb_refl.
  - destruct Hs as (H1 & _ & Hs), fuel as [|fuel]; [lia|]. exists a. split; [done|]. cbn [foreach_loop].
    destruct (Z.eqb_spec a h); [set_solver|]. destruct (IH a fuel Hs) as (f & Hf' & El); [set_solver|lia|].
    by rewrite (next_ok _ _ _ Hf'), ret_bind, El, ret_bind.
Qed.

Lemma QUEUE_FOREACH_ok m h xs fuel : ring m h xs -> (length xs <= fuel)%nat -> QUEUE_FOREACH fuel m h = Ret xs.
Proof.
  intros [[Hh Hd]%NoDup_cons Hs] Hf. destruct (foreach_loop_ok m h xs h fuel Hs Hh Hf) as (n & Hn & El).
  unfold QUEUE_FOREACH. by rewrite (next_ok _ _ _ Hn), ret_bind.
Qed.
End macros.

(** ** Sessions on several queues

    What a client of the macros may do, and what it sees: [queues] maps the
    head of each queue to the nodes it holds; a node is in at most one
    queue. *)
Notation queues := (gmap Z (list Z)).

Inductive op :=
| Init (h : Z) | Insert_head (h q : Z) | Insert_tail (h q : Z) | Remove (q : Z)
| Add (h n : Z) | Split (h q n : Z) | Move (h n : Z)
| Is_empty (h : Z) | Head (h : Z) | Foreach (h : Z).

Inductive answer := Done | Answer (b : bool) | Node (q : Z) | Nodes (l : list Z).

(** [QUEUE_FOREACH] is given one round for each node of the store. *)
Definition run_op (m : store) (o : op) : outcome (answer * store) :=
  let change (r : outcome store) := let! m := r in Ret (Done, m) in
  match o with
  | Init h => change (QUEUE_INIT m h)
  | Insert_head h q => change (QUEUE_INSERT_HEAD m h q)
  | Insert_tail h q => change (QUEUE_INSERT_TAIL m h q)
  | Remove q => change (QUEUE_REMOVE m q)
  | Add h n => change (QUEUE_ADD m h n)
  | Split h q n => change (QUEUE_SPLIT m h q n)
  | Move h n => change (QUEUE_MOVE m h n)
  | Is_empty h => let! b := QUEUE_EMPTY m h in Ret (Answer b, m)
  | Head h => let! q := QUEUE_HEAD m h in Ret (Node q, m)
  | Foreach h => let! l := QUEUE_FOREACH (size m) m h in Ret (Nodes l, m)
  end.

Fixpoint run_ops (m : store) (os : list op) : outcome (list answer * store) :=
  match os with
  | [] => Ret ([], m)
  | o :: os => let! (a, m) := run_op m o in let! (l, m) := run_ops m os in Ret (a :: l, m)
  end.

Section sessions.
Context (U : gset Z).
Implicit Types (m : store) (A : queues) (h q n z : Z) (xs ys : list Z).

Definition unused A z : Prop := z ∈ U /\ forall h xs, A !! h = Some xs -> z ∉ h :: xs.

(** The contract, on lists. *)
Inductive allowed A : op -> answer -> queues -> Prop :=
| a_init h : unused A h -> allowed A (Init h) Done (<[h := []]> A)
| a_insert_head h q xs : A !! h = Some xs -> unused A q -> allowed A (Insert_head h q) Done (<[h := q :: xs]> A)
| a_insert_tail h q xs : A !! h = Some xs -> unused A q -> allowed A (Insert_tail h q) Done (<[h := xs ++ [q]]> A)
| a_remove h q l1 l2 : A !! h = Some (l1 ++ q :: l2) -> allowed A (Remove q) Done (<[h := l1 ++ l2]> A)
| a_add h n xs ys : A !! h = Some xs -> A !! n = Some ys -> h <> n ->
    allowed A (Add h n) Done (<[h := xs ++ ys]> (delete n A))
| a_split h q n xs ys : A !! h = Some (xs ++ q :: ys) -> unused A n ->
    allowed A (Split h q n) Done (<[n := q :: ys]> (<[h := xs]> A))
| a_move h n xs : A !! h = Some xs -> unused A n -> allowed A (Move h n) Done (<[n := xs]> (<[h := []]> A))
| a_empty h xs : A !! h = Some xs -> allowed A (Is_empty h) (Answer (bool_decide (xs = []))) A
| a_head h q xs : A !! h = Some (q :: xs) -> allowed A (Head h) (Node q) A
| a_foreach h xs : A !! h = Some xs -> allowed A (Foreach h) (Nodes xs) A.

Inductive session : queues -> list op -> list answer -> Prop :=
| s_nil A : session A [] []
| s_cons A o a A' os l : allowed A o a A' -> session A' os l -> session A (o :: os) (a :: l).

Record rep m A : Prop := {
  rep_ring : forall h xs, A !! h = Some xs -> ring m h xs;
  rep_apart : forall h h' xs ys z, A !! h = Some xs -> A !! h' = Some ys -> z ∈ h :: xs -> z ∈ h' :: ys -> h = h';
  rep_nodes : forall z, z ∈ U -> is_Some (m !! z)
}.

Lemma rep_put m m' A h xs l :
  rep m A -> ring m' h xs -> changes l m m' ->
  (forall z h' ys, z ∈ l \/ z ∈ h :: xs -> A !! h' = Some ys -> z ∈ h' :: ys -> h' = h) ->
  rep m' (<[h := xs]> A).
Proof.
  intros [Hr Ha Hn] Hring Hc Hl. split.
  - intros h' ys [[<- <-]|[Hne Hh]]%lookup_insert_Some; [done|]. eapply ring_frame; [by apply Hr|exact Hc|].
    intros z Hz Hz'. destruct Hne. symmetry. by eapply Hl; [left|..].
  - intros h1 h2 ys1 ys2 z [[<- <-]|[Hne1 H1]]%lookup_insert_Some [[<- <-]|[Hne2 H2]]%lookup_insert_Some Hz1 Hz2;
      [done|symmetry; eapply Hl; eauto|eapply Hl; eauto|eauto].
  - intros z Hz. by apply Hc, Hn.
Qed.

Lemma rep_delete m A h : rep m A -> rep m (delete h A).
Proof.
  intros [Hr Ha Hn]. split; [|  |done].
  - intros h' ys [_ Hh]%lookup_delete_Some. by apply Hr.
  - intros h1 h2 ys1 ys2 z [_ H1]%lookup_delete_Some [_ H2]%lookup_delete_Some. eauto.
Qed.

Lemma ring_nodes m h xs : ring m h xs -> (length xs <= size m)%nat.
Proof.
  intros [[_ Hd]%NoDup_cons Hs]. rewrite <- size_dom, <- (size_list_to_set (C := gset Z)) by done.
  apply subseteq_size. intros z Hz%elem_of_list_to_set. apply elem_of_dom. eapply seg_is_Some; [exact Hs|set_solver].
Qed.

(** A queue is cut in two, the rest goes under a new head. *)
Lemma rep_cut m m' A h n xs ys :
  rep m A -> A !! h = Some (xs ++ ys) -> (forall h' zs, A !! h' = Some zs -> n ∉ h' :: zs) ->
  ring m' h xs -> ring m' n ys -> changes (n :: h :: xs ++ ys) m m' -> rep m' (<[n := ys]> (<[h := xs]> A)).
Proof.
  intros Hrep Hh Hun Hr1 Hr2 Hc. pose proof Hrep as [Hr Ha Hn]. destruct (Hr _ _ Hh) as [Hd _].
  destruct (ring_cut _ _ _ Hd) as (_ & _ & Hcut). pose proof (Hun _ _ Hh) as Hnh.
  eapply (rep_put m' m' _ n ys []); [|done|apply changes_refl|].
  - eapply rep_put; [done..|]. intros z h' zs Hz Hh' Hin.
    destruct (decide (z = n)) as [->|]; [by destruct (Hun h' zs Hh')|].
    eapply (Ha h' h zs _ z); [done..|set_solver].
  - intros z h' zs [?%not_elem_of_nil|Hz] [[<- <-]|[Hne Hh']]%lookup_insert_Some Hin; [done|done| |].
    + apply elem_of_cons in Hz as [->|Hz]; [set_solver|by destruct (Hcut z)].
    + apply elem_of_cons in Hz as [->|Hz]; [by destruct (Hun h' zs Hh')|].
      destruct Hne. eapply (Ha h h' _ zs z); [done..|set_solver|done].
Qed.

Lemma run_op_ok m A o a A' :
  rep m A -> allowed A o a A' -> exists m', run_op m o = Ret (a, m') /\ rep m' A'.
Proof.
  intros Hrep Hall. pose proof Hrep as [Hr Ha Hn].
  destruct Hall as [h [Hu Hun]|h q xs Hh [Hu Hun]|h q xs Hh [Hu Hun]|h q l1 l2 Hh|h n xs ys Hh Hn' Hne
    |h q n xs ys Hh [Hu Hun]|h n xs Hh [Hu Hun]|h xs Hh|h q xs Hh|h xs Hh]; cbn [run_op].
  - destruct (QUEUE_INIT_ok m h (Hn _ Hu)) as (m' & -> & Hring & Hc). rewrite ret_bind. exists m'. split; [done|].
    eapply rep_put; [done..|]. intros z h' ys Hz Hh' Hin. destruct (Hun h' ys Hh'). set_solver.
  - destruct (QUEUE_INSERT_HEAD_ok m h q xs) as (m' & -> & Hring & Hc); [by apply Hr|by apply Hn|by eapply Hun|].
    rewrite ret_bind. exists m'. split; [done|]. eapply rep_put; [done..|].
    intros z h' ys Hz Hh' Hin. destruct (decide (z = q)) as [->|]; [by destruct (Hun h' ys Hh')|].
    eapply (Ha h' h ys xs z); [done..|set_solver].
  - destruct (QUEUE_INSERT_TAIL_ok m h q xs) as (m' & -> & Hring & Hc); [by apply Hr|by apply Hn|by eapply Hun|].
    rewrite ret_bind. exists m'. split; [done|]. eapply rep_put; [done..|].
    intros z h' ys Hz Hh' Hin. destruct (decide (z = q)) as [->|]; [by destruct (Hun h' ys Hh')|].
    eapply (Ha h' h ys xs z); [done..|set_solver].
  - destruct (QUEUE_REMOVE_ok m h q l1 l2) as (m' & -> & Hring & Hc & _); [by apply Hr|].
    rewrite ret_bind. exists m'. split; [done|]. eapply rep_put; [done..|].
    intros z h' ys Hz Hh' Hin. eapply (Ha h' h ys _ z); [done..|set_solver].
  - destruct (QUEUE_ADD_ok m h n xs ys) as (m' & -> & Hring & Hc); [by apply Hr|by apply Hr|..].
    { intros z Hz Hz'. destruct Hne. by eapply (Ha h n xs ys z). }
    rewrite ret_bind. exists m'. split; [done|]. eapply rep_put; [by apply rep_delete|done..|].
    intros z h' zs Hz [Hne' Hh']%lookup_delete_Some Hin.
    assert (z ∈ h :: xs \/ z ∈ n :: ys) as [Hz'|Hz'] by set_solver.
    + by eapply (Ha h' h zs xs z).
    + destruct Hne'. by eapply (Ha n h' ys zs z).
  - destruct (QUEUE_SPLIT_ok m h q n xs ys) as (m' & -> & Hring1 & Hring2 & Hc); [by apply Hr|by apply Hn|by eapply Hun|].
    rewrite ret_bind. exists m'. split; [done|]. by eapply rep_cut.
  - destruct (QUEUE_MOVE_ok m h n xs) as (m' & -> & Hring1 & Hring2 & Hc); [by apply Hr|by apply Hn|by eapply Hun|].
    rewrite ret_bind. exists m'. split; [done|]. by eapply (rep_cut m m' A h n []).
  - rewrite (QUEUE_EMPTY_ok m h xs), ret_bind by auto. by exists m.
  - rewrite (QUEUE_HEAD_ok m h (q :: xs)), ret_bind by auto. by exists m.
  - rewrite (QUEUE_FOREACH_ok m h xs), ret_bind by (eauto using ring_nodes). by exists m.
Qed.

Lemma session_ok A os l : session A os l -> forall m, rep m A -> exists m', run_ops m os = Ret (l, m').
Proof.
  induction 1 as [A|A o a A' os l Hall _ IH]; intros m Hrep; cbn [run_ops]; [by eexists|].
  destruct (run_op_ok m A o a A' Hrep Hall) as (m1 & -> & Hrep'). rewrite ret_bind.
  destruct (IH m1 Hrep') as (m' & ->). rewrite ret_bind. by eexists.
Qed.

(** C31.  The macros of [queue.h] implement queues: a session on any number
    of queues, in a store that holds the nodes [U] with any contents, that
    keeps each node in at most one queue, gets from the pointers exactly the
    answers it would get from lists; no pointer is followed that leads
    nowhere.  [QUEUE_ADD] and [QUEUE_MOVE] of an empty queue are included. *)
Theorem queues_refine_lists m os l :
  (forall z, z ∈ U -> is_Some (m !! z)) -> session ∅ os l -> exists m', run_ops m os = Ret (l, m').
Proof.
  intros HU Hs. apply (session_ok ∅ os l Hs). split; [|  |done]; intros *; by rewrite lookup_empty.
Qed.
End sessions.

(** ** A run *)
Section run.
Definition demo_store : store := list_to_map (map (fun z => (z, (0, 0))) [1; 2; 10; 11; 12]).
Definition demo_ops : list op :=
  [Init 1; Is_empty 1; Insert_tail 1 10; Insert_tail 1 11; Insert_head 1 12; Foreach 1; Split 1 10 2; Foreach 1; Foreach 2;
   Remove 10; Head 2; Add 1 2; Foreach 1; Move 1 2; Is_empty 1; Foreach 2].
Definition demo_answers : list answer :=
  [Done; Answer true; Done; Done; Done; Nodes [12; 10; 11]; Done; Nodes [12]; Nodes [10; 11];
   Done; Node 11; Done; Nodes [12; 11]; Done; Answer true; Nodes [12; 11]].

Lemma unused_check U (A : queues) z : z ∈ U -> map_Forall (fun h xs => z ∉ h :: xs) A -> unused U A z.
Proof. by split. Qed.
Ltac fresh_node := apply unused_check; vm_decide.

Lemma demo_session : session {[1; 2; 10; 11; 12]} ∅ demo_ops demo_answers.
Proof.
  unfold demo_ops, demo_answers.
  eapply s_cons; [apply (a_init _ _ 1); fresh_node|].
  eapply s_cons; [by apply (a_empty _ _ 1 [])|].
  eapply s_cons; [by apply (a_insert_tail _ _ 1 10 []); [|fresh_node]|].
  eapply s_cons; [by apply (a_insert_tail _ _ 1 11 [10]); [|fresh_node]|].
  eapply s_cons; [by apply (a_insert_head _ _ 1 12 [10; 11]); [|fresh_node]|].
  eapply s_cons; [by apply (a_foreach _ _ 1 [12; 10; 11])|].
  eapply s_cons; [by apply (a_split _ _ 1 10 2 [12] [11]); [|fresh_node]|].
  eapply s_cons; [by apply (a_foreach _ _ 1 [12])|].
  eapply s_cons; [by apply (a_foreach _ _ 2 [10; 11])|].
  eapply s_cons; [by apply (a_remove _ _ 2 10 [] [11])|].
  eapply s_cons; [by apply (a_head _ _ 2 11 [])|].
  eapply s_cons; [by apply (a_add _ _ 1 2 [12] [11])|].
  eapply s_cons; [by apply (a_foreach _ _ 1 [12; 11])|].
  eapply s_cons; [by apply (a_move _ _ 1 2 [12; 11]); [|fresh_node]|].
  eapply s_cons; [by apply (a_empty _ _ 1 [])|].
  eapply s_cons; [by apply (a_foreach _ _ 2 [12; 11])|]. apply s_nil.
Qed.

Lemma queues_refine_lists_witness : exists m', run_ops demo_store demo_ops = Ret (demo_answers, m').
Proof.
  refine (queues_refine_lists {[1; 2; 10; 11; 12]} demo_store demo_ops demo_answers _ demo_session).
  intros z Hz. apply elem_of_dom. revert z Hz. vm_decide.
Defined.
End run.

