(* ===== verification/Mq.v ===== *)
(** * The message queue

    [base/mq.c]: a FIFO in a circular array that doubles when it is full.
    Without [MQ_THREAD_SAFE] the lock macros are empty; with it every
    operation is the same code inside one critical section.  The queue is
    exported through the interface [FifoQueue], against which its client
    [base/chan.c] is verified. *)

From stdpp Require Import base tactics numbers list option.
From Stdlib Require Import Lia.
From S2P Require Import Prelude.

(** ** The interface of a FIFO *)

(** [fq_pop] gives [None] on an empty queue. *)
Class FifoQueue (Q E : Type) := {
  fq_create : Z -> outcome Q;
  fq_count : Q -> outcome Z;
  fq_push : Q -> E -> outcome Q;
  fq_pop : Q -> outcome (option E * Q)
}.

(** The promise: the queue holds a sequence of elements of at most [bound]. *)
Class FifoLaws (Q E : Type) `{FifoQueue Q E} (bound : Z) := {
  fq_holds : Q -> list E -> Prop;
  fq_create_ok n : 0 < n <= bound -> exists q, fq_create n = Ret q /\ fq_holds q [];
  fq_count_ok q l : fq_holds q l -> fq_count q = Ret (zlen l);
  fq_push_ok q l x : fq_holds q l -> zlen l < bound ->
    exists q', fq_push q x = Ret q' /\ fq_holds q' (l ++ [x]);
  fq_pop_nil q : fq_holds q [] -> exists q', fq_pop q = Ret (None, q') /\ fq_holds q' [];
  fq_pop_cons q x l : fq_holds q (x :: l) ->
    exists q', fq_pop q = Ret (Some x, q') /\ fq_holds q' l
}.

(** ** The implementation *)
Record msg := mkMsg { ud : Z; msg_sz : Z }.
Record mq := mkMq { head : Z; tail : Z; cap : Z; q : list msg }.

Definition sizeof_mq : Z := 24.
Definition sizeof_msg : Z := 16.
Definition zero_msg : msg := mkMsg 0 0.

Section mq.
Context `{Allocator}.

(** [for (i = 0; i < q->cap; i++) nq[i] = q->q[(q->head + i) % q->cap]]. *)
Fixpoint expand_loop (n : nat) (m : mq) (i : Z) (nq : list msg) : outcome (list msg) :=
  match n with
  | O => Ret nq
  | S n =>
    let! h := sint (head m + i) in
    let! x := arr_get (q m) (Z.rem h (cap m)) in
    let! nq := arr_set nq i x in
    expand_loop n m (i + 1) nq
  end.

Definition mq_expand (m : mq) : outcome mq :=
  c_assert (head m =? tail m) ;;
  let! ncap := sint (cap m * 2) in
  c_assert (alloc_ok (ncap * sizeof_msg)) ;;
  let! nq := expand_loop (Z.to_nat (cap m)) m 0 (replicate (Z.to_nat ncap) zero_msg) in
  Ret (mkMq 0 (cap m) ncap nq).

Definition mq_create (n : Z) : outcome mq :=
  c_assert (0 <? n) ;;
  c_assert (alloc_ok sizeof_mq) ;;
  c_assert (alloc_ok (n * sizeof_msg)) ;;
  Ret (mkMq 0 0 n (replicate (Z.to_nat n) zero_msg)).

Definition mq_count (m : mq) : outcome Z :=
  if head m <=? tail m then sint (tail m - head m)
  else let! s := sint (tail m + cap m) in sint (s - head m).

Definition mq_push (m : mq) (x : msg) : outcome mq :=
  let! a := arr_set (q m) (tail m) x in
  let! t := sint (tail m + 1) in
  let t := if cap m <=? t then 0 else t in
  let m := mkMq (head m) t (cap m) a in
  if head m =? tail m then mq_expand m else Ret m.

(** [Some x]: true, with [*msg] set to [x]. *)
Definition mq_pop (m : mq) : outcome (option msg * mq) :=
  if negb (head m =? tail m) then
    let! x := arr_get (q m) (head m) in
    let! h := sint (head m + 1) in
    let h := if cap m <=? h then 0 else h in
    Ret (Some x, mkMq h (tail m) (cap m) (q m))
  else Ret (None, m).
End mq.

#[export] Instance mq_fifo `{Allocator} : FifoQueue mq msg := {
  fq_create := mq_create; fq_count := mq_count; fq_push := mq_push; fq_pop := mq_pop }.

(** ** What the queue holds *)

(** The ring is large enough that [tail + cap] is an [int]. *)
Definition MAX_CAP : Z := 2 ^ 30.

Record ring (m : mq) (l : list msg) : Prop := {
  ring_head : 0 <= head m < cap m;
  ring_tail : tail m = (head m + zlen l) mod cap m;
  ring_room : zlen l < cap m;
  ring_cap : cap m <= MAX_CAP;
  ring_len : zlen (q m) = cap m;
  ring_at : forall i x, znth l i = Some x -> znth (q m) ((head m + i) mod cap m) = Some x
}.

(** One conditional subtraction computes the remainder. *)
Lemma mod_once a c : 0 <= a < 2 * c -> a mod c = if a <? c then a else a - c.
Proof.
  intros Ha. destruct (Z.ltb_spec a c); [apply Z.mod_small; lia|].
  symmetry. apply (Z.mod_unique_pos a c 1); lia.
Qed.

Lemma mod_succ a c :
  0 <= a -> 0 < c -> (a + 1) mod c = if c <=? a mod c + 1 then 0 else a mod c + 1.
Proof.
  intros Ha Hc. pose proof (Z.mod_pos_bound a c Hc).
  rewrite <- Zplus_mod_idemp_l, mod_once by lia.
  destruct (Z.ltb_spec (a mod c + 1) c), (Z.leb_spec c (a mod c + 1)); lia.
Qed.

(** Different places of the ring are different array elements. *)
Lemma ring_places h c i j : 0 <= i < c -> 0 <= j < c -> (h + i) mod c = (h + j) mod c -> i = j.
Proof.
  intros Hi Hj E. pose proof (Z.div_mod (h + i) c). pose proof (Z.div_mod (h + j) c).
  assert ((h + i) / c = (h + j) / c \/ (h + i) / c < (h + j) / c \/ (h + j) / c < (h + i) / c)
    as [Eq|[Lt|Lt]] by lia; nia.
Qed.

Ltac ints :=
  unfold sint, INT_MIN, INT_MAX, MAX_CAP in *;
  repeat (rewrite bool_decide_true by lia; cbv iota; rewrite ?ret_bind).

Lemma ring_empty m l : ring m l -> (head m =? tail m) = true <-> l = [].
Proof.
  intros [Hh Ht Hr _ _ _]. rewrite Z.eqb_eq, Ht. zlen_facts.
  rewrite mod_once by lia. split; [|intros ->; rewrite zlen_nil, Z.add_0_r; destruct (Z.ltb_spec (head m) (cap m)); lia].
  intros E. apply zlen_nil_inv. destruct (Z.ltb_spec (head m + zlen l) (cap m)); lia.
Qed.

Lemma mq_count_ok m l : ring m l -> mq_count m = Ret (zlen l).
Proof.
  intros [Hh Ht Hr Hc _ _]. unfold mq_count. rewrite Ht. zlen_facts. rewrite mod_once by lia.
  destruct (Z.ltb_spec (head m + zlen l) (cap m)); case_match; try lia; ints; f_equal; zlia.
Qed.

Lemma mq_pop_cons m x l :
  ring m (x :: l) -> exists m', mq_pop m = Ret (Some x, m') /\ ring m' l.
Proof.
  intros Hi. pose proof (ring_empty m _ Hi) as He. destruct Hi as [Hh Ht Hr Hc Hl Hat]. unfold mq_pop.
  destruct (Z.eqb_spec (head m) (tail m)) as [_|_]; [by destruct He as [He _]; specialize (He eq_refl)|].
  cbn [negb]. rewrite zlen_cons in *.
  assert (znth (q m) (head m) = Some x) as Hx.
  { rewrite <- (Hat 0 x eq_refl). f_equal. rewrite Z.add_0_r, Z.mod_small; lia. }
  unfold arr_get. rewrite Hx. simpl deref. rewrite ret_bind. ints. eexists. split; [reflexivity|].
  pose proof (mod_succ (head m) (cap m)) as Hs. rewrite (Z.mod_small (head m)) in Hs by lia.
  rewrite <- Hs by lia. zlen_facts.
  constructor; cbn [head tail cap q]; try done; [apply Z.mod_pos_bound; lia| |lia|].
  - rewrite Ht, Zplus_mod_idemp_l. f_equal. lia.
  - intros i y Hy. rewrite Zplus_mod_idemp_l. rewrite <- (Hat (i + 1) y).
    + do 2 f_equal. lia.
    + pose proof (znth_inv _ _ _ Hy). rewrite <- Hy. change (x :: l) with ([x] ++ l). rewrite znth_app.
      rewrite bool_decide_false by zlia. f_equal. zlia.
Qed.

Lemma mq_pop_nil m : ring m [] -> mq_pop m = Ret (None, m).
Proof.
  intros Hi. unfold mq_pop. pose proof (ring_empty m _ Hi) as [_ ->]; done.
Qed.

(** ** Pushing *)

(** Storing in the first free place. *)
Lemma store_at m l x :
  ring m l ->
  zlen (<[Z.to_nat (tail m) := x]> (q m)) = cap m /\
  forall i y, znth (l ++ [x]) i = Some y ->
    znth (<[Z.to_nat (tail m) := x]> (q m)) ((head m + i) mod cap m) = Some y.
Proof.
  intros [Hh Ht Hr Hc Hl Hat]. rewrite zlen_insert. split; [done|]. zlen_facts. intros i y Hy.
  assert (0 <= i < zlen l + 1) as Hi by (pose proof (znth_inv _ _ _ Hy); zlia).
  pose proof (Z.mod_pos_bound (head m + zlen l) (cap m)).
  rewrite znth_insert by (rewrite Hl, Ht; lia). rewrite znth_app in Hy. rewrite Ht.
  destruct (decide ((head m + zlen l) mod cap m = (head m + i) mod cap m)) as [E|Hne].
  - apply ring_places in E; [|lia..]. subst i. rewrite bool_decide_false in Hy by lia.
    rewrite Z.sub_diag in Hy. exact Hy.
  - case_bool_decide; [by apply Hat|]. destruct Hne. do 2 f_equal. lia.
Qed.

(** The copying loop fills the places from [i] on. *)
Lemma expand_loop_ok n m i nq :
  0 <= head m < cap m -> cap m <= MAX_CAP -> zlen (q m) = cap m -> 0 <= i ->
  i + Z.of_nat n = cap m -> cap m <= zlen nq ->
  exists nq', expand_loop n m i nq = Ret nq' /\ zlen nq' = zlen nq /\
    forall j, 0 <= j < zlen nq ->
      znth nq' j = if decide (i <= j < cap m) then znth (q m) ((head m + j) mod cap m) else znth nq j.
Proof.
  intros Hh Hc Hl. revert i nq. induction n as [|n IH]; intros i nq Hi Hn Hnq; cbn [expand_loop].
  { exists nq. split; [done|]. split; [done|]. intros j Hj. by rewrite decide_False by lia. }
  ints. rewrite Z.rem_mod_nonneg by lia. pose proof (Z.mod_pos_bound (head m + i) (cap m)).
  destruct (znth_Some (q m) ((head m + i) mod cap m)) as [x Hx]; [lia|].
  unfold arr_get. rewrite Hx. simpl deref. rewrite ret_bind. unfold arr_set. step_true. rewrite ret_bind.
  destruct (IH (i + 1) (<[Z.to_nat i := x]> nq)) as (nq' & -> & Hl' & Hat); rewrite ?zlen_insert; [lia..|].
  rewrite zlen_insert in Hl', Hat. exists nq'. split; [done|]. split; [done|]. intros j Hj. rewrite Hat by done.
  rewrite znth_insert by lia.
  destruct (decide (i + 1 <= j < cap m)), (decide (i <= j < cap m)), (decide (i = j)); subst; try lia; done.
Qed.

Section push.
Context `{AllocTotal}.

(** A full ring is unrolled to the front of an array of twice the size. *)
Lemma mq_expand_ok m l :
  0 <= head m < cap m -> tail m = head m -> zlen l = cap m -> 2 * cap m <= MAX_CAP ->
  zlen (q m) = cap m ->
  (forall i x, znth l i = Some x -> znth (q m) ((head m + i) mod cap m) = Some x) ->
  exists m', mq_expand m = Ret m' /\ ring m' l /\ cap m' = 2 * cap m.
Proof.
  intros Hh Ht Hl Hc Hq Hat. unfold mq_expand. rewrite Ht, Z.eqb_refl. cbn [c_assert]. rewrite ret_bind. ints.
  rewrite alloc_total by (unfold sizeof_msg; lia). cbn [c_assert]. rewrite ret_bind.
  destruct (expand_loop_ok (Z.to_nat (cap m)) m 0 (replicate (Z.to_nat (cap m * 2)) zero_msg))
    as (nq & -> & Hl' & Hnq); unfold MAX_CAP, zlen in *; rewrite ?length_replicate in *; try lia.
  rewrite ret_bind. eexists. split; [reflexivity|]. split; [|simpl; lia].
  constructor; cbn [head tail cap q]; unfold MAX_CAP, zlen in *; try lia.
  - rewrite Z.mod_small; lia.
  - intros i x Hx. pose proof (znth_inv _ _ _ Hx). unfold zlen in *. rewrite Z.mod_small by lia. simpl.
    rewrite Hnq, decide_True by lia. by apply Hat.
Qed.

Lemma mq_push_ok m l x :
  ring m l -> zlen l < 2 ^ 29 -> exists m', mq_push m x = Ret m' /\ ring m' (l ++ [x]).
Proof.
  intros Hi Hb. destruct (store_at m l x Hi) as [Hl' Hat']. destruct Hi as [Hh Ht Hr Hc Hl Hat].
  zlen_facts. pose proof (Z.mod_pos_bound (head m + zlen l) (cap m)).
  unfold mq_push, arr_set. rewrite bool_decide_true by lia. rewrite ret_bind. ints. cbv zeta. cbn [head tail].
  assert (zlen (l ++ [x]) = zlen l + 1) as Elen by zlia.
  assert ((if cap m <=? tail m + 1 then 0 else tail m + 1) = (head m + (zlen l + 1)) mod cap m) as ->.
  { rewrite Z.add_assoc, (mod_succ (head m + zlen l)) by lia. by rewrite <- Ht. }
  destruct (Z.eqb_spec (head m) ((head m + (zlen l + 1)) mod cap m)) as [E|Hne].
  - assert (zlen l + 1 = cap m) as Hfull.
    { rewrite mod_once in E by lia. destruct (Z.ltb_spec (head m + (zlen l + 1)) (cap m)); lia. }
    destruct (mq_expand_ok (mkMq (head m) ((head m + (zlen l + 1)) mod cap m) (cap m)
      (<[Z.to_nat (tail m) := x]> (q m))) (l ++ [x])) as (m' & -> & Hm & _);
      cbn [head tail cap q]; unfold MAX_CAP; try done; try lia.
    by exists m'.
  - eexists. split; [reflexivity|]. constructor; cbn [head tail cap q]; try done; [by rewrite Elen|].
    rewrite Elen. destruct (Z.eq_dec (zlen l + 1) (cap m)) as [Ef|]; [|lia]. destruct Hne.
    replace (head m + (zlen l + 1)) with (head m + 1 * cap m) by lia. rewrite Z_mod_plus, Z.mod_small; lia.
Qed.

Lemma mq_create_ok n :
  0 < n <= MAX_CAP -> exists m, mq_create n = Ret m /\ ring m [].
Proof.
  intros Hn. unfold MAX_CAP in *. unfold mq_create. destruct (Z.ltb_spec 0 n); [|lia]. rewrite !alloc_total by (unfold sizeof_mq, sizeof_msg; lia).
  eexists. split; [reflexivity|]. constructor; cbn [head tail cap q]; unfold MAX_CAP; try lia; try done.
  - unfold zlen. rewrite length_replicate. lia.
  - intros i x Hx. apply znth_inv in Hx. unfold zlen in Hx. simpl in Hx. lia.
Qed.

#[export] Instance mq_fifo_laws : FifoLaws mq msg (2 ^ 29).
Proof.
  refine {| fq_holds := ring |}.
  - intros n Hn. apply mq_create_ok. unfold MAX_CAP. lia.
  - apply mq_count_ok.
  - intros m l x. apply mq_push_ok.
  - intros m Hm. exists m. split; [by apply mq_pop_nil|done].
  - apply mq_pop_cons.
Defined.
End push.

(** ** Sessions *)
Inductive mq_call := Push (x : msg) | Pop | Count.
Inductive mq_output := OPush | OPop (o : option msg) | OCount (n : Z).

Fixpoint run_mq `{Allocator} (m : mq) (cs : list mq_call) : outcome (list mq_output) :=
  match cs with
  | [] => Ret []
  | Push x :: cs => let! m := mq_push m x in let! os := run_mq m cs in Ret (OPush :: os)
  | Pop :: cs => let! (o, m) := mq_pop m in let! os := run_mq m cs in Ret (OPop o :: os)
  | Count :: cs => let! n := mq_count m in let! os := run_mq m cs in Ret (OCount n :: os)
  end.

(** The same session on a plain sequence; [None] when it would hold more
    than [2 ^ 29] messages. *)
Fixpoint spec_mq (l : list msg) (cs : list mq_call) : option (list mq_output) :=
  match cs with
  | [] => Some []
  | Push x :: cs =>
    if 2 ^ 29 <=? zlen l then None else (OPush ::.) <$> spec_mq (l ++ [x]) cs
  | Pop :: cs => (OPop (hd_error l) ::.) <$> spec_mq (tl l) cs
  | Count :: cs => (OCount (zlen l) ::.) <$> spec_mq l cs
  end.

Lemma run_mq_ok `{AllocTotal} cs m l os :
  ring m l -> spec_mq l cs = Some os -> run_mq m cs = Ret os.
Proof.
  revert m l os. induction cs as [|[x| |] cs IH]; intros m l os Hm; cbn [run_mq spec_mq].
  - by intros [= <-].
  - destruct (Z.leb_spec (2 ^ 29) (zlen l)); [done|]. intros (os' & E & ->)%fmap_Some.
    destruct (mq_push_ok m l x Hm) as (m' & -> & Hm'); [done|]. by rewrite ret_bind, (IH m' (l ++ [x]) os').
  - intros (os' & E & ->)%fmap_Some. destruct l as [|x l].
    + by rewrite mq_pop_nil, ret_bind, (IH m [] os').
    + destruct (mq_pop_cons m x l Hm) as (m' & -> & Hm'). by rewrite ret_bind, (IH m' l os').
  - intros (os' & E & ->)%fmap_Some. by rewrite (mq_count_ok m l Hm), ret_bind, (IH m l os').
Qed.

(** C28.  A session of pushes, pops and counts on a new queue of any
    capacity gives the outputs of a first-in first-out sequence, through
    every wrap-around and every doubling of the ring, as long as it holds at
    most 2 ^ 29 messages. *)
Theorem mq_is_fifo `{AllocTotal} n cs os :
  0 < n <= MAX_CAP -> spec_mq [] cs = Some os ->
  (let! m := mq_create n in run_mq m cs) = Ret os.
Proof.
  intros Hn Hs. destruct (mq_create_ok n Hn) as (m & -> & Hm). rewrite ret_bind. by eapply run_mq_ok.
Qed.

Section witness.
#[local] Existing Instances big_alloc big_alloc_total.

Definition demo_calls : list mq_call :=
  [Push (mkMsg 1 10); Push (mkMsg 2 20); Pop; Push (mkMsg 3 30); Push (mkMsg 4 40); Count; Pop; Pop; Pop; Pop].
Definition demo_outputs : list mq_output :=
  [OPush; OPush; OPop (Some (mkMsg 1 10)); OPush; OPush; OCount 3; OPop (Some (mkMsg 2 20));
   OPop (Some (mkMsg 3 30)); OPop (Some (mkMsg 4 40)); OPop None].

Lemma mq_is_fifo_witness : (let! m := mq_create 2 in run_mq m demo_calls) = Ret demo_outputs.
Proof. apply mq_is_fifo; [unfold MAX_CAP; lia | reflexivity]. Defined.
End witness.
