(* ===== verification/Chan.v ===== *)
(** * Channels

    [base/chan.c]: a channel is a FIFO under a lock with two condition
    variables.  The channel is verified against the interface [FifoQueue];
    [base/mq.c] is the instance.  [ch_send] and [ch_recv] are modelled as
    one pass of their loops, executed while the lock is held; threads
    interleave between the passes.  The lock and the condition variables
    are those of [base/mtxlock.c] and [base/cond.c], which forward to
    POSIX threads. *)

From stdpp Require Import base tactics numbers list option.
From Stdlib Require Import Lia.
From S2P Require Import Prelude Mq.

Inductive cond := rcv_cond | snd_cond.
#[export] Instance cond_dec : EqDecision cond.
Proof. solve_decision. Defined.

Section chan.
Context {Q E : Type} `{FifoQueue Q E}.

Record chan := mkChan { ch_q : Q; ch_cap : Z }.

Definition ch_create (cap : Z) : outcome chan :=
  c_assert (0 <=? cap) ;;
  let! n := sint (cap + 1) in
  let! q := fq_create n in
  Ret (mkChan q cap).

(** How a pass ends: in [cond_wait], or with the call returning after
    signalling; [r] is what a receiver gets. *)
Inductive pass :=
| Wait (c : cond)
| Return (q : Q) (r : option E) (signal : option cond).

Definition ch_send (ch : chan) (x : E) : outcome pass :=
  let! full := if 0 <? ch_cap ch then
      let! n := fq_count (ch_q ch) in
      if ch_cap ch <=? n then Ret true else
      let! n := fq_count (ch_q ch) in
      c_assert (n <? ch_cap ch) ;; Ret false
    else Ret false in
  if negb full then
    let! q := fq_push (ch_q ch) x in
    Ret (Return q None (Some rcv_cond))
  else Ret (Wait snd_cond).

Definition ch_recv (ch : chan) : outcome pass :=
  let! n := fq_count (ch_q ch) in
  if n =? 0 then Ret (Wait rcv_cond) else
  let! (r, q) := fq_pop (ch_q ch) in
  Ret (Return q r (if 0 <? ch_cap ch then Some snd_cond else None)).

(** ** Threads *)
Inductive call := Send (x : E) | Recv.

(** Between calls; holding the lock; asleep in [cond_wait]; woken up but
    without the lock. *)
Inductive where_ := Ready | Locked | Asleep (c : cond) | Woken.

Record thread := mkThread { prog : list call; pc : where_ }.

(** [sent] and [received] log the messages in the order of the passes that
    pushed and popped them. *)
Record system := mkSystem {
  ch : chan;
  lock : option nat;
  threads : list thread;
  sent : list E;
  received : list E
}.

Definition run_call (c : chan) (o : call) : outcome pass :=
  match o with Send x => ch_send c x | Recv => ch_recv c end.

Definition log_sent (o : call) (l : list E) : list E :=
  match o with Send x => l ++ [x] | Recv => l end.
Definition log_received (r : option E) (l : list E) : list E :=
  match r with Some x => l ++ [x] | None => l end.

(** [cond_signal] wakes one of the threads asleep, if there is one.  A
    signal that wakes more is one followed by spurious wake-ups. *)
Inductive signals (ths : list thread) : option cond -> list thread -> Prop :=
| signal_none : signals ths None ths
| signal_nobody c : (forall i p, ths !! i <> Some (mkThread p (Asleep c))) -> signals ths (Some c) ths
| signal_one c i p :
    ths !! i = Some (mkThread p (Asleep c)) ->
    signals ths (Some c) (<[i := mkThread p Woken]> ths).

Inductive step (s : system) : system -> Prop :=
| step_lock i o p w :
    lock s = None -> threads s !! i = Some (mkThread (o :: p) w) -> w = Ready \/ w = Woken ->
    step s (mkSystem (ch s) (Some i) (<[i := mkThread (o :: p) Locked]> (threads s)) (sent s) (received s))
| step_wait i o p c :
    lock s = Some i -> threads s !! i = Some (mkThread (o :: p) Locked) ->
    run_call (ch s) o = Ret (Wait c) ->
    step s (mkSystem (ch s) None (<[i := mkThread (o :: p) (Asleep c)]> (threads s)) (sent s) (received s))
| step_return i o p q r c ths :
    lock s = Some i -> threads s !! i = Some (mkThread (o :: p) Locked) ->
    run_call (ch s) o = Ret (Return q r c) ->
    signals (<[i := mkThread p Ready]> (threads s)) c ths ->
    step s (mkSystem (mkChan q (ch_cap (ch s))) None ths (log_sent o (sent s)) (log_received r (received s))).

(** [pthread_cond_wait] may return without a signal. *)
Inductive spurious (s : system) : system -> Prop :=
| spurious_wakeup i p c :
    threads s !! i = Some (mkThread p (Asleep c)) ->
    spurious s (mkSystem (ch s) (lock s) (<[i := mkThread p Woken]> (threads s)) (sent s) (received s)).

Inductive reachable (cap : Z) (progs : list (list call)) : system -> Prop :=
| reach_start c :
    ch_create cap = Ret c ->
    reachable cap progs (mkSystem c None (map (fun p => mkThread p Ready) progs) [] [])
| reach_step s s' : reachable cap progs s -> step s s' -> reachable cap progs s'
| reach_spurious s s' : reachable cap progs s -> spurious s s' -> reachable cap progs s'.
End chan.
Arguments chan : clear implicits.
Arguments system : clear implicits.
Arguments call : clear implicits.
Arguments thread : clear implicits.

(** ** The invariant *)
Section laws.
Context {Q E : Type} `{FifoLaws Q E bound}.
Implicit Types (s : system Q E) (t : thread E) (ths : list (thread E)).

(** The condition variable on which a call waits. *)
Definition kind (o : call E) : cond := match o with Send _ => snd_cond | Recv => rcv_cond end.

Definition asleep (c : cond) t : Z := 
  match pc t with Asleep c' => if decide (c' = c) then 1 else 0 | _ => 0 end.
(** Threads that hold the lock, or will get it, in a call of that kind. *)
Definition active (c : cond) t : Z :=
  match pc t, prog t with
  | Locked, o :: _ | Woken, o :: _ => if decide (kind o = c) then 1 else 0
  | _, _ => 0
  end.
Definition sends t : Z := total (fun o => match o with Send _ => 1 | Recv => 0 end) (prog t).

(** How many calls on that side could go through. *)
Definition chances (cap : Z) (l : list E) (c : cond) : Z :=
  match c with rcv_cond => zlen l | snd_cond => cap - zlen l end.

#[local] Arguments asleep c !t /.
#[local] Arguments active c !t /.

Definition thread_ok (cap : Z) t : Prop :=
  match pc t with
  | Ready => True
  | Locked | Woken => prog t <> []
  | Asleep c => exists o p, prog t = o :: p /\ kind o = c /\ (c = snd_cond -> 0 < cap)
  end.

Record inv (cap : Z) s (l : list E) : Prop := {
  inv_cap : ch_cap (ch s) = cap;
  inv_holds : fq_holds (ch_q (ch s)) l;
  inv_log : sent s = received s ++ l;
  inv_full : 0 < cap -> zlen l <= cap;
  inv_room : 0 < cap <= bound \/ total sends (threads s) + zlen l <= bound;
  inv_threads : forall i t, threads s !! i = Some t -> thread_ok cap t;
  inv_locked : forall i t, threads s !! i = Some t -> pc t = Locked -> lock s = Some i;
  inv_owner : forall i, lock s = Some i -> exists t, threads s !! i = Some t /\ pc t = Locked;
  inv_wake : forall c, 0 < total (asleep c) (threads s) ->
    chances cap l c <= total (active c) (threads s)
}.

Lemma asleep_nonneg c t : 0 <= asleep c t.
Proof. unfold asleep. repeat case_match; lia. Qed.
Lemma active_nonneg c t : 0 <= active c t.
Proof. unfold active. repeat case_match; lia. Qed.
Lemma sends_nonneg t : 0 <= sends t.
Proof. apply total_nonneg. intros []; lia. Qed.

(** What one pass of a call does. *)
Lemma run_call_ok cap s l i o p :
  inv cap s l -> threads s !! i = Some (mkThread (o :: p) Locked) ->
  (exists c, run_call (ch s) o = Ret (Wait c) /\ kind o = c /\ chances cap l c <= 0 /\ (c = snd_cond -> 0 < cap)) \/
  (exists q l' r c, run_call (ch s) o = Ret (Return q r c) /\ fq_holds q l' /\
     (0 < cap -> zlen l' <= cap) /\
     match o with
     | Send x => l' = l ++ [x] /\ r = None /\ c = Some rcv_cond
     | Recv => exists x, l = x :: l' /\ r = Some x /\ c = if 0 <? cap then Some snd_cond else None
     end).
Proof.
  intros [Hcap Hh _ Hfull Hroom _ _ _ _] Hi. pose proof (zlen_nonneg l). destruct o as [x|]; cbn [run_call].
  - assert (zlen l < bound \/ cap <= zlen l /\ 0 < cap) as Hpush.
    { destruct Hroom as [?|Hr]; [lia|left]. assert (sends (mkThread (Send x :: p) Locked) <= total sends (threads s)) as Hs.
      { eapply (total_lookup sends); [apply sends_nonneg|exact Hi]. }
      unfold sends in Hs at 1. simpl in Hs. pose proof (sends_nonneg (mkThread p Ready)) as Hp.
      unfold sends in Hp at 1. simpl in Hp. lia. }
    unfold ch_send. rewrite Hcap. destruct (Z.ltb_spec 0 cap) as [Hpos|Hz].
    + rewrite (fq_count_ok (bound := bound) _ l Hh), ret_bind. destruct (Z.leb_spec cap (zlen l)) as [Hle|Hlt].
      * left. exists snd_cond. split_and!; try done. simpl. lia.
      * right. rewrite ret_bind. destruct (Z.ltb_spec (zlen l) cap); [|lia]. cbn [c_assert]. rewrite !ret_bind.
        cbn [negb]. destruct (fq_push_ok (bound := bound) _ l x Hh) as (q & -> & Hq); [lia|]. eexists _, _, _, _. split_and!; try done. zlia.
    + right. rewrite ret_bind. cbn [negb]. destruct (fq_push_ok (bound := bound) _ l x Hh) as (q & -> & Hq); [lia|].
      eexists _, _, _, _. split_and!; try done. zlia.
  - unfold ch_recv. rewrite (fq_count_ok (bound := bound) _ l Hh), ret_bind. destruct (Z.eqb_spec (zlen l) 0) as [Hz|Hz].
    + left. exists rcv_cond. split_and!; try done. simpl. lia.
    + right. destruct l as [|x l]; [done|]. destruct (fq_pop_cons (bound := bound) _ x l Hh) as (q & -> & Hq).
      rewrite ret_bind, Hcap. eexists _, _, _, _. split_and!; try done; [zlia|by exists x].
Qed.

(** *** Threads that change their state *)
Lemma signals_ok cap ths c ths' :
  signals ths c ths' -> (forall i t, ths !! i = Some t -> thread_ok cap t) ->
  (forall i t, ths' !! i = Some t -> thread_ok cap t) /\
  (forall i t, ths' !! i = Some t -> pc t = Locked -> ths !! i = Some t) /\
  total sends ths' = total sends ths /\
  (forall c', (Some c' = c /\ (total (asleep c') ths' = 0 \/
       0 < total (asleep c') ths /\ total (active c') ths' = total (active c') ths + 1)) \/
     Some c' <> c /\ total (asleep c') ths' = total (asleep c') ths /\ total (active c') ths' = total (active c') ths).
Proof.
  intros Hs Hok. destruct Hs as [|c Hno|c i p Hi].
  - naive_solver.
  - split; [done|]. split; [done|]. split; [done|]. intros c'. destruct (decide (c' = c)) as [->|]; [left|right; split_and!; congruence].
    split; [done|left]. apply total_zero. intros t [j Hj]%list_elem_of_lookup. unfold asleep.
    destruct t as [p w]. simpl. destruct w as [| |c'|]; try done. case_decide; [|done]. subst. by apply Hno in Hj.
  - pose proof (Hok _ _ Hi) as (o & p' & Ep & Hk & Hc). simpl in Ep. subst p.
    split; [|split; [|split]].
    + intros j t [(<- & <- & _) | [_ Hj]]%list_lookup_insert_Some; [done|]. by eapply Hok.
    + intros j t [(<- & <- & _) | [_ Hj]]%list_lookup_insert_Some; done.
    + rewrite (total_insert _ _ _ _ _ Hi). unfold sends. simpl. lia.
    + intros c'. pose proof (total_lookup (asleep c') _ _ _ (asleep_nonneg c') Hi).
      rewrite !(total_insert _ _ _ _ _ Hi). simpl in *.
      destruct (decide (c' = c)) as [->|Hne]; [left|right]; repeat case_decide; simplify_eq; try lia.
      * split; [done|right]. lia.
      * split; [congruence|]. lia.
Qed.

(** A lookup after an update. *)
Ltac lookups := match goal with
  | H : <[_ := _]> _ !! _ = Some _ |- _ =>
    apply list_lookup_insert_Some in H as [(<- & <- & _) | [? H]]
  end.

Lemma sends_same p w w' : sends (mkThread p w) = sends (mkThread p w').
Proof. reflexivity. Qed.

Lemma inv_lock_step cap s l i o p w :
  inv cap s l -> lock s = None -> threads s !! i = Some (mkThread (o :: p) w) -> w = Ready \/ w = Woken ->
  inv cap (mkSystem (ch s) (Some i) (<[i := mkThread (o :: p) Locked]> (threads s)) (sent s) (received s)) l.
Proof.
  intros [Hcap Hh Hlog Hfull Hroom Hok Hlocked Hown Hwake] Hlock Hi Hw.
  constructor; cbn [ch lock threads sent received]; try done.
  - rewrite (total_insert _ _ _ _ _ Hi), (sends_same _ w Locked). destruct Hroom; [by left|right; lia].
  - intros j t Hj. lookups; [done|by eapply Hok].
  - intros j t Hj Hp. lookups; [done|]. rewrite (Hlocked _ _ Hj Hp) in Hlock. done.
  - intros j [= <-]. exists (mkThread (o :: p) Locked). split; [|done]. apply list_lookup_insert_eq. by eapply lookup_lt_Some.
  - intros c. specialize (Hwake c). rewrite !(total_insert _ _ _ _ _ Hi).
    destruct Hw as [-> | ->]; simpl; case_decide; lia.
Qed.

Lemma inv_wait_step cap s l i o p c :
  inv cap s l -> lock s = Some i -> threads s !! i = Some (mkThread (o :: p) Locked) ->
  kind o = c -> chances cap l c <= 0 -> (c = snd_cond -> 0 < cap) ->
  inv cap (mkSystem (ch s) None (<[i := mkThread (o :: p) (Asleep c)]> (threads s)) (sent s) (received s)) l.
Proof.
  intros [Hcap Hh Hlog Hfull Hroom Hok Hlocked Hown Hwake] Hlock Hi Hk Hz Hc.
  constructor; cbn [ch lock threads sent received]; try done.
  - rewrite (total_insert _ _ _ _ _ Hi), (sends_same _ Locked (Asleep c)). destruct Hroom; [by left|right; lia].
  - intros j t Hj. lookups; [by exists o, p|by eapply Hok].
  - intros j t Hj Hp. lookups; [done|]. specialize (Hlocked _ _ Hj Hp). congruence.
  - intros c' Hs. specialize (Hwake c'). rewrite !(total_insert _ _ _ _ _ Hi) in *.
    pose proof (total_nonneg (active c') (threads s) (active_nonneg c')).
    pose proof (total_lookup (active c') _ _ _ (active_nonneg c') Hi) as Ha.
    simpl in *. rewrite Hk in *. repeat case_decide; subst; try done; lia.
Qed.

Lemma inv_spurious cap s l i p c :
  inv cap s l -> threads s !! i = Some (mkThread p (Asleep c)) ->
  inv cap (mkSystem (ch s) (lock s) (<[i := mkThread p Woken]> (threads s)) (sent s) (received s)) l.
Proof.
  intros [Hcap Hh Hlog Hfull Hroom Hok Hlocked Hown Hwake] Hi.
  pose proof (Hok _ _ Hi) as (o & p' & Ep & Hk & Hc). simpl in Ep. subst p.
  constructor; cbn [ch lock threads sent received]; try done.
  - rewrite (total_insert _ _ _ _ _ Hi), (sends_same _ (Asleep c) Woken). destruct Hroom; [by left|right; lia].
  - intros j t Hj. lookups; [done|by eapply Hok].
  - intros j t Hj Hp. lookups; [done|]. by eapply Hlocked.
  - intros j Hj. destruct (Hown j Hj) as (t & Ht & Hp). exists t. split; [|done].
    rewrite list_lookup_insert_ne; [done|]. intros ->. rewrite Hi in Ht. by simplify_eq.
  - intros c' Hs. specialize (Hwake c'). rewrite !(total_insert _ _ _ _ _ Hi) in *.
    simpl in *. repeat case_decide; subst; try done; lia.
Qed.

Lemma inv_return_step cap s l i o p q l' r c ths :
  inv cap s l -> lock s = Some i -> threads s !! i = Some (mkThread (o :: p) Locked) ->
  fq_holds q l' -> (0 < cap -> zlen l' <= cap) ->
  match o with
  | Send x => l' = l ++ [x] /\ r = None /\ c = Some rcv_cond
  | Recv => exists x, l = x :: l' /\ r = Some x /\ c = if 0 <? cap then Some snd_cond else None
  end ->
  signals (<[i := mkThread p Ready]> (threads s)) c ths ->
  inv cap (mkSystem (mkChan q (ch_cap (ch s))) None ths (log_sent o (sent s)) (log_received r (received s))) l'.
Proof.
  intros [Hcap Hh Hlog Hfull Hroom Hok Hlocked Hown Hwake] Hlock Hi Hq Hfull' Ho Hsig.
  destruct (signals_ok cap _ _ _ Hsig) as (Hok' & Hloc' & Hsends & Hcount).
  { intros j t Hj. lookups; [done|by eapply Hok]. }
  rewrite (total_insert _ _ _ _ _ Hi) in Hsends. unfold sends at 3 4 in Hsends. cbn [prog total foldr] in Hsends.
  constructor; cbn [ch lock threads sent received]; try done.
  - destruct o as [x|]; [destruct Ho as (-> & -> & _)|destruct Ho as (x & -> & -> & _)]; simpl; rewrite Hlog.
    + by rewrite app_assoc.
    + by rewrite <- app_assoc.
  - destruct Hroom; [by left|right]. destruct o as [x|];
      [destruct Ho as (-> & _)|destruct Ho as (x & -> & _)]; rewrite ?zlen_app, ?zlen_cons, ?zlen_nil in *;
      fold (total (fun o : call E => match o with Send _ => 1 | Recv => 0 end) p) in Hsends; lia.
  - intros j t Hj Hp. specialize (Hloc' _ _ Hj Hp). lookups; [done|].
    specialize (Hlocked _ _ Hloc' Hp). congruence.
  - intros c' Hs. specialize (Hwake c'). specialize (Hcount c'). rewrite !(total_insert _ _ _ _ _ Hi) in Hcount.
    pose proof (total_nonneg (active c') ths (active_nonneg c')).
    pose proof (zlen_nonneg l'). destruct o as [x|]; [destruct Ho as (-> & _ & ->)|destruct Ho as (x & -> & _ & ->)];
      rewrite ?zlen_app, ?zlen_cons, ?zlen_nil in *; destruct c'; simpl in *; rewrite ?zlen_app, ?zlen_cons, ?zlen_nil in *;
      destruct Hcount as [[Hc Hcount]|[Hc Hcount]]; repeat case_decide; try case_match; simplify_eq; try lia.
Qed.

(** *** Reachable states *)
Definition sends_of (progs : list (list (call E))) : Z := total sends (map (fun p => mkThread p Ready) progs).

Lemma total_ready (f : thread E -> Z) (progs : list (list (call E))) :
  (forall p, f (mkThread p Ready) = 0) -> total f (map (fun p => mkThread p Ready) progs) = 0.
Proof.
  intros Hf. apply total_zero. intros t (p & -> & _)%list_elem_of_fmap. apply Hf.
Qed.

Lemma reachable_inv cap progs s :
  bound <= INT_MAX -> 0 <= cap < bound -> 0 < cap \/ sends_of progs <= bound ->
  reachable cap progs s -> exists l, inv cap s l.
Proof.
  intros Hb Hcap Hsends. induction 1 as [c Hc|s s' _ [l IH] Hstep|s s' _ [l IH] Hstep].
  - unfold ch_create in Hc. destruct (Z.leb_spec 0 cap); [|lia]. cbn [c_assert] in Hc. rewrite ret_bind in Hc.
    unfold sint in Hc. rewrite bool_decide_true in Hc by (unfold INT_MIN, INT_MAX in *; lia). rewrite ret_bind in Hc.
    destruct (fq_create_ok (bound := bound) (cap + 1)) as (q & E1 & Hq); [lia|]. rewrite E1, ret_bind in Hc.
    injection Hc as <-. exists []. constructor; cbn [ch lock threads sent received]; try done.
    + destruct Hsends; [left; lia|right]. rewrite zlen_nil. unfold sends_of in *. lia.
    + intros i t Hi. apply list_lookup_fmap_Some in Hi as (p & -> & _). done.
    + intros i t Hi Hp. apply list_lookup_fmap_Some in Hi as (p & -> & _). done.
    + intros c Hs. rewrite total_ready in Hs by done. lia.
  - inversion Hstep as [i o p w Hl Hi Hw|i o p c Hl Hi Hr|i o p q r c ths Hl Hi Hr Hsig]; subst.
    + exists l. by eapply inv_lock_step.
    + exists l. destruct (run_call_ok cap s l i o p IH Hi) as [(c' & E1 & ? & ? & ?)|(q & l' & r & c' & E1 & _)];
        rewrite E1 in Hr; [|done]. simplify_eq. by eapply inv_wait_step.
    + destruct (run_call_ok cap s l i o p IH Hi) as [(c' & E1 & _)|(q' & l' & r' & c' & E1 & Hq & Hfull & Ho)];
        rewrite E1 in Hr; [done|]. simplify_eq. exists l'. by eapply inv_return_step.
  - destruct Hstep as [i p c Hi]. exists l. by eapply inv_spurious.
Qed.

Lemma asleep_pos ths i p c : ths !! i = Some (mkThread p (Asleep c)) -> 0 < total (asleep c) ths.
Proof.
  intros Ht. pose proof (total_lookup (asleep c) _ _ _ (asleep_nonneg c) Ht) as Hle.
  simpl in Hle. case_decide; [lia|done].
Qed.

Lemma signals_exist ths c : exists ths', signals ths (Some c) ths'.
Proof.
  pose proof (total_nonneg (asleep c) ths (asleep_nonneg c)).
  destruct (Z.eq_dec (total (asleep c) ths) 0) as [Hz|Hz].
  - exists ths. constructor. intros i p Hi. pose proof (total_lookup (asleep c) _ _ _ (asleep_nonneg c) Hi) as Hl.
    simpl in Hl. case_decide; [lia|done].
  - destruct (total_pos (asleep c) ths) as (i & [p w] & Hi & Hp); [lia|].
    destruct w as [| |c'|]; simpl in Hp; try lia. case_decide; [|lia]. subst.
    eexists. by eapply signal_one.
Qed.

(** Nobody moves: only spurious wake-ups are possible. *)
Definition quiet s : Prop := forall s', ~ step s s'.

Definition finished_or_asleep t : Prop := t = mkThread [] Ready \/ exists c, pc t = Asleep c.

Lemma quiet_ok cap s l :
  inv cap s l -> quiet s -> lock s = None /\ Forall finished_or_asleep (threads s).
Proof.
  intros Hinv Hq. pose proof Hinv as [Hcap Hh Hlog Hfull Hroom Hok Hlocked Hown Hwake].
  assert (lock s = None) as Hl.
  { destruct (lock s) as [i|] eqn:El; [exfalso|done]. destruct (Hown i eq_refl) as ([p w] & Hi & Hp).
    simpl in Hp. subst w. pose proof (Hok _ _ Hi) as Ht. destruct p as [|o p]; [done|].
    destruct (run_call_ok cap s l i o p Hinv Hi) as [(c & Er & _)|(q & l' & r & c & Er & _)].
    - by eapply Hq, step_wait.
    - destruct c as [c|]; [destruct (signals_exist (<[i := mkThread p Ready]> (threads s)) c) as [ths Hs]|];
        eapply Hq, step_return; [done..|exact Hs|done|done|done|constructor]. }
  split; [done|]. apply Forall_lookup. intros i [p w] Hi. pose proof (Hok _ _ Hi) as Ht.
  assert (w = Ready \/ w = Woken -> p = []) as Hnil.
  { intros Hw. destruct p as [|o p]; [done|]. exfalso. by eapply Hq, step_lock. }
  destruct w as [| |c|]; [left|exfalso|right; by exists c|exfalso].
  - by rewrite Hnil by tauto.
  - by rewrite (Hlocked _ _ Hi eq_refl) in Hl.
  - apply Ht, Hnil. tauto.
Qed.

Lemma idle_inactive c ths : Forall finished_or_asleep ths -> total (active c) ths = 0.
Proof.
  rewrite Forall_forall. intros Hf. apply total_zero. intros [p w] Ht.
  apply list_elem_of_In in Ht. destruct (Hf _ Ht) as [[= -> ->]|[c' Hc]]; [done|]. simpl in Hc. by subst w.
Qed.
End laws.

(** ** What a channel promises *)
Section theorems.
Context {Q E : Type} `{FifoLaws Q E bound}.
Implicit Types s : system Q E.

(** The capacity fits the queue; an unlimited channel ([cap = 0]) only
    works as long as the queue holds all that the threads send. *)
Definition admissible (cap : Z) (progs : list (list (call E))) : Prop :=
  bound <= INT_MAX /\ 0 <= cap < bound /\ (0 < cap \/ sends_of progs <= bound).

(** C29.  However the threads interleave and however often they are woken
    without reason: the messages received are a prefix, in order, of the
    messages sent, the rest is in the queue, the queue never holds more than
    [cap] messages, and the thread in its critical section gets through it:
    the assertion of [ch_send] holds and [ch_recv] returns a message. *)
Theorem chan_safe cap progs s :
  admissible cap progs -> reachable cap progs s ->
  exists l, fq_count (ch_q (ch s)) = Ret (zlen l) /\ sent s = received s ++ l /\
    (0 < cap -> zlen l <= cap) /\
    forall i, lock s = Some i -> exists o p r, threads s !! i = Some (mkThread (o :: p) Locked) /\
      run_call (ch s) o = Ret r /\
      (o = Recv -> r = Wait rcv_cond \/ exists q x c, r = Return q (Some x) c).
Proof.
  intros (Hb & Hcap & Hs) Hr. destruct (reachable_inv cap progs s Hb Hcap Hs Hr) as [l Hi].
  pose proof Hi as [_ Hh Hlog Hfull _ Hok _ Hown _]. exists l.
  split; [by apply (fq_count_ok (bound := bound))|]. split; [done|]. split; [done|].
  intros i Hl. destruct (Hown i Hl) as ([p w] & Ht & Hp). simpl in Hp. subst w.
  pose proof (Hok _ _ Ht) as Hne. destruct p as [|o p]; [done|]. exists o, p.
  destruct (run_call_ok cap s l i o p Hi Ht) as [(c & -> & Hk & _)|(q & l' & r & c & -> & _ & _ & Ho)].
  - eexists. split_and!; [done..|]. intros ->. left. by rewrite <- Hk.
  - eexists. split_and!; [done..|]. intros ->. right. destruct Ho as (x & _ & -> & _). by exists q, x, c.
Qed.

(** C30.  No wake-up is lost: when no thread can move any more, the lock is
    free and every thread has finished or sleeps in a call.  If one sleeps in
    [ch_recv] then everything sent has been received; if one sleeps in
    [ch_send] then the channel has a capacity and holds that many messages;
    so receivers and senders never sleep at the same time. *)
Theorem chan_no_lost_wakeup cap progs s :
  admissible cap progs -> reachable cap progs s -> quiet s ->
  lock s = None /\ Forall finished_or_asleep (threads s) /\
  ((exists i p, threads s !! i = Some (mkThread p (Asleep rcv_cond))) -> received s = sent s) /\
  ((exists i p, threads s !! i = Some (mkThread p (Asleep snd_cond))) ->
     0 < cap /\ fq_count (ch_q (ch s)) = Ret cap).
Proof.
  intros (Hb & Hcap & Hs) Hr Hq. destruct (reachable_inv cap progs s Hb Hcap Hs Hr) as [l Hi].
  destruct (quiet_ok cap s l Hi Hq) as [Hl Hf]. split; [done|]. split; [done|].
  pose proof Hi as [_ Hh Hlog Hfull _ Hok _ _ Hwake].
  assert (forall i p c, threads s !! i = Some (mkThread p (Asleep c)) -> chances cap l c <= 0) as Hsleep.
  { intros i p c Ht. rewrite <- (idle_inactive c (threads s) Hf). apply Hwake.
    by eapply asleep_pos. }
  split; intros (i & p & Ht); pose proof (Hsleep _ _ _ Ht) as Hz; simpl in Hz; pose proof (zlen_nonneg l).
  - assert (l = []) as -> by (apply zlen_nil_inv; lia). by rewrite Hlog, app_nil_r.
  - destruct (Hok _ _ Ht) as (o & p' & _ & _ & Hpos). split; [by apply Hpos|].
    rewrite (fq_count_ok (bound := bound) _ l Hh). specialize (Hfull (Hpos eq_refl)). f_equal. lia.
Qed.
End theorems.

(** ** A run on the ring buffer *)
Section run.
#[local] Existing Instances big_alloc big_alloc_total.

Definition demo_progs : list (list (call msg)) := [[Recv; Recv]; [Send (mkMsg 1 10)]].

(** The receiver sleeps, the sender wakes it up, the receiver takes the
    message and sleeps again. *)
Lemma demo_reachable : exists c, reachable 1 demo_progs
  (mkSystem c None [mkThread [Recv] (Asleep rcv_cond); mkThread [] Ready] [mkMsg 1 10] [mkMsg 1 10]).
Proof.
  pose proof (reach_start 1 demo_progs _ eq_refl) as R.
  eapply reach_step in R; [|by eapply (step_lock _ 0%nat); [|reflexivity|left]]; simpl in R.
  eapply reach_step in R; [|by eapply (step_wait _ 0%nat); [|reflexivity|reflexivity]]; simpl in R.
  eapply reach_step in R; [|by eapply (step_lock _ 1%nat); [|reflexivity|left]]; simpl in R.
  eapply reach_step in R; [|eapply (step_return _ 1%nat); [done|reflexivity|reflexivity|];
    by apply (signal_one _ _ 0%nat)]; simpl in R.
  eapply reach_step in R; [|by eapply (step_lock _ 0%nat); [|reflexivity|right]]; simpl in R.
  eapply reach_step in R; [|eapply (step_return _ 0%nat); [done|reflexivity|reflexivity|];
    constructor; intros [|[|i]] p; simpl; try congruence; done]; simpl in R.
  eapply reach_step in R; [|by eapply (step_lock _ 0%nat); [|reflexivity|left]]; simpl in R.
  eapply reach_step in R; [|by eapply (step_wait _ 0%nat); [|reflexivity|reflexivity]]; simpl in R.
  eexists. exact R.
Qed.

Lemma demo_quiet c ms : quiet
  (mkSystem (Q := mq) c None [mkThread [Recv] (Asleep rcv_cond); mkThread [] Ready] ms ms).
Proof.
  intros s' Hs. inversion Hs as [i o p w Hl Hi Hw|i o p c' Hl|i o p q r c' ths Hl]; simplify_eq/=.
  destruct i as [|[|i]]; simpl in Hi; simplify_eq; naive_solver.
Qed.

Lemma demo_admissible : admissible (E := msg) (bound := 2 ^ 29) 1 demo_progs.
Proof. unfold admissible, INT_MAX. lia. Qed.

Lemma chan_safe_witness : exists (s : system mq msg) l,
  fq_count (ch_q (ch s)) = Ret (zlen l) /\ sent s = received s ++ l /\ zlen l <= 1.
Proof.
  destruct demo_reachable as [c Hc].
  destruct (chan_safe 1 demo_progs _ demo_admissible Hc) as (l & Hl & Hs & Hb & _).
  eexists _, l. split; [exact Hl|]. split; [exact Hs|]. by apply Hb.
Defined.

Lemma chan_no_lost_wakeup_witness : exists s : system mq msg,
  reachable 1 demo_progs s /\ quiet s /\ lock s = None /\
  threads s !! 0%nat = Some (mkThread [Recv] (Asleep rcv_cond)) /\ received s = sent s.
Proof.
  destruct demo_reachable as [c Hc]. eexists. split; [exact Hc|].
  destruct (chan_no_lost_wakeup 1 demo_progs _ demo_admissible Hc (demo_quiet c _)) as (Hl & _ & Hr & _).
  split; [apply demo_quiet|]. split; [exact Hl|]. split; [reflexivity|].
  apply Hr. by exists 0%nat, [Recv].
Defined.
End run.
