(* ===== verification/Sync.v ===== *)
(** * Locks, waiters and wait groups

    [base/mtxlock.c]: a mutex that remembers its owner; [base/cond.c]: its
    condition variable; [base/waiter.c] and [base/waitgroup.c]: a one-shot
    event and a counter that threads wait for.  The last two are instances of
    [Monitor]: a state under a lock, with calls that wait, in a loop, until
    they can go through, and that wake all waiting threads
    ([pthread_cond_broadcast]) when they say so.  [waitgroup.c] uses the POSIX
    mutex directly and has no owner; its monitor ignores that field. *)

From stdpp Require Import base tactics numbers list option gmap.
From Stdlib Require Import Lia.
From S2P Require Import Prelude.

(** ** The lock *)

(** [mtx]: the thread that holds the mutex; [thread]: the field, which
    [pthread_cond_wait] does not know of. *)
Record mtxlock := mkLock { mtx : option nat; thread : option nat }.

Definition mtl_create : mtxlock := mkLock None None.

(** Destroying a mutex that is held is undefined. *)
Definition mtl_release (l : mtxlock) : outcome unit :=
  c_assert (bool_decide (thread l = None)) ;;
  defined (bool_decide (mtx l = None)).

(** [None]: the caller waits for the mutex. *)
Definition mtl_lock (l : mtxlock) (self : nat) : option mtxlock :=
  match mtx l with None => Some (mkLock (Some self) (Some self)) | Some _ => None end.
Definition mtl_unlock (l : mtxlock) : mtxlock := mkLock None None.
Definition mtl_lockedbyself (l : mtxlock) (self : nat) : bool := bool_decide (thread l = Some self).

(** [pthread_cond_wait] gives the mutex back and, on return, takes it
    again. *)
Definition cond_wait_enter (l : mtxlock) : mtxlock := mkLock None (thread l).
Definition cond_wait_leave (l : mtxlock) (self : nat) : option mtxlock :=
  match mtx l with None => Some (mkLock (Some self) (thread l)) | Some _ => None end.

(** The deadline that [cond_timedwait] computes from the time and the
    nanoseconds to wait. *)
Definition cond_deadline (tv_sec tv_nsec nanos : Z) : Z * Z :=
  let nanopersec := 1000000000 in
  (tv_sec + Z.quot (tv_nsec + nanos) nanopersec, Z.rem (tv_nsec + nanos) nanopersec).

(** ** Monitors *)

(** [pass c s]: the call [c], with the lock: it waits ([None]), or goes
    through with a new state and perhaps a broadcast. *)
Class Monitor (S C : Type) := pass : C -> S -> outcome (option (S * bool)).

(** A call that waits is woken before it could go through. *)
Class MonitorLaws (S C : Type) `{Monitor S C} := pass_wakes : forall c c' s s',
  pass c s = Ret (Some (s', false)) -> pass c' s = Ret None -> pass c' s' = Ret None.

Inductive place := Ready | Locked | Asleep | Woken.
#[export] Instance place_dec : EqDecision place.
Proof. solve_decision. Defined.

Section monitor.
Context {S C : Type} `{Monitor S C}.

Record task := mkTask { calls : list C; at_ : place }.
Record system := mkSystem {
  state : S;
  lock : mtxlock;
  tasks : list task;
  done : list C
}.

Definition wake (t : task) : task := match at_ t with Asleep => mkTask (calls t) Woken | _ => t end.
Definition broadcast (b : bool) (l : list task) : list task := if b then wake <$> l else l.

Inductive step (s : system) : system -> Prop :=
| step_lock i c cs l :
    tasks s !! i = Some (mkTask (c :: cs) Ready) -> mtl_lock (lock s) i = Some l ->
    step s (mkSystem (state s) l (<[i := mkTask (c :: cs) Locked]> (tasks s)) (done s))
| step_relock i c cs l :
    tasks s !! i = Some (mkTask (c :: cs) Woken) -> cond_wait_leave (lock s) i = Some l ->
    step s (mkSystem (state s) l (<[i := mkTask (c :: cs) Locked]> (tasks s)) (done s))
| step_wait i c cs :
    tasks s !! i = Some (mkTask (c :: cs) Locked) -> pass c (state s) = Ret None ->
    step s (mkSystem (state s) (cond_wait_enter (lock s)) (<[i := mkTask (c :: cs) Asleep]> (tasks s)) (done s))
| step_pass i c cs s' b :
    tasks s !! i = Some (mkTask (c :: cs) Locked) -> pass c (state s) = Ret (Some (s', b)) ->
    step s (mkSystem s' (mtl_unlock (lock s)) (broadcast b (<[i := mkTask cs Ready]> (tasks s))) (done s ++ [c])).

(** [pthread_cond_wait] may return without a signal. *)
Inductive spurious (s : system) : system -> Prop :=
| spurious_wakeup i cs :
    tasks s !! i = Some (mkTask cs Asleep) ->
    spurious s (mkSystem (state s) (lock s) (<[i := mkTask cs Woken]> (tasks s)) (done s)).

Inductive reachable (s0 : S) (progs : list (list C)) : system -> Prop :=
| reach_start : reachable s0 progs (mkSystem s0 mtl_create ((fun p => mkTask p Ready) <$> progs) [])
| reach_step s s' : reachable s0 progs s -> step s s' -> reachable s0 progs s'
| reach_spurious s s' : reachable s0 progs s -> spurious s s' -> reachable s0 progs s'.

Definition quiet (s : system) : Prop := forall s', ~ step s s'.
End monitor.
Arguments task : clear implicits.
Arguments system : clear implicits.

(** ** The invariant *)
Section laws.
Context {S C : Type} `{MonitorLaws S C}.
Implicit Types (s : system S C) (t : task C).

Definition task_ok s (i : nat) t : Prop :=
  match at_ t with
  | Ready => thread (lock s) <> Some i
  | Locked => calls t <> [] /\ mtx (lock s) = Some i
  | Woken => calls t <> []
  | Asleep => exists c cs, calls t = c :: cs /\ pass c (state s) = Ret None
  end.

Record inv s : Prop := {
  in_tasks : forall i t, tasks s !! i = Some t -> task_ok s i t;
  in_mtx : forall i, mtx (lock s) = Some i -> exists t, tasks s !! i = Some t /\ at_ t = Locked
}.

Ltac lookups := repeat match goal with
  | Hl : <[_ := _]> _ !! _ = Some _ |- _ => apply list_lookup_insert_Some in Hl as [(<- & <- & _) | [? Hl]]
  end.

Lemma sync_free s i t : inv s -> mtx (lock s) = None -> tasks s !! i = Some t -> at_ t <> Locked.
Proof. intros Hi Hm Ht Hat. pose proof (in_tasks _ Hi _ _ Ht) as Hok. unfold task_ok in Hok. rewrite Hat in Hok. naive_solver. Qed.

Lemma sync_take s i c cs w th :
  inv s -> mtx (lock s) = None -> tasks s !! i = Some (mkTask (c :: cs) w) ->
  (forall j t, tasks s !! j = Some t -> at_ t = Ready -> j <> i -> th <> Some j) ->
  inv (mkSystem (state s) (mkLock (Some i) th) (<[i := mkTask (c :: cs) Locked]> (tasks s)) (done s)).
Proof.
  intros Hinv Hm Hi Hth. split; cbn [tasks lock mtx].
  - intros j t Hj. lookups; [done|]. pose proof (in_tasks _ Hinv _ _ Hj) as Hok. pose proof (sync_free _ _ _ Hinv Hm Hj).
    unfold task_ok in *. cbn [lock mtx thread state] in *. destruct (at_ t) eqn:Ht; try done. by eapply Hth.
  - intros j [= <-]. exists (mkTask (c :: cs) Locked). split; [|done]. apply list_lookup_insert_eq. by eapply lookup_lt_Some.
Qed.

Lemma sync_wait_step s i c cs :
  inv s -> tasks s !! i = Some (mkTask (c :: cs) Locked) -> pass c (state s) = Ret None ->
  inv (mkSystem (state s) (cond_wait_enter (lock s)) (<[i := mkTask (c :: cs) Asleep]> (tasks s)) (done s)).
Proof.
  intros Hinv Hi Hp. destruct (in_tasks _ Hinv _ _ Hi) as [_ Hm]. split; cbn [tasks lock cond_wait_enter mtx]; [|done].
  intros j t Hj. lookups; [by exists c, cs|]. pose proof (in_tasks _ Hinv _ _ Hj) as Hok.
  unfold task_ok in *. cbn [lock cond_wait_enter mtx thread state] in *. destruct (at_ t); try done. naive_solver.
Qed.

Lemma sync_pass s i c cs v b :
  inv s -> tasks s !! i = Some (mkTask (c :: cs) Locked) -> pass c (state s) = Ret (Some (v, b)) ->
  inv (mkSystem v (mtl_unlock (lock s)) (broadcast b (<[i := mkTask cs Ready]> (tasks s))) (done s ++ [c])).
Proof.
  intros Hinv Hi Hp. destruct (in_tasks _ Hinv _ _ Hi) as [_ Hm].
  assert (forall j t, <[i := mkTask cs Ready]> (tasks s) !! j = Some t ->
    at_ t = Ready \/ (at_ t = Woken /\ calls t <> []) \/
    (at_ t = Asleep /\ exists c' cs', calls t = c' :: cs' /\ pass c' (state s) = Ret None)) as Hall.
  { intros j t Hj. lookups; [by left|]. pose proof (in_tasks _ Hinv _ _ Hj) as Hok. unfold task_ok in Hok.
    destruct (at_ t) eqn:Ht; [by left| |right; right; split; [done|exact Hok]|right; by left]. naive_solver. }
  split; cbn [tasks lock mtl_unlock mtx]; [|done]. intros j t Hj. unfold task_ok. cbn [lock mtl_unlock thread mtx state].
  destruct b; cbn [broadcast] in Hj.
  - apply list_lookup_fmap_Some in Hj as (t0 & -> & Hj). destruct t0 as [cs0 w].
    destruct (Hall j _ Hj) as [Hw|[[Hw Hn]|[Hw (c' & cs' & Hn & _)]]]; cbn in *; subst w; cbn; [done|done|by rewrite Hn].
  - destruct (Hall j _ Hj) as [->|[[-> Hn]|[-> (c' & cs' & Hn & Hp')]]]; [done|done|].
    exists c', cs'. split; [done|]. by eapply pass_wakes.
Qed.

Lemma sync_wakeup s i cs : inv s -> tasks s !! i = Some (mkTask cs Asleep) ->
  inv (mkSystem (state s) (lock s) (<[i := mkTask cs Woken]> (tasks s)) (done s)).
Proof.
  intros Hinv Hi. split; cbn [tasks lock].
  - intros j t Hj. lookups; [|by apply (in_tasks _ Hinv)]. destruct (in_tasks _ Hinv _ _ Hi) as (c & cs' & E1 & _).
    cbn in E1. subst cs. done.
  - intros j Hj. destruct (in_mtx _ Hinv j Hj) as (t & Ht & Hl). exists t. split; [|done].
    rewrite list_lookup_insert_ne; [done|]. intros ->. rewrite Hi in Ht. by simplify_eq.
Qed.

Lemma sync_reachable_inv (v : S) progs s : reachable v progs s -> inv s.
Proof.
  induction 1 as [|s s' _ IH Hs|s s' _ IH Hs].
  - split; cbn [tasks lock mtl_create mtx]; [|done]. intros i t (p & -> & _)%list_lookup_fmap_Some. done.
  - destruct Hs as [i c cs l Hi Hl|i c cs l Hi Hl|i c cs Hi Hp|i c cs s' b Hi Hp].
    + unfold mtl_lock in Hl. destruct (mtx (lock s)) eqn:Hm; [done|]. injection Hl as <-.
      eapply sync_take; [done..|]. intros j t _ _ Hne [= ?]. by apply Hne.
    + unfold cond_wait_leave in Hl. destruct (mtx (lock s)) eqn:Hm; [done|]. injection Hl as <-.
      eapply sync_take; [done..|]. intros j t Hj Hr _. pose proof (in_tasks _ IH _ _ Hj) as Hok. unfold task_ok in Hok. by rewrite Hr in Hok.
    + by eapply sync_wait_step.
    + by eapply sync_pass.
  - destruct Hs as [i cs Hi]. by eapply sync_wakeup.
Qed.

(** A call that is neither waiting nor going through has failed; the theorems
    below are about monitors whose calls do not fail. *)
Definition blocked s t : Prop := exists c cs, t = mkTask (c :: cs) Asleep /\ pass c (state s) = Ret None.

Lemma quiet_blocked s :
  inv s -> (forall i c cs, tasks s !! i = Some (mkTask (c :: cs) Locked) -> exists r, pass c (state s) = Ret r) -> quiet s ->
  mtx (lock s) = None /\ Forall (fun t => t = mkTask [] Ready \/ blocked s t) (tasks s).
Proof.
  intros Hinv Hok Hq. assert (mtx (lock s) = None) as Hm.
  { destruct (mtx (lock s)) as [i|] eqn:Hm; [exfalso|done]. destruct (in_mtx _ Hinv i Hm) as ([cs w] & Hi & Hw). cbn in Hw. subst w.
    destruct (in_tasks _ Hinv _ _ Hi) as [Hne _]. destruct cs as [|c cs]; [done|].
    destruct (Hok i c cs Hi) as [[[s' b]|] Hp]; [by eapply Hq, step_pass|by eapply Hq, step_wait]. }
  split; [done|]. apply Forall_lookup. intros i [cs w] Hi. pose proof (in_tasks _ Hinv _ _ Hi) as Ht. unfold task_ok in Ht.
  cbn [at_ calls] in Ht. destruct w.
  - left. destruct cs as [|c cs]; [done|]. exfalso. eapply Hq, step_lock; [exact Hi|]. unfold mtl_lock. by rewrite Hm.
  - by destruct (sync_free _ _ _ Hinv Hm Hi).
  - right. destruct Ht as (c & cs' & -> & Hp). by exists c, cs'.
  - destruct cs as [|c cs]; [done|]. exfalso. eapply Hq, step_relock; [exact Hi|]. unfold cond_wait_leave. by rewrite Hm.
Qed.
End laws.

(** [mtl_lockedbyself] is right when it answers yes: a thread that is not
    inside [cond_wait] then holds the mutex. *)
Theorem lockedbyself_sound {S C : Type} `{MonitorLaws S C} (s0 : S) (progs : list (list C)) s i t :
  reachable s0 progs s -> tasks s !! i = Some t -> at_ t = Ready \/ at_ t = Locked ->
  mtl_lockedbyself (lock s) i = true -> mtx (lock s) = Some i.
Proof.
  intros Hr%sync_reachable_inv Hi Ht Hl%bool_decide_eq_true. pose proof (in_tasks _ Hr _ _ Hi) as Hok. unfold task_ok in Hok.
  destruct Ht as [Ht|Ht]; rewrite Ht in Hok; [done|apply Hok].
Qed.

(** ** Waiters *)
Inductive waiter_call := Signal | Wait.
#[export] Instance waiter_call_dec : EqDecision waiter_call.
Proof. solve_decision. Defined.

Definition waiter_create : Z := 0.
Definition waiter_signal : outcome (option (Z * bool)) := Ret (Some (1, true)).
Definition waiter_wait (signaled : Z) : outcome (option (Z * bool)) :=
  if signaled =? 0 then Ret None else Ret (Some (signaled, false)).

#[export] Instance waiter_monitor : Monitor Z waiter_call := fun c s =>
  match c with Signal => waiter_signal | Wait => waiter_wait s end.
#[export] Instance waiter_laws : MonitorLaws Z waiter_call.
Proof.
  intros [] [] s s'; unfold pass, waiter_monitor, waiter_signal, waiter_wait; repeat case_match; intros; simplify_eq; done.
Qed.

(** ** Wait groups *)
Inductive wg_call := Done | WaitAll.
#[export] Instance wg_call_dec : EqDecision wg_call.
Proof. solve_decision. Defined.

Definition wg_create (n : Z) : Z := n.
Definition wg_done (count : Z) : outcome (option (Z * bool)) :=
  let! count := sint (count - 1) in
  Ret (Some (count, count =? 0)).
Definition wg_wait (count : Z) : outcome (option (Z * bool)) :=
  if 0 <? count then Ret None else Ret (Some (count, false)).
Definition wg_count (count : Z) : Z := count.

#[export] Instance wg_monitor : Monitor Z wg_call := fun c s =>
  match c with Done => wg_done s | WaitAll => wg_wait s end.
#[export] Instance wg_laws : MonitorLaws Z wg_call.
Proof.
  intros [] [] s s'; unfold pass, wg_monitor, wg_done, wg_wait, sint; repeat case_match; try (by intros; simplify_eq).
  all: rewrite ?ret_bind; try done; intros; simplify_eq; exfalso; lia.
Qed.

Section theorems.

(** A waiter: a call of [waiter_wait] has returned only if
    [waiter_signal] has been called; and when no thread can move any more the
    lock is free and, if there was a signal, every thread has finished;
    otherwise those that have not sleep in [waiter_wait]. *)
Theorem waiter_ok progs (s : system Z waiter_call) :
  reachable waiter_create progs s ->
  (Wait ∈ done s -> Signal ∈ done s) /\
  (quiet s -> mtx (lock s) = None /\
     if decide (Signal ∈ done s) then Forall (fun t => t = mkTask [] Ready) (tasks s)
     else Forall (fun t => t = mkTask [] Ready \/ exists cs, t = mkTask (Wait :: cs) Asleep) (tasks s)).
Proof.
  intros Hr. assert ((state s = 0 /\ done s = []) \/ (state s = 1 /\ Signal ∈ done s)) as Hst.
  { induction Hr as [|s s' _ IH Hs|s s' _ IH Hs]; [by left| |by destruct Hs].
    destruct Hs as [| | |i c cs v b Hi Hp]; [done..|]. cbn [state done]. unfold pass, waiter_monitor, waiter_signal, waiter_wait in Hp.
    destruct c; [injection Hp as <- <-; right; set_solver|]. destruct (Z.eqb_spec (state s) 0); [done|].
    injection Hp as <- <-. destruct IH as [[? _]|[? ?]]; [done|]. right. set_solver. }
  split; [destruct Hst as [[_ ->]|[_ ?]]; [by intros ?%not_elem_of_nil|done]|].
  intros Hq. destruct (quiet_blocked s (sync_reachable_inv _ _ _ Hr)) as [Hm Hall]; [|done|].
  { intros i c cs _. destruct c; cbn; [by eexists|]. unfold pass, waiter_monitor, waiter_wait. case_match; by eexists. }
  split; [done|]. case_decide as Hsig; eapply Forall_impl; try exact Hall; cbn; (intros t [->|(c & cs & -> & Hp)]; [auto|]).
  - exfalso. destruct Hst as [[_ Hd]|[Hs _]]; [rewrite Hd in Hsig; by apply not_elem_of_nil in Hsig|].
    unfold pass, waiter_monitor, waiter_signal, waiter_wait in Hp. rewrite Hs in Hp. by destruct c.
  - right. unfold pass, waiter_monitor, waiter_signal in Hp. destruct c; [done|]. by eexists.
Qed.

Definition is_done (c : wg_call) : Z := match c with Done => 1 | WaitAll => 0 end.
Definition dones (l : list wg_call) : Z := total is_done l.

Lemma dones_app l1 l2 : dones (l1 ++ l2) = dones l1 + dones l2.
Proof. unfold dones, total. induction l1 as [|c l1 IH]; cbn [app foldr]; [lia|]. rewrite IH. lia. Qed.
Lemma dones_nonneg l : 0 <= dones l.
Proof. apply total_nonneg. by intros []. Qed.

Definition left_over (l : list (task wg_call)) : Z := total (fun t => dones (calls t)) l.
Lemma left_over_insert l i (t t' : task wg_call) : l !! i = Some t ->
  left_over (<[i := t']> l) = left_over l + dones (calls t') - dones (calls t).
Proof. intros Hi. unfold left_over. rewrite (total_insert _ _ _ _ _ Hi). lia. Qed.
Lemma left_over_wake b l : left_over (broadcast b l) = left_over l.
Proof.
  destruct b; [|done]. unfold left_over. induction l as [|[cs w] l IH]; cbn in *; [done|]. rewrite IH. by destruct w.
Qed.
Lemma left_over_nonneg l : 0 <= left_over l.
Proof. apply total_nonneg. intros. apply dones_nonneg. Qed.

Lemma left_over_start progs : left_over ((fun p => mkTask p Ready) <$> progs) = total dones progs.
Proof. induction progs as [|p progs IH]; [done|]. cbn. f_equal. exact IH. Qed.

(** The counter, while it does not overflow. *)
Lemma wg_history n progs (s : system Z wg_call) :
  INT_MIN + total dones progs <= n <= INT_MAX -> reachable (wg_create n) progs s ->
  state s = n - dones (done s) /\ left_over (tasks s) + dones (done s) = total dones progs /\
  (WaitAll ∈ done s -> state s <= 0).
Proof.
  intros Hn. induction 1 as [|s s' _ (IH1 & IH2 & IH3) Hs|s s' _ (IH1 & IH2 & IH3) Hs].
  - cbn [state tasks done]. unfold wg_create. change (dones []) with 0. split; [lia|]. split; [|by intros ?%not_elem_of_nil].
    rewrite left_over_start. lia.
  - destruct Hs as [i c cs l Hi _|i c cs l Hi _|i c cs Hi _|i c cs v b Hi Hp]; cbn [state tasks done];
      rewrite ?left_over_wake, ?(left_over_insert _ _ _ _ Hi); cbn [calls]; [split_and!; [lia|lia|done]..|].
    rewrite dones_app. assert (dones (c :: cs) = is_done c + dones cs) as -> by done. assert (dones [c] = is_done c) as -> by (by destruct c).
    pose proof (left_over_nonneg (tasks s)). pose proof (dones_nonneg (done s)).
    unfold pass, wg_monitor, wg_done, wg_wait, sint in Hp. destruct c; cbn [is_done].
    + case_bool_decide as Hb; [|done]. rewrite ret_bind in Hp. injection Hp as <- <-. split; [lia|]. split; [lia|].
      intros [Hw|Hw]%elem_of_app; [specialize (IH3 Hw); lia|by apply list_elem_of_singleton in Hw].
    + destruct (Z.ltb_spec 0 (state s)); [done|]. injection Hp as <- <-. split_and!; [lia..|done].
  - destruct Hs as [i cs Hi]; cbn [state tasks done]. rewrite (left_over_insert _ _ _ _ Hi). cbn [calls]. split_and!; [lia|lia|done].
Qed.

Lemma left_over_lookup l i (t : task wg_call) : l !! i = Some t -> dones (calls t) <= left_over l.
Proof. intros Hi. apply (total_lookup (fun t => dones (calls t)) _ _ _ (fun t => dones_nonneg _) Hi). Qed.

(** C34.  A wait group of [n]: as long as the counter does not overflow, no
    call fails and the counter is [n] less the calls of [wg_done] that have
    returned; [wg_wait] has returned only if these are [n] or more; and when no thread
    can move any more the lock is free and, if they are, every thread has
    finished; otherwise those that have not sleep in [wg_wait]. *)
Theorem waitgroup_ok n progs (s : system Z wg_call) :
  INT_MIN + total dones progs <= n <= INT_MAX -> reachable (wg_create n) progs s ->
  wg_count (state s) = n - dones (done s) /\
  (WaitAll ∈ done s -> n <= dones (done s)) /\
  (forall i c cs, tasks s !! i = Some (mkTask (c :: cs) Locked) -> exists r, pass c (state s) = Ret r) /\
  (quiet s -> mtx (lock s) = None /\
     if decide (n <= dones (done s)) then Forall (fun t => t = mkTask [] Ready) (tasks s)
     else Forall (fun t => t = mkTask [] Ready \/ exists cs, t = mkTask (WaitAll :: cs) Asleep) (tasks s)).
Proof.
  intros Hn Hr. destruct (wg_history n progs s Hn Hr) as (H1 & H2 & H3).
  assert (forall i c cs, tasks s !! i = Some (mkTask (c :: cs) Locked) -> exists r, pass c (state s) = Ret r) as Hok.
  { intros i c cs Hi. pose proof (left_over_lookup _ _ _ Hi) as Hle. cbn [calls] in Hle.
    assert (dones (c :: cs) = is_done c + dones cs) as E by done. pose proof (dones_nonneg cs). pose proof (dones_nonneg (done s)).
    unfold pass, wg_monitor, wg_done, wg_wait, sint. destruct c; cbn [is_done] in E.
    - rewrite bool_decide_true by (unfold INT_MIN, INT_MAX in *; lia). rewrite ret_bind. by eexists.
    - case_match; by eexists. }
  split; [done|]. split; [intros Hw; specialize (H3 Hw); lia|]. split; [done|]. intros Hq.
  destruct (quiet_blocked s (sync_reachable_inv _ _ _ Hr) Hok Hq) as [Hm Hall].
  assert (forall c, pass c (state s) = Ret None -> c = WaitAll /\ 0 < state s) as Hblock.
  { intros c Hp. unfold pass, wg_monitor, wg_done, wg_wait, sint in Hp. destruct c; [by repeat case_match|].
    destruct (Z.ltb_spec 0 (state s)); done. }
  split; [done|]. case_decide; (eapply Forall_impl; [exact Hall|]); cbn; intros t [->|(c & cs & -> & Hp)]; auto;
    destruct (Hblock c Hp) as [-> ?]; [lia|right; by eexists].
Qed.
End theorems.

(** The deadline is normalised when the wait is not negative. *)
Lemma cond_deadline_ok tv_sec tv_nsec nanos :
  0 <= tv_nsec < 1000000000 -> 0 <= nanos ->
  let '(s, n) := cond_deadline tv_sec tv_nsec nanos in
  0 <= n < 1000000000 /\ s * 1000000000 + n = tv_sec * 1000000000 + tv_nsec + nanos.
Proof.
  intros Hn Hw. unfold cond_deadline. pose proof (Z.quot_rem' (tv_nsec + nanos) 1000000000).
  pose proof (Z.rem_bound_pos (tv_nsec + nanos) 1000000000). lia.
Qed.

(** A negative one gives [pthread_cond_timedwait] nanoseconds it refuses. *)
Example negative_deadline : cond_deadline 100 0 (-500000000) = (100, -500000000).
Proof. reflexivity. Qed.

(** ** Runs *)
Section runs.

(** A thread sleeps in [waiter_wait] until another one signals. *)
Lemma waiter_ok_witness :
  exists s : system Z waiter_call, Wait ∈ done s /\ Signal ∈ done s /\ Forall (fun t => t = mkTask [] Ready) (tasks s).
Proof.
  pose proof (reach_start waiter_create [[Wait]; [Signal]]) as R.
  eapply reach_step in R; [|by eapply (step_lock _ 0)]; simpl in R.
  eapply reach_step in R; [|by eapply (step_wait _ 0)]; simpl in R.
  eapply reach_step in R; [|by eapply (step_lock _ 1)]; simpl in R.
  eapply reach_step in R; [|by eapply (step_pass _ 1)]; simpl in R.
  eapply reach_step in R; [|by eapply (step_relock _ 0)]; simpl in R.
  eapply reach_step in R; [|by eapply (step_pass _ 0)]; simpl in R.
  destruct (waiter_ok _ _ R) as [Hw Hq]. eexists. split; [|split; [apply Hw|]].
  - vm_decide.
  - vm_decide.
  - apply Hq. intros s' Hs. inversion Hs as [i c cs l Hi|i c cs l Hi|i c cs Hi|i c cs v b Hi]; simpl in Hi;
      by destruct i as [|[|i]].
Defined.

Lemma waitgroup_ok_witness :
  exists s : system Z wg_call, WaitAll ∈ done s /\ wg_count (state s) = 0 /\ Forall (fun t => t = mkTask [] Ready) (tasks s).
Proof.
  pose proof (reach_start (wg_create 1) [[WaitAll]; [Done]]) as R.
  eapply reach_step in R; [|by eapply (step_lock _ 0)]; simpl in R.
  eapply reach_step in R; [|by eapply (step_wait _ 0)]; simpl in R.
  eapply reach_step in R; [|by eapply (step_lock _ 1)]; simpl in R.
  eapply reach_step in R; [|by eapply (step_pass _ 1)]; simpl in R.
  eapply reach_step in R; [|by eapply (step_relock _ 0)]; simpl in R.
  eapply reach_step in R; [|by eapply (step_pass _ 0)]; simpl in R.
  destruct (waitgroup_ok 1 [[WaitAll]; [Done]] _ ltac:(vm_decide) R) as (Hc & _ & _ & Hq). eexists. split; [|split; [apply Hc|]].
  - vm_decide.
  - apply Hq. intros s' Hs. inversion Hs as [i c cs l Hi|i c cs l Hi|i c cs Hi|i c cs v b Hi]; simpl in Hi;
      by destruct i as [|[|i]].
Defined.

(** After [cond_wait] the lock does not know its owner: the thread that holds
    the mutex is told that it does not. *)
Example lockedbyself_forgets :
  let l := default mtl_create (mtl_lock mtl_create 0) in
  let l := cond_wait_enter l in
  let l := mtl_unlock (default mtl_create (mtl_lock l 1)) in
  let l := default mtl_create (cond_wait_leave l 0) in
  mtx l = Some 0%nat /\ mtl_lockedbyself l 0 = false.
Proof. vm_compute. done. Qed.

Lemma lockedbyself_sound_witness :
  exists s : system Z waiter_call, mtl_lockedbyself (lock s) 0 = true /\ mtx (lock s) = Some 0%nat.
Proof.
  pose proof (reach_start waiter_create [[Signal]]) as R.
  eapply reach_step in R; [|by eapply (step_lock _ 0)]; simpl in R.
  eexists. split; [|refine (lockedbyself_sound _ _ _ 0 _ R eq_refl _ _)]; [reflexivity|by right|reflexivity].
Defined.
End runs.
