(* ===== verification/ThreadPool.v ===== *)
(** * The thread pool

    [base/threadpool.c]: worker threads take tasks from an intrusive queue
    ([Queue]) under a mutex and sleep on a condition variable when it is
    empty.  The workers are modelled step by step; the calls of the clients
    ([threadpool_submit], [threadpool_cancel], ...) are one step each, taken
    when the mutex is free.  They may come from any thread: what the work of
    a task does with the pool is a step of a client too.  The wrappers around
    POSIX threads, which abort on an error, are not modelled. *)

From stdpp Require Import base tactics numbers list option gmap.
From Stdlib Require Import Lia.
From S2P Require Import Prelude Queue.

Definition MAX_THREADPOOL_SIZE : Z := 128.

(** The nodes [pool->wq] and [pool->exit_message].  A task is known by the
    address of its node [task->wq]. *)
Definition WQ : Z := 1.
Definition exit_message : Z := 2.

(** Where a worker is in its loop: before [mutex_lock]; holding the mutex,
    at the test of the inner loop; asleep in [cond_wait]; woken up, but
    without the mutex; about to call the work of a task; about to clear
    [task->work]; returned. *)
Inductive place := At_lock | At_test | Asleep | Woken | At_work (q : Z) | At_clear (q : Z) | Exited.
#[export] Instance place_dec : EqDecision place.
Proof. solve_decision. Defined.

(** [tasks]: the tasks that are allocated, and whether [work] is set.
    [mutex]: the worker that holds it. *)
Record threadpool := mkPool {
  nodes : store;
  tasks : gmap Z bool;
  idle_threads : Z;
  mutex : option nat;
  workers : list place
}.

Definition set_nodes (p : threadpool) m := mkPool m (tasks p) (idle_threads p) (mutex p) (workers p).
Definition set_tasks (p : threadpool) t := mkPool (nodes p) t (idle_threads p) (mutex p) (workers p).
Definition set_idle (p : threadpool) n := mkPool (nodes p) (tasks p) n (mutex p) (workers p).
Definition set_mutex (p : threadpool) x := mkPool (nodes p) (tasks p) (idle_threads p) x (workers p).
Definition set_workers (p : threadpool) l := mkPool (nodes p) (tasks p) (idle_threads p) (mutex p) l.
Definition put_worker (p : threadpool) (i : nat) (w : place) := set_workers p (<[i := w]> (workers p)).

(** ** The operations *)

(** [SAFE_MALLOC] zeroes the block: [exit_message] is not linked to itself. *)
Definition threadpool_create (size : Z) : outcome threadpool :=
  let size := if size <? 1 then 1 else size in
  let size := if MAX_THREADPOOL_SIZE <? size then MAX_THREADPOOL_SIZE else size in
  let! m := QUEUE_INIT {[WQ := (0, 0); exit_message := (0, 0)]} WQ in
  Ret (mkPool m ∅ 0 None (replicate (Z.to_nat size) At_lock)).

(** What one turn of a worker with the mutex ends with. *)
Inductive turn := Sleep | Leave | Take (q : Z).

(** From the test of the inner loop to [cond_wait], or to [mutex_unlock]. *)
Definition worker_turn (p : threadpool) : outcome (turn * threadpool) :=
  let! e := QUEUE_EMPTY (nodes p) WQ in
  if (e : bool) then Ret (Sleep, set_idle p (u32 (idle_threads p + 1))) else
  let! q := QUEUE_HEAD (nodes p) WQ in
  if q =? exit_message then Ret (Leave, p) else
  let! m := QUEUE_REMOVE (nodes p) q in
  let! m := QUEUE_INIT m q in
  Ret (Take q, set_nodes p m).

(** After [cond_wait]. *)
Definition worker_woken (p : threadpool) : threadpool := set_idle p (u32 (idle_threads p - 1)).

(** The call of [task->work]: a null function pointer, or a task that is
    gone, cannot be called. *)
Definition worker_work (p : threadpool) (q : Z) : outcome unit :=
  let! set := deref (tasks p !! q) in
  defined set.

Definition worker_clear (p : threadpool) (q : Z) : outcome threadpool :=
  let! _ := deref (tasks p !! q) in
  Ret (set_tasks p (<[q := false]> (tasks p))).

(** The second component: whether [cond_signal] is called. *)
Definition post (p : threadpool) (q : Z) : outcome (threadpool * bool) :=
  let! m := QUEUE_INSERT_TAIL (nodes p) WQ q in
  Ret (set_nodes p m, 0 <? idle_threads p).

Definition threadpool_submit (p : threadpool) (task : Z) : outcome (threadpool * bool) :=
  let! set := deref (tasks p !! task) in
  c_assert set ;;
  post p task.

Definition threadpool_cancel (p : threadpool) (task : Z) : outcome (bool * threadpool) :=
  let! e := QUEUE_EMPTY (nodes p) WQ in
  let! cancelled := if (e : bool) then Ret false else deref (tasks p !! task) in
  if (cancelled : bool) then
    let! m := QUEUE_REMOVE (nodes p) task in
    Ret (true, set_nodes p m)
  else Ret (false, p).

(** [task] is the address that [malloc] returns. *)
Definition threadpool_task_create (p : threadpool) (task : Z) : threadpool :=
  set_tasks (set_nodes p (<[task := (0, 0)]> (nodes p))) (<[task := true]> (tasks p)).

Definition threadpool_task_release (p : threadpool) (task : Z) : threadpool :=
  set_tasks (set_nodes p (delete task (nodes p))) (delete task (tasks p)).

(** ** Threads *)

(** [cond_signal] wakes one of the workers asleep, if there is one. *)
Inductive signals (l : list place) : list place -> Prop :=
| signals_nobody : Asleep ∉ l -> signals l l
| signals_one i : l !! i = Some Asleep -> signals l (<[i := Woken]> l).

Inductive wakes (l : list place) : bool -> list place -> Prop :=
| wakes_none : wakes l false l
| wakes_signal l' : signals l l' -> wakes l true l'.

(** The pool and its history: the tasks submitted, those that
    [threadpool_cancel] took out of the queue, those that a worker took, and
    those whose work is done, each in order; the tasks it was asked to cancel;
    whether [threadpool_release] was called, and whether it has freed the
    pool. *)
Record system := mkSys {
  pool : threadpool;
  submitted : list Z;
  cancelled : list Z;
  started : list Z;
  finished : list Z;
  asked : list Z;
  closing : bool;
  freed : bool
}.
Definition set_pool (s : system) p := mkSys p (submitted s) (cancelled s) (started s) (finished s) (asked s) (closing s) (freed s).
Definition move (s : system) (i : nat) (w : place) : system := set_pool s (put_worker (pool s) i w).

Inductive worker_step (s : system) : system -> Prop :=
| step_lock i :
    mutex (pool s) = None -> workers (pool s) !! i = Some At_lock ->
    worker_step s (set_pool s (set_mutex (put_worker (pool s) i At_test) (Some i)))
| step_woken i :
    mutex (pool s) = None -> workers (pool s) !! i = Some Woken ->
    worker_step s (set_pool s (worker_woken (set_mutex (put_worker (pool s) i At_test) (Some i))))
| step_sleep i p :
    workers (pool s) !! i = Some At_test -> worker_turn (pool s) = Ret (Sleep, p) ->
    worker_step s (set_pool s (set_mutex (put_worker p i Asleep) None))
| step_take i q p :
    workers (pool s) !! i = Some At_test -> worker_turn (pool s) = Ret (Take q, p) ->
    worker_step s (mkSys (set_mutex (put_worker p i (At_work q)) None) (submitted s) (cancelled s) (started s ++ [q])
      (finished s) (asked s) (closing s) (freed s))
| step_leave i p l :
    workers (pool s) !! i = Some At_test -> worker_turn (pool s) = Ret (Leave, p) ->
    signals (<[i := Exited]> (workers p)) l ->
    worker_step s (set_pool s (set_mutex (set_workers p l) None))
| step_work i q :
    workers (pool s) !! i = Some (At_work q) -> worker_work (pool s) q = Ret tt ->
    worker_step s (move s i (At_clear q))
| step_clear i q p :
    workers (pool s) !! i = Some (At_clear q) -> worker_clear (pool s) q = Ret p ->
    worker_step s (mkSys (put_worker p i At_lock) (submitted s) (cancelled s) (started s)
      (finished s ++ [q]) (asked s) (closing s) (freed s))
| step_joined :
    closing s = true -> freed s = false -> Forall (fun w => w = Exited) (workers (pool s)) ->
    worker_step s (mkSys (pool s) (submitted s) (cancelled s) (started s) (finished s) (asked s) true true).

(** What clients do, and the contract they keep to: a task is submitted once,
    to a pool that is not being released; [threadpool_cancel] is called at
    most once for a task that was submitted; a task is released when it has
    not been submitted, was taken out of the queue, or has finished. *)
Definition over (s : system) (t : Z) : Prop := t ∉ submitted s \/ t ∈ cancelled s \/ t ∈ finished s.

Inductive client_step (s : system) : system -> Prop :=
| client_create t :
    t ∉ [0; WQ; exit_message] -> nodes (pool s) !! t = None -> t ∉ submitted s ->
    client_step s (set_pool s (threadpool_task_create (pool s) t))
| client_release_task t :
    is_Some (tasks (pool s) !! t) -> over s t ->
    client_step s (set_pool s (threadpool_task_release (pool s) t))
| client_submit t p b l :
    closing s = false -> mutex (pool s) = None -> is_Some (tasks (pool s) !! t) -> t ∉ submitted s ->
    threadpool_submit (pool s) t = Ret (p, b) -> wakes (workers p) b l ->
    client_step s (mkSys (set_workers p l) (submitted s ++ [t]) (cancelled s) (started s) (finished s) (asked s) false (freed s))
| client_cancel t c p :
    closing s = false -> mutex (pool s) = None -> is_Some (tasks (pool s) !! t) -> t ∈ submitted s -> t ∉ asked s ->
    threadpool_cancel (pool s) t = Ret (c, p) ->
    client_step s (mkSys p (submitted s) (if c && bool_decide (t ∉ started s) then t :: cancelled s else cancelled s)
      (started s) (finished s) (t :: asked s) false (freed s))
| client_release p b l :
    closing s = false -> mutex (pool s) = None ->
    post (pool s) exit_message = Ret (p, b) -> wakes (workers p) b l ->
    client_step s (mkSys (set_workers p l) (submitted s) (cancelled s) (started s) (finished s) (asked s) true (freed s)).

(** [pthread_cond_wait] may return without a signal. *)
Inductive spurious (s : system) : system -> Prop :=
| spurious_wakeup i : workers (pool s) !! i = Some Asleep -> spurious s (move s i Woken).

Inductive reachable (size : Z) : system -> Prop :=
| reach_start p : threadpool_create size = Ret p -> reachable size (mkSys p [] [] [] [] [] false false)
| reach_worker s s' : reachable size s -> worker_step s s' -> reachable size s'
| reach_client s s' : reachable size s -> client_step s s' -> reachable size s'
| reach_spurious s s' : reachable size s -> spurious s s' -> reachable size s'.

(** ** The invariant *)
Section inv.
Implicit Types (s : system) (p : threadpool) (m : store) (ws : list place) (l : list Z) (q t : Z).

Definition task_of (w : place) : option Z := match w with At_work q | At_clear q => Some q | _ => None end.
(** The tasks that a worker is busy with. *)
Definition running ws : list Z := omap task_of ws.
Definition waiting (w : place) : Z := match w with Asleep | Woken => 1 | _ => 0 end.
(** The worker will come back to the queue. *)
Definition awake (w : place) : Prop := w <> Asleep /\ w <> Exited.

(** What is in the queue: the tasks [l], then the exit message. *)
Definition queued (c : bool) l : list Z := l ++ if c then [exit_message] else [].

Record threads_base (c : bool) l p : Prop := {
  th_mutex : forall i, mutex p = Some i <-> workers p !! i = Some At_test;
  th_idle : idle_threads p = total waiting (workers p);
  th_len : 1 <= zlen (workers p) <= MAX_THREADPOOL_SIZE;
  th_exited : Exited ∈ workers p -> c = true /\ l = []
}.
Record threads_ok (c : bool) l p : Prop := {
  th_base : threads_base c l p;
  th_wake : queued c l <> [] -> Exists awake (workers p) \/ Forall (fun w => w = Exited) (workers p)
}.

Record inv s l : Prop := {
  in_ring : ring (nodes (pool s)) WQ (queued (closing s) l);
  in_exit : is_Some (nodes (pool s) !! exit_message);
  in_tasks : forall t b, tasks (pool s) !! t = Some b ->
    is_Some (nodes (pool s) !! t) /\ t <> WQ /\ t <> exit_message /\ (t ∉ submitted s -> b = true);
  in_history : filter (fun t => t ∉ cancelled s) (submitted s) = started s ++ l;
  in_nodup : NoDup (submitted s);
  in_started : started s ≡ₚ finished s ++ running (workers (pool s));
  in_running : forall t, t ∈ running (workers (pool s)) ->
    tasks (pool s) !! t = Some true /\ ring (nodes (pool s)) t [];
  in_queue : forall t, t ∈ l -> tasks (pool s) !! t = Some true;
  in_finished : forall t, t ∈ finished s -> tasks (pool s) !! t <> Some true;
  in_asked : cancelled s ⊆ asked s /\ asked s ⊆ submitted s;
  in_threads : threads_ok (closing s) l (pool s)
}.

(** *** Lists of workers *)
Lemma running_split ws i w w' : ws !! i = Some w ->
  exists l1 l2, running ws = l1 ++ option_list (task_of w) ++ l2 /\
    running (<[i := w']> ws) = l1 ++ option_list (task_of w') ++ l2.
Proof.
  intros Hi. exists (running (take i ws)), (running (drop (S i) ws)). unfold running. split.
  - rewrite <- (take_drop_middle _ _ _ Hi) at 1. rewrite omap_app. cbn. by destruct (task_of w).
  - rewrite insert_take_drop by (by eapply lookup_lt_Some). rewrite omap_app. cbn. by destruct (task_of w').
Qed.
Lemma running_same ws i w w' : ws !! i = Some w -> task_of w' = task_of w -> running (<[i := w']> ws) = running ws.
Proof. intros Hi Hw. destruct (running_split ws i w w' Hi) as (l1 & l2 & -> & ->). by rewrite Hw. Qed.

Lemma waiting_nonneg w : 0 <= waiting w.
Proof. by destruct w. Qed.
Lemma waiting_bound ws : 0 <= total waiting ws <= zlen ws.
Proof.
  split; [apply total_nonneg, waiting_nonneg|]. induction ws as [|w ws IH]; cbn [total foldr]; [zlia|].
  fold (total waiting ws). rewrite zlen_cons. destruct w; cbn [waiting]; lia.
Qed.

Lemma wakes_running ws b ws' : wakes ws b ws' -> running ws' = running ws.
Proof.
  destruct 1 as [|ws' [|i Hi]]; try done. by eapply running_same.
Qed.

(** *** The workers *)
Lemma exists_lookup (P : place -> Prop) ws i w : ws !! i = Some w -> P w -> Exists P ws.
Proof. intros Hi Hw. apply Exists_exists. exists w. split; [by eapply list_elem_of_lookup_2|done]. Qed.

(** Worker [i] goes from [w] to [w'] and the mutex from [x] to [x']. *)
Lemma threads_put c l l' p i w w' x' n' m' ts :
  threads_base c l p -> workers p !! i = Some w ->
  (if decide (w' = At_test) then x' = Some i /\ mutex p = None
   else if decide (w = At_test) then x' = None else x' = mutex p) ->
  n' = idle_threads p + waiting w' - waiting w -> w <> Exited ->
  (w' = Exited -> c = true /\ l' = []) -> (l = [] -> l' = []) ->
  threads_base c l' (mkPool m' ts n' x' (<[i := w']> (workers p))).
Proof.
  intros [Hm Hidle Hlen Hex] Hi Hx -> Hw Hw' Hl. pose proof (lookup_lt_Some _ _ _ Hi) as Hlt.
  constructor; cbn [mutex idle_threads workers].
  - intros j. destruct (decide (i = j)) as [<-|Hne].
    + rewrite list_lookup_insert_eq by done. specialize (Hm i). rewrite Hi in Hm. repeat case_decide; naive_solver.
    + rewrite list_lookup_insert_ne by done. repeat case_decide; subst.
      * destruct Hx as [-> Hno]. rewrite <- Hm, Hno. naive_solver.
      * assert (mutex p = Some i) as Hp by (by apply Hm). rewrite <- Hm, Hp. naive_solver.
      * by rewrite Hm.
  - rewrite (total_insert _ _ _ _ _ Hi). lia.
  - by rewrite zlen_insert.
  - intros [j Hj]%list_elem_of_lookup. apply list_lookup_insert_Some in Hj as [(<- & -> & _)|[_ Hj]]; [by apply Hw'|].
    destruct Hex as [-> ->]; [by eapply list_elem_of_lookup_2|]. auto.
Qed.

Lemma put_awake ws i w w' : ws !! i = Some w -> awake w' -> Exists awake (<[i := w']> ws).
Proof. intros Hi Hw. eapply (exists_lookup _ _ i); [by apply list_lookup_insert_eq, (lookup_lt_Some _ _ w)|done]. Qed.

(** A signal wakes a worker, or there is none to wake. *)
Lemma nobody_asleep ws : Asleep ∉ ws -> Exists awake ws \/ Forall (fun w => w = Exited) ws.
Proof.
  induction ws as [|w ws IH]; intros Hn; [by right|]. rewrite not_elem_of_cons in Hn. destruct Hn as [Hw Hn].
  destruct (IH Hn) as [Ha|Hf]; [left; by right|]. destruct (decide (w = Exited)); [right; by constructor|left; left; by split].
Qed.

Lemma threads_signal c l p ws' : threads_base c l p -> signals (workers p) ws' -> threads_ok c l (set_workers p ws').
Proof.
  intros Hb Hs. destruct Hs as [Hn|i Hi].
  - split; [by destruct p|]. intros _. by apply nobody_asleep.
  - split; [|intros _; left; eapply put_awake; [exact Hi|by split]].
    eapply (threads_put c l l p i Asleep Woken); rewrite ?decide_False; (done || cbn [waiting]; lia).
Qed.

Lemma threads_wakes c l p ws' : threads_base c l p -> wakes (workers p) (0 <? idle_threads p) ws' -> threads_ok c l (set_workers p ws').
Proof.
  intros Hb Hs. destruct (Z.ltb_spec 0 (idle_threads p)) as [Hpos|Hz]; inversion Hs; subst; [by apply threads_signal|].
  split; [by destruct p|]. intros _. apply nobody_asleep. intros [i Hi]%list_elem_of_lookup. cbn [workers set_workers] in Hi.
  pose proof (total_lookup waiting _ _ _ waiting_nonneg Hi) as Hle. rewrite <- (th_idle _ _ _ Hb) in Hle. cbn in Hle. lia.
Qed.

(** *** Consequences of the invariant *)
Lemma inv_history_nodup s l : inv s l -> NoDup (started s ++ l).
Proof. intros []. rewrite <- in_history0. by apply NoDup_filter. Qed.

Lemma inv_running s l t : inv s l -> t ∈ running (workers (pool s)) ->
  t ∈ started s /\ t ∉ finished s /\ t ∉ WQ :: queued (closing s) l.
Proof.
  intros Hinv Ht. pose proof (inv_history_nodup s l Hinv) as Hd. destruct Hinv. destruct (in_running0 t Ht) as [Hset _].
  destruct (in_tasks0 _ _ Hset) as (_ & Hwq & Hex & _). apply NoDup_app in Hd as (Hds & Hdis & _).
  assert (t ∈ started s) as Hs by (rewrite in_started0; set_solver). split_and!; [done| |].
  - intros Hf. by apply (in_finished0 t).
  - unfold queued. specialize (Hdis t Hs). destruct (closing s); set_solver.
Qed.

(** Only the places of the workers, the mutex and the counter change. *)
Lemma inv_places s l p' :
  inv s l -> nodes p' = nodes (pool s) -> tasks p' = tasks (pool s) -> running (workers p') = running (workers (pool s)) ->
  threads_ok (closing s) l p' -> inv (set_pool s p') l.
Proof. intros [] En Et Er Ht. constructor; cbn [pool closing submitted cancelled started finished asked set_pool]; rewrite ?En, ?Et, ?Er; done. Qed.

Lemma worker_turn_ok s l : inv s l ->
  (l = [] /\ closing s = false /\
     worker_turn (pool s) = Ret (Sleep, set_idle (pool s) (u32 (idle_threads (pool s) + 1)))) \/
  (l = [] /\ closing s = true /\ worker_turn (pool s) = Ret (Leave, pool s)) \/
  (exists q l' m', l = q :: l' /\ worker_turn (pool s) = Ret (Take q, set_nodes (pool s) m') /\
     ring m' WQ (queued (closing s) l') /\ ring m' q [] /\ changes (WQ :: queued (closing s) l) (nodes (pool s)) m').
Proof.
  intros Hinv. pose proof Hinv as []. unfold worker_turn.
  rewrite (QUEUE_EMPTY_ok _ _ _ in_ring0), ret_bind, (QUEUE_HEAD_ok _ _ _ in_ring0).
  destruct l as [|q l]; cbn [queued app] in *; unfold queued in *; cbn [app] in *.
  - destruct (closing s); cbn [app]; [right; left|left]; rewrite ?ret_bind; split_and!; reflexivity.
  - right; right. rewrite bool_decide_false, ret_bind by done. cbn [head default from_option id].
    destruct (in_tasks0 q true) as (_ & _ & Hq & _); [apply in_queue0; set_solver|]. apply Z.eqb_neq in Hq. rewrite Hq.
    destruct (QUEUE_REMOVE_ok (nodes (pool s)) WQ q [] (l ++ if closing s then [exit_message] else [])) as (m1 & -> & Hr1 & Hc1 & Hq1);
      [exact in_ring0|]. rewrite ret_bind. destruct (QUEUE_INIT_ok m1 q Hq1) as (m2 & -> & Hr2 & Hc2). rewrite ret_bind.
    exists q, l, m2. split; [done|]. split; [done|]. split; [|split; [done|]].
    + eapply ring_frame; [exact Hr1|exact Hc2|]. destruct in_ring0 as [Hd _]. cbn [app]. rewrite !NoDup_cons in Hd. set_solver.
    + eapply changes_trans; [eapply changes_mono; [exact Hc1|set_solver]|eapply changes_mono; [exact Hc2|set_solver]].
Qed.

Lemma u32_small n : 0 <= n <= 2 * MAX_THREADPOOL_SIZE -> u32 n = n.
Proof. unfold MAX_THREADPOOL_SIZE. intros ?. apply wrapu_small. lia. Qed.

(** *** The steps of the workers *)
Ltac base_step Hth := eapply (threads_put _ _ _ _ _ _ _ _ _ _ _ (th_base _ _ _ Hth));
  [eassumption|rewrite ?decide_True, ?decide_False by done; auto|..];
  cbn [waiting idle_threads mutex put_worker set_workers set_idle set_mutex set_nodes set_tasks]; try done; try lia.
Ltac place_step Hth := split; [base_step Hth|try (intros _; left; eapply put_awake; [eassumption|by split])].

Lemma inv_lock s l i : inv s l -> mutex (pool s) = None -> workers (pool s) !! i = Some At_lock ->
  inv (set_pool s (set_mutex (put_worker (pool s) i At_test) (Some i))) l.
Proof.
  intros Hinv Hm Hi. pose proof (in_threads _ _ Hinv) as Hth.
  apply inv_places; [done..|by eapply running_same|]. place_step Hth.
Qed.

Lemma inv_woken s l i : inv s l -> mutex (pool s) = None -> workers (pool s) !! i = Some Woken ->
  inv (set_pool s (worker_woken (set_mutex (put_worker (pool s) i At_test) (Some i)))) l.
Proof.
  intros Hinv Hm Hi. pose proof (in_threads _ _ Hinv) as Hth.
  apply inv_places; [done..|by eapply running_same|]. place_step Hth.
  destruct (th_base _ _ _ Hth) as [_ Hidle ? _]. pose proof (waiting_bound (workers (pool s))).
  pose proof (total_lookup waiting _ _ _ waiting_nonneg Hi) as Hle. cbn [waiting] in Hle. rewrite u32_small by lia. lia.
Qed.

Lemma inv_sleep s i : inv s [] -> workers (pool s) !! i = Some At_test -> closing s = false ->
  inv (set_pool s (set_mutex (put_worker (set_idle (pool s) (u32 (idle_threads (pool s) + 1))) i Asleep) None)) [].
Proof.
  intros Hinv Hi Hc. pose proof (in_threads _ _ Hinv) as Hth.
  apply inv_places; [done..|by eapply running_same|]. split; [|by rewrite Hc]. base_step Hth.
  destruct (th_base _ _ _ Hth) as [_ Hidle ? _]. pose proof (waiting_bound (workers (pool s))).
  rewrite u32_small by (unfold MAX_THREADPOOL_SIZE in *; lia). lia.
Qed.

Lemma inv_leave s i ws' : inv s [] -> workers (pool s) !! i = Some At_test -> closing s = true ->
  signals (<[i := Exited]> (workers (pool s))) ws' -> inv (set_pool s (set_mutex (set_workers (pool s) ws') None)) [].
Proof.
  intros Hinv Hi Hc Hs. pose proof (in_threads _ _ Hinv) as Hth. apply inv_places; try done.
  - transitivity (running (<[i := Exited]> (workers (pool s)))); [|by eapply running_same].
    apply (wakes_running _ true). by constructor.
  - apply (threads_signal _ _ (set_mutex (put_worker (pool s) i Exited) None)); [|done]. base_step Hth.
Qed.

Lemma inv_work s l i q : inv s l -> workers (pool s) !! i = Some (At_work q) -> inv (move s i (At_clear q)) l.
Proof.
  intros Hinv Hi. pose proof (in_threads _ _ Hinv) as Hth.
  apply inv_places; [done..|by eapply running_same|]. place_step Hth.
Qed.

Lemma inv_wakeup s l i : inv s l -> workers (pool s) !! i = Some Asleep -> inv (move s i Woken) l.
Proof.
  intros Hinv Hi. pose proof (in_threads _ _ Hinv) as Hth.
  apply inv_places; [done..|by eapply running_same|]. place_step Hth.
Qed.

Lemma inv_take s q l i m' :
  inv s (q :: l) -> workers (pool s) !! i = Some At_test ->
  ring m' WQ (queued (closing s) l) -> ring m' q [] -> changes (WQ :: queued (closing s) (q :: l)) (nodes (pool s)) m' ->
  inv (mkSys (set_mutex (put_worker (set_nodes (pool s) m') i (At_work q)) None) (submitted s) (cancelled s) (started s ++ [q])
      (finished s) (asked s) (closing s) (freed s)) l.
Proof.
  intros Hinv Hi Hr1 Hr2 Hch. pose proof (in_threads _ _ Hinv) as Hth.
  pose proof (fun t => inv_running _ _ t Hinv) as Hrun. destruct Hinv.
  destruct (running_split _ i At_test (At_work q) Hi) as (r1 & r2 & E1 & E2). cbn [task_of option_list app] in E1, E2.
  constructor; cbn [pool closing submitted cancelled started finished asked nodes tasks workers set_mutex put_worker set_workers set_nodes]; try done.
  - by apply Hch.
  - intros t b Ht. destruct (in_tasks0 t b Ht) as (? & ? & ? & ?). split_and!; try done. by apply Hch.
  - by rewrite in_history0, <- app_assoc.
  - rewrite E2, in_started0, E1. solve_Permutation.
  - intros t. rewrite E2. intros Ht. destruct (decide (t = q)) as [->|Hne]; [split; [apply in_queue0; set_solver|done]|].
    assert (t ∈ running (workers (pool s))) as Ht' by (rewrite E1; set_solver).
    destruct (in_running0 t Ht') as [? Hrt]. split; [done|]. eapply ring_frame; [exact Hrt|exact Hch|].
    destruct (Hrun t Ht') as (_ & _ & Hno). intros x Hx. rewrite not_elem_of_cons. split; [by intros ->|apply not_elem_of_nil].
  - intros t Ht. apply in_queue0. set_solver.
  - place_step Hth.
Qed.

Lemma inv_clear s l i q p :
  inv s l -> workers (pool s) !! i = Some (At_clear q) -> worker_clear (pool s) q = Ret p ->
  inv (mkSys (put_worker p i At_lock) (submitted s) (cancelled s) (started s)
      (finished s ++ [q]) (asked s) (closing s) (freed s)) l.
Proof.
  intros Hinv Hi Hp. pose proof (in_threads _ _ Hinv) as Hth. pose proof (inv_history_nodup _ _ Hinv) as Hd.
  pose proof (fun t => inv_running _ _ t Hinv) as Hrun. destruct Hinv.
  destruct (running_split _ i (At_clear q) At_lock Hi) as (r1 & r2 & E1 & E2). cbn [task_of option_list app] in E1, E2.
  assert (q ∈ running (workers (pool s))) as Hq by (rewrite E1; set_solver).
  destruct (Hrun q Hq) as (Hqs & Hqf & Hqn). destruct (in_running0 q Hq) as [Hqt _].
  unfold worker_clear in Hp. rewrite Hqt in Hp. cbn [deref] in Hp. rewrite ret_bind in Hp. injection Hp as <-.
  apply NoDup_app in Hd as (Hds & Hdis & _). rewrite in_started0, E1 in Hds.
  assert (q ∉ r1 ++ r2) as Hq'.
  { rewrite !NoDup_app in Hds. set_solver. }
  constructor; cbn [pool closing submitted cancelled started finished asked nodes tasks workers set_mutex put_worker set_workers set_tasks]; try done.
  - intros t b [[<- <-]|[Hne Ht]]%lookup_insert_Some; [|by apply in_tasks0].
    destruct (in_tasks0 q true Hqt) as (? & ? & ? & _). split_and!; try done. intros Hno. destruct Hno.
    assert (q ∈ filter (fun t => t ∉ cancelled s) (submitted s)) as Hin by (rewrite in_history0; set_solver).
    by apply list_elem_of_filter in Hin as [_ ?].
  - rewrite E2, in_started0, E1. solve_Permutation.
  - intros t. rewrite E2. intros Ht. rewrite lookup_insert_ne by (intros ->; done). apply in_running0. rewrite E1. set_solver.
  - intros t Ht. rewrite lookup_insert_ne; [by apply in_queue0|]. intros ->. by apply (Hdis t).
  - intros t Ht. destruct (decide (t = q)) as [->|]; [by rewrite lookup_insert_eq|]. rewrite lookup_insert_ne by done.
    apply in_finished0. set_solver.
  - place_step Hth.
Qed.

(** *** The steps of the clients *)
Lemma in_history_elem s l t : inv s l -> t ∈ started s ++ l <-> t ∈ submitted s /\ t ∉ cancelled s.
Proof. intros []. rewrite <- in_history0, list_elem_of_filter. tauto. Qed.

Lemma over_free s l t : inv s l -> over s t -> t ∉ l /\ t ∉ running (workers (pool s)).
Proof.
  intros Hinv Hover. pose proof (inv_history_nodup _ _ Hinv) as Hd. pose proof (in_history_elem _ _ t Hinv) as Hh.
  pose proof (inv_running _ _ t Hinv) as Hrun. apply NoDup_app in Hd as (_ & Hdis & _).
  assert (t ∈ finished s -> t ∈ started s) as Hf by (rewrite (in_started _ _ Hinv); set_solver).
  specialize (Hdis t). unfold over in Hover. rewrite elem_of_app in Hh. split; intros Ht; [|specialize (Hrun Ht)]; tauto.
Qed.

Lemma inv_create s l t :
  inv s l -> t ∉ [0; WQ; exit_message] -> nodes (pool s) !! t = None -> t ∉ submitted s ->
  inv (set_pool s (threadpool_task_create (pool s) t)) l.
Proof.
  intros Hinv Ht Hno Hsub. pose proof (inv_running _ _ t Hinv) as Hrun. destruct Hinv.
  assert (forall h xs, ring (nodes (pool s)) h xs -> ring (<[t := (0, 0)]> (nodes (pool s))) h xs) as Hsame.
  { intros h xs Hr. eapply ring_same; [exact Hr|]. intros x Hx. apply lookup_insert_ne. intros ->.
    destruct (ring_node _ _ _ _ Hr Hx). congruence. }
  assert (forall x, is_Some (nodes (pool s) !! x) -> is_Some (<[t := (0, 0)]> (nodes (pool s)) !! x)) as Hsome.
  { intros x Hx. destruct (decide (t = x)) as [->|]; [by rewrite lookup_insert_eq|by rewrite lookup_insert_ne]. }
  constructor; cbn [pool closing submitted cancelled started finished asked nodes tasks workers set_pool set_nodes set_tasks threadpool_task_create]; try done; auto.
  - intros x b [[<- <-]|[Hne Hx]]%lookup_insert_Some; [|destruct (in_tasks0 x b Hx) as (? & ?); auto].
    rewrite lookup_insert_eq. set_solver.
  - intros x Hx. destruct (in_running0 x Hx). split; [|auto]. rewrite lookup_insert_ne; [done|]. intros <-.
    destruct (in_tasks0 t true) as [[? ?] _]; [done|congruence].
  - intros x Hx. specialize (in_queue0 x Hx). rewrite lookup_insert_ne; [done|]. intros <-.
    destruct (in_tasks0 t true) as [[? ?] _]; [done|congruence].
  - intros x Hx. rewrite lookup_insert_ne; [auto|]. intros <-. apply Hsub.
    assert (t ∈ started s) as Hs by (rewrite in_started0; set_solver).
    assert (t ∈ filter (fun t => t ∉ cancelled s) (submitted s)) as Hin by (rewrite in_history0; set_solver).
    by apply list_elem_of_filter in Hin as [_ ?].
  - by destruct in_threads0 as [[]].
Qed.

Lemma inv_release_task s l t :
  inv s l -> is_Some (tasks (pool s) !! t) -> over s t -> inv (set_pool s (threadpool_task_release (pool s) t)) l.
Proof.
  intros Hinv [b0 Ht] Hover. destruct (over_free _ _ _ Hinv Hover) as [Hl Hr]. destruct Hinv.
  destruct (in_tasks0 t b0 Ht) as (_ & Hwq & Hex & _).
  constructor; cbn [pool closing submitted cancelled started finished asked nodes tasks workers set_pool set_nodes set_tasks threadpool_task_release]; try done.
  - eapply ring_same; [exact in_ring0|]. intros x Hx. apply lookup_delete_ne. intros <-.
    unfold queued in Hx. destruct (closing s); set_solver.
  - by rewrite lookup_delete_ne.
  - intros x b [Hne Hx]%lookup_delete_Some. rewrite lookup_delete_ne by done. by apply in_tasks0.
  - intros x Hx. destruct (in_running0 x Hx) as [? Hring]. assert (t <> x) by (by intros ->). rewrite lookup_delete_ne by done.
    split; [done|]. eapply ring_same; [exact Hring|]. intros y Hy. apply lookup_delete_ne. set_solver.
  - intros x Hx. rewrite lookup_delete_ne by (by intros ->). auto.
  - intros x Hx Hd. apply lookup_delete_Some in Hd as [_ Hd]. by apply (in_finished0 x).
  - by destruct in_threads0 as [[]].
Qed.

(** Appending a node that no worker is busy with. *)
Lemma post_ok s l q :
  inv s l -> closing s = false -> is_Some (nodes (pool s) !! q) -> q ∉ WQ :: l -> q ∉ running (workers (pool s)) ->
  exists m', post (pool s) q = Ret (set_nodes (pool s) m', 0 <? idle_threads (pool s)) /\
    ring m' WQ (l ++ [q]) /\ (forall x, is_Some (nodes (pool s) !! x) -> is_Some (m' !! x)) /\
    (forall x, x ∈ running (workers (pool s)) -> ring m' x []).
Proof.
  intros Hinv Hc Hq Hn Hr. pose proof (fun t => inv_running _ _ t Hinv) as Hrun. destruct Hinv.
  rewrite Hc in *. unfold queued in *. rewrite app_nil_r in *.
  destruct (QUEUE_INSERT_TAIL_ok (nodes (pool s)) WQ q l) as (m' & E1 & Hring & Hch); [done..|].
  unfold post. rewrite E1, ret_bind. exists m'. split; [done|]. split; [done|]. split; [apply Hch|].
  intros x Hx. destruct (Hrun x Hx) as (_ & _ & Hno). eapply ring_frame; [by apply in_running0|exact Hch|]. set_solver.
Qed.

Lemma inv_submit s l t p b ws' :
  inv s l -> closing s = false -> is_Some (tasks (pool s) !! t) -> t ∉ submitted s ->
  threadpool_submit (pool s) t = Ret (p, b) -> wakes (workers p) b ws' ->
  inv (mkSys (set_workers p ws') (submitted s ++ [t]) (cancelled s) (started s) (finished s) (asked s) false (freed s)) (l ++ [t]).
Proof.
  intros Hinv Hc [b0 Ht] Hsub Hp Hw. pose proof (in_threads _ _ Hinv) as Hth. destruct (over_free s l t Hinv) as [Hl Hr]; [by left|].
  pose proof Hinv as []. destruct (in_tasks0 t b0 Ht) as (Hnode & Hwq & Hex & Hb). rewrite (Hb Hsub) in Ht.
  destruct (post_ok s l t Hinv Hc Hnode) as (m' & E1 & Hring & Hsome & Hrun); [set_solver|done|].
  unfold threadpool_submit in Hp. rewrite Ht in Hp. cbn [deref c_assert] in Hp. rewrite !ret_bind, E1 in Hp. injection Hp as <- <-.
  cbn [workers set_nodes] in Hw. destruct in_asked0 as [Ha1 Ha2].
  constructor; cbn [pool closing submitted cancelled started finished asked nodes tasks workers set_workers set_nodes]; try done.
  - unfold queued. by rewrite app_nil_r.
  - by apply Hsome.
  - intros x bx Hx. destruct (in_tasks0 x bx Hx) as (? & ? & ? & ?). split_and!; auto. set_solver.
  - rewrite filter_app, in_history0, <- app_assoc. do 2 f_equal. rewrite filter_cons_True by set_solver. done.
  - apply NoDup_app. split_and!; [done|set_solver|apply NoDup_singleton].
  - by rewrite (wakes_running _ _ _ Hw).
  - rewrite (wakes_running _ _ _ Hw). intros x Hx. split; [by apply in_running0|by apply Hrun].
  - set_solver.
  - set_solver.
  - apply (threads_wakes _ _ (set_nodes (pool s) m')); [|done]. destruct (th_base _ _ _ Hth) as [? ? ? Hexited]. split; try done.
    rewrite Hc in Hexited. intros Hex'. by destruct (Hexited Hex').
Qed.

Lemma inv_close s l p b ws' :
  inv s l -> closing s = false -> post (pool s) exit_message = Ret (p, b) -> wakes (workers p) b ws' ->
  inv (mkSys (set_workers p ws') (submitted s) (cancelled s) (started s) (finished s) (asked s) true (freed s)) l.
Proof.
  intros Hinv Hc Hp Hw. pose proof (in_threads _ _ Hinv) as Hth. pose proof Hinv as [].
  assert (forall t, tasks (pool s) !! t = Some true -> t <> exit_message) as Hne by (intros t Ht; by apply (in_tasks0 t true)).
  destruct (post_ok s l exit_message Hinv Hc in_exit0) as (m' & E1 & Hring & Hsome & Hrun).
  { rewrite not_elem_of_cons. split; [done|]. intros ?%in_queue0. by eapply Hne. }
  { intros [? _]%in_running0. by eapply Hne. }
  rewrite E1 in Hp. injection Hp as <- <-. cbn [workers set_nodes] in Hw.
  constructor; cbn [pool closing submitted cancelled started finished asked nodes tasks workers set_workers set_nodes]; try done.
  - by apply Hsome.
  - intros x bx Hx. destruct (in_tasks0 x bx Hx) as (? & ? & ? & ?). auto.
  - by rewrite (wakes_running _ _ _ Hw).
  - rewrite (wakes_running _ _ _ Hw). intros x Hx. split; [by apply in_running0|by apply Hrun].
  - apply (threads_wakes _ _ (set_nodes (pool s) m')); [|done]. destruct (th_base _ _ _ Hth) as [? ? ? Hexited]. split; try done.
    rewrite Hc in Hexited. intros Hex'. by destruct (Hexited Hex').
Qed.

(** A node that is linked to itself only. *)
Lemma remove_self m q : ring m q [] -> exists m', QUEUE_REMOVE m q = Ret m' /\ ring m' q [] /\ changes [q] m m'.
Proof.
  intros [Hd [H1 H2]]. unfold QUEUE_REMOVE, set_prev_next, set_next_prev. words_run. eexists. split; [done|].
  split; [split; [done|]|changed]. cbn [seg]. by words.
Qed.

(** What [threadpool_cancel] does with a task that was submitted: it takes it
    out of the queue; or a worker has it. *)
Lemma cancel_ok s l t :
  inv s l -> closing s = false -> is_Some (tasks (pool s) !! t) -> t ∈ submitted s -> t ∉ asked s ->
  (exists l1 l2 m', l = l1 ++ t :: l2 /\ t ∉ started s /\ threadpool_cancel (pool s) t = Ret (true, set_nodes (pool s) m') /\
     ring m' WQ (l1 ++ l2) /\ changes (WQ :: l1 ++ l2) (nodes (pool s)) m') \/
  (t ∈ started s /\ exists c m', threadpool_cancel (pool s) t = Ret (c, set_nodes (pool s) m') /\
     (c = true <-> l <> [] /\ tasks (pool s) !! t = Some true) /\
     changes [t] (nodes (pool s)) m' /\ (t ∈ running (workers (pool s)) -> ring m' t []) /\
     (t ∉ running (workers (pool s)) -> m' = nodes (pool s))).
Proof.
  intros Hinv Hc [b Ht] Hsub Hask. pose proof (in_history_elem _ _ t Hinv) as Hh. pose proof (inv_running _ _ t Hinv) as Hrun.
  pose proof (inv_history_nodup _ _ Hinv) as Hd. destruct Hinv. rewrite Hc in *. unfold queued in *. rewrite app_nil_r in *.
  unfold threadpool_cancel. rewrite (QUEUE_EMPTY_ok _ _ _ in_ring0), ret_bind, Ht. cbn [deref].
  destruct in_asked0 as [Ha1 Ha2]. assert (t ∈ started s ++ l) as [Hst|Hl]%elem_of_app by (apply Hh; set_solver).
  - right. split; [done|]. case_bool_decide as Hl; rewrite ret_bind.
    { exists false, (nodes (pool s)). split; [by destruct (pool s)|]. split; [naive_solver|]. split; [apply changes_refl|].
      split; [|done]. intros Hr. by apply in_running0. }
    destruct b.
    + assert (t ∈ running (workers (pool s))) as Hr.
      { rewrite in_started0 in Hst. apply elem_of_app in Hst as [Hf|]; [|done]. by destruct (in_finished0 t Hf). }
      destruct (remove_self (nodes (pool s)) t) as (m' & -> & Hr' & Hch); [by apply in_running0|]. rewrite ret_bind.
      exists true, m'. split_and!; [done|naive_solver|done..].
    + exists false, (nodes (pool s)). split; [by destruct (pool s)|]. split; [naive_solver|]. split; [apply changes_refl|].
      split; [|done]. intros Hr. by apply in_running0.
  - left. pose proof (in_queue0 t Hl) as Hset. rewrite Hset in Ht. injection Ht as <-.
    apply list_elem_of_split in Hl as (l1 & l2 & ->). rewrite bool_decide_false, ret_bind by (by destruct l1).
    destruct (QUEUE_REMOVE_ok _ _ _ _ _ in_ring0) as (m' & -> & Hr' & Hch & _). rewrite ret_bind.
    exists l1, l2, m'. split_and!; [done| |done..]. apply NoDup_app in Hd as (_ & Hdis & _). intros Hst. apply (Hdis t Hst). set_solver.
Qed.

Lemma filter_other t l : t ∉ l -> filter (fun x => x <> t) l = l.
Proof.
  induction l as [|x l IH]; intros Ht; [done|]. rewrite filter_cons_True by set_solver. by rewrite IH by set_solver.
Qed.
Lemma filter_not_in_cons t c l :
  filter (fun x => x ∉ t :: c) l = filter (fun x => x <> t) (filter (fun x : Z => x ∉ c) l).
Proof. rewrite list_filter_filter. apply list_filter_iff. intros x. rewrite not_elem_of_cons. tauto. Qed.

Lemma threads_shrink l l' p : threads_ok false l p -> (l = [] -> l' = []) -> threads_ok false l' p.
Proof.
  intros [[? ? ? Hex] Hw] Hl. split; [split; try done; intros Hin; by destruct (Hex Hin)|].
  unfold queued in *. rewrite app_nil_r in *. intros Hne. apply Hw. by intros ->%Hl.
Qed.

Lemma inv_cancel s l t c p :
  inv s l -> closing s = false -> is_Some (tasks (pool s) !! t) -> t ∈ submitted s -> t ∉ asked s ->
  threadpool_cancel (pool s) t = Ret (c, p) ->
  exists l', inv (mkSys p (submitted s) (if c && bool_decide (t ∉ started s) then t :: cancelled s else cancelled s)
      (started s) (finished s) (t :: asked s) false (freed s)) l'.
Proof.
  intros Hinv Hc Ht Hsub Hask Hp. pose proof (fun x => inv_running _ _ x Hinv) as Hrun.
  pose proof (inv_history_nodup _ _ Hinv) as Hd. apply NoDup_app in Hd as (_ & Hdis & Hdl).
  destruct (cancel_ok s l t Hinv Hc Ht Hsub Hask) as [(l1 & l2 & m' & El & Hst & E1 & Hring & Hch)|(Hst & c' & m' & E1 & _ & Hch & Hr1 & Hr2)];
    rewrite E1 in Hp; injection Hp as <- <-; destruct Hinv; rewrite Hc in *; destruct in_asked0 as [Ha1 Ha2].
  - rewrite bool_decide_true by done. cbn [andb]. exists (l1 ++ l2).
    constructor; cbn [pool closing submitted cancelled started finished asked nodes tasks workers set_nodes]; try done.
    + unfold queued. by rewrite app_nil_r.
    + by apply Hch.
    + intros x b Hx. destruct (in_tasks0 x b Hx) as (? & ? & ? & ?). split_and!; try done. by apply Hch.
    + rewrite filter_not_in_cons, in_history0, filter_app, El, (filter_app _ l1), filter_cons_False by (intros ?; done).
      subst l. apply NoDup_app in Hdl as (_ & Hd1 & [Hd2 _]%NoDup_cons).
      rewrite !filter_other; [done|done|intros Hin; apply (Hd1 t Hin); set_solver|done].
    + intros x Hx. destruct (in_running0 x Hx) as [? Hr]. split; [done|]. destruct (Hrun x Hx) as (_ & _ & Hno).
      eapply ring_frame; [exact Hr|exact Hch|]. subst l. unfold queued in Hno. set_solver.
    + intros x Hx. apply in_queue0. set_solver.
    + set_solver.
    + apply (threads_shrink l); [by destruct in_threads0 as [[]]|]. subst l. by destruct l1.
  - rewrite bool_decide_false, andb_false_r by (intros Hn; by apply Hn). exists l.
    destruct Ht as [b Ht]. destruct (in_tasks0 t b Ht) as (_ & Hwq & _).
    constructor; cbn [pool closing submitted cancelled started finished asked nodes tasks workers set_nodes]; try done.
    + eapply ring_frame; [exact in_ring0|exact Hch|]. intros x ->%list_elem_of_singleton.
      unfold queued. rewrite app_nil_r. rewrite not_elem_of_cons. split; [done|]. by apply Hdis.
    + by apply Hch.
    + intros x bx Hx. destruct (in_tasks0 x bx Hx) as (? & ? & ? & ?). split_and!; try done. by apply Hch.
    + intros x Hx. destruct (in_running0 x Hx) as [? Hr]. split; [done|]. destruct (decide (x = t)) as [->|]; [by apply Hr1|].
      eapply ring_frame; [exact Hr|exact Hch|]. set_solver.
    + set_solver.
    + apply (threads_shrink l); [by destruct in_threads0 as [[]]|done].
Qed.

(** *** Every reachable state *)
Lemma inv_worker s l s' : inv s l -> worker_step s s' -> exists l', inv s' l' /\ (l' = l \/ exists q, l = q :: l').
Proof.
  intros Hinv Hs. destruct Hs as [i Hm Hi|i Hm Hi|i p Hi Ht|i q p Hi Ht|i p ws' Hi Ht Hsig|i q Hi _|i q p Hi Hp|Hc Hf Hall].
  - exists l. split; [by apply inv_lock|by left].
  - exists l. split; [by apply inv_woken|by left].
  - destruct (worker_turn_ok s l Hinv) as [(-> & Hc & E1)|[(_ & _ & E1)|(q & l' & m' & _ & E1 & _)]]; rewrite E1 in Ht; [|done..].
    injection Ht as <-. exists []. split; [by apply inv_sleep|by left].
  - destruct (worker_turn_ok s l Hinv) as [(_ & _ & E1)|[(_ & _ & E1)|(q' & l' & m' & -> & E1 & Hr1 & Hr2 & Hch)]]; rewrite E1 in Ht; [done..|].
    injection Ht as <- <-. exists l'. split; [by apply inv_take|right; by eexists].
  - destruct (worker_turn_ok s l Hinv) as [(_ & _ & E1)|[(-> & Hc & E1)|(q' & l' & m' & _ & E1 & _)]]; rewrite E1 in Ht; [done| |done].
    injection Ht as <-. exists []. split; [by eapply inv_leave|by left].
  - exists l. split; [by eapply inv_work|by left].
  - exists l. split; [by eapply inv_clear|by left].
  - exists l. split; [|by left]. destruct Hinv. rewrite Hc in *. by constructor.
Qed.

Lemma running_replicate n : running (replicate n At_lock) = [].
Proof. unfold running. induction n as [|n IH]; [done|exact IH]. Qed.

Lemma inv_start size p : threadpool_create size = Ret p -> inv (mkSys p [] [] [] [] [] false false) [].
Proof.
  unfold threadpool_create. set (n := if MAX_THREADPOOL_SIZE <? _ then _ else _). intros Hp.
  assert (1 <= n <= MAX_THREADPOOL_SIZE) as Hn.
  { unfold n, MAX_THREADPOOL_SIZE. destruct (Z.ltb_spec size 1); case_match eqn:E; lia. }
  destruct (QUEUE_INIT_ok {[WQ := (0, 0); exit_message := (0, 0)]} WQ) as (m & E1 & Hring & Hch); [by eexists|].
  rewrite E1, ret_bind in Hp. injection Hp as <-.
  assert (forall w, w ∈ replicate (Z.to_nat n) At_lock -> w = At_lock) as Hall by (by intros w [? _]%elem_of_replicate).
  assert (running (replicate (Z.to_nat n) At_lock) = []) as Hrun by apply running_replicate.
  constructor; cbn [pool closing submitted cancelled started finished asked nodes tasks workers]; try done.
  - apply Hch. by eexists.
  - constructor.
  - by rewrite Hrun.
  - rewrite Hrun. set_solver.
  - set_solver.
  - split; [|done]. constructor; cbn [mutex idle_threads workers].
    + intros i. split; [done|]. by intros ?%list_elem_of_lookup_2%Hall.
    + symmetry. apply total_zero. by intros w ->%Hall.
    + unfold zlen. rewrite length_replicate. lia.
    + by intros ?%Hall.
Qed.

Lemma pool_reachable_inv size s : reachable size s -> exists l, inv s l.
Proof.
  induction 1 as [p Hp|s s' _ [l IH] Hs|s s' _ [l IH] Hs|s s' _ [l IH] Hs].
  - exists []. by eapply inv_start.
  - destruct (inv_worker s l s' IH Hs) as (l' & ? & _). by exists l'.
  - destruct Hs.
    + exists l. by apply inv_create.
    + exists l. by apply inv_release_task.
    + exists (l ++ [t]). by eapply inv_submit.
    + by eapply inv_cancel.
    + exists l. by eapply inv_close.
  - destruct Hs as [i Hi]. exists l. by apply inv_wakeup.
Qed.
End inv.

(** ** What the pool promises *)
Section theorems.
Implicit Types (s : system) (l : list Z).

(** The tasks that were not taken out of the queue, in the order of
    submission. *)
Definition accepted s : list Z := filter (fun t => t ∉ cancelled s) (submitted s).

(** C32.  However the workers and any number of clients interleave, as long as
    each task is submitted once, cancelled at most once and not released
    while the pool still needs it: workers take the tasks in the order of
    submission and each at most once; the queue holds the others; no worker
    follows a pointer that leads nowhere, calls the work of a task that is
    gone or finished, or touches a released task; and no call of a client
    fails.  A task that [threadpool_cancel] reports as not cancelled has been
    taken by a worker. *)
Theorem pool_safe size s :
  reachable size s ->
  exists l,
    QUEUE_FOREACH (length l + 1) (nodes (pool s)) WQ = Ret (queued (closing s) l) /\
    accepted s = started s ++ l /\ NoDup (accepted s) /\
    (forall i, workers (pool s) !! i = Some At_test -> exists r, worker_turn (pool s) = Ret r) /\
    (forall i q, workers (pool s) !! i = Some (At_work q) -> worker_work (pool s) q = Ret tt) /\
    (forall i q, workers (pool s) !! i = Some (At_clear q) -> exists p, worker_clear (pool s) q = Ret p) /\
    (forall t, closing s = false -> is_Some (tasks (pool s) !! t) -> t ∉ submitted s ->
       exists r, threadpool_submit (pool s) t = Ret r) /\
    (forall t, closing s = false -> is_Some (tasks (pool s) !! t) -> t ∈ submitted s -> t ∉ asked s ->
       exists c p, threadpool_cancel (pool s) t = Ret (c, p) /\ (c = false -> t ∈ started s)) /\
    (closing s = false -> exists r, post (pool s) exit_message = Ret r).
Proof.
  intros Hr. destruct (pool_reachable_inv size s Hr) as [l Hinv]. pose proof Hinv as []. exists l. split_and!.
  - apply QUEUE_FOREACH_ok; [done|]. unfold queued. rewrite length_app. destruct (closing s); cbn [length]; lia.
  - done.
  - by apply NoDup_filter.
  - intros i _. destruct (worker_turn_ok s l Hinv) as [(_ & _ & ->)|[(_ & _ & ->)|(q & l' & m' & _ & -> & _)]]; by eexists.
  - intros i q Hi. assert (q ∈ running (workers (pool s))) as Hq by (eapply list_elem_of_omap; exists (At_work q); split; [by eapply list_elem_of_lookup_2|done]).
    destruct (in_running0 q Hq) as [Ht _]. unfold worker_work. by rewrite Ht.
  - intros i q Hi. assert (q ∈ running (workers (pool s))) as Hq by (eapply list_elem_of_omap; exists (At_clear q); split; [by eapply list_elem_of_lookup_2|done]).
    destruct (in_running0 q Hq) as [Ht _]. unfold worker_clear. rewrite Ht. by eexists.
  - intros t Hc [b Ht] Hsub. destruct (over_free s l t Hinv) as [Hl Hrun]; [by left|].
    destruct (in_tasks0 t b Ht) as (Hn & Hwq & _ & Hb). rewrite (Hb Hsub) in Ht.
    destruct (post_ok s l t Hinv Hc Hn) as (m' & E1 & _); [set_solver|done|].
    unfold threadpool_submit. rewrite Ht. cbn [deref c_assert]. rewrite !ret_bind, E1. by eexists.
  - intros t Hc Ht Hsub Hask.
    destruct (cancel_ok s l t Hinv Hc Ht Hsub Hask) as [(l1 & l2 & m' & _ & _ & -> & _)|(Hst & c & m' & -> & _)]; by eexists _, _.
  - intros Hc. destruct (post_ok s l exit_message Hinv Hc in_exit0) as (m' & -> & _); [| |by eexists].
    + rewrite not_elem_of_cons. split; [done|]. intros Hl%in_queue0. by apply (in_tasks0 _ _ Hl).
    + intros [Ht _]%in_running0. by apply (in_tasks0 _ _ Ht).
Qed.

Inductive worker_steps : nat -> system -> system -> Prop :=
| steps_nil s : worker_steps 0 s s
| steps_cons n s s' s'' : worker_step s s' -> worker_steps n s' s'' -> worker_steps (S n) s s''.

(** How many more steps a worker may take before it sleeps or returns. *)
Definition rank (w : place) : Z :=
  match w with Exited => 0 | Asleep => 2 | At_test => 4 | At_lock | Woken => 5 | At_clear _ => 6 | At_work _ => 7 end.
Definition measure s : Z :=
  total rank (workers (pool s)) + 4 * (zlen (accepted s) - zlen (started s)) + (if freed s then 0 else 1).

Lemma rank_nonneg w : 0 <= rank w.
Proof. by destruct w. Qed.
Lemma rank_bound ws : total rank ws <= 7 * zlen ws.
Proof.
  induction ws as [|w ws IH]; cbn [total foldr]; [zlia|]. fold (total rank ws). rewrite zlen_cons. destruct w; cbn [rank]; lia.
Qed.
Lemma rank_signals ws ws' : signals ws ws' -> total rank ws' <= total rank ws + 3.
Proof. destruct 1 as [|i Hi]; [lia|]. rewrite (total_insert _ _ _ _ _ Hi). cbn [rank]. lia. Qed.

Lemma measure_nonneg s l : inv s l -> 0 <= measure s.
Proof.
  intros []. unfold measure, accepted. rewrite in_history0, zlen_app. pose proof (total_nonneg rank (workers (pool s)) rank_nonneg).
  pose proof (zlen_nonneg l). destruct (freed s); lia.
Qed.
Ltac sizes Hi :=
  cbn [pool submitted cancelled started freed set_pool move workers set_mutex put_worker set_workers worker_woken set_idle set_nodes set_tasks] in *;
  rewrite ?(total_insert _ _ _ _ _ Hi) in *; cbn [rank] in *; rewrite ?zlen_app, ?zlen_cons, ?zlen_nil; lia.

Lemma measure_step s l s' : inv s l -> worker_step s s' -> measure s' < measure s.
Proof.
  intros Hinv Hs. unfold measure, accepted. destruct Hs as [i Hm Hi|i Hm Hi|i p Hi Ht|i q p Hi Ht|i p ws' Hi Ht Hsig|i q Hi _|i q p Hi Hp|Hc Hf Hall].
  1,2,6: sizes Hi.
  - destruct (worker_turn_ok s l Hinv) as [(_ & _ & E1)|[(_ & _ & E1)|(q' & l' & m' & _ & E1 & _)]]; rewrite E1 in Ht; [|done..].
    injection Ht as <-. sizes Hi.
  - destruct (worker_turn_ok s l Hinv) as [(_ & _ & E1)|[(_ & _ & E1)|(q' & l' & m' & _ & E1 & _)]]; rewrite E1 in Ht; [done..|].
    injection Ht as <- <-. sizes Hi.
  - destruct (worker_turn_ok s l Hinv) as [(_ & _ & E1)|[(_ & _ & E1)|(q' & l' & m' & _ & E1 & _)]]; rewrite E1 in Ht; [done| |done].
    injection Ht as <-. apply rank_signals in Hsig. sizes Hi.
  - unfold worker_clear in Hp. destruct (tasks (pool s) !! q); cbn [deref] in Hp; [|done]. rewrite ret_bind in Hp.
    injection Hp as <-. sizes Hi.
  - cbn [pool submitted cancelled started freed]. rewrite Hf. lia.
Qed.

Lemma steps_ok n s s' l : inv s l -> worker_steps n s s' ->
  Z.of_nat n + measure s' <= measure s /\ (exists l', inv s' l') /\ accepted s' = accepted s /\ closing s' = closing s.
Proof.
  intros Hinv Hs. revert l Hinv. induction Hs as [s|n s s1 s2 Hs _ IH]; intros l Hinv; [split_and!; [lia|by eexists|done..]|].
  destruct (inv_worker s l s1 Hinv Hs) as (l1 & Hinv1 & _). destruct (IH l1 Hinv1) as (Hm & Hi & Ha & Hc).
  pose proof (measure_step s l s1 Hinv Hs).
  assert (accepted s1 = accepted s /\ closing s1 = closing s) as [<- <-] by (unfold accepted; destruct Hs; done).
  split_and!; [lia|done..].
Qed.

(** No worker can move: only clients and spurious wake-ups are left. *)
Definition quiet s : Prop := forall s', ~ worker_step s s'.

Lemma pool_signals_exist ws : exists ws', signals ws ws'.
Proof.
  destruct (decide (Asleep ∈ ws)) as [[i Hi]%list_elem_of_lookup|Hn]; eexists; [by eapply signals_one|by constructor].
Qed.

Lemma quiet_places s l : inv s l -> quiet s ->
  mutex (pool s) = None /\ Forall (fun w => w = Asleep \/ w = Exited) (workers (pool s)).
Proof.
  intros Hinv Hq. assert (mutex (pool s) = None) as Hm.
  { destruct (mutex (pool s)) as [i|] eqn:Hm; [exfalso|done].
    apply (th_mutex _ _ _ (th_base _ _ _ (in_threads _ _ Hinv))) in Hm.
    destruct (worker_turn_ok s l Hinv) as [(_ & _ & E1)|[(_ & _ & E1)|(q & l' & m' & _ & E1 & _)]].
    - by eapply Hq, step_sleep.
    - destruct (pool_signals_exist (<[i := Exited]> (workers (pool s)))) as [ws' Hs]. by eapply Hq, step_leave.
    - by eapply Hq, step_take. }
  split; [done|]. apply Forall_lookup. intros i w Hi.
  assert (forall q, task_of w = Some q -> tasks (pool s) !! q = Some true) as Ht.
  { intros q Hw. eapply in_running; [exact Hinv|]. eapply list_elem_of_omap. exists w. split; [by eapply list_elem_of_lookup_2|done]. }
  destruct w as [| | | |q|q|]; [exfalso|exfalso|by left|exfalso|exfalso|exfalso|by right].
  - by eapply Hq, step_lock.
  - apply (th_mutex _ _ _ (th_base _ _ _ (in_threads _ _ Hinv))) in Hi. congruence.
  - by eapply Hq, step_woken.
  - eapply Hq, step_work; [exact Hi|]. unfold worker_work. by rewrite (Ht q).
  - eapply Hq, step_clear; [exact Hi|]. unfold worker_clear. by rewrite (Ht q).
Qed.

Lemma running_idle ws : Forall (fun w => w = Asleep \/ w = Exited) ws -> running ws = [].
Proof. induction 1 as [|w ws Hw _ IH]; [done|]. unfold running in *. cbn. rewrite IH. by destruct Hw as [-> | ->]. Qed.

Lemma pool_quiet_ok s l : inv s l -> quiet s ->
  l = [] /\ running (workers (pool s)) = [] /\
  if closing s then Forall (fun w => w = Exited) (workers (pool s)) /\ freed s = true
  else Forall (fun w => w = Asleep) (workers (pool s)).
Proof.
  intros Hinv Hq. destruct (quiet_places s l Hinv Hq) as [_ Hf]. destruct (in_threads _ _ Hinv) as [[_ _ Hlen Hex] Hwake].
  assert (queued (closing s) l <> [] -> Forall (fun w => w = Exited) (workers (pool s))) as Hall.
  { intros [Ha|Ha]%Hwake; [|done]. apply Exists_exists in Ha as (w & Hw & H1 & H2).
    rewrite Forall_forall in Hf. destruct (Hf w Hw); done. }
  assert (Forall (fun w => w = Exited) (workers (pool s)) -> closing s = true /\ l = []) as Hexited.
  { intros Ha. apply Hex. destruct (workers (pool s)) as [|w ws]; [rewrite zlen_nil in Hlen; lia|].
    apply Forall_cons in Ha as [-> _]. set_solver. }
  assert (l = []) as ->.
  { destruct l as [|q l]; [done|]. by destruct (Hexited (Hall ltac:(done))). }
  split; [done|]. split; [by apply running_idle|]. destruct (closing s) eqn:Hc.
  - assert (Forall (fun w => w = Exited) (workers (pool s))) as Ha by (by apply Hall). split; [done|].
    destruct (freed s) eqn:Hfr; [done|]. by destruct (Hq _ (step_joined _ Hc Hfr Ha)).
  - rewrite Forall_forall in Hf |- *. intros w Hw. destruct (Hf w Hw) as [->| ->]; [done|]. by destruct (Hex Hw).
Qed.

(** C33.  The pool makes progress: from every reachable state the workers can
    take only so many steps, unless clients or spurious wake-ups interfere;
    and when none can move, the work of every task that was submitted and not
    taken out of the queue has been done, each once, and every worker sleeps
    or, if the pool is being released, has returned and the pool is freed.
    No wake-up is lost and [threadpool_release] always returns. *)
Theorem pool_runs_all size s n s' :
  reachable size s -> worker_steps n s s' ->
  Z.of_nat n <= 7 * zlen (workers (pool s)) + 4 * zlen (submitted s) + 1 /\
  (quiet s' -> started s' = accepted s /\ finished s' ≡ₚ accepted s /\
     if closing s then Forall (fun w => w = Exited) (workers (pool s')) /\ freed s' = true
     else Forall (fun w => w = Asleep) (workers (pool s'))).
Proof.
  intros Hr Hs. destruct (pool_reachable_inv size s Hr) as [l Hinv].
  destruct (steps_ok n s s' l Hinv Hs) as (Hm & [l' Hinv'] & <- & <-). split.
  - pose proof (measure_nonneg s' l' Hinv'). unfold measure at 2 in Hm.
    assert (zlen (accepted s) <= zlen (submitted s)) as Ha by (unfold accepted, zlen; pose proof (length_filter (fun t => t ∉ cancelled s) (submitted s)); lia).
    pose proof (zlen_nonneg (started s)). pose proof (rank_bound (workers (pool s))).
    destruct (freed s); lia.
  - intros Hq. destruct (pool_quiet_ok s' l' Hinv' Hq) as (-> & Hrun & Hw). destruct Hinv'. rewrite Hrun, app_nil_r in in_started0.
    rewrite app_nil_r in in_history0. unfold accepted. rewrite in_history0. by split_and!.
Qed.
End theorems.

(** ** Runs *)
Section runs.
(** A pool of one worker that is busy with a task while two more are
    queued. *)
Definition demo_calls (p : threadpool) : outcome threadpool :=
  let p := threadpool_task_create (threadpool_task_create (threadpool_task_create p 10) 11) 12 in
  let! (p, _) := threadpool_submit p 10 in
  let! (_, p) := worker_turn p in
  let! (p, _) := threadpool_submit p 11 in
  let! (p, _) := threadpool_submit p 12 in
  Ret (put_worker p 0 (At_work 10)).
Definition demo_pool : outcome threadpool := let! p := threadpool_create 1 in demo_calls p.

(** [threadpool_cancel] tests whether the queue is empty, not whether the
    task is queued: it answers 1 for the task that is being worked on. *)
Example cancel_running_task :
  (let! p := demo_pool in let! (c, p) := threadpool_cancel p 10 in Ret (c, workers p)) = Ret (true, [At_work 10]).
Proof. reflexivity. Qed.

(** With an empty queue the answer for the same task is 0. *)
Example cancel_running_task_alone :
  (let! p := threadpool_create 1 in
   let! (p, _) := threadpool_submit (threadpool_task_create p 10) 10 in
   let! (_, p) := worker_turn p in
   let! (c, _) := threadpool_cancel p 10 in Ret c) = Ret false.
Proof. reflexivity. Qed.

(** The links of a task that was taken out stay as they are: cancelling it
    again, after its neighbour, leaves a queue whose head is never removed;
    workers take task 13 again and again. *)
Example cancel_twice_loops :
  (let! p := demo_pool in
   let! (p, _) := threadpool_submit (threadpool_task_create p 13) 13 in
   let! (_, p) := threadpool_cancel p 12 in
   let! (_, p) := threadpool_cancel p 11 in
   let! (c, p) := threadpool_cancel p 12 in
   let! (t1, p) := worker_turn p in
   let! (t2, p) := worker_turn p in
   let! (t3, _) := worker_turn p in Ret (c, [t1; t2; t3])) = Ret (true, [Take 13; Take 13; Take 13]).
Proof. reflexivity. Qed.

(** A task that was never submitted has null links. *)
Example cancel_unsubmitted_undefined :
  (let! p := demo_pool in threadpool_cancel (threadpool_task_create p 13) 13) = Undefined.
Proof. reflexivity. Qed.

(** A task that submits itself again: the worker clears [work] after the
    call, and the second call is one of a null pointer. *)
Example resubmitted_task_undefined :
  (let! p := threadpool_create 1 in
   let! (p, _) := threadpool_submit (threadpool_task_create p 10) 10 in
   let! (_, p) := worker_turn p in
   worker_work p 10 ;;
   let! (p, _) := threadpool_submit p 10 in
   let! p := worker_clear p 10 in
   let! (_, p) := worker_turn p in
   worker_work p 10) = Undefined.
Proof. reflexivity. Qed.

(** A task that releases itself, as in [threadpool_test.c]: the worker
    writes to it afterwards. *)
Example released_task_undefined :
  (let! p := demo_pool in worker_work p 10 ;; worker_clear (threadpool_task_release p 10) 10) = Undefined.
Proof. reflexivity. Qed.

(** One task through a pool of one worker. *)
Definition submitted_one (p : threadpool) : system := mkSys p [10] [] [] [] [] false false.

Lemma demo_submitted : exists p, reachable 1 (submitted_one p) /\ workers p = [At_lock] /\
  exists p', worker_steps 6 (submitted_one p) (mkSys p' [10] [] [10] [10] [] false false) /\
    mutex p' = None /\ workers p' = [Asleep].
Proof.
  pose proof (reach_start 1 _ eq_refl) as R.
  eapply reach_client in R; [|eapply (client_create _ 10); [set_solver|reflexivity|set_solver]]; simpl in R.
  eapply reach_client in R; [|eapply (client_submit _ 10); [reflexivity|reflexivity|by eexists|set_solver|reflexivity|exact (wakes_none _)]]; simpl in R.
  eexists. split; [exact R|]. split; [reflexivity|].
  eexists. split.
  { eapply steps_cons; [apply (step_lock _ 0); reflexivity|]; simpl.
    eapply steps_cons; [eapply (step_take _ 0); reflexivity|]; simpl.
    eapply steps_cons; [eapply (step_work _ 0); reflexivity|]; simpl.
    eapply steps_cons; [eapply (step_clear _ 0); reflexivity|]; simpl.
    eapply steps_cons; [apply (step_lock _ 0); reflexivity|]; simpl.
    eapply steps_cons; [eapply (step_sleep _ 0); reflexivity|]; simpl.
    apply steps_nil. }
  split; reflexivity.
Qed.

Lemma demo_pool_quiet p l1 l2 l3 l4 l5 : workers p = [Asleep] -> quiet (mkSys p l1 l2 l3 l4 l5 false false).
Proof.
  intros Hw s' Hs. inversion Hs as [i _ Hi|i _ Hi|i p' Hi|i q p' Hi|i p' ws Hi|i q Hi|i q p' Hi|Hc]; cbn [pool closing] in *; try rewrite Hw in Hi;
    try done; by destruct i as [|[|i]].
Qed.

Lemma pool_safe_witness : exists (s : system) l,
  submitted s = [10] /\ accepted s = started s ++ l /\ NoDup (accepted s) /\ QUEUE_FOREACH (length l + 1) (nodes (pool s)) WQ = Ret l.
Proof.
  destruct demo_submitted as (p & Hr & _ & _). destruct (pool_safe 1 _ Hr) as (l & Hf & Ha & Hd & _).
  exists (submitted_one p), l. split; [reflexivity|]. split; [exact Ha|]. split; [exact Hd|].
  cbn [closing submitted_one] in Hf. unfold queued in Hf. by rewrite app_nil_r in Hf.
Defined.

Lemma pool_runs_all_witness : exists p n s',
  reachable 1 (submitted_one p) /\ worker_steps n (submitted_one p) s' /\ quiet s' /\ Z.of_nat n <= 12 /\
  started s' = [10] /\ finished s' ≡ₚ [10] /\ Forall (fun w => w = Asleep) (workers (pool s')).
Proof.
  destruct demo_submitted as (p & Hr & Hw & p' & Hs & _ & Hw').
  destruct (pool_runs_all 1 _ _ _ Hr Hs) as [Hn Hq]. pose proof (demo_pool_quiet p' [10] [] [10] [10] [] Hw') as Hquiet.
  destruct (Hq Hquiet) as (Hst & Hf & Hall). eexists p, 6%nat, _. split; [exact Hr|]. split; [exact Hs|]. split; [exact Hquiet|].
  split; [lia|]. split; [exact Hst|]. split; [exact Hf|exact Hall].
Defined.
End runs.
