(* ===== verification/Sniff.v ===== *)
(** * Packet sniffing

    [net/sniff.c] and [net/sniff.h]: from a captured frame to the TCP options
    and the payload handed to the client's handler, and the capture loop
    around libpcap, whose results are parameters.  A frame is the sequence of
    its [caplen] captured bytes; the header structures of the system are
    their offsets; integers are loaded little-endian. *)

From stdpp Require Import base tactics numbers list option strings.
From Stdlib Require Import Lia.
From S2P Require Import Prelude.

(** ** Addresses *)

(** The 32-bit value of a network-order field, as a little-endian machine
    loads it. *)
Definition load32 (p : bytes) (off : Z) : outcome Z :=
  let! b := mem_read p off 4 in Ret (le_val b).
Definition load_be16 (p : bytes) (off : Z) : outcome Z :=
  let! b := mem_read p off 2 in Ret (be_val b).
Definition be32toh (x : Z) : Z := be_val (le_bytes 4 x).

Definition IPV4_ADDR (a b c d : Z) : Z :=
  Z.lor (Z.lor (Z.lor (Z.shiftl a 24) (Z.shiftl b 16)) (Z.shiftl c 8)) d.
Definition IPV4_BROADCAST_ADDR : Z := IPV4_ADDR 255 255 255 255.
Definition IPV4_IS_BROADCAST_ADDR (ip : Z) : bool := ip =? IPV4_BROADCAST_ADDR.
Definition IPV4_MULTICAST_PREFIX : Z := IPV4_ADDR 224 0 0 0.
Definition IPV4_MULTICAST_MASK : Z := IPV4_ADDR 240 0 0 0.
Definition IPV4_IS_MULTICAST_ADDR (ip : Z) : bool :=
  Z.land ip IPV4_MULTICAST_MASK =? IPV4_MULTICAST_PREFIX.

(** ** TCP options *)
Definition TCPOPT_EOL : Z := 0.
Definition TCPOPT_NOP : Z := 1.
Definition TCPOPT_MSS : Z := 2.
Definition TCPOPT_WINDOW : Z := 3.
Definition TCPOPT_SACK_PERM : Z := 4.
Definition TCPOPT_TIMESTAMP : Z := 8.
Definition TCPOLEN_MSS : Z := 4.
Definition TCPOLEN_WINDOW : Z := 3.
Definition TCPOLEN_SACK_PERM : Z := 2.
Definition TCPOLEN_TIMESTAMP : Z := 10.
Definition TCPOLEN_TSTAMP_ALIGNED : Z := 12.
Definition TCP_SACK_SEEN : Z := Z.shiftl 1 0.

Record tcpopt := mkOpt {
  rcv_tsval : Z; rcv_tsecr : Z; sack_ok : Z; snd_wscale : Z; mss_clamp : Z
}.

Definition sizeof_tcphdr : Z := 20.
(** [th->th_off], the high half of the 13th byte. *)
Definition th_off (p : bytes) (th : Z) : outcome Z :=
  let! b := arr_get p (th + 12) in Ret (Z.shiftr b 4).

Definition get_unaligned_be16 (p : bytes) (off : Z) : outcome Z :=
  let! b0 := arr_get p off in
  let! b1 := arr_get p (off + 1) in
  Ret (u16 (Z.lor (Z.shiftl b0 8) b1)).

(** [p[0] << 24] is an [int]. *)
Definition get_unaligned_be32 (p : bytes) (off : Z) : outcome Z :=
  let! b0 := arr_get p off in
  let! b1 := arr_get p (off + 1) in
  let! b2 := arr_get p (off + 2) in
  let! b3 := arr_get p (off + 3) in
  let! x := sint (Z.shiftl b0 24) in
  Ret (u32 (Z.lor (Z.lor (Z.lor x (Z.shiftl b1 16)) (Z.shiftl b2 8)) b3)).

Definition TSTAMP_HEAD : Z :=
  Z.lor (Z.lor (Z.lor (Z.shiftl TCPOPT_NOP 24) (Z.shiftl TCPOPT_NOP 16))
    (Z.shiftl TCPOPT_TIMESTAMP 8)) TCPOLEN_TIMESTAMP.

(** [Some opt]: true, with [*opt] changed. *)
Definition tcp_parse_aligned_timestamp (p : bytes) (th : Z) (opt : tcpopt) : outcome (option tcpopt) :=
  let ptr := th + sizeof_tcphdr in
  let! w := load32 p ptr in
  if w =? be32toh TSTAMP_HEAD then
    let! v := load32 p (ptr + 4) in
    let! e := load32 p (ptr + 8) in
    Ret (Some (mkOpt (be32toh v) (if negb (e =? 0) then be32toh e else 0)
      (sack_ok opt) (snd_wscale opt) (mss_clamp opt)))
  else Ret None.

(** The inner [switch (opcode)]; [ptr] is behind the size byte. *)
Definition parse_option (p : bytes) (ptr opcode opsize : Z) (opt : tcpopt) : outcome tcpopt :=
  let '(mkOpt tsval tsecr sack wscale mss) := opt in
  if opcode =? TCPOPT_MSS then
    if opsize =? TCPOLEN_MSS then
      let! v := get_unaligned_be16 p ptr in Ret (mkOpt tsval tsecr sack wscale v)
    else Ret opt
  else if opcode =? TCPOPT_WINDOW then
    if opsize =? TCPOLEN_WINDOW then
      let! v := arr_get p ptr in Ret (mkOpt tsval tsecr sack v mss)
    else Ret opt
  else if opcode =? TCPOPT_TIMESTAMP then
    if opsize =? TCPOLEN_TIMESTAMP then
      let! v := get_unaligned_be32 p ptr in
      let! e := get_unaligned_be32 p (ptr + 4) in
      Ret (mkOpt v e sack wscale mss)
    else Ret opt
  else if opcode =? TCPOPT_SACK_PERM then
    if opsize =? TCPOLEN_SACK_PERM then Ret (mkOpt tsval tsecr TCP_SACK_SEEN wscale mss) else Ret opt
  else Ret opt.

(** [while (length > 0)]: every round consumes at least one byte. *)
Fixpoint options_loop (fuel : nat) (p : bytes) (ptr length : Z) (opt : tcpopt) : outcome (bool * tcpopt) :=
  match fuel with
  | O => OutOfFuel
  | S fuel =>
    if length <=? 0 then Ret (true, opt) else
    let! opcode := arr_get p ptr in
    let ptr := ptr + 1 in
    if opcode =? TCPOPT_EOL then Ret (true, opt) else
    if opcode =? TCPOPT_NOP then options_loop fuel p ptr (length - 1) opt else
    let! opsize := arr_get p ptr in
    let ptr := ptr + 1 in
    if opsize <? 2 then Ret (false, opt) else
    if length <? opsize then Ret (false, opt) else
    let! opt := parse_option p ptr opcode opsize opt in
    options_loop fuel p (ptr + (opsize - 2)) (length - opsize) opt
  end.

Definition tcp_parse_recv_options (p : bytes) (th : Z) (opt : tcpopt) : outcome (bool * tcpopt) :=
  let! off := th_off p th in
  if off =? sizeof_tcphdr / 4 then Ret (false, opt) else
  let! fast := if off =? (sizeof_tcphdr + TCPOLEN_TSTAMP_ALIGNED) / 4
               then tcp_parse_aligned_timestamp p th opt else Ret None in
  match fast with
  | Some opt => Ret (true, opt)
  | None =>
    let length := s32 (u64 (off * 4 - sizeof_tcphdr)) in
    options_loop (S (Z.to_nat length)) p (th + sizeof_tcphdr) length opt
  end.

(** ** Frames *)
Definition DLT_NULL : Z := 0.
Definition DLT_EN10MB : Z := 1.
Definition DLT_RAW : Z := 12.
Definition DLT_LINUX_SLL : Z := 113.
Definition ETHERTYPE_IP : Z := 0x0800.
Definition PF_INET : Z := 2.
Definition IPPROTO_TCP : Z := 6.
Definition SLL_HDR_LEN : Z := 16.

(** What the handler gets: the positions of the headers, the options, and
    the payload with its position. *)
Record sniffed := mkSniffed {
  ev_ip : Z; ev_tcp : Z; ev_opt : tcpopt; ev_payload : Z; ev_data : bytes
}.

(** The protocol by the data link header. *)
Definition link_protocol (dl_type : Z) (pkt : bytes) : outcome Z :=
  if dl_type =? DLT_NULL then
    let! pf := load32 pkt 0 in Ret (if negb (s32 pf =? PF_INET) then 0 else ETHERTYPE_IP)
  else if dl_type =? DLT_EN10MB then load_be16 pkt 12
  else if dl_type =? DLT_LINUX_SLL then load_be16 pkt 14
  else Ret ETHERTYPE_IP.

(** [None]: the frame is ignored. *)
Definition pcap_pkt_handler (dl_type dl_hdr_offset : Z) (pkt : bytes) : outcome (option sniffed) :=
  let! protocol := link_protocol dl_type pkt in
  if negb (protocol =? ETHERTYPE_IP) then Ret None else
  let! dst := load32 pkt (dl_hdr_offset + 16) in
  if IPV4_IS_BROADCAST_ADDR dst then Ret None else
  if IPV4_IS_MULTICAST_ADDR dst then Ret None else
  let! vhl := arr_get pkt dl_hdr_offset in
  let ip_hdr_sz := Z.land vhl 15 * 4 in
  let! ip_p := arr_get pkt (dl_hdr_offset + 9) in
  if negb (ip_p =? IPPROTO_TCP) then Ret None else
  let tcp_hdr := dl_hdr_offset + ip_hdr_sz in
  let! off := th_off pkt tcp_hdr in
  let tcp_hdr_sz := off * 4 in
  let tcp_hdr_opt_sz := s32 (u64 (tcp_hdr_sz - sizeof_tcphdr)) in
  let tcp_opt := mkOpt 0 0 0 0 0 in
  let! tcp_opt := if negb (tcp_hdr_opt_sz =? 0)
    then let! (_, o) := tcp_parse_recv_options pkt tcp_hdr tcp_opt in Ret o
    else Ret tcp_opt in
  let total_hdr_sz := dl_hdr_offset + ip_hdr_sz + tcp_hdr_sz in
  let payload_sz := s32 (u32 (zlen pkt - total_hdr_sz)) in
  c_assert (0 <=? payload_sz) ;;
  let! data := mem_read pkt total_hdr_sz payload_sz in
  Ret (Some (mkSniffed dl_hdr_offset tcp_hdr tcp_opt total_hdr_sz data)).

(** ** Loads *)
Lemma le_val_cons x l : is_byte x -> le_val (x :: l) = x + 256 * le_val l.
Proof.
  intros Hx. unfold is_byte in Hx. change (le_val (x :: l)) with (Z.lor x (Z.shiftl (le_val l) 8)).
  rewrite Z.lor_comm, lor_shiftl_add by lia. lia.
Qed.

Lemma be_val_4 a b c d :
  all_bytes [a; b; c; d] -> be_val [a; b; c; d] = a * 2 ^ 24 + b * 2 ^ 16 + c * 2 ^ 8 + d.
Proof.
  rewrite !all_bytes_cons. intros (? & ? & ? & ? & _). unfold be_val. simpl rev.
  rewrite !le_val_cons by done. change (le_val []) with 0. lia.
Qed.

Lemma be_bytes_pair v : exists a b, be_bytes 2 v = [a; b] /\ all_bytes [a; b].
Proof.
  pose proof (all_bytes_be 2 v) as Hb. pose proof (zlen_be_bytes 2 v) as Hl.
  destruct (be_bytes 2 v) as [|a [|b [|c l]]]; unfold zlen in Hl; simpl in Hl; try lia.
  exists a, b. split; [done|]. apply Hb. lia.
Qed.

Lemma be_bytes_quad v : exists a b c d, be_bytes 4 v = [a; b; c; d] /\ all_bytes [a; b; c; d].
Proof.
  pose proof (all_bytes_be 4 v) as Hb. pose proof (zlen_be_bytes 4 v) as Hl.
  destruct (be_bytes 4 v) as [|a [|b [|c [|d [|e l]]]]]; unfold zlen in Hl; simpl in Hl; try lia.
  exists a, b, c, d. split; [done|]. apply Hb. lia.
Qed.

(** Reading behind a prefix. *)
Lemma arr_get_at (a l : bytes) i x : znth l i = Some x -> arr_get (a ++ l) (zlen a + i) = Ret x.
Proof.
  intros Hx. pose proof (znth_inv _ _ _ Hx). unfold arr_get. rewrite znth_app, bool_decide_false by lia.
  replace (zlen a + i - zlen a) with i by lia. by rewrite Hx.
Qed.

Lemma arr_get_head (a l : bytes) x : arr_get (a ++ x :: l) (zlen a) = Ret x.
Proof. replace (zlen a) with (zlen a + 0) by lia. by apply arr_get_at. Qed.

Lemma mem_read_part (a s l : bytes) n : n = zlen s -> mem_read (a ++ s ++ l) (zlen a) n = Ret s.
Proof.
  intros ->. rewrite mem_read_ok by zlia. f_equal. by apply slice_app_exact.
Qed.

Lemma load32_read (a w l : bytes) : zlen w = 4 -> load32 (a ++ w ++ l) (zlen a) = Ret (le_val w).
Proof. intros Hw. unfold load32. by rewrite mem_read_part. Qed.

Lemma load32_at a l v : load32 (a ++ be_bytes 4 v ++ l) (zlen a) = Ret (le_val (be_bytes 4 v)).
Proof. apply load32_read. by rewrite zlen_be_bytes. Qed.

Lemma be32toh_be v : be32toh (le_val (be_bytes 4 v)) = u32 v.
Proof.
  unfold be32toh. pose proof (le_bytes_le_val (be_bytes 4 v)) as E. rewrite zlen_be_bytes in E by lia.
  rewrite E by (apply all_bytes_be; lia). by apply be_val_be_bytes.
Qed.

Lemma get_be16_ok a l v : 0 <= v < 2 ^ 16 -> get_unaligned_be16 (a ++ be_bytes 2 v ++ l) (zlen a) = Ret v.
Proof.
  intros Hv. pose proof (be_val_be_bytes 2 v) as E. rewrite (wrapu_small (8 * 2)) in E by lia.
  destruct (be_bytes_pair v) as (x & y & Eb & Hb). rewrite Eb in *. simpl app.
  pose proof Hb as Hb'. rewrite !all_bytes_cons in Hb'. destruct Hb' as (? & ? & _).
  unfold get_unaligned_be16. rewrite arr_get_head, ret_bind, (arr_get_at a _ 1 y) by done.
  rewrite ret_bind. unfold is_byte in *. rewrite lor_shiftl_add by lia.
  unfold be_val in E. simpl rev in E. rewrite !le_val_cons in E by (unfold is_byte; lia). change (le_val []) with 0 in E.
  f_equal. rewrite wrapu_small by lia. lia.
Qed.

Lemma get_be32_ok a l v : 0 <= v < 2 ^ 31 -> get_unaligned_be32 (a ++ be_bytes 4 v ++ l) (zlen a) = Ret v.
Proof.
  intros Hv. pose proof (be_val_be_bytes 4 v) as E. rewrite (wrapu_small (8 * 4)) in E by lia.
  destruct (be_bytes_quad v) as (x & y & z & w & Eb & Hb). rewrite Eb in *. rewrite be_val_4 in E by done.
  rewrite !all_bytes_cons in Hb. destruct Hb as (? & ? & ? & ? & _). simpl app. unfold is_byte in *.
  unfold get_unaligned_be32. rewrite arr_get_head, ret_bind.
  rewrite (arr_get_at a _ 1 y), ret_bind, (arr_get_at a _ 2 z), ret_bind, (arr_get_at a _ 3 w), ret_bind by done.
  unfold sint. rewrite bool_decide_true by (unfold INT_MIN, INT_MAX; rewrite Z.shiftl_mul_pow2; lia). rewrite ret_bind.
  f_equal. rewrite <- !Z.lor_assoc. rewrite (lor_shiftl_add z w 8), (lor_shiftl_add y _ 16), (lor_shiftl_add x _ 24) by lia.
  rewrite wrapu_small by lia. lia.
Qed.

(** With the top bit set the shift overflows. *)
Lemma get_be32_overflow a l v : 2 ^ 31 <= v < 2 ^ 32 -> get_unaligned_be32 (a ++ be_bytes 4 v ++ l) (zlen a) = Undefined.
Proof.
  intros Hv. pose proof (be_val_be_bytes 4 v) as E. rewrite (wrapu_small (8 * 4)) in E by lia.
  destruct (be_bytes_quad v) as (x & y & z & w & Eb & Hb). rewrite Eb in *. rewrite be_val_4 in E by done.
  rewrite !all_bytes_cons in Hb. destruct Hb as (? & ? & ? & ? & _). simpl app. unfold is_byte in *.
  unfold get_unaligned_be32. rewrite arr_get_head, ret_bind.
  rewrite (arr_get_at a _ 1 y), ret_bind, (arr_get_at a _ 2 z), ret_bind, (arr_get_at a _ 3 w), ret_bind by done.
  unfold sint. rewrite bool_decide_false; [done|]. unfold INT_MIN, INT_MAX. rewrite Z.shiftl_mul_pow2 by lia. lia.
Qed.

(** ** Options as data *)
Inductive tcp_option :=
| ONop
| OMss (v : Z)
| OWindow (v : Z)
| OSackPerm
| OTimestamp (v e : Z)
| OOther (kind : Z) (data : bytes).

Definition encode (o : tcp_option) : bytes :=
  match o with
  | ONop => [TCPOPT_NOP]
  | OMss v => [TCPOPT_MSS; TCPOLEN_MSS] ++ be_bytes 2 v
  | OWindow v => [TCPOPT_WINDOW; TCPOLEN_WINDOW; v]
  | OSackPerm => [TCPOPT_SACK_PERM; TCPOLEN_SACK_PERM]
  | OTimestamp v e => [TCPOPT_TIMESTAMP; TCPOLEN_TIMESTAMP] ++ be_bytes 4 v ++ be_bytes 4 e
  | OOther k d => [k; 2 + zlen d] ++ d
  end.
Definition encodes (os : list tcp_option) : bytes := concat (map encode os).

(** A kind that is not interpreted at that size. *)
Definition unknown (k size : Z) : Prop :=
  k <> TCPOPT_EOL /\ k <> TCPOPT_NOP /\ ~ (k = TCPOPT_MSS /\ size = TCPOLEN_MSS) /\
  ~ (k = TCPOPT_WINDOW /\ size = TCPOLEN_WINDOW) /\
  ~ (k = TCPOPT_SACK_PERM /\ size = TCPOLEN_SACK_PERM) /\
  ~ (k = TCPOPT_TIMESTAMP /\ size = TCPOLEN_TIMESTAMP).

Definition option_ok (o : tcp_option) : Prop :=
  match o with
  | ONop | OSackPerm => True
  | OMss v => 0 <= v < 2 ^ 16
  | OWindow v => is_byte v
  | OTimestamp v e => 0 <= v < 2 ^ 31 /\ 0 <= e < 2 ^ 31
  | OOther k d => is_byte k /\ unknown k (2 + zlen d) /\ zlen d <= 38
  end.

Definition apply_option (opt : tcpopt) (o : tcp_option) : tcpopt :=
  let '(mkOpt tsval tsecr sack wscale mss) := opt in
  match o with
  | ONop | OOther _ _ => opt
  | OMss v => mkOpt tsval tsecr sack wscale v
  | OWindow v => mkOpt tsval tsecr sack v mss
  | OSackPerm => mkOpt tsval tsecr TCP_SACK_SEEN wscale mss
  | OTimestamp v e => mkOpt v e sack wscale mss
  end.

(** Evaluate the tests on option kinds and sizes. *)
Ltac kinds :=
  cbv [TCPOPT_EOL TCPOPT_NOP TCPOPT_MSS TCPOPT_WINDOW TCPOPT_SACK_PERM TCPOPT_TIMESTAMP
       TCPOLEN_MSS TCPOLEN_WINDOW TCPOLEN_SACK_PERM TCPOLEN_TIMESTAMP]; cbn [Z.eqb Pos.eqb].

(** One option that is not a NOP: its size byte covers it, and its body is
    interpreted as the option says. *)
Lemma parse_option_ok (a l : bytes) o opt :
  option_ok o -> o <> ONop ->
  exists k d, encode o = k :: zlen (encode o) :: d /\ k <> TCPOPT_EOL /\ k <> TCPOPT_NOP /\ 2 + zlen d = zlen (encode o) /\
    forall a : bytes, parse_option (a ++ d ++ l) (zlen a) k (zlen (encode o)) opt = Ret (apply_option opt o).
Proof.
  intros Ho Hn. destruct opt as [tsval tsecr sack wscale mss].
  destruct o as [|v|v| |v e|k d]; simpl in Ho; [done|..]; unfold encode; rewrite ?zlen_app, ?zlen_cons, ?zlen_be_bytes, ?zlen_nil by lia; simpl Z.add.
  - exists TCPOPT_MSS, (be_bytes 2 v). rewrite zlen_be_bytes by lia. split_and!; try done. intros a'.
    unfold parse_option. kinds. by rewrite get_be16_ok.
  - exists TCPOPT_WINDOW, [v]. split_and!; try done. intros a'. unfold parse_option. kinds.
    change ([v] ++ l) with (v :: l). by rewrite arr_get_head.
  - exists TCPOPT_SACK_PERM, []. by split_and!.
  - exists TCPOPT_TIMESTAMP, (be_bytes 4 v ++ be_bytes 4 e). rewrite zlen_app, !zlen_be_bytes by lia.
    split_and!; try done. intros a'. unfold parse_option. kinds. rewrite <- app_assoc, get_be32_ok by lia.
    rewrite ret_bind, app_assoc.
    assert (zlen a' + 4 = zlen (a' ++ be_bytes 4 v)) as -> by (rewrite zlen_app, zlen_be_bytes; lia).
    by rewrite get_be32_ok by lia.
  - destruct Ho as (Hk & (H0 & H1 & H2 & H3 & H4 & H5) & Hd). exists k, d.
    replace (1 + (1 + zlen d)) with (2 + zlen d) by lia. split_and!; try done. intros a'.
    unfold parse_option. repeat (case_match; try done); lia.
Qed.

(** The options end with the header, or with an end-of-list option. *)
Definition terminated (t : bytes) : Prop := t = [] \/ exists t', t = TCPOPT_EOL :: t'.

Lemma options_loop_encodes os : forall fuel (a t rest : bytes) opt,
  Forall option_ok os -> terminated t -> zlen (encodes os ++ t) < Z.of_nat fuel ->
  options_loop fuel (a ++ encodes os ++ t ++ rest) (zlen a) (zlen (encodes os ++ t)) opt =
    Ret (true, fold_left apply_option os opt).
Proof.
  induction os as [|o os IH]; intros [|fuel] a t rest opt Hos Ht Hfuel; zlen_facts; try lia;
    cbn [options_loop fold_left].
  - change (encodes []) with (@nil Z). cbn [app]. destruct Ht as [->|[t' ->]]; [done|].
    destruct (Z.leb_spec (zlen (TCPOPT_EOL :: t')) 0) as [Hl|_]; [rewrite zlen_cons in Hl; pose proof (zlen_nonneg t'); lia|].
    cbn [app]. rewrite arr_get_head, ret_bind. done.
  - apply Forall_cons_1 in Hos as [Ho Hos]. specialize (IH fuel).
    change (encodes (o :: os)) with (encode o ++ encodes os) in *. rewrite <- !app_assoc in *.
    assert (o = ONop \/ o <> ONop) as [->|Hn] by (destruct o; (left; done) || (right; done)).
    + change (encode ONop) with [TCPOPT_NOP] in *. cbn [app] in *. rewrite zlen_cons in *. zlen_facts.
      destruct (Z.leb_spec (1 + zlen (encodes os ++ t)) 0); [lia|]. rewrite arr_get_head, ret_bind.
      kinds. replace (1 + zlen (encodes os ++ t) - 1) with (zlen (encodes os ++ t)) by lia.
      specialize (IH (a ++ [1]) t rest opt Hos Ht). rewrite (zlen_app a), <- (app_assoc a) in IH.
      replace (apply_option opt ONop) with opt by (by destruct opt). apply IH. lia.
    + destruct (parse_option_ok a (encodes os ++ t ++ rest) o opt Ho Hn) as (k & d & E & Hk0 & Hk1 & Hsz & Hp).
      rewrite zlen_app in *. zlen_facts. destruct (Z.leb_spec (zlen (encode o) + zlen (encodes os ++ t)) 0); [lia|].
      rewrite E at 1. cbn [app]. rewrite arr_get_head, ret_bind.
      destruct (Z.eqb_spec k TCPOPT_EOL); [done|]. destruct (Z.eqb_spec k TCPOPT_NOP); [done|].
      rewrite E at 1. cbn [app]. rewrite (arr_get_at a _ 1 (zlen (encode o))) by done. rewrite ret_bind.
      destruct (Z.ltb_spec (zlen (encode o)) 2); [lia|].
      destruct (Z.ltb_spec (zlen (encode o) + zlen (encodes os ++ t)) (zlen (encode o))); [lia|].
      specialize (Hp (a ++ [k; zlen (encode o)])). rewrite zlen_app, <- (app_assoc a) in Hp. cbn [app] in Hp.
      rewrite E at 1. cbn [app]. replace (zlen a + 1 + 1) with (zlen a + zlen [k; zlen (encode o)]) by zlia.
      rewrite Hp, ret_bind. specialize (IH (a ++ encode o) t rest (apply_option opt o) Hos Ht).
      rewrite (zlen_app a), <- (app_assoc a) in IH. rewrite <- IH by lia. f_equal; [change (zlen [k; zlen (encode o)]) with 2; lia|lia].
Qed.

(** ** The fast path for timestamps *)
Lemma tstamp_head w : all_bytes w -> zlen w = 4 -> le_val w = be32toh TSTAMP_HEAD -> w = [1; 1; 8; 10].
Proof.
  intros Hb Hl E. pose proof (le_bytes_le_val w Hb) as Ew. rewrite E, Hl in Ew. rewrite <- Ew. reflexivity.
Qed.

(** Only a timestamp encodes to that head. *)
Lemma encodes_nop os t l :
  Forall option_ok os -> terminated t -> encodes os ++ t = TCPOPT_NOP :: l ->
  exists os', os = ONop :: os' /\ Forall option_ok os' /\ encodes os' ++ t = l.
Proof.
  intros Hos Ht E. destruct os as [|o os].
  - destruct Ht as [-> |[t' ->]]; discriminate E.
  - apply Forall_cons_1 in Hos as [Ho Hos]. change (encodes (o :: os)) with (encode o ++ encodes os) in E.
    destruct o as [|v|v| |v e|k d]; try discriminate E.
    + injection E as E. by exists os.
    + injection E as -> _. destruct Ho as (_ & (_ & Hk & _) & _). by destruct Hk.
Qed.

Lemma encodes_tstamp os t l :
  Forall option_ok os -> terminated t -> zlen l = 8 ->
  encodes os ++ t = TCPOPT_TIMESTAMP :: TCPOLEN_TIMESTAMP :: l ->
  exists v e, os = [OTimestamp v e] /\ t = [] /\ option_ok (OTimestamp v e) /\ l = be_bytes 4 v ++ be_bytes 4 e.
Proof.
  intros Hos Ht Hl E. destruct os as [|o os].
  - destruct Ht as [-> |[t' ->]]; discriminate E.
  - apply Forall_cons_1 in Hos as [Ho Hos]. change (encodes (o :: os)) with (encode o ++ encodes os) in E.
    destruct o as [|v|v| |v e|k d]; try discriminate E.
    + exists v, e. unfold encode in E. rewrite <- !app_assoc in E.
      apply (app_inv_head [TCPOPT_TIMESTAMP; TCPOLEN_TIMESTAMP] _ l) in E.
      assert (encodes os ++ t = []) as [Eos ->]%app_nil.
      { apply zlen_nil_inv. rewrite <- E, !zlen_app, !zlen_be_bytes in Hl by lia. rewrite zlen_app. lia. }
      split; [|split; [done|split; [done|]]].
      * destruct os as [|o os]; [done|]. by destruct o.
      * by rewrite <- E, Eos, !app_nil_r.
    + injection E as -> Hsz _. destruct Ho as (_ & (_ & _ & _ & _ & _ & Hk) & _). by destruct Hk.
Qed.

Lemma aligned_timestamp_ok (a rest : bytes) th opt v e :
  zlen a = th + sizeof_tcphdr -> option_ok (OTimestamp v e) ->
  tcp_parse_aligned_timestamp (a ++ [1; 1; 8; 10] ++ be_bytes 4 v ++ be_bytes 4 e ++ rest) th opt =
    Ret (Some (apply_option opt (OTimestamp v e))).
Proof.
  intros Ha [Hv He]. unfold tcp_parse_aligned_timestamp. cbv zeta. rewrite <- Ha.
  rewrite load32_read, ret_bind by done. change (le_val [1; 1; 8; 10] =? be32toh TSTAMP_HEAD) with true. cbv iota.
  assert (zlen a + 4 = zlen (a ++ [1; 1; 8; 10])) as -> by zlia.
  assert (zlen a + 8 = zlen (a ++ [1; 1; 8; 10] ++ be_bytes 4 v)) as -> by zlia.
  rewrite (app_assoc a), load32_at, ret_bind.
  rewrite (app_assoc _ (be_bytes 4 v)), <- (app_assoc a [1; 1; 8; 10] (be_bytes 4 v)), load32_at, ret_bind.
  rewrite !be32toh_be, !wrapu_small by lia. destruct opt. cbn [rcv_tsval rcv_tsecr sack_ok snd_wscale mss_clamp].
  do 3 f_equal. destruct (Z.eqb_spec (le_val (be_bytes 4 e)) 0) as [E0|]; [|done]. cbn [negb].
  rewrite <- (wrapu_small 32 e), <- be32toh_be, E0 by lia. reflexivity.
Qed.

(** ** The options of a segment *)

(** [hdr]: the fixed part of the TCP header; [area]: its options. *)
Record tcp_header (hdr area : bytes) : Prop := {
  th_fixed : zlen hdr = sizeof_tcphdr;
  th_bytes : all_bytes area;
  th_words : exists b, znth hdr 12 = Some b /\ Z.shiftr b 4 * 4 = sizeof_tcphdr + zlen area /\ 0 <= Z.shiftr b 4 <= 15
}.

Lemma parse_recv_options_ok (a hdr rest : bytes) os t opt :
  tcp_header hdr (encodes os ++ t) -> encodes os ++ t <> [] -> Forall option_ok os -> terminated t ->
  tcp_parse_recv_options (a ++ hdr ++ (encodes os ++ t) ++ rest) (zlen a) opt =
    Ret (true, fold_left apply_option os opt).
Proof.
  intros [Hf Hb (b & Hb12 & Hw & Hr)] Hne Hos Ht. unfold tcp_parse_recv_options, th_off.
  assert (zlen (encodes os ++ t) <> 0) as Hpos by (intros E; by apply zlen_nil_inv in E).
  unfold sizeof_tcphdr in *. zlen_facts.
  rewrite (arr_get_at a _ 12 b), !ret_bind.
  2: { rewrite znth_app, bool_decide_true by lia. done. }
  set (off := Z.shiftr b 4) in *. change (20 / 4) with 5. change ((20 + TCPOLEN_TSTAMP_ALIGNED) / 4) with 8.
  destruct (Z.eqb_spec off 5) as [|_]; [lia|].
  assert (zlen (a ++ hdr) = zlen a + 20) as Ea by (rewrite zlen_app; lia).
  assert (options_loop (S (Z.to_nat (s32 (u64 (off * 4 - 20))))) (a ++ hdr ++ (encodes os ++ t) ++ rest)
    (zlen a + 20) (s32 (u64 (off * 4 - 20))) opt = Ret (true, fold_left apply_option os opt)) as Hslow.
  { rewrite (wrapu_small 64), wraps_small by lia. replace (off * 4 - 20) with (zlen (encodes os ++ t)) by lia.
    rewrite <- Ea, (app_assoc a), <- (app_assoc (encodes os)). apply options_loop_encodes; [done..|lia]. }
  destruct (Z.eqb_spec off 8) as [H8|_]; [|by rewrite ret_bind].
  destruct (split_at 4 (encodes os ++ t)) as (w & l & E & Hw4); [lia|].
  rewrite E in *. assert (zlen l = 8) as Hl by (rewrite zlen_app in *; lia). apply all_bytes_app in Hb as [Bw _].
  destruct (decide (le_val w = be32toh TSTAMP_HEAD)) as [Eh|Hh].
  - apply tstamp_head in Eh; [|done..]. subst w. cbn [app] in E.
    apply encodes_nop in E as (os1 & -> & Ho1 & E); [|done..]. apply encodes_nop in E as (os2 & -> & Ho2 & E); [|done..].
    apply encodes_tstamp in E as (v & e & -> & -> & Hts & ->); [|done..].
    rewrite (app_assoc a hdr), <- !app_assoc. pose proof (aligned_timestamp_ok (a ++ hdr) rest (zlen a) opt v e) as Ef.
    rewrite <- !app_assoc in Ef. rewrite Ef by done. rewrite ret_bind. by destruct opt.
  - unfold tcp_parse_aligned_timestamp. unfold sizeof_tcphdr. cbv zeta.
    rewrite <- (app_assoc w), (app_assoc a) in *. rewrite <- Ea at 1.
    rewrite (load32_read (a ++ hdr)), ret_bind by done.
    destruct (Z.eqb_spec (le_val w) (be32toh TSTAMP_HEAD)); [done|]. by rewrite ret_bind.
Qed.

(** ** Frames that are delivered *)

(** The multicast test looks at the last octet of the address. *)
Lemma le_val_4 x y z w :
  all_bytes [x; y; z; w] -> le_val [x; y; z; w] = x + y * 2 ^ 8 + z * 2 ^ 16 + w * 2 ^ 24.
Proof.
  rewrite !all_bytes_cons. intros (? & ? & ? & ? & _). rewrite !le_val_cons by done. change (le_val []) with 0. lia.
Qed.

Lemma multicast_last_octet x y z w :
  all_bytes [x; y; z; w] -> IPV4_IS_MULTICAST_ADDR (le_val [x; y; z; w]) = (224 <=? w) && (w <? 240).
Proof.
  intros Hb. rewrite le_val_4 by done. rewrite !all_bytes_cons in Hb. destruct Hb as (Hx & Hy & Hz & Hw & _).
  unfold is_byte in *. unfold IPV4_IS_MULTICAST_ADDR.
  change IPV4_MULTICAST_MASK with (Z.shiftl (Z.ones 4) 28). change IPV4_MULTICAST_PREFIX with (14 * 2 ^ 28).
  set (n := x + y * 2 ^ 8 + z * 2 ^ 16 + w * 2 ^ 24).
  pose proof (Z.div_mod w 16). pose proof (Z.mod_pos_bound w 16).
  assert (Z.land n (Z.shiftl (Z.ones 4) 28) = w / 16 * 2 ^ 28) as ->.
  { apply Z.bits_inj'. intros i Hi. rewrite Z.land_spec, <- Z.shiftl_mul_pow2 by lia.
    destruct (Z.ltb_spec i 28) as [Hl|Hl].
    - rewrite !Z.shiftl_spec_low by lia. apply andb_false_r.
    - rewrite !Z.shiftl_spec by lia. rewrite (Z.div_unique_pos n (2 ^ 28) (w / 16) (x + y * 2 ^ 8 + z * 2 ^ 16 + w mod 16 * 2 ^ 24)) by (subst n; lia).
      rewrite Z.div_pow2_bits by lia. replace (i - 28 + 28) with i by lia.
      destruct (Z.ltb_spec (i - 28) 4).
      + rewrite Z.ones_spec_low by lia. apply andb_true_r.
      + rewrite Z.ones_spec_high by lia. rewrite andb_false_r. symmetry.
        apply Z.bits_above_log2; [subst n; lia|]. destruct (Z.eq_dec n 0) as [->|]; [simpl; lia|].
        apply Z.log2_lt_pow2; [subst n; lia|]. apply Z.lt_le_trans with (2 ^ 32); [subst n; lia|].
        apply Z.pow_le_mono_r; lia. }
  destruct (Z.eqb_spec (w / 16 * 2 ^ 28) (14 * 2 ^ 28)), (Z.leb_spec 224 w), (Z.ltb_spec w 240); try done; lia.
Qed.

Lemma broadcast_all_ones x y z w :
  all_bytes [x; y; z; w] -> IPV4_IS_BROADCAST_ADDR (le_val [x; y; z; w]) = bool_decide ([x; y; z; w] = [255; 255; 255; 255]).
Proof.
  intros Hb. unfold IPV4_IS_BROADCAST_ADDR. change IPV4_BROADCAST_ADDR with 4294967295. rewrite le_val_4 by done.
  rewrite !all_bytes_cons in Hb. unfold is_byte in *. case_bool_decide as E.
  - by injection E as -> -> -> ->.
  - apply Z.eqb_neq. intros En. destruct E. repeat f_equal; lia.
Qed.

(** The data link headers of IPv4. *)
Inductive link_header : Z -> bytes -> Prop :=
| link_null : link_header DLT_NULL (le_bytes 4 PF_INET)
| link_raw : link_header DLT_RAW []
| link_ether l : zlen l = 12 -> link_header DLT_EN10MB (l ++ be_bytes 2 ETHERTYPE_IP)
| link_sll l : zlen l = 14 -> link_header DLT_LINUX_SLL (l ++ be_bytes 2 ETHERTYPE_IP).

Lemma link_protocol_ok dl lk r : link_header dl lk -> link_protocol dl (lk ++ r) = Ret ETHERTYPE_IP.
Proof.
  destruct 1 as [| |l Hl|l Hl]; unfold link_protocol.
  - pose proof (load32_read [] (le_bytes 4 PF_INET) r eq_refl) as E. change (zlen []) with 0 in E.
    cbn [app] in E. change (DLT_NULL =? DLT_NULL) with true. cbv iota. by rewrite E.
  - done.
  - rewrite <- app_assoc. unfold load_be16. rewrite <- Hl. by rewrite mem_read_part.
  - rewrite <- app_assoc. unfold load_be16. rewrite <- Hl. by rewrite mem_read_part.
Qed.

(** An IPv4 header of a TCP packet to the address [dst]. *)
Record ip_header (iph dst : bytes) : Prop := {
  ih_size : exists b, znth iph 0 = Some b /\ Z.land b 15 * 4 = zlen iph;
  ih_min : 20 <= zlen iph;
  ih_proto : znth iph 9 = Some IPPROTO_TCP;
  ih_dst : exists x y, iph = x ++ dst ++ y /\ zlen x = 16 /\ zlen dst = 4 /\ all_bytes dst
}.

(** What is ignored by address. *)
Definition ignored (dst : bytes) : bool :=
  match dst with
  | [_; _; _; w] => bool_decide (dst = [255; 255; 255; 255]) || (224 <=? w) && (w <? 240)
  | _ => false
  end.

Lemma handler_prefix dl lk iph dst r :
  link_header dl lk -> ip_header iph dst ->
  pcap_pkt_handler dl (zlen lk) (lk ++ iph ++ r) =
    if ignored dst then Ret None else
    let pkt := lk ++ iph ++ r in
    let! off := th_off pkt (zlen lk + zlen iph) in
    let! tcp_opt := if negb (s32 (u64 (off * 4 - sizeof_tcphdr)) =? 0)
      then let! (_, o) := tcp_parse_recv_options pkt (zlen lk + zlen iph) (mkOpt 0 0 0 0 0) in Ret o
      else Ret (mkOpt 0 0 0 0 0) in
    let total := zlen lk + zlen iph + off * 4 in
    let n := s32 (u32 (zlen pkt - total)) in
    c_assert (0 <=? n) ;;
    let! data := mem_read pkt total n in
    Ret (Some (mkSniffed (zlen lk) (zlen lk + zlen iph) tcp_opt total data)).
Proof.
  intros Hlk [(b & Hb & Hsz) Hmin Hproto (x & y & Ei & Hx & Hd & Bd)]. unfold pcap_pkt_handler.
  rewrite link_protocol_ok, ret_bind by done. cbn [negb Z.eqb Pos.eqb ETHERTYPE_IP].
  assert (load32 (lk ++ iph ++ r) (zlen lk + 16) = Ret (le_val dst)) as ->.
  { rewrite Ei, <- Hx, <- zlen_app, <- !app_assoc, (app_assoc lk). by apply load32_read. }
  rewrite ret_bind.
  destruct dst as [|d1 [|d2 [|d3 [|d4 [|d5 dst]]]]]; unfold zlen in Hd; simpl in Hd; try lia. cbn [ignored].
  rewrite multicast_last_octet, broadcast_all_ones by done.
  destruct (bool_decide ([d1; d2; d3; d4] = [255; 255; 255; 255])); [done|]. cbn [orb].
  destruct ((224 <=? d4) && (d4 <? 240)); [done|]. cbv zeta.
  assert (forall i v, znth iph i = Some v -> arr_get (lk ++ iph ++ r) (zlen lk + i) = Ret v) as Hat.
  { intros i v Hv. apply arr_get_at. pose proof (znth_inv _ _ _ Hv). rewrite znth_app, bool_decide_true by lia. done. }
  pose proof (Hat 0 b Hb) as E0. rewrite Z.add_0_r in E0. rewrite E0, ret_bind, (Hat 9 IPPROTO_TCP), ret_bind by done.
  change (negb (IPPROTO_TCP =? IPPROTO_TCP)) with false. cbv iota. by rewrite Hsz.
Qed.

Lemma th_off_at (a hdr r : bytes) b :
  znth hdr 12 = Some b -> th_off (a ++ hdr ++ r) (zlen a) = Ret (Z.shiftr b 4).
Proof.
  intros Hb. unfold th_off. rewrite (arr_get_at a _ 12 b); [done|]. pose proof (znth_inv _ _ _ Hb).
  rewrite znth_app, bool_decide_true by lia. done.
Qed.

Lemma encodes_nil os t : encodes os ++ t = [] -> os = [] /\ t = [].
Proof. intros [E ->]%app_nil. split; [|done]. destruct os as [|o os]; [done|]. by destruct o. Qed.

(** C35.  From a captured IPv4/TCP frame the handler gets the TCP options as
    the header encodes them, on the fast path as in the loop, and as payload
    all captured bytes behind the headers, trailing padding included.  Only
    frames to 255.255.255.255 are ignored, and, the multicast test being
    applied to the address in network byte order, those to an address whose
    last octet is 224 to 239. *)
Theorem pcap_pkt_handler_delivers dl lk iph dst hdr os t payload :
  link_header dl lk -> ip_header iph dst -> tcp_header hdr (encodes os ++ t) ->
  Forall option_ok os -> terminated t ->
  zlen (lk ++ iph ++ hdr ++ (encodes os ++ t) ++ payload) <= INT_MAX ->
  pcap_pkt_handler dl (zlen lk) (lk ++ iph ++ hdr ++ (encodes os ++ t) ++ payload) =
    Ret (if ignored dst then None else
         Some (mkSniffed (zlen lk) (zlen lk + zlen iph) (fold_left apply_option os (mkOpt 0 0 0 0 0))
           (zlen (lk ++ iph ++ hdr ++ encodes os ++ t)) payload)).
Proof.
  intros Hlk Hip Hth Hos Ht Hlen. rewrite (handler_prefix dl lk iph dst) by done.
  destruct (ignored dst); [done|]. cbv zeta. rewrite (app_assoc lk), <- zlen_app.
  pose proof Hth as [Hf Hb (b & Hb12 & Hw & Hr)]. rewrite (th_off_at _ _ _ b), ret_bind by done.
  set (off := Z.shiftr b 4) in *. unfold sizeof_tcphdr, INT_MAX in *. rewrite !zlen_app in Hlen. zlen_facts.
  assert ((if negb (s32 (u64 (off * 4 - 20)) =? 0)
    then let! (_, o) := tcp_parse_recv_options ((lk ++ iph) ++ hdr ++ (encodes os ++ t) ++ payload)
      (zlen (lk ++ iph)) (mkOpt 0 0 0 0 0) in Ret o else Ret (mkOpt 0 0 0 0 0)) =
    Ret (fold_left apply_option os (mkOpt 0 0 0 0 0))) as ->.
  { rewrite (wrapu_small 64), wraps_small by lia. destruct (Z.eqb_spec (off * 4 - 20) 0) as [E|E]; cbn [negb].
    - assert (encodes os ++ t = []) as [-> _]%encodes_nil by (apply zlen_nil_inv; lia). done.
    - rewrite parse_recv_options_ok; [done|done| |done|done]. intros En. rewrite En, zlen_nil in Hw. lia. }
  rewrite ret_bind. rewrite !zlen_app in *.
  assert (zlen lk + zlen iph + off * 4 = zlen (lk ++ iph ++ hdr ++ encodes os ++ t)) as -> by (rewrite !zlen_app; lia).
  replace (zlen lk + zlen iph + (zlen hdr + (zlen (encodes os) + zlen t + zlen payload)) -
    zlen (lk ++ iph ++ hdr ++ encodes os ++ t)) with (zlen payload) by (rewrite !zlen_app; lia).
  rewrite (wrapu_small 32), wraps_small by lia. destruct (Z.leb_spec 0 (zlen payload)); [|lia].
  cbn [c_assert]. rewrite ret_bind.
  pose proof (mem_read_part (lk ++ iph ++ hdr ++ encodes os ++ t) payload [] (zlen payload) eq_refl) as E.
  rewrite app_nil_r, <- !app_assoc in E. rewrite <- !app_assoc, E, ret_bind. by rewrite !zlen_app.
Qed.

(**  A segment cut short in its header stops the program: behind the
    place of the header length the captured bytes are not checked before the
    assertion on the payload size. *)
Theorem pcap_pkt_handler_short_aborts dl lk iph dst seg b :
  link_header dl lk -> ip_header iph dst -> ignored dst = false ->
  znth seg 12 = Some b -> Z.shiftr b 4 = 5 -> zlen seg < sizeof_tcphdr -> zlen (lk ++ iph) <= 2 ^ 16 ->
  pcap_pkt_handler dl (zlen lk) (lk ++ iph ++ seg) = AssertFail.
Proof.
  intros Hlk Hip Hig Hb H5 Hs Hl. rewrite (handler_prefix dl lk iph dst), Hig by done. cbv zeta.
  rewrite (app_assoc lk), <- zlen_app. pose proof (th_off_at (lk ++ iph) seg [] b Hb) as E. rewrite app_nil_r in E.
  rewrite E, ret_bind, H5. change (negb (s32 (u64 (5 * 4 - sizeof_tcphdr)) =? 0)) with false. cbv iota.
  rewrite ret_bind. set (d := zlen ((lk ++ iph) ++ seg) - (zlen (lk ++ iph) + 5 * 4)).
  assert (- 20 <= d < 0) as Hd.
  { subst d. rewrite (zlen_app (lk ++ iph)). unfold sizeof_tcphdr in *. zlen_facts. lia. }
  rewrite wraps_wrapu, wraps_small by lia. by destruct (Z.leb_spec 0 d); [lia|].
Qed.

(** ** The capture loop *)

Record tcpsniff_opt := mkSniffOpt { snaplen : Z; pkt_cnt_limit : Z; timeout_limit : Z }.

(** What libpcap answers: the device's address and mask, whether the device
    opens (by snapshot length, promiscuous mode and timeout), its link type,
    and whether the filter compiles (by netmask) and is accepted. *)
Record pcap := mkPcap {
  pcap_lookupnet : option (Z * Z);
  pcap_open_live : Z -> Z -> Z -> bool;
  pcap_datalink : Z;
  pcap_compile : Z -> bool;
  pcap_setfilter : bool
}.

(** The results of [pcap_next_ex] on a live capture. *)
Inductive pcap_next := Timeout | NextError | Frame (pkt : bytes).

(** How the call ends, with the number of capture handles left open; it
    waits when the frames given run out. *)
Inductive sniff_end (S : Type) :=
| Waiting (st : S)
| Finished (ok : bool) (open_handles : Z) (st : S).
Arguments Waiting {S} st.
Arguments Finished {S} ok open_handles st.

Section tcpsniff.
(** The client's handler; [true]: it called [tcpsniff_exit]. *)
Context {S : Type} (pkt_handler : S -> sniffed -> S * bool).

Definition link_offset (dl_type : Z) : option Z :=
  if dl_type =? DLT_NULL then Some 4 else
  if dl_type =? DLT_RAW then Some 0 else
  if dl_type =? DLT_EN10MB then Some 14 else
  if dl_type =? DLT_LINUX_SLL then Some SLL_HDR_LEN else None.

Fixpoint sniff_loop (dl off : Z) (frames : list pcap_next) (st : S) : outcome (sniff_end S) :=
  match frames with
  | [] => Ret (Waiting st)
  | Timeout :: frames => sniff_loop dl off frames st
  | NextError :: _ => Ret (Finished false 0 st)
  | Frame pkt :: frames =>
    let! o := pcap_pkt_handler dl off pkt in
    match o with
    | None => sniff_loop dl off frames st
    | Some ev =>
      let '(st, exited) := pkt_handler st ev in
      if exited : bool then Ret (Finished true 1 st) else sniff_loop dl off frames st
    end
  end.

Definition tcpsniff (lib : pcap) (opt : tcpsniff_opt) (frames : list pcap_next) (st : S) : outcome (sniff_end S) :=
  let subnet_mask := match pcap_lookupnet lib with Some (_, m) => m | None => 0 end in
  if negb (pcap_open_live lib (snaplen opt) (pkt_cnt_limit opt) (timeout_limit opt))
  then Ret (Finished false 0 st) else
  match link_offset (pcap_datalink lib) with
  | None => Ret (Finished false 1 st)
  | Some off =>
    if negb (pcap_compile lib subnet_mask) then Ret (Finished false 0 st) else
    if negb (pcap_setfilter lib) then Ret (Finished false 0 st) else
    sniff_loop (pcap_datalink lib) off frames st
  end.
End tcpsniff.

(** ** Examples *)
Definition demo_ip (d : Z) : bytes :=
  [69; 0; 0; 62] ++ zeros 5 ++ [6; 0; 0] ++ [10; 0; 0; 1] ++ [10; 0; 0; d].
Definition demo_hdr (off : Z) : bytes := zeros 12 ++ [Z.shiftl off 4] ++ zeros 7.
Definition demo_options : list tcp_option :=
  [OMss 1460; OSackPerm; OTimestamp 1000 2000; ONop; OWindow 7].
Definition demo_ether : bytes := zeros 12 ++ be_bytes 2 ETHERTYPE_IP.

Lemma demo_ip_ok d : is_byte d -> ip_header (demo_ip d) [10; 0; 0; d].
Proof.
  intros Hd. constructor; [by exists 69|done|done|]. exists (take 16 (demo_ip d)), [].
  split; [done|]. split; [done|]. split; [done|]. rewrite !all_bytes_cons. unfold is_byte in *. split_and!; lia || by constructor.
Qed.

Lemma pcap_pkt_handler_delivers_witness :
  pcap_pkt_handler DLT_EN10MB 14
    (demo_ether ++ demo_ip 9 ++ demo_hdr 10 ++ (encodes demo_options ++ []) ++ str "hello") =
  Ret (Some (mkSniffed 14 34 (mkOpt 1000 2000 1 7 1460) 74 (str "hello"))).
Proof.
  refine (pcap_pkt_handler_delivers DLT_EN10MB demo_ether (demo_ip 9) [10; 0; 0; 9] (demo_hdr 10) demo_options []
    (str "hello") _ _ _ _ _ _).
  - apply (link_ether (zeros 12)). reflexivity.
  - apply demo_ip_ok. unfold is_byte. lia.
  - constructor; [reflexivity|vm_decide|]. exists 160. split; [reflexivity|]. split; [reflexivity|]. vm_compute. split; discriminate.
  - unfold demo_options. repeat constructor; vm_compute; discriminate || done.
  - left. reflexivity.
  - vm_compute. discriminate.
Defined.

Lemma pcap_pkt_handler_short_aborts_witness :
  pcap_pkt_handler DLT_EN10MB 14 (demo_ether ++ demo_ip 9 ++ (zeros 12 ++ [80])) = AssertFail.
Proof.
  refine (pcap_pkt_handler_short_aborts DLT_EN10MB demo_ether (demo_ip 9) [10; 0; 0; 9] (zeros 12 ++ [80]) 80 _ _ _ _ _ _ _);
    [apply (link_ether (zeros 12)); reflexivity|apply demo_ip_ok; unfold is_byte; lia|reflexivity..|vm_compute; discriminate].
Defined.

(** Traffic to 10.0.0.230 is taken for multicast. *)
Example unicast_ignored :
  pcap_pkt_handler DLT_EN10MB 14 (demo_ether ++ demo_ip 230 ++ demo_hdr 5 ++ str "hello") = Ret None.
Proof. reflexivity. Qed.

(** An option kind in the last byte of the header: its size is read behind
    the captured bytes. *)
Example options_overrun :
  pcap_pkt_handler DLT_EN10MB 14 (demo_ether ++ demo_ip 9 ++ demo_hdr 6 ++ [1; 1; 1; 2]) = Undefined.
Proof. reflexivity. Qed.

(** A timestamp with the top bit set overflows the shift in the loop, but
    not on the fast path. *)
Example timestamp_overflow :
  pcap_pkt_handler DLT_EN10MB 14 (demo_ether ++ demo_ip 9 ++ demo_hdr 8 ++
    [8; 10] ++ be_bytes 4 (2 ^ 31) ++ be_bytes 4 1 ++ [1; 1]) = Undefined /\
  pcap_pkt_handler DLT_EN10MB 14 (demo_ether ++ demo_ip 9 ++ demo_hdr 8 ++
    [1; 1; 8; 10] ++ be_bytes 4 (2 ^ 31) ++ be_bytes 4 1) =
    Ret (Some (mkSniffed 14 34 (mkOpt (2 ^ 31) 1 0 0 0) 66 [])).
Proof. split; reflexivity. Qed.

(** On a link type it does not know [tcpsniff] leaves the handle open. *)
Example tcpsniff_leaks :
  tcpsniff (fun st _ => (st, false)) (mkPcap None (fun _ _ _ => true) 105 (fun _ => true) true)
    (mkSniffOpt 65535 0 1000) [] tt = Ret (Finished false 1 tt).
Proof. reflexivity. Qed.
