(* ===== verification/Double.v ===== *)
(** * Doubles and their decimal text

    The C type [double] as [base/cJSON.c] uses it: comparisons, the conversion
    to [int], and the three functions of the C library that read and write it,
    [strtod], [sscanf("%lg")] and [sprintf("%1.<P>g")], with the rounding IEEE
    754 and the C standard require (to nearest, ties to even).  Seventeen
    significant digits identify a double: [strtod_sprintf_17]. *)

From stdpp Require Import base tactics numbers list option strings.
From Stdlib Require Import Lia Zpow_facts.
From S2P Require Import Prelude.

(** [Fin s m E] is the number [m * 2 ^ E / 2 ^ 1074], negated if [s]. *)
Inductive double := Fin (s : bool) (m E : Z) | Inf (s : bool) | NaN.

#[export] Instance double_eq_dec : EqDecision double.
Proof. solve_decision. Defined.

(** The doubles of the machine: 53 bits of mantissa, normal or of the least exponent. *)
Definition canonical (d : double) : Prop :=
  match d with
  | Fin _ m E => 0 <= m < 2 ^ 53 /\ 0 <= E <= 2045 /\ (2 ^ 52 <= m \/ E = 0)
  | _ => True
  end.

(** The value of a finite double, times [2 ^ 1074]. *)
Definition dval (s : bool) (m E : Z) : Z := (if s then Z.opp else id) (m * 2 ^ E).

(** The value of an integer on the same scale. *)
Definition of_int_val (n : Z) : Z := n * 2 ^ 1074.

(** [d >= n], [d <= n] and [d == d'] of C. *)
Definition dge (d : double) (n : Z) : bool :=
  match d with Fin s m E => of_int_val n <=? dval s m E | Inf s => negb s | NaN => false end.
Definition dle (d : double) (n : Z) : bool :=
  match d with Fin s m E => dval s m E <=? of_int_val n | Inf s => s | NaN => false end.
Definition deq (d d' : double) : bool :=
  match d, d' with
  | Fin s m E, Fin s' m' E' => dval s m E =? dval s' m' E'
  | Inf s, Inf s' => Bool.eqb s s'
  | _, _ => false
  end.

(** [(int)d], undefined outside the range of [int]. *)
Definition dtoint (d : double) : outcome Z :=
  match d with Fin s m E => sint (Z.quot (dval s m E) (2 ^ 1074)) | _ => Undefined end.

(** [(d * 0) != 0]. *)
Definition not_finite (d : double) : bool := match d with Fin _ _ _ => false | _ => true end.

(** ** Rounding *)
Definition round_half_even (num den : Z) : Z :=
  let q := num / den in
  let r := num mod den in
  if 2 * r <? den then q else if den <? 2 * r then q + 1 else if Z.even q then q else q + 1.

(** The double nearest to [num / den]. *)
Definition round_ratio (s : bool) (num den : Z) : double :=
  let N := num * 2 ^ 1074 in
  let E := Z.max 0 (Z.log2 (N / den) - 52) in
  let m := round_half_even N (den * 2 ^ E) in
  let '(m, E) := if m =? 2 ^ 53 then (2 ^ 52, E + 1) else (m, E) in
  if 2045 <? E then Inf s else Fin s m E.

(** An integer as a double. *)
Definition of_int (n : Z) : double := round_ratio (n <? 0) (Z.abs n) 1.

(** ** Decimal digits *)
Definition is_digit (c : Z) : bool := (48 <=? c) && (c <=? 57).

Fixpoint digits_of (k : nat) (n : Z) : bytes :=
  match k with
  | O => []
  | S k => digits_of k (n / 10) ++ [48 + n mod 10]
  end.

Definition dec_value (l : bytes) : Z := foldl (fun a c => 10 * a + (c - 48)) 0 l.

Fixpoint ndigits_loop (fuel : nat) (n : Z) : Z :=
  match fuel with
  | O => 1
  | S fuel => if n <? 10 then 1 else 1 + ndigits_loop fuel (n / 10)
  end.
(** The number of decimal digits of [n > 0]. *)
Definition ndigits (n : Z) : Z := ndigits_loop (Z.to_nat (Z.log2 n)) n.

(** Without the zeros at the end. *)
Fixpoint strip (l : bytes) : bytes :=
  match l with
  | [] => []
  | c :: l => match strip l with [] => if c =? 48 then [] else [c] | l' => c :: l' end
  end.

(** ** [sprintf("%.<P>g", d)] *)

(** The exponent of ten of [A / 2 ^ 1074], and its [P] significant digits as a number. *)
Definition dec_exp (A : Z) : Z := ndigits (A * 10 ^ 400 / 2 ^ 1074) - 401.
Definition dec_round (P A : Z) : Z * Z :=
  let X := dec_exp A in
  let D := round_half_even (A * 10 ^ 400) (2 ^ 1074 * 10 ^ (401 - P + X)) in
  if D =? 10 ^ P then (10 ^ (P - 1), X + 1) else (D, X).

Definition fraction (fp : bytes) : bytes := match fp with [] => [] | _ => 46 :: fp end.
Definition exponent (X : Z) : bytes :=
  101 :: (if X <? 0 then 45 else 43) :: digits_of (if Z.abs X <? 100 then 2 else 3) (Z.abs X).

Definition fmt_g (P D X : Z) : bytes :=
  let l := digits_of (Z.to_nat P) D in
  if (X <? -4) || (P <=? X) then ztake 1 l ++ fraction (strip (zdrop 1 l)) ++ exponent X
  else if X <? 0 then [48] ++ fraction (replicate (Z.to_nat (- X - 1)) 48 ++ strip l)
  else ztake (X + 1) l ++ fraction (strip (zdrop (X + 1) l)).

Definition sprintf_g (P : Z) (d : double) : bytes :=
  match d with
  | Fin s m E =>
    (if s then [45] else []) ++
    (if m =? 0 then [48] else let '(D, X) := dec_round P (m * 2 ^ E) in fmt_g P D X)
  | Inf s => (if s then [45] else []) ++ str "inf"
  | NaN => str "nan"
  end.

(** ** [strtod], on text without white space, hexadecimals and names *)
Fixpoint span_digits (s : bytes) : bytes * bytes :=
  match s with
  | c :: s' => if is_digit c then let '(a, b) := span_digits s' in (c :: a, b) else ([], s)
  | [] => ([], [])
  end.

(** A sign, and the characters it takes. *)
Definition read_sign (s : bytes) : bool * Z * bytes :=
  match s with
  | 45 :: s' => (true, 1, s')
  | 43 :: s' => (false, 1, s')
  | _ => (false, 0, s)
  end.

(** An exponent part: its value and the characters it takes, none when no
    digit follows. *)
Definition read_exponent (s : bytes) : Z * Z :=
  match s with
  | c :: s' =>
    if (c =? 101) || (c =? 69) then
      let '(neg, n, s') := read_sign s' in
      let '(ds, _) := span_digits s' in
      if decide (ds = []) then (0, 0) else ((if neg then - dec_value ds else dec_value ds), 1 + n + zlen ds)
    else (0, 0)
  | [] => (0, 0)
  end.

(** The double nearest to [F * 10 ^ p]; numbers far out of range are not
    computed. *)
Definition dec_to_double (s : bool) (F p : Z) : double :=
  if F =? 0 then Fin s 0 0 else
  if 400 <? ndigits F + p then Inf s else
  if ndigits F + p <? -400 then Fin s 0 0 else
  round_ratio s (F * 10 ^ Z.max 0 p) (10 ^ Z.max 0 (- p)).

(** The value and the number of characters that it was read from. *)
Definition strtod (s : bytes) : double * Z :=
  let '(neg, n, s) := read_sign s in
  let '(ip, s) := span_digits s in
  let '(fp, k, s) := match s with 46 :: s' => let '(fp, s') := span_digits s' in (fp, 1 + zlen fp, s') | _ => ([], 0, s) end in
  if decide (ip ++ fp = []) then (Fin false 0 0, 0) else
  let '(e, j) := read_exponent s in
  (dec_to_double neg (dec_value (ip ++ fp)) (e - zlen fp), n + zlen ip + k + j).

(** [sscanf(s, "%lg", &d)]: the number of items read, and the item. *)
Definition sscanf_lg (s : bytes) : option double := let '(d, n) := strtod s in if n =? 0 then None else Some d.

Example strtod_1 : strtod (str "-12.5e1,") = (of_int (-125), 7).
Proof. vm_compute. reflexivity. Qed.
Example strtod_2 : strtod (str "1e") = (of_int 1, 1) /\ strtod (str "-") = (Fin false 0 0, 0) /\ strtod (str "0.1") = (Fin false 7205759403792794 1018, 3).
Proof. vm_compute. done. Qed.
Example strtod_3 : strtod (str "1e999") = (Inf false, 5) /\ strtod (str "4.9e-324") = (Fin false 1 0, 8) /\ strtod (str "1e-400") = (Fin false 0 0, 6).
Proof. vm_compute. done. Qed.
Example sprintf_1 : sprintf_g 15 (Fin false 7205759403792794 1018) = str "0.1" /\ sprintf_g 17 (Fin false 7205759403792794 1018) = str "0.10000000000000001".
Proof. vm_compute. done. Qed.
Example sprintf_2 : sprintf_g 17 (Fin true (2 ^ 53 - 1) 2045) = str "-1.7976931348623157e+308" /\ sprintf_g 15 (of_int 1000000) = str "1000000" /\ sprintf_g 15 (of_int (10 ^ 15)) = str "1e+15".
Proof. vm_compute. done. Qed.

(** ** Rounding to the nearest double *)
Lemma round_half_even_scale c num den : 0 < c -> 0 < den -> round_half_even (c * num) (c * den) = round_half_even num den.
Proof.
  intros Hc Hd. unfold round_half_even. rewrite Z.div_mul_cancel_l, Zmult_mod_distr_l by lia.
  replace (2 * (c * (num mod den))) with (c * (2 * (num mod den))) by lia.
  assert (forall a b, (c * a <? c * b) = (a <? b)) as Hlt.
  { intros a b. destruct (Z.ltb_spec a b), (Z.ltb_spec (c * a) (c * b)); try done; exfalso; nia. }
  by rewrite !Hlt.
Qed.

Lemma round_ratio_scale c s num den : 0 < c -> 0 < den -> round_ratio s (c * num) (c * den) = round_ratio s num den.
Proof.
  intros Hc Hd. unfold round_ratio. rewrite <- Z.mul_assoc, Z.div_mul_cancel_l by lia. set (E := Z.max _ _).
  rewrite <- Z.mul_assoc, round_half_even_scale by lia. done.
Qed.

(** Only the ratio counts. *)
Lemma round_ratio_ext s num den num' den' : 0 < den -> 0 < den' -> num * den' = num' * den ->
  round_ratio s num den = round_ratio s num' den'.
Proof.
  intros Hd Hd' He. rewrite <- (round_ratio_scale den' s num den), <- (round_ratio_scale den s num' den') by done.
  f_equal; lia.
Qed.

(** The quotient rounds to [q] when it is nearer than one half. *)
Lemma round_half_even_near num den q : 0 < den -> 2 * Z.abs (num - q * den) < den -> round_half_even num den = q.
Proof.
  intros Hd Hn. unfold round_half_even. destruct (Z_le_gt_dec (q * den) num).
  - assert (num = q * den + (num - q * den)) as Hq by lia. pose proof (Z.div_unique num den q (num - q * den)) as H1.
    pose proof (Z.mod_unique num den q (num - q * den)) as H2. rewrite <- H1, <- H2 by lia.
    by rewrite (proj2 (Z.ltb_lt _ _)) by lia.
  - pose proof (Z.div_unique num den (q - 1) (num - (q - 1) * den)) as H1.
    pose proof (Z.mod_unique num den (q - 1) (num - (q - 1) * den)) as H2. rewrite <- H1, <- H2 by lia.
    rewrite (proj2 (Z.ltb_ge _ _)), (proj2 (Z.ltb_lt _ _)) by lia. lia.
Qed.

(** The error of rounding. *)
Lemma round_half_even_error num den : 0 < den -> 2 * Z.abs (round_half_even num den * den - num) <= den.
Proof.
  intros Hd. unfold round_half_even. pose proof (Z.div_mod num den). pose proof (Z.mod_pos_bound num den Hd).
  destruct (Z.ltb_spec (2 * (num mod den)) den); [nia|]. destruct (Z.ltb_spec den (2 * (num mod den))); [nia|].
  destruct (Z.even _); nia.
Qed.

Lemma log2_between n k : 0 <= k -> 2 ^ k <= n < 2 * 2 ^ k -> Z.log2 n = k.
Proof. intros Hk Hn. apply Z.log2_unique; [done|]. rewrite Z.pow_succ_r by done. lia. Qed.
Lemma log2_below n k : 0 <= k -> 0 <= n < 2 ^ k -> Z.log2 n <= k - 1 \/ n = 0.
Proof. intros Hk Hn. destruct (decide (n = 0)); [auto|left]. pose proof (Z.log2_lt_pow2 n k). lia. Qed.

(** A double is the nearest to every ratio that is closer to it than half the
    distance to its neighbours. *)
Lemma round_ratio_near s num den m E :
  canonical (Fin s m E) -> 0 < den -> 0 <= num ->
  2 * Z.abs (num * 2 ^ 1074 - m * 2 ^ E * den) < 2 ^ E * den ->
  (m = 2 ^ 52 -> 4 * (m * 2 ^ E * den - num * 2 ^ 1074) < 2 ^ E * den) ->
  round_ratio s num den = Fin s m E.
Proof.
  intros (Hm & HE & Hc) Hd Hnum Hn Hb. unfold round_ratio. assert (0 <= num * 2 ^ 1074) as HN by lia.
  set (N := num * 2 ^ 1074) in *. clearbody N. clear num Hnum.
  set (P := 2 ^ E * den) in *. replace (m * 2 ^ E * den) with (m * P) in * by (unfold P; lia).
  assert (0 < 2 ^ E) as HP by (apply Z.pow_pos_nonneg; lia).
  assert (N / den < (m + 1) * 2 ^ E) as Hhi by (apply Z.div_lt_upper_bound; unfold P in *; nia).
  destruct (decide (m = 2 ^ 52 /\ 0 < E /\ N < m * P)) as [(Hm52 & HE0 & HNlt)|Hnb].
  - specialize (Hb Hm52). replace E with (E - 1 + 1) in HP by lia.
    assert (P = 2 * (2 ^ (E - 1) * den)) as HPe.
    { unfold P. replace E with (E - 1 + 1) at 1 by lia. rewrite Z.pow_add_r by lia. lia. }
    assert (0 < 2 ^ (E - 1)) as HP' by (apply Z.pow_pos_nonneg; lia). subst m.
    assert (Z.log2 (N / den) = 51 + E) as Hlog.
    { apply log2_between; [lia|]. replace (51 + E) with (52 + (E - 1)) by lia. rewrite Z.pow_add_r by lia. split.
      - apply Z.div_le_lower_bound; [done|]. nia.
      - apply Z.div_lt_upper_bound; [done|]. nia. }
    rewrite Hlog. replace (Z.max 0 (51 + E - 52)) with (E - 1) by lia.
    rewrite (round_half_even_near _ _ (2 ^ 53)) by nia. rewrite Z.eqb_refl. rewrite (proj2 (Z.ltb_ge _ _)) by lia. f_equal. lia.
  - assert (Z.max 0 (Z.log2 (N / den) - 52) = E) as ->.
    { destruct (decide (N < m * P /\ m <> 2 ^ 52 \/ m * P <= N)) as [Hcase|Hcase].
      - destruct Hc as [Hc|Hc].
        + assert (2 ^ 52 * 2 ^ E <= N / den) as Hlo.
          { apply Z.div_le_lower_bound; [done|]. unfold P in *. destruct Hcase as [[? ?]|?]; nia. }
          rewrite (log2_between _ (52 + E)); [lia|lia|]. rewrite Z.pow_add_r by lia. nia.
        + subst E. change (2 ^ 0) with 1 in *. destruct (Z_le_gt_dec (2 ^ 52) (N / den)) as [Hbig|Hsmall].
          * rewrite (log2_between _ 52); [lia|lia|]. lia.
          * pose proof (Z.div_pos N den). pose proof (log2_below (N / den) 52). destruct H0; [lia|lia|lia|]. rewrite H0. reflexivity.
      - assert (m = 2 ^ 52 /\ E = 0 /\ N < m * P) as (-> & -> & HNlt) by lia. change (2 ^ 0) with 1 in *.
        assert (N / den < 2 ^ 52) by (apply Z.div_lt_upper_bound; unfold P in *; nia).
        pose proof (Z.div_pos N den). pose proof (log2_below (N / den) 52). destruct H1; [lia|lia|lia|]. rewrite H1. reflexivity. }
    rewrite (round_half_even_near _ _ m) by (unfold P in *; nia). rewrite (proj2 (Z.eqb_neq _ _)), (proj2 (Z.ltb_ge _ _)) by lia. done.
Qed.

(** ** Decimal digits *)
Lemma ndigits_loop_spec fuel : forall n, 0 < n < 2 ^ (Z.of_nat fuel + 1) ->
  1 <= ndigits_loop fuel n /\ 10 ^ (ndigits_loop fuel n - 1) <= n < 10 ^ ndigits_loop fuel n.
Proof.
  induction fuel as [|fuel IH]; intros n Hn; cbn [ndigits_loop].
  - change (2 ^ (Z.of_nat 0 + 1)) with 2 in Hn. change (10 ^ 1) with 10. change (10 ^ (1 - 1)) with 1. lia.
  - destruct (Z.ltb_spec n 10); [change (10 ^ 1) with 10; change (10 ^ (1 - 1)) with 1; lia|].
    destruct (IH (n / 10)) as (H1 & H2 & H3).
    { split; [apply Z.div_str_pos; lia|]. apply Z.div_lt_upper_bound; [lia|].
      replace (Z.of_nat (S fuel) + 1) with (Z.of_nat fuel + 1 + 1) in Hn by lia. rewrite Z.pow_add_r in Hn by lia. lia. }
    set (k := ndigits_loop fuel (n / 10)) in *. split; [lia|]. pose proof (Z.div_mod n 10). pose proof (Z.mod_pos_bound n 10).
    replace (1 + k - 1) with (k - 1 + 1) by lia. replace (1 + k) with (k + 1) by lia. rewrite !Z.pow_add_r by lia. lia.
Qed.

Lemma ndigits_spec n : 0 < n -> 1 <= ndigits n /\ 10 ^ (ndigits n - 1) <= n < 10 ^ ndigits n.
Proof.
  intros Hn. apply ndigits_loop_spec. pose proof (Z.log2_spec n Hn). pose proof (Z.log2_nonneg n).
  rewrite Z2Nat.id by done. replace (Z.log2 n + 1) with (Z.succ (Z.log2 n)) by lia. lia.
Qed.

(** The scale of [dec_exp]. *)
Lemma scale_facts : 0 < 2 ^ 1074 /\ 0 < 10 ^ 400 /\ 2 ^ 1074 < 10 ^ 324 /\ 2 ^ 1024 < 10 ^ 309.
Proof. vm_compute. done. Qed.

Lemma dec_exp_spec A : 0 < A < 2 ^ 1024 * 2 ^ 1074 ->
  let X := dec_exp A in
  -324 <= X <= 308 /\ 2 ^ 1074 * 10 ^ (X + 400) <= A * 10 ^ 400 < 2 ^ 1074 * 10 ^ (X + 401).
Proof.
  intros HA X. assert (X = ndigits (A * 10 ^ 400 / 2 ^ 1074) - 401) as EX by done. clearbody X. destruct scale_facts as (HB & HS & HB' & H1024).
  assert (10 ^ 400 = 10 ^ 324 * 10 ^ 76 /\ 0 < 10 ^ 76 /\ 0 < 10 ^ 324 /\ 10 ^ (309 + 400) = 10 ^ 309 * (10 ^ 324 * 10 ^ 76)) as (E400 & H76 & H324 & E709).
  { split_and!; [rewrite <- Z.pow_add_r by done; done|by apply Z.pow_pos_nonneg|by apply Z.pow_pos_nonneg|rewrite <- Z.pow_add_r by done; by rewrite <- Z.pow_add_r]. }
  rewrite E400 in *. clear HS E400. pose proof (fun Y => Z.pow_le_mono_r 10 Y 76 eq_refl) as M76. pose proof (fun Y => Z.pow_le_mono_r 10 (309 + 400) Y eq_refl) as M709. rewrite E709 in M709. clear E709.
  revert HA EX HB HB' H1024 H76 H324 M76 M709. generalize (2 ^ 1074) (2 ^ 1024) (10 ^ 324) (10 ^ 76) (10 ^ 309). intros B M P Q R HA EX HB HB' HM H76 H324 M76 M709.
  assert (0 < A * (P * Q) / B) as Ht.
  { apply Z.div_str_pos. assert (1 <= A * Q) by nia. replace (A * (P * Q)) with (P * (A * Q)) by ring. nia. }
  destruct (ndigits_spec _ Ht) as (Hk & H1 & H2).
  set (t := A * (P * Q) / B) in *. replace (ndigits t - 1) with (X + 400) in H1 by lia.
  replace (ndigits t) with (X + 401) in H2 by lia.
  assert (B * 10 ^ (X + 400) <= A * (P * Q) < B * 10 ^ (X + 401)) as Hb.
  { pose proof (Z.div_mod (A * (P * Q)) B). pose proof (Z.mod_pos_bound (A * (P * Q)) B). unfold t in *. nia. }
  split; [|exact Hb]. clear EX. clearbody t. split.
  - destruct (Z_le_gt_dec (-324) X); [done|exfalso]. pose proof (M76 (X + 401) ltac:(lia)) as Hp. revert Hp Hb. generalize (10 ^ (X + 401)). intros y Hp [_ Hb].
    assert (1 * (P * Q) <= A * (P * Q)) by (apply Z.mul_le_mono_nonneg_r; nia). assert (B * y <= B * Q) by (apply Z.mul_le_mono_nonneg_l; lia).
    assert (B * Q < P * Q) by (apply Z.mul_lt_mono_pos_r; lia). lia.
  - destruct (Z_le_gt_dec X 308); [done|exfalso]. pose proof (M709 (X + 400) ltac:(lia)) as Hp. assert (0 < P * Q) as HS by nia. revert Hp Hb HS. generalize (10 ^ (X + 400)) (P * Q). intros y S Hp [Hb _] HS.
    assert (B * (R * S) <= B * y) by (apply Z.mul_le_mono_nonneg_l; lia). assert (A * S < M * B * S) by (apply Z.mul_lt_mono_pos_r; lia).
    assert (M * (B * S) <= R * (B * S)) by (apply Z.mul_le_mono_nonneg_r; nia). lia.
Qed.

(** [P] significant digits are as near as they can be. *)
Lemma dec_round_spec P A : 1 <= P <= 17 -> 0 < A < 2 ^ 1024 * 2 ^ 1074 ->
  let '(D, X) := dec_round P A in let X0 := dec_exp A in
  10 ^ (P - 1) <= D < 10 ^ P /\ X0 <= X <= X0 + 1 /\
  2 * Z.abs (D * 10 ^ (401 - P + X) * 2 ^ 1074 - A * 10 ^ 400) <= 2 ^ 1074 * 10 ^ (401 - P + X0).
Proof.
  intros HP HA. unfold dec_round. destruct (dec_exp_spec A HA) as (HX & Hlo & Hhi). cbn zeta. set (X := dec_exp A) in *. clearbody X.
  destruct scale_facts as (HB & _ & _). revert Hlo Hhi HB. clear HA. generalize (A * 10 ^ 400) (2 ^ 1074). intros N B Hlo Hhi HB.
  set (T := 10 ^ (401 - P + X)). assert (0 < T) as HT by (apply Z.pow_pos_nonneg; lia).
  assert (10 ^ (X + 400) = T * 10 ^ (P - 1)) as E1 by (unfold T; rewrite <- Z.pow_add_r by lia; f_equal; lia).
  assert (10 ^ (X + 401) = T * 10 ^ P) as E2 by (unfold T; rewrite <- Z.pow_add_r by lia; f_equal; lia).
  rewrite E1 in Hlo. rewrite E2 in Hhi.
  assert (10 ^ P = 10 * 10 ^ (P - 1)) as E3 by (rewrite <- Z.pow_succ_r by lia; f_equal; lia).
  assert (0 < 10 ^ (P - 1)) as H10 by (apply Z.pow_pos_nonneg; lia).
  assert (10 ^ (401 - P + (X + 1)) = T * 10) as E4 by (unfold T; rewrite Z.add_assoc, Z.pow_add_r by lia; done).
  pose proof (round_half_even_error N (B * T) ltac:(lia)) as Herr. set (D := round_half_even N (B * T)) in *. clearbody D.
  assert (10 ^ (P - 1) <= D <= 10 ^ P) as HD by nia.
  destruct (Z.eqb_spec D (10 ^ P)).
  - rewrite E4. split_and!; lia.
  - fold T. split_and!; lia.
Qed.

(** ** Text of digits *)
Definition all_digits (l : bytes) : Prop := Forall (fun c => is_digit c = true) l.

Lemma zlen_digits_of k n : zlen (digits_of k n) = Z.of_nat k.
Proof. revert n. induction k as [|k IH]; intros n; cbn [digits_of]; [done|]. rewrite zlen_app, IH, zlen_cons, zlen_nil. lia. Qed.

Lemma digits_of_digits k n : all_digits (digits_of k n).
Proof.
  revert n. induction k as [|k IH]; intros n; cbn [digits_of]; [constructor|]. apply Forall_app. split; [apply IH|].
  constructor; [|constructor]. pose proof (Z.mod_pos_bound n 10). unfold is_digit. apply andb_true_iff. rewrite !Z.leb_le. lia.
Qed.

Lemma dec_value_app l1 l2 : dec_value (l1 ++ l2) = dec_value l1 * 10 ^ zlen l2 + dec_value l2.
Proof.
  unfold dec_value. rewrite foldl_app. generalize (foldl (fun a c => 10 * a + (c - 48)) 0 l1). clear l1. intros a.
  induction l2 as [|c l2 IH] using rev_ind; [rewrite zlen_nil; cbn; lia|].
  rewrite !foldl_app, zlen_app, zlen_cons, zlen_nil, Z.pow_add_r by (zlen_facts; lia). cbn [foldl]. rewrite IH. change (10 ^ (1 + 0)) with 10. lia.
Qed.

Lemma dec_value_digits_of k : forall n, 0 <= n < 10 ^ Z.of_nat k -> dec_value (digits_of k n) = n.
Proof.
  induction k as [|k IH]; intros n Hn; cbn [digits_of].
  - change (10 ^ Z.of_nat 0) with 1 in Hn. cbn. lia.
  - rewrite Nat2Z.inj_succ, Z.pow_succ_r in Hn by lia. rewrite dec_value_app, IH.
    + change (zlen [48 + n mod 10]) with 1. change (10 ^ 1) with 10. unfold dec_value. cbn [foldl].
      pose proof (Z.div_mod n 10). lia.
    + split; [apply Z.div_pos; lia|apply Z.div_lt_upper_bound; lia].
Qed.

Lemma dec_value_zeros j : dec_value (replicate j 48) = 0.
Proof. induction j as [|j IH]; [done|]. rewrite replicate_S. change (48 :: ?l) with ([48] ++ l). rewrite dec_value_app, IH. done. Qed.

Lemma dec_value_lead j l : dec_value (replicate j 48 ++ l) = dec_value l.
Proof. by rewrite dec_value_app, dec_value_zeros. Qed.

Lemma strip_spec l : exists j, l = strip l ++ replicate j 48.
Proof.
  induction l as [|c l (j & IH)]; [by exists 0%nat|]. cbn [strip]. destruct (strip l) as [|c' l'] eqn:E.
  - destruct (Z.eqb_spec c 48) as [->|]; [exists (S j)|exists j]; rewrite IH at 1; done.
  - exists j. rewrite IH at 1. done.
Qed.

Lemma span_digits_app l r : all_digits l -> (forall c r', r = c :: r' -> is_digit c = false) -> span_digits (l ++ r) = (l, r).
Proof.
  intros Hl Hr. induction Hl as [|c l Hc _ IH]; cbn [app span_digits].
  - destruct r as [|c r]; [done|]. cbn [span_digits]. by rewrite (Hr c r eq_refl).
  - by rewrite Hc, IH.
Qed.

Lemma all_digits_app l1 l2 : all_digits (l1 ++ l2) <-> all_digits l1 /\ all_digits l2.
Proof. apply Forall_app. Qed.

(** *** Reading a formatted number *)
Definition sign_text (s : bool) : bytes := if s then [45] else [].
Definition exp_text (ex : option Z) : bytes := match ex with Some X => exponent X | None => [] end.

Lemma read_exponent_text X : -1000 < X < 1000 -> read_exponent (exponent X) = (X, zlen (exponent X)).
Proof.
  intros HX. unfold exponent, read_exponent. cbn [Z.eqb Pos.eqb orb].
  set (k := if Z.abs X <? 100 then 2%nat else 3%nat).
  assert (0 <= Z.abs X < 10 ^ Z.of_nat k) as Hk.
  { unfold k. destruct (Z.ltb_spec (Z.abs X) 100); [change (10 ^ Z.of_nat 2) with 100|change (10 ^ Z.of_nat 3) with 1000]; lia. }
  assert (digits_of k (Z.abs X) <> []) as Hne by (intros E%(f_equal zlen); rewrite zlen_digits_of, zlen_nil in E; unfold k in E; destruct (_ <? _); lia).
  rewrite <- (app_nil_r (digits_of k (Z.abs X))) at 1.
  destruct (Z.ltb_spec X 0); cbn [read_sign]; rewrite span_digits_app by (apply digits_of_digits || done);
    rewrite decide_False, dec_value_digits_of by done; f_equal; rewrite ?zlen_cons; lia.
Qed.

Lemma read_sign_digit c r : 48 <= c -> read_sign (c :: r) = (false, 0, c :: r).
Proof.
  intros Hc. destruct c as [|p|]; [lia| |lia]. do 6 (destruct p as [p|p|]; [| |try reflexivity; lia]); try reflexivity; lia.
Qed.

Lemma strtod_text neg ip fp ex : all_digits ip -> ip <> [] -> all_digits fp -> (forall X, ex = Some X -> -1000 < X < 1000) ->
  let t := sign_text neg ++ ip ++ fraction fp ++ exp_text ex in
  strtod t = (dec_to_double neg (dec_value (ip ++ fp)) (default 0 ex - zlen fp), zlen t).
Proof.
  intros Hip Hne Hfp Hex t. unfold strtod.
  assert (read_sign t = (neg, zlen (sign_text neg), ip ++ fraction fp ++ exp_text ex)) as ->.
  { unfold t. destruct neg; [done|]. cbn [sign_text app]. destruct ip as [|c ip]; [done|]. apply Forall_cons in Hip as [Hc _].
    unfold is_digit in Hc. apply andb_true_iff in Hc as [H1%Z.leb_le H2%Z.leb_le]. cbn [sign_text app].
    apply read_sign_digit. lia. }
  assert (forall c r', fraction fp ++ exp_text ex = c :: r' -> is_digit c = false) as Hh1.
  { intros c r' E. destruct fp as [|? ?]; [destruct ex|]; cbn in E; unfold exponent in *; simplify_eq; reflexivity. }
  assert (forall c r', exp_text ex = c :: r' -> is_digit c = false) as Hh2.
  { intros c r' E. destruct ex; cbn in E; unfold exponent in *; simplify_eq; reflexivity. }
  rewrite span_digits_app by done.
  assert (match fraction fp ++ exp_text ex with 46 :: s' => let '(fp, s') := span_digits s' in (fp, 1 + zlen fp, s') | _ => ([], 0, fraction fp ++ exp_text ex) end
     = (fp, zlen (fraction fp), exp_text ex)) as ->.
  { destruct fp as [|c fp]; [by destruct ex|]. cbn [fraction app]. change (c :: fp ++ exp_text ex) with ((c :: fp) ++ exp_text ex).
    rewrite span_digits_app by done. f_equal. f_equal. by rewrite (zlen_cons 46). }
  rewrite decide_False by (destruct ip; done).
  assert (read_exponent (exp_text ex) = (default 0 ex, zlen (exp_text ex))) as ->.
  { destruct ex as [X|]; [|done]. by apply read_exponent_text, Hex. }
  f_equal. unfold t. rewrite !zlen_app. lia.
Qed.

(** The value that text of digits stands for, computed as [strtod] does. *)
Lemma dec_to_double_value neg F p num den :
  0 < F -> 0 < den -> -400 <= ndigits F + p <= 400 -> -400 <= p -> F * 10 ^ (p + 400) * den = num * 10 ^ 400 ->
  dec_to_double neg F p = round_ratio neg num den.
Proof.
  intros HF Hd Hn Hp He. unfold dec_to_double. rewrite (proj2 (Z.eqb_neq _ _)), (proj2 (Z.ltb_ge _ _)), (proj2 (Z.ltb_ge _ _)) by lia.
  apply round_ratio_ext; [apply Z.pow_pos_nonneg; lia|done|].
  assert (10 ^ Z.max 0 p * 10 ^ 400 = 10 ^ (p + 400) * 10 ^ Z.max 0 (- p)) as E by (rewrite <- !Z.pow_add_r by lia; f_equal; lia).
  destruct scale_facts as (_ & HS & _). revert E He HS. generalize (10 ^ 400) (10 ^ Z.max 0 p) (10 ^ Z.max 0 (- p)) (10 ^ (p + 400)). intros S a b c E He HS.
  apply (Z.mul_reg_r _ _ S); [lia|]. replace (F * a * den * S) with (F * (a * S) * den) by lia. rewrite E.
  replace (F * (c * b) * den) with (F * c * den * b) by lia. rewrite He. lia.
Qed.

Lemma ndigits_bound F p lo hi : 0 < F -> 0 <= p -> 0 <= lo -> 0 <= hi -> 10 ^ lo <= F * 10 ^ p < 10 ^ hi -> lo < ndigits F + p <= hi.
Proof.
  intros HF Hp Hl Hh Hb. destruct (ndigits_spec F HF) as (H1 & H2 & H3). split.
  - apply (Z.pow_lt_mono_r_iff 10); [lia|lia|]. rewrite Z.pow_add_r by lia. assert (0 < 10 ^ p) by (apply Z.pow_pos_nonneg; lia). nia.
  - assert (ndigits F - 1 + p < hi); [|lia]. apply (Z.pow_lt_mono_r_iff 10); [lia|lia|]. rewrite Z.pow_add_r by lia. assert (0 < 10 ^ p) by (apply Z.pow_pos_nonneg; lia). nia.
Qed.

(** The parts of a number that [fmt_g] prints. *)
Lemma fmt_g_parts P D X : 1 <= P <= 17 -> 10 ^ (P - 1) <= D < 10 ^ P -> -330 <= X <= 310 ->
  exists ip fp ex j, fmt_g P D X = ip ++ fraction fp ++ exp_text ex /\ all_digits ip /\ ip <> [] /\ all_digits fp /\
    (forall Y, ex = Some Y -> Y = X) /\ 0 <= j <= P /\ D = dec_value (ip ++ fp) * 10 ^ j /\ default 0 ex - zlen fp = X + 1 - P + j /\
    zlen (fmt_g P D X) <= P + 6.
Proof.
  intros HP HD HX. unfold fmt_g. set (l := digits_of (Z.to_nat P) D).
  assert (zlen l = P) as Hlen by (unfold l; rewrite zlen_digits_of; lia).
  assert (all_digits l) as Hl by apply digits_of_digits.
  assert (dec_value l = D) as Hv.
  { apply dec_value_digits_of. rewrite Z2Nat.id by lia. pose proof (Z.pow_pos_nonneg 10 (P - 1)). lia. }
  assert (forall n, 0 < n <= P -> exists j : nat, let ip := ztake n l in let fp := strip (zdrop n l) in
     all_digits ip /\ ip <> [] /\ all_digits fp /\ zlen ip = n /\ zlen fp = P - n - Z.of_nat j /\ D = dec_value (ip ++ fp) * 10 ^ Z.of_nat j) as Hsplit.
  { intros n Hn. destruct (strip_spec (zdrop n l)) as [j Hj]. exists j. cbn zeta. pose proof Hl as Hl'. rewrite <- (ztake_zdrop n l), Hj in Hl'.
    rewrite !all_digits_app in Hl'. destruct Hl' as (Hi & Hf & _).
    assert (zlen (ztake n l) = n) as Hzi by zlia.
    assert (zlen (zdrop n l) = P - n) as Hzd by zlia. rewrite Hj in Hzd. rewrite zlen_app in Hzd. unfold zlen at 2 in Hzd. rewrite length_replicate in Hzd.
    split_and!; [done| |done|done|lia|].
    - intros E. rewrite E in Hzi. change (zlen []) with 0 in Hzi. lia.
    - rewrite <- Hv. rewrite <- (ztake_zdrop n l) at 1. rewrite Hj at 1. rewrite app_assoc, dec_value_app, dec_value_zeros.
      unfold zlen. rewrite length_replicate. lia. }
  assert (forall fp, zlen (fraction fp) <= 1 + zlen fp) as Hfr by (intros [|c fp]; cbn [fraction]; zlia).
  destruct ((X <? -4) || (P <=? X)) eqn:Hst.
  - destruct (Hsplit 1) as (j & H1 & H2 & H3 & H4 & H5 & H6); [lia|].
    exists (ztake 1 l), (strip (zdrop 1 l)), (Some X), (Z.of_nat j). zlen_facts. split_and!; try done; try lia.
    + congruence.
    + cbn [default]. unfold id. lia.
    + rewrite !zlen_app. specialize (Hfr (strip (zdrop 1 l))). unfold exponent. rewrite !zlen_cons, zlen_digits_of. destruct (_ <? 100); lia.
  - apply orb_false_iff in Hst as [Hs1%Z.ltb_ge Hs2%Z.leb_gt]. destruct (Z.ltb_spec X 0).
    + destruct (strip_spec l) as [j Hj]. pose proof Hl as Hl'. rewrite Hj in Hl'. apply all_digits_app in Hl' as [Hl' _].
      pose proof Hlen as Hlen'. rewrite Hj, zlen_app in Hlen'. unfold zlen at 2 in Hlen'. rewrite length_replicate in Hlen'.
      exists [48], (replicate (Z.to_nat (- X - 1)) 48 ++ strip l), None, (Z.of_nat j). zlen_facts.
      assert (zlen (replicate (Z.to_nat (- X - 1)) 48) = - X - 1) as Hz by (unfold zlen; rewrite length_replicate; lia).
      split_and!; try done; try lia.
      * by rewrite app_nil_r.
      * by repeat constructor.
      * apply all_digits_app. split; [|done]. by apply Forall_replicate.
      * rewrite <- Hv. rewrite Hj at 1. rewrite dec_value_app, dec_value_zeros. change ([48] ++ ?a ++ ?b) with (replicate (S (Z.to_nat (- X - 1))) 48 ++ b).
        rewrite dec_value_lead. unfold zlen. rewrite length_replicate. lia.
      * cbn [default]. rewrite zlen_app. lia.
      * rewrite zlen_app. specialize (Hfr (replicate (Z.to_nat (- X - 1)) 48 ++ strip l)). rewrite zlen_app in Hfr. change (zlen [48]) with 1. lia.
    + destruct (Hsplit (X + 1)) as (j & H1 & H2 & H3 & H4 & H5 & H6); [lia|].
      exists (ztake (X + 1) l), (strip (zdrop (X + 1) l)), None, (Z.of_nat j). zlen_facts. split_and!; try done; try lia.
      * by rewrite app_nil_r.
      * cbn [default]. lia.
      * rewrite zlen_app. specialize (Hfr (strip (zdrop (X + 1) l))). lia.
Qed.

Lemma strtod_fmt_g neg P D X : 1 <= P <= 17 -> 10 ^ (P - 1) <= D < 10 ^ P -> -330 <= X <= 310 ->
  strtod (sign_text neg ++ fmt_g P D X) =
    (round_ratio neg (D * 10 ^ (401 - P + X)) (10 ^ 400), zlen (sign_text neg ++ fmt_g P D X)).
Proof.
  intros HP HD HX. destruct (fmt_g_parts P D X HP HD HX) as (ip & fp & ex & j & -> & H1 & H2 & H3 & H4 & H5 & H6 & H7 & _).
  rewrite strtod_text by (done || (intros Y ->; specialize (H4 Y eq_refl); lia)). f_equal. rewrite H7.
  set (F := dec_value (ip ++ fp)) in *. clearbody F. assert (0 < 10 ^ (P - 1)) as H10 by (apply Z.pow_pos_nonneg; lia).
  assert (0 < 10 ^ j) as Hj by (apply Z.pow_pos_nonneg; lia). assert (0 < F) as HF by nia.
  assert (F * 10 ^ (X + 1 - P + j + 400) = D * 10 ^ (401 - P + X)) as He.
  { rewrite H6, <- Z.mul_assoc, <- Z.pow_add_r by lia. do 2 f_equal. lia. }
  pose proof (ndigits_bound F (X + 1 - P + j + 400) (X + 400) (X + 401)) as Hb.
  destruct scale_facts as (_ & HS & _). apply dec_to_double_value; [done|done| |lia|].
  - assert (X + 400 < ndigits F + (X + 1 - P + j + 400) <= X + 401); [|lia]. apply Hb; [lia|lia|lia|lia|]. rewrite He.
    replace (X + 400) with (P - 1 + (401 - P + X)) by lia. replace (X + 401) with (P + (401 - P + X)) by lia.
    rewrite (Z.pow_add_r 10 (P - 1)), (Z.pow_add_r 10 P) by lia. assert (0 < 10 ^ (401 - P + X)) as HT by (apply Z.pow_pos_nonneg; lia).
    split; [apply Z.mul_le_mono_nonneg_r; lia|apply (proj1 (Z.mul_lt_mono_pos_r _ _ _ HT)); lia].
  - rewrite He. done.
Qed.

Lemma canonical_value s m E : canonical (Fin s m E) -> 0 < m -> 0 < m * 2 ^ E < 2 ^ 1024 * 2 ^ 1074.
Proof.
  intros (Hm & HE & _) H0. assert (0 < 2 ^ E) by (apply Z.pow_pos_nonneg; lia). split; [lia|].
  assert (2 ^ E <= 2 ^ 2045) as HP by (apply Z.pow_le_mono_r; lia).
  rewrite <- Z.pow_add_r by lia. replace (1024 + 1074) with (53 + 2045) by lia. rewrite Z.pow_add_r by lia.
  assert (m * 2 ^ E < 2 ^ 53 * 2 ^ E) by (apply Zmult_lt_compat_r; lia).
  assert (2 ^ 53 * 2 ^ E <= 2 ^ 53 * 2 ^ 2045) by (apply Z.mul_le_mono_nonneg_l; lia). lia.
Qed.

Lemma fmt_digit_bounds P A : 1 <= P <= 17 -> 0 < A < 2 ^ 1024 * 2 ^ 1074 ->
  let '(D, X) := dec_round P A in 10 ^ (P - 1) <= D < 10 ^ P /\ -330 <= X <= 310.
Proof.
  intros HP HA. pose proof (dec_round_spec P A HP HA) as H. destruct (dec_exp_spec A HA) as [Hx _].
  destruct (dec_round P A) as [D X]. cbn zeta in H. lia.
Qed.

(** The text of a finite double is read to its end. *)
Lemma strtod_sprintf P s m E : 1 <= P <= 17 -> canonical (Fin s m E) ->
  let t := sprintf_g P (Fin s m E) in
  strtod t = (if m =? 0 then Fin s 0 0 else
              let '(D, X) := dec_round P (m * 2 ^ E) in round_ratio s (D * 10 ^ (401 - P + X)) (10 ^ 400), zlen t).
Proof.
  intros HP Hc t. unfold t, sprintf_g. change (if s then [45] else []) with (sign_text s). destruct (Z.eqb_spec m 0) as [->|Hm].
  - pose proof (strtod_text s [48] [] None) as H. cbn [fraction exp_text app] in H. cbn zeta in H. rewrite H; [done|by repeat constructor|done|constructor|done].
  - assert (0 < m) as Hm0 by (destruct Hc; lia). pose proof (fmt_digit_bounds P _ HP (canonical_value s m E Hc Hm0)) as Hb.
    destruct (dec_round P (m * 2 ^ E)) as [D X]. apply strtod_fmt_g; tauto.
Qed.

Lemma pow10_16 : 2 ^ 53 < 10 ^ 16.
Proof. vm_compute. done. Qed.

(** Seventeen significant digits identify a double. *)
Lemma round_17 s m E : canonical (Fin s m E) -> 0 < m ->
  let '(D, X) := dec_round 17 (m * 2 ^ E) in round_ratio s (D * 10 ^ (401 - 17 + X)) (10 ^ 400) = Fin s m E.
Proof.
  intros Hc Hm. pose proof (canonical_value s m E Hc Hm) as HA. pose proof (dec_round_spec 17 (m * 2 ^ E) ltac:(lia) HA) as H.
  destruct (dec_exp_spec _ HA) as (HX & Hlo & _). destruct (dec_round 17 (m * 2 ^ E)) as [D X]. cbn zeta in H. destruct H as (HD & HX' & Herr).
  set (X0 := dec_exp (m * 2 ^ E)) in *. clearbody X0. destruct scale_facts as (HB & HS & _).
  assert (0 < 10 ^ (401 - 17 + X)) as HT by (apply Z.pow_pos_nonneg; lia).
  assert (0 < 10 ^ (17 - 1)) as H16 by (vm_compute; done).
  assert (10 ^ (X0 + 400) = 10 ^ (401 - 17 + X0) * 10 ^ 16) as E1 by (rewrite <- Z.pow_add_r by lia; f_equal; lia). rewrite E1 in Hlo.
  pose proof pow10_16 as H53. assert (0 < 10 ^ (401 - 17 + X0)) as HT0 by (apply Z.pow_pos_nonneg; lia).
  assert (0 < 2 ^ E) as HE by (destruct Hc as (_ & ? & _); apply Z.pow_pos_nonneg; lia).
  assert (0 < D) as HD0 by lia. clear H16 HD E1 HX' HA.
  assert (m < 2 ^ 53) as Hm53 by apply Hc.
  apply round_ratio_near; [done|done|nia| |].
  - revert Hlo Herr H53 Hm53 HB HS HT HT0 HE. generalize (10 ^ 16) (2 ^ 53) (10 ^ 400) (2 ^ 1074) (10 ^ (401 - 17 + X)) (10 ^ (401 - 17 + X0)) (2 ^ E).
    intros K M S B T T0 e Hlo Herr HK HmM HB HS HT HT0 He. replace (D * T * B - m * e * S) with (D * T * B - m * e * S) by lia.
    assert (0 < e * S) as HW by (by apply Z.mul_pos_pos). assert (B * T0 < e * S); [|lia].
    apply (Z.mul_lt_mono_pos_r K); [lia|]. assert (m * (e * S) < K * (e * S)) by (apply Zmult_lt_compat_r; lia). lia.
  - intros Hm52. subst m. assert (0 < 2 ^ 52) as HM by done. revert Hlo Herr H53 HB HS HT HT0 HE HM. change (2 ^ 53) with (2 * 2 ^ 52).
    generalize (10 ^ 16) (2 ^ 52) (10 ^ 400) (2 ^ 1074) (10 ^ (401 - 17 + X)) (10 ^ (401 - 17 + X0)) (2 ^ E).
    intros K M S B T T0 e Hlo Herr HK HB HS HT HT0 He HM. assert (0 < e * S) as HW by (by apply Z.mul_pos_pos).
    assert (2 * (B * T0) < e * S); [|lia].
    assert (2 * M * (B * T0) <= K * (B * T0)) by (apply Z.mul_le_mono_nonneg_r; [apply Z.mul_nonneg_nonneg; lia|lia]).
    apply (Z.mul_lt_mono_pos_r M); [lia|]. assert (0 < B * T0) by (by apply Z.mul_pos_pos).
    assert (2 * M * (B * T0) < K * (B * T0)) by (by apply Zmult_lt_compat_r). lia.
Qed.

Theorem strtod_sprintf_17 d : canonical d -> not_finite d = false -> strtod (sprintf_g 17 d) = (d, zlen (sprintf_g 17 d)).
Proof.
  intros Hc Hf. destruct d as [s m E| |]; [|done|done]. rewrite (strtod_sprintf 17 s m E) by (lia || done). f_equal.
  destruct (Z.eqb_spec m 0) as [->|Hm].
  - destruct Hc as (_ & _ & [?| ->]); [lia|done].
  - pose proof (round_17 s m E Hc ltac:(destruct Hc; lia)) as H. by destruct (dec_round 17 (m * 2 ^ E)).
Qed.

(** ** Doubles are told apart by their values *)
Lemma round_ratio_canonical s num den : 0 <= num -> 0 < den -> canonical (round_ratio s num den).
Proof.
  intros Hn Hd. unfold round_ratio. assert (0 <= num * 2 ^ 1074) as HN by lia. set (N := num * 2 ^ 1074) in *. clearbody N.
  set (E := Z.max 0 (Z.log2 (N / den) - 52)). assert (0 <= E) as HE by lia. assert (0 < 2 ^ E) as HP by (apply Z.pow_pos_nonneg; lia).
  assert (0 <= N / den) as Hq by (apply Z.div_pos; lia).
  assert (N / den < 2 ^ 53 * 2 ^ E /\ (0 < E -> 2 ^ 52 * 2 ^ E <= N / den)) as [Hu Hl].
  { destruct (decide (N / den = 0)) as [Hz|Hz].
    { assert (E = 0) as -> by (unfold E; rewrite Hz; reflexivity). rewrite Hz. done. }
    destruct (Z.log2_spec (N / den)) as [H1 H2]; [lia|]. rewrite <- !Z.pow_add_r by lia. split.
    - eapply Z.lt_le_trans; [exact H2|]. apply Z.pow_le_mono_r; lia.
    - intros HE0. etrans; [|exact H1]. apply Z.pow_le_mono_r; lia. }
  set (m := round_half_even N (den * 2 ^ E)). clearbody E.
  assert (0 <= m <= 2 ^ 53 /\ (0 < E -> 2 ^ 52 <= m)) as [Hm Hm52].
  { assert (0 <= N / (den * 2 ^ E) < 2 ^ 53 /\ (0 < E -> 2 ^ 52 <= N / (den * 2 ^ E))) as [H1 H2].
    { rewrite <- Z.div_div by lia. split_and!; [apply Z.div_pos; lia|apply Z.div_lt_upper_bound; lia|]. intros HE0. specialize (Hl HE0). apply Z.div_le_lower_bound; lia. }
    unfold m, round_half_even. destruct (_ <? _); [lia|]. destruct (_ <? _); [lia|]. destruct (Z.even _); lia. }
  clearbody m. destruct (Z.eqb_spec m (2 ^ 53)) as [->|Hne].
  - destruct (Z.ltb_spec 2045 (E + 1)); [done|]. cbn [canonical]. lia.
  - destruct (Z.ltb_spec 2045 E); [done|]. cbn [canonical]. lia.
Qed.

Lemma canonical_inj s m E s' m' E' : canonical (Fin s m E) -> canonical (Fin s' m' E') -> 0 < m ->
  dval s m E = dval s' m' E' -> Fin s m E = Fin s' m' E'.
Proof.
  intros (Hm & HE & Hc) (Hm' & HE' & Hc') H0 Hv. unfold dval in Hv.
  assert (0 < 2 ^ E) as HP by (apply Z.pow_pos_nonneg; lia). assert (0 < 2 ^ E') as HP' by (apply Z.pow_pos_nonneg; lia).
  assert (0 < m * 2 ^ E) by (by apply Z.mul_pos_pos). assert (0 <= m' * 2 ^ E') by (apply Z.mul_nonneg_nonneg; lia).
  assert (s = s' /\ m * 2 ^ E = m' * 2 ^ E') as [<- Hv'] by (destruct s, s'; unfold id in Hv; lia).
  assert (forall m E m' E', m < 2 ^ 53 -> (2 ^ 52 <= m' \/ E' = 0) -> 0 <= E -> 0 < m -> m * 2 ^ E = m' * 2 ^ E' -> E' <= E) as Hle.
  { clear. intros m E m' E' Hm Hc HE H0 Hv. destruct (Z_le_gt_dec E' E); [done|exfalso]. destruct Hc as [Hc| ->]; [|lia].
    replace E' with (E' - E + E) in Hv by lia. rewrite Z.pow_add_r, Z.mul_assoc in Hv by lia.
    apply Z.mul_reg_r in Hv; [|pose proof (Z.pow_pos_nonneg 2 E); lia].
    assert (2 ^ 1 <= 2 ^ (E' - E)) by (apply Z.pow_le_mono_r; lia). nia. }
  assert (E = E') as <-.
  { assert (0 < m') by nia. apply Z.le_antisymm; [apply (Hle m' E' m E)|apply (Hle m E m' E')]; try lia; tauto. }
  apply Z.mul_reg_r in Hv'; [by subst|lia].
Qed.

(** *** The text of [print_number] *)
Definition is_num_char (c : Z) : bool := is_digit c || (c =? 43) || (c =? 45) || (c =? 101) || (c =? 69) || (c =? 46).

(** A number text begins with a digit or a minus sign, and holds nothing but
    the characters of numbers. *)
Definition num_text (t : bytes) : Prop :=
  Forall (fun c => is_num_char c = true) t /\ exists c t', t = c :: t' /\ (c = 45 \/ is_digit c = true).

Lemma num_chars_digits l : all_digits l -> Forall (fun c => is_num_char c = true) l.
Proof. intros Hl. eapply Forall_impl; [exact Hl|]. intros c Hc. unfold is_num_char. by rewrite Hc. Qed.

Lemma sprintf_g_text P s m E : 1 <= P <= 17 -> canonical (Fin s m E) ->
  num_text (sprintf_g P (Fin s m E)) /\ zlen (sprintf_g P (Fin s m E)) <= P + 7.
Proof.
  intros HP Hc. assert (exists ip fp ex, sprintf_g P (Fin s m E) = sign_text s ++ ip ++ fraction fp ++ exp_text ex /\
    all_digits ip /\ ip <> [] /\ all_digits fp /\ zlen (sprintf_g P (Fin s m E)) <= P + 7) as (ip & fp & ex & E1 & H1 & H2 & H3 & H4).
  { unfold sprintf_g. change (if s then [45] else []) with (sign_text s). assert (zlen (sign_text s) <= 1) by (destruct s; done).
    destruct (Z.eqb_spec m 0) as [->|Hm].
    - exists [48], [], None. split_and!; [done|by repeat constructor|done|constructor|]. rewrite zlen_app. change (zlen [48]) with 1. lia.
    - assert (0 < m) as Hm0 by (destruct Hc; lia). pose proof (fmt_digit_bounds P _ HP (canonical_value s m E Hc Hm0)) as Hb.
      destruct (dec_round P (m * 2 ^ E)) as [D X]. destruct Hb as [HD HX].
      destruct (fmt_g_parts P D X HP HD HX) as (ip & fp & ex & j & -> & H1 & H2 & H3 & _ & _ & _ & _ & H8).
      exists ip, fp, ex. split_and!; try done. rewrite zlen_app. lia. }
  split; [|done]. rewrite E1. split.
  - rewrite !Forall_app. split_and!; [destruct s; by repeat constructor|by apply num_chars_digits| |].
    + destruct fp as [|c fp]; [constructor|]. constructor; [done|]. by apply num_chars_digits.
    + destruct ex as [X|]; [|constructor]. constructor; [done|]. constructor; [by destruct (X <? 0)|]. apply num_chars_digits, digits_of_digits.
  - destruct s; [eexists _, _; split; [done|by left]|]. destruct ip as [|c ip]; [done|]. eexists _, _. split; [done|right]. by apply Forall_cons in H1 as [? _].
Qed.

(** The text the code chooses: 15 digits when they read back as the number,
    17 otherwise. *)
Definition number_text (d : double) : bytes :=
  match sscanf_lg (sprintf_g 15 d) with
  | Some x => if deq x d then sprintf_g 15 d else sprintf_g 17 d
  | None => sprintf_g 17 d
  end.

Theorem number_text_reads_back d : canonical d -> not_finite d = false ->
  strtod (number_text d) = (d, zlen (number_text d)) /\ num_text (number_text d) /\ zlen (number_text d) <= 24.
Proof.
  intros Hc Hf. destruct d as [s m E| |]; [|done|done]. pose proof (strtod_sprintf_17 _ Hc Hf) as H17.
  pose proof (sprintf_g_text 17 s m E ltac:(lia) Hc) as [Ht17 Hl17].
  assert (strtod (sprintf_g 17 (Fin s m E)) = (Fin s m E, zlen (sprintf_g 17 (Fin s m E))) /\
    num_text (sprintf_g 17 (Fin s m E)) /\ zlen (sprintf_g 17 (Fin s m E)) <= 24) as Hall by (split_and!; (done || lia)).
  unfold number_text, sscanf_lg. rewrite (strtod_sprintf 15 s m E) by (lia || done).
  pose proof (sprintf_g_text 15 s m E ltac:(lia) Hc) as [Ht15 Hl15].
  destruct (zlen (sprintf_g 15 (Fin s m E)) =? 0); [exact Hall|]. set (x := if m =? 0 then _ else _). destruct (deq x _) eqn:Hd; [|exact Hall].
  split_and!; [|done|lia]. rewrite (strtod_sprintf 15 s m E) by (lia || done). fold x. f_equal. unfold x in *. clear x.
  destruct (Z.eqb_spec m 0) as [->|Hm].
  - destruct Hc as (_ & _ & [?| ->]); [lia|done].
  - assert (0 < m) as Hm0 by (destruct Hc; lia). pose proof (fmt_digit_bounds 15 _ ltac:(lia) (canonical_value s m E Hc Hm0)) as Hb.
    destruct (dec_round 15 (m * 2 ^ E)) as [D X]. destruct scale_facts as (_ & HS & _).
    assert (0 <= D * 10 ^ (401 - 15 + X)) as HD.
    { apply Z.mul_nonneg_nonneg; [|apply Z.pow_nonneg; lia]. destruct Hb as [[Hb _] _]. pose proof (Z.pow_nonneg 10 (15 - 1)). lia. }
    pose proof (round_ratio_canonical s _ _ HD HS) as Hc'. destruct (round_ratio s _ _) as [s' m' E'| |]; [|done|done].
    cbn [deq] in Hd. apply Z.eqb_eq in Hd. symmetry. by apply canonical_inj.
Qed.

(** ** What [strtod] returns on any text *)
Lemma read_sign_length s neg k s' : read_sign s = (neg, k, s') -> 0 <= k /\ zlen s = k + zlen s'.
Proof.
  destruct s as [|c s]; cbn [read_sign]; [intros [= <- <- <-]; zlia|]. intros H.
  assert ((k = 1 /\ s' = s) \/ (k = 0 /\ s' = c :: s)) as [[-> ->]|[-> ->]]; [|zlia..].
  destruct c as [|p|]; [naive_solver| |naive_solver]. do 6 (destruct p as [p|p|]; try naive_solver).
Qed.

Lemma span_digits_split s a b : span_digits s = (a, b) -> s = a ++ b /\ all_digits a.
Proof.
  revert a b. induction s as [|c s IH]; intros a b; cbn [span_digits]; [intros [= <- <-]; by split; [|constructor]|].
  destruct (is_digit c) eqn:Hc; [|intros [= <- <-]; by split; [|constructor]]. destruct (span_digits s) as [a' b'].
  destruct (IH a' b' eq_refl) as [-> Ha]. intros [= <- <-]. split; [done|by constructor].
Qed.

Lemma read_exponent_bounds s e j : read_exponent s = (e, j) -> 0 <= j <= zlen s.
Proof.
  destruct s as [|c s]; cbn [read_exponent]; [intros [= <- <-]; zlia|]. destruct (_ || _); [|intros [= <- <-]; zlia].
  destruct (read_sign s) as [[neg k] s'] eqn:E1. destruct (span_digits s') as [ds r] eqn:E2.
  apply read_sign_length in E1 as [? ?]. apply span_digits_split in E2 as [-> _]. case_decide; intros [= <- <-]; zlia.
Qed.

Lemma dec_value_nonneg l : all_digits l -> 0 <= dec_value l.
Proof.
  intros Hl. induction l as [|c l IH] using rev_ind; [done|]. apply all_digits_app in Hl as [Hl Hc]. rewrite dec_value_app.
  apply Forall_cons in Hc as [Hc _]. unfold is_digit in Hc. apply andb_true_iff in Hc as [Hc%Z.leb_le _]. specialize (IH Hl).
  change (zlen [c]) with 1. change (10 ^ 1) with 10. change (dec_value [c]) with (10 * 0 + (c - 48)). lia.
Qed.

Lemma dec_to_double_canonical neg F p : 0 <= F -> canonical (dec_to_double neg F p) /\ dec_to_double neg F p <> NaN.
Proof.
  intros HF. unfold dec_to_double. assert (canonical (Fin neg 0 0)) as H0 by (cbn; lia).
  destruct (F =? 0); [done|]. destruct (_ <? _); [done|]. destruct (_ <? _); [done|].
  split; [apply round_ratio_canonical; [apply Z.mul_nonneg_nonneg; [done|apply Z.pow_nonneg; lia]|apply Z.pow_pos_nonneg; lia]|].
  unfold round_ratio. cbn zeta. destruct (_ =? _); destruct (_ <? _); done.
Qed.

Lemma strtod_bounds s d n : strtod s = (d, n) -> 0 <= n <= zlen s /\ canonical d /\ d <> NaN.
Proof.
  unfold strtod. destruct (read_sign s) as [[neg k] s1] eqn:E1. apply read_sign_length in E1 as [Hk Hs].
  destruct (span_digits s1) as [ip s2] eqn:E2. apply span_digits_split in E2 as [-> Hip].
  set (x := match s2 with 46 :: s' => _ | _ => _ end).
  assert (exists fp k' s3, x = (fp, k', s3) /\ all_digits fp /\ 0 <= k' /\ zlen s2 = k' + zlen s3) as (fp & k' & s3 & -> & Hfp & Hk' & Hs2).
  { assert (x = ([], 0, s2) \/ exists s', s2 = 46 :: s') as [Hx|[s' ->]].
    - unfold x. destruct s2 as [|c s2]; [by left|]. destruct c as [|p|]; try (by left). do 6 (destruct p as [p|p|]; try (by left)). right. by eexists.
    - exists [], 0, s2. split_and!; [done|constructor|lia|zlia].
    - unfold x. destruct (span_digits s') as [a b] eqn:E3. apply span_digits_split in E3 as [-> Ha].
      exists a, (1 + zlen a), b. split_and!; [done|done|zlia|zlia]. }
  case_decide; [intros [= <- <-]; split_and!; [zlia|zlia|cbn; lia..|done]|].
  destruct (read_exponent s3) as [e j] eqn:E4. apply read_exponent_bounds in E4. intros [= <- <-]. zlen_facts. rewrite zlen_app in Hs.
  split; [lia|]. apply dec_to_double_canonical, dec_value_nonneg, all_digits_app. done.
Qed.
