(* ===== verification/Sa.v ===== *)
(** * Socket addresses

    [net/sa.c]: the union [sockaddr_all] as its 28 bytes, with the layout of
    Linux: the family in the order of the host, port and address in network
    order.  [inet_pton] and [inet_ntop] are modelled for IPv4; for IPv6 they
    are parameters. *)

From stdpp Require Import base tactics numbers list option strings.
From Stdlib Require Import Lia.
From S2P Require Import Prelude Double.

Definition AF_INET : Z := 2.
Definition AF_INET6 : Z := 10.
Definition INET_ADDRSTRLEN : Z := 16.
Definition INET6_ADDRSTRLEN : Z := 46.
Definition INADDR_ANY : Z := 0.
Definition INADDR_LOOPBACK : Z := 2130706433.

(** The fields of the union: [sa_family], and port and address of [v4] and
    [v6]. *)
Definition family_at : Z := 0.
Definition port_at : Z := 2.
Definition v4_addr_at : Z := 4.
Definition v6_addr_at : Z := 8.
Definition sizeof_sockaddr_all : Z := 28.

Definition zero_addr : bytes := zeros sizeof_sockaddr_all.
Definition get_family (u : bytes) : outcome Z := let! d := mem_read u family_at 2 in Ret (le_val d).
Definition set_family (u : bytes) (f : Z) : outcome bytes := mem_write u family_at (le_bytes 2 f).
(** [htons] and [ntohs] at the port. *)
Definition set_port (u : bytes) (port : Z) : outcome bytes := mem_write u port_at (be_bytes 2 port).
Definition get_port (u : bytes) : outcome Z := let! d := mem_read u port_at 2 in Ret (be_val d).

Definition sa_create (port : Z) (loopback_only : bool) : outcome bytes :=
  let! u := set_family zero_addr AF_INET in
  let addr := if loopback_only then INADDR_LOOPBACK else INADDR_ANY in
  let! u := mem_write u v4_addr_at (be_bytes 4 addr) in
  set_port u port.
Definition in6addr_any : bytes := zeros 16.
Definition in6addr_loopback : bytes := zeros 15 ++ [1].
Definition sa_createV6 (port : Z) (loopback_only : bool) : outcome bytes :=
  let! u := set_family zero_addr AF_INET6 in
  let! u := mem_write u v6_addr_at (if loopback_only then in6addr_loopback else in6addr_any) in
  set_port u port.

(** ** Addresses as text *)

(** [inet_pton] of an IPv4 address: the octets that are complete, and the one
    being read. *)
Definition pton_step (st : bytes * option Z) (c : Z) : option (bytes * option Z) :=
  let '(done, cur) := st in
  if is_digit c then
    match cur with
    | None => Some (done, Some (c - 48))
    | Some n => if n =? 0 then None else if 255 <? n * 10 + (c - 48) then None else Some (done, Some (n * 10 + (c - 48)))
    end
  else if c =? 46 then
    match cur with
    | Some n => if bool_decide (length done = 3%nat) then None else Some (done ++ [n], None)
    | None => None
    end
  else None.
Fixpoint pton_loop (st : bytes * option Z) (s : bytes) : option (bytes * option Z) :=
  match s with [] => Some st | c :: s => match pton_step st c with Some st => pton_loop st s | None => None end end.
Definition inet_pton4 (s : bytes) : option bytes :=
  match pton_loop ([], None) s with
  | Some (done, Some n) => if bool_decide (length done = 3%nat) then Some (done ++ [n]) else None
  | _ => None
  end.

(** ["%u"]. *)
Definition dec (n : Z) : bytes := digits_of (Z.to_nat (ndigits n)) n.
Definition dotted (a : bytes) : bytes :=
  match a with [a; b; c; d] => dec a ++ 46 :: dec b ++ 46 :: dec c ++ 46 :: dec d | _ => [] end.

Section text.
(** The C library on IPv6 addresses. *)
Context (inet_pton6 : bytes -> option bytes) (inet_ntop6 : bytes -> bytes).

(** Whether the text was an address: the code only reports that it was not. *)
Definition sa_fromip (ip : bytes) (port : Z) : outcome bytes :=
  let! u := set_family zero_addr AF_INET in
  let! ip := c_str ip in
  let! u := match inet_pton4 ip with Some a => mem_write u v4_addr_at a | None => Ret u end in
  set_port u port.
Definition sa_fromipV6 (ip : bytes) (port : Z) : outcome bytes :=
  let! u := set_family zero_addr AF_INET6 in
  let! ip := c_str ip in
  let! u := match inet_pton6 ip with Some a => mem_write u v6_addr_at a | None => Ret u end in
  set_port u port.

(** [inet_ntop]: the text with its terminator, when it fits. *)
Definition put_text (buf : bytes) (t : bytes) (size : Z) : outcome bytes :=
  if size <? zlen t + 1 then Ret buf else mem_write buf 0 (t ++ [0]).
Definition sa_toip (u buf : bytes) (size : Z) : outcome bytes :=
  c_assert (INET6_ADDRSTRLEN <=? size) ;;
  let! f := get_family u in
  if f =? AF_INET then let! a := mem_read u v4_addr_at 4 in put_text buf (dotted a) INET_ADDRSTRLEN
  else if f =? AF_INET6 then let! a := mem_read u v6_addr_at 16 in put_text buf (inet_ntop6 a) INET6_ADDRSTRLEN
  else Ret buf.

(** [snprintf] of [t] into [size] bytes at [at_]. *)
Definition snprintf (buf : bytes) (at_ size : Z) (t : bytes) : outcome bytes :=
  if size =? 0 then Ret buf else mem_write buf at_ (ztake (size - 1) t ++ [0]).
Definition sa_toipport (u buf : bytes) (size : Z) : outcome bytes :=
  c_assert (INET6_ADDRSTRLEN <=? size) ;;
  let! buf := sa_toip u buf size in
  let! end_ := strlen buf in
  let! port := get_port u in
  c_assert (end_ <? size) ;;
  snprintf buf end_ (size - end_) (58 :: dec port).
End text.

Definition sa_toport (u : bytes) : outcome Z := get_port u.
Definition sa_iplong (u : bytes) : outcome Z :=
  let! f := get_family u in
  c_assert (f =? AF_INET) ;;
  let! d := mem_read u v4_addr_at 4 in Ret (be_val d).
Definition sa_family (u : bytes) : outcome Z := get_family u.

(** [getaddrinfo] answers a status and the addresses, the family of each and
    the bytes of its [sockaddr_in]. *)
Definition sa_resolve (status : Z) (res : list (Z * bytes)) (u : bytes) : outcome (bool * bytes) :=
  if negb (status =? 0) then Ret (false, u) else
  let! r := deref (head res) in
  let! u := set_family u r.1 in
  let! a := mem_read r.2 v4_addr_at 4 in
  let! u := mem_write u v4_addr_at a in
  Ret (true, u).

(** ** Octets *)
Definition octet (n : Z) : Prop := 0 <= n < 256.
Definition feeds (n : Z) : bool :=
  match fold_left (fun st c => match st with Some st => pton_step st c | None => None end) (dec n) (Some ([], None)) with
  | Some ([], Some m) => m =? n
  | _ => false
  end && (zlen (dec n) <=? 3) && forallb is_digit (dec n) && negb (zlen (dec n) =? 0).
Lemma feeds_all : forallb feeds (seqZ 0 256) = true.
Proof. vm_compute. reflexivity. Qed.
Lemma octet_feeds n : octet n -> feeds n = true.
Proof. intros Hn. pose proof feeds_all as H. rewrite forallb_forall in H. apply H. apply list_elem_of_In, elem_of_seqZ. unfold octet in Hn. lia. Qed.

Definition lift (acc : bytes) (st : option (bytes * option Z)) : option (bytes * option Z) := match st with Some (d, c) => Some (acc ++ d, c) | None => None end.
Lemma pton_digits acc s : forallb is_digit s = true -> forall d cur,
  pton_loop (acc ++ d, cur) s = lift acc (pton_loop (d, cur) s).
Proof.
  induction s as [|c s IH]; intros Hs d cur; [done|]. cbn in Hs. apply andb_true_iff in Hs as [Hc Hs]. cbn [pton_loop pton_step]. rewrite Hc.
  destruct cur as [n|]; [|by apply IH]. destruct (n =? 0); [done|]. destruct (255 <? _); [done|]. by apply IH.
Qed.
Lemma pton_loop_app st s t : pton_loop st (s ++ t) = match pton_loop st s with Some st => pton_loop st t | None => None end.
Proof. revert st. induction s as [|c s IH]; intros st; [done|]. cbn. destruct (pton_step st c); [apply IH|done]. Qed.
Lemma pton_fold st s : fold_left (fun st c => match st with Some st => pton_step st c | None => None end) s (Some st) = pton_loop st s.
Proof.
  revert st. induction s as [|c s IH]; intros st; [done|]. cbn. destruct (pton_step st c); [apply IH|]. clear. by induction s.
Qed.

Lemma octet_ok n : octet n -> (forall acc, pton_loop (acc, None) (dec n) = Some (acc, Some n)) /\ zlen (dec n) <= 3 /\ Forall (fun c => is_digit c = true) (dec n).
Proof.
  intros Hn%octet_feeds. unfold feeds in Hn. rewrite !andb_true_iff in Hn. destruct Hn as [[[H1 H2%Z.leb_le] H3] _]. split_and!; [|done|].
  - intros acc. rewrite <- (app_nil_r acc) at 1. rewrite pton_digits by done. rewrite pton_fold in H1. destruct (pton_loop ([], None) (dec n)) as [[[|? ?] [m|]]|]; try done.
    apply Z.eqb_eq in H1 as ->. cbn. by rewrite app_nil_r.
  - rewrite forallb_forall in H3. apply Forall_forall. intros c Hc. apply H3. by apply list_elem_of_In.
Qed.

Lemma pton_octet acc n s : octet n -> length acc <> 3%nat -> pton_loop (acc, None) (dec n ++ 46 :: s) = pton_loop (acc ++ [n], None) s.
Proof. intros [Hn _]%octet_ok Hacc. rewrite pton_loop_app, Hn. cbn [pton_loop]. unfold pton_step. cbn [is_digit]. change (is_digit 46) with false. cbn [Z.eqb Pos.eqb]. by rewrite bool_decide_false. Qed.

(** The dotted form is read as what was written. *)
Lemma inet_pton4_dotted a b c d : octet a -> octet b -> octet c -> octet d -> inet_pton4 (dotted [a; b; c; d]) = Some [a; b; c; d].
Proof.
  intros Ha Hb Hc [Hd _]%octet_ok. unfold inet_pton4, dotted. rewrite !pton_octet by done. cbn [app]. by rewrite Hd.
Qed.

Lemma dec_ok n : 0 <= n < 65536 -> all_digits (dec n) /\ zlen (dec n) <= 5.
Proof.
  intros Hn. unfold dec. split; [apply digits_of_digits|]. rewrite zlen_digits_of. destruct (Z.eq_dec n 0) as [->|Hn0]; [vm_compute; discriminate|].
  destruct (ndigits_spec n) as (H1 & H2 & _); [lia|]. assert (ndigits n - 1 < 5); [|lia]. apply (Z.pow_lt_mono_r_iff 10); [lia|lia|]. lia.
Qed.
Lemma digits_no_nul l : all_digits l -> no_nul l.
Proof. intros Hl. apply no_nul_Forall. eapply Forall_impl; [exact Hl|]. intros c Hc ->. done. Qed.
Lemma dotted_ok a b c d : octet a -> octet b -> octet c -> octet d -> no_nul (dotted [a; b; c; d]) /\ zlen (dotted [a; b; c; d]) <= 15.
Proof.
  intros (_ & La & Da)%octet_ok (_ & Lb & Db)%octet_ok (_ & Lc & Dc)%octet_ok (_ & Ld & Dd)%octet_ok. unfold dotted. split; [|zlia].
  repeat (apply no_nul_app; split; [by apply digits_no_nul|]; apply no_nul_cons; split; [done|]). by apply digits_no_nul.
Qed.

(** ** The union *)

(** An IPv4 address in memory. *)
Definition v4_image (a : bytes) (port : Z) : bytes := le_bytes 2 AF_INET ++ be_bytes 2 port ++ a ++ zeros 20.
Lemma two_bytes port : exists p q, be_bytes 2 port = [p; q].
Proof. pose proof (zlen_be_bytes 2 port ltac:(lia)) as Hl. destruct (be_bytes 2 port) as [|p [|q [|? ?]]]; try (unfold zlen in Hl; cbn in Hl; lia). by exists p, q. Qed.

Lemma v4_write a0 a1 a2 a3 port : (let! u := set_family zero_addr AF_INET in let! u := mem_write u v4_addr_at [a0; a1; a2; a3] in set_port u port) = Ret (v4_image [a0; a1; a2; a3] port).
Proof. unfold set_port, v4_image. destruct (two_bytes port) as (p & q & ->). vm_compute. reflexivity. Qed.
Lemma v4_read a0 a1 a2 a3 port : 0 <= port < 65536 -> let u := v4_image [a0; a1; a2; a3] port in
  get_family u = Ret AF_INET /\ get_port u = Ret port /\ mem_read u v4_addr_at 4 = Ret [a0; a1; a2; a3].
Proof.
  intros Hp u. assert (be_val (be_bytes 2 port) = port) as Hv by (rewrite be_val_be_bytes, wrapu_small by lia; done). unfold get_port, u, v4_image. destruct (two_bytes port) as (p & q & E). rewrite E in *. split_and!; [vm_compute; reflexivity| |vm_compute; reflexivity].
  assert (mem_read (le_bytes 2 AF_INET ++ [p; q] ++ [a0; a1; a2; a3] ++ zeros 20) port_at 2 = Ret [p; q]) as -> by (vm_compute; reflexivity). by rewrite ret_bind, Hv.
Qed.

(** Text that is put at the beginning of a buffer. *)
Lemma put_text_ok buf t size : zlen t + 1 <= size -> size <= zlen buf -> exists r, put_text buf t size = Ret (t ++ 0 :: r) /\ zlen (t ++ 0 :: r) = zlen buf.
Proof.
  intros H1 H2. zlen_facts. unfold put_text. rewrite (proj2 (Z.ltb_ge _ _)) by lia. rewrite mem_write_ok by zlia. exists (zdrop (zlen t + 1) buf). unfold mem_splice. split.
  - f_equal. rewrite ztake_0. cbn [app]. rewrite <- app_assoc. cbn [app]. do 3 f_equal. zlia.
  - zlia.
Qed.

Section theorems.
Context (inet_pton6 : bytes -> option bytes) (inet_ntop6 : bytes -> bytes).

(** Behind a text of a buffer, with room for more. *)
Lemma append_text t r t' size : no_nul t -> zlen t + zlen t' + 1 <= size -> size <= zlen (t ++ 0 :: r) ->
  exists r', snprintf (t ++ 0 :: r) (zlen t) (size - zlen t) t' = Ret ((t ++ t') ++ 0 :: r') /\ zlen ((t ++ t') ++ 0 :: r') = zlen (t ++ 0 :: r).
Proof.
  intros Ht H1 H2. zlen_facts. unfold snprintf. rewrite (proj2 (Z.eqb_neq _ 0)) by lia. rewrite ztake_all by lia. rewrite mem_write_ok by zlia.
  exists (zdrop (zlen t + zlen (t' ++ [0])) (t ++ 0 :: r)). unfold mem_splice. rewrite ztake_app_exact by done. split; [|zlia]. by rewrite <- !app_assoc.
Qed.

(** C8. An IPv4 address from its text: family, port and the number of the
    address read back, and the two functions that print it give the text it
    came from, without and with the port, inside a buffer of at least
    [SA_BUF_SIZE] bytes. *)
Theorem sa_ipv4_text a b c d port r buf size : octet a -> octet b -> octet c -> octet d -> 0 <= port < 65536 -> INET6_ADDRSTRLEN <= size <= zlen buf ->
  exists u, sa_fromip (dotted [a; b; c; d] ++ 0 :: r) port = Ret u /\ sa_family u = Ret AF_INET /\ sa_toport u = Ret port /\ sa_iplong u = Ret (be_val [a; b; c; d]) /\
    (exists r', sa_toip inet_ntop6 u buf size = Ret (dotted [a; b; c; d] ++ 0 :: r') /\ zlen (dotted [a; b; c; d] ++ 0 :: r') = zlen buf) /\
    exists r', sa_toipport inet_ntop6 u buf size = Ret ((dotted [a; b; c; d] ++ 58 :: dec port) ++ 0 :: r').
Proof.
  intros Ha Hb Hc Hd Hp Hs. destruct (dotted_ok a b c d Ha Hb Hc Hd) as [Hn Hl]. unfold INET6_ADDRSTRLEN in Hs. exists (v4_image [a; b; c; d] port). destruct (v4_read a b c d port Hp) as (E1 & E2 & E3).
  assert (exists r', sa_toip inet_ntop6 (v4_image [a; b; c; d] port) buf size = Ret (dotted [a; b; c; d] ++ 0 :: r') /\ zlen (dotted [a; b; c; d] ++ 0 :: r') = zlen buf) as (r' & E4 & Hr').
  { unfold sa_toip. unfold INET6_ADDRSTRLEN. rewrite (proj2 (Z.leb_le 46 size)) by lia. unfold c_assert. rewrite ret_bind, E1, ret_bind. cbn [Z.eqb AF_INET Pos.eqb]. rewrite E3, ret_bind.
    apply put_text_ok; unfold INET_ADDRSTRLEN; lia. }
  split_and!; [|exact E1|exact E2| |by exists r'|].
  - unfold sa_fromip. pose proof (v4_write a b c d port) as Hw. destruct (set_family zero_addr AF_INET) as [u| | |]; try done. rewrite ret_bind in Hw |- *. rewrite c_str_ok, ret_bind, inet_pton4_dotted by done. exact Hw.
  - unfold sa_iplong. rewrite E1, ret_bind. cbn [Z.eqb AF_INET Pos.eqb c_assert]. by rewrite ret_bind, E3.
  - unfold sa_toipport. unfold INET6_ADDRSTRLEN. rewrite (proj2 (Z.leb_le 46 size)) by lia. unfold c_assert. rewrite ret_bind, E4, ret_bind.
    assert (strlen (dotted [a; b; c; d] ++ 0 :: r') = Ret (zlen (dotted [a; b; c; d]))) as -> by apply (strlen_cstr _ r' Hn). rewrite ret_bind, E2, ret_bind, (proj2 (Z.ltb_lt _ _)), ret_bind by lia. destruct (dec_ok port Hp) as [_ Hdp].
    destruct (append_text (dotted [a; b; c; d]) r' (58 :: dec port) size Hn) as (r2 & E & _); [rewrite zlen_cons; lia|lia|]. exists r2. cbn [app] in E |- *. exact E.
Qed.
End theorems.

Lemma sa_ipv4_text_witness : exists u, sa_fromip (str "127.0.0.1" ++ [0]) 8050 = Ret u /\ sa_iplong u = Ret INADDR_LOOPBACK /\
  exists r, sa_toipport (fun _ => []) u (zeros 46) 46 = Ret (str "127.0.0.1:8050" ++ 0 :: r).
Proof.
  destruct (sa_ipv4_text (fun _ => []) 127 0 0 1 8050 [] (zeros 46) 46) as (u & E & _ & _ & El & _ & r & Er); try (unfold octet; lia); [vm_decide|].
  exists u. split_and!; [exact E|exact El|]. exists r. exact Er.
Defined.

(** The loopback and the wildcard address. *)
Lemma sa_create_ok port loopback_only : sa_create port loopback_only = Ret (v4_image (if loopback_only then [127; 0; 0; 1] else [0; 0; 0; 0]) port).
Proof. unfold sa_create. pose proof (v4_write 127 0 0 1 port). pose proof (v4_write 0 0 0 0 port). by destruct loopback_only. Qed.

(** [SA_BUF_SIZE] has room for an IPv6 address, not for its port. *)
Example sa_toipport_truncates : exists u buf, sa_fromipV6 (fun _ => Some (repeat 255 16)) (str "x" ++ [0]) 8050 = Ret u /\
  sa_toipport (fun _ => str "ffff:ffff:ffff:ffff:ffff:ffff:255.255.255.255") u (zeros 46) 46 = Ret buf /\ buf = str "ffff:ffff:ffff:ffff:ffff:ffff:255.255.255.255" ++ [0].
Proof. eexists _, _. split_and!; vm_compute; reflexivity. Qed.

(** A successful lookup without addresses is not answered with false. *)
Lemma sa_resolve_empty u : sa_resolve 0 [] u = Undefined.
Proof. done. Qed.
(** Only the first address counts; the port stays what it was. *)
Lemma sa_resolve_ok a0 a1 a2 a3 p q b0 b1 b2 b3 rest l port :
  sa_resolve 0 ((AF_INET, le_bytes 2 AF_INET ++ [p; q; a0; a1; a2; a3] ++ rest) :: l) (v4_image [b0; b1; b2; b3] port) = Ret (true, v4_image [a0; a1; a2; a3] port).
Proof.
  unfold sa_resolve, v4_image. destruct (two_bytes port) as (p' & q' & ->). cbn [Z.eqb negb head deref fst snd]. rewrite ret_bind.
  assert (forall m : bytes, mem_read (le_bytes 2 AF_INET ++ [p; q; a0; a1; a2; a3] ++ rest) v4_addr_at 4 = Ret [a0; a1; a2; a3]) as Hread.
  { intros _. assert (le_bytes 2 AF_INET = [2; 0]) as -> by (vm_compute; reflexivity). cbn [app]. unfold mem_read, v4_addr_at. rewrite bool_decide_true; [done|]. rewrite !zlen_cons. zlen_facts. lia. }
  cbn [fst snd]. rewrite (Hread []). vm_compute. reflexivity.
Qed.
