(* ===== verification/CJson.v ===== *)
(** * cJSON: items and the parser

    [base/cJSON.c], which both clients use: the data type, and
    [cJSON_Parse] with everything below it.  An item is an inductive value:
    the list [child] is the chain of [next] pointers that begins at the C
    field [child].  Strings are blocks of memory with their terminator; a new
    block holds arbitrary bytes ([uninit]), and every access is checked
    against its block.  The recursion of [parse_value] has the fuel that the
    nesting limit of the code gives it. *)

From stdpp Require Import base tactics numbers list option strings.
From Stdlib Require Import Lia.
From S2P Require Import Prelude Double.

Definition cJSON_Invalid : Z := 0.
Definition cJSON_False : Z := Z.shiftl 1 0.
Definition cJSON_True : Z := Z.shiftl 1 1.
Definition cJSON_NULL : Z := Z.shiftl 1 2.
Definition cJSON_Number : Z := Z.shiftl 1 3.
Definition cJSON_String : Z := Z.shiftl 1 4.
Definition cJSON_Array : Z := Z.shiftl 1 5.
Definition cJSON_Object : Z := Z.shiftl 1 6.
Definition cJSON_Raw : Z := Z.shiftl 1 7.
Definition cJSON_IsReference : Z := 256.
Definition cJSON_StringIsConst : Z := 512.
Definition CJSON_NESTING_LIMIT : Z := 1000.

Inductive cJSON := Item {
  type : Z;
  valuestring : option bytes;
  valueint : Z;
  valuedouble : double;
  string : option bytes;
  child : list cJSON
}.
Definition sizeof_cJSON : Z := 64.

Definition set_type (i : cJSON) (t : Z) : cJSON := Item t (valuestring i) (valueint i) (valuedouble i) (string i) (child i).
Definition set_valuestring (i : cJSON) (s : option bytes) : cJSON := Item (type i) s (valueint i) (valuedouble i) (string i) (child i).
Definition set_valueint (i : cJSON) (n : Z) : cJSON := Item (type i) (valuestring i) n (valuedouble i) (string i) (child i).
Definition set_string (i : cJSON) (s : option bytes) : cJSON := Item (type i) (valuestring i) (valueint i) (valuedouble i) s (child i).
Definition set_child (i : cJSON) (l : list cJSON) : cJSON := Item (type i) (valuestring i) (valueint i) (valuedouble i) (string i) l.
Definition set_number (i : cJSON) (n : Z) (d : double) : cJSON := Item (type i) (valuestring i) n d (string i) (child i).

(** What memory holds before it is written. *)
Class Memory := uninit : Z -> Z.
Definition new_block `{Memory} (n : Z) : bytes := uninit <$> seqZ 0 n.

(** What [memset] to 0 makes of a node. *)
Definition zero_item : cJSON := Item 0 None 0 (Fin false 0 0) None [].
Definition cJSON_New_Item `{Allocator} : option cJSON := _ ← malloc sizeof_cJSON; Some zero_item.

(** [value] as an [int], at the bounds when it lies outside. *)
Definition saturate (number : double) : outcome Z :=
  if dge number INT_MAX then Ret INT_MAX else if dle number INT_MIN then Ret INT_MIN else dtoint number.

(** The decimal point of the C locale: no program here calls [setlocale]. *)
Definition get_decimal_point : Z := 46.

(** ** The input *)
Record parse_buffer := mkParse { content : bytes; length_ : Z; offset : Z; depth : Z }.

Definition set_offset (b : parse_buffer) (o : Z) : parse_buffer := mkParse (content b) (length_ b) o (depth b).
Definition set_depth (b : parse_buffer) (d : Z) : parse_buffer := mkParse (content b) (length_ b) (offset b) d.

Definition can_read (b : parse_buffer) (size : Z) : bool := offset b + size <=? length_ b.
Definition can_access_at_index (b : parse_buffer) (index : Z) : bool := offset b + index <? length_ b.
(** [buffer_at_offset(b)[i]]. *)
Definition buffer_at_offset (b : parse_buffer) (i : Z) : outcome Z := arr_get (content b) (offset b + i).

(** [can_access_at_index(b, 0) && buffer_at_offset(b)[0] == c]. *)
Definition next_is (b : parse_buffer) (c : Z) : outcome bool :=
  if can_access_at_index b 0 then let! x := buffer_at_offset b 0 in Ret (x =? c) else Ret false.

Fixpoint skip_loop (n : nat) (b : parse_buffer) : outcome parse_buffer :=
  match n with
  | O => OutOfFuel
  | S n =>
    if can_access_at_index b 0 then
      let! c := buffer_at_offset b 0 in
      if c <=? 32 then skip_loop n (set_offset b (offset b + 1)) else Ret b
    else Ret b
  end.
Definition buffer_skip_whitespace (b : parse_buffer) : outcome parse_buffer :=
  let! b := skip_loop (S (Z.to_nat (length_ b - offset b))) b in
  Ret (if offset b =? length_ b then set_offset b (offset b - 1) else b).

(** ** Numbers *)

(** The characters that are copied to [number_c_string]. *)
Fixpoint number_chars (n : nat) (b : parse_buffer) (i : Z) : outcome bytes :=
  match n with
  | O => Ret []
  | S n =>
    if can_access_at_index b i then
      let! c := buffer_at_offset b i in
      if is_digit c || (c =? 43) || (c =? 45) || (c =? 101) || (c =? 69) then
        let! l := number_chars n b (i + 1) in Ret (c :: l)
      else if c =? 46 then let! l := number_chars n b (i + 1) in Ret (get_decimal_point :: l)
      else Ret []
    else Ret []
  end.

Definition parse_number (item : cJSON) (b : parse_buffer) : outcome (bool * cJSON * parse_buffer) :=
  let! number_c_string := number_chars 63 b 0 in
  let '(number, n) := strtod number_c_string in
  if n =? 0 then Ret (false, item, b) else
  let! i := saturate number in
  Ret (true, set_type (set_number item i number) cJSON_Number, set_offset b (offset b + n)).

(** ** Strings *)
Definition hex_value (c : Z) : option Z :=
  if (48 <=? c) && (c <=? 57) then Some (c - 48)
  else if (65 <=? c) && (c <=? 70) then Some (10 + c - 65)
  else if (97 <=? c) && (c <=? 102) then Some (10 + c - 97)
  else None.

Fixpoint hex4_loop (n : nat) (content : bytes) (p h : Z) : outcome Z :=
  match n with
  | O => Ret h
  | S n =>
    let! c := arr_get content p in
    match hex_value c with
    | None => Ret 0
    | Some v => let h := h + v in hex4_loop n content (p + 1) (match n with O => h | _ => u32 (Z.shiftl h 4) end)
    end
  end.
(** The number at position [p]; 0 when it is no number. *)
Definition parse_hex4 (content : bytes) (p : Z) : outcome Z := hex4_loop 4 content p 0.

(** The continuation bytes, from the last on. *)
Fixpoint utf8_tail (position : nat) (codepoint : Z) (output : bytes) (out : Z) : outcome (Z * bytes) :=
  match position with
  | O => Ret (codepoint, output)
  | S p =>
    let! output := arr_set output (out + Z.of_nat position) (u8 (Z.land (Z.lor codepoint 128) 191)) in
    utf8_tail p (Z.shiftr codepoint 6) output out
  end.

(** The length of the sequence and the mark of its first byte. *)
Definition utf8_form (codepoint : Z) : option (nat * Z) :=
  if codepoint <? 128 then Some (1%nat, 0)
  else if codepoint <? 2048 then Some (2%nat, 192)
  else if codepoint <? 65536 then Some (3%nat, 224)
  else if codepoint <=? 1114111 then Some (4%nat, 240)
  else None.

(** The code point of one or two escapes at [p], and their length. *)
Definition utf16_codepoint (content : bytes) (p input_end : Z) : outcome (option (Z * Z)) :=
  if input_end - p <? 6 then Ret None else
  let! first_code := parse_hex4 content (p + 2) in
  if (56320 <=? first_code) && (first_code <=? 57343) then Ret None else
  if (55296 <=? first_code) && (first_code <=? 56319) then
    let second_sequence := p + 6 in
    if input_end - second_sequence <? 6 then Ret None else
    let! c0 := arr_get content second_sequence in
    if negb (c0 =? 92) then Ret None else
    let! c1 := arr_get content (second_sequence + 1) in
    if negb (c1 =? 117) then Ret None else
    let! second_code := parse_hex4 content (second_sequence + 2) in
    if (second_code <? 56320) || (57343 <? second_code) then Ret None else
    Ret (Some (65536 + Z.lor (Z.shiftl (Z.land first_code 1023) 10) (Z.land second_code 1023), 12))
  else Ret (Some (first_code, 6)).

(** The encoding of a code point, written at [out], and its end. *)
Definition utf8_write (codepoint : Z) (output : bytes) (out : Z) : outcome (option (bytes * Z)) :=
  match utf8_form codepoint with
  | None => Ret None
  | Some (utf8_length, first_byte_mark) =>
    let! (codepoint, output) := utf8_tail (utf8_length - 1) codepoint output out in
    let! output := arr_set output out
      (if bool_decide (1 < utf8_length)%nat then u8 (Z.land (Z.lor codepoint first_byte_mark) 255) else u8 (Z.land codepoint 127)) in
    Ret (Some (output, out + Z.of_nat utf8_length))
  end.

(** The length of the escape, 0 for an invalid one, the output and its end. *)
Definition utf16_literal_to_utf8 (content : bytes) (p input_end : Z) (output : bytes) (out : Z) : outcome (Z * bytes * Z) :=
  let! r := utf16_codepoint content p input_end in
  match r with
  | None => Ret (0, output, out)
  | Some (codepoint, sequence_length) =>
    let! w := utf8_write codepoint output out in
    match w with
    | None => Ret (0, output, out)
    | Some (output, out) => Ret (sequence_length, output, out)
    end
  end.

(** The end of the literal and the number of escapes: [None] when the input
    ends before. *)
Fixpoint string_scan (n : nat) (b : parse_buffer) (e skipped : Z) : outcome (option (Z * Z)) :=
  match n with
  | O => OutOfFuel
  | S n =>
    if e <? length_ b then
      let! c := arr_get (content b) e in
      if c =? 34 then Ret (Some (e, skipped)) else
      if c =? 92 then
        if length_ b <=? e + 1 then Ret None else string_scan n b (e + 2) (skipped + 1)
      else string_scan n b (e + 1) skipped
    else Ret None
  end.

(** The character of a one-letter escape. *)
Definition escape_char (c : Z) : option Z :=
  if c =? 98 then Some 8 else if c =? 102 then Some 12 else if c =? 110 then Some 10 else
  if c =? 114 then Some 13 else if c =? 116 then Some 9 else
  if (c =? 34) || (c =? 92) || (c =? 47) then Some c else None.

(** The loop through the literal: the output and its end, or [None] for
    [goto fail], and [input_pointer]. *)
Fixpoint string_loop (n : nat) (content : bytes) (p e : Z) (output : bytes) (out : Z) : outcome (option (bytes * Z) * Z) :=
  if p <? e then
    match n with
    | O => OutOfFuel
    | S n =>
      let! c := arr_get content p in
      if negb (c =? 92) then
        let! output := arr_set output out c in string_loop n content (p + 1) e output (out + 1)
      else
        if e - p <? 1 then Ret (None, p) else
        let! c := arr_get content (p + 1) in
        match escape_char c with
        | Some x => let! output := arr_set output out x in string_loop n content (p + 2) e output (out + 1)
        | None =>
          if c =? 117 then
            let! (sequence_length, output, out) := utf16_literal_to_utf8 content p e output out in
            if sequence_length =? 0 then Ret (None, p) else string_loop n content (p + sequence_length) e output out
          else Ret (None, p)
        end
    end
  else Ret (Some (output, out), p).

Section parser.
Context `{Allocator} `{Memory}.

Definition parse_string (item : cJSON) (b : parse_buffer) : outcome (bool * cJSON * parse_buffer) :=
  let input_pointer := offset b + 1 in
  let fail p := Ret (false, item, set_offset b p) in
  let! c := buffer_at_offset b 0 in
  if negb (c =? 34) then fail input_pointer else
  let! r := string_scan (S (Z.to_nat (length_ b - offset b))) b (offset b + 1) 0 in
  match r with
  | None => fail input_pointer
  | Some (input_end, skipped_bytes) =>
    let allocation_length := input_end - offset b - skipped_bytes in
    match malloc (allocation_length + 1) with
    | None => fail input_pointer
    | Some n =>
      let! (r, input_pointer) := string_loop (Z.to_nat (input_end - input_pointer)) (content b) input_pointer input_end (new_block n) 0 in
      match r with
      | None => fail input_pointer
      | Some (output, out) =>
        let! output := arr_set output out 0 in
        Ret (true, set_valuestring (set_type item cJSON_String) (Some output), set_offset b (input_end + 1))
      end
    end
  end.

(** ** Values *)

(** [can_read(b, strlen(s)) && strncmp(buffer_at_offset(b), s, strlen(s)) == 0]. *)
Definition at_text (b : parse_buffer) (s : bytes) : outcome bool :=
  if can_read b (zlen s) then let! d := mem_read (content b) (offset b) (zlen s) in Ret (bool_decide (d = s)) else Ret false.

Section containers.
Context (parse_value : cJSON -> parse_buffer -> outcome (bool * cJSON * parse_buffer)).

(** The [do] loop over the elements: [None] for [goto fail]. *)
Fixpoint array_loop (n : nat) (b : parse_buffer) (head : list cJSON) : outcome (option (list cJSON) * parse_buffer) :=
  match n with
  | O => OutOfFuel
  | S n =>
    match cJSON_New_Item with
    | None => Ret (None, b)
    | Some new_item =>
      let! b := buffer_skip_whitespace (set_offset b (offset b + 1)) in
      let! (ok, current_item, b) := parse_value new_item b in
      if negb ok then Ret (None, b) else
      let! b := buffer_skip_whitespace b in
      let! more := next_is b 44 in
      if more : bool then array_loop n b (head ++ [current_item]) else Ret (Some (head ++ [current_item]), b)
    end
  end.

Fixpoint object_loop (n : nat) (b : parse_buffer) (head : list cJSON) : outcome (option (list cJSON) * parse_buffer) :=
  match n with
  | O => OutOfFuel
  | S n =>
    match cJSON_New_Item with
    | None => Ret (None, b)
    | Some new_item =>
      let! b := buffer_skip_whitespace (set_offset b (offset b + 1)) in
      let! (ok, current_item, b) := parse_string new_item b in
      if negb ok then Ret (None, b) else
      let! b := buffer_skip_whitespace b in
      let current_item := set_valuestring (set_string current_item (valuestring current_item)) None in
      let! colon := next_is b 58 in
      if negb colon then Ret (None, b) else
      let! b := buffer_skip_whitespace (set_offset b (offset b + 1)) in
      let! (ok, current_item, b) := parse_value current_item b in
      if negb ok then Ret (None, b) else
      let! b := buffer_skip_whitespace b in
      let! more := next_is b 44 in
      if more : bool then object_loop n b (head ++ [current_item]) else Ret (Some (head ++ [current_item]), b)
    end
  end.

(** What arrays and objects share: from the nesting test to the end. *)
Definition parse_list (loop : nat -> parse_buffer -> list cJSON -> outcome (option (list cJSON) * parse_buffer))
    (close : Z) (t : Z) (item : cJSON) (b : parse_buffer) : outcome (bool * cJSON * parse_buffer) :=
  let success head b := Ret (true, set_child (set_type item t) head, set_offset (set_depth b (depth b - 1)) (offset b + 1)) in
  let! b := buffer_skip_whitespace (set_offset b (offset b + 1)) in
  let! empty := next_is b close in
  if empty : bool then success [] b else
  if negb (can_access_at_index b 0) then Ret (false, item, set_offset b (offset b - 1)) else
  let b := set_offset b (offset b - 1) in
  let! (r, b) := loop (S (Z.to_nat (length_ b - offset b))) b [] in
  match r with
  | None => Ret (false, item, b)
  | Some head =>
    let! closed := next_is b close in
    if closed : bool then success head b else Ret (false, item, b)
  end.

Definition parse_array (item : cJSON) (b : parse_buffer) : outcome (bool * cJSON * parse_buffer) :=
  if CJSON_NESTING_LIMIT <=? depth b then Ret (false, item, b) else
  let b := set_depth b (depth b + 1) in
  let! c := buffer_at_offset b 0 in
  if negb (c =? 91) then Ret (false, item, b) else
  parse_list array_loop 93 cJSON_Array item b.

Definition parse_object (item : cJSON) (b : parse_buffer) : outcome (bool * cJSON * parse_buffer) :=
  if CJSON_NESTING_LIMIT <=? depth b then Ret (false, item, b) else
  let b := set_depth b (depth b + 1) in
  let! open := next_is b 123 in
  if negb open then Ret (false, item, b) else
  parse_list object_loop 125 cJSON_Object item b.
End containers.

Fixpoint parse_value (n : nat) (item : cJSON) (b : parse_buffer) : outcome (bool * cJSON * parse_buffer) :=
  match n with
  | O => OutOfFuel
  | S n =>
    let! null := at_text b (str "null") in
    if null : bool then Ret (true, set_type item cJSON_NULL, set_offset b (offset b + 4)) else
    let! false_ := at_text b (str "false") in
    if false_ : bool then Ret (true, set_type item cJSON_False, set_offset b (offset b + 5)) else
    let! true_ := at_text b (str "true") in
    if true_ : bool then Ret (true, set_valueint (set_type item cJSON_True) 1, set_offset b (offset b + 4)) else
    if can_access_at_index b 0 then
      let! c := buffer_at_offset b 0 in
      if c =? 34 then parse_string item b
      else if (c =? 45) || ((48 <=? c) && (c <=? 57)) then parse_number item b
      else if c =? 91 then parse_array (parse_value n) item b
      else if c =? 123 then parse_object (parse_value n) item b
      else Ret (false, item, b)
    else Ret (false, item, b)
  end.

(** Enough for the nesting limit. *)
Definition parse_fuel : nat := S (Z.to_nat CJSON_NESTING_LIMIT).

(** The item, where [*return_parse_end] points if it is set, and the position
    [global_error] keeps, if any. *)
Definition cJSON_ParseWithOpts (value : option bytes) (return_parse_end require_null_terminated : bool)
  : outcome (option cJSON * option Z * option Z) :=
  match value with
  | None => Ret (None, None, None)
  | Some value =>
    let! n := strlen value in
    let buffer := mkParse value (n + 1) 0 0 in
    let fail b :=
      let position := if offset b <? length_ b then offset b else if 0 <? length_ b then length_ b - 1 else 0 in
      Ret (if return_parse_end then (None, Some position, None) else (None, None, Some position)) in
    match cJSON_New_Item with
    | None => fail buffer
    | Some item =>
      let! b := buffer_skip_whitespace buffer in
      let! (ok, item, b) := parse_value parse_fuel item b in
      if negb ok then fail b else
      let success b := Ret (Some item, if return_parse_end then Some (offset b) else None, None) in
      if require_null_terminated then
        let! b := buffer_skip_whitespace b in
        if length_ b <=? offset b then fail b else
        let! c := buffer_at_offset b 0 in
        if negb (c =? 0) then fail b else success b
      else success b
    end
  end.

Definition cJSON_Parse (value : option bytes) : outcome (option cJSON) :=
  let! r := cJSON_ParseWithOpts value false false in Ret r.1.1.
End parser.

(** ** Examples *)
Definition demo_memory : Memory := fun _ => 170.

Definition parse_text (s : bytes) : outcome (option cJSON) := @cJSON_Parse big_alloc demo_memory (Some (s ++ [0])).
