(* ===== verification/CJsonSpec.v ===== *)
(** * JSON values

    What the items of [CJson] stand for: [json_of] reads an item tree as a
    JSON value, from the fields that printing and comparing use.  A tree that
    [json_of] accepts is well typed: the type says which fields are set, all
    the way down. *)

From stdpp Require Import base tactics numbers list option strings.
From Stdlib Require Import Lia.
From S2P Require Import Prelude Double CJson.

Inductive json :=
  | JNull | JBool (b : bool) | JNum (d : double) | JStr (s : bytes)
  | JArr (l : list json) | JObj (l : list (bytes * json)).

(** Induction with a hypothesis for every element. *)
Section induction.
Variable P : json -> Prop.
Hypothesis Hnull : P JNull.
Hypothesis Hbool : forall b, P (JBool b).
Hypothesis Hnum : forall d, P (JNum d).
Hypothesis Hstr : forall s, P (JStr s).
Hypothesis Harr : forall l, Forall P l -> P (JArr l).
Hypothesis Hobj : forall l, Forall (fun kv => P kv.2) l -> P (JObj l).

Fixpoint json_ind' (j : json) : P j :=
  match j with
  | JNull => Hnull
  | JBool b => Hbool b
  | JNum d => Hnum d
  | JStr s => Hstr s
  | JArr l => Harr l ((fix go l : Forall P l := match l with [] => Forall_nil_2 P | j :: l => Forall_cons_2 P j l (json_ind' j) (go l) end) l)
  | JObj l => Hobj l ((fix go l : Forall (fun kv => P kv.2) l := match l with [] => Forall_nil_2 _ | kv :: l => Forall_cons_2 _ kv l (json_ind' kv.2) (go l) end) l)
  end.
End induction.

Section item_induction.
Variable P : cJSON -> Prop.
Hypothesis Hitem : forall t vs vi vd s l, Forall P l -> P (Item t vs vi vd s l).

Fixpoint item_ind' (i : cJSON) : P i :=
  match i with
  | Item t vs vi vd s l => Hitem t vs vi vd s l ((fix go l : Forall P l := match l with [] => Forall_nil_2 P | i :: l => Forall_cons_2 P i l (item_ind' i) (go l) end) l)
  end.
End item_induction.

(** The string in a block. *)
Definition block_str (b : option bytes) : option bytes :=
  match b with Some b => match c_str b with Ret s => Some s | _ => None end | None => None end.

(** The type of an item without its flags. *)
Definition base_type (i : cJSON) : Z := Z.land (type i) 255.

Section members.
Variable json_of : cJSON -> option json.
Fixpoint elements (l : list cJSON) : option (list json) :=
  match l with
  | [] => Some []
  | i :: l => match json_of i, elements l with Some j, Some r => Some (j :: r) | _, _ => None end
  end.
Fixpoint members (l : list cJSON) : option (list (bytes * json)) :=
  match l with
  | [] => Some []
  | i :: l => match block_str (string i), json_of i, members l with Some k, Some j, Some r => Some ((k, j) :: r) | _, _, _ => None end
  end.
End members.

Fixpoint json_of (i : cJSON) : option json :=
  let t := base_type i in
  if t =? cJSON_NULL then Some JNull
  else if t =? cJSON_False then Some (JBool false)
  else if t =? cJSON_True then Some (JBool true)
  else if t =? cJSON_Number then Some (JNum (valuedouble i))
  else if t =? cJSON_String then match block_str (valuestring i) with Some s => Some (JStr s) | None => None end
  else if t =? cJSON_Array then match elements json_of (child i) with Some l => Some (JArr l) | None => None end
  else if t =? cJSON_Object then match members json_of (child i) with Some l => Some (JObj l) | None => None end
  else None.

(** Values of the machine: numbers are doubles other than NaN, strings hold no
    zero byte. *)
Fixpoint json_ok (j : json) : Prop :=
  match j with
  | JNull | JBool _ => True
  | JNum d => canonical d /\ d <> NaN
  | JStr s => no_nul s
  | JArr l => (fix go l := match l with [] => True | j :: l => json_ok j /\ go l end) l
  | JObj l => (fix go l := match l with [] => True | kv :: l => no_nul kv.1 /\ json_ok kv.2 /\ go l end) l
  end.

(** Items as the parser makes them: the type has no flags, and the texts are C
    strings. *)
Definition block_ok (b : option bytes) : Prop := match b with Some b => exists s, c_str b = Ret s | None => True end.
Fixpoint tidy (i : cJSON) : Prop :=
  match i with
  | Item t vs _ _ s l => 0 <= t < 256 /\ block_ok vs /\ block_ok s /\ (fix go l := match l with [] => True | i :: l => tidy i /\ go l end) l
  end.
Lemma tidy_Item t vs vi vd s l : tidy (Item t vs vi vd s l) <-> 0 <= t < 256 /\ block_ok vs /\ block_ok s /\ Forall tidy l.
Proof. cbn [tidy]. do 3 apply and_iff_compat_l. induction l as [|i l IH]; [by rewrite Forall_nil|]. by rewrite Forall_cons, IH. Qed.
Lemma block_ok_text s r : no_nul s -> block_ok (Some (s ++ 0 :: r)).
Proof. intros Hs. exists s. by apply c_str_ok. Qed.
Lemma tidy_set_type i t : 0 <= t < 256 -> tidy i -> tidy (set_type i t).
Proof. destruct i. cbn. tauto. Qed.
Lemma tidy_set_string i s : block_ok s -> tidy i -> tidy (set_string i s).
Proof. destruct i. cbn. tauto. Qed.
Lemma tidy_set_valuestring i s : block_ok s -> tidy i -> tidy (set_valuestring i s).
Proof. destruct i. cbn. tauto. Qed.
Lemma tidy_set_number i n d : tidy i -> tidy (set_number i n d).
Proof. by destruct i. Qed.
Lemma tidy_set_child i l : Forall tidy l -> tidy i -> tidy (set_child i l).
Proof. destruct i. intros Hl (? & ? & ? & _)%tidy_Item. by apply tidy_Item. Qed.

(** The nesting of arrays and objects. *)
Fixpoint nesting (j : json) : nat :=
  match j with
  | JArr l => S ((fix go l := match l with [] => O | j :: l => Nat.max (nesting j) (go l) end) l)
  | JObj l => S ((fix go l := match l with [] => O | kv :: l => Nat.max (nesting kv.2) (go l) end) l)
  | _ => O
  end.

Lemma json_ok_arr l : json_ok (JArr l) <-> Forall json_ok l.
Proof. cbn [json_ok]. induction l as [|j l IH]; [by rewrite Forall_nil|]. by rewrite Forall_cons, IH. Qed.
Lemma json_ok_obj l : json_ok (JObj l) <-> Forall (fun kv => no_nul kv.1 /\ json_ok kv.2) l.
Proof. cbn [json_ok]. induction l as [|kv l IH]; [by rewrite Forall_nil|]. rewrite Forall_cons, IH. tauto. Qed.
Lemma nesting_arr l n : (nesting (JArr l) <= S n)%nat <-> Forall (fun j => (nesting j <= n)%nat) l.
Proof.
  cbn [nesting]. rewrite <- Nat.succ_le_mono. induction l as [|j l IH]; [rewrite Forall_nil; split; [done|lia]|].
  rewrite Forall_cons, <- IH. lia.
Qed.
Lemma nesting_obj l n : (nesting (JObj l) <= S n)%nat <-> Forall (fun kv => (nesting kv.2 <= n)%nat) l.
Proof.
  cbn [nesting]. rewrite <- Nat.succ_le_mono. induction l as [|kv l IH]; [rewrite Forall_nil; split; [done|lia]|].
  rewrite Forall_cons, <- IH. lia.
Qed.

Lemma block_str_ok s r : no_nul s -> block_str (Some (s ++ 0 :: r)) = Some s.
Proof. intros Hs. unfold block_str. by rewrite c_str_ok. Qed.

(** *** What the setters leave alone *)
Lemma json_of_set_string i s : json_of (set_string i s) = json_of i.
Proof. by destruct i. Qed.

Lemma elements_app f l1 l2 r1 r2 : elements f l1 = Some r1 -> elements f l2 = Some r2 -> elements f (l1 ++ l2) = Some (r1 ++ r2).
Proof.
  revert r1. induction l1 as [|i l1 IH]; cbn; intros r1 H1 H2; [by simplify_eq|].
  destruct (f i) as [j|]; [|done]. destruct (elements f l1) as [r|]; [|done]. injection H1 as <-. by rewrite (IH r eq_refl H2).
Qed.
Lemma members_app f l1 l2 r1 r2 : members f l1 = Some r1 -> members f l2 = Some r2 -> members f (l1 ++ l2) = Some (r1 ++ r2).
Proof.
  revert r1. induction l1 as [|i l1 IH]; cbn; intros r1 H1 H2; [by simplify_eq|].
  destruct (block_str (string i)) as [k|]; [|done]. destruct (f i) as [j|]; [|done]. destruct (members f l1) as [r|]; [|done].
  injection H1 as <-. by rewrite (IH r eq_refl H2).
Qed.

(** *** Reading an item of a known type *)
Lemma json_of_unfold i : json_of i =
  let t := base_type i in
  if t =? cJSON_NULL then Some JNull
  else if t =? cJSON_False then Some (JBool false)
  else if t =? cJSON_True then Some (JBool true)
  else if t =? cJSON_Number then Some (JNum (valuedouble i))
  else if t =? cJSON_String then match block_str (valuestring i) with Some s => Some (JStr s) | None => None end
  else if t =? cJSON_Array then match elements json_of (child i) with Some l => Some (JArr l) | None => None end
  else if t =? cJSON_Object then match members json_of (child i) with Some l => Some (JObj l) | None => None end
  else None.
Proof. by destruct i. Qed.

Lemma json_of_null i : base_type i = cJSON_NULL -> json_of i = Some JNull.
Proof. intros E. by rewrite json_of_unfold, E. Qed.
Lemma json_of_false i : base_type i = cJSON_False -> json_of i = Some (JBool false).
Proof. intros E. by rewrite json_of_unfold, E. Qed.
Lemma json_of_true i : base_type i = cJSON_True -> json_of i = Some (JBool true).
Proof. intros E. by rewrite json_of_unfold, E. Qed.
Lemma json_of_number i : base_type i = cJSON_Number -> json_of i = Some (JNum (valuedouble i)).
Proof. intros E. by rewrite json_of_unfold, E. Qed.
Lemma json_of_string i t r : base_type i = cJSON_String -> valuestring i = Some (t ++ 0 :: r) -> no_nul t -> json_of i = Some (JStr t).
Proof. intros E Hs Ht. rewrite json_of_unfold, E, Hs, block_str_ok by done. done. Qed.
Lemma json_of_array i js : base_type i = cJSON_Array -> elements json_of (child i) = Some js -> json_of i = Some (JArr js).
Proof. intros E Hs. rewrite json_of_unfold, E, Hs. done. Qed.
Lemma json_of_object i js : base_type i = cJSON_Object -> members json_of (child i) = Some js -> json_of i = Some (JObj js).
Proof. intros E Hs. rewrite json_of_unfold, E, Hs. done. Qed.

(** A number that is one has a value as an [int]. *)
Lemma saturate_ok d : d <> NaN -> exists i, saturate d = Ret i /\ INT_MIN <= i <= INT_MAX.
Proof.
  intros Hd. unfold saturate. destruct (dge d INT_MAX) eqn:E1; [eexists; split; [done|vm_decide]|].
  destruct (dle d INT_MIN) eqn:E2; [eexists; split; [done|vm_decide]|]. destruct d as [sg m E|sg|]; [|by destruct sg|done].
  cbn [dge dle dtoint] in *. apply Z.leb_gt in E1, E2. unfold of_int_val in *. set (v := dval sg m E) in *. clearbody v.
  pose proof scale_facts as [HB _]. revert E1 E2 HB. generalize (2 ^ 1074). intros B E1 E2 HB.
  assert (INT_MIN <= v ÷ B <= INT_MAX) as Hr.
  { rewrite <- (Z.quot_mul INT_MIN B), <- (Z.quot_mul INT_MAX B) by lia. split; apply Z.quot_le_mono; lia. }
  unfold sint. rewrite bool_decide_true by done. eauto.
Qed.
