(* ===== verification/CJsonSafe.v ===== *)
(** * cJSON: the parser on any text

    Whatever text [cJSON_Parse] is given, it reads only inside the text,
    writes only inside the blocks it allocates, ends, and returns either no
    item or a well-typed tree within the nesting limit. *)

From stdpp Require Import base tactics numbers list option strings sets.
From Stdlib Require Import Lia.
From S2P Require Import Prelude Utf8 Double CJson CJsonSpec.

(** ** The input *)

(** The text [s] and its terminator, with the offset at a byte of them. *)
Record pb_ok (s : bytes) (b : parse_buffer) : Prop := {
  pb_content : exists r, content b = s ++ 0 :: r;
  pb_no_nul : no_nul s;
  pb_length : length_ b = zlen s + 1;
  pb_offset : 0 <= offset b <= zlen s
}.

(** [b'] is [b] with another offset. *)
Definition moved (b b' : parse_buffer) : Prop := content b' = content b /\ length_ b' = length_ b /\ depth b' = depth b.

Lemma moved_refl b : moved b b.
Proof. done. Qed.
Lemma moved_trans b1 b2 b3 : moved b1 b2 -> moved b2 b3 -> moved b1 b3.
Proof. unfold moved. intuition congruence. Qed.
Lemma moved_set_offset b o : moved b (set_offset b o).
Proof. done. Qed.

Lemma pb_ok_moved s b b' : pb_ok s b -> moved b b' -> 0 <= offset b' <= zlen s -> pb_ok s b'.
Proof. intros [[r Hr] Hn Hl Ho] (E1 & E2 & E3) Ho'. split; [rewrite E1; eauto|done|by rewrite E2|done]. Qed.

Lemma pb_ok_set_offset s b o : pb_ok s b -> 0 <= o <= zlen s -> pb_ok s (set_offset b o).
Proof. intros Hb Ho. by apply (pb_ok_moved s b). Qed.
Lemma pb_ok_set_depth s b d : pb_ok s b -> pb_ok s (set_depth b d).
Proof. intros [[r Hr] Hn Hl Ho]. split; cbn; eauto. Qed.

(** The byte at a position: zero only at the end. *)
Lemma content_get s b o : pb_ok s b -> 0 <= o <= zlen s ->
  exists c, arr_get (content b) o = Ret c /\ (c = 0 <-> o = zlen s).
Proof.
  intros [[r Hr] Hn Hl _] Ho. rewrite Hr. destruct (decide (o = zlen s)) as [->|Hne].
  - exists 0. by rewrite arr_get_middle.
  - destruct (znth_Some s o) as [c Hc]; [lia|]. exists c. unfold arr_get. rewrite znth_app, bool_decide_true by lia. rewrite Hc.
    split; [done|]. split; [|done]. intros ->. apply znth_elem_of in Hc. done.
Qed.

Lemma next_is_ok s b c : pb_ok s b -> exists r, next_is b c = Ret r /\ (r = true -> c <> 0 -> offset b < zlen s).
Proof.
  intros Hb. pose proof Hb as [_ _ Hl Ho]. unfold next_is, can_access_at_index, buffer_at_offset. rewrite Z.add_0_r.
  destruct (content_get s b (offset b) Hb Ho) as (x & -> & Hx). rewrite (proj2 (Z.ltb_lt _ _)), ret_bind by lia.
  eexists. split; [done|]. intros ->%Z.eqb_eq Hc. lia.
Qed.

Lemma skip_loop_ok s : forall n b, (exists r, content b = s ++ 0 :: r) -> no_nul s -> length_ b = zlen s + 1 ->
  0 <= offset b <= zlen s + 1 -> length_ b - offset b < Z.of_nat n ->
  exists o, skip_loop n b = Ret (set_offset b o) /\ offset b <= o <= zlen s + 1.
Proof.
  induction n as [|n IH]; intros b Hc Hn Hl Ho Hf; [lia|]. cbn [skip_loop]. unfold can_access_at_index, buffer_at_offset. rewrite Z.add_0_r.
  destruct (Z.ltb_spec (offset b) (length_ b)) as [Hlt|Hge]; [|exists (offset b); destruct b; split; [done|cbn in *; lia]].
  destruct (content_get s b (offset b)) as (x & -> & _); [split; try done; lia|lia|]. rewrite ret_bind.
  destruct (x <=? 32).
  - destruct (IH (set_offset b (offset b + 1))) as (o & -> & Ho'); cbn; try done; try lia. exists o. cbn in Ho'. split; [done|lia].
  - exists (offset b). destruct b. split; [done|cbn in *; lia].
Qed.

Lemma skip_ok s b : pb_ok s b -> exists b', buffer_skip_whitespace b = Ret b' /\ pb_ok s b' /\ moved b b' /\ offset b <= offset b'.
Proof.
  intros Hb. pose proof Hb as [Hc Hn Hl Ho]. unfold buffer_skip_whitespace.
  destruct (skip_loop_ok s (S (Z.to_nat (length_ b - offset b))) b Hc Hn Hl) as (o & -> & Ho'); [lia|lia|]. rewrite ret_bind.
  eexists. split; [done|]. cbn. destruct (Z.eqb_spec o (length_ b)) as [->|].
  - split_and!; [apply (pb_ok_set_offset s b (length_ b - 1)); [done|lia]|done..|cbn; lia].
  - split_and!; [apply pb_ok_set_offset; [done|lia]|done..|cbn; lia].
Qed.

(** ** Numbers *)
Lemma number_chars_ok s n : forall b i, pb_ok s b -> 0 <= i -> offset b + i <= zlen s + 1 ->
  exists l, number_chars n b i = Ret l /\ zlen l <= Z.of_nat n /\ (offset b + i <= zlen s -> offset b + i + zlen l <= zlen s).
Proof.
  induction n as [|n IH]; intros b i Hb Hi Ho; cbn [number_chars]; [exists []; split_and!; [done|zlia..]|].
  pose proof (pb_length _ _ Hb) as Hl. pose proof (pb_offset _ _ Hb). unfold can_access_at_index, buffer_at_offset.
  destruct (Z.ltb_spec (offset b + i) (length_ b)); [|exists []; split_and!; [done|zlia..]].
  destruct (content_get s b (offset b + i) Hb) as (c & -> & Hc); [lia|]. rewrite ret_bind.
  assert (c <> 0 -> exists l, number_chars n b (i + 1) = Ret l /\ zlen l <= Z.of_nat n /\ offset b + (i + 1) + zlen l <= zlen s) as Hnext.
  { intros Hc0. destruct (IH b (i + 1) Hb) as (l & -> & H1 & H2); [lia|lia|]. exists l. split_and!; [done|done|]. apply H2. lia. }
  destruct (is_digit c || (c =? 43) || (c =? 45) || (c =? 101) || (c =? 69)) eqn:Hd.
  - destruct Hnext as (l & -> & H1 & H2); [by intros ->|]. rewrite ret_bind. eexists. split; [done|]. rewrite zlen_cons. lia.
  - destruct (Z.eqb_spec c 46) as [->|]; [|exists []; split_and!; [done|zlia..]].
    destruct Hnext as (l & -> & H1 & H2); [done|]. rewrite ret_bind. eexists. split; [done|]. rewrite zlen_cons. lia.
Qed.

Lemma parse_number_ok s b item : pb_ok s b ->
  exists ok item' b', parse_number item b = Ret (ok, item', b') /\ pb_ok s b' /\ moved b b' /\ (ok = true -> offset b < offset b' /\ string item' = string item /\ (tidy item -> tidy item') /\ exists d, json_of item' = Some (JNum d) /\ canonical d /\ d <> NaN).
Proof.
  intros Hb. pose proof (pb_offset _ _ Hb) as Ho. unfold parse_number.
  destruct (number_chars_ok s 63 b 0 Hb) as (l & -> & _ & Hl); [lia|lia|]. rewrite ret_bind.
  destruct (strtod l) as [d n] eqn:Hd. apply strtod_bounds in Hd as (Hn & Hc & Hnan).
  destruct (Z.eqb_spec n 0); [exists false, item, b; done|]. destruct (saturate_ok d Hnan) as (i & -> & _). rewrite ret_bind.
  eexists _, _, _. split; [done|]. split; [apply pb_ok_set_offset; [done|lia]|]. split; [done|]. intros _. split; [cbn; lia|]. split; [done|]. split; [|cbn; eauto].
  intros Hp. apply tidy_set_type; [done|by apply tidy_set_number].
Qed.

(** ** Strings *)

(** The bytes a literal can decode to: an escape is one. *)
Fixpoint tokens (l : bytes) : Z :=
  match l with
  | [] => 0
  | 92 :: _ :: l => 1 + tokens l
  | _ :: l => 1 + tokens l
  end.

Lemma tokens_cons_ne c l : c <> 92 -> tokens (c :: l) = 1 + tokens l.
Proof. intros Hc. destruct c as [|p|]; try done. do 7 (destruct p as [p|p|]; try done). Qed.
Lemma tokens_escape c l : tokens (92 :: c :: l) = 1 + tokens l.
Proof. done. Qed.
Lemma tokens_mono l : forall c, 0 <= tokens l <= tokens (c :: l) /\ tokens (c :: l) <= 1 + tokens l.
Proof.
  induction l as [|d l IH]; intros c.
  - destruct (decide (c = 92)) as [->|]; [cbn; lia|]. rewrite tokens_cons_ne by done. cbn. lia.
  - pose proof (IH d). destruct (decide (c = 92)) as [->|]; [rewrite tokens_escape|rewrite (tokens_cons_ne c) by done]; lia.
Qed.
Lemma tokens_pair c d l : 1 + tokens l <= tokens (c :: d :: l).
Proof.
  destruct (decide (c = 92)) as [->|]; [rewrite tokens_escape; lia|]. rewrite tokens_cons_ne by done. pose proof (tokens_mono l d). lia.
Qed.

Lemma zdrop_znth {A} (l : list A) o x : znth l o = Some x -> zdrop o l = x :: zdrop (o + 1) l.
Proof.
  unfold znth, zdrop. case_bool_decide; [|done]. intros Hx. rewrite (drop_S _ _ _ Hx). do 2 f_equal. lia.
Qed.

Lemma string_scan_ok s b : pb_ok s b -> forall n o sk, 0 <= o <= zlen s + 1 -> length_ b - o < Z.of_nat n ->
  exists r, string_scan n b o sk = Ret r /\
    match r with
    | None => True
    | Some (e, sk') => exists lit post, zdrop o s = lit ++ 34 :: post /\ e = o + zlen lit /\ sk' = sk + (zlen lit - tokens lit) /\ e < zlen s
    end.
Proof.
  intros Hb. pose proof (pb_length _ _ Hb) as Hl. induction n as [|n IH]; intros o sk Ho Hf; [lia|]. cbn [string_scan].
  destruct (Z.ltb_spec o (length_ b)); [|by eexists]. destruct (content_get s b o Hb) as (c & Hc & Hc0); [lia|]. rewrite Hc, ret_bind.
  assert (o < zlen s -> zdrop o s = c :: zdrop (o + 1) s) as Hdrop.
  { intros Hlt. destruct (pb_content _ _ Hb) as [r Hr]. rewrite Hr in Hc. unfold arr_get in Hc. rewrite znth_app, bool_decide_true in Hc by lia.
    apply zdrop_znth. by destruct (znth s o); [injection Hc as ->|]. }
  destruct (Z.eqb_spec c 34) as [->|Hc34].
  - eexists. split; [done|]. exists [], (zdrop (o + 1) s). rewrite Hdrop by lia. split_and!; [done|zlia|change (tokens []) with 0; zlia|lia].
  - destruct (Z.eqb_spec c 92) as [->|Hc92].
    + destruct (Z.leb_spec (length_ b) (o + 1)); [by eexists|].
      destruct (IH (o + 2) (sk + 1)) as (r & -> & Hr); [lia|lia|]. exists r. split; [done|]. destruct r as [[e sk']|]; [|done].
      destruct Hr as (lit & post & E1 & -> & -> & He). zlen_facts.
      destruct (znth_Some s (o + 1)) as [d Hd]; [lia|]. exists (92 :: d :: lit), post. rewrite Hdrop, (zdrop_znth _ _ _ Hd) by lia.
      replace (o + 1 + 1) with (o + 2) by lia. rewrite E1, tokens_escape, !zlen_cons. split_and!; [done|lia..].
    + destruct (IH (o + 1) sk) as (r & -> & Hr); [lia|lia|]. exists r. split; [done|]. destruct r as [[e sk']|]; [|done].
      destruct Hr as (lit & post & E1 & -> & -> & He). zlen_facts.
      exists (c :: lit), post. rewrite Hdrop, E1, tokens_cons_ne, zlen_cons by (lia || done). split_and!; [done|lia..].
Qed.


(** *** Escapes *)
Lemma hex_value_range c v : hex_value c = Some v -> 0 <= v <= 15.
Proof.
  unfold hex_value. do 3 (destruct (_ && _) eqn:E; [apply andb_true_iff in E as [?%Z.leb_le ?%Z.leb_le]; intros [= <-]; lia|clear E]). done.
Qed.

Lemma hex4_loop_ok content n : forall p h, 0 <= p -> p + Z.of_nat n <= zlen content -> (n <= 4)%nat ->
  0 <= h -> (n <> 0%nat -> h + 15 < 16 ^ (5 - Z.of_nat n)) -> h < 16 ^ 4 ->
  exists v, hex4_loop n content p h = Ret v /\ 0 <= v < 65536.
Proof.
  induction n as [|n IH]; intros p h Hp Hl Hn Hh Hb Hh4; cbn [hex4_loop]; [exists h; split; [done|lia]|].
  unfold arr_get. destruct (znth_Some content p) as [c ->]; [lia|]. cbn [deref]. rewrite ret_bind.
  destruct (hex_value c) as [v|] eqn:Hv; [|exists 0; split; [done|lia]]. apply hex_value_range in Hv. specialize (Hb ltac:(done)).
  destruct n as [|n].
  - change (16 ^ (5 - Z.of_nat 1)) with 65536 in Hb. apply (IH (p + 1) (h + v)); lia.
  - rewrite Z.shiftl_mul_pow2 by lia. change (2 ^ 4) with 16.
    assert (16 ^ (5 - Z.of_nat (S (S n))) * 16 = 16 ^ (5 - Z.of_nat (S n))) as E.
    { change 16 with (16 ^ 1) at 2. rewrite <- Z.pow_add_r by lia. f_equal. lia. }
    assert (16 ^ (5 - Z.of_nat (S n)) <= 16 ^ 4) by (apply Z.pow_le_mono_r; lia). change (16 ^ 4) with 65536 in *.
    rewrite wrapu_small by lia. apply IH; lia.
Qed.

Lemma parse_hex4_ok content p : 0 <= p -> p + 4 <= zlen content -> exists v, parse_hex4 content p = Ret v /\ 0 <= v < 65536.
Proof. intros Hp Hl. apply hex4_loop_ok; try lia. Qed.

Lemma surrogate_pair a b : 55296 <= a <= 56319 -> 56320 <= b <= 57343 ->
  65536 + Z.lor (Z.shiftl (Z.land a 1023) 10) (Z.land b 1023) = 65536 + (a - 55296) * 1024 + (b - 56320).
Proof.
  intros Ha Hb. change 1023 with (Z.ones 10). rewrite !Z.land_ones by lia. change (2 ^ 10) with 1024.
  rewrite lor_shiftl_add by (change (2 ^ 10) with 1024; pose proof (Z.mod_pos_bound b 1024); lia). change (2 ^ 10) with 1024.
  rewrite <- (Z.mod_unique a 1024 54 (a - 55296)), <- (Z.mod_unique b 1024 55 (b - 56320)) by lia. lia.
Qed.

(** An escape of six bytes gives a number of 16 bits, one of twelve a code
    point above. *)
Lemma utf16_codepoint_ok content p e : 0 <= p -> e <= zlen content ->
  exists r, utf16_codepoint content p e = Ret r /\
    match r with
    | None => True
    | Some (cp, len) => 0 <= cp <= 1114111 /\
        (len = 6 /\ p + 6 <= e /\ cp < 65536 \/ len = 12 /\ p + 12 <= e /\ arr_get content (p + 6) = Ret 92)
    end.
Proof.
  intros Hp He. unfold utf16_codepoint. destruct (Z.ltb_spec (e - p) 6); [by eexists|].
  destruct (parse_hex4_ok content (p + 2)) as (a & -> & Ha); [lia|lia|]. rewrite ret_bind.
  destruct ((56320 <=? a) && (a <=? 57343)) eqn:E1; [by eexists|]. destruct ((55296 <=? a) && (a <=? 56319)) eqn:E2.
  2: { eexists. split; [done|]. cbn. lia. }
  destruct (Z.ltb_spec (e - (p + 6)) 6); [by eexists|]. unfold arr_get. destruct (znth_Some content (p + 6)) as [c ->]; [lia|]. cbn [deref].
  rewrite ret_bind. destruct (Z.eqb_spec c 92) as [->|]; [|by eexists]. cbn [negb]. destruct (znth_Some content (p + 6 + 1)) as [c ->]; [lia|]. cbn [deref].
  rewrite ret_bind. destruct (Z.eqb_spec c 117) as [->|]; [|by eexists]. cbn [negb].
  destruct (parse_hex4_ok content (p + 6 + 2)) as (b & -> & Hb); [lia|lia|]. rewrite ret_bind.
  destruct ((b <? 56320) || (57343 <? b)) eqn:E3; [by eexists|]. eexists. split; [done|]. cbn.
  rewrite andb_true_iff, !Z.leb_le in E2. rewrite orb_false_iff, !Z.ltb_ge in E3. rewrite surrogate_pair by lia. split; [lia|right; split_and!; (lia || done)].
Qed.

(** *** UTF-8 *)
Lemma continuation_byte c : 0 <= c -> u8 (Z.land (Z.lor c 128) 191) = 128 + c mod 64.
Proof.
  intros Hc. change 191 with (Z.land 255 191). rewrite Z.land_assoc, Z.land_lor_distr_l. change (Z.land 128 255) with 128.
  change 255 with (Z.ones 8) at 1. rewrite Z.land_ones by lia. change (2 ^ 8) with 256.
  assert (forall b, is_byte b -> u8 (Z.land (Z.lor b 128) 191) = 128 + b mod 64) as Hb by (apply (byte_forall _); vm_compute; reflexivity).
  rewrite Hb by (unfold is_byte; apply Z.mod_pos_bound; lia). f_equal. change 256 with (64 * 4). rewrite Z.rem_mul_r by lia.
  rewrite Z.mul_comm, Z.mod_add, Z.mod_mod by lia. done.
Qed.

Lemma arr_set_ok (l : bytes) a x b c : l = a ++ x :: b -> arr_set l (zlen a) c = Ret (a ++ c :: b).
Proof. intros ->. apply arr_set_middle. Qed.

Lemma first_bytes c : is_byte c ->
  (c < 32 -> u8 (Z.land (Z.lor c 192) 255) = 192 + c) /\ (c < 16 -> u8 (Z.land (Z.lor c 224) 255) = 224 + c) /\
  (c < 8 -> u8 (Z.land (Z.lor c 240) 255) = 240 + c) /\ (c < 128 -> u8 (Z.land c 127) = c).
Proof. intros Hc. revert c Hc. apply (byte_forall _). vm_compute. reflexivity. Qed.

Lemma arr_set_at a m (x : Z) b c k : zlen m = k -> arr_set (a ++ m ++ x :: b) (zlen a + k) c = Ret (a ++ m ++ c :: b).
Proof. intros <-. rewrite <- zlen_app, app_assoc, arr_set_middle. by rewrite <- app_assoc. Qed.

Lemma zlen_enc c : zlen (enc c) = if c <? 128 then 1 else if c <? 2048 then 2 else if c <? 65536 then 3 else 4.
Proof. unfold enc. destruct (_ <? _); [done|]. destruct (_ <? _); [done|]. by destruct (_ <? _). Qed.

Lemma shiftr_6 c : Z.shiftr c 6 = c / 64.
Proof. by rewrite Z.shiftr_div_pow2. Qed.

(** The encoding is written over the bytes [d]. *)
Lemma utf8_write_ok cp a d b : 0 <= cp <= 1114111 -> zlen d = zlen (enc cp) ->
  utf8_write cp (a ++ d ++ b) (zlen a) = Ret (Some (a ++ enc cp ++ b, zlen a + zlen (enc cp))).
Proof.
  intros Hcp Hd. unfold utf8_write, utf8_form. rewrite zlen_enc in *. unfold enc.
  assert (forall l : bytes, zlen l = 1 -> exists x, l = [x]) as Hl1 by (intros [|x [|? ?]] Hl; [done|eauto|zlia]).
  assert (forall n (l : bytes), zlen l = 1 + n -> 0 <= n -> exists x l', l = x :: l' /\ zlen l' = n) as HlS.
  { intros n [|x l] Hl Hn; [change (zlen []) with 0 in Hl; lia|]. exists x, l. split; [done|zlia]. }
  assert (forall x y, 0 <= x -> 0 < y -> 0 <= x / y) as Hdiv by (intros; apply Z.div_pos; lia).
  destruct (Z.ltb_spec cp 128); [|destruct (Z.ltb_spec cp 2048); [|destruct (Z.ltb_spec cp 65536)]].
  - destruct (Hl1 d Hd) as [x ->]. cbn [utf8_tail Nat.sub]. rewrite ret_bind.
    destruct (first_bytes cp ltac:(unfold is_byte; lia)) as (_ & _ & _ & Hfb). rewrite bool_decide_false, Hfb by lia.
    change ([x] ++ b) with (x :: b). by rewrite arr_set_middle, ret_bind.
  - destruct (HlS 1 d Hd) as (x0 & d1 & -> & Hd1); [lia|]. destruct (Hl1 d1 Hd1) as [x1 ->]. cbn [utf8_tail Nat.sub].
    rewrite !shiftr_6, (continuation_byte cp) by lia. change ([x0; x1] ++ b) with ([x0] ++ x1 :: b). rewrite arr_set_at, !ret_bind by done.
    assert (cp / 64 < 32) by (apply Z.div_lt_upper_bound; lia). destruct (first_bytes (cp / 64)) as (Hfb & _); [unfold is_byte; split; [apply Hdiv; lia|lia]|].
    rewrite bool_decide_true, Hfb by lia. cbn [app]. by rewrite arr_set_middle, ret_bind.
  - destruct (HlS 2 d Hd) as (x0 & d1 & -> & Hd1); [lia|]. destruct (HlS 1 d1 Hd1) as (x1 & d2 & -> & Hd2); [lia|]. destruct (Hl1 d2 Hd2) as [x2 ->]. cbn [utf8_tail Nat.sub].
    rewrite !shiftr_6, !Z.div_div, (continuation_byte cp), (continuation_byte (cp / 64)) by (lia || (apply Hdiv; lia)).
    change ([x0; x1; x2] ++ b) with ([x0; x1] ++ x2 :: b). rewrite arr_set_at, !ret_bind by done.
    change ([x0; x1] ++ ?r) with ([x0] ++ x1 :: r). rewrite arr_set_at, !ret_bind by done.
    change (64 * 64) with 4096. assert (cp / 4096 < 16) by (apply Z.div_lt_upper_bound; lia).
    destruct (first_bytes (cp / 4096)) as (_ & Hfb & _); [unfold is_byte; split; [apply Hdiv; lia|lia]|].
    rewrite bool_decide_true, Hfb by lia. cbn [app]. by rewrite arr_set_middle, ret_bind.
  - destruct (HlS 3 d Hd) as (x0 & d1 & -> & Hd1); [lia|]. destruct (HlS 2 d1 Hd1) as (x1 & d2 & -> & Hd2); [lia|].
    destruct (HlS 1 d2 Hd2) as (x2 & d3 & -> & Hd3); [lia|]. destruct (Hl1 d3 Hd3) as [x3 ->]. rewrite (proj2 (Z.leb_le _ _)) by lia. cbn [utf8_tail Nat.sub].
    rewrite !shiftr_6, !Z.div_div by lia. change (64 * 64) with 4096. change (4096 * 64) with 262144. change (64 * 4096) with 262144.
    rewrite (continuation_byte cp), (continuation_byte (cp / 64)), (continuation_byte (cp / 4096)) by (lia || (apply Hdiv; lia)).
    change ([x0; x1; x2; x3] ++ b) with ([x0; x1; x2] ++ x3 :: b). rewrite arr_set_at, !ret_bind by done.
    change ([x0; x1; x2] ++ ?r) with ([x0; x1] ++ x2 :: r). rewrite arr_set_at, !ret_bind by done.
    change ([x0; x1] ++ ?r) with ([x0] ++ x1 :: r). rewrite arr_set_at, !ret_bind by done.
    assert (cp / 262144 < 8) by (apply Z.div_lt_upper_bound; lia).
    destruct (first_bytes (cp / 262144)) as (_ & _ & Hfb & _); [unfold is_byte; split; [apply Hdiv; lia|lia]|].
    rewrite bool_decide_true, Hfb by lia. cbn [app]. by rewrite arr_set_middle, ret_bind.
Qed.

Lemma arr_get_behind (a m : bytes) x b k : zlen m = k -> arr_get (a ++ m ++ x :: b) (zlen a + k) = Ret x.
Proof. intros <-. rewrite <- zlen_app, app_assoc. apply arr_get_middle. Qed.

Lemma tokens_6 a b c d e f l : 3 + tokens l <= tokens (a :: b :: c :: d :: e :: f :: l).
Proof.
  pose proof (tokens_pair a b (c :: d :: e :: f :: l)). pose proof (tokens_pair c d (e :: f :: l)). pose proof (tokens_pair e f l). lia.
Qed.

Lemma tokens_drop_6 l : 6 <= zlen l -> 3 + tokens (zdrop 6 l) <= tokens l.
Proof.
  intros Hl. do 6 (destruct l as [|? l]; [exfalso; clear - Hl; unfold zlen in Hl; cbn in Hl; lia|]). apply tokens_6.
Qed.

(** The parser of a literal stays inside the block that was measured for it,
    also where it takes the text apart differently than the scan did. *)
Lemma string_loop_ok post : forall n pre lit o1 d, zlen lit <= Z.of_nat n -> tokens lit < zlen d ->
  exists r p', string_loop n (pre ++ lit ++ 34 :: post) (zlen pre) (zlen pre + zlen lit) (o1 ++ d) (zlen o1) = Ret (r, p') /\
    match r with
    | None => zlen pre <= p' < zlen pre + zlen lit
    | Some (output, out) => exists o2 x d', output = o2 ++ x :: d' /\ out = zlen o2
    end.
Proof.
  induction n as [|n IH]; intros pre lit o1 d Hn Ht.
  { assert (lit = []) as -> by (apply zlen_nil_inv; zlen_facts; lia). cbn [string_loop]. rewrite (proj2 (Z.ltb_ge _ _)) by zlia.
    destruct d as [|x d]; [zlen_facts; change (zlen []) with 0 in *; cbn [tokens] in Ht; lia|]. eexists _, _. split; [done|]. by exists o1, x, d. }
  destruct lit as [|c lit].
  { cbn [string_loop]. rewrite (proj2 (Z.ltb_ge _ _)) by zlia. destruct d as [|x d]; [cbn [tokens] in Ht; change (zlen []) with 0 in *; lia|].
    eexists _, _. split; [done|]. by exists o1, x, d. }
  rewrite zlen_cons in *. zlen_facts. cbn [string_loop]. rewrite (proj2 (Z.ltb_lt _ _)) by lia.
  change (pre ++ (c :: lit) ++ 34 :: post) with (pre ++ c :: lit ++ 34 :: post). rewrite arr_get_middle, ret_bind.
  pose proof (tokens_mono lit c) as Hmono.
  (* one byte is written, and the loop goes on after [m] *)
  assert (forall x m lit', c :: lit = m ++ lit' -> tokens lit' + 1 <= tokens (c :: lit) -> m <> [] ->
    exists r p', (let! output := arr_set (o1 ++ d) (zlen o1) x in
      string_loop n (pre ++ c :: lit ++ 34 :: post) (zlen pre + zlen m) (zlen pre + (1 + zlen lit)) output (zlen o1 + 1)) = Ret (r, p') /\
    match r with
    | None => zlen pre <= p' < zlen pre + (1 + zlen lit)
    | Some (output, out) => exists o2 x d', output = o2 ++ x :: d' /\ out = zlen o2
    end) as Hwrite.
  { intros x m lit' E Ht' Hm. pose proof (tokens_mono lit' 0) as Hm0. destruct d as [|y d]; [change (zlen []) with 0 in Ht; lia|]. rewrite arr_set_middle, ret_bind.
    assert (1 + zlen lit = zlen m + zlen lit') as El by (rewrite <- (zlen_cons c lit), E; zlia).
    assert (0 < zlen m) as Hm1 by (destruct m; [done|zlia]). rewrite zlen_cons in Ht.
    destruct (IH (pre ++ m) lit' (o1 ++ [x]) d) as (r & p' & E2 & Hr); [lia|lia|]. exists r, p'. split.
    - rewrite <- E2. f_equal; [|zlia|zlia|by rewrite <- app_assoc|zlia]. rewrite <- app_assoc. f_equal.
      change (c :: lit ++ 34 :: post) with ((c :: lit) ++ 34 :: post). by rewrite E, <- app_assoc.
    - destruct r as [[output out]|]; [done|]. rewrite zlen_app in Hr. zlen_facts. lia. }
  destruct (Z.eqb_spec c 92) as [->|Hc]; cbn [negb].
  2: { rewrite (tokens_cons_ne c lit Hc) in *. apply (Hwrite c [c] lit); [done|lia|done]. }
  rewrite (proj2 (Z.ltb_ge _ _)) by lia. destruct lit as [|c lit].
  { (* a backslash at the very end *)
    cbn [app]. change (pre ++ 92 :: 34 :: post) with (pre ++ [92] ++ 34 :: post). rewrite (arr_get_behind pre [92]), ret_bind by done. cbn [escape_char].
    change (zlen []) with 0 in *. destruct d as [|y d]; [change (zlen []) with 0 in Ht; cbn in Ht; lia|].
    change (escape_char 34) with (Some 34). cbn iota. rewrite arr_set_middle, ret_bind. destruct d as [|z d]; [rewrite zlen_cons in Ht; change (zlen []) with 0 in Ht; cbn [tokens] in Ht; lia|].
    exists (Some (o1 ++ 34 :: z :: d, zlen o1 + 1)), (zlen pre + 2). split.
    - destruct n; cbn [string_loop]; by rewrite (proj2 (Z.ltb_ge _ _)) by lia.
    - exists (o1 ++ [34]), z, d. split; [by rewrite <- app_assoc|zlia]. }
  rewrite tokens_escape in *. change (pre ++ 92 :: (c :: lit) ++ 34 :: post) with (pre ++ [92] ++ c :: lit ++ 34 :: post). rewrite (arr_get_behind pre [92]), ret_bind by done.
  change (pre ++ [92] ++ c :: lit ++ 34 :: post) with (pre ++ 92 :: (c :: lit) ++ 34 :: post).
  destruct (escape_char c) as [x|]; [apply (Hwrite x [92; c] lit); [done|lia|done]|].
  destruct (Z.eqb_spec c 117) as [->|]; [|eexists _, _; split; [done|cbn; zlen_facts; lia]].
  set (full := 92 :: 117 :: lit) in *. change (pre ++ 92 :: (117 :: lit) ++ 34 :: post) with (pre ++ full ++ 34 :: post) in *.
  assert (1 + zlen (117 :: lit) = zlen full) as El by (unfold full; zlia). rewrite El in *. change (1 + tokens lit) with (tokens full) in *.
  unfold utf16_literal_to_utf8. zlen_facts.
  destruct (utf16_codepoint_ok (pre ++ full ++ 34 :: post) (zlen pre) (zlen pre + zlen full)) as (r & -> & Hr); [lia|zlia|]. rewrite ret_bind.
  destruct r as [[cp len]|]; [|rewrite ret_bind; cbn [Z.eqb]; eexists _, _; split; [done|cbn; unfold full; zlia]].
  destruct Hr as (Hcp & Hlen).
  assert (6 <= len <= zlen full /\ zlen (enc cp) + tokens (zdrop len full) <= tokens full) as [Hlf Htok].
  { rewrite zlen_enc. destruct Hlen as [(-> & L1 & L2)|(-> & L1 & _)].
    - pose proof (tokens_drop_6 full). split; [lia|]. destruct (cp <? 128), (cp <? 2048); try lia; rewrite (proj2 (Z.ltb_lt _ _)) by lia; lia.
    - pose proof (tokens_drop_6 full). pose proof (tokens_drop_6 (zdrop 6 full)) as H12. rewrite zdrop_zdrop in H12 by lia. change (6 + 6) with 12 in H12.
      rewrite zlen_zdrop in H12. split; [lia|]. destruct (cp <? 128), (cp <? 2048), (cp <? 65536); lia. }
  pose proof (tokens_mono (zdrop len full) 0) as Hm0.
  assert (d = ztake (zlen (enc cp)) d ++ zdrop (zlen (enc cp)) d) as Hd by (by rewrite ztake_zdrop).
  assert (zlen (enc cp) <= zlen d) as Hde by lia. pose proof (zlen_nonneg (enc cp)) as He0.
  rewrite Hd, utf8_write_ok, ret_bind by (done || (rewrite zlen_ztake; lia)). rewrite ret_bind. rewrite (proj2 (Z.eqb_neq _ _)) by lia.
  destruct (IH (pre ++ ztake len full) (zdrop len full) (o1 ++ enc cp) (zdrop (zlen (enc cp)) d)) as (r & p' & E2 & Hr).
  { rewrite zlen_zdrop. lia. }
  { rewrite zlen_zdrop. lia. }
  exists r, p'. rewrite zlen_app, zlen_ztake in *. rewrite zlen_zdrop in *. split.
  - rewrite <- E2. f_equal; [|lia|lia|by rewrite <- app_assoc|by rewrite zlen_app].
    rewrite <- app_assoc. f_equal. by rewrite app_assoc, ztake_zdrop.
  - destruct r as [[output out]|]; [done|]. lia.
Qed.

(** What a parsing function gives: on success the input has moved on and the
    item is as [good] says. *)
Definition parsed (s : bytes) (b : parse_buffer) (good : cJSON -> Prop) (r : bool * cJSON * parse_buffer) : Prop :=
  let '(ok, item, b') := r in
  content b' = content b /\ length_ b' = length_ b /\ 0 <= offset b' /\
  (ok = true -> pb_ok s b' /\ depth b' = depth b /\ offset b < offset b' /\ good item).

Lemma parsed_fail s b P item b' : content b' = content b -> length_ b' = length_ b -> 0 <= offset b' -> parsed s b P (false, item, b').
Proof. by intros. Qed.

Lemma parsed_impl s b (P Q : cJSON -> Prop) r : (forall i, P i -> Q i) -> parsed s b P r -> parsed s b Q r.
Proof. destruct r as [[ok i] b']. cbn. intros HPQ (H1 & H2 & H3 & H4). split_and!; try done. intros Hok. destruct (H4 Hok) as (? & ? & ? & ?). auto. Qed.

Lemma block_nul o d : exists s r, o ++ 0 :: d = s ++ 0 :: r /\ no_nul s.
Proof.
  induction o as [|x o (s & r & E & Hs)]; [exists [], d; split; [done|apply not_elem_of_nil]|].
  destruct (decide (x = 0)) as [->|Hx]; [exists [], (o ++ 0 :: d); split; [done|apply not_elem_of_nil]|].
  exists (x :: s), r. split; [by rewrite <- !app_comm_cons, E|]. apply no_nul_cons. done.
Qed.

Section safe.
Context `{Allocator} `{Memory}.

Lemma zlen_new_block n : 0 <= n -> zlen (new_block n) = n.
Proof. intros Hn. unfold zlen, new_block. rewrite length_fmap, length_seqZ. lia. Qed.

(** The item has the string, and keeps everything else. *)
Definition is_string_of (item item' : cJSON) : Prop :=
  exists t r, no_nul t /\ item' = set_valuestring (set_type item cJSON_String) (Some (t ++ 0 :: r)).

Lemma parse_string_ok s b item : pb_ok s b -> exists r, parse_string item b = Ret r /\ parsed s b (is_string_of item) r.
Proof.
  intros Hb. pose proof (pb_offset _ _ Hb) as Ho. pose proof (pb_length _ _ Hb) as Hl. unfold parse_string, buffer_at_offset. rewrite Z.add_0_r.
  destruct (content_get s b (offset b) Hb Ho) as (c & -> & Hc). rewrite ret_bind.
  destruct (Z.eqb_spec c 34) as [->|]; cbn [negb]; [|eexists; split; [done|]; apply parsed_fail; [done|done|cbn; lia]].
  destruct (string_scan_ok s b Hb (S (Z.to_nat (length_ b - offset b))) (offset b + 1) 0) as (r & -> & Hr); [lia|lia|]. rewrite ret_bind.
  destruct r as [[e sk]|]; [|eexists; split; [done|]; apply parsed_fail; [done|done|cbn; lia]]. destruct Hr as (lit & post & Hs & -> & -> & He).
  replace (offset b + 1 + zlen lit - offset b - (0 + (zlen lit - tokens lit))) with (1 + tokens lit) by lia. pose proof (tokens_mono lit 0) as Htok.
  unfold malloc. destruct (alloc_ok _); [|eexists; split; [done|]; apply parsed_fail; [done|done|cbn; lia]].
  destruct (pb_content _ _ Hb) as [rest Hcont]. zlen_facts.
  assert (zlen (ztake (offset b + 1) s) = offset b + 1) as Hpre by zlia.
  destruct (string_loop_ok (post ++ 0 :: rest) (Z.to_nat (offset b + 1 + zlen lit - (offset b + 1))) (ztake (offset b + 1) s) lit [] (new_block (1 + tokens lit + 1)))
    as (r & p' & E & Hr); [lia|rewrite zlen_new_block by lia; lia|].
  rewrite Hpre in E. cbn [app] in E. change (zlen []) with 0 in E.
  assert (content b = ztake (offset b + 1) s ++ lit ++ 34 :: post ++ 0 :: rest) as Hcont'.
  { rewrite Hcont. rewrite <- (ztake_zdrop (offset b + 1) s) at 1. by rewrite Hs, <- !app_assoc. }
  rewrite Hcont', E, ret_bind. destruct r as [[output out]|]; [|eexists; split; [done|]; apply parsed_fail; [done|done|cbn; lia]].
  destruct Hr as (o2 & x & d' & -> & ->). rewrite arr_set_middle, ret_bind. eexists. split; [done|]. cbn. split_and!; [done|done|lia|].
  intros _. destruct (block_nul o2 d') as (t & r & -> & Ht). split_and!.
  - apply (pb_ok_set_offset s b (offset b + 1 + zlen lit + 1)); [done|lia].
  - done.
  - lia.
  - by exists t, r.
Qed.

(** *** Values *)

(** The item stands for a value of at most [k] levels, and keeps its name. *)
Definition is_value (k : nat) (item item' : cJSON) : Prop :=
  string item' = string item /\ (tidy item -> tidy item') /\ exists j, json_of item' = Some j /\ json_ok j /\ (nesting j <= k)%nat.

(** Elements of an array, members of an object. *)
Definition element_list (k : nat) (l : list cJSON) : Prop :=
  Forall tidy l /\ exists js, elements json_of l = Some js /\ Forall json_ok js /\ Forall (fun j => (nesting j <= k)%nat) js.
Definition member_list (k : nat) (l : list cJSON) : Prop :=
  Forall tidy l /\ exists js, members json_of l = Some js /\ Forall (fun kv => no_nul kv.1 /\ json_ok kv.2) js /\ Forall (fun kv => (nesting kv.2 <= k)%nat) js.

Lemma element_list_snoc k l i : element_list k l -> (exists i0, tidy i0 /\ is_value k i0 i) -> element_list k (l ++ [i]).
Proof.
  intros (Hl & js & H1 & H2 & H3) (i0 & Hp0 & _ & Hp & j & Hj & Hok & Hn). split; [apply Forall_app; auto|]. exists (js ++ [j]). split_and!.
  - apply elements_app; [done|]. cbn [elements]. by rewrite Hj.
  - apply Forall_app. auto.
  - apply Forall_app. auto.
Qed.

Lemma member_list_snoc k l i i0 t r : member_list k l -> no_nul t -> string i0 = Some (t ++ 0 :: r) -> tidy i0 -> is_value k i0 i -> member_list k (l ++ [i]).
Proof.
  intros (Hl & js & H1 & H2 & H3) Ht Hs Hp0 (Hsi & Hp & j & Hj & Hok & Hn). split; [apply Forall_app; auto|]. exists (js ++ [(t, j)]). split_and!.
  - apply members_app; [done|]. cbn [members]. by rewrite Hsi, Hs, block_str_ok, Hj.
  - apply Forall_app. auto.
  - apply Forall_app. auto.
Qed.

Lemma new_item_tidy i : cJSON_New_Item = Some i -> tidy i.
Proof. unfold cJSON_New_Item. destruct (malloc _); [|done]. intros [= <-]. by apply tidy_Item. Qed.

Section containers.
Context (s : bytes) (pv : cJSON -> parse_buffer -> outcome (bool * cJSON * parse_buffer)) (k : nat) (D : Z).
Hypothesis pv_ok : forall item b, pb_ok s b -> depth b = D -> exists r, pv item b = Ret r /\ parsed s b (is_value k item) r.

(** What a loop over the elements gives. *)
Definition listed (good : list cJSON -> Prop) (b : parse_buffer) (r : option (list cJSON) * parse_buffer) : Prop :=
  content r.2 = content b /\ length_ r.2 = length_ b /\ 0 <= offset r.2 /\
  forall l, r.1 = Some l -> pb_ok s r.2 /\ depth r.2 = D /\ offset b < offset r.2 /\ good l.

Lemma listed_fail good b b' : content b' = content b -> length_ b' = length_ b -> 0 <= offset b' -> listed good b (None, b').
Proof. by intros. Qed.

Lemma listed_later good b b1 r : content b1 = content b -> length_ b1 = length_ b -> offset b <= offset b1 -> listed good b1 r -> listed good b r.
Proof.
  intros E1 E2 Ho (H1 & H2 & H3 & H4). split_and!; [congruence|congruence|done|]. intros l Hl. destruct (H4 l Hl) as (? & ? & ? & ?). split_and!; [done|done|lia|done].
Qed.

Lemma array_loop_ok : forall n b head, pb_ok s b -> offset b < zlen s -> depth b = D -> length_ b - offset b < Z.of_nat n -> element_list k head ->
  exists r, array_loop pv n b head = Ret r /\ listed (element_list k) b r.
Proof.
  induction n as [|n IH]; intros b head Hb Ho HD Hf Hhead; [pose proof (pb_length _ _ Hb); lia|]. pose proof (pb_offset _ _ Hb) as Hob. cbn [array_loop].
  destruct cJSON_New_Item as [item|] eqn:Hnew; [|eexists; split; [done|]; apply listed_fail; [done|done|lia]].
  destruct (skip_ok s (set_offset b (offset b + 1))) as (b1 & -> & Hb1 & (C1 & L1 & D1) & O1); [apply pb_ok_set_offset; [done|lia]|]. rewrite ret_bind. cbn in C1, L1, D1, O1.
  destruct (pv_ok item b1 Hb1) as ([[ok i] b2] & -> & C2 & L2 & O2 & Hok); [congruence|]. rewrite ret_bind.
  destruct ok; cbn [negb]; [|eexists; split; [done|]; apply listed_fail; [congruence|congruence|done]]. destruct (Hok eq_refl) as (Hb2 & D2 & O2' & Hi).
  destruct (skip_ok s b2 Hb2) as (b3 & -> & Hb3 & (C3 & L3 & D3) & O3). rewrite ret_bind.
  destruct (next_is_ok s b3 44 Hb3) as (more & -> & Hmore). rewrite ret_bind. pose proof (element_list_snoc k head i Hhead (ex_intro (fun i0 => tidy i0 /\ is_value k i0 i) item (conj (new_item_tidy _ Hnew) Hi))) as Hsnoc.
  destruct more.
  - destruct (IH b3 (head ++ [i])) as (r & -> & Hr); [done|by apply Hmore|congruence|lia|done|]. exists r. split; [done|].
    apply (listed_later _ b b3); [congruence|congruence|lia|done].
  - eexists. split; [done|]. cbn. split_and!; [cbn; congruence|cbn; congruence|cbn; lia|]. cbn. intros l [= <-]. split_and!; [done|congruence|lia|done].
Qed.

Lemma object_loop_ok : forall n b head, pb_ok s b -> offset b < zlen s -> depth b = D -> length_ b - offset b < Z.of_nat n -> member_list k head ->
  exists r, object_loop pv n b head = Ret r /\ listed (member_list k) b r.
Proof.
  induction n as [|n IH]; intros b head Hb Ho HD Hf Hhead; [pose proof (pb_length _ _ Hb); lia|]. pose proof (pb_offset _ _ Hb) as Hob. cbn [object_loop].
  destruct cJSON_New_Item as [item|] eqn:Hnew; [|eexists; split; [done|]; apply listed_fail; [done|done|lia]].
  destruct (skip_ok s (set_offset b (offset b + 1))) as (b1 & -> & Hb1 & (C1 & L1 & D1) & O1); [apply pb_ok_set_offset; [done|lia]|]. rewrite ret_bind. cbn in C1, L1, D1, O1.
  destruct (parse_string_ok s b1 item Hb1) as ([[ok i] b2] & -> & C2 & L2 & O2 & Hok). rewrite ret_bind.
  destruct ok; cbn [negb]; [|eexists; split; [done|]; apply listed_fail; [congruence|congruence|done]]. destruct (Hok eq_refl) as (Hb2 & D2 & O2' & t & r & Ht & ->).
  destruct (skip_ok s b2 Hb2) as (b3 & -> & Hb3 & (C3 & L3 & D3) & O3). rewrite ret_bind. cbn zeta.
  destruct (next_is_ok s b3 58 Hb3) as (colon & -> & Hcolon). rewrite ret_bind.
  destruct colon; cbn [negb]; [|eexists; split; [done|]; apply listed_fail; [congruence|congruence|lia]]. specialize (Hcolon eq_refl ltac:(done)).
  destruct (skip_ok s (set_offset b3 (offset b3 + 1))) as (b4 & -> & Hb4 & (C4 & L4 & D4) & O4); [apply pb_ok_set_offset; [done|lia]|]. rewrite ret_bind. cbn in C4, L4, D4, O4.
  match goal with |- context [pv ?x b4] => set (i0 := x) end.
  assert (tidy i0) as Hp0.
  { apply tidy_set_valuestring; [exact I|]. apply tidy_set_string; [by apply block_ok_text|]. apply tidy_set_valuestring; [by apply block_ok_text|].
    apply tidy_set_type; [done|]. by apply new_item_tidy. }
  destruct (pv_ok i0 b4 Hb4) as ([[ok i] b5] & -> & C5 & L5 & O5 & Hok5); [congruence|]. rewrite ret_bind.
  destruct ok; cbn [negb]; [|eexists; split; [done|]; apply listed_fail; [congruence|congruence|done]]. destruct (Hok5 eq_refl) as (Hb5 & D5 & O5' & Hi).
  destruct (skip_ok s b5 Hb5) as (b6 & -> & Hb6 & (C6 & L6 & D6) & O6). rewrite ret_bind.
  destruct (next_is_ok s b6 44 Hb6) as (more & -> & Hmore). rewrite ret_bind.
  pose proof (member_list_snoc k head i i0 t r Hhead Ht eq_refl Hp0 Hi) as Hsnoc.
  destruct more.
  - destruct (IH b6 (head ++ [i])) as (r' & -> & Hr); [done|by apply Hmore|congruence|lia|done|]. exists r'. split; [done|].
    apply (listed_later _ b b6); [congruence|congruence|lia|done].
  - eexists. split; [done|]. cbn. split_and!; [cbn; congruence|cbn; congruence|cbn; lia|]. cbn. intros l [= <-]. split_and!; [done|congruence|lia|done].
Qed.

Lemma parse_list_ok loop close t (good : list cJSON -> Prop) item b :
  (forall n b head, pb_ok s b -> offset b < zlen s -> depth b = D -> length_ b - offset b < Z.of_nat n -> good head ->
    exists r, loop n b head = Ret r /\ listed good b r) ->
  good [] -> close <> 0 -> pb_ok s b -> offset b < zlen s -> depth b = D ->
  exists r, parse_list loop close t item b = Ret r /\
    parsed s (set_depth b (D - 1)) (fun i => exists l, good l /\ i = set_child (set_type item t) l) r.
Proof.
  intros Hloop Hnil Hclose Hb Ho HD. pose proof (pb_offset _ _ Hb) as Hob. unfold parse_list.
  destruct (skip_ok s (set_offset b (offset b + 1))) as (b1 & -> & Hb1 & (C1 & L1 & D1) & O1); [apply pb_ok_set_offset; [done|lia]|]. rewrite ret_bind. cbn in C1, L1, D1, O1.
  destruct (next_is_ok s b1 close Hb1) as (empty & -> & Hempty). rewrite ret_bind. pose proof (pb_offset _ _ Hb1). pose proof (pb_length _ _ Hb1).
  destruct empty.
  - specialize (Hempty eq_refl Hclose). eexists. split; [done|]. cbn. split_and!; [done|done|lia|]. intros _. split_and!; [|congruence|lia|by exists []].
    apply (pb_ok_set_offset s (set_depth b1 (depth b1 - 1))); [by apply pb_ok_set_depth|lia].
  - unfold can_access_at_index. rewrite (proj2 (Z.ltb_lt _ _)) by lia. cbn [negb].
    destruct (Hloop (S (Z.to_nat (length_ (set_offset b1 (offset b1 - 1)) - offset (set_offset b1 (offset b1 - 1))))) (set_offset b1 (offset b1 - 1)) [])
      as ([r b2] & -> & C2 & L2 & O2 & Hr); [apply pb_ok_set_offset; [done|lia]|cbn; lia|cbn; congruence|cbn; lia|done|]. rewrite ret_bind. cbn in C2, L2, O2, Hr.
    destruct r as [head|]; [|eexists; split; [done|]; apply parsed_fail; cbn; [congruence|congruence|done]].
    destruct (Hr head eq_refl) as (Hb2 & D2 & O2' & Hgood). destruct (next_is_ok s b2 close Hb2) as (closed & -> & Hclosed). rewrite ret_bind.
    destruct closed; [|eexists; split; [done|]; apply parsed_fail; cbn; [congruence|congruence|lia]]. specialize (Hclosed eq_refl Hclose).
    eexists. split; [done|]. cbn. split_and!; [congruence|congruence|lia|]. intros _. split_and!; [|congruence|lia|by exists head].
    apply (pb_ok_set_offset s (set_depth b2 (depth b2 - 1))); [by apply pb_ok_set_depth|lia].
Qed.
End containers.

Lemma at_text_ok s b t : pb_ok s b -> no_nul t -> exists r, at_text b t = Ret r /\ (r = true -> offset b + zlen t <= zlen s).
Proof.
  intros Hb Ht. pose proof (pb_offset _ _ Hb) as Ho. pose proof (pb_length _ _ Hb) as Hl. destruct (pb_content _ _ Hb) as [rest Hc].
  unfold at_text, can_read. destruct (Z.leb_spec (offset b + zlen t) (length_ b)) as [Hle|]; [|by eexists]. zlen_facts.
  unfold mem_read. rewrite bool_decide_true by (rewrite Hc; zlia). rewrite ret_bind. eexists. split; [done|].
  intros Hd%bool_decide_eq_true. destruct (decide (offset b + zlen t <= zlen s)) as [|Hne]; [done|]. exfalso. apply Ht. rewrite <- Hd.
  assert (offset b + zlen t = zlen s + 1) as E by lia. rewrite Hc. unfold slice. rewrite zdrop_app_le by lia.
  change (0 :: rest) with ([0] ++ rest). rewrite app_assoc, ztake_app_exact by zlia. apply elem_of_app. right. by left.
Qed.

Lemma is_value_scalar k item item' j : string item' = string item -> (tidy item -> tidy item') -> json_of item' = Some j -> json_ok j -> nesting j = O -> is_value k item item'.
Proof. intros H1 Hp H2 H3 H4. split; [done|]. split; [done|]. exists j. split_and!; [done|done|lia]. Qed.

(** The fuel of [parse_fuel] is enough at every depth. *)
Lemma parse_value_ok s : forall n m item b, pb_ok s b -> (m < n)%nat -> depth b = CJSON_NESTING_LIMIT - Z.of_nat m ->
  exists r, parse_value n item b = Ret r /\ parsed s b (is_value m item) r.
Proof.
  unfold CJSON_NESTING_LIMIT. induction n as [|n IH]; intros m item b Hb Hm HD; [lia|]. pose proof (pb_offset _ _ Hb) as Ho. cbn [parse_value].
  assert (forall t item', no_nul t -> at_text b t = Ret true -> 0 < zlen t -> is_value m item item' ->
    parsed s b (is_value m item) (true, item', set_offset b (offset b + zlen t))) as Hword.
  { intros t item' Ht Hat Hpos Hv. destruct (at_text_ok s b t Hb Ht) as (r & Hr & Hle). rewrite Hat in Hr. injection Hr as <-. specialize (Hle eq_refl).
    cbn. split_and!; [done|done|lia|]. intros _. split_and!; [apply pb_ok_set_offset; [done|lia]|done|lia|done]. }
  destruct (at_text_ok s b (str "null") Hb) as ([|] & E1 & _); [vm_decide| |]; rewrite E1, ret_bind.
  { eexists. split; [done|]. apply (Hword (str "null")); [vm_decide|done|done|]. apply (is_value_scalar _ _ _ JNull); try done. by apply tidy_set_type. }
  destruct (at_text_ok s b (str "false") Hb) as ([|] & E2 & _); [vm_decide| |]; rewrite E2, ret_bind.
  { eexists. split; [done|]. apply (Hword (str "false")); [vm_decide|done|done|]. apply (is_value_scalar _ _ _ (JBool false)); try done. by apply tidy_set_type. }
  destruct (at_text_ok s b (str "true") Hb) as ([|] & E3 & _); [vm_decide| |]; rewrite E3, ret_bind.
  { eexists. split; [done|]. apply (Hword (str "true")); [vm_decide|done|done|]. apply (is_value_scalar _ _ _ (JBool true)); try done. intros Hp. by apply (tidy_set_type _ cJSON_True) in Hp as Hp'; [destruct item|]. }
  unfold can_access_at_index, buffer_at_offset. rewrite Z.add_0_r, (pb_length _ _ Hb), (proj2 (Z.ltb_lt _ _)) by lia.
  destruct (content_get s b (offset b) Hb Ho) as (c & Hc & Hc0). rewrite Hc, ret_bind.
  assert (exists r, Ret (false, item, b) = Ret r /\ parsed s b (is_value m item) r) as Hfail by (eexists; split; [done|]; by apply parsed_fail; try done; lia).
  destruct (Z.eqb_spec c 34) as [->|].
  { destruct (parse_string_ok s b item Hb) as (r & -> & Hr). exists r. split; [done|]. eapply parsed_impl; [|exact Hr].
    intros i (t & r' & Ht & ->). apply (is_value_scalar _ _ _ (JStr t)); [done| |by apply (json_of_string _ t r')|done|done].
    intros Hp. apply tidy_set_valuestring; [by apply block_ok_text|by apply tidy_set_type]. }
  destruct (_ || _).
  { destruct (parse_number_ok s b item Hb) as (ok & i & b' & -> & Hb' & (C & L & D) & Hok). eexists. split; [done|]. cbn. split_and!; [done|done|apply Hb'|].
    intros ->. destruct (Hok eq_refl) as (Ho' & Hs & Hp & d & Hd & Hcan & Hnan). split_and!; [done|done|done|]. by apply (is_value_scalar _ _ _ (JNum d)). }
  destruct (Z.eqb_spec c 91) as [->|].
  { unfold parse_array. destruct (Z.leb_spec CJSON_NESTING_LIMIT (depth b)); [done|]. unfold CJSON_NESTING_LIMIT in *. destruct m as [|m]; [lia|].
    unfold buffer_at_offset. cbn [content offset set_depth]. rewrite Z.add_0_r, Hc, ret_bind. cbn [Z.eqb Pos.eqb negb].
    destruct (parse_list_ok s (depth b + 1) (array_loop (parse_value n)) 93 cJSON_Array (element_list m) item (set_depth b (depth b + 1))) as ([[ok i] b'] & -> & C & L & O & Hok).
    - apply array_loop_ok. intros. apply IH; [done|lia|lia].
    - split; [constructor|by exists []].
    - done.
    - by apply pb_ok_set_depth.
    - cbn. lia.
    - done.
    - eexists. split; [done|]. cbn in *. split_and!; [done|done|done|]. intros Hk. destruct (Hok Hk) as (Hb' & D & O' & l & (Hpl & js & Hjs & Hj1 & Hj2) & ->).
      split_and!; [done|lia|done|]. split; [done|]. split; [intros Hp; apply tidy_set_child; [done|by apply tidy_set_type]|]. exists (JArr js). split_and!; [|by apply json_ok_arr|by apply nesting_arr].
      by apply json_of_array. }
  destruct (Z.eqb_spec c 123) as [->|]; [|done].
  unfold parse_object. destruct (Z.leb_spec CJSON_NESTING_LIMIT (depth b)); [done|]. unfold CJSON_NESTING_LIMIT in *. destruct m as [|m]; [lia|].
  unfold next_is, can_access_at_index, buffer_at_offset. cbn [content offset set_depth length_]. rewrite Z.add_0_r, (pb_length _ _ Hb), (proj2 (Z.ltb_lt _ _)), Hc, !ret_bind by lia. cbn [Z.eqb Pos.eqb negb].
  destruct (parse_list_ok s (depth b + 1) (object_loop (parse_value n)) 125 cJSON_Object (member_list m) item (set_depth b (depth b + 1))) as ([[ok i] b'] & -> & C & L & O & Hok).
  - apply object_loop_ok. intros. apply IH; [done|lia|lia].
  - split; [constructor|by exists []].
  - done.
  - by apply pb_ok_set_depth.
  - cbn. lia.
  - done.
  - eexists. split; [done|]. cbn in *. split_and!; [done|done|done|]. intros Hk. destruct (Hok Hk) as (Hb' & D & O' & l & (Hpl & js & Hjs & Hj1 & Hj2) & ->).
    split_and!; [done|lia|done|]. split; [done|]. split; [intros Hp; apply tidy_set_child; [done|by apply tidy_set_type]|]. exists (JObj js). split_and!; [|by apply json_ok_obj|by apply nesting_obj].
    by apply json_of_object.
Qed.
End safe.

(** A tree without flags, whose texts end, that stands for a JSON value of the
    machine within the nesting limit. *)
Definition well_typed (i : cJSON) : Prop :=
  string i = None /\ tidy i /\ exists j, json_of i = Some j /\ json_ok j /\ (nesting j <= Z.to_nat CJSON_NESTING_LIMIT)%nat.

Lemma parser_total `{Allocator} `{Memory} s r return_parse_end require_null_terminated :
  no_nul s ->
  exists item parse_end global_error,
    cJSON_ParseWithOpts (Some (s ++ 0 :: r)) return_parse_end require_null_terminated = Ret (item, parse_end, global_error) /\
    match item with
    | Some i => well_typed i /\ global_error = None /\
        exists o, 0 <= o <= zlen s /\ (require_null_terminated = true -> o = zlen s) /\ parse_end = if return_parse_end then Some o else None
    | None => exists p, 0 <= p <= zlen s /\ (parse_end, global_error) = if return_parse_end then (Some p, None) else (None, Some p)
    end.
Proof.
  intros Hs. unfold cJSON_ParseWithOpts. assert (strlen (s ++ 0 :: r) = Ret (zlen s)) as -> by (by apply (strlen_cstr s r)). rewrite ret_bind. zlen_facts.
  set (b0 := mkParse (s ++ 0 :: r) (zlen s + 1) 0 0). assert (pb_ok s b0) as Hb0 by (split; cbn; [by eexists|done|done|lia]).
  assert (forall b, length_ b = zlen s + 1 -> 0 <= offset b -> exists p, 0 <= p <= zlen s /\
    (if offset b <? length_ b then offset b else if 0 <? length_ b then length_ b - 1 else 0) = p) as Hpos.
  { intros b Hl Ho. eexists. split; [|done]. rewrite Hl. destruct (Z.ltb_spec (offset b) (zlen s + 1)); [lia|]. destruct (Z.ltb_spec 0 (zlen s + 1)); lia. }
  assert (forall b, length_ b = zlen s + 1 -> 0 <= offset b -> exists item parse_end global_error,
    Ret (if return_parse_end then (None, Some (if offset b <? length_ b then offset b else if 0 <? length_ b then length_ b - 1 else 0), None)
         else (None, None, Some (if offset b <? length_ b then offset b else if 0 <? length_ b then length_ b - 1 else 0)))
      = Ret (item, parse_end, global_error) /\
    match item with
    | Some i => well_typed i /\ global_error = None /\
        exists o, 0 <= o <= zlen s /\ (require_null_terminated = true -> o = zlen s) /\ parse_end = if return_parse_end then Some o else None
    | None => exists p, 0 <= p <= zlen s /\ (parse_end, global_error) = if return_parse_end then (Some p, None) else (None, Some p)
    end) as Hfail.
  { intros b Hl Ho. destruct (Hpos b Hl Ho) as (p & Hp & ->). destruct return_parse_end; eexists None, _, _; (split; [done|]); eauto. }
  cbn zeta. destruct cJSON_New_Item as [item|] eqn:Hnew; [|apply Hfail; done || (cbn; lia)].
  destruct (skip_ok s b0 Hb0) as (b1 & -> & Hb1 & (C1 & L1 & D1) & O1). rewrite ret_bind.
  destruct (parse_value_ok s parse_fuel 1000 item b1 Hb1) as ([[ok i] b2] & -> & C2 & L2 & O2 & Hok); [unfold parse_fuel; change (Z.to_nat CJSON_NESTING_LIMIT) with 1000%nat; lia|done|]. rewrite ret_bind.
  assert (length_ b2 = zlen s + 1) as Hl2 by (rewrite L2, L1; done).
  destruct ok; cbn [negb]; [|by apply Hfail]. destruct (Hok eq_refl) as (Hb2 & D2 & O2' & Hstr & Htidy & j & Hj & Hjok & Hn).
  assert (well_typed i) as Hi.
  { split; [|split; [by apply Htidy, new_item_tidy|exists j; split_and!; [done|done|exact Hn]]]. rewrite Hstr. unfold cJSON_New_Item in Hnew. destruct (malloc _); [|done]. by injection Hnew as <-. }
  destruct require_null_terminated.
  - destruct (skip_ok s b2 Hb2) as (b3 & -> & Hb3 & (C3 & L3 & D3) & O3). rewrite ret_bind. pose proof (pb_offset _ _ Hb3) as Ho3. pose proof (pb_length _ _ Hb3) as Hl3.
    rewrite (proj2 (Z.leb_gt _ _)) by lia. unfold buffer_at_offset. rewrite Z.add_0_r. destruct (content_get s b3 (offset b3) Hb3 Ho3) as (c & -> & Hc). rewrite ret_bind.
    destruct (Z.eqb_spec c 0) as [->|]; cbn [negb]; [|apply Hfail; [done|lia]]. eexists (Some i), _, _. split; [done|]. split_and!; [done|done|].
    exists (offset b3). split_and!; [lia|lia|lia|done].
  - eexists (Some i), _, _. split; [done|]. split_and!; [done|done|]. exists (offset b2). pose proof (pb_offset _ _ Hb2). split_and!; [lia|lia|done|done].
Qed.

(** C18.  Whatever bytes it is given, the parser reads only the text and its
    terminator, writes only its own blocks and comes to an end; it returns
    either no item, with the position of the error inside the text, or a
    well-typed tree of at most 1000 levels, with the position where it
    stopped, which is the end of the text if that is required. *)
Theorem cJSON_Parse_well_typed `{Allocator} `{Memory} s r return_parse_end require_null_terminated :
  no_nul s ->
  exists item parse_end global_error,
    cJSON_ParseWithOpts (Some (s ++ 0 :: r)) return_parse_end require_null_terminated = Ret (item, parse_end, global_error) /\
    match item with
    | Some i => well_typed i /\ global_error = None /\
        exists o, 0 <= o <= zlen s /\ (require_null_terminated = true -> o = zlen s) /\ parse_end = if return_parse_end then Some o else None
    | None => exists p, 0 <= p <= zlen s /\ (parse_end, global_error) = if return_parse_end then (Some p, None) else (None, Some p)
    end.
Proof. apply parser_total. Qed.

(** A text that ends inside a literal, right after a backslash. *)
Lemma cJSON_Parse_well_typed_witness : no_nul [91; 49; 44; 34; 97; 92] /\ exists item parse_end global_error,
  @cJSON_ParseWithOpts big_alloc demo_memory (Some ([91; 49; 44; 34; 97; 92] ++ 0 :: [34; 93])) true true = Ret (item, parse_end, global_error) /\
  match item with
  | Some i => well_typed i /\ global_error = None /\ exists o, 0 <= o <= 6 /\ (true = true -> o = 6) /\ parse_end = Some o
  | None => exists p, 0 <= p <= 6 /\ (parse_end, global_error) = (Some p, None)
  end.
Proof.
  assert (no_nul [91; 49; 44; 34; 97; 92]) as Hn by vm_decide. split; [exact Hn|].
  exact (@cJSON_Parse_well_typed big_alloc demo_memory [91; 49; 44; 34; 97; 92] [34; 93] true true Hn).
Defined.

(** ** What the parser accepts besides JSON *)

(** An escape that is no number counts as the zero byte, which ends the string. *)
Example parse_bad_escape : exists r, parse_text [34; 97; 92; 117; 120; 121; 122; 122; 98; 34] =
  Ret (Some (set_valuestring (set_type zero_item cJSON_String) (Some ([97; 0; 98; 0] ++ r)))).
Proof. eexists. vm_compute. reflexivity. Qed.

(** Of a number only 63 characters are read: in a list a longer one is an error. *)
Example parse_long_number : parse_text ([91] ++ replicate 63 48 ++ [49; 93]) = Ret None /\ exists i, parse_text ([91] ++ replicate 62 48 ++ [49; 93]) = Ret (Some i).
Proof. split; [|eexists]; vm_compute; reflexivity. Qed.
