(* ===== verification/CJsonGrammar.v ===== *)
(** * cJSON: the parser accepts JSON

    The grammar of JSON texts as a relation between texts and values, and the
    theorem that the parser accepts every text of it within the nesting limit
    and gives the value.  What the printing functions write is in the grammar,
    so that printing and parsing are a round trip. *)

From stdpp Require Import base tactics numbers list option strings sets.
From Stdlib Require Import Lia.
From S2P Require Import Prelude Utf8 Double CJson CJsonSpec CJsonSafe.

(** ** The grammar *)

(** White space: what the parser takes for it. *)
Definition ws (w : bytes) : Prop := Forall (fun c => 0 < c <= 32) w.

(** Four hexadecimal digits. *)
Definition hex4 (h : bytes) (v : Z) : Prop := exists a b c d va vb vc vd,
  h = [a; b; c; d] /\ hex_value a = Some va /\ hex_value b = Some vb /\ hex_value c = Some vc /\ hex_value d = Some vd /\
  v = ((va * 16 + vb) * 16 + vc) * 16 + vd.

(** The inside of a literal and its bytes; a code point is in UTF-8. *)
Inductive string_text : bytes -> bytes -> Prop :=
  | text_end : string_text [] []
  | text_char c t s : c <> 0 -> c <> 34 -> c <> 92 -> string_text t s -> string_text (c :: t) (c :: s)
  | text_escape c x t s : escape_char c = Some x -> string_text t s -> string_text (92 :: c :: t) (x :: s)
  | text_unicode h cp t s : hex4 h cp -> cp <> 0 -> ~ 55296 <= cp <= 57343 -> string_text t s -> string_text (92 :: 117 :: h ++ t) (enc cp ++ s)
  | text_pair h u h' u' t s : hex4 h u -> hex4 h' u' -> 55296 <= u <= 56319 -> 56320 <= u' <= 57343 -> string_text t s ->
      string_text (92 :: 117 :: h ++ 92 :: 117 :: h' ++ t) (enc (65536 + (u - 55296) * 1024 + (u' - 56320)) ++ s).

(** Numbers are what the C library reads as a whole, up to 63 characters. *)
Definition number_lit (t : bytes) (d : double) : Prop := num_text t /\ strtod t = (d, zlen t) /\ zlen t <= 63.

(** A value of at most [n] levels, without white space around it. *)
Inductive value_text : nat -> bytes -> json -> Prop :=
  | vt_null n : value_text n (str "null") JNull
  | vt_false n : value_text n (str "false") (JBool false)
  | vt_true n : value_text n (str "true") (JBool true)
  | vt_number n t d : number_lit t d -> value_text n t (JNum d)
  | vt_string n t s : string_text t s -> value_text n ([34] ++ t ++ [34]) (JStr s)
  | vt_empty_array n w : ws w -> value_text (S n) ([91] ++ w ++ [93]) (JArr [])
  | vt_array n t l : elements_in n t l -> value_text (S n) ([91] ++ t ++ [93]) (JArr l)
  | vt_empty_object n w : ws w -> value_text (S n) ([123] ++ w ++ [125]) (JObj [])
  | vt_object n t l : members_in n t l -> value_text (S n) ([123] ++ t ++ [125]) (JObj l)
with elements_in : nat -> bytes -> list json -> Prop :=
  | el_last n w1 t w2 j : ws w1 -> value_text n t j -> ws w2 -> elements_in n (w1 ++ t ++ w2) [j]
  | el_more n w1 t w2 j u l : ws w1 -> value_text n t j -> ws w2 -> elements_in n u l -> elements_in n (w1 ++ t ++ w2 ++ 44 :: u) (j :: l)
with members_in : nat -> bytes -> list (bytes * json) -> Prop :=
  | me_last n w1 k s w2 w3 t w4 j : ws w1 -> string_text k s -> ws w2 -> ws w3 -> value_text n t j -> ws w4 ->
      members_in n (w1 ++ ([34] ++ k ++ [34]) ++ w2 ++ 58 :: w3 ++ t ++ w4) [(s, j)]
  | me_more n w1 k s w2 w3 t w4 j u l : ws w1 -> string_text k s -> ws w2 -> ws w3 -> value_text n t j -> ws w4 -> members_in n u l ->
      members_in n (w1 ++ ([34] ++ k ++ [34]) ++ w2 ++ 58 :: w3 ++ t ++ w4 ++ 44 :: u) ((s, j) :: l).

Scheme value_text_mut := Minimality for value_text Sort Prop
  with elements_in_mut := Minimality for elements_in Sort Prop
  with members_in_mut := Minimality for members_in Sort Prop.
Combined Scheme grammar_ind from value_text_mut, elements_in_mut, members_in_mut.

(** ** The inside of literals *)
Lemma hex_value_plain c v : hex_value c = Some v -> c <> 34 /\ c <> 92 /\ c <> 0.
Proof. unfold hex_value. do 3 (destruct (_ && _) eqn:E; [apply andb_true_iff in E as [?%Z.leb_le ?%Z.leb_le]; lia|clear E]). done. Qed.

Lemma hex4_parse h v a b : hex4 h v -> parse_hex4 (a ++ h ++ b) (zlen a) = Ret v /\ 0 <= v < 65536 /\ zlen h = 4.
Proof.
  intros (x1 & x2 & x3 & x4 & v1 & v2 & v3 & v4 & -> & H1 & H2 & H3 & H4 & ->).
  pose proof (hex_value_range _ _ H1). pose proof (hex_value_range _ _ H2). pose proof (hex_value_range _ _ H3). pose proof (hex_value_range _ _ H4).
  split; [|split; [lia|done]]. unfold parse_hex4. cbn [hex4_loop app].
  rewrite arr_get_middle, ret_bind, H1. change (a ++ x1 :: ?r) with (a ++ [x1] ++ r). rewrite app_assoc.
  replace (zlen a + 1) with (zlen (a ++ [x1])) by zlia. rewrite arr_get_middle, ret_bind, H2, <- app_assoc. change ([x1] ++ x2 :: ?r) with ([x1; x2] ++ r).
  rewrite app_assoc. replace (zlen (a ++ [x1]) + 1) with (zlen (a ++ [x1; x2])) by zlia. rewrite arr_get_middle, ret_bind, H3, <- app_assoc.
  change ([x1; x2] ++ x3 :: ?r) with ([x1; x2; x3] ++ r). rewrite app_assoc. replace (zlen (a ++ [x1; x2]) + 1) with (zlen (a ++ [x1; x2; x3])) by zlia.
  rewrite arr_get_middle, ret_bind, H4. rewrite !Z.shiftl_mul_pow2 by lia. change (2 ^ 4) with 16.
  rewrite (wrapu_small 32 ((0 + v1) * 16)), (wrapu_small 32 (((0 + v1) * 16 + v2) * 16)), wrapu_small by lia. done.
Qed.

(** The scan sees escapes of two bytes and other bytes. *)
Inductive scans : bytes -> Prop :=
  | scans_end : scans []
  | scans_char c t : c <> 34 -> c <> 92 -> scans t -> scans (c :: t)
  | scans_escape c t : scans t -> scans (92 :: c :: t).

Lemma scans_hex4 h v t : hex4 h v -> scans t -> scans (h ++ t).
Proof.
  intros (x1 & x2 & x3 & x4 & v1 & v2 & v3 & v4 & -> & H1%hex_value_plain & H2%hex_value_plain & H3%hex_value_plain & H4%hex_value_plain & _) Ht.
  cbn [app]. by repeat (apply scans_char; [tauto|tauto|]).
Qed.

Lemma string_text_scans t s : string_text t s -> scans t.
Proof.
  induction 1 as [|c t s H0 H1 H2 _ IH|c x t s Hx _ IH|h cp t s Hh _ _ _ IH|h u h' u' t s Hh Hh' _ _ _ IH]; [constructor|by constructor|by apply scans_escape| |].
  - apply scans_escape. by apply (scans_hex4 h cp).
  - apply scans_escape, (scans_hex4 h u); [done|]. apply scans_escape. by apply (scans_hex4 h' u').
Qed.

Lemma string_scan_text b post t : scans t -> forall a n sk, content b = a ++ t ++ 34 :: post -> zlen a + zlen t < length_ b -> zlen t < Z.of_nat n ->
  string_scan n b (zlen a) sk = Ret (Some (zlen a + zlen t, sk + (zlen t - tokens t))).
Proof.
  induction 1 as [|c t H1 H2 _ IH|c t _ IH]; intros a n sk Hc Hl Hn; (destruct n as [|n]; [zlia|]); cbn [string_scan]; rewrite (proj2 (Z.ltb_lt _ _)) by zlia.
  - rewrite Hc. cbn [app]. rewrite arr_get_middle, ret_bind. cbn [Z.eqb]. change (zlen []) with 0. cbn [tokens]. do 3 f_equal; lia.
  - rewrite Hc at 1. change (a ++ (c :: t) ++ 34 :: post) with (a ++ c :: t ++ 34 :: post). rewrite arr_get_middle, ret_bind.
    rewrite (proj2 (Z.eqb_neq c 34)), (proj2 (Z.eqb_neq c 92)) by done. rewrite tokens_cons_ne by done. rewrite zlen_cons in *.
    replace (zlen a + 1) with (zlen (a ++ [c])) by zlia. rewrite (IH (a ++ [c])); [do 3 f_equal; zlia|by rewrite <- app_assoc|zlia|lia].
  - rewrite Hc at 1. change (a ++ (92 :: c :: t) ++ 34 :: post) with (a ++ 92 :: c :: t ++ 34 :: post). rewrite arr_get_middle, ret_bind. cbn [Z.eqb Pos.eqb].
    rewrite tokens_escape. rewrite !zlen_cons in *. zlen_facts. rewrite (proj2 (Z.leb_gt _ _)) by lia.
    replace (zlen a + 2) with (zlen (a ++ [92; c])) by zlia. rewrite (IH (a ++ [92; c])); [do 3 f_equal; zlia|by rewrite <- app_assoc|zlia|lia].
Qed.

Lemma zlen_enc_pos c : 1 <= zlen (enc c) <= 4.
Proof. rewrite zlen_enc. repeat case_match; lia. Qed.

Lemma tokens_plain h t : Forall (fun c => c <> 92) h -> tokens (h ++ t) = zlen h + tokens t.
Proof. induction 1 as [|c h Hc _ IH]; [by change (zlen []) with 0|]. cbn [app]. rewrite tokens_cons_ne, IH, zlen_cons by done. lia. Qed.

Lemma tokens_length t : tokens t <= zlen t.
Proof.
  assert (forall n t, zlen t <= Z.of_nat n -> tokens t <= zlen t) as Hall.
  { induction n as [|n IH]; intros [|c l] Hn; try (change (zlen []) with 0; cbn; lia); rewrite zlen_cons in *; zlen_facts; [lia|].
    pose proof (IH l ltac:(lia)). pose proof (tokens_mono l c). lia. }
  apply (Hall (length t)). unfold zlen. lia.
Qed.

Lemma tokens_hex4 h v t : hex4 h v -> tokens (92 :: 117 :: h ++ t) = 5 + tokens t.
Proof.
  intros Hh. rewrite tokens_escape, tokens_plain; [destruct (hex4_parse h v [] [] Hh) as (_ & _ & ->); lia|].
  destruct Hh as (x1 & x2 & x3 & x4 & v1 & v2 & v3 & v4 & -> & H1%hex_value_plain & H2%hex_value_plain & H3%hex_value_plain & H4%hex_value_plain & _).
  repeat constructor; tauto.
Qed.

Lemma string_text_length t s : string_text t s -> zlen s <= tokens t.
Proof.
  induction 1 as [|c t s H0 H1 H2 _ IH|c x t s Hx _ IH|h cp t s Hh _ _ _ IH|h u h' u' t s Hh Hh' _ _ _ IH].
  - done.
  - rewrite tokens_cons_ne, zlen_cons by done. lia.
  - rewrite tokens_escape, zlen_cons. lia.
  - rewrite (tokens_hex4 h cp), zlen_app by done. pose proof (zlen_enc_pos cp). lia.
  - rewrite (tokens_hex4 h u), (tokens_hex4 h' u'), zlen_app by done. pose proof (zlen_enc_pos (65536 + (u - 55296) * 1024 + (u' - 56320))). lia.
Qed.

Lemma string_text_no_nul t s : string_text t s -> no_nul s.
Proof.
  assert (forall c, 0 < c -> no_nul (enc c)) as Henc.
  { intros c Hc. pose proof (Z.mod_pos_bound (c / 64) 64 ltac:(lia)). pose proof (Z.mod_pos_bound (c / 4096) 64 ltac:(lia)). pose proof (Z.mod_pos_bound c 64 ltac:(lia)).
    pose proof (Z.div_pos c 64 ltac:(lia) ltac:(lia)). pose proof (Z.div_pos c 4096 ltac:(lia) ltac:(lia)). pose proof (Z.div_pos c 262144 ltac:(lia) ltac:(lia)).
    unfold enc. repeat case_match; apply no_nul_Forall; repeat constructor; lia. }
  induction 1 as [|c t s H0 H1 H2 _ IH|c x t s Hx _ IH|h cp t s Hh H0 _ _ IH|h u h' u' t s Hh Hh' Hu Hu' _ IH].
  - apply not_elem_of_nil.
  - by apply no_nul_cons.
  - apply no_nul_cons. split; [|done]. unfold escape_char in Hx. repeat case_match; simplify_eq/=; try done.
    destruct (_ || _) eqn:E in *; simplify_eq. intros ->. done.
  - intros Hin. apply elem_of_app in Hin as [Hin|Hin]; [|done]. apply (Henc cp); [|done]. pose proof (hex4_parse h cp [] [] Hh). lia.
  - intros Hin. apply elem_of_app in Hin as [Hin|Hin]; [|done]. revert Hin. apply Henc. lia.
Qed.

(** *** Escapes of code points *)
Lemma utf16_one h cp pre post e : hex4 h cp -> ~ 55296 <= cp <= 57343 -> zlen pre + 6 <= e ->
  utf16_codepoint (pre ++ 92 :: 117 :: h ++ post) (zlen pre) e = Ret (Some (cp, 6)).
Proof.
  intros Hh Hcp He. unfold utf16_codepoint. rewrite (proj2 (Z.ltb_ge _ _)) by lia.
  destruct (hex4_parse h cp (pre ++ [92; 117]) post Hh) as (Hp & Hr & _). rewrite zlen_app, <- app_assoc in Hp.
  change (parse_hex4 (pre ++ 92 :: 117 :: h ++ post) (zlen pre + 2)) with (parse_hex4 (pre ++ [92; 117] ++ h ++ post) (zlen pre + zlen [92; 117])).
  rewrite Hp, ret_bind. replace ((56320 <=? cp) && (cp <=? 57343)) with false by (symmetry; apply andb_false_iff; rewrite !Z.leb_gt; lia).
  replace ((55296 <=? cp) && (cp <=? 56319)) with false by (symmetry; apply andb_false_iff; rewrite !Z.leb_gt; lia). done.
Qed.

Lemma utf16_two h u h' u' pre post e : hex4 h u -> hex4 h' u' -> 55296 <= u <= 56319 -> 56320 <= u' <= 57343 -> zlen pre + 12 <= e ->
  utf16_codepoint (pre ++ 92 :: 117 :: h ++ 92 :: 117 :: h' ++ post) (zlen pre) e = Ret (Some (65536 + (u - 55296) * 1024 + (u' - 56320), 12)).
Proof.
  intros Hh Hh' Hu Hu' He. unfold utf16_codepoint. rewrite (proj2 (Z.ltb_ge _ 6)) by lia.
  destruct (hex4_parse h u (pre ++ [92; 117]) (92 :: 117 :: h' ++ post) Hh) as (Hp & _ & Hl). rewrite zlen_app, <- app_assoc in Hp.
  change (parse_hex4 (pre ++ 92 :: 117 :: h ++ ?r) (zlen pre + 2)) with (parse_hex4 (pre ++ [92; 117] ++ h ++ r) (zlen pre + zlen [92; 117])).
  rewrite Hp, ret_bind. replace ((56320 <=? u) && (u <=? 57343)) with false by (symmetry; apply andb_false_iff; rewrite !Z.leb_gt; lia).
  replace ((55296 <=? u) && (u <=? 56319)) with true by (symmetry; apply andb_true_iff; rewrite !Z.leb_le; lia).
  cbn zeta. rewrite (proj2 (Z.ltb_ge _ 6)) by lia. set (pre' := pre ++ 92 :: 117 :: h).
  assert (zlen pre' = zlen pre + 6) as Hpre' by (unfold pre'; zlia).
  replace (pre ++ 92 :: 117 :: h ++ 92 :: 117 :: h' ++ post) with (pre' ++ 92 :: 117 :: h' ++ post) by (unfold pre'; by rewrite <- app_assoc).
  rewrite <- Hpre', arr_get_middle, ret_bind. cbn [Z.eqb Pos.eqb negb].
  change (92 :: 117 :: ?r) with ([92] ++ 117 :: r). rewrite (arr_get_behind pre' [92]), ret_bind by done. cbn [Z.eqb Pos.eqb negb].
  destruct (hex4_parse h' u' (pre' ++ [92; 117]) post Hh') as (Hp' & _ & _). rewrite zlen_app, <- app_assoc in Hp'.
  change ([92] ++ 117 :: ?r) with ([92; 117] ++ r). change (zlen [92; 117]) with 2 in Hp'. rewrite Hp', ret_bind.
  replace ((u' <? 56320) || (57343 <? u')) with false by (symmetry; apply orb_false_iff; rewrite !Z.ltb_ge; lia).
  by rewrite surrogate_pair.
Qed.

(** A step over an escape of a code point. *)
Lemma string_loop_unicode n content p e o d cp len : p < e ->
  arr_get content p = Ret 92 -> arr_get content (p + 1) = Ret 117 -> utf16_codepoint content p e = Ret (Some (cp, len)) ->
  len <> 0 -> 0 <= cp <= 1114111 -> zlen (enc cp) <= zlen d ->
  string_loop (S n) content p e (o ++ d) (zlen o) =
    string_loop n content (p + len) e (o ++ enc cp ++ zdrop (zlen (enc cp)) d) (zlen o + zlen (enc cp)).
Proof.
  intros Hp H1 H2 Hu Hlen Hcp Hd. pose proof (zlen_enc_pos cp). cbn [string_loop]. rewrite (proj2 (Z.ltb_lt _ _)), H1, ret_bind by lia. cbn [Z.eqb Pos.eqb negb].
  rewrite (proj2 (Z.ltb_ge _ 1)), H2, ret_bind by lia. change (escape_char 117) with (@None Z). cbn [Z.eqb Pos.eqb]. unfold utf16_literal_to_utf8. rewrite Hu, ret_bind.
  rewrite <- (ztake_zdrop (zlen (enc cp)) d) at 1. rewrite utf8_write_ok, ret_bind by (lia || (rewrite zlen_ztake; lia)). rewrite ret_bind.
  by rewrite (proj2 (Z.eqb_neq len 0)).
Qed.

(** What the loop does to a literal that decodes to [s]: the bytes are written
    over the front of the block. *)
Definition decodes (post t s : bytes) : Prop := forall n pre o d, zlen t <= Z.of_nat n -> zlen s < zlen d ->
  string_loop n (pre ++ t ++ 34 :: post) (zlen pre) (zlen pre + zlen t) (o ++ d) (zlen o) =
    Ret (Some (o ++ s ++ zdrop (zlen s) d, zlen o + zlen s), zlen pre + zlen t).

(** [s1] is written for [t1], and the loop goes on behind them. *)
Lemma decodes_later post n pre t1 t o s1 s d len : decodes post t s -> zlen t <= Z.of_nat n -> zlen (s1 ++ s) < zlen d -> len = zlen t1 ->
  string_loop n (pre ++ (t1 ++ t) ++ 34 :: post) (zlen pre + len) (zlen pre + zlen (t1 ++ t)) (o ++ s1 ++ zdrop (zlen s1) d) (zlen o + zlen s1) =
    Ret (Some (o ++ (s1 ++ s) ++ zdrop (zlen (s1 ++ s)) d, zlen o + zlen (s1 ++ s)), zlen pre + zlen (t1 ++ t)).
Proof.
  intros IH Ht Hd ->. rewrite zlen_app in Hd. zlen_facts.
  specialize (IH n (pre ++ t1) (o ++ s1) (zdrop (zlen s1) d) Ht). rewrite !zlen_app, zdrop_zdrop, <- !app_assoc in IH by lia.
  rewrite !zlen_app, <- !app_assoc, !Z.add_assoc. rewrite IH by (rewrite zlen_zdrop; lia). by rewrite (Z.add_comm (zlen s)).
Qed.

Lemma string_loop_text post t s : string_text t s -> decodes post t s.
Proof.
  induction 1 as [|c t s H0 H1 H2 _ IH|c x t s Hx Ht IH|h cp t s Hh H0 Hcp _ IH|h u h' u' t s Hh Hh' Hu Hu' _ IH]; intros n pre o d Hn Hd.
  - change (zlen []) with 0 in *. rewrite !Z.add_0_r, zdrop_0. destruct n; cbn [string_loop]; by rewrite (proj2 (Z.ltb_ge _ _)) by lia.
  - rewrite zlen_cons in Hn. zlen_facts. destruct n as [|n]; [lia|]. cbn [string_loop]. rewrite (proj2 (Z.ltb_lt _ _)) by zlia.
    change (arr_get (pre ++ (c :: t) ++ 34 :: post) (zlen pre)) with (arr_get (pre ++ c :: t ++ 34 :: post) (zlen pre)).
    rewrite arr_get_middle, ret_bind, (proj2 (Z.eqb_neq c 92)) by done. cbn [negb].
    destruct d as [|y d]; [change (zlen []) with 0 in Hd; zlen_facts; lia|]. rewrite arr_set_middle, ret_bind.
    apply (decodes_later post n pre [c] t o [c] s (y :: d) 1); [done|lia|done|done].
  - rewrite !zlen_cons in Hn. zlen_facts. destruct n as [|n]; [lia|]. cbn [string_loop]. rewrite (proj2 (Z.ltb_lt _ _)) by zlia.
    change (arr_get (pre ++ (92 :: c :: t) ++ 34 :: post) (zlen pre)) with (arr_get (pre ++ 92 :: (c :: t) ++ 34 :: post) (zlen pre)). rewrite arr_get_middle, ret_bind.
    cbn [Z.eqb Pos.eqb negb]. rewrite (proj2 (Z.ltb_ge _ 1)) by zlia.
    change (arr_get (pre ++ (92 :: c :: t) ++ 34 :: post) (zlen pre + 1)) with (arr_get (pre ++ [92] ++ c :: t ++ 34 :: post) (zlen pre + 1)).
    rewrite (arr_get_behind pre [92]), ret_bind, Hx by done.
    destruct d as [|y d]; [change (zlen []) with 0 in Hd; zlen_facts; lia|]. rewrite arr_set_middle, ret_bind.
    apply (decodes_later post n pre [92; c] t o [x] s (y :: d) 2); [done|lia|done|done].
  - pose proof (zlen_nonneg s). destruct (hex4_parse h cp [] [] Hh) as (_ & Hr & Hl). rewrite !zlen_cons, zlen_app in Hn. zlen_facts. destruct n as [|n]; [lia|].
    assert (zlen (92 :: 117 :: h) = 6) as Hl1 by (rewrite !zlen_cons; lia). change (92 :: 117 :: h ++ t) with ((92 :: 117 :: h) ++ t).
    rewrite (string_loop_unicode n _ _ _ o d cp 6); [|rewrite zlen_app; lia|apply arr_get_middle|by apply (arr_get_behind pre [92])| |done|lia|rewrite zlen_app in Hd; lia].
    + apply (decodes_later post n pre _ t o (enc cp) s d); [done|lia|done|done].
    + rewrite <- app_assoc. apply utf16_one; [done|done|rewrite zlen_app; lia].
  - pose proof (zlen_nonneg s). destruct (hex4_parse h u [] [] Hh) as (_ & Hr & Hl). destruct (hex4_parse h' u' [] [] Hh') as (_ & Hr' & Hl').
    set (cp := 65536 + (u - 55296) * 1024 + (u' - 56320)) in *. set (t1 := 92 :: 117 :: h ++ 92 :: 117 :: h').
    assert (zlen t1 = 12) as Hl1 by (unfold t1; rewrite !zlen_cons, zlen_app, !zlen_cons; lia).
    replace (92 :: 117 :: h ++ 92 :: 117 :: h' ++ t) with (t1 ++ t) in * by (unfold t1; by rewrite <- !app_comm_cons, <- app_assoc).
    rewrite zlen_app in Hn. zlen_facts. destruct n as [|n]; [lia|].
    rewrite (string_loop_unicode n _ _ _ o d cp 12); [|rewrite zlen_app; lia|apply arr_get_middle|by apply (arr_get_behind pre [92])| |done|unfold cp; lia|rewrite zlen_app in Hd; lia].
    + apply (decodes_later post n pre _ t o (enc cp) s d); [done|lia|done|done].
    + unfold t1 at 1. rewrite <- !app_comm_cons, <- !app_assoc. apply utf16_two; try done. rewrite zlen_app; lia.
Qed.

(** ** Positions *)

(** The input before and after the offset; the rest of the block is not
    looked at. *)
Definition at_pos (b : parse_buffer) (pre u : bytes) : Prop :=
  exists extra, content b = pre ++ u ++ extra /\ length_ b = zlen pre + zlen u /\ offset b = zlen pre.

Definition ahead (b : parse_buffer) (t : bytes) : parse_buffer := set_offset b (offset b + zlen t).

Lemma at_ahead b pre t u : at_pos b pre (t ++ u) -> at_pos (ahead b t) (pre ++ t) u.
Proof. intros (x & Hc & Hl & Ho). exists x. cbn. rewrite Hc, Hl, Ho, !zlen_app, <- !app_assoc. split_and!; [done|lia|done]. Qed.

Lemma ahead_ahead b t u : ahead (ahead b t) u = ahead b (t ++ u).
Proof. unfold ahead. destruct b. cbn. rewrite zlen_app. unfold set_offset. cbn. f_equal. lia. Qed.
Lemma ahead_nil b : ahead b [] = b.
Proof. unfold ahead. destruct b. unfold set_offset. cbn. change (zlen []) with 0. f_equal. lia. Qed.
Lemma depth_ahead b t : depth (ahead b t) = depth b.
Proof. done. Qed.
Lemma at_set_depth b pre u d : at_pos b pre u -> at_pos (set_depth b d) pre u.
Proof. done. Qed.

Lemma at_can b pre c u : at_pos b pre (c :: u) -> can_access_at_index b 0 = true.
Proof. intros (x & Hc & Hl & Ho). unfold can_access_at_index. rewrite Hl, Ho, zlen_cons. zlen_facts. apply Z.ltb_lt. lia. Qed.
Lemma at_get b pre c u : at_pos b pre (c :: u) -> buffer_at_offset b 0 = Ret c.
Proof. intros (x & Hc & Hl & Ho). unfold buffer_at_offset. rewrite Hc, Ho, Z.add_0_r. apply arr_get_middle. Qed.
Lemma next_is_at b pre c u k : at_pos b pre (c :: u) -> next_is b k = Ret (c =? k).
Proof. intros Hat. unfold next_is. by rewrite (at_can _ _ _ _ Hat), (at_get _ _ _ _ Hat), ret_bind. Qed.

Lemma skip_loop_at w : ws w -> forall n b pre c u, at_pos b pre (w ++ c :: u) -> 32 < c -> zlen w < Z.of_nat n -> skip_loop n b = Ret (ahead b w).
Proof.
  induction 1 as [|x w Hx _ IH]; intros n b pre c u Hat Hc Hn; (destruct n as [|n]; [zlia|]); cbn [skip_loop app] in *.
  - rewrite (at_can _ _ _ _ Hat), (at_get _ _ _ _ Hat), ret_bind, (proj2 (Z.leb_gt _ _)) by lia. by rewrite ahead_nil.
  - rewrite (at_can _ _ _ _ Hat), (at_get _ _ _ _ Hat), ret_bind, (proj2 (Z.leb_le _ _)) by lia. apply (at_ahead b pre [x]) in Hat.
    change (set_offset b (offset b + 1)) with (ahead b [x]). rewrite (IH n _ _ c u Hat), ahead_ahead; [done|done|rewrite zlen_cons in Hn; lia].
Qed.

Lemma skip_at b pre w c u : at_pos b pre (w ++ c :: u) -> ws w -> 32 < c -> buffer_skip_whitespace b = Ret (ahead b w).
Proof.
  intros Hat Hw Hc. unfold buffer_skip_whitespace. pose proof Hat as (x & _ & Hl & Ho). rewrite zlen_app, zlen_cons in Hl. zlen_facts.
  rewrite (skip_loop_at w Hw _ b pre c u Hat Hc), ret_bind by lia. change (length_ (ahead b w)) with (length_ b). change (offset (ahead b w)) with (offset b + zlen w). by rewrite (proj2 (Z.eqb_neq _ _)) by lia.
Qed.

(** The words. *)
Lemma at_text_yes b pre t u : at_pos b pre (t ++ u) -> at_text b t = Ret true.
Proof.
  intros (x & Hc & Hl & Ho). unfold at_text, can_read. rewrite zlen_app in Hl. zlen_facts. rewrite (proj2 (Z.leb_le _ _)) by lia.
  rewrite mem_read_ok, ret_bind by (rewrite ?Hc; zlia). rewrite Hc, Ho, <- app_assoc, slice_app_exact by done. by rewrite bool_decide_true.
Qed.
Lemma at_text_no b pre c u k t : at_pos b pre (c :: u) -> c <> k -> at_text b (k :: t) = Ret false.
Proof.
  intros (x & Hc & Hl & Ho) Hne. unfold at_text, can_read. destruct (Z.leb_spec (offset b + zlen (k :: t)) (length_ b)) as [Hle|]; [|done].
  rewrite zlen_cons in *. zlen_facts. rewrite mem_read_ok, ret_bind by (rewrite ?Hc; zlia). rewrite bool_decide_false; [done|].
  rewrite Hc, Ho. unfold slice. rewrite zdrop_app_exact by done. unfold ztake. replace (Z.to_nat (1 + zlen t)) with (S (Z.to_nat (zlen t))) by lia. cbn. congruence.
Qed.

(** ** Numbers *)
Lemma number_chars_at c t : Forall (fun c => is_num_char c = true) t -> is_num_char c = false -> forall n b p u i,
  content b = p ++ t ++ c :: u -> offset b + i = zlen p -> zlen p + zlen t < length_ b -> zlen t <= Z.of_nat n -> number_chars n b i = Ret t.
Proof.
  intros Ht Hc. induction Ht as [|x t Hx _ IH]; intros n b p u i Hb Hi Hl Hn.
  - destruct n as [|n]; [done|]. cbn [number_chars]. change (zlen []) with 0 in Hl. unfold can_access_at_index, buffer_at_offset. rewrite (proj2 (Z.ltb_lt _ _)), Hi, Hb by lia.
    cbn [app]. rewrite arr_get_middle, ret_bind. unfold is_num_char in Hc. apply orb_false_iff in Hc as [-> ->]. done.
  - rewrite zlen_cons in *. zlen_facts. destruct n as [|n]; [lia|]. cbn [number_chars]. unfold can_access_at_index, buffer_at_offset. rewrite (proj2 (Z.ltb_lt _ _)), Hi by lia.
    rewrite Hb at 1. change (p ++ (x :: t) ++ c :: u) with (p ++ x :: t ++ c :: u). rewrite arr_get_middle, ret_bind.
    assert (number_chars n b (i + 1) = Ret t) as ->.
    { apply (IH n b (p ++ [x]) u); [by rewrite Hb, <- app_assoc|zlia|zlia|lia]. }
    rewrite ret_bind. unfold is_num_char in Hx. destruct (_ || (x =? 69)); [done|]. destruct (Z.eqb_spec x 46) as [->|]; [done|by cbn in Hx].
Qed.

Lemma parse_number_at b pre t c u item d : at_pos b pre (t ++ c :: u) -> number_lit t d -> is_num_char c = false ->
  exists i, parse_number item b = Ret (true, set_type (set_number item i d) cJSON_Number, ahead b t).
Proof.
  intros (x & Hc & Hl & Ho) ((Ht & c0 & t' & Et & _) & Hd & Hn) Hstop. unfold parse_number. rewrite zlen_app, zlen_cons in Hl. zlen_facts.
  rewrite (number_chars_at c t Ht Hstop 63 b pre (u ++ x) 0), ret_bind; [|by rewrite Hc, <- app_assoc|lia|lia|lia]. rewrite Hd.
  assert (0 < zlen t) by (rewrite Et, zlen_cons; zlen_facts; lia). rewrite (proj2 (Z.eqb_neq _ _)) by lia.
  destruct (strtod_bounds t d (zlen t) Hd) as (_ & _ & Hnan). destruct (saturate_ok d Hnan) as (i & -> & _). rewrite ret_bind. by exists i.
Qed.

(** ** Literals *)
Section complete.
Context `{AllocTotal} `{Memory}.

Lemma parse_string_at b pre t u item s : at_pos b pre (([34] ++ t ++ [34]) ++ u) -> string_text t s -> zlen t < 2 ^ 62 ->
  exists r, parse_string item b = Ret (true, set_valuestring (set_type item cJSON_String) (Some (s ++ 0 :: r)), ahead b ([34] ++ t ++ [34])).
Proof.
  intros Hat Ht Hlen. pose proof Hat as (x & Hc & Hl & Ho). rewrite <- !app_assoc in Hat, Hc, Hl. unfold parse_string. rewrite (at_get _ _ _ _ Hat), ret_bind. cbn [Z.eqb Pos.eqb negb].
  rewrite !zlen_app in Hl. change (zlen [34]) with 1 in Hl. zlen_facts. pose proof (string_text_length t s Ht) as Hts. pose proof (tokens_mono t 0) as Ht0.
  pose proof (tokens_length t) as Htt.
  assert (content b = (pre ++ [34]) ++ t ++ 34 :: (u ++ x)) as Hc' by (by rewrite Hc, <- !app_assoc).
  assert (zlen (pre ++ [34]) = offset b + 1) as Hp by (rewrite zlen_app, Ho; done).
  rewrite <- Hp, (string_scan_text b (u ++ x) t (string_text_scans t s Ht) (pre ++ [34])), ret_bind; [|done|lia|lia].
  unfold malloc. rewrite alloc_total by lia. set (n := _ - _ - _ + 1). rewrite Hc'.
  assert (zlen (new_block n) = n) as Hn by (apply zlen_new_block; lia).
  pose proof (string_loop_text (u ++ x) t s Ht (Z.to_nat (zlen (pre ++ [34]) + zlen t - zlen (pre ++ [34]))) (pre ++ [34]) [] (new_block n) ltac:(lia) ltac:(lia)) as E.
  cbn [app] in E. change (zlen []) with 0 in E. rewrite E, ret_bind. rewrite Z.add_0_l.
  destruct (zdrop (zlen s) (new_block n)) as [|y r] eqn:Hz.
  { apply (f_equal zlen) in Hz. rewrite zlen_zdrop in Hz. change (zlen []) with 0 in Hz. lia. }
  rewrite arr_set_middle, ret_bind. exists r. unfold ahead. do 3 f_equal. rewrite !zlen_app in *. change (zlen [34]) with 1 in *. lia.
Qed.

(** ** Values *)

(** What follows a value: white space, or another byte that cannot be in a
    number. *)
Lemma follow w c u : ws w -> is_num_char c = false -> exists c' u', w ++ c :: u = c' :: u' /\ is_num_char c' = false.
Proof.
  intros Hw Hc. destruct Hw as [|x w Hx Hw]; [by exists c, u|]. exists x, (w ++ c :: u). split; [done|]. unfold is_num_char, is_digit.
  rewrite (proj2 (Z.leb_gt 48 x)) by lia. cbn. by rewrite !(proj2 (Z.eqb_neq _ _)) by lia.
Qed.

Lemma value_text_head n t j : value_text n t j -> exists c t', t = c :: t' /\ 32 < c /\ c <> 93 /\ c <> 125.
Proof.
  destruct 1 as [| | |n t d ((_ & c & t' & -> & Hc) & _)| | | | |]; try (eexists _, _; split; [vm_compute; reflexivity|by split_and!]).
  exists c, t'. split; [done|]. destruct Hc as [->|Hc]; [lia|]. unfold is_digit in Hc. apply andb_true_iff in Hc as [?%Z.leb_le ?%Z.leb_le]. lia.
Qed.

Definition accepts (n : nat) (t : bytes) (j : json) : Prop := forall m item b pre c u, (n <= m)%nat ->
  at_pos b pre (t ++ c :: u) -> is_num_char c = false -> depth b + Z.of_nat n <= CJSON_NESTING_LIMIT -> length_ b < 2 ^ 62 ->
  exists item', parse_value (S m) item b = Ret (true, item', ahead b t) /\ string item' = string item /\ json_of item' = Some j.

(** The loops begin at the byte before the element. *)
Definition accepts_elements (n : nat) (t : bytes) (l : list json) : Prop := forall m k x b pre u head hs, (n <= m)%nat ->
  at_pos b pre (x :: t ++ 93 :: u) -> depth b + Z.of_nat n <= CJSON_NESTING_LIMIT -> length_ b < 2 ^ 62 -> zlen t < Z.of_nat k -> elements json_of head = Some hs ->
  exists head', array_loop (parse_value (S m)) k b head = Ret (Some head', ahead b (x :: t)) /\ elements json_of head' = Some (hs ++ l).
Definition accepts_members (n : nat) (t : bytes) (l : list (bytes * json)) : Prop := forall m k x b pre u head hs, (n <= m)%nat ->
  at_pos b pre (x :: t ++ 125 :: u) -> depth b + Z.of_nat n <= CJSON_NESTING_LIMIT -> length_ b < 2 ^ 62 -> zlen t < Z.of_nat k -> members json_of head = Some hs ->
  exists head', object_loop (parse_value (S m)) k b head = Ret (Some head', ahead b (x :: t)) /\ members json_of head' = Some (hs ++ l).

Lemma new_item_total : cJSON_New_Item = Some zero_item.
Proof. unfold cJSON_New_Item, malloc. by rewrite alloc_total by (unfold sizeof_cJSON; lia). Qed.

(** An element and what is behind it. *)
Lemma element_at n t j m x w1 w2 b pre c u : accepts n t j -> ws w1 -> ws w2 -> value_text n t j -> (n <= m)%nat ->
  at_pos b pre (x :: w1 ++ t ++ w2 ++ c :: u) -> is_num_char c = false -> 32 < c -> depth b + Z.of_nat n <= CJSON_NESTING_LIMIT -> length_ b < 2 ^ 62 ->
  forall item, exists item', string item' = string item /\ json_of item' = Some j /\
    (let! b := buffer_skip_whitespace (set_offset b (offset b + 1)) in parse_value (S m) item b) = Ret (true, item', ahead b (x :: w1 ++ t)) /\
    buffer_skip_whitespace (ahead b (x :: w1 ++ t)) = Ret (ahead b (x :: w1 ++ t ++ w2)).
Proof.
  intros Hv Hw1 Hw2 Ht Hm Hat Hc Hc32 Hd Hl item. destruct (value_text_head _ _ _ Ht) as (c0 & t' & Et & Hc0 & _).
  apply (at_ahead b pre [x]) in Hat. change (set_offset b (offset b + 1)) with (ahead b [x]).
  rewrite (skip_at (ahead b [x]) (pre ++ [x]) w1 c0 (t' ++ w2 ++ c :: u)), ret_bind, ahead_ahead; [|by rewrite Et in Hat|done|done].
  apply at_ahead in Hat. rewrite ahead_ahead in Hat. destruct (follow w2 c u Hw2 Hc) as (c' & u' & Ef & Hc').
  destruct (Hv m item (ahead b ([x] ++ w1)) ((pre ++ [x]) ++ w1) c' u' Hm) as (item' & -> & Hs & Hj); [by rewrite <- Ef|done|done|done|].
  exists item'. rewrite ahead_ahead, <- app_assoc. split_and!; [done|done|done|]. apply at_ahead in Hat. rewrite ahead_ahead in Hat.
  change (x :: w1 ++ t) with ([x] ++ w1 ++ t). rewrite app_assoc, (skip_at _ _ w2 c u Hat), ahead_ahead by done. by rewrite <- !app_assoc.
Qed.

Lemma array_loop_last n w1 t w2 j : ws w1 -> value_text n t j -> accepts n t j -> ws w2 -> accepts_elements n (w1 ++ t ++ w2) [j].
Proof.
  intros Hw1 Ht Hv Hw2 m k x b pre u head hs Hm Hat Hd Hl Hk Hh. destruct k as [|k]; [zlia|]. cbn [array_loop]. rewrite new_item_total. rewrite <- !app_assoc in Hat.
  destruct (element_at n t j m x w1 w2 b pre 93 u Hv Hw1 Hw2 Ht Hm Hat) with (item := zero_item) as (i & _ & Hj & E & E2); [done|done|done|done|].
  apply bind_Ret in E as (b1 & -> & E). rewrite ret_bind, E, ret_bind. cbn [negb]. rewrite E2, ret_bind.
  rewrite (next_is_at _ (pre ++ (x :: w1 ++ t ++ w2)) 93 u), ret_bind by (apply at_ahead; rewrite <- app_comm_cons, <- !app_assoc; exact Hat). cbn [Z.eqb Pos.eqb].
  exists (head ++ [i]). split; [done|]. apply elements_app; [done|]. cbn [elements]. by rewrite Hj.
Qed.

Lemma array_loop_more n w1 t w2 j u l : ws w1 -> value_text n t j -> accepts n t j -> ws w2 -> accepts_elements n u l ->
  accepts_elements n (w1 ++ t ++ w2 ++ 44 :: u) (j :: l).
Proof.
  intros Hw1 Ht Hv Hw2 Hu m k x b pre u0 head hs Hm Hat Hd Hl Hk Hh. destruct k as [|k]; [zlia|]. cbn [array_loop]. rewrite new_item_total. rewrite <- !app_assoc in Hat.
  destruct (element_at n t j m x w1 w2 b pre 44 (u ++ 93 :: u0) Hv Hw1 Hw2 Ht Hm Hat) with (item := zero_item) as (i & _ & Hj & E & E2); [done|done|done|done|].
  apply bind_Ret in E as (b1 & -> & E). rewrite ret_bind, E, ret_bind. cbn [negb]. rewrite E2, ret_bind.
  assert (at_pos (ahead b (x :: w1 ++ t ++ w2)) (pre ++ (x :: w1 ++ t ++ w2)) (44 :: u ++ 93 :: u0)) as Hat2 by (apply at_ahead; rewrite <- app_comm_cons, <- !app_assoc; exact Hat).
  rewrite (next_is_at _ _ 44 _ 44 Hat2), ret_bind. cbn [Z.eqb Pos.eqb].
  destruct (Hu m k 44 _ _ u0 (head ++ [i]) (hs ++ [j]) Hm Hat2) as (head' & -> & Hh'); [done|done|rewrite !zlen_app, zlen_cons in Hk; zlen_facts; lia| |].
  { apply elements_app; [done|]. cbn [elements]. by rewrite Hj. }
  exists head'. rewrite ahead_ahead, Hh', <- app_assoc, <- app_comm_cons, <- !app_assoc. done.
Qed.

(** A name up to its colon. *)
Lemma name_at x w1 k s w2 b pre u : at_pos b pre (x :: w1 ++ ([34] ++ k ++ [34]) ++ w2 ++ 58 :: u) -> ws w1 -> ws w2 -> string_text k s -> length_ b < 2 ^ 62 ->
  exists b1 b2 r, buffer_skip_whitespace (set_offset b (offset b + 1)) = Ret b1 /\
    (forall item, exists r, parse_string item b1 = Ret (true, set_valuestring (set_type item cJSON_String) (Some (s ++ 0 :: r)), b2)) /\
    buffer_skip_whitespace b2 = Ret (ahead b r) /\ r = x :: w1 ++ ([34] ++ k ++ [34]) ++ w2 /\ at_pos (ahead b r) (pre ++ r) (58 :: u).
Proof.
  intros Hat Hw1 Hw2 Hk Hl. pose proof Hat as (e & _ & Hl' & _). rewrite zlen_cons, !zlen_app in Hl'. zlen_facts. set (q := [34] ++ k ++ [34]) in *.
  apply (at_ahead b pre [x]) in Hat. change (set_offset b (offset b + 1)) with (ahead b [x]). exists (ahead b (x :: w1)).
  rewrite (skip_at (ahead b [x]) (pre ++ [x]) w1 34 ((k ++ [34]) ++ w2 ++ 58 :: u)), ahead_ahead by done. apply at_ahead in Hat. rewrite ahead_ahead in Hat.
  exists (ahead b (x :: w1 ++ q)), (x :: w1 ++ q ++ w2). split; [done|]. split; [|split; [|split; [done|]]].
  - intros item. destruct (parse_string_at _ _ k _ item s Hat Hk) as (r & E); [lia|]. exists r. change (x :: w1) with ([x] ++ w1). rewrite E. fold q. rewrite ahead_ahead. by rewrite <- app_assoc.
  - apply at_ahead in Hat. rewrite ahead_ahead in Hat. change (x :: w1 ++ q) with ([x] ++ w1 ++ q). rewrite app_assoc, (skip_at _ _ w2 58 u Hat), ahead_ahead by done.
    by rewrite <- !app_assoc.
  - do 2 apply at_ahead in Hat. rewrite !ahead_ahead, <- !app_assoc in Hat. exact Hat.
Qed.

(** A member and what is behind it. *)
Lemma object_loop_step n w1 key s w2 w3 t w4 j m k x b pre c u head hs : ws w1 -> string_text key s -> ws w2 -> ws w3 -> value_text n t j -> accepts n t j -> ws w4 ->
  (n <= m)%nat -> at_pos b pre (x :: (w1 ++ ([34] ++ key ++ [34]) ++ w2 ++ 58 :: w3 ++ t ++ w4) ++ c :: u) -> is_num_char c = false -> 32 < c ->
  depth b + Z.of_nat n <= CJSON_NESTING_LIMIT -> length_ b < 2 ^ 62 -> members json_of head = Some hs ->
  exists head' b', members json_of head' = Some (hs ++ [(s, j)]) /\
    b' = ahead b (x :: w1 ++ ([34] ++ key ++ [34]) ++ w2 ++ 58 :: w3 ++ t ++ w4) /\ at_pos b' (pre ++ x :: w1 ++ ([34] ++ key ++ [34]) ++ w2 ++ 58 :: w3 ++ t ++ w4) (c :: u) /\
    object_loop (parse_value (S m)) (S k) b head = if c =? 44 then object_loop (parse_value (S m)) k b' head' else Ret (Some head', b').
Proof.
  intros Hw1 Hk Hw2 Hw3 Ht Hv Hw4 Hm Hat Hc Hc32 Hd Hl Hh. rewrite <- !app_assoc in Hat. rewrite <- !app_comm_cons, <- !app_assoc in Hat.
  assert (at_pos b pre (x :: w1 ++ ([34] ++ key ++ [34]) ++ w2 ++ 58 :: w3 ++ t ++ w4 ++ c :: u)) as Hat0 by (by rewrite <- !app_assoc).
  destruct (name_at x w1 key s w2 b pre _ Hat0 Hw1 Hw2 Hk Hl) as (b1 & b2 & r & E1 & E2 & E3 & Er & Hat1). destruct (E2 zero_item) as (rest & E2').
  cbn [object_loop]. rewrite new_item_total, E1, ret_bind, E2', ret_bind. cbn [negb]. rewrite E3, ret_bind, (next_is_at _ _ 58 _ 58 Hat1), ret_bind. cbn [Z.eqb Pos.eqb negb].
  set (named := set_valuestring (set_string _ _) None).
  destruct (element_at n t j m 58 w3 w4 (ahead b r) (pre ++ r) c u Hv Hw3 Hw4 Ht Hm Hat1) with (item := named) as (i & Hs & Hj & E & E4); [done|done|done|done|].
  apply bind_Ret in E as (b3 & -> & E). rewrite ret_bind, E, ret_bind. cbn [negb]. rewrite E4, ret_bind. rewrite ahead_ahead.
  assert (r ++ 58 :: w3 ++ t ++ w4 = x :: w1 ++ ([34] ++ key ++ [34]) ++ w2 ++ 58 :: w3 ++ t ++ w4) as Eb by (rewrite Er, <- app_comm_cons, <- !app_assoc; done).
  exists (head ++ [i]), (ahead b (r ++ 58 :: w3 ++ t ++ w4)). assert (at_pos (ahead b (r ++ 58 :: w3 ++ t ++ w4)) (pre ++ r ++ 58 :: w3 ++ t ++ w4) (c :: u)) as Hat2.
  { pose proof (at_ahead (ahead b r) (pre ++ r) (58 :: w3 ++ t ++ w4) (c :: u)) as Hx. rewrite ahead_ahead, <- app_assoc in Hx. apply Hx.
    rewrite <- app_comm_cons, <- !app_assoc. exact Hat1. }
  rewrite (next_is_at _ _ c _ 44 Hat2), ret_bind. rewrite Eb in *. split_and!; [|done|done|done].
  apply members_app; [done|]. cbn [members]. rewrite Hs, Hj. unfold named. cbn [string set_valuestring set_string valuestring set_type].
  by rewrite block_str_ok by (by apply (string_text_no_nul key)).
Qed.

Lemma object_loop_last n w1 k s w2 w3 t w4 j : ws w1 -> string_text k s -> ws w2 -> ws w3 -> value_text n t j -> accepts n t j -> ws w4 ->
  accepts_members n (w1 ++ ([34] ++ k ++ [34]) ++ w2 ++ 58 :: w3 ++ t ++ w4) [(s, j)].
Proof.
  intros Hw1 Hk Hw2 Hw3 Ht Hv Hw4 m f x b pre u head hs Hm Hat Hd Hl Hf Hh. destruct f as [|f]; [zlia|].
  destruct (object_loop_step n w1 k s w2 w3 t w4 j m f x b pre 125 u head hs) as (head' & b' & Hh' & -> & _ & E); try done.
  rewrite E. cbn [Z.eqb Pos.eqb]. by exists head'.
Qed.

Lemma object_loop_more n w1 k s w2 w3 t w4 j u l : ws w1 -> string_text k s -> ws w2 -> ws w3 -> value_text n t j -> accepts n t j -> ws w4 -> accepts_members n u l ->
  accepts_members n (w1 ++ ([34] ++ k ++ [34]) ++ w2 ++ 58 :: w3 ++ t ++ w4 ++ 44 :: u) ((s, j) :: l).
Proof.
  intros Hw1 Hk Hw2 Hw3 Ht Hv Hw4 Hu m f x b pre u0 head hs Hm Hat Hd Hl Hf Hh. destruct f as [|f]; [zlia|]. set (a := w1 ++ ([34] ++ k ++ [34]) ++ w2 ++ 58 :: w3 ++ t ++ w4).
  assert (w1 ++ ([34] ++ k ++ [34]) ++ w2 ++ 58 :: w3 ++ t ++ w4 ++ 44 :: u = a ++ 44 :: u) as Ea.
  { unfold a. by repeat (rewrite <- ?app_assoc, <- ?app_comm_cons). }
  rewrite Ea in *. rewrite <- app_assoc in Hat.
  destruct (object_loop_step n w1 k s w2 w3 t w4 j m f x b pre 44 (u ++ 125 :: u0) head hs) as (head' & b' & Hh' & -> & Hat2 & E); try done.
  rewrite E. cbn [Z.eqb Pos.eqb]. fold a in Hat2 |- *. rewrite zlen_app, zlen_cons in Hf. zlen_facts.
  destruct (Hu m f 44 _ _ u0 head' (hs ++ [(s, j)]) Hm Hat2) as (head2 & -> & Hh2); [done|done|lia|done|].
  exists head2. rewrite ahead_ahead, Hh2, <- app_assoc. done.
Qed.

(** *** Brackets *)
Lemma parse_list_empty loop close ty item b pre o w u : at_pos b pre (o :: w ++ close :: u) -> ws w -> 32 < close ->
  parse_list loop close ty item b = Ret (true, set_child (set_type item ty) [], set_depth (ahead b (o :: w ++ [close])) (depth b - 1)).
Proof.
  intros Hat Hw Hc. apply (at_ahead b pre [o]) in Hat. unfold parse_list. change (set_offset b (offset b + 1)) with (ahead b [o]).
  rewrite (skip_at _ _ w close u Hat), ret_bind, ahead_ahead by done. apply at_ahead in Hat. rewrite ahead_ahead in Hat.
  rewrite (next_is_at _ _ close _ close Hat), ret_bind, Z.eqb_refl. do 2 f_equal. unfold set_depth, set_offset, ahead, set_offset. cbn [content length_ offset depth]. f_equal. zlia.
Qed.

Lemma parse_list_full (Q : list cJSON -> Prop) loop close ty item b pre o w c t u : at_pos b pre (o :: w ++ (c :: t) ++ close :: u) -> ws w -> 32 < c -> c <> close ->
  (forall x pre' b' k, at_pos b' pre' (x :: (c :: t) ++ close :: u) -> depth b' = depth b -> length_ b' = length_ b -> zlen (c :: t) < Z.of_nat k ->
    exists head, loop k b' [] = Ret (Some head, ahead b' (x :: c :: t)) /\ Q head) ->
  exists head, parse_list loop close ty item b = Ret (true, set_child (set_type item ty) head, set_depth (ahead b (o :: w ++ (c :: t) ++ [close])) (depth b - 1)) /\ Q head.
Proof.
  intros Hat Hw Hc Hne Hloop. pose proof Hat as (e & Hcont & Hlen & Hoff). rewrite zlen_cons, !zlen_app, !zlen_cons in Hlen. zlen_facts.
  destruct (exists_last (l := o :: w)) as (w' & x & Ew); [done|]. pose proof (f_equal zlen Ew) as Elen. rewrite zlen_cons, zlen_app in Elen. change (zlen [x]) with 1 in Elen.
  assert (at_pos (ahead b w') (pre ++ w') (x :: (c :: t) ++ close :: u)) as Hat'.
  { apply at_ahead. change (x :: ?l) with ([x] ++ l). by rewrite app_assoc, <- Ew. }
  unfold parse_list. pose proof Hat as Hat1. apply (at_ahead b pre [o]) in Hat1. change (set_offset b (offset b + 1)) with (ahead b [o]).
  rewrite (skip_at _ _ w c (t ++ close :: u) Hat1), ret_bind, ahead_ahead by done. apply at_ahead in Hat1. rewrite ahead_ahead in Hat1.
  rewrite (next_is_at _ _ c _ close Hat1), ret_bind, (proj2 (Z.eqb_neq _ _)), (at_can _ _ _ _ Hat1) by done. cbn [negb].
  assert (set_offset (ahead b ([o] ++ w)) (offset (ahead b ([o] ++ w)) - 1) = ahead b w') as ->.
  { unfold ahead, set_offset. cbn [content length_ offset depth]. rewrite zlen_app. change (zlen [o]) with 1. f_equal. lia. }
  cbn zeta. change (length_ (ahead b w')) with (length_ b). change (offset (ahead b w')) with (offset b + zlen w').
  destruct (Hloop x (pre ++ w') (ahead b w') (S (Z.to_nat (length_ b - (offset b + zlen w'))))) as (head & -> & HQ); [done|done|done|rewrite zlen_cons; lia|].
  rewrite ret_bind. apply (at_ahead _ _ (x :: c :: t)) in Hat'. rewrite (next_is_at _ _ close _ close Hat'), ret_bind, Z.eqb_refl.
  exists head. split; [|done]. do 2 f_equal. unfold set_depth, set_offset, ahead, set_offset. cbn [content length_ offset depth]. f_equal.
  change (o :: w ++ (c :: t) ++ [close]) with ((o :: w) ++ (c :: t) ++ [close]). rewrite Ew. zlia.
Qed.

Lemma depth_restored b t : set_depth (ahead (set_depth b (depth b + 1)) t) (depth b + 1 - 1) = ahead b t.
Proof. destruct b. unfold ahead, set_depth, set_offset. cbn. f_equal. lia. Qed.

(** [parse_value] on the first byte of a bracket. *)
Lemma parse_value_bracket m item b pre c u : at_pos b pre (c :: u) -> c = 91 \/ c = 123 ->
  parse_value (S m) item b = if c =? 91 then parse_array (parse_value m) item b else parse_object (parse_value m) item b.
Proof.
  intros Hat Hc. cbn [parse_value]. change (str "null") with (110 :: str "ull"). change (str "false") with (102 :: str "alse"). change (str "true") with (116 :: str "rue").
  rewrite !(at_text_no b pre c u), !ret_bind by (done || lia). rewrite (at_can _ _ _ _ Hat), (at_get _ _ _ _ Hat), ret_bind. by destruct Hc as [-> | ->].
Qed.

Lemma accepts_array n w t' l t : t = w ++ t' -> ws w -> (t' = [] /\ l = [] \/ exists c t'', t' = c :: t'' /\ 32 < c /\ c <> 93 /\ accepts_elements n t' l) ->
  accepts (S n) ([91] ++ t ++ [93]) (JArr l).
Proof.
  intros -> Hw Ht [|m] item b pre c u Hm Hat Hc Hd Hl; [lia|]. rewrite <- !app_assoc in Hat. rewrite (parse_value_bracket (S m) item b pre 91 _ Hat) by lia. cbn [Z.eqb Pos.eqb].
  unfold parse_array. rewrite (proj2 (Z.leb_gt _ _)) by lia. set (b1 := set_depth b (depth b + 1)).
  assert (at_pos b1 pre ([91] ++ w ++ t' ++ 93 :: c :: u)) as Hat1 by exact Hat. rewrite (at_get b1 pre 91 _ Hat1), ret_bind. cbn [Z.eqb Pos.eqb negb].
  destruct Ht as [[-> ->]|(c1 & t'' & -> & Hc1 & Hne & He)].
  - rewrite (parse_list_empty _ 93 _ _ b1 pre 91 w (c :: u) Hat1) by done. unfold b1. cbn [depth set_depth]. change (91 :: w ++ [93]) with ([91] ++ w ++ [93]). rewrite app_nil_r.
    rewrite depth_restored. eexists. split_and!; [done|done|]. by apply json_of_array.
  - destruct (parse_list_full (fun head => elements json_of head = Some l) (array_loop (parse_value (S m))) 93 cJSON_Array item b1 pre 91 w c1 t'' (c :: u) Hat1) as (head & -> & Hh); [done|done|done| |].
    { intros x pre' b' k Hb' Hdb Hlb Hk. apply (He m k x b' pre' (c :: u) [] []); [lia|exact Hb'|rewrite Hdb; unfold b1; cbn [depth set_depth]; lia|by rewrite Hlb|done|done]. }
    unfold b1. cbn [depth set_depth]. change (91 :: w ++ ?r) with ([91] ++ w ++ r). rewrite depth_restored, (app_assoc w). eexists. split_and!; [done|done|]. by apply json_of_array.
Qed.

Lemma accepts_object n w t' l t : t = w ++ t' -> ws w -> (t' = [] /\ l = [] \/ exists t'', t' = 34 :: t'' /\ accepts_members n t' l) ->
  accepts (S n) ([123] ++ t ++ [125]) (JObj l).
Proof.
  intros -> Hw Ht [|m] item b pre c u Hm Hat Hc Hd Hl; [lia|]. rewrite <- !app_assoc in Hat. rewrite (parse_value_bracket (S m) item b pre 123 _ Hat) by lia. cbn [Z.eqb Pos.eqb].
  unfold parse_object. rewrite (proj2 (Z.leb_gt _ _)) by lia. set (b1 := set_depth b (depth b + 1)).
  assert (at_pos b1 pre ([123] ++ w ++ t' ++ 125 :: c :: u)) as Hat1 by exact Hat. rewrite (next_is_at b1 pre 123 _ _ Hat1), ret_bind. cbn [Z.eqb Pos.eqb negb].
  destruct Ht as [[-> ->]|(t'' & -> & He)].
  - rewrite (parse_list_empty _ 125 _ _ b1 pre 123 w (c :: u) Hat1) by done. unfold b1. cbn [depth set_depth]. change (123 :: w ++ [125]) with ([123] ++ w ++ [125]). rewrite app_nil_r.
    rewrite depth_restored. eexists. split_and!; [done|done|]. by apply json_of_object.
  - destruct (parse_list_full (fun head => members json_of head = Some l) (object_loop (parse_value (S m))) 125 cJSON_Object item b1 pre 123 w 34 t'' (c :: u) Hat1) as (head & -> & Hh); [done|done|done| |].
    { intros x pre' b' k Hb' Hdb Hlb Hk. apply (He m k x b' pre' (c :: u) [] []); [lia|exact Hb'|rewrite Hdb; unfold b1; cbn [depth set_depth]; lia|by rewrite Hlb|done|done]. }
    unfold b1. cbn [depth set_depth]. change (123 :: w ++ ?r) with ([123] ++ w ++ r). rewrite depth_restored, (app_assoc w). eexists. split_and!; [done|done|]. by apply json_of_object.
Qed.

(** *** Words, numbers and strings *)
Lemma accepts_word n t ty j : (t = str "null" /\ ty = JNull \/ t = str "false" /\ ty = JBool false \/ t = str "true" /\ ty = JBool true) -> ty = j -> accepts n t j.
Proof.
  intros Ht <- m item b pre c u Hm Hat Hc Hd Hl. cbn [parse_value]. destruct Ht as [[-> ->]|[[-> ->]|[-> ->]]].
  - rewrite (at_text_yes b pre _ _ Hat), ret_bind. eexists. split_and!; [done|done|by apply json_of_null].
  - change (str "null") with (110 :: str "ull"). rewrite (at_text_no b pre 102 (str "alse" ++ c :: u)), ret_bind by done.
    rewrite (at_text_yes b pre _ _ Hat), ret_bind. eexists. split_and!; [done|done|by apply json_of_false].
  - change (str "null") with (110 :: str "ull"). change (str "false") with (102 :: str "alse"). rewrite !(at_text_no b pre 116 (str "rue" ++ c :: u)), !ret_bind by done.
    rewrite (at_text_yes b pre _ _ Hat), ret_bind. eexists. split_and!; [done|done|by apply json_of_true].
Qed.

Lemma accepts_number n t d : number_lit t d -> accepts n t (JNum d).
Proof.
  intros Ht m item b pre c u Hm Hat Hc Hd Hl. destruct (parse_number_at b pre t c u item d Hat Ht Hc) as (i & E).
  destruct Ht as ((_ & c0 & t' & -> & Hc0) & _). rewrite <- app_comm_cons in Hat.
  assert (c0 <> 34 /\ c0 <> 110 /\ c0 <> 102 /\ c0 <> 116 /\ (c0 =? 45) || is_digit c0 = true) as (H34 & H110 & H102 & H116 & Hn).
  { destruct Hc0 as [->|Hc0]; [done|]. rewrite Hc0, orb_true_r. unfold is_digit in Hc0. apply andb_true_iff in Hc0 as [?%Z.leb_le ?%Z.leb_le]. lia. }
  cbn [parse_value]. change (str "null") with (110 :: str "ull"). change (str "false") with (102 :: str "alse"). change (str "true") with (116 :: str "rue").
  rewrite !(at_text_no b pre c0 _ _ _ Hat), !ret_bind by done. rewrite (at_can _ _ _ _ Hat), (at_get _ _ _ _ Hat), ret_bind, (proj2 (Z.eqb_neq c0 34)) by done.
  change ((48 <=? c0) && (c0 <=? 57)) with (is_digit c0). rewrite Hn, E. eexists. split_and!; [done|done|by apply json_of_number].
Qed.

Lemma accepts_string n t s : string_text t s -> accepts n ([34] ++ t ++ [34]) (JStr s).
Proof.
  intros Ht m item b pre c u Hm Hat Hc Hd Hl. pose proof Hat as (e & _ & Hlen & _). rewrite !zlen_app in Hlen. zlen_facts.
  destruct (parse_string_at b pre t (c :: u) item s Hat Ht) as (r & E); [change (zlen [34]) with 1 in Hlen; lia|]. rewrite <- !app_assoc in Hat.
  cbn [parse_value]. change (str "null") with (110 :: str "ull"). change (str "false") with (102 :: str "alse"). change (str "true") with (116 :: str "rue").
  rewrite !(at_text_no b pre 34 _ _ _ Hat), !ret_bind by done. rewrite (at_can _ _ _ _ Hat), (at_get _ _ _ _ Hat), ret_bind. cbn [Z.eqb Pos.eqb]. rewrite E.
  eexists. split_and!; [done|done|]. apply (json_of_string _ s r); [done|done|by apply (string_text_no_nul t)].
Qed.


(** Every text of the grammar is accepted; the first element also without the
    white space before it. *)
Lemma grammar_accepted :
  (forall n t j, value_text n t j -> accepts n t j) /\
  (forall n t l, elements_in n t l -> accepts_elements n t l /\
    exists w t' c t'', t = w ++ t' /\ ws w /\ t' = c :: t'' /\ 32 < c /\ c <> 93 /\ accepts_elements n t' l) /\
  (forall n t l, members_in n t l -> accepts_members n t l /\
    exists w t' t'', t = w ++ t' /\ ws w /\ t' = 34 :: t'' /\ accepts_members n t' l).
Proof.
  assert (ws []) as Hnil by constructor.
  enough ((forall n t j, value_text n t j -> value_text n t j /\ accepts n t j) /\
    (forall n t l, elements_in n t l -> accepts_elements n t l /\
      exists w t' c t'', t = w ++ t' /\ ws w /\ t' = c :: t'' /\ 32 < c /\ c <> 93 /\ accepts_elements n t' l) /\
    (forall n t l, members_in n t l -> accepts_members n t l /\
      exists w t' t'', t = w ++ t' /\ ws w /\ t' = 34 :: t'' /\ accepts_members n t' l)) as (Hv & He & Hm) by (split; [intros; by apply Hv|done]).
  apply grammar_ind.
  - intros n. split; [constructor|]. eapply accepts_word; [|done]; auto.
  - intros n. split; [constructor|]. eapply accepts_word; [|done]; auto.
  - intros n. split; [constructor|]. eapply accepts_word; [|done]; auto.
  - intros n t d Ht. split; [by constructor|by apply accepts_number].
  - intros n t s Ht. split; [by constructor|by apply accepts_string].
  - intros n w Hw. split; [by constructor|]. apply (accepts_array n w [] []); [by rewrite app_nil_r|done|by left].
  - intros n t l Ht (_ & w & t' & c & t'' & -> & Hw & E & Hc & Hne & Hl). split; [by constructor|]. eapply accepts_array; [done|done|right; eauto 7].
  - intros n w Hw. split; [by constructor|]. apply (accepts_object n w [] []); [by rewrite app_nil_r|done|by left].
  - intros n t l Ht (_ & w & t' & t'' & -> & Hw & E & Hl). split; [by constructor|]. eapply accepts_object; [done|done|right; eauto].
  - intros n w1 t w2 j Hw1 Ht (_ & Hv) Hw2. split; [by apply array_loop_last|]. destruct (value_text_head _ _ _ Ht) as (c & t' & Et & Hc & Hne & _).
    exists w1, ([] ++ t ++ w2), c, (t' ++ w2). split_and!; [done|done|by rewrite Et|done|done|by apply array_loop_last].
  - intros n w1 t w2 j u l Hw1 Ht (_ & Hv) Hw2 Hu (Hl & _). split; [by apply array_loop_more|]. destruct (value_text_head _ _ _ Ht) as (c & t' & Et & Hc & Hne & _).
    exists w1, ([] ++ t ++ w2 ++ 44 :: u), c, (t' ++ w2 ++ 44 :: u). split_and!; [done|done|by rewrite Et|done|done|by apply array_loop_more].
  - intros n w1 k s w2 w3 t w4 j Hw1 Hk Hw2 Hw3 Ht (_ & Hv) Hw4. split; [by apply object_loop_last|].
    eexists w1, ([] ++ _), _. split_and!; [done|done|done|by apply object_loop_last].
  - intros n w1 k s w2 w3 t w4 j u l Hw1 Hk Hw2 Hw3 Ht (_ & Hv) Hw4 Hu (Hl & _). split; [by apply object_loop_more|].
    eexists w1, ([] ++ _), _. split_and!; [done|done|done|by apply object_loop_more].
Qed.

(** White space to the end of the text: the terminator is skipped, and one byte
    taken back. *)
Lemma skip_loop_end w : Forall (fun c => c <= 32) w -> forall n b pre, at_pos b pre w -> zlen w < Z.of_nat n -> skip_loop n b = Ret (ahead b w).
Proof.
  induction 1 as [|x w Hx _ IH]; intros n b pre Hat Hn; (destruct n as [|n]; [zlia|]); cbn [skip_loop].
  - destruct Hat as (x & _ & Hl & Ho). unfold can_access_at_index. change (zlen []) with 0 in Hl. rewrite (proj2 (Z.ltb_ge _ _)) by lia. by rewrite ahead_nil.
  - rewrite (at_can _ _ _ _ Hat), (at_get _ _ _ _ Hat), ret_bind, (proj2 (Z.leb_le _ _)) by lia. apply (at_ahead b pre [x]) in Hat.
    change (set_offset b (offset b + 1)) with (ahead b [x]). rewrite (IH n _ _ Hat), ahead_ahead; [done|rewrite zlen_cons in Hn; lia].
Qed.
Lemma skip_end b pre w : at_pos b pre (w ++ [0]) -> ws w -> buffer_skip_whitespace b = Ret (ahead b w).
Proof.
  intros Hat Hw. unfold buffer_skip_whitespace. pose proof Hat as (x & _ & Hl & Ho). rewrite zlen_app in Hl. change (zlen [0]) with 1 in Hl. zlen_facts.
  rewrite (skip_loop_end (w ++ [0])) with (pre := pre), ret_bind; [|apply Forall_app; split; [eapply Forall_impl; [exact Hw|cbn; lia]|by repeat constructor]|done|rewrite zlen_app; change (zlen [0]) with 1; lia].
  change (length_ (ahead b (w ++ [0]))) with (length_ b). unfold ahead. cbn [offset set_offset]. rewrite zlen_app. change (zlen [0]) with 1. rewrite (proj2 (Z.eqb_eq _ _)) by lia.
  unfold set_offset. cbn [content length_ depth]. do 2 f_equal. lia.
Qed.

(** The parser on a whole text: white space, a value, and anything behind it
    that cannot be in a number. *)
Lemma parse_whole w t j rest r rpe rnt : value_text (Z.to_nat CJSON_NESTING_LIMIT) t j -> ws w -> no_nul (w ++ t ++ rest) -> zlen (w ++ t ++ rest) < 2 ^ 61 ->
  match rest with c :: _ => is_num_char c = false | [] => True end -> (rnt = true -> ws rest) ->
  exists i, cJSON_ParseWithOpts (Some ((w ++ t ++ rest) ++ 0 :: r)) rpe rnt =
      Ret (Some i, if rpe then Some (if rnt then zlen (w ++ t ++ rest) else zlen (w ++ t)) else None, None) /\
    json_of i = Some j /\ string i = None.
Proof.
  intros Ht Hw Hnul Hlen Hrest Hrnt. set (s := w ++ t ++ rest) in *. unfold cJSON_ParseWithOpts.
  change (0 :: r) with ([0] ++ r). rewrite (strlen_cstr s r Hnul), ret_bind, new_item_total. set (b := mkParse _ _ _ _).
  assert (exists c u, rest ++ [0] = c :: u /\ is_num_char c = false) as (c & u & Ec & Hc) by (destruct rest as [|c rest]; [by exists 0, []|by exists c, (rest ++ [0])]).
  assert (at_pos b [] (w ++ t ++ c :: u)) as Hat.
  { exists r. unfold b. cbn [content length_ offset]. rewrite <- Ec. unfold s. split_and!; [by rewrite <- !app_assoc|rewrite !zlen_app; change (zlen [0]) with 1; change (zlen []) with 0; lia|done]. }
  destruct (value_text_head _ _ _ Ht) as (c0 & t' & Et & Hc0 & _).
  assert (at_pos b [] (w ++ c0 :: t' ++ c :: u)) as Hat0 by (by rewrite Et in Hat). rewrite (skip_at b [] w c0 _ Hat0), ret_bind by done.
  apply at_ahead in Hat. destruct (proj1 grammar_accepted _ _ _ Ht (Z.to_nat CJSON_NESTING_LIMIT) zero_item (ahead b w) ([] ++ w) c u) as (i & E & Hs & Hj); try done.
  { unfold b. change (length_ _) with (zlen s + 1). lia. }
  change (S (Z.to_nat CJSON_NESTING_LIMIT)) with parse_fuel in E. rewrite E, ret_bind. cbn [negb]. exists i.
  split; [|split; [done|by rewrite Hs]]. rewrite ahead_ahead.
  destruct rnt; [|done].
  apply at_ahead in Hat. rewrite ahead_ahead, <- Ec in Hat. rewrite (skip_end _ _ rest Hat), ret_bind, ahead_ahead by auto.
  apply at_ahead in Hat. rewrite ahead_ahead in Hat. unfold s. rewrite <- app_assoc in *.
  pose proof Hat as (x & _ & Hl & Ho). rewrite Hl, Ho. change (zlen [0]) with 1. rewrite (proj2 (Z.leb_gt _ _)) by lia.
  rewrite (at_get _ _ _ _ Hat), ret_bind. cbn [Z.eqb negb]. cbn [app]. by rewrite <- !app_assoc.
Qed.
End complete.

Lemma parser_accepts `{AllocTotal} `{Memory} w t w' j r return_parse_end require_null_terminated :
  value_text (Z.to_nat CJSON_NESTING_LIMIT) t j -> ws w -> ws w' -> no_nul t -> zlen (w ++ t ++ w') < 2 ^ 61 ->
  exists i, cJSON_ParseWithOpts (Some ((w ++ t ++ w') ++ 0 :: r)) return_parse_end require_null_terminated =
      Ret (Some i, if return_parse_end then Some (if require_null_terminated then zlen (w ++ t ++ w') else zlen (w ++ t)) else None, None) /\
    json_of i = Some j /\ string i = None.
Proof.
  intros Ht Hw Hw' Hnul Hlen.
  assert (forall v, ws v -> no_nul v) as Hws by (intros v Hv; apply no_nul_Forall; eapply Forall_impl; [exact Hv|cbn; lia]).
  apply (parse_whole w t j w' r); [done|done|apply no_nul_app; split; [by apply Hws|apply no_nul_app; auto]|done| |done].
  destruct Hw' as [|c v Hc Hv]; [done|]. destruct (follow [c] 0 []) as (c' & u' & E & Hnum); [constructor; [done|constructor]|done|]. by injection E as <- _.
Qed.

(** C19.  The parser accepts the texts of the grammar: white space, a text of at
    most 1000 levels (with numbers of at most 63 characters, without an escaped
    NUL and without lone surrogates in escapes: the code misreads those), and
    white space give an item that stands for the value of the
    text, also when the whole text is required; the position returned is the
    end of the text, or the end of the value when it is not required. *)
Theorem cJSON_ParseWithOpts_accepts `{AllocTotal} `{Memory} w t w' j r return_parse_end require_null_terminated :
  value_text (Z.to_nat CJSON_NESTING_LIMIT) t j -> ws w -> ws w' -> no_nul t -> zlen (w ++ t ++ w') < 2 ^ 61 ->
  exists i, cJSON_ParseWithOpts (Some ((w ++ t ++ w') ++ 0 :: r)) return_parse_end require_null_terminated =
      Ret (Some i, if return_parse_end then Some (if require_null_terminated then zlen (w ++ t ++ w') else zlen (w ++ t)) else None, None) /\
    json_of i = Some j /\ string i = None.
Proof. apply parser_accepts. Qed.

(** An object with white space, escapes, a pair of surrogates and numbers. *)
Definition demo_text : bytes :=
  [123; 32; 34; 97; 92; 110; 34; 9; 58; 10; 91; 49; 44; 32; 116; 114; 117; 101; 93; 44; 34; 92; 117; 100; 56; 51; 100; 92; 117; 68; 69; 48; 48; 34; 58; 123; 125; 32; 125].
Definition demo_json : json := JObj [([97; 10], JArr [JNum (of_int 1); JBool true]); ([240; 159; 152; 128], JObj [])].
Lemma demo_text_value n : value_text (S (S n)) demo_text demo_json.
Proof.
  assert (forall c, 0 < c <= 32 -> ws [c]) as Hw by (intros; by constructor; [|constructor]). assert (ws []) as Hnil by constructor.
  assert (value_text (S n) [91; 49; 44; 32; 116; 114; 117; 101; 93] (JArr [JNum (of_int 1); JBool true])) as Ha.
  { apply (vt_array n [49; 44; 32; 116; 114; 117; 101]). apply (el_more n [] [49] [] (JNum (of_int 1)) [32; 116; 114; 117; 101]); [done| |done|].
    - constructor. split_and!; [split; [by repeat constructor|by exists 49, []; auto]|vm_compute; reflexivity|done].
    - apply (el_last n [32] (str "true") []); [by apply Hw|constructor|done]. }
  apply (vt_object (S n) (rev (tl (rev (tl demo_text))))).
  apply (me_more (S n) [32] [97; 92; 110] [97; 10] [9] [10] [91; 49; 44; 32; 116; 114; 117; 101; 93] [] _ _ _); [by apply Hw| |by apply Hw|by apply Hw|done|done|].
  { apply text_char; [done|done|done|]. apply (text_escape 110 10 [] []); [done|constructor]. }
  apply (me_last (S n) [] [92; 117; 100; 56; 51; 100; 92; 117; 68; 69; 48; 48] _ [] [] [123; 125] [32] _); [done| |done|done|by apply (vt_empty_object n [])|by apply Hw].
  apply (text_pair [100; 56; 51; 100] 55357 [68; 69; 48; 48] 56832 [] []); [by repeat eexists|by repeat eexists|lia|lia|constructor].
Qed.


Lemma cJSON_ParseWithOpts_accepts_witness : ws [32; 10] /\ no_nul demo_text /\
  exists i, @cJSON_ParseWithOpts big_alloc demo_memory (Some (([32; 10] ++ demo_text ++ [13]) ++ 0 :: [])) true true = Ret (Some i, Some 42, None) /\
    json_of i = Some demo_json /\ string i = None.
Proof.
  assert (ws [32; 10] /\ ws [13]) as [Hw Hw'] by (split; repeat (constructor; [lia|]); constructor). assert (no_nul demo_text) as Hn by vm_decide.
  split; [exact Hw|]. split; [exact Hn|].
  apply (@cJSON_ParseWithOpts_accepts big_alloc _ demo_memory [32; 10] demo_text [13] demo_json [] true true (demo_text_value _) Hw Hw' Hn). vm_decide.
Defined.
