(* ===== verification/CJsonPrint.v ===== *)
(** * cJSON: printing

    [cJSON_Print], [cJSON_PrintUnformatted], [cJSON_PrintBuffered] and
    [cJSON_PrintPreallocated] of [base/cJSON.c]: text is written at an offset
    of a block that [ensure] lets grow.  What the block holds before it is
    written is arbitrary ([uninit]), so a terminator that the code forgot
    would show.  The theorems give the exact text, for every item that stands
    for a JSON value. *)

From stdpp Require Import base tactics numbers list option strings sets.
From Stdlib Require Import Lia.
From S2P Require Import Prelude Double CJson CJsonSpec.

(** ** Hooks *)

(** [None] is the function of the C library. *)
Record internal_hooks := mkHooks { allocate : option Z; deallocate : option Z; reallocate : bool }.

Definition cJSON_InitHooks (hooks : option (option Z * option Z)) : internal_hooks :=
  match hooks with
  | None => mkHooks None None true
  | Some (malloc_fn, free_fn) => mkHooks malloc_fn free_fn (bool_decide (malloc_fn = None /\ free_fn = None))
  end.
Definition global_hooks : internal_hooks := mkHooks None None true.

(** ** The buffer *)

(** What the field [buffer] points to. *)
Inductive pointer := Block (b : bytes) | Null | Freed.

Record printbuffer := mkPrint { buffer : pointer; p_length : Z; p_offset : Z; p_depth : Z; noalloc : bool; format : bool; hooks : internal_hooks }.

Definition set_block (p : printbuffer) (b : pointer) (n : Z) : printbuffer := mkPrint b n (p_offset p) (p_depth p) (noalloc p) (format p) (hooks p).
Definition advance (p : printbuffer) (n : Z) : printbuffer := mkPrint (buffer p) (p_length p) (p_offset p + n) (p_depth p) (noalloc p) (format p) (hooks p).
Definition set_p_depth (p : printbuffer) (d : Z) : printbuffer := mkPrint (buffer p) (p_length p) (p_offset p) d (noalloc p) (format p) (hooks p).

(** [free]; of a pointer that has been freed it is undefined. *)
Definition free (p : pointer) : outcome unit := match p with Freed => Undefined | _ => Ret tt end.

Section printing.
Context `{Allocator} `{Memory}.

(** [realloc]: the bytes that fit, and what the new memory holds. *)
Definition resize (b : bytes) (n : Z) : bytes := ztake n b ++ (uninit <$> seqZ (zlen b) (n - zlen b)).

(** Whether there is room for [needed] bytes and a terminator at the offset. *)
Definition ensure (p : printbuffer) (needed : Z) : outcome (bool * printbuffer) :=
  match buffer p with
  | Null => Ret (false, p)
  | Freed => Undefined
  | Block b =>
    if (0 <? p_length p) && (p_length p <=? p_offset p) then Ret (false, p) else
    if INT_MAX <? needed then Ret (false, p) else
    let needed := u64 (needed + u64 (p_offset p + 1)) in
    if needed <=? p_length p then Ret (true, p) else
    if noalloc p then Ret (false, p) else
    let newsize := if INT_MAX / 2 <? needed then if needed <=? INT_MAX then Some INT_MAX else None else Some (needed * 2) in
    match newsize with
    | None => Ret (false, p)
    | Some newsize =>
      match malloc newsize with
      | None => let! _ := free (buffer p) in Ret (false, set_block p Null 0)
      | Some _ =>
        if reallocate (hooks p) then Ret (true, set_block p (Block (resize b newsize)) newsize)
        else
          let! d := mem_read b 0 (p_offset p + 1) in
          let! newbuffer := mem_write (new_block newsize) 0 d in
          Ret (true, set_block p (Block newbuffer) newsize)
      end
    end
  end.

(** Writing [d] at the offset. *)
Definition write (p : printbuffer) (d : bytes) : outcome printbuffer :=
  match buffer p with
  | Block b => let! b := mem_write b (p_offset p) d in Ret (set_block p (Block b) (p_length p))
  | _ => Undefined
  end.

(** What the printing functions do for each piece: reserve [needed] bytes,
    write [d], and move the offset by [n]. *)
Definition emit (needed : Z) (d : bytes) (n : Z) (p : printbuffer) : outcome (bool * printbuffer) :=
  let! (ok, p) := ensure p needed in
  if negb ok then Ret (false, p) else
  let! p := write p d in
  Ret (true, advance p n).

Definition update_offset (p : printbuffer) : outcome printbuffer :=
  match buffer p with
  | Null => Ret p
  | Freed => Undefined
  | Block b => let! n := strlen (zdrop (p_offset p) b) in Ret (advance p n)
  end.

(** ** Numbers *)

(** [sprintf] into [number_buffer], which has 26 bytes. *)
Definition sprintf_number (t : bytes) : outcome bytes := defined (zlen t + 1 <=? 26) ;; Ret t.

Definition print_number (item : cJSON) (p : printbuffer) : outcome (bool * printbuffer) :=
  let d := valuedouble item in
  let! number_buffer :=
    if not_finite d then sprintf_number (str "null") else
    let! t := sprintf_number (sprintf_g 15 d) in
    match sscanf_lg t with
    | Some test => if negb (deq test d) then sprintf_number (sprintf_g 17 d) else Ret t
    | None => sprintf_number (sprintf_g 17 d)
    end in
  let length := zlen number_buffer in
  if (length <? 0) || (25 <? length) then Ret (false, p) else
  emit length (map (fun c => if c =? get_decimal_point then 46 else c) number_buffer ++ [0]) length p.

(** ** Strings *)
Definition one_letter (c : Z) : bool := (c =? 34) || (c =? 92) || (c =? 8) || (c =? 12) || (c =? 10) || (c =? 13) || (c =? 9).

(** The characters that escaping adds. *)
Fixpoint escape_characters (s : bytes) : Z :=
  match s with
  | [] => 0
  | c :: s => (if one_letter c then 1 else if c <? 32 then 5 else 0) + escape_characters s
  end.

(** [sprintf("u%04x", c)] with its terminator. *)
Definition hex_digit_char (d : Z) : Z := if d <? 10 then 48 + d else 87 + d.
Definition u04x (c : Z) : bytes := 117 :: map hex_digit_char [c / 4096 mod 16; c / 256 mod 16; c / 16 mod 16; c mod 16] ++ [0].

Definition write_at (p : printbuffer) (o : Z) (d : bytes) : outcome printbuffer :=
  match buffer p with
  | Block b => let! b := mem_write b o d in Ret (set_block p (Block b) (p_length p))
  | _ => Undefined
  end.

(** The loop that copies and escapes, with [output_pointer] at [o]. *)
Fixpoint escape_loop (s : bytes) (o : Z) (p : printbuffer) : outcome printbuffer :=
  match s with
  | [] => Ret p
  | c :: s =>
    if (31 <? c) && negb (c =? 34) && negb (c =? 92) then
      let! p := write_at p o [c] in escape_loop s (o + 1) p
    else
      let! p := write_at p o [92] in
      let letter x := let! p := write_at p (o + 1) [x] in escape_loop s (o + 2) p in
      if c =? 92 then letter 92 else if c =? 34 then letter 34 else if c =? 8 then letter 98 else
      if c =? 12 then letter 102 else if c =? 10 then letter 110 else if c =? 13 then letter 114 else
      if c =? 9 then letter 116 else
      let! p := write_at p (o + 1) (u04x c) in escape_loop s (o + 6) p
  end.

Definition print_string_ptr (input : option bytes) (p : printbuffer) : outcome (bool * printbuffer) :=
  match input with
  | None => emit 3 [34; 34; 0] 0 p
  | Some input =>
    let! s := c_str input in
    let escapes := escape_characters s in
    let output_length := zlen s + escapes in
    if escapes =? 0 then emit (output_length + 3) ([34] ++ s ++ [34; 0]) 0 p else
    let! (ok, p) := ensure p (output_length + 3) in
    if negb ok then Ret (false, p) else
    let! p := write p [34] in
    let! p := escape_loop s (p_offset p + 1) p in
    let! p := write_at p (p_offset p + output_length + 1) [34; 0] in
    Ret (true, p)
  end.
Definition print_string (item : cJSON) (p : printbuffer) := print_string_ptr (valuestring item) p.

(** ** Arrays and objects *)
Section containers.
Context (print_value : cJSON -> printbuffer -> outcome (bool * printbuffer)).

Fixpoint print_elements (l : list cJSON) (p : printbuffer) : outcome (bool * printbuffer) :=
  match l with
  | [] => Ret (true, p)
  | current_element :: l =>
    let! (ok, p) := print_value current_element p in
    if negb ok then Ret (false, p) else
    let! p := update_offset p in
    match l with
    | [] => Ret (true, p)
    | _ =>
      let length := if format p then 2 else 1 in
      let! (ok, p) := emit (length + 1) ([44] ++ (if format p then [32] else []) ++ [0]) length p in
      if negb ok then Ret (false, p) else print_elements l p
    end
  end.

Definition print_array (item : cJSON) (p : printbuffer) : outcome (bool * printbuffer) :=
  let! (ok, p) := emit 1 [91] 1 p in
  if negb ok then Ret (false, p) else
  let! (ok, p) := print_elements (child item) (set_p_depth p (p_depth p + 1)) in
  if negb ok then Ret (false, p) else
  let! (ok, p) := emit 2 [93; 0] 0 p in
  if negb ok then Ret (false, p) else Ret (true, set_p_depth p (p_depth p - 1)).

Definition tabs (n : Z) : bytes := replicate (Z.to_nat n) 9.

Fixpoint print_members (l : list cJSON) (p : printbuffer) : outcome (bool * printbuffer) :=
  match l with
  | [] => Ret (true, p)
  | current_item :: l =>
    let! (ok, p) := if format p then emit (p_depth p) (tabs (p_depth p)) (p_depth p) p else Ret (true, p) in
    if negb ok then Ret (false, p) else
    let! (ok, p) := print_string_ptr (string current_item) p in
    if negb ok then Ret (false, p) else
    let! p := update_offset p in
    let length := if format p then 2 else 1 in
    let! (ok, p) := emit length ([58] ++ if format p then [9] else []) length p in
    if negb ok then Ret (false, p) else
    let! (ok, p) := print_value current_item p in
    if negb ok then Ret (false, p) else
    let! p := update_offset p in
    let more := match l with [] => false | _ => true end in
    let length := (if format p then 1 else 0) + (if more then 1 else 0) in
    let! (ok, p) := emit (length + 1) ((if more then [44] else []) ++ (if format p then [10] else []) ++ [0]) length p in
    if negb ok then Ret (false, p) else print_members l p
  end.

Definition print_object (item : cJSON) (p : printbuffer) : outcome (bool * printbuffer) :=
  let length := if format p then 2 else 1 in
  let! (ok, p) := emit (length + 1) ([123] ++ if format p then [10] else []) length p in
  if negb ok then Ret (false, p) else
  let! (ok, p) := print_members (child item) (set_p_depth p (p_depth p + 1)) in
  if negb ok then Ret (false, p) else
  let! (ok, p) := emit (if format p then p_depth p + 1 else 2) ((if format p then tabs (p_depth p - 1) else []) ++ [125; 0]) 0 p in
  if negb ok then Ret (false, p) else Ret (true, set_p_depth p (p_depth p - 1)).
End containers.

Fixpoint print_value (item : cJSON) (p : printbuffer) : outcome (bool * printbuffer) :=
  let t := base_type item in
  if t =? cJSON_NULL then emit 5 (str "null" ++ [0]) 0 p
  else if t =? cJSON_False then emit 6 (str "false" ++ [0]) 0 p
  else if t =? cJSON_True then emit 5 (str "true" ++ [0]) 0 p
  else if t =? cJSON_Number then print_number item p
  else if t =? cJSON_Raw then
    match valuestring item with
    | None =>
      if noalloc p then Ret (false, p) else
      let! _ := free (buffer p) in Ret (false, set_block p Freed (p_length p))
    | Some raw =>
      let! n := strlen raw in
      emit (n + 1) (ztake (n + 1) raw) 0 p
    end
  else if t =? cJSON_String then print_string item p
  else if t =? cJSON_Array then print_array print_value item p
  else if t =? cJSON_Object then print_object print_value item p
  else Ret (false, p).

(** ** The calls *)

(** The text, [None] for a null pointer. *)
Definition print (item : cJSON) (format : bool) (hooks : internal_hooks) : outcome (option bytes) :=
  match malloc 256 with
  | None => Ret None
  | Some n =>
    let p := mkPrint (Block (new_block n)) 0 0 0 false format hooks in
    let! (ok, p) := print_value item p in
    if negb ok then let! _ := free (buffer p) in Ret None else
    let! p := update_offset p in
    match buffer p with
    | Block b =>
      if reallocate hooks then
        match malloc (p_length p) with None => Ret None | Some n => Ret (Some (resize b n)) end
      else
        match malloc (p_offset p + 1) with
        | None => Ret None
        | Some n =>
          let! d := mem_read b 0 (Z.min (p_length p) (p_offset p + 1)) in
          let! printed := mem_write (new_block n) 0 d in
          let! printed := arr_set printed (p_offset p) 0 in
          Ret (Some printed)
        end
    | _ => Undefined
    end
  end.
Definition cJSON_Print (item : cJSON) (hooks : internal_hooks) := print item true hooks.
Definition cJSON_PrintUnformatted (item : cJSON) (hooks : internal_hooks) := print item false hooks.

Definition cJSON_PrintBuffered (item : cJSON) (prebuffer : Z) (fmt : bool) (hooks : internal_hooks) : outcome (option bytes) :=
  if prebuffer <? 0 then Ret None else
  match malloc prebuffer with
  | None => Ret None
  | Some n =>
    let! (ok, p) := print_value item (mkPrint (Block (new_block n)) prebuffer 0 0 false fmt hooks) in
    if negb ok then let! _ := free (buffer p) in Ret None else
    match buffer p with Block b => Ret (Some b) | _ => Undefined end
  end.

(** The answer and the caller's block. *)
Definition cJSON_PrintPreallocated (item : cJSON) (buf : option bytes) (len : Z) (fmt : bool) (hooks : internal_hooks) : outcome (bool * option bytes) :=
  match buf with
  | None => Ret (false, None)
  | Some buf =>
    if len <? 0 then Ret (false, Some buf) else
    let! (ok, p) := print_value item (mkPrint (Block buf) len 0 0 true fmt hooks) in
    match buffer p with Block b => Ret (ok, Some b) | _ => Undefined end
  end.
End printing.
