(* ===== verification/CJsonPrintOk.v ===== *)
(** * cJSON: what printing writes

    The text of a JSON value ([json_text]), and the theorem that the printing
    functions write exactly it, inside their block, whenever there is room for
    it, and otherwise fail without harm. *)

From stdpp Require Import base tactics numbers list option strings sets.
From Stdlib Require Import Lia.
From S2P Require Import Prelude Double CJson CJsonSpec CJsonPrint.

(** ** The text of a value *)
Definition escape (c : Z) : bytes :=
  if c =? 92 then [92; 92] else if c =? 34 then [92; 34] else if c =? 8 then [92; 98] else
  if c =? 12 then [92; 102] else if c =? 10 then [92; 110] else if c =? 13 then [92; 114] else
  if c =? 9 then [92; 116] else
  if c <? 32 then 92 :: 117 :: map hex_digit_char [c / 4096 mod 16; c / 256 mod 16; c / 16 mod 16; c mod 16] else [c].
Definition escapes (s : bytes) : bytes := concat (map escape s).
Definition quote (s : bytes) : bytes := [34] ++ escapes s ++ [34].

Section text.
Variable fmt : bool.

Definition number (d : double) : bytes := if not_finite d then str "null" else number_text d.

Fixpoint json_text (depth : Z) (j : json) : bytes :=
  match j with
  | JNull => str "null"
  | JBool b => if b then str "true" else str "false"
  | JNum d => number d
  | JStr s => quote s
  | JArr l =>
    [91] ++ (fix go l := match l with
      | [] => []
      | [j] => json_text (depth + 1) j
      | j :: l => json_text (depth + 1) j ++ [44] ++ (if fmt then [32] else []) ++ go l
      end) l ++ [93]
  | JObj l =>
    [123] ++ (if fmt then [10] else []) ++ (fix go l := match l with
      | [] => []
      | kv :: l => (if fmt then tabs (depth + 1) else []) ++ quote kv.1 ++ [58] ++ (if fmt then [9] else []) ++ json_text (depth + 1) kv.2 ++
                   match l with [] => [] | _ => [44] end ++ (if fmt then [10] else []) ++ go l
      end) l ++ (if fmt then tabs depth else []) ++ [125]
  end.

(** The elements and members, separated. *)
Fixpoint elements_text (depth : Z) (l : list json) : bytes :=
  match l with
  | [] => []
  | [j] => json_text depth j
  | j :: l => json_text depth j ++ [44] ++ (if fmt then [32] else []) ++ elements_text depth l
  end.
Fixpoint members_text (depth : Z) (l : list (bytes * json)) : bytes :=
  match l with
  | [] => []
  | kv :: l => (if fmt then tabs depth else []) ++ quote kv.1 ++ [58] ++ (if fmt then [9] else []) ++ json_text depth kv.2 ++
               match l with [] => [] | _ => [44] end ++ (if fmt then [10] else []) ++ members_text depth l
  end.

Lemma json_text_arr depth l : json_text depth (JArr l) = [91] ++ elements_text (depth + 1) l ++ [93].
Proof. cbn [json_text]. do 2 f_equal. induction l as [|j [|j' l] IH]; [done|done|]. cbn [elements_text]. do 3 f_equal. exact IH. Qed.
Lemma json_text_obj depth l : json_text depth (JObj l) =
  [123] ++ (if fmt then [10] else []) ++ members_text (depth + 1) l ++ (if fmt then tabs depth else []) ++ [125].
Proof. cbn [json_text]. do 3 f_equal. induction l as [|kv l IH]; [done|]. cbn [members_text]. do 8 f_equal. exact IH. Qed.
End text.

(** ** The state of a printing *)
Section laws.
Context `{Allocator} `{Memory}.

(** [pre] has been written; the block is as large as its length says. *)
Record wrote (p : printbuffer) (pre : bytes) : Prop := {
  wr_block : exists rest, buffer p = Block (pre ++ rest) /\ p_length p <= zlen (pre ++ rest) /\
             (noalloc p = true \/ reallocate (hooks p) = true \/ zlen pre < zlen (pre ++ rest));
  wr_offset : p_offset p = zlen pre;
  wr_length : 0 <= p_length p <= INT_MAX;
  wr_room : zlen pre < p_length p \/ p_length p = 0 /\ pre = []
}.

(** What no printing function changes. *)
Definition block_size (p : printbuffer) : Z := match buffer p with Block b => zlen b | _ => 0 end.
Definition same (p p' : printbuffer) : Prop :=
  noalloc p' = noalloc p /\ format p' = format p /\ hooks p' = hooks p /\
  (noalloc p = true -> p_length p' = p_length p /\ block_size p' = block_size p).

Lemma same_refl p : same p p.
Proof. done. Qed.
Lemma same_trans p1 p2 p3 : same p1 p2 -> same p2 p3 -> same p1 p3.
Proof. intros (A1 & A2 & A3 & A4) (B1 & B2 & B3 & B4). split_and!; try congruence. intros Hn. destruct B4; [congruence|]. destruct A4; [done|]. split; congruence. Qed.

(** The room there can be. *)
Definition capacity (p : printbuffer) : Z := if noalloc p then p_length p else INT_MAX.
Lemma capacity_same p p' : same p p' -> capacity p' = capacity p.
Proof. intros (A1 & A2 & A3 & A4). unfold capacity. rewrite A1. destruct (noalloc p); [|done]. by apply A4. Qed.

(** A failure: nothing was freed that the caller frees, and the allocator
    refused or there is no room for [n] bytes. *)
Definition failed (p p' : printbuffer) (n : Z) : Prop :=
  buffer p' <> Freed /\ (buffer p' = Null -> noalloc p = false) /\ (AllocTotal \/ noalloc p = true -> capacity p < p_offset p + n).

Lemma failed_later p p1 p' n m : same p p1 -> failed p1 p' n -> p_offset p1 + n <= p_offset p + m -> failed p p' m.
Proof.
  intros Hs (F1 & F2 & F3) Hn. split_and!; [done|intros E; rewrite <- (proj1 Hs); auto|]. intros Ht. rewrite <- (proj1 Hs) in Ht. specialize (F3 Ht).
  rewrite (capacity_same p p1 Hs) in F3. lia.
Qed.

Lemma zlen_uninit a n : zlen (uninit <$> seqZ a n) = Z.max 0 n.
Proof. unfold zlen. rewrite length_fmap, length_seqZ. lia. Qed.

Lemma resize_ok pre rest n : zlen pre <= n -> exists rest', resize (pre ++ rest) n = pre ++ rest' /\ zlen (pre ++ rest') = n.
Proof.
  intros Hn. zlen_facts. unfold resize. eexists. rewrite ztake_app_ge, <- app_assoc by lia. split; [reflexivity|].
  rewrite !zlen_app, zlen_uninit, zlen_ztake. lia.
Qed.

Lemma copy_ok pre rest n : zlen pre < n -> zlen pre < zlen (pre ++ rest) ->
  exists rest', (let! d := mem_read (pre ++ rest) 0 (zlen pre + 1) in mem_write (new_block n) 0 d) = Ret (pre ++ rest') /\ zlen (pre ++ rest') = n.
Proof.
  intros Hn Hl. zlen_facts. unfold mem_read. rewrite bool_decide_true, ret_bind by lia. unfold slice. rewrite zdrop_0, ztake_app_ge by lia.
  replace (zlen pre + 1 - zlen pre) with 1 by lia. destruct rest as [|x rest]; [rewrite app_nil_r in Hl; lia|]. change (ztake 1 (x :: rest)) with [x].
  assert (zlen (new_block n) = n) as Hnew by (unfold new_block; rewrite zlen_uninit; lia).
  unfold mem_write. rewrite bool_decide_true by (rewrite Hnew; zlia).
  exists ([x] ++ zdrop (zlen pre + 1) (new_block n)). unfold mem_splice. rewrite ztake_0. cbn [app]. rewrite <- app_assoc. split.
  - do 4 f_equal. zlia.
  - rewrite zlen_app. change (x :: ?l) with ([x] ++ l). rewrite zlen_app, zlen_zdrop, Hnew. change (zlen [x]) with 1. lia.
Qed.

Lemma ensure_ok p pre needed : wrote p pre -> 0 <= needed < 2 ^ 62 ->
  exists ok p', ensure p needed = Ret (ok, p') /\ same p p' /\ p_depth p' = p_depth p /\
    if ok : bool then wrote p' pre /\ p_offset p + needed + 1 <= p_length p' else failed p p' (needed + 1).
Proof.
  intros Hw Hn. pose proof Hw as [(rest & Hb & Hlen & Hre) Ho Hl Hr]. unfold ensure. rewrite Hb.
  assert (0 <= zlen pre) as Hz by apply zlen_nonneg. change INT_MAX with 2147483647 in *.
  assert ((0 <? p_length p) && (p_length p <=? p_offset p) = false) as ->
    by (apply andb_false_iff; destruct Hr as [Hr|[Hr _]]; [right; apply Z.leb_gt; lia|left; apply Z.ltb_ge; lia]).
  assert (zlen pre <= 2147483647) as Hz' by (destruct Hr as [?|[? ->]]; [lia|done]).
  assert (capacity p < p_offset p + (needed + 1) -> exists ok p', Ret (false, p) = Ret (ok, p') /\ same p p' /\ p_depth p' = p_depth p /\
    if ok : bool then wrote p' pre /\ p_offset p + needed + 1 <= p_length p' else failed p p' (needed + 1)) as Hfail.
  { intros Hc. exists false, p. split_and!; [done|done|done|]. split_and!; [by rewrite Hb|by rewrite Hb|done]. }
  assert (capacity p <= 2147483647) as Hcap by (unfold capacity; change INT_MAX with 2147483647; destruct (noalloc p); lia).
  destruct (Z.ltb_spec 2147483647 needed); [apply Hfail; lia|]. rewrite (wrapu_small 64 (p_offset p + 1)), wrapu_small by lia.
  destruct (Z.leb_spec (needed + (p_offset p + 1)) (p_length p)); [exists true, p; split_and!; [done|done|done|done|lia]|].
  destruct (noalloc p) eqn:Hna; [apply Hfail; unfold capacity; rewrite Hna; lia|].
  set (newsize := if 2147483647 / 2 <? needed + (p_offset p + 1) then _ else _).
  assert (newsize = None /\ 2147483647 < needed + (p_offset p + 1) \/ exists n, newsize = Some n /\ needed + (p_offset p + 1) <= n <= 2147483647) as [[-> Hbig]|(n & -> & Hnn)].
  { unfold newsize. change (2147483647 / 2) with 1073741823. destruct (Z.ltb_spec 1073741823 (needed + (p_offset p + 1))).
    - destruct (Z.leb_spec (needed + (p_offset p + 1)) 2147483647); [right; eexists; split; [done|lia]|left; split; [done|lia]].
    - right. eexists. split; [done|lia]. }
  { apply Hfail. lia. }
  unfold malloc. destruct (alloc_ok n) eqn:Ha.
  2: { cbn [free]. rewrite ret_bind. exists false, (set_block p Null 0). split_and!; [done|split_and!; try done; cbn; congruence|done|].
       split_and!; [done|done|]. intros [Ht|Ht]; [rewrite Ht in Ha by lia; done|congruence]. }
  assert (forall b, same p (set_block p b n)) as Hsame' by (intros b; split_and!; try done; cbn; congruence).
  destruct (reallocate (hooks p)) eqn:Hra.
  - destruct (resize_ok pre rest n) as (rest' & -> & Hn'); [lia|]. exists true, (set_block p (Block (pre ++ rest')) n). split_and!; [done|apply Hsame'|done| |cbn; lia].
    split; cbn; [|done|change INT_MAX with 2147483647; lia|left; lia]. exists rest'. split_and!; [done|lia|by right; left].
  - destruct Hre as [?|[?|Hre]]; [congruence|congruence|]. destruct (copy_ok pre rest n) as (rest' & E & Hn'); [lia|done|]. rewrite Ho.
    apply bind_Ret in E as (d & E1 & E2). rewrite E1, ret_bind, E2, ret_bind.
    exists true, (set_block p (Block (pre ++ rest')) n). split_and!; [done|apply Hsame'|done| |cbn; lia].
    split; cbn; [|done|change INT_MAX with 2147483647; lia|left; lia]. exists rest'. split_and!; [done|lia|right; right; lia].
Qed.

(** [t] has been written at the offset, with a terminator; the offset may have
    moved over a part of it. *)
Record printed (p : printbuffer) (pre t : bytes) : Prop := {
  pr_block : exists rest, buffer p = Block (pre ++ t ++ 0 :: rest) /\ p_length p <= zlen (pre ++ t ++ 0 :: rest);
  pr_offset : zlen pre <= p_offset p <= zlen pre + zlen t;
  pr_length : zlen pre + zlen t < p_length p <= INT_MAX
}.

Lemma update_offset_ok p pre t : printed p pre t -> no_nul t ->
  exists p', update_offset p = Ret p' /\ wrote p' (pre ++ t) /\ same p p' /\ p_depth p' = p_depth p /\ printed p' (pre ++ t) [].
Proof.
  intros [(rest & Hb & Hl) Ho Hlen] Ht. unfold update_offset. rewrite Hb. zlen_facts.
  rewrite zdrop_app_ge by lia. rewrite zdrop_app_le by lia.
  assert (strlen (zdrop (p_offset p - zlen pre) t ++ 0 :: rest) = Ret (zlen (zdrop (p_offset p - zlen pre) t))) as ->.
  { apply (strlen_cstr _ rest). intros Hin. apply Ht. rewrite <- (ztake_zdrop (p_offset p - zlen pre) t). apply elem_of_app. by right. }
  rewrite ret_bind. eexists. split; [done|]. rewrite zlen_zdrop. split_and!; [|done|done|].
  - split; cbn; [|rewrite zlen_app; lia|lia|left; rewrite zlen_app; lia]. exists (0 :: rest). rewrite Hb, <- app_assoc. split_and!; [done|done|right; right; zlia].
  - split; cbn; [|rewrite !zlen_app; change (zlen []) with 0; lia|rewrite !zlen_app; change (zlen []) with 0; lia]. exists rest. rewrite Hb, <- app_assoc. done.
Qed.

(** One piece. *)
Lemma emit_ok p pre needed d n : wrote p pre -> 0 <= needed < 2 ^ 62 -> zlen d <= needed + 1 -> 0 <= n <= zlen d -> n <= needed ->
  exists ok p', emit needed d n p = Ret (ok, p') /\ same p p' /\ p_depth p' = p_depth p /\
    if ok : bool then (exists rest, buffer p' = Block (pre ++ d ++ rest) /\ p_length p' <= zlen (pre ++ d ++ rest)) /\
      p_offset p' = zlen pre + n /\ zlen pre + needed + 1 <= p_length p' <= INT_MAX
    else failed p p' (needed + 1).
Proof.
  intros Hw Hn Hd Hnd Hnn. unfold emit. destruct (ensure_ok p pre needed Hw Hn) as (ok & p1 & -> & Hs & Hdep & Hok). rewrite ret_bind.
  destruct ok; cbn [negb]; [|by exists false, p1]. destruct Hok as [[(rest & Hb & Hl & _) Ho Hlen _] Hroom]. unfold write. rewrite Hb.
  pose proof (wr_offset _ _ Hw) as Ho0. zlen_facts. rewrite Ho. unfold mem_write. rewrite bool_decide_true by lia. rewrite !ret_bind.
  exists true, (advance (set_block p1 (Block (mem_splice (pre ++ rest) (zlen pre) d)) (p_length p1)) n). split; [done|]. split.
  { apply (same_trans _ p1); [done|]. split_and!; [done|done|done|]. intros _. cbn. split; [done|]. unfold block_size. rewrite Hb. cbn.
    apply zlen_mem_splice; lia. }
  split; [done|]. cbn. split; [|lia].
  unfold mem_splice. rewrite ztake_app_exact by done. rewrite zdrop_app_ge by lia. eexists. split; [done|].
  rewrite !zlen_app, zlen_zdrop. rewrite zlen_app in Hl. lia.
Qed.

(** A piece without terminator, passed over. *)
Lemma emit_wrote p pre needed d : wrote p pre -> 0 <= needed < 2 ^ 62 -> zlen d <= needed ->
  exists ok p', emit needed d (zlen d) p = Ret (ok, p') /\ same p p' /\ p_depth p' = p_depth p /\
    if ok : bool then wrote p' (pre ++ d) else failed p p' (needed + 1).
Proof.
  intros Hw Hn Hd. pose proof (zlen_nonneg pre). pose proof (zlen_nonneg d). destruct (emit_ok p pre needed d (zlen d) Hw Hn) as (ok & p' & -> & Hs & Hdep & Hok); [lia|lia|lia|].
  exists ok, p'. split_and!; [done|done|done|]. destruct ok; [|done]. destruct Hok as ((rest & Hb & Hl) & Ho & Hr).
  split; [exists rest; rewrite <- app_assoc; split_and!; [done|done|right; right; rewrite !zlen_app in Hl; rewrite !zlen_app; lia]|rewrite zlen_app; lia|lia|left; rewrite zlen_app; lia].
Qed.

(** A piece with its terminator. *)
Lemma emit_printed p pre needed d n : wrote p pre -> 0 <= needed < 2 ^ 62 -> zlen d <= needed -> 0 <= n <= zlen d ->
  exists ok p', emit needed (d ++ [0]) n p = Ret (ok, p') /\ same p p' /\ p_depth p' = p_depth p /\
    if ok : bool then printed p' pre d else failed p p' (needed + 1).
Proof.
  intros Hw Hn Hd Hnd. pose proof (zlen_nonneg pre). pose proof (zlen_nonneg d). destruct (emit_ok p pre needed (d ++ [0]) n Hw Hn) as (ok & p' & -> & Hs & Hdep & Hok); [zlia|zlia|lia|].
  exists ok, p'. split_and!; [done|done|done|]. destruct ok; [|done]. destruct Hok as ((rest & Hb & Hl) & Ho & Hr). rewrite <- app_assoc in *. cbn [app] in *.
  split; [by exists rest|lia|lia].
Qed.

(** [t] is printed, or there is no room for it. *)
Definition prints (p : printbuffer) (pre t : bytes) (r : outcome (bool * printbuffer)) : Prop :=
  exists ok p', r = Ret (ok, p') /\ same p p' /\
    if ok : bool then printed p' pre t /\ p_depth p' = p_depth p else failed p p' (zlen t + 2).

Lemma emit_prints p pre needed d n : wrote p pre -> zlen d <= needed <= zlen d + 1 -> zlen d < 2 ^ 61 -> 0 <= n <= zlen d ->
  prints p pre d (emit needed (d ++ [0]) n p).
Proof.
  intros Hw Hn Hd Hnd. destruct (emit_printed p pre needed d n Hw) as (ok & p' & E & Hs & Hdep & Hok); [lia|lia|lia|].
  exists ok, p'. split_and!; [done|done|]. destruct ok; [done|]. apply (failed_later p p p' (needed + 1)); [done|done|lia].
Qed.

(** ** Numbers *)
Lemma print_number_ok item p pre : wrote p pre -> canonical (valuedouble item) ->
  prints p pre (number (valuedouble item)) (print_number item p).
Proof.
  intros Hw Hc. unfold print_number, number. set (d := valuedouble item) in *. clearbody d.
  assert (forall t, 0 <= zlen t <= 24 ->
    prints p pre t (if (zlen t <? 0) || (25 <? zlen t) then Ret (false, p)
      else emit (zlen t) (map (fun c => if c =? get_decimal_point then 46 else c) t ++ [0]) (zlen t) p)) as Hemit.
  { intros t Ht. rewrite (proj2 (Z.ltb_ge _ _)), (proj2 (Z.ltb_ge _ _)) by lia. cbn [orb].
    assert (map (fun c => if c =? get_decimal_point then 46 else c) t = t) as ->.
    { rewrite <- (map_id t) at 2. apply map_ext. intros c. unfold get_decimal_point. by destruct (Z.eqb_spec c 46) as [->|]. }
    apply emit_prints; [done|lia|lia|lia]. }
  assert (forall t, zlen t <= 24 -> sprintf_number t = Ret t) as Hsp.
  { intros t Ht. unfold sprintf_number, defined. by rewrite (proj2 (Z.leb_le _ _)) by lia. }
  destruct (not_finite d) eqn:Hf; [rewrite Hsp by vm_decide; rewrite ret_bind; apply (Hemit (str "null")); vm_decide|].
  destruct (number_text_reads_back d Hc Hf) as (_ & _ & Hl). unfold number_text in *. destruct d as [sg m E| |]; [|done|done].
  destruct (sprintf_g_text 15 sg m E ltac:(lia) Hc) as [_ H15]. destruct (sprintf_g_text 17 sg m E ltac:(lia) Hc) as [_ H17].
  rewrite (Hsp (sprintf_g 15 _)), ret_bind by lia.
  destruct (sscanf_lg (sprintf_g 15 (Fin sg m E))) as [x|]; [destruct (deq x (Fin sg m E)); cbn [negb]|];
    rewrite ?Hsp, ret_bind by lia; apply Hemit; (split; [apply zlen_nonneg|lia]).
Qed.

(** ** Strings *)
Lemma zlen_escape_text c : zlen (escape c) = 1 + (if one_letter c then 1 else if c <? 32 then 5 else 0).
Proof.
  unfold escape, one_letter. destruct (Z.eqb_spec c 92) as [->|]; [done|]. destruct (Z.eqb_spec c 34) as [->|]; [done|].
  destruct (Z.eqb_spec c 8) as [->|]; [done|]. destruct (Z.eqb_spec c 12) as [->|]; [done|]. destruct (Z.eqb_spec c 10) as [->|]; [done|].
  destruct (Z.eqb_spec c 13) as [->|]; [done|]. destruct (Z.eqb_spec c 9) as [->|]; [done|]. cbn [orb]. by destruct (c <? 32).
Qed.

Lemma escape_characters_nonneg s : 0 <= escape_characters s.
Proof. induction s as [|c s IH]; cbn [escape_characters]; [done|]. destruct (one_letter c); [lia|]. destruct (c <? 32); lia. Qed.

Lemma zlen_escapes_text s : zlen (escapes s) = zlen s + escape_characters s.
Proof.
  induction s as [|c s IH]; [done|]. unfold escapes in *. cbn [map concat escape_characters]. rewrite zlen_app, zlen_cons, zlen_escape_text, IH. lia.
Qed.

Lemma escapes_plain s : escape_characters s = 0 -> escapes s = s.
Proof.
  induction s as [|c s IH]; [done|]. cbn [escape_characters]. pose proof (escape_characters_nonneg s). intros Hz.
  unfold escapes in *. cbn [map concat]. unfold one_letter in Hz. unfold escape.
  destruct (Z.eqb_spec c 34); [cbn [orb] in Hz; lia|]. destruct (Z.eqb_spec c 92); [cbn [orb] in Hz; lia|].
  destruct (Z.eqb_spec c 8); [cbn [orb] in Hz; lia|]. destruct (Z.eqb_spec c 12); [cbn [orb] in Hz; lia|].
  destruct (Z.eqb_spec c 10); [cbn [orb] in Hz; lia|]. destruct (Z.eqb_spec c 13); [cbn [orb] in Hz; lia|].
  destruct (Z.eqb_spec c 9); [cbn [orb] in Hz; lia|]. cbn [orb] in Hz. destruct (c <? 32); [lia|]. cbn [app]. f_equal. apply IH. lia.
Qed.

Lemma write_at_ok p a d rest : buffer p = Block (a ++ rest) -> zlen d <= zlen rest ->
  write_at p (zlen a) d = Ret (set_block p (Block ((a ++ d) ++ zdrop (zlen d) rest)) (p_length p)).
Proof.
  intros Hb Hd. unfold write_at. rewrite Hb. zlen_facts. unfold mem_write. rewrite bool_decide_true by zlia. rewrite ret_bind.
  unfold mem_splice. rewrite ztake_app_exact by done. rewrite zdrop_app_ge by lia. rewrite <- app_assoc.
  do 6 f_equal. lia.
Qed.

Lemma escape_text_ok s : forall p a rest, buffer p = Block (a ++ rest) -> zlen (escapes s) < zlen rest ->
  exists rest', escape_loop s (zlen a) p = Ret (set_block p (Block ((a ++ escapes s) ++ rest')) (p_length p)) /\
    zlen rest' = zlen rest - zlen (escapes s).
Proof.
  induction s as [|c s IH]; intros p a rest Hb Hl.
  { exists rest. unfold escapes. cbn [escape_loop map concat]. rewrite app_nil_r. split; [|zlia]. destruct p; cbn in *. by rewrite Hb. }
  assert (escapes (c :: s) = escape c ++ escapes s) as Ee by done. rewrite Ee, zlen_app in *. pose proof (zlen_nonneg (escapes s)) as Hs0.
  (* the rest of the loop, once [escape c] is written *)
  assert (forall p1 o rest1, buffer p1 = Block ((a ++ escape c) ++ rest1) -> o = zlen a + zlen (escape c) ->
      set_block p1 (buffer p1) (p_length p1) = set_block p (buffer p1) (p_length p) -> zlen rest1 = zlen rest - zlen (escape c) ->
      exists rest', escape_loop s o p1 = Ret (set_block p (Block ((a ++ escape c ++ escapes s) ++ rest')) (p_length p)) /\
        zlen rest' = zlen rest - (zlen (escape c) + zlen (escapes s))) as Hgo.
  { intros p1 o rest1 Hb1 -> Hp1 Hr1. rewrite <- zlen_app. destruct (IH p1 (a ++ escape c) rest1 Hb1) as (rest' & -> & Hr'); [lia|].
    exists rest'. split; [|lia]. rewrite (app_assoc a). f_equal. destruct p, p1. cbn in *. unfold set_block in *. cbn in *. by simplify_eq. }
  cbn [escape_loop].
  assert (forall x, escape c = [92; x] -> exists rest',
    (let! p := write_at p (zlen a) [92] in let! p := write_at p (zlen a + 1) [x] in escape_loop s (zlen a + 2) p) =
      Ret (set_block p (Block ((a ++ escape c ++ escapes s) ++ rest')) (p_length p)) /\ zlen rest' = zlen rest - (zlen (escape c) + zlen (escapes s))) as Hletter.
  { intros x Ex. rewrite Ex in *. change (zlen [92; x]) with 2 in *. rewrite (write_at_ok p a [92] rest Hb), ret_bind by (change (zlen [92]) with 1; lia).
    change (zlen [92]) with 1. replace (zlen a + 1) with (zlen (a ++ [92])) by zlia.
    rewrite (write_at_ok _ (a ++ [92]) [x] (zdrop 1 rest)), ret_bind; [|done|change (zlen [x]) with 1; zlia].
    change (zlen [x]) with 1. eapply (Hgo _ _ (zdrop 1 (zdrop 1 rest))); [cbn [buffer set_block]; by rewrite <- !app_assoc|done|done|zlia]. }
  unfold escape in *.
  destruct (Z.eqb_spec c 92) as [->|Hn92]; [rewrite (proj2 (Z.ltb_lt _ _)) by lia; by apply (Hletter 92)|].
  destruct (Z.eqb_spec c 34) as [->|Hn34]; [rewrite (proj2 (Z.ltb_lt _ _)) by lia; by apply (Hletter 34)|]. cbn [negb]. rewrite !andb_true_r.
  destruct (Z.eqb_spec c 8) as [->|]; [by apply (Hletter 98)|]. destruct (Z.eqb_spec c 12) as [->|]; [by apply (Hletter 102)|].
  destruct (Z.eqb_spec c 10) as [->|]; [by apply (Hletter 110)|]. destruct (Z.eqb_spec c 13) as [->|]; [by apply (Hletter 114)|].
  destruct (Z.eqb_spec c 9) as [->|]; [by apply (Hletter 116)|]. destruct (Z.ltb_spec c 32).
  - rewrite (proj2 (Z.ltb_ge _ _)) by lia. set (u := 92 :: 117 :: map hex_digit_char _) in *. change (zlen u) with 6 in *.
    rewrite (write_at_ok p a [92] rest Hb), ret_bind by (change (zlen [92]) with 1; lia). change (zlen [92]) with 1.
    replace (zlen a + 1) with (zlen (a ++ [92])) by zlia. rewrite (write_at_ok _ (a ++ [92]) (u04x c) (zdrop 1 rest)), ret_bind; [|done|change (zlen (u04x c)) with 6; zlia].
    change (zlen (u04x c)) with 6. eapply (Hgo _ _ ([0] ++ zdrop 6 (zdrop 1 rest))); [|done|done|rewrite zlen_app; change (zlen [0]) with 1; zlia].
    cbn [buffer set_block]. f_equal. unfold u, u04x. rewrite <- !app_assoc. done.
  - rewrite (proj2 (Z.ltb_lt _ _)) by lia. change (zlen [c]) with 1 in *. rewrite (write_at_ok p a [c] rest Hb), ret_bind by (change (zlen [c]) with 1; lia).
    change (zlen [c]) with 1. eapply (Hgo _ _ (zdrop 1 rest)); [done|done|done|zlia].
Qed.

Lemma zlen_quote s : zlen (quote s) = zlen s + escape_characters s + 2.
Proof. unfold quote. rewrite !zlen_app, zlen_escapes_text. change (zlen [34]) with 1. lia. Qed.

Lemma print_string_ptr_ok blk s p pre : wrote p pre -> c_str blk = Ret s -> zlen (quote s) < 2 ^ 60 ->
  prints p pre (quote s) (print_string_ptr (Some blk) p).
Proof.
  intros Hw Hs Hlen. unfold print_string_ptr. rewrite Hs, ret_bind. cbn zeta. pose proof (zlen_quote s) as Hq. pose proof (escape_characters_nonneg s) as He0.
  pose proof (zlen_nonneg s) as Hs0. pose proof (zlen_escapes_text s) as Hes.
  destruct (Z.eqb_spec (escape_characters s) 0) as [Hz|Hz].
  { assert ([34] ++ s ++ [34; 0] = quote s ++ [0]) as -> by (unfold quote; rewrite (escapes_plain s Hz), <- !app_assoc; done).
    apply emit_prints; [done|lia|lia|lia]. }
  destruct (ensure_ok p pre (zlen s + escape_characters s + 3) Hw) as (ok & p1 & -> & Hsame & Hdep & Hok); [lia|]. rewrite ret_bind.
  destruct ok; cbn [negb].
  2: { eexists false, p1. split_and!; [done|done|]. apply (failed_later p p p1 (zlen s + escape_characters s + 3 + 1)); [done|done|lia]. }
  destruct Hok as [[(rest & Hb & Hl & _) Ho Hlen1 _] Hroom]. pose proof (wr_offset _ _ Hw) as Ho0. rewrite zlen_app in Hl. pose proof (zlen_nonneg rest).
  change (write p1 [34]) with (write_at p1 (p_offset p1) [34]). rewrite Ho. rewrite (write_at_ok p1 pre [34] rest Hb), ret_bind by (change (zlen [34]) with 1; lia).
  change (zlen [34]) with 1. cbn [p_offset set_block p_length]. rewrite Ho. replace (zlen pre + 1) with (zlen (pre ++ [34])) by zlia.
  destruct (escape_text_ok s (set_block p1 (Block ((pre ++ [34]) ++ zdrop 1 rest)) (p_length p1)) (pre ++ [34]) (zdrop 1 rest)) as (rest1 & -> & Hr1); [done|rewrite zlen_zdrop; lia|].
  rewrite ret_bind. cbn [p_offset set_block p_length]. rewrite Ho. rewrite zlen_zdrop in Hr1.
  replace (zlen pre + (zlen s + escape_characters s) + 1) with (zlen ((pre ++ [34]) ++ escapes s)) by (rewrite !zlen_app, Hes; change (zlen [34]) with 1; lia).
  match goal with |- context [write_at ?x _ _] => set (p2 := x) end.
  rewrite (write_at_ok p2 ((pre ++ [34]) ++ escapes s) [34; 0] rest1 eq_refl), ret_bind by (change (zlen [34; 0]) with 2; lia).
  eexists true, _. split; [done|]. change (zlen [34; 0]) with 2.
  assert ((((pre ++ [34]) ++ escapes s) ++ [34; 0]) ++ zdrop 2 rest1 = pre ++ quote s ++ 0 :: zdrop 2 rest1) as -> by (unfold quote; rewrite <- !app_assoc; done).
  assert (zlen (pre ++ quote s ++ 0 :: zdrop 2 rest1) = zlen (pre ++ rest)) as Hsize.
  { rewrite !zlen_app, zlen_cons, zlen_zdrop, Hq. lia. }
  split_and!.
  - apply (same_trans _ p1); [done|]. split_and!; [done|done|done|]. intros _. split; [done|]. unfold block_size. cbn [buffer set_block]. by rewrite Hb.
  - split; [exists (zdrop 2 rest1); split; [done|rewrite Hsize, zlen_app; unfold p2; cbn [p_length set_block]; lia]|unfold p2; cbn [p_offset set_block]; lia|unfold p2; cbn [p_length set_block]; lia].
  - done.
Qed.

(** ** No terminator inside *)
Lemma hex_digit_nonzero c : hex_digit_char (c mod 16) <> 0.
Proof. pose proof (Z.mod_pos_bound c 16 eq_refl). unfold hex_digit_char. destruct (_ <? _); lia. Qed.

Lemma no_nul_escape c : c <> 0 -> no_nul (escape c).
Proof.
  intros Hc. apply no_nul_Forall. unfold escape. do 7 (destruct (_ =? _); [by repeat constructor|]).
  destruct (c <? 32); [|by repeat constructor]. do 2 (constructor; [done|]). cbn [map]. repeat (constructor; [apply hex_digit_nonzero|]). constructor.
Qed.

Lemma no_nul_quote s : no_nul s -> no_nul (quote s).
Proof.
  intros Hs. unfold quote. rewrite !no_nul_app. split_and!; [vm_decide| |vm_decide].
  induction s as [|c s IH]; [vm_decide|]. apply no_nul_cons in Hs as [Hc Hs]. change (escapes (c :: s)) with (escape c ++ escapes s).
  apply no_nul_app. split; [by apply no_nul_escape|by apply IH].
Qed.

Lemma no_nul_number d : canonical d -> no_nul (number d).
Proof.
  intros Hc. unfold number. destruct (not_finite d) eqn:Hf; [vm_decide|]. destruct (number_text_reads_back d Hc Hf) as (_ & [Ht _] & _).
  apply no_nul_Forall. eapply Forall_impl; [exact Ht|]. intros c Hn ->. done.
Qed.

Lemma no_nul_tabs n : no_nul (tabs n).
Proof. apply no_nul_Forall. unfold tabs. by apply Forall_replicate. Qed.

Lemma no_nul_json_text fmt j : forall depth, json_ok j -> no_nul (json_text fmt depth j).
Proof.
  induction j as [|b|d|s|l IH|l IH] using json_ind'; intros depth Hj.
  - vm_decide.
  - by destruct b; vm_decide.
  - apply no_nul_number, Hj.
  - by apply no_nul_quote.
  - rewrite json_text_arr, !no_nul_app. split_and!; [vm_decide| |vm_decide]. apply json_ok_arr in Hj. generalize (depth + 1). clear depth. intros depth.
    induction l as [|j l IHl]; [vm_decide|]. apply Forall_cons in IH as [IHj IH]. apply Forall_cons in Hj as [Hj Hl]. specialize (IHl IH Hl).
    destruct l as [|j' l]; [by apply IHj|]. change (elements_text fmt depth (j :: j' :: l)) with (json_text fmt depth j ++ [44] ++ (if fmt then [32] else []) ++ elements_text fmt depth (j' :: l)).
    rewrite !no_nul_app. split_and!; [by apply IHj|vm_decide|by destruct fmt; vm_decide|done].
  - rewrite json_text_obj, !no_nul_app. split_and!; [vm_decide|by destruct fmt; vm_decide| |destruct fmt; [apply no_nul_tabs|vm_decide]|vm_decide].
    apply json_ok_obj in Hj. generalize (depth + 1). clear depth. intros depth.
    induction l as [|kv l IHl]; [vm_decide|]. apply Forall_cons in IH as [IHj IH]. apply Forall_cons in Hj as [[Hk Hj] Hl]. specialize (IHl IH Hl).
    cbn [members_text]. rewrite !no_nul_app. split_and!; [destruct fmt; [apply no_nul_tabs|vm_decide]|by apply no_nul_quote|vm_decide|by destruct fmt; vm_decide|by apply IHj|by destruct l; vm_decide|by destruct fmt; vm_decide|done].
Qed.

(** ** Arrays and objects *)
Definition value_prints (i : cJSON) : Prop := forall j p pre,
  json_of i = Some j -> json_ok j -> wrote p pre -> 0 <= p_depth p -> zlen (json_text (format p) (p_depth p) j) < 2 ^ 60 ->
  prints p pre (json_text (format p) (p_depth p) j) (print_value i p).

(** [t] has been written and passed over, or there is no room for it. *)
Definition writes (p : printbuffer) (pre t : bytes) (r : outcome (bool * printbuffer)) : Prop :=
  exists ok p', r = Ret (ok, p') /\ same p p' /\
    if ok : bool then wrote p' (pre ++ t) /\ p_depth p' = p_depth p else failed p p' (zlen t + 2).

Lemma emit_writes p pre needed d n : wrote p pre -> zlen d <= needed <= zlen d + 1 -> zlen d < 2 ^ 60 -> n = zlen d ->
  writes p pre d (emit needed d n p).
Proof.
  intros Hw Hn Hd ->. pose proof (zlen_nonneg d). destruct (emit_wrote p pre needed d Hw) as (ok & p' & E & Hs & Hdep & Hok); [lia|lia|].
  exists ok, p'. split_and!; [done|done|]. destruct ok; [done|]. apply (failed_later p p p' (needed + 1)); [done|done|lia].
Qed.

Lemma emit_nul_writes p pre needed d n : wrote p pre -> zlen d <= needed <= zlen d + 1 -> zlen d < 2 ^ 60 -> n = zlen d ->
  writes p pre d (emit needed (d ++ [0]) n p).
Proof.
  intros Hw Hn Hd ->. pose proof (zlen_nonneg d). pose proof (zlen_nonneg pre).
  destruct (emit_ok p pre needed (d ++ [0]) (zlen d) Hw) as (ok & p' & E & Hs & Hdep & Hok); [lia|zlia|zlia|lia|].
  exists ok, p'. split_and!; [done|done|]. destruct ok; [|apply (failed_later p p p' (needed + 1)); [done|done|lia]].
  destruct Hok as ((rest & Hb & Hl) & Ho & Hr). split; [|done]. rewrite !zlen_app in Hl. change (zlen [0]) with 1 in Hl. pose proof (zlen_nonneg rest).
  split; [exists ([0] ++ rest); rewrite <- !app_assoc in *; split_and!; [done|rewrite !zlen_app; change (zlen [0]) with 1; lia|right; right; rewrite !zlen_app; change (zlen [0]) with 1; lia]
    |rewrite zlen_app; lia|lia|left; rewrite zlen_app; lia].
Qed.

(** One thing after the other. *)
Lemma writes_then p pre t u m f : writes p pre t m -> 0 <= zlen u ->
  (forall p1, same p p1 -> wrote p1 (pre ++ t) -> p_depth p1 = p_depth p -> writes p1 (pre ++ t) u (f p1)) -> wrote p pre ->
  writes p pre (t ++ u) (let! (ok, p1) := m in if negb ok then Ret (false, p1) else f p1).
Proof.
  intros (ok & p1 & -> & Hs & Hok) Hu Hf Hw. rewrite ret_bind. destruct ok; cbn [negb].
  - destruct Hok as [Hw1 Hd1]. destruct (Hf p1 Hs Hw1 Hd1) as (ok & p' & E & Hs' & Hok). exists ok, p'. split; [done|]. split; [by apply (same_trans _ p1)|].
    destruct ok; [rewrite app_assoc; destruct Hok; split; [done|congruence]|]. apply (failed_later p p1 p' (zlen u + 2)); [done|done|].
    rewrite (wr_offset _ _ Hw1), (wr_offset _ _ Hw), !zlen_app. lia.
  - exists false, p1. split_and!; [done|done|]. apply (failed_later p p p1 (zlen t + 2)); [done|done|rewrite zlen_app; lia].
Qed.

Lemma prints_then p pre t u m f : prints p pre t m -> no_nul t -> 0 <= zlen u ->
  (forall p1, same p p1 -> wrote p1 (pre ++ t) -> p_depth p1 = p_depth p -> writes p1 (pre ++ t) u (f p1)) -> wrote p pre ->
  writes p pre (t ++ u) (let! (ok, p1) := m in if negb ok then Ret (false, p1) else let! p1 := update_offset p1 in f p1).
Proof.
  intros (ok & p1 & -> & Hs & Hok) Ht Hu Hf Hw. rewrite ret_bind. destruct ok; cbn [negb].
  - destruct Hok as [Hp1 Hd1]. destruct (update_offset_ok p1 pre t Hp1 Ht) as (p2 & -> & Hw2 & Hs2 & Hd2 & _). rewrite ret_bind.
    assert (same p p2) as Hs' by (by apply (same_trans _ p1)). destruct (Hf p2 Hs' Hw2) as (ok & p' & E & Hs3 & Hok); [congruence|].
    exists ok, p'. split; [done|]. split; [by apply (same_trans _ p2)|].
    destruct ok; [rewrite app_assoc; destruct Hok; split; [done|congruence]|]. apply (failed_later p p2 p' (zlen u + 2)); [done|done|].
    rewrite (wr_offset _ _ Hw2), (wr_offset _ _ Hw), !zlen_app. lia.
  - exists false, p1. split_and!; [done|done|]. apply (failed_later p p p1 (zlen t + 2)); [done|done|rewrite zlen_app; lia].
Qed.

Lemma writes_nothing p pre : wrote p pre -> writes p pre [] (Ret (true, p)).
Proof. intros Hw. exists true, p. rewrite app_nil_r. done. Qed.

Lemma print_elements_ok l : forall js p pre, Forall value_prints l -> elements json_of l = Some js -> Forall json_ok js ->
  wrote p pre -> 0 <= p_depth p -> zlen (elements_text (format p) (p_depth p) js) < 2 ^ 60 ->
  writes p pre (elements_text (format p) (p_depth p) js) (print_elements print_value l p).
Proof.
  induction l as [|i l IH]; intros js p pre Hl Hjs Hok Hw Hd Hlen; cbn [elements] in Hjs.
  { injection Hjs as <-. by apply writes_nothing. }
  destruct (json_of i) as [j|] eqn:Hi; [|done]. destruct (elements json_of l) as [js'|] eqn:Hl'; [|done]. injection Hjs as <-.
  apply Forall_cons in Hl as [Hv Hl]. apply Forall_cons in Hok as [Hj Hok]. cbn [print_elements].
  destruct l as [|i' l].
  - cbn [elements] in Hl'. injection Hl' as <-. cbn [elements_text] in *. rewrite <- (app_nil_r (json_text _ _ j)).
    apply prints_then; [by apply Hv|by apply no_nul_json_text|done| |done]. intros p1 Hs Hw1 Hd1. by apply writes_nothing.
  - assert (exists j' js'', js' = j' :: js'') as (j' & js'' & ->).
    { cbn [elements] in Hl'. destruct (json_of i'), (elements json_of l); try done. injection Hl' as <-. eauto. }
    change (elements_text (format p) (p_depth p) (j :: j' :: js'')) with
      (json_text (format p) (p_depth p) j ++ [44] ++ (if format p then [32] else []) ++ elements_text (format p) (p_depth p) (j' :: js'')) in *.
    rewrite !zlen_app in Hlen. set (rest := elements_text (format p) (p_depth p) (j' :: js'')) in *. zlen_facts. change (zlen [44]) with 1 in *.
    apply prints_then; [apply Hv; done || lia|by apply no_nul_json_text|apply zlen_nonneg| |done].
    intros p1 Hs Hw1 Hd1. pose proof Hs as (_ & Hfmt & _). rewrite (app_assoc [44]), Hfmt.
    rewrite (app_assoc [44]). apply writes_then; [|apply zlen_nonneg| |done].
    + assert (zlen ([44] ++ (if format p then [32] else [])) = if format p then 2 else 1) as Hz by (by destruct (format p)).
      apply emit_nul_writes; [done|rewrite Hz; destruct (format p); lia..|done].
    + intros p2 Hs2 Hw2 Hd2. pose proof Hs2 as (_ & Hfmt2 & _). 
      assert (rest = elements_text (format p2) (p_depth p2) (j' :: js'')) as Hr by (unfold rest; by rewrite Hfmt2, Hfmt, Hd2, Hd1).
      rewrite Hr in *. apply IH; [done|done|done|done|lia|lia].
Qed.

Lemma zlen_tabs n : 0 <= n -> zlen (tabs n) = n.
Proof. intros Hn. unfold tabs, zlen. rewrite length_replicate. lia. Qed.

Lemma print_members_ok l : forall js p pre, Forall value_prints l -> members json_of l = Some js -> Forall (fun kv => no_nul kv.1 /\ json_ok kv.2) js ->
  wrote p pre -> 0 <= p_depth p -> zlen (members_text (format p) (p_depth p) js) < 2 ^ 60 ->
  writes p pre (members_text (format p) (p_depth p) js) (print_members print_value l p).
Proof.
  induction l as [|i l IH]; intros js p pre Hl Hjs Hok Hw Hd Hlen; cbn [members] in Hjs.
  { injection Hjs as <-. by apply writes_nothing. }
  destruct (block_str (string i)) as [k|] eqn:Hk; [|done]. destruct (json_of i) as [j|] eqn:Hi; [|done]. destruct (members json_of l) as [js'|] eqn:Hl'; [|done].
  injection Hjs as <-. apply Forall_cons in Hl as [Hv Hl]. apply Forall_cons in Hok as [[Hkn Hj] Hok]. cbn [fst snd] in Hkn, Hj. cbn [print_members members_text fst snd].
  cbn [members_text fst snd] in Hlen. rewrite !zlen_app in Hlen.
  assert (exists blk, string i = Some blk /\ c_str blk = Ret k) as (blk & Hblk & Hck).
  { unfold block_str in Hk. destruct (string i) as [blk|]; [|done]. exists blk. destruct (c_str blk) eqn:E; try done. by injection Hk as ->. }
  assert (match l with [] => false | _ => true end = match js' with [] => false | _ => true end) as Hmore.
  { destruct l as [|i' l]; cbn [members] in Hl'; [by injection Hl' as <-|]. destruct (block_str (string i')), (json_of i'), (members json_of l); try done. by injection Hl' as <-. }
  set (fmt := format p) in *. set (d := p_depth p) in *. set (rest := members_text fmt d js') in *. zlen_facts. change (zlen [58]) with 1 in *.
  (* the tabs *)
  apply writes_then; [|apply zlen_nonneg| |done].
  { destruct fmt; [|by apply writes_nothing]. rewrite zlen_tabs in Hlen by done. apply emit_writes; [done|rewrite zlen_tabs by done; lia..|by rewrite zlen_tabs]. }
  intros p1 Hs1 Hw1 Hd1. pose proof Hs1 as (_ & Hf1 & _). fold fmt d in Hf1, Hd1.
  (* the name *)
  apply prints_then; [rewrite Hblk; apply (print_string_ptr_ok blk k); [done|done|lia]|by apply no_nul_quote|apply zlen_nonneg| |done].
  intros p2 Hs2 Hw2 Hd2. pose proof Hs2 as (_ & Hf2 & _). rewrite Hf1 in Hf2. cbn zeta. rewrite Hf2.
  (* the colon *)
  rewrite (app_assoc [58]). assert (zlen ([58] ++ (if fmt then [9] else [])) = if fmt then 2 else 1) as Hz1 by (by destruct fmt).
  apply writes_then; [|apply zlen_nonneg| |done].
  { apply emit_writes; [done|rewrite Hz1; destruct fmt; lia..|done]. }
  intros p3 Hs3 Hw3 Hd3. pose proof Hs3 as (_ & Hf3 & _). rewrite Hf2 in Hf3.
  (* the value *)
  assert (json_text fmt d j = json_text (format p3) (p_depth p3) j) as Ht by (by rewrite Hf3, Hd3, Hd2, Hd1).
  apply prints_then; [rewrite Ht in *; apply Hv; (done || lia)|by apply no_nul_json_text|apply zlen_nonneg| |done].
  intros p4 Hs4 Hw4 Hd4. pose proof Hs4 as (_ & Hf4 & _). rewrite Hf3 in Hf4. cbn zeta. rewrite Hf4.
  (* the comma and the end of the line *)
  set (more := match l with [] => false | _ => true end) in *. set (sep := (match js' with [] => [] | _ => [44] end)) in *.
  assert (sep = if more then [44] else []) as -> by (unfold sep; rewrite Hmore; by destruct js'). rewrite (app_assoc (if more then [44] else []) (if fmt then [10] else [])).
  rewrite (app_assoc (if more then [44] else []) (if fmt then [10] else []) [0]).
  assert (zlen ((if more then [44] else []) ++ (if fmt then [10] else [])) = (if fmt then 1 else 0) + (if more then 1 else 0)) as Hz2 by (by destruct more, fmt).
  apply writes_then; [|apply zlen_nonneg| |done].
  { apply emit_nul_writes; [done|rewrite Hz2; destruct fmt, more; lia..|done]. }
  intros p5 Hs5 Hw5 Hd5. pose proof Hs5 as (_ & Hf5 & _).
  assert (rest = members_text (format p5) (p_depth p5) js') as Hr by (unfold rest; rewrite Hf5, Hf4; by rewrite Hd5, Hd4, Hd3, Hd2, Hd1).
  rewrite Hr in *. apply IH; [done|done|done|done|lia|lia].
Qed.

Lemma printed_prefix p pre t u : printed p (pre ++ t) u -> printed p pre (t ++ u).
Proof.
  intros [(rest & Hb & Hl) Ho Hlen]. rewrite zlen_app in Ho, Hlen. pose proof (zlen_nonneg t). split; [|rewrite zlen_app; lia|rewrite zlen_app; lia].
  exists rest. rewrite <- !app_assoc in *. done.
Qed.

Lemma wrote_set_depth p pre d : wrote p pre -> wrote (set_p_depth p d) pre.
Proof. by intros [(rest & Hb & Hl) Ho Hlen Hr]; split; [exists rest|..]. Qed.
Lemma same_set_depth p d : same p (set_p_depth p d).
Proof. by split_and!. Qed.

(** An opening, a body one level deeper, and a closing. *)
Lemma nested_ok p pre o t c open body close n :
  wrote p pre -> writes p pre o open -> zlen c <= n <= zlen c + 1 -> zlen c < 2 ^ 60 ->
  (forall p1, same p p1 -> wrote p1 (pre ++ o) -> p_depth p1 = p_depth p + 1 -> writes p1 (pre ++ o) t (body p1)) ->
  (forall p2, same p p2 -> p_depth p2 = p_depth p + 1 -> close p2 = emit n (c ++ [0]) 0 p2) ->
  prints p pre (o ++ t ++ c)
    (let! (ok, p1) := open in if negb ok then Ret (false, p1) else
     let! (ok, p2) := body (set_p_depth p1 (p_depth p1 + 1)) in if negb ok then Ret (false, p2) else
     let! (ok, p3) := close p2 in if negb ok then Ret (false, p3) else Ret (true, set_p_depth p3 (p_depth p3 - 1))).
Proof.
  intros Hw (ok & p1 & -> & Hs1 & Hok) Hn Hc Hbody Hclose. zlen_facts. rewrite ret_bind. pose proof (zlen_nonneg t). destruct ok; cbn [negb].
  2: { exists false, p1. split_and!; [done|done|]. apply (failed_later p p p1 (zlen o + 2)); [done|done|rewrite !zlen_app; lia]. }
  destruct Hok as [Hw1 Hd1]. pose proof (wr_offset _ _ Hw) as Ho0.
  assert (same p (set_p_depth p1 (p_depth p1 + 1))) as Hs1' by (by apply (same_trans _ p1)).
  destruct (Hbody (set_p_depth p1 (p_depth p1 + 1))) as (ok & p2 & -> & Hs2 & Hok); [done|by apply wrote_set_depth|cbn; lia|]. rewrite ret_bind.
  assert (same p p2) as Hs2' by (by apply (same_trans _ (set_p_depth p1 (p_depth p1 + 1)))).
  pose proof (wr_offset _ _ Hw1) as Ho1. rewrite zlen_app in Ho1. destruct ok; cbn [negb].
  2: { exists false, p2. split_and!; [done|done|]. apply (failed_later p (set_p_depth p1 (p_depth p1 + 1)) p2 (zlen t + 2)); [done|done|cbn; rewrite !zlen_app; lia]. }
  destruct Hok as [Hw2 Hd2]. cbn in Hd2. rewrite Hclose by (done || lia). pose proof (wr_offset _ _ Hw2) as Ho2. rewrite !zlen_app in Ho2.
  destruct (emit_prints p2 ((pre ++ o) ++ t) n c 0 Hw2) as (ok & p3 & -> & Hs3 & Hok); [lia|lia|lia|]. rewrite ret_bind.
  assert (same p p3) as Hs3' by (by apply (same_trans _ p2)). destruct ok; cbn [negb].
  2: { exists false, p3. split_and!; [done|done|]. apply (failed_later p p2 p3 (zlen c + 2)); [done|done|rewrite !zlen_app; lia]. }
  destruct Hok as [Hp3 Hd3]. exists true, (set_p_depth p3 (p_depth p3 - 1)). split_and!; [done|by apply (same_trans _ p3)| |cbn; lia].
  apply printed_prefix, printed_prefix in Hp3. destruct Hp3 as [(rest & Hb & Hl) Ho Hlen]. by split; [exists rest|..].
Qed.

Lemma value_prints_all i : value_prints i.
Proof.
  induction i as [t vs vi vd sg l IH] using item_ind'. intros j p pre Hj Hok Hw Hd Hlen. set (i := Item t vs vi vd sg l) in *.
  rewrite json_of_unfold in Hj. cbn zeta in Hj. change (print_value i p) with
    (let t := base_type i in
     if t =? cJSON_NULL then emit 5 (str "null" ++ [0]) 0 p
     else if t =? cJSON_False then emit 6 (str "false" ++ [0]) 0 p
     else if t =? cJSON_True then emit 5 (str "true" ++ [0]) 0 p
     else if t =? cJSON_Number then print_number i p
     else if t =? cJSON_Raw then
       match vs with
       | None =>
         if noalloc p then Ret (false, p) else
         let! _ := free (buffer p) in Ret (false, set_block p Freed (p_length p))
       | Some raw =>
         let! n := strlen raw in
         emit (n + 1) (ztake (n + 1) raw) 0 p
       end
     else if t =? cJSON_String then print_string i p
     else if t =? cJSON_Array then print_array print_value i p
     else if t =? cJSON_Object then print_object print_value i p
     else Ret (false, p)).
  cbn zeta.
  destruct (base_type i =? cJSON_NULL); [injection Hj as <-; by apply (emit_prints p pre 5 (str "null") 0)|].
  destruct (base_type i =? cJSON_False); [injection Hj as <-; by apply (emit_prints p pre 6 (str "false") 0)|].
  destruct (base_type i =? cJSON_True); [injection Hj as <-; by apply (emit_prints p pre 5 (str "true") 0)|].
  destruct (base_type i =? cJSON_Number) eqn:En; [injection Hj as <-; apply print_number_ok; [done|apply Hok]|].
  destruct (Z.eqb_spec (base_type i) cJSON_Raw) as [E|_]; [by rewrite E in Hj|].
  destruct (base_type i =? cJSON_String) eqn:Es.
  { unfold block_str in Hj. change (valuestring i) with vs in Hj. unfold print_string. change (valuestring i) with vs. destruct vs as [blk|]; [|done].
    destruct (c_str blk) as [k| | |] eqn:Hck; try done. injection Hj as <-. by apply print_string_ptr_ok. }
  destruct (base_type i =? cJSON_Array).
  { change (child i) with l in Hj. destruct (elements json_of l) as [js|] eqn:Hjs; [|done]. injection Hj as <-. apply json_ok_arr in Hok.
    rewrite json_text_arr in *. unfold print_array. rewrite !zlen_app in Hlen. change (zlen [91]) with 1 in Hlen. change (zlen [93]) with 1 in Hlen.
    apply (nested_ok p pre [91] _ [93] _ (print_elements print_value (child i)) (fun p => emit 2 [93; 0] 0 p) 2); [done|by apply emit_writes|by change (zlen [93]) with 1|done| |done].
    intros p1 Hs1 Hw1 Hd1. pose proof Hs1 as (_ & Hf1 & _). change (child i) with l. rewrite <- Hf1, <- Hd1 in *. apply print_elements_ok; (done || lia). }
  destruct (base_type i =? cJSON_Object); [|done].
  change (child i) with l in Hj. destruct (members json_of l) as [js|] eqn:Hjs; [|done]. injection Hj as <-. apply json_ok_obj in Hok.
  rewrite json_text_obj in *. unfold print_object. rewrite !zlen_app in Hlen. cbn zeta. zlen_facts. rewrite (app_assoc [123]).
  set (fmt := format p) in *. set (close := (if fmt then tabs (p_depth p) else []) ++ [125]).
  assert (zlen ([123] ++ (if fmt then [10] else [])) = if fmt then 2 else 1) as Hz1 by (by destruct fmt).
  assert (zlen close = if fmt then p_depth p + 1 else 1) as Hz2.
  { unfold close. rewrite zlen_app. change (zlen [125]) with 1. destruct fmt; [rewrite zlen_tabs by lia; lia|done]. }
  assert (zlen close < 2 ^ 60) as Hz3.
  { unfold close. rewrite zlen_app. lia. }
  apply (nested_ok p pre ([123] ++ (if fmt then [10] else [])) _ close _ (print_members print_value (child i))
    (fun p2 => emit (if format p2 then p_depth p2 + 1 else 2) ((if format p2 then tabs (p_depth p2 - 1) else []) ++ [125; 0]) 0 p2) (if fmt then p_depth p + 2 else 2)).
  - done.
  - apply emit_writes; [done|rewrite Hz1; destruct fmt; lia..|done].
  - rewrite Hz2. destruct fmt; lia.
  - done.
  - intros p1 Hs1 Hw1 Hd1. pose proof Hs1 as (_ & Hf1 & _). change (child i) with l.
    assert (members_text fmt (p_depth p + 1) js = members_text (format p1) (p_depth p1) js) as E by (by rewrite Hf1, Hd1).
    rewrite E in *. apply print_members_ok; (done || lia).
  - intros p2 Hs2 Hd2. pose proof Hs2 as (_ & Hf2 & _). rewrite Hf2, Hd2. fold fmt. unfold close. replace (p_depth p + 1 - 1) with (p_depth p) by lia.
    rewrite <- app_assoc. cbn [app]. f_equal. destruct fmt; lia.
Qed.

(** ** The calls *)

(** The text is there, or there is no memory for it. *)
Definition text_in (j : json) (fmt : bool) (b : bytes) : Prop := exists rest, b = json_text fmt 0 j ++ 0 :: rest.

Lemma print_ok i j fmt hk : json_of i = Some j -> json_ok j -> zlen (json_text fmt 0 j) < 2 ^ 60 ->
  exists r, print i fmt hk = Ret r /\
    match r with Some b => text_in j fmt b | None => AllocTotal -> INT_MAX < zlen (json_text fmt 0 j) + 2 end.
Proof.
  intros Hj Hok Hlen. unfold print, malloc. assert (AllocTotal -> forall n, 0 <= n < 2 ^ 63 -> alloc_ok n = false -> False) as Hno by (intros Ht n Hn Hf; by rewrite Ht in Hf).
  destruct (alloc_ok 256) eqn:Ha; [|exists None; split; [done|]; intros Ht; by destruct (Hno Ht 256)].
  set (p := mkPrint _ _ _ _ _ _ _).
  assert (zlen (new_block 256) = 256) as H256 by (unfold new_block; by rewrite zlen_uninit).
  assert (wrote p []) as Hw.
  { split; cbn; [|done|vm_decide|by right]. exists (new_block 256). split_and!; [done|apply zlen_nonneg|right; right; rewrite H256; vm_decide]. }
  destruct (value_prints_all i j p [] Hj Hok Hw) as (ok & p1 & -> & Hs & Hp); [done|done|]. rewrite ret_bind. destruct ok; cbn [negb].
  2: { destruct Hp as (F1 & F2 & F3). assert (free (buffer p1) = Ret tt) as -> by (by destruct (buffer p1)). rewrite ret_bind. exists None. split; [done|].
       intros Ht. specialize (F3 (or_introl Ht)). change (capacity p) with INT_MAX in F3. change (p_offset p) with 0 in F3.
    change (json_text (format p) (p_depth p) j) with (json_text fmt 0 j) in F3. lia. }
  destruct Hp as [Hp _]. change (json_text (format p) (p_depth p) j) with (json_text fmt 0 j) in Hp.
  destruct (update_offset_ok p1 [] _ Hp) as (p2 & -> & Hw2 & Hs2 & _ & [(rest & Hb & Hl) _ Hlen2]); [by apply no_nul_json_text|]. rewrite ret_bind, Hb.
  set (t := json_text fmt 0 j) in *. cbn [app] in Hb, Hl, Hlen2 |- *. change (zlen []) with 0 in Hlen2. pose proof (wr_offset _ _ Hw2) as Ho2. cbn [app] in Ho2.
  pose proof (zlen_nonneg t). assert (p_length p2 < 2 ^ 63) by (pose proof (proj2 Hlen2); unfold INT_MAX in *; lia). assert (INT_MAX < 2 ^ 62) by done.
  destruct (reallocate hk).
  - destruct (alloc_ok (p_length p2)) eqn:Ha2; [|exists None; split; [done|]; intros Ht; destruct (Hno Ht (p_length p2)); [lia|done]].
    change (0 :: rest) with ([0] ++ rest). rewrite app_assoc. destruct (resize_ok (t ++ [0]) rest (p_length p2)) as (rest' & -> & _); [zlia|].
    eexists (Some _). split; [done|]. exists rest'. by rewrite <- app_assoc.
  - destruct (alloc_ok (p_offset p2 + 1)) eqn:Ha2; [|exists None; split; [done|]; intros Ht; destruct (Hno Ht (p_offset p2 + 1)); [lia|done]].
    rewrite Z.min_r by lia. rewrite Ho2 in *. unfold mem_read. rewrite bool_decide_true by lia. rewrite ret_bind. unfold slice. rewrite zdrop_0.
    change (0 :: rest) with ([0] ++ rest). rewrite app_assoc, ztake_app_exact by zlia.
    assert (zlen (new_block (zlen t + 1)) = zlen t + 1) as Hn by (unfold new_block; rewrite zlen_uninit; lia).
    unfold mem_write. rewrite bool_decide_true by (rewrite Hn; zlia). rewrite ret_bind. unfold mem_splice. rewrite ztake_0. cbn [app].
    rewrite zdrop_all by (rewrite Hn; zlia). rewrite app_nil_r, arr_set_middle, ret_bind. eexists (Some _). split; [done|]. by exists [].
Qed.

(** C20.  Printing into the caller's block never writes outside the [len] bytes
    it was given (the block may be no larger); when the answer is [true] the
    block holds the text of the value and its terminator, and the answer is
    never [false] when [len] leaves one byte to spare behind these. *)
Theorem cJSON_PrintPreallocated_fits i j buf len fmt hk : json_of i = Some j -> json_ok j -> zlen (json_text fmt 0 j) < 2 ^ 60 ->
  0 <= len <= zlen buf -> len <= INT_MAX ->
  exists ok b, cJSON_PrintPreallocated i (Some buf) len fmt hk = Ret (ok, Some b) /\ zlen b = zlen buf /\
    if ok : bool then text_in j fmt b else len < zlen (json_text fmt 0 j) + 2.
Proof.
  intros Hj Hok Hlen Hl Hi. unfold cJSON_PrintPreallocated. rewrite (proj2 (Z.ltb_ge _ _)) by lia.
  set (p := mkPrint _ _ _ _ _ _ _). assert (wrote p []) as Hw.
  { split; cbn [p_offset p_length]; [|done|cbn; lia|cbn; change (zlen []) with 0; destruct (decide (len = 0)); [right; done|left; lia]].
    exists buf. split_and!; [done|cbn; lia|by left]. }
  destruct (value_prints_all i j p [] Hj Hok Hw) as (ok & p1 & -> & Hs & Hp); [done|done|]. rewrite ret_bind.
  destruct Hs as (Hna & _ & _ & Hsz). destruct (Hsz eq_refl) as [_ Hsize]. unfold block_size in Hsize. cbn in Hsize.
  change (json_text (format p) (p_depth p) j) with (json_text fmt 0 j) in Hp. destruct ok.
  - destruct Hp as [[(rest & Hb & Hl1) _ _] _]. rewrite Hb in *. exists true, (json_text fmt 0 j ++ 0 :: rest). split_and!; [done|done|by exists rest].
  - destruct Hp as (F1 & F2 & F3). destruct (buffer p1) as [b| |]; [|by specialize (F2 eq_refl)|done]. exists false, b. split_and!; [done|done|].
    specialize (F3 (or_intror eq_refl)). change (capacity p) with len in F3. change (p_offset p) with 0 in F3.
    change (json_text (format p) (p_depth p) j) with (json_text fmt 0 j) in F3. lia.
Qed.

Lemma cJSON_PrintBuffered_ok i j prebuffer fmt hk : json_of i = Some j -> json_ok j -> zlen (json_text fmt 0 j) < 2 ^ 60 ->
  prebuffer <= INT_MAX -> reallocate hk = true \/ 0 < prebuffer ->
  exists r, cJSON_PrintBuffered i prebuffer fmt hk = Ret r /\
    match r with Some b => text_in j fmt b | None => AllocTotal -> prebuffer < 0 \/ INT_MAX < zlen (json_text fmt 0 j) + 2 end.
Proof.
  intros Hj Hok Hlen Hi Hr. unfold cJSON_PrintBuffered, malloc. destruct (Z.ltb_spec prebuffer 0); [exists None; split; [done|by left]|].
  destruct (alloc_ok prebuffer) eqn:Ha.
  2: { exists None. split; [done|]. intros Ht. rewrite Ht in Ha; [done|]. unfold INT_MAX in Hi. lia. }
  set (p := mkPrint _ _ _ _ _ _ _). assert (zlen (new_block prebuffer) = prebuffer) as Hn by (unfold new_block; rewrite zlen_uninit; lia).
  assert (wrote p []) as Hw.
  { split; cbn [p_offset p_length]; [|done|cbn; lia|cbn; change (zlen []) with 0; destruct (decide (prebuffer = 0)); [right; done|left; lia]].
    exists (new_block prebuffer). split_and!; [done|cbn [app]; rewrite Hn; cbn; lia|]. right. cbn. rewrite Hn. change (zlen []) with 0. destruct Hr; [by left|right; lia]. }
  destruct (value_prints_all i j p [] Hj Hok Hw) as (ok & p1 & -> & Hs & Hp); [done|done|]. rewrite ret_bind.
  change (json_text (format p) (p_depth p) j) with (json_text fmt 0 j) in Hp. destruct ok; cbn [negb].
  - destruct Hp as [[(rest & Hb & Hl1) _ _] _]. rewrite Hb. eexists (Some _). split; [done|]. by exists rest.
  - destruct Hp as (F1 & F2 & F3). assert (free (buffer p1) = Ret tt) as -> by (by destruct (buffer p1)). rewrite ret_bind. exists None. split; [done|].
    intros Ht. right. specialize (F3 (or_introl Ht)). change (capacity p) with INT_MAX in F3. change (p_offset p) with 0 in F3.
    change (json_text (format p) (p_depth p) j) with (json_text fmt 0 j) in F3. lia.
Qed.
End laws.

(** ** What the code gets wrong *)

(** A raw item without text: the buffer is freed by [print_value], and again
    by its caller. *)
Example print_raw_null_double_free : @print big_alloc demo_memory (set_type zero_item cJSON_Raw) false global_hooks = Undefined.
Proof. vm_compute. reflexivity. Qed.

(** With hooks of the client there is no [realloc]: growing a buffer of no
    bytes reads its first byte. *)
Example print_buffered_0_undefined :
  @cJSON_PrintBuffered big_alloc demo_memory (set_type zero_item cJSON_NULL) 0 false (cJSON_InitHooks (Some (Some 1, Some 2))) = Undefined.
Proof. vm_compute. reflexivity. Qed.

(** Eight bytes are enough for the six of the text. *)
Lemma cJSON_PrintPreallocated_fits_witness :
  let i := Item cJSON_Array None 0 (Fin false 0 0) None [Item cJSON_True None 1 (Fin false 0 0) None []] in
  json_of i = Some (JArr [JBool true]) /\
  exists ok b, @cJSON_PrintPreallocated big_alloc demo_memory i (Some (replicate 8 7)) 8 true global_hooks = Ret (ok, Some b) /\ zlen b = 8 /\
    if ok : bool then text_in (JArr [JBool true]) true b else 8 < 8.
Proof.
  split; [reflexivity|].
  apply (@cJSON_PrintPreallocated_fits big_alloc demo_memory _ (JArr [JBool true]) (replicate 8 7) 8 true global_hooks); [reflexivity|by cbn|vm_decide|vm_decide|vm_decide].
Defined.
