(* ===== verification/CJsonRound.v ===== *)
(** * cJSON: printing and parsing

    What the printing functions write is in the grammar of [CJsonGrammar], so
    that parsing gives the value back. *)

From stdpp Require Import base tactics numbers list option strings sets.
From Stdlib Require Import Lia.
From S2P Require Import Prelude Utf8 Double CJson CJsonSpec CJsonSafe CJsonGrammar CJsonPrint CJsonPrintOk.

(** Numbers that are not finite are written as [null]. *)
Fixpoint finite (j : json) : json :=
  match j with
  | JNum d => if not_finite d then JNull else j
  | JArr l => JArr (map finite l)
  | JObj l => JObj (map (fun kv => (kv.1, finite kv.2)) l)
  | _ => j
  end.

(** Strings hold bytes. *)
Fixpoint bytes_only (j : json) : Prop :=
  match j with
  | JStr s => all_bytes s
  | JArr l => foldr (fun j P => bytes_only j /\ P) True l
  | JObj l => foldr (fun kv P => all_bytes kv.1 /\ bytes_only kv.2 /\ P) True l
  | _ => True
  end.

Lemma bytes_only_arr l : bytes_only (JArr l) <-> Forall bytes_only l.
Proof. cbn. induction l as [|j l IH]; cbn; [by rewrite Forall_nil|]. by rewrite Forall_cons, IH. Qed.
Lemma bytes_only_obj l : bytes_only (JObj l) <-> Forall (fun kv => all_bytes kv.1 /\ bytes_only kv.2) l.
Proof. cbn. induction l as [|kv l IH]; cbn; [by rewrite Forall_nil|]. rewrite Forall_cons, IH. tauto. Qed.

(** ** Strings *)
Lemma hex4_control c : 0 <= c < 32 -> hex4 (map hex_digit_char [c / 4096 mod 16; c / 256 mod 16; c / 16 mod 16; c mod 16]) c.
Proof.
  intros Hc. rewrite (Z.div_small c 4096), (Z.div_small c 256) by lia. exists 48, 48, (hex_digit_char (c / 16 mod 16)), (hex_digit_char (c mod 16)), 0, 0, (c / 16 mod 16), (c mod 16).
  assert (forall x, 0 <= x < 16 -> hex_value (hex_digit_char x) = Some x) as Hhex.
  { intros x Hx. assert (forallb (fun x => bool_decide (hex_value (hex_digit_char x) = Some x)) (seqZ 0 16) = true) as Hall by (vm_compute; reflexivity).
    rewrite forallb_forall in Hall. eapply bool_decide_eq_true_1, Hall, list_elem_of_In, elem_of_seqZ. lia. }
  split_and!; [done|done|done|apply Hhex, Z.mod_pos_bound; lia|apply Hhex, Z.mod_pos_bound; lia|].
  assert (0 <= c / 16 < 16) by (split; [apply Z.div_pos; lia|apply Z.div_lt_upper_bound; lia]). rewrite (Z.mod_small (c / 16)) by lia. pose proof (Z.div_mod c 16). lia.
Qed.

Lemma string_text_escapes s : no_nul s -> all_bytes s -> string_text (escapes s) s.
Proof.
  intros Hs Hb. induction Hb as [|c s Hc _ IH]; [constructor|]. apply no_nul_cons in Hs as [Hc0 Hs]. specialize (IH Hs).
  unfold escapes in *. cbn [map concat]. unfold escape at 1.
  do 7 (match goal with |- context [c =? ?k] => destruct (Z.eqb_spec c k) as [->|]; [by apply text_escape|] end).
  destruct (Z.ltb_spec c 32); [|by apply text_char].
  pose proof (hex4_control c ltac:(unfold is_byte in Hc; lia)) as Hh.
  apply (text_unicode _ c _ s Hh) in IH; [|done|lia]. unfold enc in IH. rewrite (proj2 (Z.ltb_lt c 128)) in IH by lia. exact IH.
Qed.

(** ** Values *)
Lemma value_text_number n d : canonical d -> d <> NaN -> value_text n (number d) (finite (JNum d)).
Proof.
  intros Hc Hn. unfold number. cbn [finite]. destruct (not_finite d) eqn:Hf; [constructor|]. constructor.
  destruct (number_text_reads_back d Hc Hf) as (Hr & Ht & Hl). split_and!; [done|done|lia].
Qed.

Section format.
Variable fmt : bool.

Lemma elements_in_text n depth l : l <> [] -> Forall (fun j => value_text n (json_text fmt depth j) (finite j)) l ->
  forall w, ws w -> elements_in n (w ++ elements_text fmt depth l) (map finite l).
Proof.
  assert (ws []) as Hnil by constructor.
  induction l as [|j [|j' l] IH]; intros Hne Hl w Hw; [done| |].
  - apply Forall_cons in Hl as [Hj _]. cbn [elements_text map]. pose proof (el_last n w _ [] _ Hw Hj Hnil) as E. by rewrite app_nil_r in E.
  - apply Forall_cons in Hl as [Hj Hl]. change (elements_text fmt depth (j :: j' :: l)) with (json_text fmt depth j ++ [44] ++ (if fmt then [32] else []) ++ elements_text fmt depth (j' :: l)).
    cbn [map]. apply (el_more n w _ [] _ _ _ Hw Hj Hnil). apply (IH ltac:(done) Hl). destruct fmt; repeat constructor; lia.
Qed.

Lemma members_in_text n depth l : l <> [] -> Forall (fun kv => no_nul kv.1 /\ all_bytes kv.1 /\ value_text n (json_text fmt depth kv.2) (finite kv.2)) l ->
  forall w v, ws w -> ws v -> members_in n (w ++ members_text fmt depth l ++ v) (map (fun kv => (kv.1, finite kv.2)) l).
Proof.
  assert (ws []) as Hnil by constructor. assert (ws (if fmt then [9] else [])) as Htab by (destruct fmt; repeat constructor; lia).
  assert (ws (if fmt then [10] else [])) as Hnl by (destruct fmt; repeat constructor; lia).
  assert (ws (if fmt then tabs depth else [])) as Htabs by (destruct fmt; [apply Forall_replicate; lia|constructor]).
  assert (forall a b, ws a -> ws b -> ws (a ++ b)) as Happ by (intros; by apply Forall_app).
  induction l as [|kv [|kv' l] IH]; intros Hne Hl w v Hw Hv; [done| |]; apply Forall_cons in Hl as [(Hk1 & Hk2 & Hj) Hl]; pose proof (string_text_escapes _ Hk1 Hk2) as Hk.
  - cbn [members_text map app]. rewrite app_nil_r.
    pose proof (me_last n (w ++ (if fmt then tabs depth else [])) _ _ [] _ _ ((if fmt then [10] else []) ++ v) _ (Happ _ _ Hw Htabs) Hk Hnil Htab Hj (Happ _ _ Hnl Hv)) as E.
    unfold quote. revert E. repeat (progress (rewrite <- ?app_assoc; cbn [app])). by intros E.
  - change (members_text fmt depth (kv :: kv' :: l)) with
      ((if fmt then tabs depth else []) ++ quote kv.1 ++ [58] ++ (if fmt then [9] else []) ++ json_text fmt depth kv.2 ++ [44] ++ (if fmt then [10] else []) ++ members_text fmt depth (kv' :: l)).
    pose proof (IH ltac:(done) Hl _ v Hnl Hv) as Hrest. set (m := members_text fmt depth (kv' :: l)) in *. cbn [map].
    pose proof (me_more n (w ++ (if fmt then tabs depth else [])) _ _ [] _ _ [] _ _ _ (Happ _ _ Hw Htabs) Hk Hnil Htab Hj Hnil Hrest) as E.
    unfold quote. revert E. repeat (progress (rewrite <- ?app_assoc; cbn [app])). by intros E.
Qed.

Lemma value_text_json j : forall n depth, (nesting j <= n)%nat -> json_ok j -> bytes_only j -> value_text n (json_text fmt depth j) (finite j).
Proof.
  induction j as [|b|d|s|l IH|l IH] using json_ind'; intros n depth Hn Hok Hb.
  - constructor.
  - destruct b; constructor.
  - apply value_text_number; apply Hok.
  - constructor. by apply string_text_escapes.
  - rewrite json_text_arr. apply json_ok_arr in Hok. apply bytes_only_arr in Hb. destruct n as [|n]; [cbn in Hn; lia|]. apply nesting_arr in Hn.
    destruct l as [|j l]; [by apply (vt_empty_array n []); constructor|]. apply vt_array.
    apply (elements_in_text n (depth + 1) (j :: l) ltac:(done)) with (w := []); [|constructor]. clear - IH Hn Hok Hb. set (l' := j :: l) in *. clearbody l'.
    rewrite Forall_forall in *. intros x Hx. by apply IH; [|apply Hn|apply Hok|apply Hb].
  - rewrite json_text_obj. apply json_ok_obj in Hok. apply bytes_only_obj in Hb. destruct n as [|n]; [cbn in Hn; lia|]. apply nesting_obj in Hn.
    assert (ws ((if fmt then [10] else []))) as Hnl by (destruct fmt; repeat constructor; lia).
    assert (ws (if fmt then tabs depth else [])) as Htabs by (destruct fmt; [apply Forall_replicate; lia|constructor]).
    destruct l as [|kv l].
    { cbn [members_text app]. rewrite (app_assoc _ _ [125]). apply vt_empty_object. by apply Forall_app. }
    set (l' := kv :: l) in *. replace ([123] ++ (if fmt then [10] else []) ++ members_text fmt (depth + 1) l' ++ (if fmt then tabs depth else []) ++ [125])
      with ([123] ++ ((if fmt then [10] else []) ++ members_text fmt (depth + 1) l' ++ (if fmt then tabs depth else [])) ++ [125]) by (by rewrite <- !app_assoc).
    cbn [finite]. apply vt_object. apply members_in_text; [done| |done|done]. clear - IH Hn Hok Hb. clearbody l'.
    rewrite Forall_forall in *. intros x Hx. destruct (Hok x Hx), (Hb x Hx). split_and!; [done|done|]. apply IH; [done|by apply Hn|done|done].
Qed.
End format.

(** ** The round trip *)

(** C17.  What is printed parses back to the same value: an item that stands for a
    JSON value of at most 1000 levels, whose text has room below [INT_MAX], is
    printed, formatted or not, and [cJSON_Parse] makes of the text an item
    that stands for the value, except that infinities have become [null]. *)
Theorem cJSON_print_parse `{AllocTotal} `{Memory} i j fmt hk :
  json_of i = Some j -> json_ok j -> bytes_only j -> (nesting j <= Z.to_nat CJSON_NESTING_LIMIT)%nat -> zlen (json_text fmt 0 j) + 2 <= INT_MAX ->
  exists b i', print i fmt hk = Ret (Some b) /\ cJSON_Parse (Some b) = Ret (Some i') /\ json_of i' = Some (finite j) /\ string i' = None.
Proof.
  intros Hi Hok Hb Hn Hlen. assert (INT_MAX < 2 ^ 60) by done. destruct (print_ok i j fmt hk Hi Hok) as (r & -> & Hr); [lia|].
  destruct r as [b|]; [|specialize (Hr ltac:(assumption)); lia]. destruct Hr as (rest & ->).
  pose proof (value_text_json fmt j _ 0 Hn Hok Hb) as Ht.
  destruct (parse_whole [] _ _ [] rest false false Ht) as (i' & E & Hj & Hs); [constructor|rewrite app_nil_r; by apply no_nul_json_text|rewrite app_nil_r; cbn [app]; lia|done|done|].
  rewrite app_nil_r in E. cbn [app] in E. exists (json_text fmt 0 j ++ 0 :: rest), i'. split_and!; [done| |done|done]. unfold cJSON_Parse. by rewrite E.
Qed.

(** An object with an array, an escape and a number that needs 17 digits. *)
Definition demo_item : cJSON :=
  Item cJSON_Object None 0 (Fin false 0 0) None [
    Item cJSON_Array None 0 (Fin false 0 0) (Some [107; 10; 0]) [
      Item cJSON_Number None 0 (Fin false 5404319552844596 1019) None [];
      Item (Z.lor cJSON_String cJSON_IsReference) (Some [1; 200; 0; 7]) 0 (Fin false 0 0) None []];
    Item cJSON_NULL None 0 (Fin false 0 0) (Some [0]) []].
Definition demo_value : json := JObj [([107; 10], JArr [JNum (Fin false 5404319552844596 1019); JStr [1; 200]]); ([], JNull)].

Lemma cJSON_print_parse_witness : json_of demo_item = Some demo_value /\
  exists b i', @print big_alloc demo_memory demo_item true global_hooks = Ret (Some b) /\ @cJSON_Parse big_alloc demo_memory (Some b) = Ret (Some i') /\
    json_of i' = Some (finite demo_value) /\ string i' = None.
Proof.
  assert (json_of demo_item = Some demo_value) as Hj by (vm_compute; reflexivity). split; [exact Hj|].
  apply (@cJSON_print_parse big_alloc _ demo_memory demo_item demo_value true global_hooks Hj).
  - cbn. split_and!; try done; vm_decide.
  - cbn. split_and!; try done; vm_decide.
  - vm_decide.
  - vm_decide.
Defined.
