(* ===== verification/CJsonDom.v ===== *)
(** * cJSON: building and changing trees

    The functions of [base/cJSON.c] that work on the nodes of a tree, on a
    store of nodes and texts: every [next], [prev] and [child] pointer is
    explicit, a freed block is gone from the store, and following a pointer to
    what is not there is [Undefined].  An address is never used again, so that
    every use after free shows.  Whether an allocation succeeds is an answer
    of the heap, one for each call. *)

From stdpp Require Import base tactics numbers list option gmap.
From Stdlib Require Import Lia.
From S2P Require Import Prelude Double CJson CJsonSpec.

(** ** The heap *)
Record node := mkNode {
  next : Z; prev : Z; n_child : Z; n_type : Z; n_valuestring : Z; n_valueint : Z; n_valuedouble : double; n_string : Z
}.

(** Nodes, texts, the next free address, and the answers of the allocator,
    which succeeds when there are no more. *)
Record heap := mkHeap { nodes : gmap Z node; texts : gmap Z bytes; brk : Z; answers : list bool }.

Definition load (p : Z) (h : heap) : outcome node := deref (nodes h !! p).
Definition text (p : Z) (h : heap) : outcome bytes := deref (texts h !! p).
Definition save (p : Z) (n : node) (h : heap) : heap := mkHeap (<[p := n]> (nodes h)) (texts h) (brk h) (answers h).
Definition update (f : node -> node) (p : Z) (h : heap) : outcome heap := let! n := load p h in Ret (save p (f n) h).

Definition with_next (x : Z) (n : node) : node := mkNode x (prev n) (n_child n) (n_type n) (n_valuestring n) (n_valueint n) (n_valuedouble n) (n_string n).
Definition with_prev (x : Z) (n : node) : node := mkNode (next n) x (n_child n) (n_type n) (n_valuestring n) (n_valueint n) (n_valuedouble n) (n_string n).
Definition with_child (x : Z) (n : node) : node := mkNode (next n) (prev n) x (n_type n) (n_valuestring n) (n_valueint n) (n_valuedouble n) (n_string n).
Definition with_type (x : Z) (n : node) : node := mkNode (next n) (prev n) (n_child n) x (n_valuestring n) (n_valueint n) (n_valuedouble n) (n_string n).
Definition with_valuestring (x : Z) (n : node) : node := mkNode (next n) (prev n) (n_child n) (n_type n) x (n_valueint n) (n_valuedouble n) (n_string n).
Definition with_number (i : Z) (d : double) (n : node) : node := mkNode (next n) (prev n) (n_child n) (n_type n) (n_valuestring n) i d (n_string n).
Definition with_string (x : Z) (n : node) : node := mkNode (next n) (prev n) (n_child n) (n_type n) (n_valuestring n) (n_valueint n) (n_valuedouble n) x.

(** An upper bound on the nodes that a chain of pointers can visit. *)
Definition heap_fuel (h : heap) : nat := S (size (nodes h)).

Definition answer (h : heap) : bool * heap :=
  match answers h with
  | [] => (true, h)
  | ok :: l => (ok, mkHeap (nodes h) (texts h) (brk h) l)
  end.

Definition zero_node : node := mkNode 0 0 0 0 0 0 (Fin false 0 0) 0.

(** [cJSON_New_Item], 0 when the allocation fails. *)
Definition new_item (h : heap) : Z * heap :=
  let '(ok, h) := answer h in
  if ok then (brk h, mkHeap (<[brk h := zero_node]> (nodes h)) (texts h) (brk h + 1) (answers h)) else (0, h).
Definition new_text (b : bytes) (h : heap) : Z * heap :=
  let '(ok, h) := answer h in
  if ok then (brk h, mkHeap (nodes h) (<[brk h := b]> (texts h)) (brk h + 1) (answers h)) else (0, h).

Definition free_node (p : Z) (h : heap) : outcome heap :=
  let! _ := load p h in Ret (mkHeap (delete p (nodes h)) (texts h) (brk h) (answers h)).
Definition free_text (p : Z) (h : heap) : outcome heap :=
  if p =? 0 then Ret h else
  let! _ := text p h in Ret (mkHeap (nodes h) (delete p (texts h)) (brk h) (answers h)).

Definition cJSON_strdup (string : Z) (h : heap) : outcome (Z * heap) :=
  if string =? 0 then Ret (0, h) else
  let! b := text string h in
  let! s := c_str b in
  Ret (new_text (s ++ [0]) h).

Definition has_flag (t f : Z) : bool := negb (Z.land t f =? 0).

(** [free] of a text the node owns. *)
Definition free_owned (flag : Z) (field : node -> Z) (item : Z) (h : heap) : outcome heap :=
  let! n := load item h in
  if negb (has_flag (n_type n) flag) && negb (field n =? 0) then free_text (field n) h else Ret h.

(** [cJSON_Delete]: down by recursion, along [next] by the loop. *)
Fixpoint delete_loop (fuel : nat) (item : Z) (h : heap) : outcome heap :=
  match fuel with
  | O => OutOfFuel
  | S fuel =>
    if item =? 0 then Ret h else
    let! n := load item h in
    let! h := if negb (has_flag (n_type n) cJSON_IsReference) && negb (n_child n =? 0) then delete_loop fuel (n_child n) h else Ret h in
    let! h := free_owned cJSON_IsReference n_valuestring item h in
    let! h := free_owned cJSON_StringIsConst n_string item h in
    let! h := free_node item h in
    delete_loop fuel (next n) h
  end.
Definition cJSON_Delete (item : Z) (h : heap) : outcome heap := delete_loop (heap_fuel h) item h.

(** ** Looking at trees *)
Fixpoint count_loop (fuel : nat) (child : Z) (h : heap) : outcome Z :=
  match fuel with
  | O => OutOfFuel
  | S fuel => if child =? 0 then Ret 0 else let! n := load child h in let! k := count_loop fuel (next n) h in Ret (k + 1)
  end.
(** The count is converted to [int]. *)
Definition cJSON_GetArraySize (array : Z) (h : heap) : outcome Z :=
  if array =? 0 then Ret 0 else
  let! a := load array h in let! size := count_loop (heap_fuel h) (n_child a) h in Ret (s32 size).

Fixpoint index_loop (fuel : nat) (current_child index : Z) (h : heap) : outcome Z :=
  match fuel with
  | O => OutOfFuel
  | S fuel =>
    if negb (current_child =? 0) && (0 <? index) then let! n := load current_child h in index_loop fuel (next n) (index - 1) h
    else Ret current_child
  end.
Definition get_array_item (array index : Z) (h : heap) : outcome Z :=
  if array =? 0 then Ret 0 else let! a := load array h in index_loop (heap_fuel h) (n_child a) index h.
Definition cJSON_GetArrayItem (array index : Z) (h : heap) : outcome Z :=
  if index <? 0 then Ret 0 else get_array_item array index h.

(** [tolower] in the C locale. *)
Definition tolower (c : Z) : Z := if (65 <=? c) && (c <=? 90) then c + 32 else c.
Fixpoint casecmp (a b : bytes) : outcome Z :=
  match a, b with
  | x :: a, y :: b => if tolower x =? tolower y then if x =? 0 then Ret 0 else casecmp a b else Ret (tolower x - tolower y)
  | _, _ => Undefined
  end.
Definition case_insensitive_strcmp (string1 string2 : Z) (h : heap) : outcome Z :=
  if (string1 =? 0) || (string2 =? 0) then Ret 1 else
  if string1 =? string2 then Ret 0 else
  let! a := text string1 h in let! b := text string2 h in casecmp a b.

Fixpoint find_loop (fuel : nat) (case_sensitive : bool) (name current_element : Z) (h : heap) : outcome Z :=
  match fuel with
  | O => OutOfFuel
  | S fuel =>
    if current_element =? 0 then Ret 0 else
    let! n := load current_element h in
    let! r := if case_sensitive then let! a := text name h in let! b := text (n_string n) h in strcmp a b
              else case_insensitive_strcmp name (n_string n) h in
    if r =? 0 then Ret current_element else find_loop fuel case_sensitive name (next n) h
  end.
Definition get_object_item (object name : Z) (case_sensitive : bool) (h : heap) : outcome Z :=
  if (object =? 0) || (name =? 0) then Ret 0 else
  let! o := load object h in find_loop (heap_fuel h) case_sensitive name (n_child o) h.
Definition cJSON_GetObjectItem (object string : Z) (h : heap) : outcome Z := get_object_item object string false h.
Definition cJSON_GetObjectItemCaseSensitive (object string : Z) (h : heap) : outcome Z := get_object_item object string true h.
Definition cJSON_HasObjectItem (object string : Z) (h : heap) : outcome bool :=
  let! p := cJSON_GetObjectItem object string h in Ret (negb (p =? 0)).

Definition is_type (t : Z) (item : Z) (h : heap) : outcome bool :=
  if item =? 0 then Ret false else let! n := load item h in Ret (Z.land (n_type n) 255 =? t).
Definition cJSON_IsInvalid := is_type cJSON_Invalid.
Definition cJSON_IsFalse := is_type cJSON_False.
Definition cJSON_IsTrue := is_type cJSON_True.
Definition cJSON_IsBool (item : Z) (h : heap) : outcome bool :=
  if item =? 0 then Ret false else let! n := load item h in Ret (has_flag (n_type n) (Z.lor cJSON_True cJSON_False)).
Definition cJSON_IsNull := is_type cJSON_NULL.
Definition cJSON_IsNumber := is_type cJSON_Number.
Definition cJSON_IsString := is_type cJSON_String.
Definition cJSON_IsArray := is_type cJSON_Array.
Definition cJSON_IsObject := is_type cJSON_Object.
Definition cJSON_IsRaw := is_type cJSON_Raw.

(** ** Changing trees *)
Definition suffix_object (prev item : Z) (h : heap) : outcome heap :=
  let! h := update (with_next item) prev h in update (with_prev prev) item h.

Definition create_reference (item : Z) (h : heap) : outcome (Z * heap) :=
  if item =? 0 then Ret (0, h) else
  let '(reference, h) := new_item h in
  if reference =? 0 then Ret (0, h) else
  let! n := load item h in
  let! h := update (fun _ => with_prev 0 (with_next 0 (with_type (Z.lor (n_type n) cJSON_IsReference) (with_string 0 n)))) reference h in
  Ret (reference, h).

(** The loop to the last element. *)
Fixpoint last_loop (fuel : nat) (child : Z) (h : heap) : outcome Z :=
  match fuel with
  | O => OutOfFuel
  | S fuel => let! n := load child h in if next n =? 0 then Ret child else last_loop fuel (next n) h
  end.
Definition cJSON_AddItemToArray (array item : Z) (h : heap) : outcome heap :=
  if (item =? 0) || (array =? 0) then Ret h else
  let! a := load array h in
  if n_child a =? 0 then update (with_child item) array h
  else let! child := last_loop (heap_fuel h) (n_child a) h in suffix_object child item h.

Definition cJSON_AddItemToObjectCS (object string item : Z) (h : heap) : outcome heap :=
  if (item =? 0) || (string =? 0) then Ret h else
  let! h := free_owned cJSON_StringIsConst n_string item h in
  let! h := update (with_string string) item h in
  let! h := update (fun n => with_type (Z.lor (n_type n) cJSON_StringIsConst) n) item h in
  cJSON_AddItemToArray object item h.
Definition clear_const (n : node) : node := with_type (Z.land (n_type n) (Z.lnot cJSON_StringIsConst)) n.
Definition cJSON_AddItemToObject (object string item : Z) (h : heap) : outcome heap :=
  if item =? 0 then Ret h else
  let! (copy, h) := cJSON_strdup string h in
  let! h := cJSON_AddItemToObjectCS object copy item h in
  update clear_const item h.
Definition cJSON_AddItemReferenceToArray (array item : Z) (h : heap) : outcome heap :=
  if array =? 0 then Ret h else
  let! (r, h) := create_reference item h in cJSON_AddItemToArray array r h.
Definition cJSON_AddItemReferenceToObject (object string item : Z) (h : heap) : outcome heap :=
  if (object =? 0) || (string =? 0) then Ret h else
  let! (r, h) := create_reference item h in cJSON_AddItemToObject object string r h.

Definition cJSON_DetachItemViaPointer (parent item : Z) (h : heap) : outcome (Z * heap) :=
  if (parent =? 0) || (item =? 0) then Ret (0, h) else
  let! i := load item h in
  let! h := if negb (prev i =? 0) then update (with_next (next i)) (prev i) h else Ret h in
  let! i := load item h in
  let! h := if negb (next i =? 0) then update (with_prev (prev i)) (next i) h else Ret h in
  let! p := load parent h in
  let! i := load item h in
  let! h := if item =? n_child p then update (with_child (next i)) parent h else Ret h in
  let! h := update (with_prev 0) item h in
  let! h := update (with_next 0) item h in
  Ret (item, h).
Definition cJSON_DetachItemFromArray (array which : Z) (h : heap) : outcome (Z * heap) :=
  if which <? 0 then Ret (0, h) else
  let! p := get_array_item array which h in cJSON_DetachItemViaPointer array p h.
Definition cJSON_DeleteItemFromArray (array which : Z) (h : heap) : outcome heap :=
  let! (p, h) := cJSON_DetachItemFromArray array which h in cJSON_Delete p h.
Definition cJSON_DetachItemFromObject (object string : Z) (h : heap) : outcome (Z * heap) :=
  let! to_detach := cJSON_GetObjectItem object string h in cJSON_DetachItemViaPointer object to_detach h.
Definition cJSON_DetachItemFromObjectCaseSensitive (object string : Z) (h : heap) : outcome (Z * heap) :=
  let! to_detach := cJSON_GetObjectItemCaseSensitive object string h in cJSON_DetachItemViaPointer object to_detach h.
Definition cJSON_DeleteItemFromObject (object string : Z) (h : heap) : outcome heap :=
  let! (p, h) := cJSON_DetachItemFromObject object string h in cJSON_Delete p h.
Definition cJSON_DeleteItemFromObjectCaseSensitive (object string : Z) (h : heap) : outcome heap :=
  let! (p, h) := cJSON_DetachItemFromObjectCaseSensitive object string h in cJSON_Delete p h.

Definition cJSON_InsertItemInArray (array which newitem : Z) (h : heap) : outcome heap :=
  if which <? 0 then Ret h else
  let! after_inserted := get_array_item array which h in
  if after_inserted =? 0 then cJSON_AddItemToArray array newitem h else
  let! h := update (with_next after_inserted) newitem h in
  let! n := load after_inserted h in
  let! h := update (with_prev (prev n)) newitem h in
  let! h := update (with_prev newitem) after_inserted h in
  let! a := load array h in
  if after_inserted =? n_child a then update (with_child newitem) array h
  else let! n := load newitem h in update (with_next newitem) (prev n) h.

Definition cJSON_ReplaceItemViaPointer (parent item replacement : Z) (h : heap) : outcome (bool * heap) :=
  if (parent =? 0) || (replacement =? 0) || (item =? 0) then Ret (false, h) else
  if replacement =? item then Ret (true, h) else
  let! i := load item h in
  let! h := update (with_next (next i)) replacement h in
  let! i := load item h in
  let! h := update (with_prev (prev i)) replacement h in
  let! r := load replacement h in
  let! h := if negb (next r =? 0) then update (with_prev replacement) (next r) h else Ret h in
  let! r := load replacement h in
  let! h := if negb (prev r =? 0) then update (with_next replacement) (prev r) h else Ret h in
  let! p := load parent h in
  let! h := if n_child p =? item then update (with_child replacement) parent h else Ret h in
  let! h := update (with_next 0) item h in
  let! h := update (with_prev 0) item h in
  let! h := cJSON_Delete item h in
  Ret (true, h).
Definition cJSON_ReplaceItemInArray (array which newitem : Z) (h : heap) : outcome heap :=
  if which <? 0 then Ret h else
  let! p := get_array_item array which h in
  let! (_, h) := cJSON_ReplaceItemViaPointer array p newitem h in Ret h.
Definition replace_item_in_object (object string replacement : Z) (case_sensitive : bool) (h : heap) : outcome (bool * heap) :=
  if (replacement =? 0) || (string =? 0) then Ret (false, h) else
  let! h := free_owned cJSON_StringIsConst n_string replacement h in
  let! (copy, h) := cJSON_strdup string h in
  let! h := update (with_string copy) replacement h in
  let! h := update clear_const replacement h in
  let! p := get_object_item object string case_sensitive h in
  let! (_, h) := cJSON_ReplaceItemViaPointer object p replacement h in
  Ret (true, h).
Definition cJSON_ReplaceItemInObject (object string newitem : Z) (h : heap) : outcome heap :=
  let! (_, h) := replace_item_in_object object string newitem false h in Ret h.
Definition cJSON_ReplaceItemInObjectCaseSensitive (object string newitem : Z) (h : heap) : outcome heap :=
  let! (_, h) := replace_item_in_object object string newitem true h in Ret h.

(** ** Creating items *)

(** A new item with the type, and what else is set. *)
Definition create (f : node -> node) (h : heap) : outcome (Z * heap) :=
  let '(item, h) := new_item h in
  if item =? 0 then Ret (0, h) else let! h := update f item h in Ret (item, h).
Definition cJSON_CreateNull := create (with_type cJSON_NULL).
Definition cJSON_CreateTrue := create (with_type cJSON_True).
Definition cJSON_CreateFalse := create (with_type cJSON_False).
Definition cJSON_CreateBool (b : bool) := create (with_type (if b then cJSON_True else cJSON_False)).
Definition cJSON_CreateArray := create (with_type cJSON_Array).
Definition cJSON_CreateObject := create (with_type cJSON_Object).

Definition cJSON_SetNumberHelper (object : Z) (number : double) (h : heap) : outcome (double * heap) :=
  let! i := saturate number in
  let! h := update (with_number i number) object h in Ret (number, h).
Definition cJSON_CreateNumber (num : double) (h : heap) : outcome (Z * heap) :=
  let '(item, h) := new_item h in
  if item =? 0 then Ret (0, h) else
  let! i := saturate num in
  let! h := update (fun n => with_number i num (with_type cJSON_Number n)) item h in
  Ret (item, h).

(** An item with a copy of a text. *)
Definition create_text (t string : Z) (h : heap) : outcome (Z * heap) :=
  let '(item, h) := new_item h in
  if item =? 0 then Ret (0, h) else
  let! h := update (with_type t) item h in
  let! (copy, h) := cJSON_strdup string h in
  let! h := update (with_valuestring copy) item h in
  if copy =? 0 then let! h := cJSON_Delete item h in Ret (0, h) else Ret (item, h).
Definition cJSON_CreateString := create_text cJSON_String.
Definition cJSON_CreateRaw := create_text cJSON_Raw.

(** The loop of the functions that create arrays: [n] more items, the next one
    for index [i]; [p] is the item before. *)
Fixpoint array_fill (make : Z -> heap -> outcome (Z * heap)) (n : nat) (i a p : Z) (h : heap) : outcome (Z * heap) :=
  match n with
  | O => Ret (a, h)
  | S n =>
    let! (x, h) := make i h in
    if x =? 0 then let! h := cJSON_Delete a h in Ret (0, h) else
    let! h := if i =? 0 then update (with_child x) a h else suffix_object p x h in
    array_fill make n (i + 1) a x h
  end.
Definition create_array (make : Z -> heap -> outcome (Z * heap)) (count : Z) (h : heap) : outcome (Z * heap) :=
  let! (a, h) := cJSON_CreateArray h in
  if a =? 0 then Ret (0, h) else array_fill make (Z.to_nat count) 0 a 0 h.

(** The numbers of a C array, [None] for a null pointer; a [float] is the
    [double] it converts to. *)
Definition create_array_of {A} (make : A -> heap -> outcome (Z * heap)) (l : option (list A)) (count : Z) (h : heap) : outcome (Z * heap) :=
  match l with
  | Some l => if count <? 0 then Ret (0, h) else create_array (fun i h => let! x := arr_get l i in make x h) count h
  | None => Ret (0, h)
  end.
Definition cJSON_CreateIntArray := create_array_of (fun x => cJSON_CreateNumber (of_int x)).
Definition cJSON_CreateFloatArray := create_array_of cJSON_CreateNumber.
Definition cJSON_CreateDoubleArray := create_array_of cJSON_CreateNumber.
Definition cJSON_CreateStringArray := create_array_of cJSON_CreateString.

(** ** Copies *)
Section duplicate.
Context (duplicate : Z -> heap -> outcome (Z * heap)).

(** The chain of children; [next] is the last one that was copied, the answer
    [false] for a failed copy. *)
Fixpoint duplicate_loop (fuel : nat) (child newitem next_ : Z) (h : heap) : outcome (bool * heap) :=
  match fuel with
  | O => OutOfFuel
  | S fuel =>
    if child =? 0 then Ret (true, h) else
    let! (newchild, h) := duplicate child h in
    if newchild =? 0 then Ret (false, h) else
    let! h := if negb (next_ =? 0) then suffix_object next_ newchild h else update (with_child newchild) newitem h in
    let! c := load child h in
    duplicate_loop fuel (next c) newitem newchild h
  end.
End duplicate.

Fixpoint duplicate (fuel : nat) (item : Z) (recurse : bool) (h : heap) : outcome (Z * heap) :=
  match fuel with
  | O => OutOfFuel
  | S fuel =>
    if item =? 0 then Ret (0, h) else
    let '(newitem, h) := new_item h in
    if newitem =? 0 then Ret (0, h) else
    let fail h := let! h := cJSON_Delete newitem h in Ret (0, h) in
    let! n := load item h in
    let! h := update (fun c => with_number (n_valueint n) (n_valuedouble n) (with_type (Z.land (n_type n) (Z.lnot cJSON_IsReference)) c)) newitem h in
    let! (copy, h) := if negb (n_valuestring n =? 0) then cJSON_strdup (n_valuestring n) h else Ret (0, h) in
    let! h := update (with_valuestring copy) newitem h in
    if negb (n_valuestring n =? 0) && (copy =? 0) then fail h else
    let! (copy, h) :=
      if negb (n_string n =? 0) then
        if has_flag (n_type n) cJSON_StringIsConst then Ret (n_string n, h) else cJSON_strdup (n_string n) h
      else Ret (0, h) in
    let! h := update (with_string copy) newitem h in
    if negb (n_string n =? 0) && (copy =? 0) then fail h else
    if negb recurse then Ret (newitem, h) else
    let! (ok, h) := duplicate_loop (fun p h => duplicate fuel p true h) (heap_fuel h) (n_child n) newitem 0 h in
    if ok : bool then Ret (newitem, h) else fail h
  end.
Definition cJSON_Duplicate (item : Z) (recurse : bool) (h : heap) : outcome (Z * heap) := duplicate (heap_fuel h) item recurse h.

(** ** Comparison *)
Section compare.
Context (compare : Z -> Z -> heap -> outcome bool) (case_sensitive : bool).

Fixpoint compare_arrays (fuel : nat) (a_element b_element : Z) (h : heap) : outcome bool :=
  match fuel with
  | O => OutOfFuel
  | S fuel =>
    if negb (a_element =? 0) && negb (b_element =? 0) then
      let! same := compare a_element b_element h in
      if negb same then Ret false else
      let! a := load a_element h in let! b := load b_element h in
      compare_arrays fuel (next a) (next b) h
    else Ret (a_element =? b_element)
  end.

(** Every member from [element] on has an equal one in [other]. *)
Fixpoint compare_members (fuel : nat) (element other : Z) (h : heap) : outcome bool :=
  match fuel with
  | O => OutOfFuel
  | S fuel =>
    if element =? 0 then Ret true else
    let! e := load element h in
    let! found := get_object_item other (n_string e) case_sensitive h in
    if found =? 0 then Ret false else
    let! same := compare element found h in
    if negb same then Ret false else
    let! e := load element h in compare_members fuel (next e) other h
  end.
End compare.

Fixpoint compare (fuel : nat) (a b : Z) (case_sensitive : bool) (h : heap) : outcome bool :=
  match fuel with
  | O => OutOfFuel
  | S fuel =>
    if (a =? 0) || (b =? 0) then Ret false else
    let! na := load a h in let! nb := load b h in
    let t := Z.land (n_type na) 255 in
    if negb (t =? Z.land (n_type nb) 255) || (t =? cJSON_Invalid) then Ret false else
    if negb (bool_decide (t ∈ [cJSON_False; cJSON_True; cJSON_NULL; cJSON_Number; cJSON_String; cJSON_Raw; cJSON_Array; cJSON_Object])) then Ret false else
    if a =? b then Ret true else
    if (t =? cJSON_False) || (t =? cJSON_True) || (t =? cJSON_NULL) then Ret true
    else if t =? cJSON_Number then Ret (deq (n_valuedouble na) (n_valuedouble nb))
    else if (t =? cJSON_String) || (t =? cJSON_Raw) then
      if (n_valuestring na =? 0) || (n_valuestring nb =? 0) then Ret false else
      let! x := text (n_valuestring na) h in let! y := text (n_valuestring nb) h in
      let! r := strcmp x y in Ret (r =? 0)
    else
      let compare x y := compare fuel x y case_sensitive in
      if t =? cJSON_Array then compare_arrays compare (heap_fuel h) (n_child na) (n_child nb) h
      else
        let! same := compare_members compare case_sensitive (heap_fuel h) (n_child na) b h in
        if negb same then Ret false else compare_members compare case_sensitive (heap_fuel h) (n_child nb) a h
  end.
Definition cJSON_Compare (a b : Z) (case_sensitive : bool) (h : heap) : outcome bool := compare (heap_fuel h) a b case_sensitive h.
