(* ===== verification/CJsonTree.v ===== *)
(** * cJSON: trees in the heap

    What the nodes of a heap are: a list of cells, up to their order, that the
    heap is made of ([rep]), with a rule for each access; and the cells of a
    tree ([cells]), which fix every pointer.  An operation on pointers is then
    verified by rewriting the list of cells. *)

From stdpp Require Import base tactics numbers list option gmap.
From Stdlib Require Import Lia.
From S2P Require Import Prelude Double CJson CJsonSpec CJsonDom.

Notation cells_t := (list (Z * node)).
Notation texts_t := (list (Z * bytes)).

(** ** A heap and its cells *)
Record rep (h : heap) (L : cells_t) (T : texts_t) : Prop := {
  rep_nodes : nodes h = list_to_map L;
  rep_texts : texts h = list_to_map T;
  rep_nodup : NoDup L.*1;
  rep_nodup_texts : NoDup T.*1;
  rep_bound : Forall (fun p => 0 < p < brk h) (L.*1 ++ T.*1);
  rep_brk : 0 < brk h
}.

#[export] Instance rep_proper h : Proper ((≡ₚ) ==> (≡ₚ) ==> iff) (rep h).
Proof.
  assert (forall L L' T T', L ≡ₚ L' -> T ≡ₚ T' -> rep h L T -> rep h L' T') as Himp.
  { intros L L' T T' HL HT [H1 H2 H3 H4 H5 H6]. split; try done.
    - rewrite H1. by apply list_to_map_proper.
    - rewrite H2. by apply list_to_map_proper.
    - by rewrite <- HL.
    - by rewrite <- HT.
    - by rewrite <- HL, <- HT. }
  intros L L' HL T T' HT. split; apply Himp; done.
Qed.

Lemma rep_perm h L T L' T' : rep h L T -> L ≡ₚ L' -> T ≡ₚ T' -> rep h L' T'.
Proof. intros Hr HL HT. by rewrite <- HL, <- HT. Qed.

Lemma rep_ptr h p c L T : rep h ((p, c) :: L) T -> 0 < p /\ p <> 0.
Proof. intros [_ _ _ _ Hb _]. apply Forall_cons in Hb as [Hp _]. cbn in Hp. lia. Qed.
Lemma rep_text_ptr h p b L T : rep h L ((p, b) :: T) -> 0 < p /\ p <> 0.
Proof. intros [_ _ _ _ Hb _]. apply Forall_app in Hb as [_ Hb]. apply Forall_cons in Hb as [Hp _]. cbn in Hp. lia. Qed.

Lemma load_rep h p c L T : rep h ((p, c) :: L) T -> load p h = Ret c.
Proof. intros [Hn _ _ _ _ _]. unfold load. rewrite Hn. cbn. by rewrite lookup_insert_eq. Qed.
Lemma text_rep h p b L T : rep h L ((p, b) :: T) -> text p h = Ret b.
Proof. intros [_ Hn _ _ _ _]. unfold text. rewrite Hn. cbn. by rewrite lookup_insert_eq. Qed.

(** The allocator has used up some answers; it may still fail. *)
Definition later (h h' : heap) : Prop := exists l, answers h = l ++ answers h'.
Definition may_fail (h : heap) : Prop := false ∈ answers h.
Lemma later_refl h : later h h.
Proof. by exists []. Qed.
Lemma later_eq h h' : answers h' = answers h -> later h h'.
Proof. intros E. exists []. by rewrite E. Qed.
Lemma later_trans h1 h2 h3 : later h1 h2 -> later h2 h3 -> later h1 h3.
Proof. intros [l1 E1] [l2 E2]. exists (l1 ++ l2). by rewrite E1, E2, app_assoc. Qed.
Lemma later_may_fail h h' : later h h' -> may_fail h' -> may_fail h.
Proof. intros [l E] Hf. unfold may_fail. rewrite E. apply elem_of_app. by right. Qed.

Lemma update_rep h p c L T f : rep h ((p, c) :: L) T ->
  exists h', update f p h = Ret h' /\ rep h' ((p, f c) :: L) T /\ answers h' = answers h.
Proof.
  intros Hr. unfold update. rewrite (load_rep h p c L T Hr), ret_bind. eexists. split; [done|]. destruct Hr as [H1 H2 H3 H4 H5 H6].
  split; [|done]. split; cbn; try done. rewrite H1. cbn. by rewrite insert_insert_eq.
Qed.

Lemma free_node_rep h p c L T : rep h ((p, c) :: L) T ->
  exists h', free_node p h = Ret h' /\ rep h' L T /\ answers h' = answers h.
Proof.
  intros Hr. unfold free_node. rewrite (load_rep h p c L T Hr), ret_bind. eexists. split; [done|]. destruct Hr as [H1 H2 H3 H4 H5 H6]. cbn in *.
  split; [|done]. apply NoDup_cons in H3 as [Hp H3]. apply Forall_cons in H5 as [_ H5]. split; cbn; try done. rewrite H1. cbn.
  apply delete_insert_id. by apply not_elem_of_list_to_map_1.
Qed.
Lemma free_text_rep h p b L T : rep h L ((p, b) :: T) ->
  exists h', free_text p h = Ret h' /\ rep h' L T /\ answers h' = answers h.
Proof.
  intros Hr. unfold free_text. rewrite (proj2 (Z.eqb_neq p 0)) by (by apply (rep_text_ptr h p b L T)). rewrite (text_rep h p b L T Hr), ret_bind.
  eexists. split; [done|]. destruct Hr as [H1 H2 H3 H4 H5 H6]. cbn in *. apply NoDup_cons in H4 as [Hp H4].
  apply Forall_app in H5 as [H5 H5']. apply Forall_cons in H5' as [_ H5']. split; [|done]. split; cbn; try done.
  - rewrite H2. cbn. apply delete_insert_id. by apply not_elem_of_list_to_map_1.
  - by apply Forall_app.
Qed.

Lemma answer_rep h L T ok h' : answer h = (ok, h') -> rep h L T -> rep h' L T /\ later h h' /\ (ok = false -> may_fail h).
Proof.
  unfold answer, may_fail. destruct (answers h) as [|a l] eqn:E; intros [= <- <-]; [intros Hr; split_and!; [done|apply later_refl|done]|]. intros [H1 H2 H3 H4 H5 H6].
  split_and!; [done|by exists [a]|intros ->; apply elem_of_cons; by left].
Qed.
Lemma rep_fresh h L T : rep h L T -> brk h ∉ L.*1 /\ brk h ∉ T.*1.
Proof.
  intros [_ _ _ _ Hb _]. rewrite Forall_forall in Hb. split; intros Hin; [specialize (Hb (brk h) ltac:(apply elem_of_app; by left))|specialize (Hb (brk h) ltac:(apply elem_of_app; by right))]; lia.
Qed.

Lemma rep_bound_later (P : list Z) n : Forall (fun p => 0 < p < n) P -> Forall (fun p => 0 < p < n + 1) P.
Proof. intros HP. eapply Forall_impl; [exact HP|cbn; lia]. Qed.

Lemma new_item_rep h L T p h' : new_item h = (p, h') -> rep h L T ->
  later h h' /\ (p = 0 /\ may_fail h /\ rep h' L T \/ p <> 0 /\ rep h' ((p, zero_node) :: L) T).
Proof.
  unfold new_item. destruct (answer h) as [ok h1] eqn:E. intros Hn Hr. destruct (answer_rep h L T ok h1 E Hr) as (Hr1 & Hl & Hmf).
  destruct ok; injection Hn as <- <-; [|by split; [|left; auto]]. destruct (rep_fresh h1 L T Hr1) as [Hf _]. destruct Hr1 as [H1 H2 H3 H4 H5 H6].
  split; [destruct Hl as [l El]; by exists l|]. right. split; [lia|]. split; cbn; try done.
  - by rewrite H1.
  - by apply NoDup_cons.
  - apply Forall_cons. split; [lia|by apply rep_bound_later].
  - lia.
Qed.
Lemma new_text_rep h L T b p h' : new_text b h = (p, h') -> rep h L T ->
  later h h' /\ (p = 0 /\ may_fail h /\ rep h' L T \/ p <> 0 /\ rep h' L ((p, b) :: T)).
Proof.
  unfold new_text. destruct (answer h) as [ok h1] eqn:E. intros Hn Hr. destruct (answer_rep h L T ok h1 E Hr) as (Hr1 & Hl & Hmf).
  destruct ok; injection Hn as <- <-; [|by split; [|left; auto]]. destruct (rep_fresh h1 L T Hr1) as [_ Hf]. destruct Hr1 as [H1 H2 H3 H4 H5 H6].
  split; [destruct Hl as [l El]; by exists l|]. right. split; [lia|]. split; cbn; try done.
  - by rewrite H2.
  - by apply NoDup_cons.
  - apply Forall_app in H5 as [H5 H5']. apply Forall_app. split; [by apply rep_bound_later|]. apply Forall_cons. split; [lia|by apply rep_bound_later].
  - lia.
Qed.

(** The heap determines the texts up to their order. *)
Lemma rep_texts_perm h L T L' T' : rep h L T -> rep h L' T' -> T ≡ₚ T'.
Proof. intros [_ H2 _ H4 _ _] [_ H2' _ H4' _ _]. apply list_to_map_inj; [done|done|congruence]. Qed.

(** There are more nodes in the heap than on any chain of cells. *)
Lemma rep_fuel h L T : rep h L T -> heap_fuel h = S (length L).
Proof.
  intros [H1 _ H3 _ _ _]. unfold heap_fuel. rewrite H1. f_equal. clear H1. induction L as [|[p c] L IH]; [done|]. cbn in *.
  apply NoDup_cons in H3 as [Hp H3]. rewrite map_size_insert_None; [by rewrite IH|]. by apply not_elem_of_list_to_map_1.
Qed.

(** ** Trees *)

(** A pointer to a text: the node's own, or one that it only points to. *)
Inductive field := Nothing | Owned (a : Z) (b : bytes) | Shared (a : Z).
Definition ptr (f : field) : Z := match f with Nothing => 0 | Owned a _ => a | Shared a => a end.
Definition own (f : field) : texts_t := match f with Owned a b => [(a, b)] | _ => [] end.

(** What a node holds besides its links; [l_child] is the pointer of a
    reference to the children of another node. *)
Record label := mkLabel { l_type : Z; l_valuestring : field; l_valueint : Z; l_valuedouble : double; l_string : field; l_child : Z }.

Inductive tree := Tree (p : Z) (x : label) (l : list tree).

Section tree_induction.
Variable P : tree -> Prop.
Hypothesis Htree : forall p x l, Forall P l -> P (Tree p x l).
Fixpoint tree_ind' (t : tree) : P t :=
  match t with
  | Tree p x l => Htree p x l ((fix go l : Forall P l := match l with [] => Forall_nil_2 P | t :: l => Forall_cons_2 P t l (tree_ind' t) (go l) end) l)
  end.
End tree_induction.

Definition root (t : tree) : Z := match t with Tree p _ _ => p end.
Definition lab (t : tree) : label := match t with Tree _ x _ => x end.
Definition kids (t : tree) : list tree := match t with Tree _ _ l => l end.

Definition is_ref (x : label) : bool := has_flag (l_type x) cJSON_IsReference.
Definition is_const (x : label) : bool := has_flag (l_type x) cJSON_StringIsConst.

(** The pointer to the first tree of a list, or what follows it. *)
Definition first (l : list tree) (d : Z) : Z := match l with [] => d | t :: _ => root t end.
Definition final (d : Z) (l : list tree) : Z := match last l with Some t => root t | None => d end.

Definition cell (pv nx : Z) (x : label) (l : list tree) : node :=
  mkNode nx pv (if is_ref x then l_child x else first l 0) (l_type x) (ptr (l_valuestring x)) (l_valueint x) (l_valuedouble x) (ptr (l_string x)).

(** The cells of a tree whose root has these neighbours, and of a list of
    siblings. *)
Fixpoint cells (pv nx : Z) (t : tree) : cells_t :=
  match t with
  | Tree p x l => (p, cell pv nx x l) ::
      (fix chain pv l := match l with [] => [] | t :: l => cells pv (first l 0) t ++ chain (root t) l end) 0 l
  end.
Fixpoint chain (pv : Z) (l : list tree) (nx : Z) : cells_t :=
  match l with [] => [] | t :: l => cells pv (first l nx) t ++ chain (root t) l nx end.

Fixpoint tree_texts (t : tree) : texts_t :=
  match t with Tree _ x l => own (l_valuestring x) ++ own (l_string x) ++ flat_map tree_texts l end.
Definition list_texts (l : list tree) : texts_t := flat_map tree_texts l.

Lemma cells_Tree pv nx p x l : cells pv nx (Tree p x l) = (p, cell pv nx x l) :: chain 0 l 0.
Proof. cbn [cells]. f_equal. match goal with |- ?f 0 l = _ => enough (forall q, f q l = chain q l 0) as Hc by apply Hc end.
  induction l as [|t l IH]; intros q; [done|]. cbn [chain]. by rewrite IH. Qed.
Lemma cells_cell pv nx t : cells pv nx t = (root t, cell pv nx (lab t) (kids t)) :: chain 0 (kids t) 0.
Proof. destruct t. apply cells_Tree. Qed.
Lemma texts_Tree p x l : tree_texts (Tree p x l) = own (l_valuestring x) ++ own (l_string x) ++ list_texts l.
Proof. done. Qed.
Lemma list_texts_app l1 l2 : list_texts (l1 ++ l2) = list_texts l1 ++ list_texts l2.
Proof. apply flat_map_app. Qed.
Lemma list_texts_cons t l : list_texts (t :: l) = tree_texts t ++ list_texts l.
Proof. done. Qed.

Lemma first_app l1 l2 d : first (l1 ++ l2) d = first l1 (first l2 d).
Proof. by destruct l1. Qed.
Lemma final_snoc d l t : final d (l ++ [t]) = root t.
Proof. unfold final. by rewrite last_snoc. Qed.
Lemma final_cons d t l : final d (t :: l) = final (root t) l.
Proof. unfold final. destruct l as [|t' l]; [done|]. rewrite last_cons_cons. destruct (last (t' :: l)) eqn:E; [done|]. by apply last_None in E. Qed.

Lemma chain_app pv l1 l2 nx : chain pv (l1 ++ l2) nx = chain pv l1 (first l2 nx) ++ chain (final pv l1) l2 nx.
Proof.
  revert pv. induction l1 as [|t l1 IH]; intros pv; [done|]. cbn [chain app]. rewrite IH, first_app, final_cons. by rewrite <- app_assoc.
Qed.
Lemma chain_one pv t nx : chain pv [t] nx = cells pv nx t.
Proof. cbn [chain first]. by rewrite app_nil_r. Qed.
Lemma chain_cons pv t l nx : chain pv (t :: l) nx = cells pv (first l nx) t ++ chain (root t) l nx.
Proof. done. Qed.

(** ** Contexts *)

(** A tree with a hole for one of its nodes. *)
Inductive ctx := Top | Under (p : Z) (x : label) (l1 : list tree) (c : ctx) (l2 : list tree).
Fixpoint fill (c : ctx) (t : tree) : tree :=
  match c with Top => t | Under p x l1 c l2 => Tree p x (l1 ++ fill c t :: l2) end.

Lemma root_fill c t t' : root t = root t' -> root (fill c t) = root (fill c t').
Proof. by destruct c. Qed.

(** The cells around the hole depend only on the address of the node there. *)
Lemma cells_fill c r : forall pv nx, exists pv' nx' L, forall t, root t = r -> cells pv nx (fill c t) ≡ₚ cells pv' nx' t ++ L.
Proof.
  induction c as [|p x l1 c IH l2]; intros pv nx.
  - exists pv, nx, []. intros t _. by rewrite app_nil_r.
  - destruct (IH (final 0 l1) (first l2 0)) as (pv' & nx' & L & HL).
    assert (exists q, forall t, root t = r -> root (fill c t) = q) as [q Hq].
    { destruct c as [|p' x' l1' c' l2']; [by exists r|by exists p']. }
    exists pv', nx', ((p, cell pv nx x (l1 ++ Tree q x [] :: l2)) :: chain 0 l1 q ++ chain q l2 0 ++ L). intros t Ht. specialize (HL t Ht). specialize (Hq t Ht).
    cbn [fill]. rewrite cells_Tree, chain_app, chain_cons. cbn [first]. rewrite Hq, HL.
    assert (cell pv nx x (l1 ++ fill c t :: l2) = cell pv nx x (l1 ++ Tree q x [] :: l2)) as ->.
    { unfold cell. f_equal. destruct (is_ref x); [done|]. rewrite !first_app. cbn. by rewrite Hq. }
    solve_Permutation.
Qed.

Lemma texts_fill c : exists T, forall t, tree_texts (fill c t) ≡ₚ tree_texts t ++ T.
Proof.
  induction c as [|p x l1 c [T HT] l2]; [exists []; intros t; cbn; by rewrite app_nil_r|].
  exists (own (l_valuestring x) ++ own (l_string x) ++ list_texts l1 ++ list_texts l2 ++ T). intros t. cbn [fill]. rewrite texts_Tree, list_texts_app, list_texts_cons, HT. solve_Permutation.
Qed.

(** ** Well-formed trees *)

(** The flags say which texts and children a node does not own. *)
Record label_ok (x : label) (l : list tree) : Prop := {
  ref_shares : is_ref x = true -> own (l_valuestring x) = [] /\ l = [];
  ref_not : is_ref x = false -> forall a, l_valuestring x <> Shared a;
  const_shares : is_const x = true -> own (l_string x) = [];
  const_not : is_const x = false -> forall a, l_string x <> Shared a
}.
Fixpoint tree_ok (t : tree) : Prop :=
  match t with Tree _ x l => label_ok x l /\ foldr (fun t P => tree_ok t /\ P) True l end.
Lemma tree_ok_Tree p x l : tree_ok (Tree p x l) <-> label_ok x l /\ Forall tree_ok l.
Proof. cbn. apply and_iff_compat_l. induction l as [|t l IH]; cbn; [by rewrite Forall_nil|]. by rewrite Forall_cons, IH. Qed.

Lemma label_ok_any x l l' : label_ok x l -> l <> [] -> label_ok x l'.
Proof. intros [H1 H2 H3 H4] Hl. split; try done. intros Hx. by destruct (H1 Hx). Qed.
Lemma tree_ok_fill c t : tree_ok (fill c t) -> tree_ok t /\ forall t', tree_ok t' -> tree_ok (fill c t').
Proof.
  induction c as [|p x l1 c IH l2]; [done|]. cbn [fill]. rewrite tree_ok_Tree. intros [Hx Hl]. apply Forall_app in Hl as [Hl1 Hl2]. apply Forall_cons in Hl2 as [Ht Hl2].
  destruct (IH Ht) as [Ht' Hback]. split; [done|]. intros t' Hok. rewrite tree_ok_Tree. split; [apply (label_ok_any x _ _ Hx); by destruct l1|].
  apply Forall_app. split; [done|]. apply Forall_cons. auto.
Qed.

(** ** The forest of a client: trees that are in nothing else, and texts of the
    client. *)
Definition roots (F : list tree) : cells_t := flat_map (cells 0 0) F.
Definition forest (h : heap) (F : list tree) (K : texts_t) : Prop := rep h (roots F) (list_texts F ++ K) /\ Forall tree_ok F.

Lemma roots_cons t F : roots (t :: F) = cells 0 0 t ++ roots F.
Proof. done. Qed.
#[export] Instance roots_proper : Proper ((≡ₚ) ==> (≡ₚ)) roots.
Proof. intros F G HF. unfold roots. by rewrite HF. Qed.
#[export] Instance list_texts_proper : Proper ((≡ₚ) ==> (≡ₚ)) list_texts.
Proof. intros F G HF. unfold list_texts. by rewrite HF. Qed.
#[export] Instance forest_proper h : Proper ((≡ₚ) ==> (≡ₚ) ==> iff) (forest h).
Proof. intros F G HF K K' HK. unfold forest. by rewrite HF, HK. Qed.

(** A node of a tree, and how to put another one in its place. *)
Lemma forest_at h c t F K : forest h (fill c t :: F) K ->
  exists pv nx L T, rep h (cells pv nx t ++ L ++ roots F) (tree_texts t ++ T ++ list_texts F ++ K) /\ tree_ok t /\ Forall tree_ok F /\
    forall h' t' G, root t' = root t -> rep h' (cells pv nx t' ++ L ++ roots G) (tree_texts t' ++ T ++ list_texts G ++ K) ->
      tree_ok t' -> Forall tree_ok G -> forest h' (fill c t' :: G) K.
Proof.
  intros [Hr Hok]. apply Forall_cons in Hok as [Ht HF]. destruct (tree_ok_fill c t Ht) as [Ht' Hback].
  destruct (cells_fill c (root t) 0 0) as (pv & nx & L & HL). destruct (texts_fill c) as [T HT]. exists pv, nx, L, T.
  rewrite roots_cons, list_texts_cons, (HL t eq_refl), HT, <- !app_assoc in Hr. split_and!; [done|done|done|].
  intros h' t' G Et Hr' Hok' HG. split; [|apply Forall_cons; auto]. by rewrite roots_cons, list_texts_cons, (HL t' Et), HT, <- !app_assoc.
Qed.

(** A heap with just these trees and texts. *)
Definition heap_of (F : list tree) (K : texts_t) (brk : Z) (answers : list bool) : heap :=
  mkHeap (list_to_map (roots F)) (list_to_map (list_texts F ++ K)) brk answers.
Lemma heap_of_forest F K b l : 
  bool_decide (NoDup (roots F).*1 /\ NoDup (list_texts F ++ K).*1 /\ Forall (fun p => 0 < p < b) ((roots F).*1 ++ (list_texts F ++ K).*1) /\ 0 < b) = true ->
  Forall tree_ok F -> forest (heap_of F K b l) F K.
Proof. intros (H1 & H2 & H3 & H4)%bool_decide_eq_true Hok. by split. Qed.
