(* ===== verification/CJsonDomOk.v ===== *)
(** * cJSON: what the functions on trees do

    Every call of a client that keeps to the rules acts on the trees of the
    client as a function on trees, follows no pointer to a freed block, and
    leaks nothing: the heap is at any time exactly the trees of the client and
    its texts. *)

From stdpp Require Import base tactics numbers list option gmap sets.
From Stdlib Require Import Lia.
From S2P Require Import Prelude Double CJson CJsonSpec CJsonDom CJsonTree.

(** A fact about a heap, with its cells in another order. *)
Ltac reorder H := eapply (rep_perm _ _ _ _ _ H); solve_Permutation.

Lemma roots_nonzero h t L T pv nx : rep h (cells pv nx t ++ L) T -> root t <> 0.
Proof. rewrite cells_cell. intros Hr. by apply (rep_ptr _ _ _ _ _ Hr). Qed.

Lemma first_zero h pv l nx L T : rep h (chain pv l nx ++ L) T -> first l 0 = 0 -> l = [].
Proof. destruct l as [|t l]; [done|]. rewrite chain_cons, <- app_assoc. intros Hr Hz. by apply roots_nonzero in Hr. Qed.

Lemma length_roots l pv nx : (length l <= length (chain pv l nx))%nat.
Proof.
  revert pv. induction l as [|t l IH]; intros pv; [done|]. rewrite chain_cons, length_app, cells_cell. cbn [length]. specialize (IH (root t)). lia.
Qed.

(** ** Deleting *)

(** A text the node owns is freed, another one is left alone. *)
Lemma free_owned_ok flag get (f : field) p c h L T : rep h ((p, c) :: L) (own f ++ T) -> get c = ptr f ->
  (has_flag (n_type c) flag = true -> own f = []) -> (has_flag (n_type c) flag = false -> forall a, f <> Shared a) ->
  exists h', free_owned flag get p h = Ret h' /\ rep h' ((p, c) :: L) T /\ answers h' = answers h.
Proof.
  intros Hr Hget Hset Hclear. unfold free_owned. rewrite (load_rep _ _ _ _ _ Hr), ret_bind, Hget.
  destruct (has_flag (n_type c) flag); cbn [negb andb]; [rewrite Hset in Hr by done; by exists h|]. destruct f as [|a b|a]; cbn [ptr own app] in *.
  - by exists h.
  - rewrite (proj2 (Z.eqb_neq a 0)) by (by apply (rep_text_ptr _ _ _ _ _ Hr)). by apply (free_text_rep _ _ _ _ _ Hr).
  - by destruct (Hclear eq_refl a).
Qed.

Lemma delete_loop_ok fuel : forall l pv h L T, rep h (chain pv l 0 ++ L) (list_texts l ++ T) -> Forall tree_ok l -> (length (chain pv l 0) < fuel)%nat ->
  exists h', delete_loop fuel (first l 0) h = Ret h' /\ rep h' L T /\ answers h' = answers h.
Proof.
  induction fuel as [|fuel IH]; intros [|t l] pv h L T Hr Hok Hf; [lia|lia|by exists h|]. cbn [delete_loop first].
  rewrite (proj2 (Z.eqb_neq _ 0)) by (rewrite chain_cons, <- app_assoc in Hr; by apply (roots_nonzero _ _ _ _ _ _ Hr)).
  destruct t as [p x k]. cbn [root]. apply Forall_cons in Hok as [Ht Hok]. apply tree_ok_Tree in Ht as [Hx Hk].
  rewrite chain_cons, cells_Tree in Hr, Hf. cbn [root] in *. cbn [app length] in Hf. rewrite list_texts_cons, texts_Tree in Hr. set (nx := first l 0) in *. set (c := cell pv nx x k) in *.
  assert (rep h ((p, c) :: chain 0 k 0 ++ chain p l 0 ++ L) (own (l_valuestring x) ++ own (l_string x) ++ list_texts k ++ list_texts l ++ T)) as Hr1 by reorder Hr.
  rewrite (load_rep _ _ _ _ _ Hr1), ret_bind. rewrite length_app in Hf.
  assert (exists h1, (if negb (has_flag (n_type c) cJSON_IsReference) && negb (n_child c =? 0) then delete_loop fuel (n_child c) h else Ret h) = Ret h1 /\
    rep h1 ((p, c) :: chain p l 0 ++ L) (own (l_valuestring x) ++ own (l_string x) ++ list_texts l ++ T) /\ answers h1 = answers h) as (h1 & -> & Hr2 & A1).
  { change (has_flag (n_type c) cJSON_IsReference) with (is_ref x). change (n_child c) with (if is_ref x then l_child x else first k 0). destruct (is_ref x) eqn:Href; cbn [negb andb].
    - destruct (ref_shares _ _ Hx Href) as [_ ->]. by exists h.
    - destruct (Z.eqb_spec (first k 0) 0) as [Hz|Hz]; cbn [negb].
      + assert (k = []) as -> by (apply (first_zero h 0 k 0 ((p, c) :: chain p l 0 ++ L) (own (l_valuestring x) ++ own (l_string x) ++ list_texts k ++ list_texts l ++ T)); [reorder Hr1|done]). by exists h.
      + apply (IH k 0 h ((p, c) :: chain p l 0 ++ L) _); [reorder Hr1|done|lia]. }
  rewrite ret_bind.
  destruct (free_owned_ok cJSON_IsReference n_valuestring (l_valuestring x) p c h1 _ _ Hr2) as (h2 & -> & Hr3 & A2); [done|apply (ref_shares _ _ Hx)|apply (ref_not _ _ Hx)|]. rewrite ret_bind.
  destruct (free_owned_ok cJSON_StringIsConst n_string (l_string x) p c h2 _ _ Hr3) as (h3 & -> & Hr4 & A3); [done|apply (const_shares _ _ Hx)|apply (const_not _ _ Hx)|]. rewrite ret_bind.
  destruct (free_node_rep h3 p c _ _ Hr4) as (h4 & -> & Hr5 & A4). rewrite ret_bind.
  destruct (IH l p h4 L T Hr5 Hok) as (h5 & E & Hr6 & A5); [lia|]. exists h5. split_and!; [exact E|done|congruence].
Qed.

Lemma cJSON_Delete_ok t h L T : rep h (cells 0 0 t ++ L) (tree_texts t ++ T) -> tree_ok t ->
  exists h', cJSON_Delete (root t) h = Ret h' /\ rep h' L T /\ answers h' = answers h.
Proof.
  intros Hr Hok. unfold cJSON_Delete. apply (delete_loop_ok (heap_fuel h) [t] 0 h L T).
  - rewrite chain_one. unfold list_texts. cbn [flat_map]. by rewrite app_nil_r.
  - by apply Forall_cons.
  - rewrite chain_one, (rep_fuel _ _ _ Hr), length_app. lia.
Qed.

(** ** Walking a list *)
Section walk.
Context (h : heap) (T : texts_t).

Lemma walk_load pv t l nx L : rep h (chain pv (t :: l) nx ++ L) T -> load (root t) h = Ret (cell pv (first l nx) (lab t) (kids t)) /\ root t <> 0.
Proof.
  rewrite chain_cons, cells_cell, <- app_assoc, <- app_comm_cons. intros Hr. split; [by apply (load_rep _ _ _ _ _ Hr)|by apply (rep_ptr _ _ _ _ _ Hr)].
Qed.

Lemma count_children_ok fuel : forall l pv L, rep h (chain pv l 0 ++ L) T -> (length l < fuel)%nat -> count_loop fuel (first l 0) h = Ret (zlen l).
Proof.
  induction fuel as [|fuel IH]; intros [|t l] pv L Hr Hf; [cbn in Hf; lia|cbn in Hf; lia|done|]. cbn [count_loop first].
  destruct (walk_load _ _ _ _ _ Hr) as [-> Hz]. rewrite (proj2 (Z.eqb_neq _ _)), ret_bind by done. cbn [next cell].
  rewrite (IH l (root t) (cells pv (first l 0) t ++ L)), ret_bind, zlen_cons; [f_equal; lia|rewrite chain_cons in Hr; reorder Hr|cbn in Hf; lia].
Qed.

Lemma index_loop_ok fuel : forall l pv k L, rep h (chain pv l 0 ++ L) T -> (length l < fuel)%nat -> 0 <= k ->
  index_loop fuel (first l 0) k h = Ret (first (zdrop k l) 0).
Proof.
  induction fuel as [|fuel IH]; intros [|t l] pv k L Hr Hf Hk; [cbn in Hf; lia|cbn in Hf; lia|..]; cbn [index_loop first].
  - unfold zdrop. by rewrite drop_nil.
  - destruct (walk_load _ _ _ _ _ Hr) as [-> Hz]. rewrite (proj2 (Z.eqb_neq _ _)) by done. cbn [negb andb].
    destruct (Z.ltb_spec 0 k); [|by replace k with 0 by lia]. rewrite ret_bind. cbn [next cell].
    rewrite (IH l (root t) (k - 1) (cells pv (first l 0) t ++ L)); [|rewrite chain_cons in Hr; reorder Hr|cbn in Hf; lia|lia].
    do 2 f_equal. unfold zdrop. replace (Z.to_nat k) with (S (Z.to_nat (k - 1))) by lia. done.
Qed.

Lemma last_loop_ok fuel : forall l t pv L, rep h (chain pv (l ++ [t]) 0 ++ L) T -> (length l < fuel)%nat ->
  last_loop fuel (first (l ++ [t]) 0) h = Ret (root t).
Proof.
  induction fuel as [|fuel IH]; intros [|u l] t pv L Hr Hf; [cbn in Hf; lia|cbn in Hf; lia|..]; cbn [last_loop first app]; cbn [app] in Hr; destruct (walk_load _ _ _ _ _ Hr) as [-> Hz]; rewrite ret_bind; cbn [next cell first].
  - done.
  - rewrite (proj2 (Z.eqb_neq _ _)).
    + apply (IH l t (root u) (cells pv (first (l ++ [t]) 0) u ++ L)); [rewrite chain_cons in Hr; reorder Hr|cbn in Hf; lia].
    + rewrite chain_cons in Hr. intros Hz'. assert (l ++ [t] = []) as E; [|by destruct l].
      apply (first_zero h (root u) (l ++ [t]) 0 (cells pv (first (l ++ [t]) 0) u ++ L) T); [reorder Hr|done].
Qed.
End walk.

(** ** Links *)

(** The neighbours of a tree change, and nothing else does. *)
Lemma with_next_cell q pv nx x l : with_next q (cell pv nx x l) = cell pv q x l.
Proof. done. Qed.
Lemma with_prev_cell q pv nx x l : with_prev q (cell pv nx x l) = cell q nx x l.
Proof. done. Qed.
Lemma with_child_cell pv nx x l l' : is_ref x = false -> with_child (first l' 0) (cell pv nx x l) = cell pv nx x l'.
Proof. intros Hx. unfold cell, with_child. cbn. by rewrite Hx. Qed.

Lemma set_item_next_ok q pv nx t h L T : rep h (cells pv nx t ++ L) T ->
  exists h', update (with_next q) (root t) h = Ret h' /\ rep h' (cells pv q t ++ L) T /\ answers h' = answers h.
Proof. rewrite !cells_cell. intros Hr. destruct (update_rep _ _ _ _ _ (with_next q) Hr) as (h' & E & Hr' & A). by exists h'. Qed.
Lemma set_item_prev_ok q pv nx t h L T : rep h (cells pv nx t ++ L) T ->
  exists h', update (with_prev q) (root t) h = Ret h' /\ rep h' (cells q nx t ++ L) T /\ answers h' = answers h.
Proof. rewrite !cells_cell. intros Hr. destruct (update_rep _ _ _ _ _ (with_prev q) Hr) as (h' & E & Hr' & A). by exists h'. Qed.

(** The label of a tree changes. *)
Lemma set_label_ok f x' pv nx p x l h L T : rep h (cells pv nx (Tree p x l) ++ L) T -> f (cell pv nx x l) = cell pv nx x' l ->
  exists h', update f p h = Ret h' /\ rep h' (cells pv nx (Tree p x' l) ++ L) T /\ answers h' = answers h.
Proof. rewrite !cells_Tree. intros Hr Hf. destruct (update_rep _ _ _ _ _ f Hr) as (h' & E & Hr' & A). rewrite Hf in Hr'. by exists h'. Qed.

Lemma suffix_object_ok pv t i h L T : rep h (cells pv 0 t ++ cells 0 0 i ++ L) T ->
  exists h', suffix_object (root t) (root i) h = Ret h' /\ rep h' (chain pv [t; i] 0 ++ L) T /\ answers h' = answers h.
Proof.
  intros Hr. unfold suffix_object. destruct (set_item_next_ok (root i) _ _ _ _ _ _ Hr) as (h1 & -> & Hr1 & A1). rewrite ret_bind.
  assert (rep h1 (cells 0 0 i ++ cells pv (root i) t ++ L) T) as Hr1' by reorder Hr1.
  destruct (set_item_prev_ok (root t) _ _ _ _ _ _ Hr1') as (h2 & -> & Hr2 & A2). exists h2. split; [done|]. split; [|congruence].
  cbn [chain first]. reorder Hr2.
Qed.

(** The last of a list gets another successor, the first of a list another
    predecessor, when there is one. *)
Lemma link_next q pv l nx h L T : rep h (chain pv l nx ++ L) T ->
  exists h', (if negb (final 0 l =? 0) then update (with_next q) (final 0 l) h else Ret h) = Ret h' /\ rep h' (chain pv l q ++ L) T /\ answers h' = answers h.
Proof.
  destruct l as [|t l _] using rev_ind; intros Hr; [by exists h|]. rewrite final_snoc, chain_app in *. cbn [chain first] in *. rewrite app_nil_r, <- app_assoc in *.
  assert (rep h (cells (final pv l) nx t ++ chain pv l (root t) ++ L) T) as Hr1 by reorder Hr.
  rewrite (proj2 (Z.eqb_neq _ _)) by (by apply (roots_nonzero _ _ _ _ _ _ Hr1)). cbn [negb].
  destruct (set_item_next_ok q _ _ _ _ _ _ Hr1) as (h' & E & Hr2 & A). exists h'. split_and!; [done|reorder Hr2|done].
Qed.
Lemma link_prev q pv l nx h L T : rep h (chain pv l nx ++ L) T ->
  exists h', (if negb (first l 0 =? 0) then update (with_prev q) (first l 0) h else Ret h) = Ret h' /\ rep h' (chain q l nx ++ L) T /\ answers h' = answers h.
Proof.
  destruct l as [|t l]; intros Hr; [by exists h|]. rewrite !chain_cons, <- !app_assoc in *. cbn [first].
  rewrite (proj2 (Z.eqb_neq _ _)) by (by apply (roots_nonzero _ _ _ _ _ _ Hr)). cbn [negb].
  destruct (set_item_prev_ok q _ _ _ _ _ _ Hr) as (h' & E & Hr2 & A). by exists h'.
Qed.

(** The node [t] among the children of a node that is no reference. *)
Lemma cells_around pv nx a x l1 t l2 : cells pv nx (Tree a x (l1 ++ t :: l2)) ≡ₚ
  (a, cell pv nx x (l1 ++ t :: l2)) :: chain 0 l1 (root t) ++ cells (final 0 l1) (first l2 0) t ++ chain (root t) l2 0.
Proof. by rewrite cells_Tree, chain_app, chain_cons. Qed.
Lemma cells_joined pv nx a x l1 l2 : cells pv nx (Tree a x (l1 ++ l2)) ≡ₚ (a, cell pv nx x (l1 ++ l2)) :: chain 0 l1 (first l2 0) ++ chain (final 0 l1) l2 0.
Proof. by rewrite cells_Tree, chain_app. Qed.

Lemma rep_distinct h p c q d L T : rep h ((p, c) :: (q, d) :: L) T -> p <> q.
Proof. intros [_ _ Hn _ _ _]. cbn in Hn. apply NoDup_cons in Hn as [Hp _]. intros ->. apply Hp. by apply elem_of_cons; left. Qed.

(** Whether a node is the first of its list. *)
Lemma is_first pv l1 t l2 h L T : rep h (chain pv l1 (root t) ++ cells (final pv l1) (first l2 0) t ++ L) T ->
  (root t =? first (l1 ++ t :: l2) 0) = bool_decide (l1 = []) /\ (final 0 l1 = 0 <-> l1 = []).
Proof.
  destruct l1 as [|u l1]; [intros _; cbn; by rewrite Z.eqb_refl|]. cbn [app first]. rewrite chain_cons, !cells_cell. intros Hr.
  split.
  - rewrite bool_decide_false by done. apply Z.eqb_neq.
    apply (rep_distinct h _ (cell (final pv (u :: l1)) (first l2 0) (lab t) (kids t)) _ (cell pv (first l1 (root t)) (lab u) (kids u))
      (chain 0 (kids u) 0 ++ chain (root u) l1 (root t) ++ chain 0 (kids t) 0 ++ L) T). reorder Hr.
  - split; [|done]. destruct l1 as [|v l1 _] using rev_ind; intros Hz; [pose proof (rep_ptr _ _ _ _ _ Hr); change (final 0 [u]) with (root u) in Hz; lia|].
    rewrite final_cons, final_snoc in Hz. rewrite chain_app, chain_one, (cells_cell _ _ v) in Hr.
    assert (rep h ((root v, cell (final (root u) l1) (root t) (lab v) (kids v)) :: (root u, cell pv (first (l1 ++ [v]) (root t)) (lab u) (kids u)) ::
      chain 0 (kids u) 0 ++ chain (root u) l1 (first [v] (root t)) ++ chain 0 (kids v) 0 ++
      (root t, cell (final pv (u :: l1 ++ [v])) (first l2 0) (lab t) (kids t)) :: chain 0 (kids t) 0 ++ L) T) as Hv by reorder Hr.
    pose proof (rep_ptr _ _ _ _ _ Hv). lia.
Qed.

(** ** The operations on a list of children *)
Section children.
Context (pv nx a : Z) (x : label) (Hx : is_ref x = false).

Lemma child_cell l : n_child (cell pv nx x l) = first l 0.
Proof. unfold cell. cbn. by rewrite Hx. Qed.

Lemma set_child_ok l l' h L T : rep h ((a, cell pv nx x l) :: L) T ->
  exists h', update (with_child (first l' 0)) a h = Ret h' /\ rep h' ((a, cell pv nx x l') :: L) T /\ answers h' = answers h.
Proof. intros Hr. destruct (update_rep _ _ _ _ _ (with_child (first l' 0)) Hr) as (h' & E & Hr' & A). rewrite (with_child_cell _ _ _ _ l') in Hr' by done. by exists h'. Qed.

(** Behind the last of the children, whose address is at hand. *)
Lemma append_ok l i h L T : rep h (cells pv nx (Tree a x l) ++ cells 0 0 i ++ L) T ->
  exists h', (if negb (final 0 l =? 0) then suffix_object (final 0 l) (root i) h else update (with_child (root i)) a h) = Ret h' /\
    rep h' (cells pv nx (Tree a x (l ++ [i])) ++ L) T /\ answers h' = answers h.
Proof.
  rewrite cells_Tree. intros Hr. destruct l as [|t l _] using rev_ind.
  - destruct (set_child_ok [] [i] _ _ _ Hr) as (h' & E & Hr' & A). exists h'. split; [exact E|]. split; [|done].
    rewrite cells_Tree, app_nil_l, chain_one. reorder Hr'.
  - rewrite final_snoc. assert (rep h (chain 0 (l ++ [t]) 0 ++ (a, cell pv nx x (l ++ [t])) :: cells 0 0 i ++ L) T) as Hrc by reorder Hr.
    rewrite chain_app, chain_one in Hrc. assert (rep h (cells (final 0 l) 0 t ++ chain 0 l (first [t] 0) ++ (a, cell pv nx x (l ++ [t])) :: cells 0 0 i ++ L) T) as Hrt by reorder Hrc.
    rewrite (proj2 (Z.eqb_neq (root t) 0)) by (by apply (roots_nonzero _ _ _ _ _ _ Hrt)). cbn [negb].
    destruct (suffix_object_ok (final 0 l) t i h (chain 0 l (root t) ++ (a, cell pv nx x (l ++ [t])) :: L) T) as (h' & E & Hr' & A); [reorder Hrc|].
    exists h'. split; [exact E|]. split; [|done]. rewrite <- app_assoc. cbn [app]. rewrite cells_around. cbn [chain first app] in *.
    assert (cell pv nx x (l ++ [t]) = cell pv nx x (l ++ [t; i])) as Ec by (unfold cell; by rewrite !first_app). rewrite Ec in Hr'. reorder Hr'.
Qed.

Lemma add_ok l i h L T : rep h (cells pv nx (Tree a x l) ++ cells 0 0 i ++ L) T ->
  exists h', cJSON_AddItemToArray a (root i) h = Ret h' /\ rep h' (cells pv nx (Tree a x (l ++ [i])) ++ L) T /\ answers h' = answers h.
Proof.
  intros Hr. destruct (append_ok l i h L T Hr) as (h' & E & Hr' & A). exists h'. split; [|done]. rewrite <- E. clear E Hr' A h'. rewrite cells_Tree in Hr.
  unfold cJSON_AddItemToArray. assert (rep h (cells 0 0 i ++ ((a, cell pv nx x l) :: chain 0 l 0) ++ L) T) as Hri by reorder Hr.
  rewrite (proj2 (Z.eqb_neq (root i) 0)) by (by apply (roots_nonzero _ _ _ _ _ _ Hri)).
  rewrite (proj2 (Z.eqb_neq a 0)) by (by apply (rep_ptr _ _ _ _ _ Hr)). cbn [orb]. rewrite (load_rep _ _ _ _ _ Hr), ret_bind, child_cell.
  destruct l as [|t l _] using rev_ind; [done|].
  assert (rep h (chain 0 (l ++ [t]) 0 ++ (a, cell pv nx x (l ++ [t])) :: cells 0 0 i ++ L) T) as Hrc by reorder Hr.
  destruct (Z.eqb_spec (first (l ++ [t]) 0) 0) as [Hz|_]; [apply (first_zero _ _ _ _ _ _ Hrc) in Hz; by destruct l|].
  rewrite (last_loop_ok h T (heap_fuel h) l t 0 _ Hrc), ret_bind, final_snoc.
  2: { rewrite (rep_fuel _ _ _ Hrc), length_app. pose proof (length_roots (l ++ [t]) 0 0) as Hle. rewrite length_app in Hle. cbn in Hle. lia. }
  rewrite chain_app, chain_one in Hrc. assert (rep h (cells (final 0 l) 0 t ++ chain 0 l (first [t] 0) ++ (a, cell pv nx x (l ++ [t])) :: cells 0 0 i ++ L) T) as Hrt by reorder Hrc.
  by rewrite (proj2 (Z.eqb_neq (root t) 0)) by (by apply (roots_nonzero _ _ _ _ _ _ Hrt)).
Qed.

Lemma detach_ok l1 t l2 h L T : rep h (cells pv nx (Tree a x (l1 ++ t :: l2)) ++ L) T ->
  exists h', cJSON_DetachItemViaPointer a (root t) h = Ret (root t, h') /\ rep h' (cells pv nx (Tree a x (l1 ++ l2)) ++ cells 0 0 t ++ L) T /\ answers h' = answers h.
Proof.
  rewrite cells_around. intros Hr. unfold cJSON_DetachItemViaPointer. set (ca := cell pv nx x (l1 ++ t :: l2)) in *. set (o := first l2 0) in *. set (d := final 0 l1) in *.
  assert (rep h (cells d o t ++ (a, ca) :: chain 0 l1 (root t) ++ chain (root t) l2 0 ++ L) T) as Hrt by reorder Hr.
  rewrite (proj2 (Z.eqb_neq (root t) 0)) by (by apply (roots_nonzero _ _ _ _ _ _ Hrt)). rewrite (proj2 (Z.eqb_neq a 0)) by (by apply (rep_ptr _ _ _ _ _ Hr)). cbn [orb].
  pose proof Hrt as Hrt1. rewrite cells_cell in Hrt1. rewrite (load_rep _ _ _ _ _ Hrt1), ret_bind. cbn [prev next cell].
  destruct (link_next o 0 l1 (root t) h ((a, ca) :: cells d o t ++ chain (root t) l2 0 ++ L) T) as (h1 & E1 & Hr1 & A1); [reorder Hr|]. fold d in E1. rewrite E1, ret_bind.
  assert (rep h1 ((root t, cell d o (lab t) (kids t)) :: chain 0 (kids t) 0 ++ (a, ca) :: chain 0 l1 o ++ chain (root t) l2 0 ++ L) T) as Hrt2 by (rewrite cells_cell in Hr1; reorder Hr1).
  rewrite (load_rep _ _ _ _ _ Hrt2), ret_bind. cbn [prev next cell].
  destruct (link_prev d (root t) l2 0 h1 ((a, ca) :: cells d o t ++ chain 0 l1 o ++ L) T) as (h2 & E2 & Hr2 & A2); [reorder Hr1|]. fold o in E2. rewrite E2, ret_bind.
  assert (rep h2 ((a, ca) :: chain 0 l1 o ++ chain d l2 0 ++ cells d o t ++ L) T) as Hra by reorder Hr2. rewrite (load_rep _ _ _ _ _ Hra), ret_bind.
  assert (rep h2 ((root t, cell d o (lab t) (kids t)) :: chain 0 (kids t) 0 ++ (a, ca) :: chain 0 l1 o ++ chain d l2 0 ++ L) T) as Hrt3 by (rewrite cells_cell in Hra; reorder Hra).
  rewrite (load_rep _ _ _ _ _ Hrt3), ret_bind. cbn [prev next cell]. unfold ca at 1. rewrite child_cell.
  destruct (is_first 0 l1 t l2 h ((a, ca) :: chain (root t) l2 0 ++ L) T) as [Ef _]; [reorder Hr|]. rewrite Ef.
  assert (exists h3, (if bool_decide (l1 = []) then update (with_child o) a h2 else Ret h2) = Ret h3 /\
    rep h3 ((a, cell pv nx x (l1 ++ l2)) :: chain 0 l1 o ++ chain d l2 0 ++ cells d o t ++ L) T /\ answers h3 = answers h2) as (h3 & -> & Hr3 & A3).
  { destruct l1 as [|u l1]; [|exists h2; split_and!; [done| |done]; exact Hra]. rewrite bool_decide_true by done. unfold o. by apply (set_child_ok _ l2 _ _ _ Hra). }
  rewrite ret_bind. destruct (set_item_prev_ok 0 d o t h3 ((a, cell pv nx x (l1 ++ l2)) :: chain 0 l1 o ++ chain d l2 0 ++ L) T) as (h4 & -> & Hr4 & A4); [reorder Hr3|]. rewrite ret_bind.
  destruct (set_item_next_ok 0 _ _ _ _ _ _ Hr4) as (h5 & -> & Hr5 & A5). rewrite ret_bind. exists h5. split; [done|]. split; [|congruence].
  rewrite cells_joined. reorder Hr5.
Qed.

Lemma rep_kids l h L T : rep h (cells pv nx (Tree a x l) ++ L) T -> rep h (chain 0 l 0 ++ (a, cell pv nx x l) :: L) T /\ (length l < heap_fuel h)%nat.
Proof.
  rewrite cells_Tree. intros Hr. assert (rep h (chain 0 l 0 ++ (a, cell pv nx x l) :: L) T) as Hk by reorder Hr. split; [done|].
  rewrite (rep_fuel _ _ _ Hk), length_app. pose proof (length_roots l 0 0). lia.
Qed.

Lemma get_array_item_ok l k h L T : rep h (cells pv nx (Tree a x l) ++ L) T -> 0 <= k -> get_array_item a k h = Ret (first (zdrop k l) 0).
Proof.
  intros Hr Hk. destruct (rep_kids _ _ _ _ Hr) as [Hc Hf]. rewrite cells_Tree in Hr. unfold get_array_item. rewrite (proj2 (Z.eqb_neq a 0)) by (by apply (rep_ptr _ _ _ _ _ Hr)).
  rewrite (load_rep _ _ _ _ _ Hr), ret_bind, child_cell. by apply (index_loop_ok h T _ l 0 k _ Hc).
Qed.

Lemma get_array_size_ok l h L T : rep h (cells pv nx (Tree a x l) ++ L) T -> cJSON_GetArraySize a h = Ret (s32 (zlen l)).
Proof.
  intros Hr. destruct (rep_kids _ _ _ _ Hr) as [Hc Hf]. rewrite cells_Tree in Hr. unfold cJSON_GetArraySize. rewrite (proj2 (Z.eqb_neq a 0)) by (by apply (rep_ptr _ _ _ _ _ Hr)).
  by rewrite (load_rep _ _ _ _ _ Hr), ret_bind, child_cell, (count_children_ok h T _ l 0 _ Hc), ret_bind.
Qed.

Lemma insert_ok l k i h L T : rep h (cells pv nx (Tree a x l) ++ cells 0 0 i ++ L) T -> 0 <= k ->
  exists h', cJSON_InsertItemInArray a k (root i) h = Ret h' /\ rep h' (cells pv nx (Tree a x (ztake k l ++ i :: zdrop k l)) ++ L) T /\ answers h' = answers h.
Proof.
  intros Hr Hk. unfold cJSON_InsertItemInArray. rewrite (proj2 (Z.ltb_ge k 0)), (get_array_item_ok l k h _ T Hr), ret_bind by done.
  destruct (zdrop k l) as [|t l2] eqn:Ed; cbn [first].
  - rewrite Z.eqb_refl. rewrite <- (ztake_zdrop k l), Ed, app_nil_r in Hr. by apply add_ok.
  - assert (l = ztake k l ++ t :: l2) as El by (by rewrite <- Ed, ztake_zdrop). clear Ed. revert El. generalize (ztake k l) as l1. intros l1 ->. rewrite cells_around in Hr.
    set (ca := cell pv nx x (l1 ++ t :: l2)) in *. set (o := first l2 0) in *. set (d := final 0 l1) in *.
    assert (rep h (cells d o t ++ (a, ca) :: chain 0 l1 (root t) ++ chain (root t) l2 0 ++ cells 0 0 i ++ L) T) as Hrt by reorder Hr.
    rewrite (proj2 (Z.eqb_neq (root t) 0)) by (by apply (roots_nonzero _ _ _ _ _ _ Hrt)).
    destruct (set_item_next_ok (root t) 0 0 i h (cells d o t ++ (a, ca) :: chain 0 l1 (root t) ++ chain (root t) l2 0 ++ L) T) as (h1 & -> & Hr1 & A1); [reorder Hrt|]. rewrite ret_bind.
    assert (rep h1 ((root t, cell d o (lab t) (kids t)) :: chain 0 (kids t) 0 ++ cells 0 (root t) i ++ (a, ca) :: chain 0 l1 (root t) ++ chain (root t) l2 0 ++ L) T) as Hrt1.
    { rewrite (cells_cell _ _ t) in Hr1. reorder Hr1. }
    rewrite (load_rep _ _ _ _ _ Hrt1), ret_bind. cbn [prev cell].
    destruct (set_item_prev_ok d 0 (root t) i h1 (cells d o t ++ (a, ca) :: chain 0 l1 (root t) ++ chain (root t) l2 0 ++ L) T) as (h2 & -> & Hr2 & A2); [exact Hr1|]. rewrite ret_bind.
    destruct (set_item_prev_ok (root i) d o t h2 (cells d (root t) i ++ (a, ca) :: chain 0 l1 (root t) ++ chain (root t) l2 0 ++ L) T) as (h3 & -> & Hr3 & A3); [reorder Hr2|]. rewrite ret_bind.
    assert (rep h3 ((a, ca) :: chain 0 l1 (root t) ++ cells d (root t) i ++ cells (root i) o t ++ chain (root t) l2 0 ++ L) T) as Hra by reorder Hr3.
    rewrite (load_rep _ _ _ _ _ Hra), ret_bind. unfold ca at 1. rewrite child_cell.
    destruct (is_first 0 l1 t l2 h ((a, ca) :: chain (root t) l2 0 ++ cells 0 0 i ++ L) T) as [Ef Ez]; [reorder Hr|]. rewrite Ef. fold d in Ez.
    assert (cells pv nx (Tree a x (l1 ++ i :: t :: l2)) ≡ₚ (a, cell pv nx x (l1 ++ i :: t :: l2)) :: chain 0 l1 (root i) ++ cells d (root t) i ++ cells (root i) o t ++ chain (root t) l2 0) as Egoal.
    { rewrite cells_around, chain_cons. done. }
    destruct l1 as [|u l1].
    + rewrite bool_decide_true by done. destruct (set_child_ok _ ([] ++ i :: t :: l2) _ _ _ Hra) as (h4 & E & Hr4 & A4). exists h4. split_and!; [exact E| |congruence]. rewrite Egoal. cbn [chain app] in *. reorder Hr4.
    + rewrite bool_decide_false by done. assert (rep h3 (cells d (root t) i ++ (a, ca) :: chain 0 (u :: l1) (root t) ++ cells (root i) o t ++ chain (root t) l2 0 ++ L) T) as Hri by reorder Hra.
      rewrite cells_cell in Hri. rewrite (load_rep _ _ _ _ _ Hri), ret_bind. cbn [prev cell].
      destruct (link_next (root i) 0 (u :: l1) (root t) h3 ((a, ca) :: cells d (root t) i ++ cells (root i) o t ++ chain (root t) l2 0 ++ L) T) as (h4 & E & Hr4 & A4); [reorder Hra|].
      fold d in E. rewrite (proj2 (Z.eqb_neq d 0)) in E by (intros Hz; by apply Ez in Hz). cbn [negb] in E. exists h4. split_and!; [exact E| |congruence].
      assert (ca = cell pv nx x ((u :: l1) ++ i :: t :: l2)) as Eca by (unfold ca, cell; by rewrite !first_app). rewrite Eca in Hr4. rewrite Egoal. reorder Hr4.
Qed.

Lemma replace_ok l1 t l2 r h L T : rep h (cells pv nx (Tree a x (l1 ++ t :: l2)) ++ cells 0 0 r ++ L) (tree_texts t ++ T) -> tree_ok t ->
  exists h', cJSON_ReplaceItemViaPointer a (root t) (root r) h = Ret (true, h') /\ rep h' (cells pv nx (Tree a x (l1 ++ r :: l2)) ++ L) T /\ answers h' = answers h.
Proof.
  rewrite cells_around. intros Hr Hok. set (TT := tree_texts t ++ T) in *. unfold cJSON_ReplaceItemViaPointer. set (ca := cell pv nx x (l1 ++ t :: l2)) in *. set (o := first l2 0) in *. set (d := final 0 l1) in *.
  set (R := (a, ca) :: chain 0 l1 (root t) ++ chain (root t) l2 0 ++ L).
  assert (rep h (cells d o t ++ cells 0 0 r ++ R) TT) as Hrt by (unfold R; reorder Hr). pose proof Hrt as Hd. rewrite !cells_cell in Hd.
  assert (rep h (cells 0 0 r ++ cells d o t ++ R) TT) as Hrr by reorder Hrt.
  rewrite (proj2 (Z.eqb_neq (root r) 0)) by (by apply (roots_nonzero _ _ _ _ _ _ Hrr)). rewrite (proj2 (Z.eqb_neq (root t) 0)) by (by apply (roots_nonzero _ _ _ _ _ _ Hrt)).
  rewrite (proj2 (Z.eqb_neq a 0)) by (by apply (rep_ptr _ _ _ _ _ Hr)). cbn [orb].
  rewrite (proj2 (Z.eqb_neq (root r) (root t))).
  2: { apply (rep_distinct h _ (cell 0 0 (lab r) (kids r)) _ (cell d o (lab t) (kids t)) (chain 0 (kids t) 0 ++ chain 0 (kids r) 0 ++ R) TT). reorder Hd. }
  rewrite (load_rep _ _ _ _ _ Hd), ret_bind. cbn [next cell].
  destruct (set_item_next_ok o _ _ _ _ _ _ Hrr) as (h1 & -> & Hr1 & A1). rewrite ret_bind.
  assert (rep h1 ((root t, cell d o (lab t) (kids t)) :: chain 0 (kids t) 0 ++ cells 0 o r ++ R) TT) as Hd1 by (rewrite (cells_cell _ _ t) in Hr1; reorder Hr1).
  rewrite (load_rep _ _ _ _ _ Hd1), ret_bind. cbn [prev cell].
  destruct (set_item_prev_ok d _ _ _ _ _ _ Hr1) as (h2 & -> & Hr2 & A2). rewrite ret_bind. pose proof Hr2 as Hr2'. rewrite (cells_cell _ _ r) in Hr2'.
  rewrite (load_rep _ _ _ _ _ Hr2'), ret_bind. cbn [next cell].
  destruct (link_prev (root r) (root t) l2 0 h2 (cells d o r ++ cells d o t ++ (a, ca) :: chain 0 l1 (root t) ++ L) TT) as (h3 & E3 & Hr3 & A3); [unfold R in Hr2; reorder Hr2|].
  fold o in E3. rewrite E3, ret_bind.
  assert (rep h3 ((root r, cell d o (lab r) (kids r)) :: chain 0 (kids r) 0 ++ chain (root r) l2 0 ++ cells d o t ++ (a, ca) :: chain 0 l1 (root t) ++ L) TT) as Hr3' by (rewrite (cells_cell _ _ r) in Hr3; reorder Hr3).
  rewrite (load_rep _ _ _ _ _ Hr3'), ret_bind. cbn [prev cell].
  destruct (link_next (root r) 0 l1 (root t) h3 (chain (root r) l2 0 ++ cells d o r ++ cells d o t ++ (a, ca) :: L) TT) as (h4 & E4 & Hr4 & A4); [reorder Hr3|].
  fold d in E4. rewrite E4, ret_bind.
  assert (rep h4 ((a, ca) :: chain 0 l1 (root r) ++ cells d o r ++ chain (root r) l2 0 ++ cells d o t ++ L) TT) as Hra by reorder Hr4.
  rewrite (load_rep _ _ _ _ _ Hra), ret_bind. unfold ca at 1. rewrite child_cell, Z.eqb_sym.
  destruct (is_first 0 l1 t l2 h ((a, ca) :: chain (root t) l2 0 ++ cells 0 0 r ++ L) TT) as [Ef _]; [reorder Hr|]. rewrite Ef.
  assert (exists h5, (if bool_decide (l1 = []) then update (with_child (root r)) a h4 else Ret h4) = Ret h5 /\
    rep h5 ((a, cell pv nx x (l1 ++ r :: l2)) :: chain 0 l1 (root r) ++ cells d o r ++ chain (root r) l2 0 ++ cells d o t ++ L) TT /\ answers h5 = answers h4) as (h5 & -> & Hr5 & A5).
  { destruct l1 as [|u l1]; [|exists h4; split_and!; [done| |done]; exact Hra]. rewrite bool_decide_true by done. by apply (set_child_ok _ ([] ++ r :: l2) _ _ _ Hra). }
  rewrite ret_bind. destruct (set_item_next_ok 0 d o t h5 (cells pv nx (Tree a x (l1 ++ r :: l2)) ++ L) TT) as (h6 & -> & Hr6 & A6); [rewrite cells_around; reorder Hr5|]. rewrite ret_bind.
  destruct (set_item_prev_ok 0 _ _ _ _ _ _ Hr6) as (h7 & -> & Hr7 & A7). rewrite ret_bind.
  destruct (cJSON_Delete_ok t h7 _ T Hr7 Hok) as (h8 & -> & Hr8 & A8). rewrite ret_bind. exists h8. split_and!; [done|done|congruence].
Qed.
End children.

(** ** Creating items *)

(** An item was made, or there was no memory and nothing happened. *)
Definition created (h : heap) (L : cells_t) (T : texts_t) (x : Z -> label) (p : Z) (h' : heap) : Prop :=
  later h h' /\ (p = 0 /\ may_fail h /\ rep h' L T \/ p <> 0 /\ rep h' (cells 0 0 (Tree p (x p) []) ++ L) T).

Definition plain (t : Z) : label := mkLabel t Nothing 0 (Fin false 0 0) Nothing 0.
Lemma plain_ok t : has_flag t cJSON_IsReference = false -> label_ok (plain t) [].
Proof. by split. Qed.

Lemma zero_cell : zero_node = cell 0 0 (plain 0) [].
Proof. done. Qed.

Lemma create_item_ok f x h L T : rep h L T -> f zero_node = cell 0 0 x [] ->
  exists p h', create f h = Ret (p, h') /\ created h L T (fun _ => x) p h'.
Proof.
  intros Hr Hf. unfold create. destruct (new_item h) as [p h1] eqn:E. destruct (new_item_rep _ _ _ _ _ E Hr) as [Hl [(-> & Hm & Hr1)|[Hp Hr1]]].
  - exists 0, h1. split; [done|]. split; [done|by left].
  - rewrite (proj2 (Z.eqb_neq p 0)) by done. destruct (update_rep _ _ _ _ _ f Hr1) as (h2 & -> & Hr2 & A). rewrite ret_bind. exists p, h2. split; [done|].
    split; [by apply (later_trans h h1), later_eq|]. right. split; [done|]. rewrite cells_Tree, <- Hf. exact Hr2.
Qed.


Lemma create_number_ok d h L T : rep h L T -> d <> NaN ->
  exists i p h', saturate d = Ret i /\ cJSON_CreateNumber d h = Ret (p, h') /\
    created h L T (fun _ => mkLabel cJSON_Number Nothing i d Nothing 0) p h'.
Proof.
  intros Hr Hd. destruct (saturate_ok d Hd) as (i & Ei & _). exists i. unfold cJSON_CreateNumber. rewrite Ei.
  destruct (create_item_ok (fun n => with_number i d (with_type cJSON_Number n)) (mkLabel cJSON_Number Nothing i d Nothing 0) h L T Hr) as (p & h' & E & Hc); [done|].
  exists p, h'. split_and!; [done| |done]. unfold create in E. destruct (new_item h) as [q h1]. destruct (q =? 0); exact E.
Qed.

(** A text that can be read: [b] is in the heap and holds the string [s]. *)
Definition holds (T : texts_t) (a : Z) (s : bytes) : Prop := exists b, (a, b) ∈ T /\ c_str b = Ret s.

Lemma text_held h L T a b : rep h L T -> (a, b) ∈ T -> text a h = Ret b /\ a <> 0.
Proof.
  intros Hr Hin. apply elem_of_Permutation in Hin as [T' HT]. rewrite HT in Hr. split; [by apply (text_rep _ _ _ _ _ Hr)|by apply (rep_text_ptr _ _ _ _ _ Hr)].
Qed.

Lemma strdup_ok a s h L T : rep h L T -> holds T a s ->
  exists p h', cJSON_strdup a h = Ret (p, h') /\ later h h' /\
    (p = 0 /\ may_fail h /\ rep h' L T \/ p <> 0 /\ rep h' L ((p, s ++ [0]) :: T)).
Proof.
  intros Hr (b & Hin & Hb). destruct (text_held _ _ _ _ _ Hr Hin) as [Ht Ha]. unfold cJSON_strdup. rewrite (proj2 (Z.eqb_neq a 0)), Ht, ret_bind, Hb, ret_bind by done.
  destruct (new_text (s ++ [0]) h) as [p h'] eqn:E. exists p, h'. split; [done|]. apply (new_text_rep _ _ _ _ _ _ E Hr).
Qed.

Lemma holds_perm T T' a s : T ≡ₚ T' -> holds T a s -> holds T' a s.
Proof. intros HT (b & Hin & Hb). exists b. by rewrite <- HT. Qed.
Lemma holds_more T T' a s : holds T a s -> holds (T' ++ T) a s.
Proof. intros (b & Hin & Hb). exists b. split; [apply elem_of_app; by right|done]. Qed.

Lemma create_text_ok t a s h L T : rep h L T -> holds T a s ->
  exists p h', create_text t a h = Ret (p, h') /\ later h h' /\
    (p = 0 /\ may_fail h /\ rep h' L T \/
     exists q, p <> 0 /\ rep h' (cells 0 0 (Tree p (mkLabel t (Owned q (s ++ [0])) 0 (Fin false 0 0) Nothing 0) []) ++ L) ((q, s ++ [0]) :: T)).
Proof.
  intros Hr Hs. unfold create_text. destruct (new_item h) as [p h1] eqn:E. destruct (new_item_rep _ _ _ _ _ E Hr) as [Hl1 [(-> & Hm & Hr1)|[Hp Hr1]]].
  { exists 0, h1. split_and!; [done|done|by left]. }
  rewrite (proj2 (Z.eqb_neq p 0)) by done. destruct (update_rep _ _ _ _ _ (with_type t) Hr1) as (h2 & -> & Hr2 & A2). rewrite ret_bind.
  destruct (strdup_ok a s h2 _ T Hr2 Hs) as (q & h3 & -> & Hl3 & Hq). rewrite ret_bind.
  assert (later h h3) as Hl by (apply (later_trans h h1 h3), (later_trans h1 h2 h3); [done|by apply later_eq|done]).
  assert (exists T3, rep h3 ((p, with_type t zero_node) :: L) T3 /\ (q = 0 /\ may_fail h /\ T3 = T \/ q <> 0 /\ T3 = (q, s ++ [0]) :: T)) as (T3 & Hr3 & HT3).
  { destruct Hq as [(-> & Hm & Hr3)|[Hq Hr3]]; [|by eexists; split; [|right]]. exists T. split; [done|]. left. split_and!; [done| |done].
    apply (later_may_fail h h1 Hl1). unfold may_fail in *. by rewrite A2 in Hm. }
  destruct (update_rep _ _ _ _ _ (with_valuestring q) Hr3) as (h4 & -> & Hr4 & A4). rewrite ret_bind.
  destruct HT3 as [(-> & Hm & ->)|[Hq0 ->]].
  - cbn [Z.eqb]. destruct (cJSON_Delete_ok (Tree p (plain t) []) h4 L T) as (h5 & E5 & Hr5 & A5).
    + rewrite cells_Tree. cbn [chain app]. destruct (has_flag t cJSON_IsReference) eqn:Ef; [|unfold cell, is_ref; cbn; rewrite Ef; exact Hr4].
      unfold cell, is_ref. cbn. rewrite Ef. exact Hr4.
    + cbn. split; [|done]. by split.
    + cbn [root] in E5. rewrite E5, ret_bind. exists 0, h5. split_and!; [done| |by left]. apply (later_trans h h3); [done|]. apply later_eq. congruence.
  - rewrite (proj2 (Z.eqb_neq q 0)) by done. exists p, h4. split_and!; [done|apply (later_trans h h3); [done|by apply later_eq]|]. right. exists q. split; [done|].
    rewrite cells_Tree. cbn [chain app]. unfold cell, is_ref. cbn. by destruct (has_flag t cJSON_IsReference).
Qed.

(** ** Names *)
Definition clear_flag (t : Z) : Z := Z.land t (Z.lnot cJSON_StringIsConst).
Definition named (x : label) (t : Z) (f : field) : label := mkLabel t (l_valuestring x) (l_valueint x) (l_valuedouble x) f (l_child x).

Lemma flag_clear_ref t : has_flag (clear_flag t) cJSON_IsReference = has_flag t cJSON_IsReference.
Proof. unfold has_flag, clear_flag. by rewrite <- Z.land_assoc. Qed.
Lemma flag_clear_const t : has_flag (clear_flag t) cJSON_StringIsConst = false.
Proof. unfold has_flag, clear_flag. rewrite <- Z.land_assoc. change (Z.land (Z.lnot cJSON_StringIsConst) cJSON_StringIsConst) with 0. by rewrite Z.land_0_r. Qed.
Lemma flag_set t f : f <> 0 -> has_flag (Z.lor t f) f = true.
Proof.
  intros Hf. unfold has_flag. rewrite Z.land_lor_distr_l, Z.land_diag. rewrite (proj2 (Z.eqb_neq _ _)); [done|]. intros Hz. by apply Z.lor_eq_0_iff in Hz as [_ Hz].
Qed.
Lemma flag_other t f g : Z.land f g = 0 -> has_flag (Z.lor t f) g = has_flag t g.
Proof. intros Hfg. unfold has_flag. by rewrite Z.land_lor_distr_l, Hfg, Z.lor_0_r. Qed.
Lemma clear_set t : clear_flag (Z.lor t cJSON_StringIsConst) = clear_flag t.
Proof. unfold clear_flag. rewrite Z.land_lor_distr_l. change (Z.land cJSON_StringIsConst (Z.lnot cJSON_StringIsConst)) with 0. by rewrite Z.lor_0_r. Qed.

Lemma named_cell pv nx x t f l : has_flag t cJSON_IsReference = is_ref x ->
  cell pv nx (named x t f) l = with_string (ptr f) (with_type t (cell pv nx x l)).
Proof. intros Ht. unfold cell, is_ref, named, with_string, with_type in *. cbn. by rewrite Ht. Qed.

(** The name of an item is replaced by a text that the client keeps. *)
Lemma add_object_cs_ok pv nx a x l p y k s h L T : is_ref x = false -> rep h (cells pv nx (Tree a x l) ++ cells 0 0 (Tree p y k) ++ L) (own (l_string y) ++ T) ->
  label_ok y k -> s <> 0 ->
  exists h', cJSON_AddItemToObjectCS a s p h = Ret h' /\ answers h' = answers h /\
    rep h' (cells pv nx (Tree a x (l ++ [Tree p (named y (Z.lor (l_type y) cJSON_StringIsConst) (Shared s)) k])) ++ L) T.
Proof.
  intros Hx Hr Hy Hs. unfold cJSON_AddItemToObjectCS. assert (rep h ((p, cell 0 0 y k) :: chain 0 k 0 ++ cells pv nx (Tree a x l) ++ L) (own (l_string y) ++ T)) as Hp by (rewrite (cells_Tree 0 0 p) in Hr; reorder Hr).
  rewrite (proj2 (Z.eqb_neq p 0)) by (by apply (rep_ptr _ _ _ _ _ Hp)). rewrite (proj2 (Z.eqb_neq s 0)) by done. cbn [orb].
  destruct (free_owned_ok cJSON_StringIsConst n_string (l_string y) p (cell 0 0 y k) h _ T Hp) as (h1 & -> & Hr1 & A1); [done|apply (const_shares _ _ Hy)|apply (const_not _ _ Hy)|]. rewrite ret_bind.
  destruct (update_rep _ _ _ _ _ (with_string s) Hr1) as (h2 & -> & Hr2 & A2). rewrite ret_bind.
  destruct (update_rep _ _ _ _ _ (fun n => with_type (Z.lor (n_type n) cJSON_StringIsConst) n) Hr2) as (h3 & -> & Hr3 & A3). rewrite ret_bind.
  set (y' := named y _ _). assert (rep h3 (cells pv nx (Tree a x l) ++ cells 0 0 (Tree p y' k) ++ L) T) as Hr4.
  { rewrite (cells_Tree 0 0 p). unfold y'. rewrite named_cell by (by apply flag_other). reorder Hr3. }
  destruct (add_ok pv nx a x Hx l (Tree p y' k) h3 L T Hr4) as (h4 & E & Hr5 & A5). exists h4. split_and!; [exact E|congruence|done].
Qed.

Lemma kid_cells pv nx a x l1 t l2 L T h : rep h (cells pv nx (Tree a x (l1 ++ t :: l2)) ++ L) T ->
  rep h ((root t, cell (final 0 l1) (first l2 0) (lab t) (kids t)) :: chain 0 (kids t) 0 ++ (a, cell pv nx x (l1 ++ t :: l2)) :: chain 0 l1 (root t) ++ chain (root t) l2 0 ++ L) T.
Proof. rewrite cells_around, cells_cell. intros Hr. reorder Hr. Qed.

(** The label of a child changes. *)
Lemma set_kid_label f pv nx a x l1 p y y' k l2 h L T : rep h (cells pv nx (Tree a x (l1 ++ Tree p y k :: l2)) ++ L) T ->
  (forall pv nx, f (cell pv nx y k) = cell pv nx y' k) ->
  exists h', update f p h = Ret h' /\ rep h' (cells pv nx (Tree a x (l1 ++ Tree p y' k :: l2)) ++ L) T /\ answers h' = answers h.
Proof.
  intros Hr Hf. apply kid_cells in Hr. destruct (update_rep _ _ _ _ _ f Hr) as (h' & E & Hr' & A). exists h'. split; [exact E|]. split; [|done].
  cbn [lab kids root] in *. rewrite Hf in Hr'. rewrite cells_around, (cells_Tree _ _ p). cbn [root].
  assert (cell pv nx x (l1 ++ Tree p y k :: l2) = cell pv nx x (l1 ++ Tree p y' k :: l2)) as Ec by (unfold cell; by rewrite !first_app). rewrite Ec in Hr'. reorder Hr'.
Qed.

(** The name is copied; without memory for the copy the item stays where it is,
    and only its flag is cleared. *)
Lemma add_object_ok pv nx a x l p y k s nm h L T : is_ref x = false -> rep h (cells pv nx (Tree a x l) ++ cells 0 0 (Tree p y k) ++ L) (own (l_string y) ++ T) ->
  label_ok y k -> holds (own (l_string y) ++ T) s nm ->
  exists h', cJSON_AddItemToObject a s p h = Ret h' /\ later h h' /\
    (may_fail h /\ rep h' (cells pv nx (Tree a x l) ++ cells 0 0 (Tree p (named y (clear_flag (l_type y)) (l_string y)) k) ++ L) (own (l_string y) ++ T) \/
     exists q, rep h' (cells pv nx (Tree a x (l ++ [Tree p (named y (clear_flag (l_type y)) (Owned q (nm ++ [0]))) k])) ++ L) ((q, nm ++ [0]) :: T)).
Proof.
  intros Hx Hr Hy Hs. unfold cJSON_AddItemToObject. assert (rep h (cells 0 0 (Tree p y k) ++ cells pv nx (Tree a x l) ++ L) (own (l_string y) ++ T)) as Hp by reorder Hr.
  rewrite (proj2 (Z.eqb_neq p 0)) by (by apply (roots_nonzero _ (Tree p y k) _ _ _ _ Hp)).
  destruct (strdup_ok s nm h _ _ Hr Hs) as (q & h1 & -> & Hl1 & [(-> & Hm & Hr1)|[Hq Hr1]]); rewrite ret_bind.
  - unfold cJSON_AddItemToObjectCS. rewrite orb_true_r, ret_bind.
    assert (rep h1 (cells 0 0 (Tree p y k) ++ cells pv nx (Tree a x l) ++ L) (own (l_string y) ++ T)) as Hr2 by reorder Hr1.
    destruct (set_label_ok clear_const (named y (clear_flag (l_type y)) (l_string y)) _ _ _ _ _ _ _ _ Hr2) as (h2 & -> & Hr3 & A2).
    { rewrite named_cell by apply flag_clear_ref. done. }
    exists h2. split_and!; [done|by apply (later_trans h h1), later_eq|]. left. split; [done|]. reorder Hr3.
  - assert (rep h1 (cells pv nx (Tree a x l) ++ cells 0 0 (Tree p y k) ++ L) (own (l_string y) ++ (q, nm ++ [0]) :: T)) as Hr2 by reorder Hr1.
    destruct (add_object_cs_ok pv nx a x l p y k q h1 L _ Hx Hr2 Hy Hq) as (h2 & -> & A2 & Hr3). rewrite ret_bind.
    set (y1 := named y _ (Shared q)) in *.
    destruct (set_kid_label clear_const pv nx a x l p y1 (named y (clear_flag (l_type y)) (Owned q (nm ++ [0]))) k [] h2 L _ Hr3) as (h3 & -> & Hr4 & A3).
    { intros pv' nx'. unfold y1. rewrite !named_cell by (apply flag_clear_ref || by apply flag_other). unfold clear_const, with_type, with_string. cbn. f_equal. apply clear_set. }
    exists h3. split_and!; [done|apply (later_trans h h1); [done|apply later_eq; congruence]|]. right. by exists q.
Qed.

(** ** References *)
Definition reference_to (x : label) (child : Z) : label :=
  mkLabel (Z.lor (l_type x) cJSON_IsReference) (match l_valuestring x with Nothing => Nothing | f => Shared (ptr f) end)
    (l_valueint x) (l_valuedouble x) Nothing child.

Lemma reference_label_ok x child : label_ok (reference_to x child) [].
Proof.
  assert (is_ref (reference_to x child) = true) as Href by (by apply flag_set). split; try done.
  - intros _. split; [|done]. cbn [l_valuestring reference_to]. by destruct (l_valuestring x).
  - by rewrite Href.
Qed.

Lemma create_reference_ok pv nx p x l h L T : rep h (cells pv nx (Tree p x l) ++ L) T ->
  exists r h', create_reference p h = Ret (r, h') /\
    created h (cells pv nx (Tree p x l) ++ L) T (fun _ => reference_to x (n_child (cell pv nx x l))) r h'.
Proof.
  intros Hr. pose proof Hr as Hr0. rewrite cells_Tree in Hr0. unfold create_reference. rewrite (proj2 (Z.eqb_neq p 0)) by (by apply (rep_ptr _ _ _ _ _ Hr0)).
  destruct (new_item h) as [r h1] eqn:E. destruct (new_item_rep _ _ _ _ _ E Hr) as [Hl1 [(-> & Hm & Hr1)|[Hr' Hr1]]].
  { exists 0, h1. split; [done|]. split; [done|by left]. }
  rewrite (proj2 (Z.eqb_neq r 0)) by done. assert (rep h1 ((p, cell pv nx x l) :: (r, zero_node) :: chain 0 l 0 ++ L) T) as Hr2 by (rewrite cells_Tree in Hr1; reorder Hr1).
  rewrite (load_rep _ _ _ _ _ Hr2), ret_bind.
  destruct (update_rep _ _ _ _ _ (fun _ => with_prev 0 (with_next 0 (with_type (Z.lor (n_type (cell pv nx x l)) cJSON_IsReference) (with_string 0 (cell pv nx x l))))) Hr1) as (h2 & -> & Hr3 & A). rewrite ret_bind.
  exists r, h2. split; [done|]. split; [by apply (later_trans h h1), later_eq|]. right. split; [done|]. rewrite (cells_Tree 0 0 r).
  assert (cell 0 0 (reference_to x (n_child (cell pv nx x l))) [] = with_prev 0 (with_next 0 (with_type (Z.lor (n_type (cell pv nx x l)) cJSON_IsReference) (with_string 0 (cell pv nx x l))))) as ->; [|exact Hr3].
  assert (is_ref (reference_to x (n_child (cell pv nx x l))) = true) as Href by (by apply flag_set). unfold cell at 1. rewrite Href. cbn.
  unfold with_prev, with_next, with_type, with_string. cbn. f_equal. by destruct (l_valuestring x).
Qed.

(** ** Looking up names *)

Definition same_name (case_sensitive : bool) (a b : bytes) : Prop := if case_sensitive then a = b else map tolower a = map tolower b.
#[export] Instance same_name_dec cs a b : Decision (same_name cs a b).
Proof. destruct cs; cbn [same_name]; apply _. Defined.

Lemma tolower_zero c : tolower c = 0 <-> c = 0.
Proof. unfold tolower. destruct (_ && _) eqn:E; [|done]. apply andb_true_iff in E as [?%Z.leb_le ?%Z.leb_le]. lia. Qed.

Lemma casecmp_cstr s t r r' : no_nul s -> no_nul t ->
  exists z, casecmp (s ++ 0 :: r) (t ++ 0 :: r') = Ret z /\ (z = 0 <-> map tolower s = map tolower t).
Proof.
  revert t. induction s as [|x s IH]; intros [|y t] Hs Ht.
  - exists 0. done.
  - apply no_nul_cons in Ht as [Hy Ht]. cbn [app casecmp map]. change (tolower 0) with 0. pose proof (tolower_zero y). rewrite (proj2 (Z.eqb_neq 0 _)) by lia.
    eexists. split; [done|]. split; [lia|done].
  - apply no_nul_cons in Hs as [Hx Hs]. cbn [app casecmp map]. change (tolower 0) with 0. pose proof (tolower_zero x). rewrite (proj2 (Z.eqb_neq _ 0)) by lia.
    eexists. split; [done|]. split; [lia|done].
  - apply no_nul_cons in Hs as [Hx Hs]. apply no_nul_cons in Ht as [Hy Ht]. cbn [app casecmp map]. destruct (Z.eqb_spec (tolower x) (tolower y)) as [E|E].
    + rewrite (proj2 (Z.eqb_neq x 0)) by done. destruct (IH t Hs Ht) as (z & -> & Hz). exists z. split; [done|]. rewrite Hz, E. split; [by intros ->|congruence].
    + eexists. split; [done|]. split; [lia|congruence].
Qed.

Lemma c_str_split b s : c_str b = Ret s -> exists r, b = s ++ 0 :: r /\ no_nul s.
Proof.
  unfold c_str, strlen. destruct (memchr 0 b) as [n|] eqn:E; [|done]. cbn [deref]. rewrite ret_bind. intros [= <-]. apply memchr_Some in E as (l1 & l2 & -> & Hn & ->).
  exists l2. by rewrite ztake_app_exact.
Qed.

(** The first child with the name. *)
Fixpoint find_name (cs : bool) (nm : bytes) (l : list tree) (names : list bytes) : Z :=
  match l, names with
  | t :: l, n :: names => if decide (same_name cs nm n) then root t else find_name cs nm l names
  | _, _ => 0
  end.
Definition has_names (T : texts_t) (l : list tree) (names : list bytes) : Prop := Forall2 (fun t n => holds T (ptr (l_string (lab t))) n) l names.

Lemma compare_names cs h L T a b s n : rep h L T -> holds T a s -> holds T b n ->
  exists z, (if cs : bool then let! x := text a h in let! y := text b h in strcmp x y else case_insensitive_strcmp a b h) = Ret z /\ (z = 0 <-> same_name cs s n).
Proof.
  intros Hr (x & Hx & Hs) (y & Hy & Hn). destruct (text_held _ _ _ _ _ Hr Hx) as [Ex Ha], (text_held _ _ _ _ _ Hr Hy) as [Ey Hb].
  destruct (c_str_split _ _ Hs) as (r & -> & Hsn), (c_str_split _ _ Hn) as (r' & -> & Hnn). destruct cs.
  - rewrite Ex, ret_bind, Ey, ret_bind. by apply strcmp_cstr.
  - unfold case_insensitive_strcmp. rewrite (proj2 (Z.eqb_neq a 0)), (proj2 (Z.eqb_neq b 0)) by done. cbn [orb].
    destruct (Z.eqb_spec a b) as [->|]; [|rewrite Ex, ret_bind, Ey, ret_bind; by apply casecmp_cstr].
    exists 0. split; [done|]. split; [intros _|done]. rewrite Ex in Ey. injection Ey as Ey. assert (s = n) as ->; [|done].
    assert (c_str (s ++ 0 :: r) = c_str (n ++ 0 :: r')) as E by (by rewrite Ey). rewrite !c_str_ok in E by done. by injection E.
Qed.

Lemma find_loop_ok cs s nm h T fuel : forall l names pv L, rep h (chain pv l 0 ++ L) T -> holds T s nm -> has_names T l names -> (length l < fuel)%nat ->
  find_loop fuel cs s (first l 0) h = Ret (find_name cs nm l names).
Proof.
  induction fuel as [|fuel IH]; intros [|t l] names pv L Hr Hs Hn Hf; [cbn in Hf; lia|cbn in Hf; lia|done|]. inversion Hn as [|? n ? names' Htn Hn']; subst.
  cbn [find_loop first find_name]. destruct (walk_load h T _ _ _ _ _ Hr) as [-> Hz]. rewrite (proj2 (Z.eqb_neq _ 0)), ret_bind by done. cbn [n_string cell next].
  destruct (compare_names cs h _ T s (ptr (l_string (lab t))) nm n Hr Hs Htn) as (z & -> & Hzn). rewrite ret_bind.
  destruct (decide (same_name cs nm n)), (Z.eqb_spec z 0); [done|tauto|tauto|].
  apply (IH l names' (root t) (cells pv (first l 0) t ++ L)); [rewrite chain_cons in Hr; reorder Hr|done|done|cbn in Hf; lia].
Qed.

Lemma get_object_item_ok pv nx a x l names cs s nm h L T : is_ref x = false -> rep h (cells pv nx (Tree a x l) ++ L) T -> holds T s nm -> has_names T l names ->
  get_object_item a s cs h = Ret (find_name cs nm l names).
Proof.
  intros Hx Hr Hs Hn. destruct (rep_kids pv nx a x _ _ _ _ Hr) as [Hc Hf]. pose proof Hs as (b & Hb & _). destruct (text_held _ _ _ _ _ Hr Hb) as [_ Hs0]. rewrite cells_Tree in Hr. unfold get_object_item.
  rewrite (proj2 (Z.eqb_neq a 0)) by (by apply (rep_ptr _ _ _ _ _ Hr)). rewrite (proj2 (Z.eqb_neq s 0)) by done. cbn [orb]. rewrite (load_rep _ _ _ _ _ Hr), ret_bind, child_cell by done.
  by apply (find_loop_ok cs s nm h T _ l names 0 _ Hc).
Qed.

Lemma has_names_more T T' l names : has_names T l names -> has_names (T' ++ T) l names.
Proof. intros Hn. eapply Forall2_impl; [exact Hn|]. cbv beta. intros t n. apply holds_more. Qed.
Lemma has_names_perm T T' l names : T ≡ₚ T' -> has_names T l names -> has_names T' l names.
Proof. intros HT Hn. eapply Forall2_impl; [exact Hn|]. cbv beta. intros t n. by apply holds_perm. Qed.

Lemma find_name_at cs nm l1 t l2 n1 n n2 : length l1 = length n1 -> same_name cs nm n -> Forall (fun m => ~ same_name cs nm m) n1 ->
  find_name cs nm (l1 ++ t :: l2) (n1 ++ n :: n2) = root t.
Proof.
  revert n1. induction l1 as [|t' l1 IH]; intros [|m n1] Hlen Hn Hno; try done; cbn; [by rewrite decide_True|]. apply Forall_cons in Hno as [Hm Hno].
  rewrite decide_False by done. apply IH; [by injection Hlen|done|done].
Qed.
Lemma find_name_none cs nm l names : Forall (fun m => ~ same_name cs nm m) names -> find_name cs nm l names = 0.
Proof. revert names. induction l as [|t l IH]; intros [|m names] Hno; try done. apply Forall_cons in Hno as [Hm Hno]. cbn. rewrite decide_False by done. by apply IH. Qed.

(** ** Replacing a member *)

(** The replacement gets a copy of the name, or none when there is no memory. *)
Definition renamed (h : heap) (nm : bytes) (f : field) : Prop := f = Nothing /\ may_fail h \/ exists q, f = Owned q (nm ++ [0]).
Lemma rename_ok {A} (k : heap -> outcome A) p y l s nm h L T : rep h (cells 0 0 (Tree p y l) ++ L) (own (l_string y) ++ T) -> label_ok y l -> holds T s nm ->
  exists f h', (let! h := free_owned cJSON_StringIsConst n_string p h in let! (copy, h) := cJSON_strdup s h in
                let! h := update (with_string copy) p h in let! h := update clear_const p h in k h) = k h' /\
    later h h' /\ renamed h nm f /\ rep h' (cells 0 0 (Tree p (named y (clear_flag (l_type y)) f) l) ++ L) (own f ++ T).
Proof.
  intros Hr Hy Hs. rewrite cells_Tree in Hr. cbn [app] in Hr.
  destruct (free_owned_ok cJSON_StringIsConst n_string (l_string y) p (cell 0 0 y l) h _ T Hr) as (h1 & -> & Hr1 & A1); [done|apply (const_shares _ _ Hy)|apply (const_not _ _ Hy)|]. rewrite ret_bind.
  assert (may_fail h1 -> may_fail h) as Hmf by (unfold may_fail; by rewrite A1).
  destruct (strdup_ok s nm h1 _ _ Hr1 Hs) as (q & h2 & -> & Hl2 & Hq). rewrite ret_bind.
  assert (exists f, renamed h nm f /\ ptr f = q /\ rep h2 ((p, cell 0 0 y l) :: chain 0 l 0 ++ L) (own f ++ T)) as (f & Hf & <- & Hr2).
  { destruct Hq as [(-> & Hm & Hr2)|[Hq Hr2]]; [exists Nothing; split_and!; [left; auto|done|done]|exists (Owned q (nm ++ [0])); split_and!; [right; by exists q|done|done]]. }
  destruct (update_rep _ _ _ _ _ (with_string (ptr f)) Hr2) as (h3 & -> & Hr3 & A3). rewrite ret_bind.
  destruct (update_rep _ _ _ _ _ clear_const Hr3) as (h4 & -> & Hr4 & A4). rewrite ret_bind.
  exists f, h4. split_and!; [done| |done|].
  - apply (later_trans h h1); [by apply later_eq|]. apply (later_trans h1 h2); [done|]. apply later_eq. congruence.
  - rewrite cells_Tree, named_cell by apply flag_clear_ref. exact Hr4.
Qed.

(** A member that is there is replaced and deleted. *)
Lemma replace_name_ok pv nx a x l1 t l2 n1 n n2 p y l cs s nm h L T : is_ref x = false ->
  rep h (cells pv nx (Tree a x (l1 ++ t :: l2)) ++ cells 0 0 (Tree p y l) ++ L) (own (l_string y) ++ tree_texts t ++ T) -> tree_ok t -> label_ok y l ->
  holds (tree_texts t ++ T) s nm -> has_names (tree_texts t ++ T) (l1 ++ t :: l2) (n1 ++ n :: n2) ->
  length l1 = length n1 -> same_name cs nm n -> Forall (fun m => ~ same_name cs nm m) n1 ->
  exists f h', replace_item_in_object a s p cs h = Ret (true, h') /\ later h h' /\ renamed h nm f /\
    rep h' (cells pv nx (Tree a x (l1 ++ Tree p (named y (clear_flag (l_type y)) f) l :: l2)) ++ L) (own f ++ T).
Proof.
  intros Hx Hr Ht Hy Hs Hn Hlen Hsame Hno. unfold replace_item_in_object.
  assert (rep h (cells 0 0 (Tree p y l) ++ cells pv nx (Tree a x (l1 ++ t :: l2)) ++ L) (own (l_string y) ++ tree_texts t ++ T)) as Hp by reorder Hr.
  rewrite (proj2 (Z.eqb_neq p 0)) by (by apply (roots_nonzero _ (Tree p y l) _ _ _ _ Hp)).
  pose proof Hs as (b & Hb & _). destruct (text_held h _ _ s b Hr) as [_ Hs0]; [apply elem_of_app; by right|]. rewrite (proj2 (Z.eqb_neq s 0)) by done. cbn [orb].
  destruct (rename_ok (fun h => let! p0 := get_object_item a s cs h in let! (_, h) := cJSON_ReplaceItemViaPointer a p0 p h in Ret (true, h)) p y l s nm h _ _ Hp Hy Hs)
    as (f & h1 & E & Hl1 & Hf & Hr1). set (r := Tree p (named y (clear_flag (l_type y)) f) l) in *.
  assert (rep h1 (cells pv nx (Tree a x (l1 ++ t :: l2)) ++ cells 0 0 r ++ L) (tree_texts t ++ own f ++ T)) as Hr2 by reorder Hr1.
  destruct (replace_ok pv nx a x Hx l1 t l2 r h1 L _ Hr2 Ht) as (h2 & E2 & Hr3 & A2). cbn [root r] in E2. unfold r in E2. cbn [root] in E2.
  exists f, h2. split_and!; [|apply (later_trans h h1); [done|by apply later_eq]|done|done]. etrans; [exact E|].
  rewrite (get_object_item_ok pv nx a x _ (n1 ++ n :: n2) cs s nm h1 _ _ Hx Hr2), find_name_at, ret_bind, E2; [done|done|done|done|..].
  - eapply holds_perm; [|exact (holds_more _ (own f) _ _ Hs)]. solve_Permutation.
  - eapply has_names_perm; [|exact (has_names_more _ (own f) _ _ Hn)]. solve_Permutation.
Qed.

(** One that is not there: only the name of the replacement changes. *)
Lemma replace_no_name_ok pv nx a x l names p y k cs s nm h L T : is_ref x = false ->
  rep h (cells pv nx (Tree a x l) ++ cells 0 0 (Tree p y k) ++ L) (own (l_string y) ++ T) -> label_ok y k ->
  holds T s nm -> has_names T l names -> Forall (fun m => ~ same_name cs nm m) names ->
  exists f h', replace_item_in_object a s p cs h = Ret (true, h') /\ later h h' /\ renamed h nm f /\
    rep h' (cells pv nx (Tree a x l) ++ cells 0 0 (Tree p (named y (clear_flag (l_type y)) f) k) ++ L) (own f ++ T).
Proof.
  intros Hx Hr Hy Hs Hn Hno. unfold replace_item_in_object.
  assert (rep h (cells 0 0 (Tree p y k) ++ cells pv nx (Tree a x l) ++ L) (own (l_string y) ++ T)) as Hp by reorder Hr.
  rewrite (proj2 (Z.eqb_neq p 0)) by (by apply (roots_nonzero _ (Tree p y k) _ _ _ _ Hp)).
  pose proof Hs as (b & Hb & _). destruct (text_held h _ _ s b Hr) as [_ Hs0]; [apply elem_of_app; by right|]. rewrite (proj2 (Z.eqb_neq s 0)) by done. cbn [orb].
  destruct (rename_ok (fun h => let! p0 := get_object_item a s cs h in let! (_, h) := cJSON_ReplaceItemViaPointer a p0 p h in Ret (true, h)) p y k s nm h _ _ Hp Hy Hs) as (f & h1 & E & Hl1 & Hf & Hr1).
  exists f, h1. assert (rep h1 (cells pv nx (Tree a x l) ++ cells 0 0 (Tree p (named y (clear_flag (l_type y)) f) k) ++ L) (own f ++ T)) as Hr2 by reorder Hr1.
  split_and!; [|done|done|done]. etrans; [exact E|].
  rewrite (get_object_item_ok pv nx a x _ names cs s nm h1 _ _ Hx Hr2), find_name_none, ret_bind by (done || by apply holds_more || by apply has_names_more).
  unfold cJSON_ReplaceItemViaPointer. by rewrite orb_true_r.
Qed.
