(* ===== verification/CJsonCopy.v ===== *)
(** * cJSON: copying and comparing trees

    [cJSON_Duplicate] makes a tree of its own blocks with the same values, or
    nothing; [cJSON_Compare] decides whether two trees stand for the same JSON
    value. *)

From stdpp Require Import base tactics numbers list option gmap sets.
From Stdlib Require Import Lia.
From S2P Require Import Prelude Double CJson CJsonSpec CJsonDom CJsonTree CJsonDomOk.

(** ** Copies *)

(** The copy of a text is cut behind its terminator. *)
Definition copy_field (f f' : field) : Prop :=
  match f, f' with
  | Nothing, Nothing => True
  | Owned _ b, Owned _ b' => exists s, c_str b = Ret s /\ b' = s ++ [0]
  | Shared a, Shared a' => a = a'
  | _, _ => False
  end.
Record copy_label (x x' : label) : Prop := {
  copy_type : l_type x' = Z.land (l_type x) (Z.lnot cJSON_IsReference);
  copy_valueint : l_valueint x' = l_valueint x;
  copy_valuedouble : l_valuedouble x' = l_valuedouble x;
  copy_valuestring : copy_field (l_valuestring x) (l_valuestring x');
  copy_string : copy_field (l_string x) (l_string x')
}.
Inductive copy_of : tree -> tree -> Prop :=
  | copy_tree p x l p' x' l' : copy_label x x' -> Forall2 copy_of l l' -> copy_of (Tree p x l) (Tree p' x' l').

(** Trees that own all their nodes, and whose texts are C strings. *)
Definition field_ok (f : field) : Prop := match f with Owned _ b => exists s, c_str b = Ret s | _ => True end.
Fixpoint own_tree (t : tree) : Prop :=
  match t with Tree _ x l => is_ref x = false /\ field_ok (l_valuestring x) /\ field_ok (l_string x) /\ foldr (fun t P => own_tree t /\ P) True l end.
Lemma own_tree_Tree p x l : own_tree (Tree p x l) <-> is_ref x = false /\ field_ok (l_valuestring x) /\ field_ok (l_string x) /\ Forall own_tree l.
Proof.
  cbn. do 3 apply and_iff_compat_l. induction l as [|t l IH]; cbn; [by rewrite Forall_nil|]. by rewrite Forall_cons, IH.
Qed.

Lemma flag_unref_const t : has_flag (Z.land t (Z.lnot cJSON_IsReference)) cJSON_StringIsConst = has_flag t cJSON_StringIsConst.
Proof. unfold has_flag. by rewrite <- Z.land_assoc. Qed.
Lemma flag_unref t : has_flag (Z.land t (Z.lnot cJSON_IsReference)) cJSON_IsReference = false.
Proof. unfold has_flag. rewrite <- Z.land_assoc. change (Z.land (Z.lnot cJSON_IsReference) cJSON_IsReference) with 0. by rewrite Z.land_0_r. Qed.

Lemma copy_label_ok x x' l l' : label_ok x l -> is_ref x = false -> copy_label x x' -> label_ok x' l' /\ is_ref x' = false.
Proof.
  intros [H1 H2 H3 H4] Hx [C1 C2 C3 C4 C5]. assert (is_ref x' = false) as Hx' by (unfold is_ref; rewrite C1; apply flag_unref).
  assert (is_const x' = is_const x) as Hc by (unfold is_const; rewrite C1; apply flag_unref_const). split; [|done]. split.
  - congruence.
  - intros _ a E. rewrite E in C4. destruct (l_valuestring x) eqn:Ev; try done. by apply (H2 Hx a0).
  - rewrite Hc. intros Hconst. specialize (H3 Hconst). destruct (l_string x), (l_string x'); done.
  - rewrite Hc. intros Hconst a E. rewrite E in C5. destruct (l_string x) eqn:Ev; try done. by apply (H4 Hconst a0).
Qed.

(** A field is copied, or there was no memory. *)
Lemma copy_field_ok (share : bool) f h L T : rep h L (own f ++ T) -> field_ok f ->
  (if share then own f = [] else forall a, f <> Shared a) ->
  exists q h', (if negb (ptr f =? 0) then if share then Ret (ptr f, h) else cJSON_strdup (ptr f) h else Ret (0, h)) = Ret (q, h') /\ later h h' /\
    (negb (ptr f =? 0) = true /\ q = 0 /\ may_fail h /\ rep h' L (own f ++ T) \/
     exists f', copy_field f f' /\ q = ptr f' /\ negb (ptr f =? 0) && (q =? 0) = false /\ rep h' L (own f' ++ own f ++ T)).
Proof.
  intros Hr Hok Hshare. destruct f as [|a b|a]; cbn [ptr own app] in *.
  - exists 0, h. split_and!; [by rewrite Z.eqb_refl|apply later_refl|]. right. exists Nothing. done.
  - destruct share; [done|]. rewrite (proj2 (Z.eqb_neq a 0)) by (by apply (rep_text_ptr _ _ _ _ _ Hr)). cbn [negb andb]. destruct Hok as [s Hs].
    destruct (strdup_ok a s h _ _ Hr) as (q & h' & E & Hl & Hq); [exists b; split; [apply elem_of_cons; by left|done]|]. exists q, h'. split_and!; [done|done|].
    destruct Hq as [(-> & Hm & Hr')|[Hq Hr']]; [by left|]. right. exists (Owned q (s ++ [0])). split_and!; [by exists s|done|by apply Z.eqb_neq|done].
  - destruct share; [|by destruct (Hshare a)]. exists a, h. destruct (Z.eqb_spec a 0) as [->|Ha]; cbn [negb andb].
    + split_and!; [done|apply later_refl|]. right. by exists (Shared 0).
    + split_and!; [done|apply later_refl|]. right. exists (Shared a). split_and!; (done || by apply Z.eqb_neq).
Qed.

Section one.
Variable dup : Z -> heap -> outcome (Z * heap).

(** What copying a tree means for the heap. *)
Definition duplicates (s : tree) : Prop := forall pv nx h L T, rep h (cells pv nx s ++ L) (tree_texts s ++ T) ->
  exists q h', dup (root s) h = Ret (q, h') /\ later h h' /\
    (q = 0 /\ may_fail h /\ rep h' (cells pv nx s ++ L) (tree_texts s ++ T) \/
     exists s', root s' = q /\ q <> 0 /\ copy_of s s' /\ tree_ok s' /\ rep h' (cells 0 0 s' ++ cells pv nx s ++ L) (tree_texts s' ++ tree_texts s ++ T)).

Lemma duplicate_loop_ok pv nx p x q y : is_ref y = false -> forall n l2 l1 done h L T,
  rep h (cells 0 0 (Tree q y done) ++ cells pv nx (Tree p x (l1 ++ l2)) ++ L) (tree_texts (Tree q y done) ++ tree_texts (Tree p x (l1 ++ l2)) ++ T) ->
  Forall duplicates l2 -> Forall2 copy_of l1 done -> Forall tree_ok done -> (length l2 < n)%nat ->
  exists (ok : bool) h' done', duplicate_loop dup n (first l2 0) q (final 0 done) h = Ret (ok, h') /\ later h h' /\
    rep h' (cells 0 0 (Tree q y done') ++ cells pv nx (Tree p x (l1 ++ l2)) ++ L) (tree_texts (Tree q y done') ++ tree_texts (Tree p x (l1 ++ l2)) ++ T) /\
    Forall tree_ok done' /\ (if ok then Forall2 copy_of (l1 ++ l2) done' else may_fail h).
Proof.
  intros Hy. induction n as [|n IH]; intros [|t l2] l1 done h L T Hr Hdup Hcopy Hok Hn; [cbn in Hn; lia|cbn in Hn; lia|..]; cbn [duplicate_loop first].
  { exists true, h, done. rewrite app_nil_r. split_and!; [done|apply later_refl|by rewrite app_nil_r in Hr|done|done]. }
  apply Forall_cons in Hdup as [Ht Hdup]. set (s := Tree p x (l1 ++ t :: l2)) in *. set (N := Tree q y done) in *.
  set (o := first l2 0). set (d := final 0 l1). set (R := (p, cell pv nx x (l1 ++ t :: l2)) :: chain 0 l1 (root t) ++ chain (root t) l2 0 ++ L).
  assert (cells pv nx s ++ L ≡ₚ cells d o t ++ R) as Es by (unfold s, R; rewrite cells_around; fold o d; solve_Permutation).
  set (R' := own (l_valuestring x) ++ own (l_string x) ++ list_texts l1 ++ list_texts l2 ++ T).
  assert (tree_texts s ++ T ≡ₚ tree_texts t ++ R') as Et by (unfold s, R'; rewrite texts_Tree, list_texts_app, list_texts_cons; solve_Permutation).
  assert (rep h (cells d o t ++ cells 0 0 N ++ R) (tree_texts t ++ tree_texts N ++ R')) as Hr1.
  { rewrite Es, Et in Hr. reorder Hr. }
  rewrite (proj2 (Z.eqb_neq (root t) 0)) by (by apply (roots_nonzero _ _ _ _ _ _ Hr1)).
  destruct (Ht _ _ _ _ _ Hr1) as (c & h1 & -> & Hl1 & [(-> & Hm & Hr2)|(t' & Ec & Hc0 & Hct & Hokt & Hr2)]); rewrite ret_bind.
  - cbn [Z.eqb]. exists false, h1, done. split_and!; [done|done| |done|done]. rewrite Es, Et. reorder Hr2.
  - rewrite (proj2 (Z.eqb_neq c 0)) by done.
    destruct (append_ok 0 0 q y Hy done t' h1 (cells d o t ++ R) (tree_texts t' ++ tree_texts t ++ tree_texts N ++ R')) as (h2 & E2 & Hr3 & A2); [unfold N in Hr2; reorder Hr2|].
    rewrite Ec in E2. rewrite E2, ret_bind. assert (rep h2 (cells d o t ++ cells 0 0 (Tree q y (done ++ [t'])) ++ R) (tree_texts t' ++ tree_texts t ++ tree_texts N ++ R')) as Hr4 by reorder Hr3.
    pose proof Hr4 as Hr5. rewrite cells_cell in Hr5. rewrite (load_rep _ _ _ _ _ Hr5), ret_bind. cbn [next cell].
    rewrite <- Ec, <- (final_snoc 0 done t'). destruct (IH l2 (l1 ++ [t]) (done ++ [t']) h2 L T) as (ok & h3 & done' & E & Hl3 & Hr6 & Hok' & Hres).
    + rewrite <- app_assoc. cbn [app]. fold s. rewrite Es, Et.
      assert (tree_texts (Tree q y (done ++ [t'])) ≡ₚ tree_texts t' ++ tree_texts N) as -> by (unfold N; rewrite !texts_Tree, list_texts_app, list_texts_cons; cbn [list_texts flat_map]; solve_Permutation). reorder Hr4.
    + done.
    + apply Forall2_app; [done|]. by apply Forall2_cons.
    + apply Forall_app. split; [done|]. by apply Forall_cons.
    + cbn in Hn. lia.
    + rewrite <- app_assoc in Hr6, Hres. cbn [app] in Hr6, Hres. fold s in Hr6. exists ok, h3, done'. split_and!; [exact E| |done|done|].
      * apply (later_trans h h1); [done|]. apply (later_trans h1 h2); [by apply later_eq|done].
      * destruct ok; [done|]. apply (later_may_fail h h1 Hl1). unfold may_fail in *. by rewrite <- A2.
Qed.
End one.

(** The label of the copy, or only the part of it before the memory ran out. *)
Lemma duplicate_label pv nx p x l h L T : rep h (cells pv nx (Tree p x l) ++ L) (tree_texts (Tree p x l) ++ T) ->
  label_ok x l -> is_ref x = false -> field_ok (l_valuestring x) -> field_ok (l_string x) -> forall fuel recurse,
  exists q h', later h h' /\
    (duplicate (S fuel) p recurse h = Ret (0, h') /\ may_fail h /\ rep h' (cells pv nx (Tree p x l) ++ L) (tree_texts (Tree p x l) ++ T) \/
     exists y, q <> 0 /\ copy_label x y /\
       rep h' (cells 0 0 (Tree q y []) ++ cells pv nx (Tree p x l) ++ L) (tree_texts (Tree q y []) ++ tree_texts (Tree p x l) ++ T) /\
       duplicate (S fuel) p recurse h =
         (if negb recurse then Ret (q, h') else
          let! (ok, h) := duplicate_loop (fun p h => duplicate fuel p true h) (heap_fuel h') (first l 0) q 0 h' in
          if ok : bool then Ret (q, h) else let! h := cJSON_Delete q h in Ret (0, h))).
Proof.
  intros Hr Hx Href Hf1 Hf2 fuel recurse. cbn [duplicate]. pose proof Hr as Hp. rewrite cells_Tree in Hp.
  rewrite (proj2 (Z.eqb_neq p 0)) by (by apply (rep_ptr _ _ _ _ _ Hp)). destruct (new_item h) as [q h1] eqn:E.
  set (s := Tree p x l) in *. set (TT := tree_texts s ++ T) in *.
  destruct (new_item_rep _ _ _ _ _ E Hr) as [Hl1 [(-> & Hm & Hr1)|[Hq Hr1]]]; [exists 0, h1; split; [done|by left]|].
  rewrite (proj2 (Z.eqb_neq q 0)) by done. clear E. exists q.
  (* a failure deletes the copy *)
  assert (forall y h2, later h h2 -> may_fail h -> is_ref y = false -> label_ok y [] -> rep h2 (cells 0 0 (Tree q y []) ++ cells pv nx s ++ L) (tree_texts (Tree q y []) ++ TT) ->
    exists h', later h h' /\ (let! h := cJSON_Delete q h2 in Ret (0, h)) = Ret (0, h') /\ may_fail h /\ rep h' (cells pv nx s ++ L) TT) as Hfail.
  { intros y h2 Hl2 Hm Hy Hyok Hr2. destruct (cJSON_Delete_ok (Tree q y []) h2 _ _ Hr2) as (h3 & E3 & Hr3 & A3); [by apply tree_ok_Tree|].
    cbn [root] in E3. rewrite E3, ret_bind. exists h3. split_and!; [|done|done|done]. apply (later_trans h h2); [done|by apply later_eq]. }
  assert (load p h1 = Ret (cell pv nx x l)) as ->.
  { apply (load_rep _ _ _ ((q, zero_node) :: chain 0 l 0 ++ L) TT). unfold s in Hr1. rewrite cells_Tree in Hr1. reorder Hr1. }
  rewrite ret_bind. cbn [n_valueint n_valuedouble n_type n_valuestring n_string n_child cell]. set (t' := Z.land (l_type x) (Z.lnot cJSON_IsReference)).
  set (y0 := mkLabel t' Nothing (l_valueint x) (l_valuedouble x) Nothing 0).
  assert (forall f g, cell 0 0 (mkLabel t' f (l_valueint x) (l_valuedouble x) g 0) [] = mkNode 0 0 0 t' (ptr f) (l_valueint x) (l_valuedouble x) (ptr g)) as Hcell.
  { intros f g. unfold cell, is_ref. cbn. by destruct (has_flag t' cJSON_IsReference). }
  destruct (update_rep _ _ _ _ _ (fun c => with_number (l_valueint x) (l_valuedouble x) (with_type t' c)) Hr1) as (h2 & -> & Hr2 & A2). rewrite ret_bind.
  assert (later h h2) as Hl2 by (by apply (later_trans h h1), later_eq).
  (* the text *)
  set (T1 := own (l_string x) ++ list_texts l ++ T).
  assert (TT = own (l_valuestring x) ++ T1) as ETT by (unfold TT, s, T1; by rewrite texts_Tree, <- !app_assoc). rewrite ETT in Hr2.
  destruct (copy_field_ok false (l_valuestring x) h2 _ T1 Hr2 Hf1) as (v & h3 & E3 & Hl3 & Hv); [by apply (ref_not _ _ Hx)|].
  cbn match in E3. rewrite E3, ret_bind.
  assert (later h h3) as Hl3' by (by apply (later_trans h h2)).
  assert (forall y, copy_label x y -> label_ok y [] /\ is_ref y = false) as Hcopy by (intros y Hy; by apply (copy_label_ok x y l [])).
  assert (is_ref y0 = false /\ label_ok y0 []) as [Hy0 Hy0ok].
  { assert (is_ref y0 = false) as Hy0 by apply flag_unref. split; [done|]. by split. }
  destruct Hv as [(-> & -> & Hm & Hr3)|(f1 & Hc1 & -> & -> & Hr3)].
  { destruct (update_rep _ _ _ _ _ (with_valuestring 0) Hr3) as (h4 & -> & Hr4 & A4). rewrite ret_bind. cbn [andb Z.eqb].
    destruct (Hfail y0 h4) as (h' & Hl' & E & Hm' & Hr'); [by apply (later_trans h h3), later_eq| |done|done| |exists h'; split; [done|left; by rewrite E]].
    - apply (later_may_fail h h2 Hl2 Hm).
    - rewrite cells_Tree. unfold y0. rewrite Hcell, texts_Tree. cbn [chain app own list_texts flat_map l_valuestring l_string ptr]. rewrite ETT. reorder Hr4. }
  destruct (update_rep _ _ _ _ _ (with_valuestring (ptr f1)) Hr3) as (h4 & -> & Hr4 & A4). rewrite ret_bind. assert (later h h4) as Hl4 by (by apply (later_trans h h3), later_eq).
  (* the name *)
  set (T2 := own f1 ++ own (l_valuestring x) ++ list_texts l ++ T).
  assert (rep h4 ((q, mkNode 0 0 0 t' (ptr f1) (l_valueint x) (l_valuedouble x) 0) :: cells pv nx s ++ L) (own (l_string x) ++ T2)) as Hr4' by (unfold T2; unfold T1 in Hr4; reorder Hr4).
  destruct (copy_field_ok (is_const x) (l_string x) h4 _ T2 Hr4' Hf2) as (w & h5 & E5 & Hl5 & Hw).
  { destruct (is_const x) eqn:Ec; [by apply (const_shares _ _ Hx)|by apply (const_not _ _ Hx)]. }
  unfold is_const in E5. rewrite E5, ret_bind. assert (later h h5) as Hl5' by (by apply (later_trans h h4)).
  set (y1 := mkLabel t' f1 (l_valueint x) (l_valuedouble x) Nothing 0).
  destruct Hw as [(-> & -> & Hm & Hr5)|(f2 & Hc2 & -> & -> & Hr5)].
  { destruct (update_rep _ _ _ _ _ (with_string 0) Hr5) as (h6 & -> & Hr6 & A6). rewrite ret_bind. cbn [andb Z.eqb].
    assert (is_ref y1 = false) as Hy1 by apply flag_unref.
    destruct (Hfail y1 h6) as (h' & Hl' & E & Hm' & Hr'); [by apply (later_trans h h5), later_eq| |done| | |exists h'; split; [done|left; by rewrite E]].
    - apply (later_may_fail h h4 Hl4 Hm).
    - split; try done; [congruence|]. intros _ a Ea. cbn in Ea. rewrite Ea in Hc1. destruct (l_valuestring x) eqn:Ev; try done. by apply (ref_not _ _ Hx Href a0).
    - rewrite cells_Tree. unfold y1. rewrite Hcell, texts_Tree. cbn [chain app own list_texts flat_map l_valuestring l_string ptr]. rewrite ETT. unfold T1. unfold T2 in Hr6. reorder Hr6. }
  destruct (update_rep _ _ _ _ _ (with_string (ptr f2)) Hr5) as (h6 & -> & Hr6 & A6). rewrite ret_bind.
  exists h6. split; [by apply (later_trans h h5), later_eq|]. right. exists (mkLabel t' f1 (l_valueint x) (l_valuedouble x) f2 0). split_and!; [done|done| |by rewrite Href].
  rewrite cells_Tree, Hcell, texts_Tree. cbn [chain app own list_texts flat_map l_valuestring l_string ptr]. rewrite ETT. unfold T1. unfold T2 in Hr6. reorder Hr6.
Qed.

(** Copying a whole tree; what is too deep for the fuel is not in the heap. *)
Lemma duplicate_ok s : forall fuel, tree_ok s -> own_tree s -> (length (cells 0 0 s) <= fuel)%nat -> duplicates (fun p h => duplicate fuel p true h) s.
Proof.
  induction s as [p x l IH] using tree_ind'. intros fuel Hok Hown Hfuel pv nx h L T Hr. rewrite cells_Tree in Hfuel. cbn [length] in Hfuel. destruct fuel as [|fuel]; [lia|].
  apply tree_ok_Tree in Hok as [Hx Hl]. apply own_tree_Tree in Hown as (Href & Hf1 & Hf2 & Hown).
  cbv beta. cbn [root]. destruct (duplicate_label pv nx p x l h L T Hr Hx Href Hf1 Hf2 fuel true) as (q & h1 & Hl1 & [(E & Hm & Hr1)|(y & Hq & Hcy & Hr1 & ->)]).
  { exists 0, h1. cbn [root]. split_and!; [done|done|by left]. }
  cbn [negb root]. destruct (copy_label_ok x y l [] Hx Href Hcy) as [Hy Hyref].
  assert (Forall (duplicates (fun p h => duplicate fuel p true h)) l) as Hdup.
  { assert (forall pv, Forall (fun t => (length (cells 0 0 t) <= length (chain pv l 0))%nat) l) as Hlen.
    { clear. induction l as [|t l IH]; intros pv; [constructor|]. rewrite chain_cons, length_app. apply Forall_cons. split.
      - rewrite (cells_cell pv), (cells_cell 0 0 t). cbn [length]. lia.
      - eapply Forall_impl; [apply (IH (root t))|]. cbv beta. intros t' Ht'. lia. }
    specialize (Hlen 0). rewrite Forall_forall in *. intros t Ht. apply (IH t Ht fuel (Hl t Ht) (Hown t Ht)). specialize (Hlen t Ht). cbn in Hlen. lia. }
  destruct (duplicate_loop_ok (fun p h => duplicate fuel p true h) pv nx p x q y Hyref (heap_fuel h1) l [] [] h1 L T Hr1 Hdup) as (ok & h2 & done' & E & Hl2 & Hr2 & Hok' & Hres); [done|done| |].
  { rewrite (rep_fuel _ _ _ Hr1), !length_app, (cells_Tree pv). cbn [length]. pose proof (length_roots l 0 0). lia. }
  cbn [final last] in E. change (final 0 []) with 0 in E. rewrite E, ret_bind. cbn [app] in *. assert (later h h2) as Hl2' by (by apply (later_trans h h1)).
  assert (tree_ok (Tree q y done')) as Hokn by (apply tree_ok_Tree; split; [by apply (copy_label_ok x y l done' Hx Href Hcy)|done]).
  destruct ok.
  - exists q, h2. split_and!; [done|done|]. right. exists (Tree q y done'). split_and!; [done|done|by constructor|done|done].
  - destruct (cJSON_Delete_ok (Tree q y done') h2 _ _ Hr2 Hokn) as (h3 & E3 & Hr3 & A3). cbn [root] in E3. rewrite E3, ret_bind. exists 0, h3.
    split_and!; [done|by apply (later_trans h h2), later_eq|]. left. split_and!; [done|by apply (later_may_fail h h1)|done].
Qed.
