(* ===== verification/CJsonCompare.v ===== *)
(** * cJSON: comparing trees

    The JSON value of a tree in the heap, when two values are the same, and
    that [cJSON_Compare] decides it for values in which no object has two
    members with one name. *)

From stdpp Require Import base tactics numbers list option gmap sets.
From Stdlib Require Import Lia.
From S2P Require Import Prelude Double CJson CJsonSpec CJsonDom CJsonTree CJsonDomOk CJsonCopy.

(** ** The value of a tree *)
Definition field_text (h : heap) (f : field) : option bytes :=
  match f with Nothing => None | Owned _ b => Some b | Shared a => texts h !! a end.
Fixpoint item_of (h : heap) (t : tree) : cJSON :=
  match t with
  | Tree _ x l => Item (l_type x) (field_text h (l_valuestring x)) (l_valueint x) (l_valuedouble x) (field_text h (l_string x)) (map (item_of h) l)
  end.

(** When two JSON values are the same: the members of an object have no
    order, and their names may differ in case. *)
Definition pairwise {A} (same : A -> A -> bool) : list A -> list A -> bool :=
  fix go l m := match l, m with [], [] => true | x :: l, y :: m => same x y && go l m | _, _ => false end.
Fixpoint same_json (cs : bool) (a b : json) : bool :=
  match a, b with
  | JNull, JNull => true
  | JBool x, JBool y => Bool.eqb x y
  | JNum d, JNum d' => deq d d'
  | JStr s, JStr s' => bool_decide (s = s')
  | JArr l, JArr m => pairwise (same_json cs) l m
  | JObj l, JObj m =>
    forallb (fun kv => existsb (fun kv' => bool_decide (same_name cs kv.1 kv'.1) && same_json cs kv.2 kv'.2) m) l &&
    forallb (fun kv' => existsb (fun kv => bool_decide (same_name cs kv.1 kv'.1) && same_json cs kv.2 kv'.2) l) m
  | _, _ => false
  end.

(** No object has two members with one name. *)
Inductive distinct (cs : bool) : json -> Prop :=
  | distinct_null : distinct cs JNull
  | distinct_bool b : distinct cs (JBool b)
  | distinct_num d : distinct cs (JNum d)
  | distinct_str s : distinct cs (JStr s)
  | distinct_arr l : Forall (distinct cs) l -> distinct cs (JArr l)
  | distinct_obj l : Forall (fun kv => distinct cs kv.2) l -> ForallOrdPairs (fun kv kv' => ~ same_name cs kv.1 kv'.1) l -> distinct cs (JObj l).

Lemma same_name_sym cs a b : same_name cs a b <-> same_name cs b a.
Proof. destruct cs; cbn; split; congruence. Qed.
Lemma same_name_trans cs a b c : same_name cs a b -> same_name cs b c -> same_name cs a c.
Proof. destruct cs; cbn; congruence. Qed.
Lemma deq_sym d d' : deq d d' = deq d' d.
Proof. destruct d as [| s|], d' as [| s'|]; cbn; try done; [apply Z.eqb_sym|by destruct s, s']. Qed.

Lemma existsb_cong {A} (f g : A -> bool) l : Forall (fun x => f x = g x) l -> existsb f l = existsb g l.
Proof. induction 1 as [|x l E _ IH]; [done|]. cbn. by rewrite E, IH. Qed.
Lemma forallb_cong {A} (f g : A -> bool) l : Forall (fun x => f x = g x) l -> forallb f l = forallb g l.
Proof. induction 1 as [|x l E _ IH]; [done|]. cbn. by rewrite E, IH. Qed.

Lemma same_json_sym cs a : forall b, same_json cs a b = same_json cs b a.
Proof.
  induction a as [| | | |l IH|l IH] using json_ind'; intros [| | | |m|m]; cbn [same_json]; try done.
  - by destruct b, b0.
  - apply deq_sym.
  - by apply bool_decide_ext.
  - revert m. induction IH as [|x l Hx _ IHl]; intros [|y m]; cbn; try done. by rewrite Hx, IHl.
  - rewrite andb_comm. assert (Forall (fun kv => forall kv', bool_decide (same_name cs kv.1 kv'.1) && same_json cs kv.2 kv'.2 = bool_decide (same_name cs kv'.1 kv.1) && same_json cs kv'.2 kv.2) l) as Hl.
    { eapply Forall_impl; [exact IH|]. cbn. intros kv Hkv kv'. rewrite Hkv. f_equal. apply bool_decide_ext, same_name_sym. }
    f_equal; apply forallb_cong.
    + apply Forall_true. intros kv'. apply existsb_cong. eapply Forall_impl; [exact Hl|]. cbn. auto.
    + eapply Forall_impl; [exact Hl|]. cbn. intros kv Hkv. apply existsb_cong, Forall_true. auto.
Qed.

(** A value is the same as itself, numbers other than NaN being equal to
    themselves. *)
Lemma same_json_refl cs a : json_ok a -> same_json cs a a = true.
Proof.
  induction a as [| | | |l IH|l IH] using json_ind'; cbn [same_json]; intros Hok.
  - done.
  - by destruct b.
  - destruct Hok as [_ Hd]. destruct d as [|s|]; cbn; [apply Z.eqb_refl|by destruct s|done].
  - by apply bool_decide_true.
  - apply json_ok_arr in Hok. induction IH as [|x l Hx _ IHl]; [done|]. apply Forall_cons in Hok as [Hox Hol]. cbn. by rewrite Hx, IHl.
  - apply json_ok_obj in Hok. assert (forall kv, kv ∈ l -> existsb (fun kv' => bool_decide (same_name cs kv.1 kv'.1) && same_json cs kv.2 kv'.2) l = true /\ existsb (fun kv' => bool_decide (same_name cs kv'.1 kv.1) && same_json cs kv'.2 kv.2) l = true) as Hl.
    { rewrite Forall_forall in IH, Hok. intros kv Hkv. split; apply existsb_exists; exists kv; (split; [by apply list_elem_of_In|]); rewrite bool_decide_true by (by destruct cs); apply IH; try apply Hok; done. }
    apply andb_true_iff. split; apply forallb_forall; intros kv Hkv; apply list_elem_of_In in Hkv; by apply Hl.
Qed.

(** ** Reading a tree *)

(** What [json_of] saw in an item. *)
Inductive shape (i : cJSON) : json -> Prop :=
  | shape_null : base_type i = cJSON_NULL -> shape i JNull
  | shape_false : base_type i = cJSON_False -> shape i (JBool false)
  | shape_true : base_type i = cJSON_True -> shape i (JBool true)
  | shape_number : base_type i = cJSON_Number -> shape i (JNum (valuedouble i))
  | shape_string b s : base_type i = cJSON_String -> valuestring i = Some b -> c_str b = Ret s -> shape i (JStr s)
  | shape_array l : base_type i = cJSON_Array -> elements json_of (child i) = Some l -> shape i (JArr l)
  | shape_object l : base_type i = cJSON_Object -> members json_of (child i) = Some l -> shape i (JObj l).
Lemma json_shape i j : json_of i = Some j -> shape i j.
Proof.
  rewrite json_of_unfold. cbv zeta. repeat case_match; intros [= <-]; repeat match goal with H : (_ =? _) = true |- _ => apply Z.eqb_eq in H end;
    try by constructor.
  unfold block_str in *. repeat case_match; simplify_eq. by eapply shape_string.
Qed.

Lemma elements_inv f l js : elements f l = Some js -> Forall2 (fun i j => f i = Some j) l js.
Proof.
  revert js. induction l as [|i l IH]; cbn; intros js E; [injection E as <-; constructor|]. repeat case_match; simplify_eq. constructor; auto.
Qed.
Lemma members_inv f l js : members f l = Some js -> Forall2 (fun i kv => block_str (string i) = Some kv.1 /\ f i = Some kv.2) l js.
Proof.
  revert js. induction l as [|i l IH]; cbn; intros js E; [injection E as <-; constructor|]. repeat case_match; simplify_eq. constructor; auto.
Qed.

(** The text of a field of a tree in the heap. *)
Lemma field_in h L T f b : rep h L (own f ++ T) -> field_text h f = Some b -> text (ptr f) h = Ret b /\ ptr f <> 0.
Proof.
  intros Hr E. destruct f as [|a b'|a]; cbn in E; [done|injection E as ->; split; [by apply (text_rep _ _ _ _ _ Hr)|by apply (rep_text_ptr _ _ _ _ _ Hr)]|].
  cbn [ptr]. unfold text. rewrite E. split; [done|]. intros ->. destruct Hr as [_ Ht _ _ Hb _]. rewrite Ht in E. apply elem_of_list_to_map_2 in E.
  apply Forall_app in Hb as [_ Hb]. rewrite Forall_forall in Hb. specialize (Hb 0). cbn in Hb. cut (0 < 0 < brk h); [lia|]. apply Hb. apply list_elem_of_fmap. by exists (0, b).
Qed.
Lemma field_holds h L T f b s : rep h L T -> own f ⊆ T -> field_text h f = Some b -> c_str b = Ret s -> holds T (ptr f) s.
Proof.
  intros Hr Hsub E Hs. exists b. split; [|done]. destruct f as [|a b'|a]; cbn in *; [done|injection E as ->; apply Hsub; by left|].
  destruct Hr as [_ Ht _ _ _ _]. rewrite Ht in E. by apply elem_of_list_to_map_2.
Qed.

(** Two trees that share no node. *)
Definition apart (h : heap) (a b : tree) : Prop :=
  exists pv nx pv' nx' L T, rep h (cells pv nx a ++ cells pv' nx' b ++ L) (tree_texts a ++ tree_texts b ++ T).
Lemma apart_sym h a b : apart h a b -> apart h b a.
Proof. intros (pv & nx & pv' & nx' & L & T & Hr). exists pv', nx', pv, nx, L, T. reorder Hr. Qed.
Lemma apart_kid h p x l b t : apart h (Tree p x l) b -> t ∈ l -> apart h t b.
Proof.
  intros (pv & nx & pv' & nx' & L & T & Hr) (l1 & l2 & ->)%list_elem_of_split. rewrite cells_around, texts_Tree, list_texts_app, list_texts_cons in Hr.
  exists (final 0 l1), (first l2 0), pv', nx', ((p, cell pv nx x (l1 ++ t :: l2)) :: chain 0 l1 (root t) ++ chain (root t) l2 0 ++ L),
    (own (l_valuestring x) ++ own (l_string x) ++ list_texts l1 ++ list_texts l2 ++ T). reorder Hr.
Qed.
Lemma apart_root h a b : apart h a b -> root a <> root b.
Proof. intros (pv & nx & pv' & nx' & L & T & Hr). rewrite !cells_cell in Hr. apply (rep_distinct h _ (cell pv nx (lab a) (kids a)) _ (cell pv' nx' (lab b) (kids b)) (chain 0 (kids a) 0 ++ chain 0 (kids b) 0 ++ L) (tree_texts a ++ tree_texts b ++ T)). reorder Hr. Qed.
(** One of them alone. *)
Definition present (h : heap) (a : tree) : Prop := exists pv nx L T, rep h (cells pv nx a ++ L) (tree_texts a ++ T).
Lemma apart_present h a b : apart h a b -> present h a.
Proof. intros (pv & nx & pv' & nx' & L & T & Hr). exists pv, nx, (cells pv' nx' b ++ L), (tree_texts b ++ T). reorder Hr. Qed.

(** ** The loops *)
Section loops.
Context (cmp : Z -> Z -> heap -> outcome bool) (cs : bool) (h : heap).
Notation value := (fun t => json_of (item_of h t)).

(** What comparing [t] with [u] answers. *)
Definition compares (t u : tree) : Prop :=
  forall j k, value t = Some j -> value u = Some k -> cmp (root t) (root u) h = Ret (same_json cs j k).

Lemma compare_arrays_ok fuel : forall l m jl jm pv pv' L L' T, rep h (chain pv l 0 ++ L) T -> rep h (chain pv' m 0 ++ L') T ->
  Forall2 (fun t j => value t = Some j) l jl -> Forall2 (fun t j => value t = Some j) m jm ->
  (forall t u, t ∈ l -> u ∈ m -> compares t u) -> (length l < fuel)%nat ->
  compare_arrays cmp fuel (first l 0) (first m 0) h = Ret (pairwise (same_json cs) jl jm).
Proof.
  induction fuel as [|fuel IH]; [lia|]. intros l m jl jm pv pv' L L' T Hl Hm Jl Jm Hc Hf. cbn [compare_arrays].
  destruct Jl as [|t j l jl Jt Jl], Jm as [|u k m jm Ju Jm]; cbn [first]; [done|..].
  - destruct (walk_load h T _ _ _ _ _ Hm) as [_ Hz]. cbn. by destruct (root u).
  - destruct (walk_load h T _ _ _ _ _ Hl) as [_ Hz]. cbn. rewrite andb_false_r. by rewrite (proj2 (Z.eqb_neq (root t) 0)).
  - destruct (walk_load h T _ _ _ _ _ Hl) as [El Hz], (walk_load h T _ _ _ _ _ Hm) as [Em Hz']. rewrite !(proj2 (Z.eqb_neq _ 0)) by done. cbn [negb andb].
    rewrite (Hc t u ltac:(by left) ltac:(by left) j k Jt Ju), ret_bind. cbn [pairwise]. destruct (same_json cs j k); cbn [negb andb]; [|done].
    rewrite El, ret_bind, Em, ret_bind. cbn [next cell]. apply (IH l m jl jm (root t) (root u) (cells pv (first l 0) t ++ L) (cells pv' (first m 0) u ++ L') T); try done.
    + rewrite chain_cons in Hl. reorder Hl.
    + rewrite chain_cons in Hm. reorder Hm.
    + intros t' u' Ht Hu. apply Hc; by right.
    + cbn in Hf. lia.
Qed.

Definition is_member (t : tree) (kv : bytes * json) : Prop := block_str (string (item_of h t)) = Some kv.1 /\ value t = Some kv.2.

(** At most one member has a given name. *)
Lemma find_one g nm m jm : Forall2 is_member m jm -> ForallOrdPairs (fun kv kv' => ~ same_name cs kv.1 kv'.1) jm ->
  let answer := existsb (fun kv => bool_decide (same_name cs nm kv.1) && g kv.2) jm in
  find_name cs nm m (fst <$> jm) = 0 /\ answer = false \/
  exists u k, u ∈ m /\ value u = Some k /\ find_name cs nm m (fst <$> jm) = root u /\ answer = g k.
Proof.
  intros Hm Hd. induction Hm as [|u [n k] m jm [Hn Hu] Hm IH]; cbn; [by left|]. inversion Hd as [|? ? Hnot Hd']; subst. cbn in *. destruct (decide (same_name cs nm n)) as [Hs|Hs].
  - right. exists u, k. split_and!; [by left|done|done|]. rewrite bool_decide_true by done. cbn. assert (existsb (fun kv => bool_decide (same_name cs nm kv.1) && g kv.2) jm = false) as ->; [|apply orb_false_r].
    apply not_true_is_false. intros (kv & Hin & Hkv)%existsb_exists. apply andb_true_iff in Hkv as [Hkv%bool_decide_eq_true _]. rewrite Forall_forall in Hnot.
    apply (Hnot kv ltac:(by apply list_elem_of_In)). apply (same_name_trans _ _ nm); [by apply same_name_sym|done].
  - rewrite bool_decide_false by done. cbn. destruct (IH Hd') as [IHl|(u' & k' & Hin & IHr)]; [by left|]. right. exists u', k'. split; [by right|done].
Qed.

Lemma members_names T m jm : Forall2 is_member m jm -> (exists L, rep h L T) -> list_texts m ⊆ T -> has_names T m (fst <$> jm).
Proof.
  intros Hm [L Hr] Hsub. unfold has_names. induction Hm as [|t [n k] m jm [Hn _] Hm IH]; [constructor|]. constructor.
  - cbn in Hn. unfold block_str in Hn. destruct t as [p x l]. cbn in *. destruct (field_text h (l_string x)) as [b|] eqn:E; [|done]. destruct (c_str b) as [s| | |] eqn:Es; simplify_eq.
    apply (field_holds h L T _ b _ Hr); [|done|done]. intros q Hq. apply Hsub. apply elem_of_app. left. apply elem_of_app. right. apply elem_of_app. by left.
  - apply IH. intros q Hq. apply Hsub. rewrite list_texts_cons. apply elem_of_app. by right.
Qed.

Lemma compare_members_ok pv' nx' p x m jm L' T : is_ref x = false -> rep h (cells pv' nx' (Tree p x m) ++ L') T -> has_names T m (fst <$> jm) ->
  Forall2 is_member m jm -> ForallOrdPairs (fun kv kv' => ~ same_name cs kv.1 kv'.1) jm ->
  forall fuel l jl pv L, rep h (chain pv l 0 ++ L) T -> has_names T l (fst <$> jl) -> Forall2 is_member l jl ->
  (forall t u, t ∈ l -> u ∈ m -> compares t u) -> (length l < fuel)%nat ->
  compare_members cmp cs fuel (first l 0) p h =
    Ret (forallb (fun kv => existsb (fun kv' => bool_decide (same_name cs kv.1 kv'.1) && same_json cs kv.2 kv'.2) jm) jl).
Proof.
  intros Hx Hm Nm Jm Hd. induction fuel as [|fuel IH]; [lia|]. intros l jl pv L Hl Nl Jl Hc Hf. cbn [compare_members].
  destruct Jl as [|t [n j] l jl [Jn Jt] Jl]; cbn [first]; [done|]. cbn in Nl. inversion Nl as [|? ? ? ? Nt Nl']; subst.
  destruct (walk_load h T _ _ _ _ _ Hl) as [El Hz]. rewrite (proj2 (Z.eqb_neq _ 0)), El, ret_bind by done. cbn [n_string cell].
  rewrite (get_object_item_ok pv' nx' p x m (fst <$> jm) cs _ n h L' T) by done. rewrite ret_bind. cbn [forallb fst snd].
  destruct (find_one (same_json cs j) n m jm Jm Hd) as [[-> ->]|(u & k & Hu & Ju & -> & ->)]; [done|].
  assert (root u <> 0) as Hu0.
  { apply list_elem_of_split in Hu as (m1 & m2 & ->). rewrite cells_around in Hm. apply (roots_nonzero h u ((p, cell pv' nx' x (m1 ++ u :: m2)) :: chain 0 m1 (root u) ++ chain (root u) m2 0 ++ L') T (final 0 m1) (first m2 0)). reorder Hm. }
  rewrite (proj2 (Z.eqb_neq _ 0)), (Hc t u ltac:(by left) Hu j k Jt Ju), ret_bind by done. destruct (same_json cs j k); cbn [negb andb]; [|done].
  rewrite ret_bind. cbn [next cell]. apply (IH l jl (root t) (cells pv (first l 0) t ++ L)); try done.
  - rewrite chain_cons in Hl. reorder Hl.
  - intros t' u' Ht. apply Hc. by right.
  - cbn in Hf. lia.
Qed.
End loops.

(** ** The whole comparison *)
Ltac closed_tests :=
  repeat match goal with
  | |- context [Z.eqb ?x ?y] => let r := eval vm_compute in (Z.eqb x y) in match r with true => idtac | false => idtac end; change (Z.eqb x y) with r
  | |- context [@bool_decide ?P ?d] => replace (@bool_decide P d) with true by (vm_compute; reflexivity)
  end; cbn [negb andb orb].

Definition size_of (t : tree) : nat := length (cells 0 0 t).
Lemma size_kid p x l t : t ∈ l -> (size_of t < size_of (Tree p x l))%nat.
Proof.
  unfold size_of. rewrite cells_Tree. cbn [length]. intros (l1 & l2 & ->)%list_elem_of_split. rewrite chain_app, chain_cons, !length_app, (cells_cell (final 0 l1)), (cells_cell 0 0 t). cbn [length]. lia.
Qed.

Lemma value_list h l js : elements json_of (map (item_of h) l) = Some js -> Forall2 (fun t j => json_of (item_of h t) = Some j) l js.
Proof. intros E%elements_inv. by apply Forall2_fmap_l in E. Qed.
Lemma member_list h l js : members json_of (map (item_of h) l) = Some js -> Forall2 (is_member h) l js.
Proof. intros E%members_inv. by apply Forall2_fmap_l in E. Qed.

(** What holds for every value of a list holds for the values of its trees. *)
Lemma kid_value h (P : json -> Prop) l js t j : Forall2 (fun t j => json_of (item_of h t) = Some j) l js -> Forall P js -> t ∈ l -> json_of (item_of h t) = Some j -> P j.
Proof. intros Hl HP Ht E. destruct (proj1 (list_elem_of_lookup _ _) Ht) as [i Hi]. destruct (Forall2_lookup_l _ _ _ _ _ Hl Hi) as (j' & Hj%list_elem_of_lookup_2 & E'). rewrite E' in E. injection E as ->. rewrite Forall_forall in HP. by apply HP. Qed.
Lemma kid_member h (P : json -> Prop) l js t j : Forall2 (is_member h) l js -> Forall (fun kv => P kv.2) js -> t ∈ l -> json_of (item_of h t) = Some j -> P j.
Proof. intros Hl HP Ht E. destruct (proj1 (list_elem_of_lookup _ _) Ht) as [i Hi]. destruct (Forall2_lookup_l _ _ _ _ _ Hl Hi) as ([k j'] & Hj%list_elem_of_lookup_2 & _ & E'). cbn in E'. rewrite E' in E. injection E as ->. rewrite Forall_forall in HP. by apply (HP _ Hj). Qed.
Lemma sub_texts p x l T : list_texts l ⊆ tree_texts (Tree p x l) ++ T.
Proof. rewrite texts_Tree. intros q Hq. rewrite !elem_of_app. tauto. Qed.
Lemma sub_texts' p x l T T' : list_texts l ⊆ T' ++ tree_texts (Tree p x l) ++ T.
Proof. rewrite texts_Tree. intros q Hq. rewrite !elem_of_app. tauto. Qed.

Lemma compare_ok cs h n : forall a b ja jb, apart h a b -> own_tree a -> own_tree b ->
  json_of (item_of h a) = Some ja -> json_of (item_of h b) = Some jb -> distinct cs ja -> distinct cs jb -> (size_of a <= n \/ size_of b <= n)%nat ->
  compare n (root a) (root b) cs h = Ret (same_json cs ja jb).
Proof.
  induction n as [|n IH]; intros a b ja jb Hap Ha Hb Ja Jb Da Db Hn; [unfold size_of in Hn; rewrite !cells_cell in Hn; cbn in Hn; lia|].
  pose proof (apart_root _ _ _ Hap) as Hne. pose proof Hap as (pv & nx & pv' & nx' & L & T & Hr). destruct a as [p x l], b as [q y m]. cbn [root] in *.
  apply own_tree_Tree in Ha as (Hx & _ & _ & Hl), Hb as (Hy & _ & _ & Hm).
  pose proof Hr as Hp. rewrite !cells_Tree in Hp. assert (load p h = Ret (cell pv nx x l) /\ p <> 0) as [Ep Hp0].
  { split; [apply (load_rep _ _ _ _ _ Hp)|apply (rep_ptr _ _ _ _ _ Hp)]. }
  assert (load q h = Ret (cell pv' nx' y m) /\ q <> 0) as [Eq Hq0].
  { assert (rep h ((q, cell pv' nx' y m) :: chain 0 m 0 ++ (p, cell pv nx x l) :: chain 0 l 0 ++ L) (tree_texts (Tree p x l) ++ tree_texts (Tree q y m) ++ T)) as Hq by reorder Hp.
    split; [apply (load_rep _ _ _ _ _ Hq)|apply (rep_ptr _ _ _ _ _ Hq)]. }
  cbn [compare]. rewrite (proj2 (Z.eqb_neq p 0)), (proj2 (Z.eqb_neq q 0)), (proj2 (Z.eqb_neq p q)), Ep, Eq, !ret_bind by done. cbn [orb n_type cell n_valuedouble n_valuestring].
  apply json_shape in Ja, Jb. cbv zeta.
  assert (forall t u, t ∈ l -> u ∈ m -> own_tree t /\ own_tree u /\ apart h t u /\ (size_of t <= n \/ size_of u <= n)%nat) as Hkids.
  { rewrite Forall_forall in Hl, Hm. intros t u Ht Hu. split_and!; [auto|auto| |].
    - apply (apart_kid h p x l); [|done]. apply apart_sym, (apart_kid h q y m); [|done]. by apply apart_sym.
    - pose proof (size_kid p x l t Ht). pose proof (size_kid q y m u Hu). lia. }
  set (TT := tree_texts (Tree p x l) ++ tree_texts (Tree q y m) ++ T) in *.
  assert (rep h (cells pv nx (Tree p x l) ++ cells pv' nx' (Tree q y m) ++ L) TT) as HA by done.
  assert (rep h (cells pv' nx' (Tree q y m) ++ cells pv nx (Tree p x l) ++ L) TT) as HB by reorder Hr.
  destruct (rep_kids pv nx p x l h _ _ HA) as [Hcl Hfl], (rep_kids pv' nx' q y m h _ _ HB) as [Hcm Hfm].
  destruct Ja as [Ea|Ea|Ea|Ea|va sa Ea Eva Esa|la Ea Ela|la Ea Ela], Jb as [Eb|Eb|Eb|Eb|vb sb Eb Evb Esb|lb Eb Elb|lb Eb Elb];
    unfold base_type in Ea, Eb; cbn in Ea, Eb; rewrite Ea, Eb; closed_tests; try done.
  - (* strings *)
    cbn in Eva, Evb.
    destruct (field_in h (cells pv nx (Tree p x l) ++ cells pv' nx' (Tree q y m) ++ L) (own (l_string x) ++ list_texts l ++ tree_texts (Tree q y m) ++ T) (l_valuestring x) va) as [E1 N1]; [reorder Hr|exact Eva|].
    destruct (field_in h (cells pv nx (Tree p x l) ++ cells pv' nx' (Tree q y m) ++ L) (own (l_string y) ++ list_texts m ++ tree_texts (Tree p x l) ++ T) (l_valuestring y) vb) as [E2 N2]; [reorder Hr|exact Evb|].
    rewrite !(proj2 (Z.eqb_neq (ptr _) 0)) by done. cbn [orb]. rewrite E1, ret_bind, E2, ret_bind.
    destruct (c_str_split _ _ Esa) as (ra & -> & Na), (c_str_split _ _ Esb) as (rb & -> & Nb). destruct (strcmp_cstr sa sb ra rb Na Nb) as (z & -> & Hz). rewrite ret_bind. cbn [same_json]. f_equal.
    destruct (Z.eqb_spec z 0); symmetry; [apply bool_decide_true|apply bool_decide_false]; tauto.
  - (* arrays *)
    inversion Da as [| | | |? Dl|]; inversion Db as [| | | |? Dm|]; subst. apply value_list in Ela, Elb. rewrite !child_cell by done.
    apply (compare_arrays_ok _ cs h _ l m la lb 0 0 _ _ _ Hcl Hcm Ela Elb); [|done]. intros t u Ht Hu j k Jt Ju.
    destruct (Hkids t u Ht Hu) as (Ot & Ou & Hk & Hs). apply IH; try done; [by apply (kid_value h _ l la t)|by apply (kid_value h _ m lb u)].
  - (* objects *)
    inversion Da as [| | | | |? Dl Ndl]; inversion Db as [| | | | |? Dm Ndm]; subst. apply member_list in Ela, Elb. rewrite !child_cell by done.
    pose proof (members_names h _ l la Ela (ex_intro _ _ HA) (sub_texts _ _ _ _)) as Nl.
    pose proof (members_names h _ m lb Elb (ex_intro _ _ HA) (sub_texts' _ _ _ _ _)) as Nm.
    assert (forall t u, t ∈ l -> u ∈ m -> compares (fun x y => compare n x y cs) cs h t u) as Hc.
    { intros t u Ht Hu j k Jt Ju. destruct (Hkids t u Ht Hu) as (Ot & Ou & Hk & Hs). apply IH; try done; [by apply (kid_member h _ l la t)|by apply (kid_member h _ m lb u)]. }
    rewrite (compare_members_ok _ cs h pv' nx' q y m lb _ _ Hy HB Nm Elb Ndm _ l la 0 _ Hcl Nl Ela Hc) by done. rewrite ret_bind.
    assert (forall u t, u ∈ m -> t ∈ l -> compares (fun x y => compare n x y cs) cs h u t) as Hc'.
    { intros u t Hu Ht j k Ju Jt. destruct (Hkids t u Ht Hu) as (Ot & Ou & Hk & Hs). apply IH; try done; [by apply apart_sym|by apply (kid_member h _ m lb u)|by apply (kid_member h _ l la t)|tauto]. }
    rewrite (compare_members_ok _ cs h pv nx p x l la _ _ Hx HA Nl Ela Ndl _ m lb 0 _ Hcm Nm Elb Hc') by done.
    cbn [same_json]. destruct (forallb _ la); cbn [negb andb]; [|done]. f_equal. apply forallb_cong, Forall_true. intros kv. apply existsb_cong, Forall_true. intros kv'.
    rewrite same_json_sym. f_equal. apply bool_decide_ext, same_name_sym.
Qed.

(** ** Copies compare equal *)
Lemma copy_fields h f f' : copy_field f f' -> field_ok f -> block_str (field_text h f') = block_str (field_text h f) /\ field_ok f'.
Proof.
  destruct f, f'; cbn; try done; [|by intros <-]. intros (s & Hs & ->) _. destruct (c_str_split _ _ Hs) as (r & _ & Hn). rewrite Hs, c_str_ok by done. split; [done|]. by exists s.
Qed.

Lemma copy_value h t : forall t', copy_of t t' -> own_tree t ->
  json_of (item_of h t') = json_of (item_of h t) /\ block_str (string (item_of h t')) = block_str (string (item_of h t)) /\ own_tree t'.
Proof.
  induction t as [p x l IH] using tree_ind'. intros t' Hc. inversion Hc as [? ? ? p' x' l' [C1 C2 C3 C4 C5] Hl]; subst. intros (Hx & Hf1 & Hf2 & Ho)%own_tree_Tree.
  destruct (copy_fields h _ _ C4 Hf1) as [V1 G1], (copy_fields h _ _ C5 Hf2) as [V2 G2].
  assert (elements json_of (map (item_of h) l') = elements json_of (map (item_of h) l) /\ members json_of (map (item_of h) l') = members json_of (map (item_of h) l) /\ Forall own_tree l') as (El & Em & Hol).
  { clear Hc. revert IH Ho. induction Hl as [|t t' l l' Ht Hl IHl]; intros IH Ho; [done|]. apply Forall_cons in IH as [IHt IH], Ho as [Hot Ho].
    destruct (IHt t' Ht Hot) as (Vt & Nt & Ot), (IHl IH Ho) as (Ve & Vm & Ol). cbn. rewrite Vt, Nt, Ve, Vm. by split_and!; [| |apply Forall_cons]. }
  split_and!; [|exact V2|].
  - rewrite !json_of_unfold. cbn [item_of]. unfold base_type. cbn [type valuestring valuedouble child]. rewrite C1, C3, V1, El, Em.
    by replace (Z.land (Z.land (l_type x) (Z.lnot cJSON_IsReference)) 255) with (Z.land (l_type x) 255) by (by rewrite <- Z.land_assoc).
  - apply own_tree_Tree. split_and!; [|done|done|done]. unfold is_ref. rewrite C1. apply flag_unref.
Qed.

Lemma forest_fuel h F K t c : forest h (fill c t :: F) K -> (size_of t < heap_fuel h)%nat.
Proof.
  intros Hf. destruct (forest_at h c t F K Hf) as (pv & nx & L & T & Hr & _). rewrite (rep_fuel _ _ _ Hr), length_app. unfold size_of. rewrite !cells_cell. cbn [length]. lia.
Qed.

Lemma compare_forest cs h a b F K ja jb : forest h (a :: b :: F) K -> own_tree a -> own_tree b ->
  json_of (item_of h a) = Some ja -> json_of (item_of h b) = Some jb -> distinct cs ja -> distinct cs jb ->
  cJSON_Compare (root a) (root b) cs h = Ret (same_json cs ja jb).
Proof.
  intros Hf Ha Hb Ja Jb Da Db. apply compare_ok; try done.
  - destruct Hf as [Hr _]. exists 0, 0, 0, 0, (roots F), (list_texts F ++ K). rewrite !roots_cons, !list_texts_cons in Hr. reorder Hr.
  - left. pose proof (forest_fuel h (b :: F) K a Top Hf). lia.
Qed.

(** C12. [cJSON_Compare] on two trees of the client, neither part of the other,
    returns, with no read outside them, and answers whether they stand for the
    same JSON value: arrays are compared element by element, objects as sets
    of members, whose names are compared with or without case. It decides that
    for values in which no object has two members with one name. *)
Theorem cJSON_Compare_decides cs h a b F K ja jb : forest h (a :: b :: F) K -> own_tree a -> own_tree b ->
  json_of (item_of h a) = Some ja -> json_of (item_of h b) = Some jb -> distinct cs ja -> distinct cs jb ->
  cJSON_Compare (root a) (root b) cs h = Ret (same_json cs ja jb).
Proof. apply compare_forest. Qed.

(** C13. [cJSON_Duplicate] of a node anywhere in a tree of the client makes a
    tree of its own blocks with the same values in the same order, which
    compares equal to it, or it answers NULL when the memory has run out;
    either way the client has what it had before, and no block is lost. *)
Theorem cJSON_Duplicate_copies c t h F K : forest h (fill c t :: F) K -> own_tree t ->
  exists q h', cJSON_Duplicate (root t) true h = Ret (q, h') /\
    (q = 0 /\ may_fail h /\ forest h' (fill c t :: F) K \/
     exists t', root t' = q /\ copy_of t t' /\ forest h' (t' :: fill c t :: F) K /\ json_of (item_of h' t') = json_of (item_of h' t) /\
       forall cs j, json_of (item_of h' t) = Some j -> json_ok j -> distinct cs j -> cJSON_Compare q (root t) cs h' = Ret true).
Proof.
  intros Hf Hown. pose proof (forest_fuel _ _ _ _ _ Hf) as Hfuel. destruct (forest_at h c t F K Hf) as (pv & nx & L & T & Hr & Hok & HF & Hback).
  destruct (duplicate_ok t (heap_fuel h) Hok Hown ltac:(unfold size_of in Hfuel; lia) pv nx h _ _ Hr) as (q & h' & E & _ & [(-> & Hm & Hr')|(t' & Eq & Hq & Hc & Hok' & Hr')]); exists q || exists 0; exists h'; (split; [exact E|]).
  - left. split_and!; [done|done|by apply (Hback h' t F)].
  - right. exists t'. destruct (copy_value h' t t' Hc Hown) as (V & _ & Hown').
    assert (forest h' (t' :: fill c t :: F) K) as Hf'.
    { assert (forest h' (fill c t :: t' :: F) K) as Hg; [|eapply forest_proper; [apply perm_swap|reflexivity|exact Hg]].
      apply (Hback h' t (t' :: F)); [done| |done|by apply Forall_cons]. rewrite roots_cons, list_texts_cons. reorder Hr'. }
    split_and!; [done|done|done|done|]. intros cs j Hj Hjok Hd. unfold cJSON_Compare. rewrite <- Eq, (compare_ok cs h' _ t' t j j) by (done || congruence || (left; pose proof (forest_fuel _ _ _ _ Top Hf'); lia) || (eexists _, _, _, _, _, _; exact Hr')).
    by rewrite same_json_refl.
Qed.

(** *** On concrete trees *)
Definition leaf (t : Z) (vs : field) (d : Z) (name : field) : label := mkLabel t vs d (of_int d) name 0.
Lemma leaf_ok t vs d name l : has_flag t cJSON_IsReference = false -> has_flag t cJSON_StringIsConst = false ->
  (forall a, vs <> Shared a) -> (forall a, name <> Shared a) -> label_ok (leaf t vs d name) l.
Proof. intros H1 H2 H3 H4. split; unfold is_ref, is_const; cbn; congruence. Qed.
(** <<{"a": [1, "x"], "b": null}>> at the addresses from [p]; the names are
    given. *)
Definition demo (p : Z) (a b : Z) : tree :=
  Tree p (leaf cJSON_Object Nothing 0 Nothing) [
    Tree (p + 1) (leaf cJSON_Array Nothing 0 (Owned (p + 5) [a; 0])) [
      Tree (p + 2) (leaf cJSON_Number Nothing 1 Nothing) []; Tree (p + 3) (leaf cJSON_String (Owned (p + 6) [120; 0]) 0 Nothing) []];
    Tree (p + 4) (leaf cJSON_NULL Nothing 0 (Owned (p + 7) [b; 0])) []].
Definition demo_heap (answers : list bool) (l : list tree) : heap := heap_of l [] 100 answers.
Definition demo_json (a b : Z) : json := JObj [([a], JArr [JNum (of_int 1); JStr [120]]); ([b], JNull)].

Lemma demo_forest ans p q a b c d : p ∈ [1; 20] -> q ∈ [40; 60] -> forest (demo_heap ans [demo p a b; demo q c d]) [demo p a b; demo q c d] [].
Proof.
  intros Hp Hq. apply heap_of_forest.
  - repeat (apply elem_of_cons in Hp as [->|Hp]); repeat (apply elem_of_cons in Hq as [->|Hq]); try (by apply elem_of_nil in Hp || by apply elem_of_nil in Hq); vm_compute; reflexivity.
  - unfold demo. repeat (apply Forall_cons; split); try done; rewrite tree_ok_Tree; (split; [by apply leaf_ok|]);
      repeat (apply Forall_cons; split); try done; rewrite tree_ok_Tree; (split; [by apply leaf_ok|]); repeat (apply Forall_cons; split); try done;
      rewrite tree_ok_Tree; (split; [by apply leaf_ok|done]).
Qed.
Lemma demo_own p a b : a <> 0 -> b <> 0 -> own_tree (demo p a b).
Proof. intros Ha Hb. cbn. split_and!; try done; try (exists [120]; reflexivity); [exists [a]|exists [b]]; unfold c_str, strlen; cbn; rewrite ?(proj2 (Z.eqb_neq _ 0)); done. Qed.

Lemma cJSON_Compare_decides_witness :
  cJSON_Compare 1 40 false (demo_heap [] [demo 1 97 98; demo 40 65 98]) = Ret true /\ cJSON_Compare 1 40 true (demo_heap [] [demo 1 97 98; demo 40 65 98]) = Ret false.
Proof.
  assert (forall cs, distinct cs (demo_json 97 98) /\ distinct cs (demo_json 65 98)) as Hd.
  { intros cs. split; constructor; repeat constructor; by destruct cs. }
  assert (forall l x a, a ∈ [97; 65] -> json_of (item_of (demo_heap [] l) (demo x a 98)) = Some (demo_json a 98)) as Hj.
  { intros l x a Ha. repeat (apply elem_of_cons in Ha as [->|Ha]); [cbn -[of_int]; reflexivity|cbn -[of_int]; reflexivity|by apply elem_of_nil in Ha]. }
  assert (forall cs, cJSON_Compare 1 40 cs (demo_heap [] [demo 1 97 98; demo 40 65 98]) = Ret (same_json cs (demo_json 97 98) (demo_json 65 98))) as E.
  { intros cs. apply (cJSON_Compare_decides cs _ (demo 1 97 98) (demo 40 65 98) [] []); [apply demo_forest; set_solver|by apply demo_own|by apply demo_own|apply Hj; set_solver|apply Hj; set_solver|apply Hd|apply Hd]. }
  split; rewrite E; vm_compute; reflexivity.
Defined.

Lemma demo_json_ok : json_ok (demo_json 97 98).
Proof.
  assert (canonical (of_int 1) /\ of_int 1 <> NaN) as H1.
  { assert (of_int 1 = Fin false (2 ^ 52) 1022) as E by (vm_compute; reflexivity). rewrite E. unfold canonical. split; [lia|discriminate]. }
  assert (forall a, a <> 0 -> no_nul [a]) as Hn by (intros a Ha; apply no_nul_cons; split; [exact Ha|apply not_elem_of_nil]).
  apply json_ok_obj. constructor; [|constructor; [|constructor]]; (split; [by apply Hn|]); [|exact I].
  apply json_ok_arr. constructor; [exact H1|constructor; [by apply Hn|constructor]].
Qed.

Lemma cJSON_Duplicate_copies_witness :
  (exists q h' t', cJSON_Duplicate 1 true (demo_heap [] [demo 1 97 98; demo 40 97 98]) = Ret (q, h') /\ root t' = q /\ copy_of (demo 1 97 98) t' /\
    forest h' [t'; demo 1 97 98; demo 40 97 98] [] /\ cJSON_Compare q 1 true h' = Ret true) /\
  exists h', cJSON_Duplicate 1 true (demo_heap [true; true; true; false] [demo 1 97 98; demo 40 97 98]) = Ret (0, h') /\ size (nodes h') = 10%nat.
Proof.
  split; [|eexists; split; vm_compute; reflexivity].
  assert (forest (demo_heap [] [demo 1 97 98; demo 40 97 98]) (fill Top (demo 1 97 98) :: [demo 40 97 98]) []) as H0 by (cbn [fill]; apply demo_forest; set_solver).
  assert (own_tree (demo 1 97 98)) as H1 by (by apply demo_own).
  destruct (cJSON_Duplicate_copies Top (demo 1 97 98) (demo_heap [] [demo 1 97 98; demo 40 97 98]) [demo 40 97 98] [] H0 H1)
    as (q & h' & E & [(_ & Hm & _)|(t' & Eq & Hc & Hf & _ & Hcmp)]); [destruct (not_elem_of_nil _ Hm)|].
  exists q, h', t'. split_and!; [exact E|exact Eq|exact Hc|exact Hf|]. apply (Hcmp true (demo_json 97 98)).
  - cbn -[of_int]. reflexivity.
  - apply demo_json_ok.
  - constructor; repeat constructor; done.
Defined.

(** An object with a member [a] twice is not the same as its copy: both
    members find the first one of the other object. *)
Example compare_twice : exists q h',
  cJSON_Duplicate 1 true (demo_heap [] [demo 1 97 97]) = Ret (q, h') /\ q <> 0 /\ cJSON_Compare 1 q true h' = Ret false.
Proof. eexists _, _. split_and!; [vm_compute; reflexivity|done|vm_compute; reflexivity]. Qed.
