(* ===== verification/CJsonClient.v ===== *)
(** * cJSON: clients

    What a client of the tree functions may do, as a specification on trees
    ([spec]): for each call the states in which it is allowed, and what it may
    answer and leave behind. The functions on the heap implement it: a client
    that makes allowed calls only ([safe]) never follows a pointer to what is
    not there, and at its end the heap holds its trees and nothing else. *)

From stdpp Require Import base tactics numbers list option gmap sets.
From Stdlib Require Import Lia.
From S2P Require Import Prelude Double CJson CJsonSpec CJsonDom CJsonTree CJsonDomOk CJsonCopy.

Inductive call :=
  | CreateNull | CreateTrue | CreateFalse | CreateBool (b : bool) | CreateArray | CreateObject
  | CreateNumber (d : double) | CreateString (s : Z) | CreateRaw (s : Z)
  | Delete (item : Z)
  | GetArraySize (array : Z) | GetArrayItem (array index : Z) | GetObjectItem (object name : Z) (case_sensitive : bool)
  | AddItemToArray (array item : Z) | AddItemToObject (object name item : Z) | AddItemToObjectCS (object name item : Z)
  | AddItemReferenceToArray (array item : Z)
  | DetachItemViaPointer (parent item : Z) | DetachItemFromArray (array which : Z) | DeleteItemFromArray (array which : Z)
  | DetachItemFromObject (object name : Z) | DeleteItemFromObject (object name : Z)
  | InsertItemInArray (array which item : Z)
  | ReplaceItemViaPointer (parent item replacement : Z) | ReplaceItemInArray (array which item : Z)
  | ReplaceItemInObject (object name item : Z) (case_sensitive : bool)
  | Duplicate (item : Z).

(** The answer of a function without one is 0. *)
Definition unit_answer (o : outcome heap) : outcome (Z * heap) := let! h := o in Ret (0, h).
Definition const_answer (o : outcome Z) (h : heap) : outcome (Z * heap) := let! r := o in Ret (r, h).
Definition exec (c : call) (h : heap) : outcome (Z * heap) :=
  match c with
  | CreateNull => cJSON_CreateNull h | CreateTrue => cJSON_CreateTrue h | CreateFalse => cJSON_CreateFalse h
  | CreateBool b => cJSON_CreateBool b h | CreateArray => cJSON_CreateArray h | CreateObject => cJSON_CreateObject h
  | CreateNumber d => cJSON_CreateNumber d h | CreateString s => cJSON_CreateString s h | CreateRaw s => cJSON_CreateRaw s h
  | Delete item => unit_answer (cJSON_Delete item h)
  | GetArraySize a => const_answer (cJSON_GetArraySize a h) h
  | GetArrayItem a k => const_answer (cJSON_GetArrayItem a k h) h
  | GetObjectItem o s cs => const_answer ((if cs : bool then cJSON_GetObjectItemCaseSensitive o s h else cJSON_GetObjectItem o s h)) h
  | AddItemToArray a i => unit_answer (cJSON_AddItemToArray a i h)
  | AddItemToObject o s i => unit_answer (cJSON_AddItemToObject o s i h)
  | AddItemToObjectCS o s i => unit_answer (cJSON_AddItemToObjectCS o s i h)
  | AddItemReferenceToArray a i => unit_answer (cJSON_AddItemReferenceToArray a i h)
  | DetachItemViaPointer p i => cJSON_DetachItemViaPointer p i h
  | DetachItemFromArray a k => cJSON_DetachItemFromArray a k h
  | DeleteItemFromArray a k => unit_answer (cJSON_DeleteItemFromArray a k h)
  | DetachItemFromObject o s => cJSON_DetachItemFromObject o s h
  | DeleteItemFromObject o s => unit_answer (cJSON_DeleteItemFromObject o s h)
  | InsertItemInArray a k i => unit_answer (cJSON_InsertItemInArray a k i h)
  | ReplaceItemViaPointer p i r => let! (ok, h) := cJSON_ReplaceItemViaPointer p i r h in Ret (Z.b2z ok, h)
  | ReplaceItemInArray a k i => unit_answer (cJSON_ReplaceItemInArray a k i h)
  | ReplaceItemInObject o s i cs => unit_answer (if cs : bool then cJSON_ReplaceItemInObjectCaseSensitive o s i h else cJSON_ReplaceItemInObject o s i h)
  | Duplicate i => cJSON_Duplicate i true h
  end.

(** ** The specification *)
Section spec.
(** The texts of the client; whether memory may run out. *)
Context (K : texts_t) (short : bool).

(** A new item, or NULL. *)
Definition made (F : list tree) (new : Z -> tree -> Prop) (r : Z) (F' : list tree) : Prop :=
  r = 0 /\ short = true /\ F' = F \/ r <> 0 /\ exists t, root t = r /\ new r t /\ F' = t :: F.
(** A fixed answer and state. *)
Definition exactly (r : Z) (F : list tree) (r' : Z) (F' : list tree) : Prop := r' = r /\ F' = F.

(** The first member with a name, after the members [l1]. *)
Definition found_at (F : list tree) (s : Z) (cs : bool) (l1 : list tree) (t : tree) (l2 : list tree) : Prop :=
  exists nm n1 n n2, holds K s nm /\ has_names (list_texts F ++ K) (l1 ++ t :: l2) (n1 ++ n :: n2) /\ length l1 = length n1 /\
    same_name cs nm n /\ Forall (fun m => ~ same_name cs nm m) n1.
Definition not_found (F : list tree) (s : Z) (cs : bool) (l : list tree) : Prop :=
  exists nm names, holds K s nm /\ has_names (list_texts F ++ K) l names /\ Forall (fun m => ~ same_name cs nm m) names.

(** The name of a replacement: a copy, or none when there is no memory. *)
Definition new_name (s : Z) (f : field) : Prop := f = Nothing /\ short = true \/ exists q nm, f = Owned q (nm ++ [0]) /\ holds K s nm.

Definition simple_type (c : call) : option Z :=
  match c with
  | CreateNull => Some cJSON_NULL | CreateTrue => Some cJSON_True | CreateFalse => Some cJSON_False
  | CreateBool b => Some (if b then cJSON_True else cJSON_False) | CreateArray => Some cJSON_Array | CreateObject => Some cJSON_Object
  | _ => None
  end.

(** [spec c F Q]: with the trees [F] the call [c] is allowed, and [Q] holds
    of what it answers and of the trees there are then. *)
Inductive spec : call -> list tree -> (Z -> list tree -> Prop) -> Prop :=
  | spec_order c F G Q : F ≡ₚ G -> spec c G Q -> spec c F Q
  | spec_simple c t F : simple_type c = Some t -> spec c F (made F (fun r new => new = Tree r (plain t) []))
  | spec_number d F : d <> NaN -> spec (CreateNumber d) F (made F (fun r new => exists i, saturate d = Ret i /\ new = Tree r (mkLabel cJSON_Number Nothing i d Nothing 0) []))
  | spec_string s x F : holds K s x -> spec (CreateString s) F (made F (fun r new => exists q, new = Tree r (mkLabel cJSON_String (Owned q (x ++ [0])) 0 (Fin false 0 0) Nothing 0) []))
  | spec_raw s x F : holds K s x -> spec (CreateRaw s) F (made F (fun r new => exists q, new = Tree r (mkLabel cJSON_Raw (Owned q (x ++ [0])) 0 (Fin false 0 0) Nothing 0) []))
  | spec_delete t F : spec (Delete (root t)) (t :: F) (exactly 0 F)
  | spec_size c a x l F : is_ref x = false -> spec (GetArraySize a) (fill c (Tree a x l) :: F) (exactly (s32 (zlen l)) (fill c (Tree a x l) :: F))
  | spec_index c a x l k F : is_ref x = false -> spec (GetArrayItem a k) (fill c (Tree a x l) :: F) (exactly (if k <? 0 then 0 else first (zdrop k l) 0) (fill c (Tree a x l) :: F))
  | spec_find c a x l1 t l2 s cs F : is_ref x = false -> found_at (fill c (Tree a x (l1 ++ t :: l2)) :: F) s cs l1 t l2 ->
      spec (GetObjectItem a s cs) (fill c (Tree a x (l1 ++ t :: l2)) :: F) (exactly (root t) (fill c (Tree a x (l1 ++ t :: l2)) :: F))
  | spec_find_none c a x l s cs F : is_ref x = false -> not_found (fill c (Tree a x l) :: F) s cs l ->
      spec (GetObjectItem a s cs) (fill c (Tree a x l) :: F) (exactly 0 (fill c (Tree a x l) :: F))
  | spec_add c a x l i F : is_ref x = false -> spec (AddItemToArray a (root i)) (fill c (Tree a x l) :: i :: F) (exactly 0 (fill c (Tree a x (l ++ [i])) :: F))
  | spec_add_object c a x l p y k s nm F : is_ref x = false -> holds K s nm -> short = false \/ is_const y = false ->
      spec (AddItemToObject a s p) (fill c (Tree a x l) :: Tree p y k :: F) (fun r F' => r = 0 /\
        (short = true /\ F' = fill c (Tree a x l) :: Tree p (named y (clear_flag (l_type y)) (l_string y)) k :: F \/
         exists q, F' = fill c (Tree a x (l ++ [Tree p (named y (clear_flag (l_type y)) (Owned q (nm ++ [0]))) k])) :: F))
  | spec_add_const c a x l p y k s F : is_ref x = false -> s <> 0 ->
      spec (AddItemToObjectCS a s p) (fill c (Tree a x l) :: Tree p y k :: F)
        (exactly 0 (fill c (Tree a x (l ++ [Tree p (named y (Z.lor (l_type y) cJSON_StringIsConst) (Shared s)) k])) :: F))
  | spec_reference c a x l p y k F : is_ref x = false ->
      spec (AddItemReferenceToArray a p) (fill c (Tree a x l) :: Tree p y k :: F) (fun r F' => r = 0 /\
        (short = true /\ F' = fill c (Tree a x l) :: Tree p y k :: F \/
         exists q, F' = fill c (Tree a x (l ++ [Tree q (reference_to y (if is_ref y then l_child y else first k 0)) []])) :: Tree p y k :: F))
  | spec_detach c a x l1 t l2 F : is_ref x = false ->
      spec (DetachItemViaPointer a (root t)) (fill c (Tree a x (l1 ++ t :: l2)) :: F) (exactly (root t) (t :: fill c (Tree a x (l1 ++ l2)) :: F))
  | spec_detach_index c a x l1 t l2 F : is_ref x = false ->
      spec (DetachItemFromArray a (zlen l1)) (fill c (Tree a x (l1 ++ t :: l2)) :: F) (exactly (root t) (t :: fill c (Tree a x (l1 ++ l2)) :: F))
  | spec_detach_outside c a x l k F : is_ref x = false -> k < 0 \/ zlen l <= k ->
      spec (DetachItemFromArray a k) (fill c (Tree a x l) :: F) (exactly 0 (fill c (Tree a x l) :: F))
  | spec_delete_index c a x l1 t l2 F : is_ref x = false ->
      spec (DeleteItemFromArray a (zlen l1)) (fill c (Tree a x (l1 ++ t :: l2)) :: F) (exactly 0 (fill c (Tree a x (l1 ++ l2)) :: F))
  | spec_detach_name c a x l1 t l2 s F : is_ref x = false -> found_at (fill c (Tree a x (l1 ++ t :: l2)) :: F) s false l1 t l2 ->
      spec (DetachItemFromObject a s) (fill c (Tree a x (l1 ++ t :: l2)) :: F) (exactly (root t) (t :: fill c (Tree a x (l1 ++ l2)) :: F))
  | spec_delete_name c a x l1 t l2 s F : is_ref x = false -> found_at (fill c (Tree a x (l1 ++ t :: l2)) :: F) s false l1 t l2 ->
      spec (DeleteItemFromObject a s) (fill c (Tree a x (l1 ++ t :: l2)) :: F) (exactly 0 (fill c (Tree a x (l1 ++ l2)) :: F))
  | spec_insert c a x l k i F : is_ref x = false -> 0 <= k ->
      spec (InsertItemInArray a k (root i)) (fill c (Tree a x l) :: i :: F) (exactly 0 (fill c (Tree a x (ztake k l ++ i :: zdrop k l)) :: F))
  | spec_replace c a x l1 t l2 r F : is_ref x = false ->
      spec (ReplaceItemViaPointer a (root t) (root r)) (fill c (Tree a x (l1 ++ t :: l2)) :: r :: F) (exactly 1 (fill c (Tree a x (l1 ++ r :: l2)) :: F))
  | spec_replace_index c a x l1 t l2 r F : is_ref x = false ->
      spec (ReplaceItemInArray a (zlen l1) (root r)) (fill c (Tree a x (l1 ++ t :: l2)) :: r :: F) (exactly 0 (fill c (Tree a x (l1 ++ r :: l2)) :: F))
  | spec_replace_name c a x l1 t l2 p y k s cs F : is_ref x = false -> found_at (fill c (Tree a x (l1 ++ t :: l2)) :: F) s cs l1 t l2 ->
      spec (ReplaceItemInObject a s p cs) (fill c (Tree a x (l1 ++ t :: l2)) :: Tree p y k :: F) (fun r F' => r = 0 /\ exists f, new_name s f /\
        F' = fill c (Tree a x (l1 ++ Tree p (named y (clear_flag (l_type y)) f) k :: l2)) :: F)
  | spec_replace_no_name c a x l p y k s cs F : is_ref x = false -> not_found (fill c (Tree a x l) :: F) s cs l ->
      spec (ReplaceItemInObject a s p cs) (fill c (Tree a x l) :: Tree p y k :: F) (fun r F' => r = 0 /\ exists f, new_name s f /\
        F' = fill c (Tree a x l) :: Tree p (named y (clear_flag (l_type y)) f) k :: F)
  | spec_duplicate c t F : own_tree t ->
      spec (Duplicate (root t)) (fill c t :: F) (made (fill c t :: F) (fun _ new => copy_of t new)).
End spec.

(** A client: calls, each chosen by the answers so far. *)
Inductive client := Done | Call (c : call) (k : Z -> client).
Fixpoint run (c : client) (h : heap) : outcome heap :=
  match c with Done => Ret h | Call c k => let! (r, h) := exec c h in run (k r) h end.

(** All calls are allowed, whatever the allocator answers; [P] holds of the
    trees at the end. *)
Inductive safe (K : texts_t) (short : bool) (P : list tree -> Prop) : client -> list tree -> Prop :=
  | safe_done F : P F -> safe K short P Done F
  | safe_call c k F Q : spec K short c F Q -> (forall r F', Q r F' -> safe K short P (k r) F') -> safe K short P (Call c k) F.

(** ** The functions implement the specification *)
Section refinement.
Context (K : texts_t) (short : bool).

Definition allowed (h : heap) : Prop := may_fail h -> short = true.
Definition refines (c : call) (F : list tree) (Q : Z -> list tree -> Prop) : Prop :=
  forall h, forest h F K -> allowed h -> exists r h' F', exec c h = Ret (r, h') /\ later h h' /\ Q r F' /\ forest h' F' K.

Lemma allowed_later h h' : allowed h -> later h h' -> allowed h'.
Proof. intros Ha Hl Hm. apply Ha, (later_may_fail h h' Hl Hm). Qed.

(** A call that makes an item. *)
Lemma refines_made c F new :
  (forall h, rep h (roots F) (list_texts F ++ K) -> Forall tree_ok F -> exists p h', exec c h = Ret (p, h') /\ later h h' /\
    (p = 0 /\ may_fail h /\ rep h' (roots F) (list_texts F ++ K) \/
     exists t, root t = p /\ p <> 0 /\ new p t /\ tree_ok t /\ rep h' (cells 0 0 t ++ roots F) (tree_texts t ++ list_texts F ++ K))) ->
  refines c F (made short F new).
Proof.
  intros Hop h [Hr Hok] Ha. destruct (Hop h Hr Hok) as (p & h' & E & Hl & [(-> & Hm & Hr')|(t & Ht & Hp & Hn & Hto & Hr')]).
  - exists 0, h', F. split_and!; [done|done|left; auto|done].
  - exists p, h', (t :: F). split_and!; [done|done|right; split; [done|by exists t]|]. split; [|by apply Forall_cons]. by rewrite roots_cons, list_texts_cons, <- app_assoc.
Qed.

(** A call that only looks. *)
Lemma refines_read c r F : (forall h, forest h F K -> exec c h = Ret (r, h)) -> refines c F (exactly r F).
Proof. intros Hop h Hf _. exists r, h, F. split_and!; [by apply Hop|apply later_refl|done|done]. Qed.

(** A call that puts [t'] and the trees [G] in the place of [t] and [F]. *)
Lemma refines_change c C t t' F G r :
  root t' = root t -> (tree_ok t -> Forall tree_ok F -> tree_ok t' /\ Forall tree_ok G) ->
  (forall pv nx h L T, rep h (cells pv nx t ++ roots F ++ L) (tree_texts t ++ list_texts F ++ T) -> tree_ok t -> Forall tree_ok F ->
    exists h', exec c h = Ret (r, h') /\ answers h' = answers h /\ rep h' (cells pv nx t' ++ roots G ++ L) (tree_texts t' ++ list_texts G ++ T)) ->
  refines c (fill C t :: F) (exactly r (fill C t' :: G)).
Proof.
  intros Hroot Hto Hop h Hf Ha. destruct (forest_at h C t F K Hf) as (pv & nx & L & T & Hr & Hok & HF & Hback). destruct (Hto Hok HF) as [Hok' HG].
  destruct (Hop pv nx h L (T ++ K)) as (h' & E & A & Hr'); [reorder Hr|done|done|]. exists r, h', (fill C t' :: G). split_and!; [done|by apply later_eq|done|].
  apply (Hback h' t' G Hroot); [|done|done]. reorder Hr'.
Qed.

Lemma refines_order c F G Q : F ≡ₚ G -> refines c G Q -> refines c F Q.
Proof. intros HF Hop h Hf. apply Hop. by rewrite <- HF. Qed.
Lemma refines_result c F r G G' : G ≡ₚ G' -> refines c F (exactly r G) -> refines c F (exactly r G').
Proof. intros HG Hop h Hf Ha. destruct (Hop h Hf Ha) as (r' & h' & F' & E & Hl & [-> ->] & Hf'). exists r, h', G'. split_and!; [done|done|done|by rewrite <- HG]. Qed.

(** *** Making items *)
Lemma refines_simple c t F : simple_type c = Some t -> refines c F (made short F (fun r new => new = Tree r (plain t) [])).
Proof.
  intros Ht. apply refines_made. intros h Hr _. assert (exec c h = create (with_type t) h /\ has_flag t cJSON_IsReference = false) as [-> Hf].
  { destruct c as [| | |[]| | | | | | | | | | | | | | | | | | | | | | |]; cbn in Ht; simplify_eq; by split. }
  destruct (create_item_ok (with_type t) (plain t) h _ _ Hr) as (p & h' & E & Hl & Hc); [unfold cell, is_ref; cbn; by rewrite Hf|].
  exists p, h'. split_and!; [done|done|]. destruct Hc as [Hc|[Hp Hc]]; [by left|right]. exists (Tree p (plain t) []). split_and!; [done|done|done| |done]. apply tree_ok_Tree. split; [by apply plain_ok|done].
Qed.
Lemma refines_number d F : d <> NaN -> refines (CreateNumber d) F (made short F (fun r new => exists i, saturate d = Ret i /\ new = Tree r (mkLabel cJSON_Number Nothing i d Nothing 0) [])).
Proof.
  intros Hd. apply refines_made. intros h Hr _. destruct (create_number_ok d h _ _ Hr Hd) as (i & p & h' & Ei & E & Hl & Hc). exists p, h'. split_and!; [done|done|].
  destruct Hc as [Hc|[Hp Hc]]; [by left|right]. eexists. split_and!; [| |exists i; by split| |exact Hc]; [done|done|]. by repeat split.
Qed.
Lemma refines_text c t s x F : (forall h, exec c h = create_text t s h) -> has_flag t cJSON_IsReference = false -> has_flag t cJSON_StringIsConst = false -> holds K s x ->
  refines c F (made short F (fun r new => exists q, new = Tree r (mkLabel t (Owned q (x ++ [0])) 0 (Fin false 0 0) Nothing 0) [])).
Proof.
  intros Hc H1 H2 Hs. apply refines_made. intros h Hr _. destruct (create_text_ok t s x h _ _ Hr (holds_more _ _ _ _ Hs)) as (p & h' & E & Hl & Hq).
  exists p, h'. rewrite Hc. split_and!; [done|done|]. destruct Hq as [Hq|(q & Hp & Hq)]; [by left|right]. eexists. split_and!; [| |by exists q| |exact Hq]; [done|done|].
  apply tree_ok_Tree. split; [|done]. split; unfold is_ref, is_const; cbn; congruence.
Qed.
Lemma refines_duplicate c t F : own_tree t -> refines (Duplicate (root t)) (fill c t :: F) (made short (fill c t :: F) (fun _ new => copy_of t new)).
Proof.
  intros Hown h Hf Ha. destruct (forest_at h c t F K Hf) as (pv & nx & L & T & Hr & Hok & HF & Hback).
  destruct (duplicate_ok t (heap_fuel h) Hok Hown) with (pv := pv) (nx := nx) (h := h) (L := L ++ roots F) (T := T ++ list_texts F ++ K)
    as (q & h' & E & Hl & [(-> & Hm & Hr')|(t' & Eq & Hq & Hc & Hok' & Hr')]); [rewrite (rep_fuel _ _ _ Hr), length_app, !cells_cell; cbn [length]; lia|exact Hr|..].
  - exists 0, h', (fill c t :: F). split_and!; [exact E|done|left; auto|by apply (Hback h' t F)].
  - exists q, h', (t' :: fill c t :: F). split_and!; [exact E|done|right; split; [done|by exists t']|].
    eapply forest_proper; [apply perm_swap|reflexivity|]. apply (Hback h' t (t' :: F)); [done| |done|by apply Forall_cons]. rewrite roots_cons, list_texts_cons. reorder Hr'.
Qed.

(** *** Looking *)
Lemma tree_at h C t F : forest h (fill C t :: F) K -> exists pv nx L, rep h (cells pv nx t ++ L) (list_texts (fill C t :: F) ++ K) /\ tree_ok t.
Proof.
  intros Hf. destruct (forest_at h C t F K Hf) as (pv & nx & L & T & Hr & Hok & HF & Hback). exists pv, nx, (L ++ roots F). split; [|done].
  destruct Hf as [[H1 H2 H3 H4 H5 H6] _], Hr as [R1 R2 R3 R4 R5 R6]. split; try done. rewrite Forall_app in *. tauto.
Qed.

Lemma refines_size C a x l F : is_ref x = false -> refines (GetArraySize a) (fill C (Tree a x l) :: F) (exactly (s32 (zlen l)) (fill C (Tree a x l) :: F)).
Proof.
  intros Hx. apply refines_read. intros h (pv & nx & L & Hr & _)%tree_at. cbn [exec]. by rewrite (get_array_size_ok pv nx a x Hx l h _ _ Hr).
Qed.
Lemma refines_index C a x l k F : is_ref x = false -> refines (GetArrayItem a k) (fill C (Tree a x l) :: F) (exactly (if k <? 0 then 0 else first (zdrop k l) 0) (fill C (Tree a x l) :: F)).
Proof.
  intros Hx. apply refines_read. intros h (pv & nx & L & Hr & _)%tree_at. cbn [exec]. unfold cJSON_GetArrayItem. destruct (Z.ltb_spec k 0); [done|].
  by rewrite (get_array_item_ok pv nx a x Hx l k h _ _ Hr).
Qed.

Lemma found_ok h C a x l1 t l2 s cs F : is_ref x = false -> forest h (fill C (Tree a x (l1 ++ t :: l2)) :: F) K -> found_at K (fill C (Tree a x (l1 ++ t :: l2)) :: F) s cs l1 t l2 ->
  get_object_item a s cs h = Ret (root t).
Proof.
  intros Hx (pv & nx & L & Hr & _)%tree_at (nm & n1 & n & n2 & Hs & Hn & Hlen & Hsame & Hno).
  rewrite (get_object_item_ok pv nx a x _ _ cs s nm h L _ Hx Hr (holds_more _ _ _ _ Hs) Hn). by rewrite find_name_at.
Qed.
Lemma not_found_ok h C a x l s cs F : is_ref x = false -> forest h (fill C (Tree a x l) :: F) K -> not_found K (fill C (Tree a x l) :: F) s cs l ->
  get_object_item a s cs h = Ret 0.
Proof.
  intros Hx (pv & nx & L & Hr & _)%tree_at (nm & names & Hs & Hn & Hno).
  rewrite (get_object_item_ok pv nx a x _ _ cs s nm h L _ Hx Hr (holds_more _ _ _ _ Hs) Hn). by rewrite find_name_none.
Qed.
Lemma refines_find C a x l1 t l2 s cs F : is_ref x = false -> found_at K (fill C (Tree a x (l1 ++ t :: l2)) :: F) s cs l1 t l2 ->
  refines (GetObjectItem a s cs) (fill C (Tree a x (l1 ++ t :: l2)) :: F) (exactly (root t) (fill C (Tree a x (l1 ++ t :: l2)) :: F)).
Proof. intros Hx Hs. apply refines_read. intros h Hf. pose proof (found_ok h C a x l1 t l2 s cs F Hx Hf Hs) as E. unfold exec. by destruct cs; [unfold cJSON_GetObjectItemCaseSensitive|unfold cJSON_GetObjectItem]; rewrite E. Qed.
Lemma refines_find_none C a x l s cs F : is_ref x = false -> not_found K (fill C (Tree a x l) :: F) s cs l ->
  refines (GetObjectItem a s cs) (fill C (Tree a x l) :: F) (exactly 0 (fill C (Tree a x l) :: F)).
Proof. intros Hx Hs. apply refines_read. intros h Hf. pose proof (not_found_ok h C a x l s cs F Hx Hf Hs) as E. unfold exec. by destruct cs; [unfold cJSON_GetObjectItemCaseSensitive|unfold cJSON_GetObjectItem]; rewrite E. Qed.

(** *** Changing *)
Lemma kids_ok x l l' : label_ok x l -> is_ref x = false -> label_ok x l'.
Proof. intros [H1 H2 H3 H4] Hx. split; try done. congruence. Qed.

(** A call that does the same as another one. *)
Lemma refines_same c c' F Q : (forall h, forest h F K -> exec c h = exec c' h) -> refines c' F Q -> refines c F Q.
Proof. intros E Hop h Hf Ha. rewrite E by done. by apply Hop. Qed.
(** One that deletes the tree another one answers. *)
Lemma refines_and_delete c c' F t G : (forall h, exec c h = unit_answer (let! (p, h) := exec c' h in cJSON_Delete p h)) ->
  refines c' F (exactly (root t) (t :: G)) -> refines c F (exactly 0 G).
Proof.
  intros E Hop h Hf Ha. destruct (Hop h Hf Ha) as (r & h1 & F' & E1 & Hl & [-> ->] & [Hr Hok]). apply Forall_cons in Hok as [Ht HG]. rewrite roots_cons, list_texts_cons, <- app_assoc in Hr.
  destruct (cJSON_Delete_ok t h1 _ _ Hr Ht) as (h2 & E2 & Hr2 & A). exists 0, h2, G. rewrite E, E1, ret_bind, E2. split_and!; [done|apply (later_trans h h1); [done|by apply later_eq]|done|done].
Qed.

Lemma refines_delete t F : refines (Delete (root t)) (t :: F) (exactly 0 F).
Proof.
  intros h [Hr Hok] Ha. apply Forall_cons in Hok as [Ht HF]. rewrite roots_cons, list_texts_cons, <- app_assoc in Hr. destruct (cJSON_Delete_ok t h _ _ Hr Ht) as (h' & E & Hr' & A).
  exists 0, h', F. unfold exec. rewrite E. split_and!; [done|by apply later_eq|done|done].
Qed.

Section at_node.
Context (C : ctx) (a : Z) (x : label) (Hx : is_ref x = false).

(** The children [l] and the trees [F] become [l'] and [G]. *)
Lemma refines_kids c l l' F G r : Forall tree_ok l' /\ Forall tree_ok G <-> Forall tree_ok l /\ Forall tree_ok F -> list_texts l' ++ list_texts G ≡ₚ list_texts l ++ list_texts F ->
  (forall pv nx h L T, rep h (cells pv nx (Tree a x l) ++ roots F ++ L) T ->
    exists h', exec c h = Ret (r, h') /\ rep h' (cells pv nx (Tree a x l') ++ roots G ++ L) T /\ answers h' = answers h) ->
  refines c (fill C (Tree a x l) :: F) (exactly r (fill C (Tree a x l') :: G)).
Proof.
  intros Hto Htx Hop. apply refines_change; [done| |].
  - rewrite !tree_ok_Tree. intros [Hxo Hl] HF. destruct (proj2 Hto) as [Hl' HG]; [done|]. split_and!; [by apply (kids_ok x l)|done|done].
  - intros pv nx h L T Hr _ _. destruct (Hop pv nx h L _ Hr) as (h' & E & Hr' & A). exists h'. split_and!; [done|done|].
    eapply rep_perm; [exact Hr'|done|]. rewrite !texts_Tree, <- !app_assoc, (app_assoc (list_texts l')), Htx. solve_Permutation.
Qed.

Lemma refines_add l i F : refines (AddItemToArray a (root i)) (fill C (Tree a x l) :: i :: F) (exactly 0 (fill C (Tree a x (l ++ [i])) :: F)).
Proof.
  apply refines_kids.
  - rewrite Forall_app, !Forall_cons, Forall_nil. tauto.
  - rewrite list_texts_app, !list_texts_cons. cbn [list_texts flat_map]. solve_Permutation.
  - intros pv nx h L T Hr. rewrite roots_cons, <- app_assoc in Hr. destruct (add_ok pv nx a x Hx l i h _ T Hr) as (h' & E & Hr' & A). exists h'. unfold exec. by rewrite E.
Qed.
Lemma refines_insert l k i F : 0 <= k -> refines (InsertItemInArray a k (root i)) (fill C (Tree a x l) :: i :: F) (exactly 0 (fill C (Tree a x (ztake k l ++ i :: zdrop k l)) :: F)).
Proof.
  intros Hk. assert (l = ztake k l ++ zdrop k l) as El by (by rewrite ztake_zdrop). apply refines_kids.
  - assert (Forall tree_ok l <-> Forall tree_ok (ztake k l) /\ Forall tree_ok (zdrop k l)) as -> by (by rewrite <- Forall_app, <- El). rewrite !Forall_app, !Forall_cons. tauto.
  - assert (list_texts l = list_texts (ztake k l) ++ list_texts (zdrop k l)) as -> by (by rewrite <- list_texts_app, <- El). rewrite !list_texts_app, !list_texts_cons. solve_Permutation.
  - intros pv nx h L T Hr. rewrite roots_cons, <- app_assoc in Hr. destruct (insert_ok pv nx a x Hx l k i h _ T Hr Hk) as (h' & E & Hr' & A). exists h'. unfold exec. by rewrite E.
Qed.
Lemma refines_detach l1 t l2 F : refines (DetachItemViaPointer a (root t)) (fill C (Tree a x (l1 ++ t :: l2)) :: F) (exactly (root t) (t :: fill C (Tree a x (l1 ++ l2)) :: F)).
Proof.
  eapply refines_result; [apply perm_swap|]. apply refines_kids.
  - rewrite !Forall_app, !Forall_cons. tauto.
  - rewrite !list_texts_app, !list_texts_cons. solve_Permutation.
  - intros pv nx h L T Hr. destruct (detach_ok pv nx a x Hx l1 t l2 h _ T Hr) as (h' & E & Hr' & A). exists h'. rewrite roots_cons, <- app_assoc. by split_and!.
Qed.
Lemma item_index h l1 t l2 F : forest h (fill C (Tree a x (l1 ++ t :: l2)) :: F) K -> get_array_item a (zlen l1) h = Ret (root t).
Proof. intros (pv & nx & L & Hr & _)%tree_at. rewrite (get_array_item_ok pv nx a x Hx _ _ h _ _ Hr) by apply zlen_nonneg. by rewrite zdrop_app_exact. Qed.
Lemma refines_detach_index l1 t l2 F : refines (DetachItemFromArray a (zlen l1)) (fill C (Tree a x (l1 ++ t :: l2)) :: F) (exactly (root t) (t :: fill C (Tree a x (l1 ++ l2)) :: F)).
Proof.
  apply (refines_same _ (DetachItemViaPointer a (root t))); [|apply refines_detach]. intros h Hf. cbn [exec]. unfold cJSON_DetachItemFromArray.
  rewrite (proj2 (Z.ltb_ge _ 0)) by apply zlen_nonneg. by rewrite (item_index h l1 t l2 F Hf).
Qed.
Lemma refines_detach_name l1 t l2 s F : found_at K (fill C (Tree a x (l1 ++ t :: l2)) :: F) s false l1 t l2 ->
  refines (DetachItemFromObject a s) (fill C (Tree a x (l1 ++ t :: l2)) :: F) (exactly (root t) (t :: fill C (Tree a x (l1 ++ l2)) :: F)).
Proof.
  intros Hs. apply (refines_same _ (DetachItemViaPointer a (root t))); [|apply refines_detach]. intros h Hf. cbn [exec]. unfold cJSON_DetachItemFromObject, cJSON_GetObjectItem.
  by rewrite (found_ok h C a x l1 t l2 s false F Hx Hf Hs).
Qed.
Lemma refines_detach_outside l k F : k < 0 \/ zlen l <= k -> refines (DetachItemFromArray a k) (fill C (Tree a x l) :: F) (exactly 0 (fill C (Tree a x l) :: F)).
Proof.
  intros Hk. apply refines_read. intros h (pv & nx & L & Hr & _)%tree_at. cbn [exec]. unfold cJSON_DetachItemFromArray. destruct (Z.ltb_spec k 0); [done|].
  rewrite (get_array_item_ok pv nx a x Hx _ _ h _ _ Hr) by done. rewrite zdrop_all by lia. cbn. unfold cJSON_DetachItemViaPointer. by rewrite orb_true_r.
Qed.

Lemma refines_replace l1 t l2 r F : refines (ReplaceItemViaPointer a (root t) (root r)) (fill C (Tree a x (l1 ++ t :: l2)) :: r :: F) (exactly 1 (fill C (Tree a x (l1 ++ r :: l2)) :: F)).
Proof.
  apply refines_change; [done| |].
  - rewrite !tree_ok_Tree, !Forall_app, !Forall_cons. intros (Hxo & Hl1 & Ht & Hl2) (Hr & HF). split_and!; try done. by apply (label_ok_any x _ _ Hxo); destruct l1.
  - intros pv nx h L T Hr [_ Ht]%tree_ok_Tree _. apply Forall_app in Ht as [_ Ht]. apply Forall_cons in Ht as [Ht _]. rewrite roots_cons, <- app_assoc in Hr.
    destruct (replace_ok pv nx a x Hx l1 t l2 r h (roots F ++ L) (own (l_valuestring x) ++ own (l_string x) ++ list_texts l1 ++ tree_texts r ++ list_texts l2 ++ list_texts F ++ T)) as (h' & E & Hr' & A); [|done|].
    { eapply rep_perm; [exact Hr|done|]. rewrite texts_Tree, list_texts_app, !list_texts_cons. solve_Permutation. }
    exists h'. unfold exec. rewrite E. split_and!; [done|done|]. eapply rep_perm; [exact Hr'|done|]. rewrite texts_Tree, list_texts_app, !list_texts_cons. solve_Permutation.
Qed.
Lemma refines_replace_index l1 t l2 r F : refines (ReplaceItemInArray a (zlen l1) (root r)) (fill C (Tree a x (l1 ++ t :: l2)) :: r :: F) (exactly 0 (fill C (Tree a x (l1 ++ r :: l2)) :: F)).
Proof.
  intros h Hf Ha. destruct (refines_replace l1 t l2 r F h Hf Ha) as (r' & h' & F' & E & Hl & [-> ->] & Hf'). exists 0, h', (fill C (Tree a x (l1 ++ r :: l2)) :: F).
  split_and!; [|done|done|done]. cbn [exec] in *. unfold cJSON_ReplaceItemInArray. rewrite (proj2 (Z.ltb_ge _ 0)) by apply zlen_nonneg. rewrite (item_index h l1 t l2 (r :: F) Hf), ret_bind.
  destruct (cJSON_ReplaceItemViaPointer a (root t) (root r) h) as [[ok h'']| | |]; cbn in E; simplify_eq. done.
Qed.

(** *** Adding members *)
Lemma named_ok y k t f : label_ok y k -> has_flag t cJSON_IsReference = is_ref y ->
  (has_flag t cJSON_StringIsConst = true -> own f = []) -> (has_flag t cJSON_StringIsConst = false -> forall a, f <> Shared a) -> label_ok (named y t f) k.
Proof. intros [H1 H2 H3 H4] Ht. split; unfold is_ref, is_const in *; cbn; try rewrite Ht; done. Qed.

(** Texts of an item that come or go with its name. *)
Lemma texts_member p y k l t f F T : own (l_string y) ++ own (l_valuestring x) ++ own (l_string x) ++ list_texts l ++ own (l_valuestring y) ++ list_texts k ++ list_texts F ++ T
    ≡ₚ tree_texts (Tree a x l) ++ list_texts (Tree p y k :: F) ++ T /\
  own f ++ own (l_valuestring x) ++ own (l_string x) ++ list_texts l ++ own (l_valuestring y) ++ list_texts k ++ list_texts F ++ T
    ≡ₚ tree_texts (Tree a x (l ++ [Tree p (named y t f) k])) ++ list_texts F ++ T.
Proof.
  rewrite !texts_Tree, list_texts_app, !list_texts_cons, !texts_Tree. cbn [list_texts flat_map named l_valuestring l_string]. split; solve_Permutation.
Qed.

Lemma refines_add_const l p y k s F : s <> 0 ->
  refines (AddItemToObjectCS a s p) (fill C (Tree a x l) :: Tree p y k :: F)
    (exactly 0 (fill C (Tree a x (l ++ [Tree p (named y (Z.lor (l_type y) cJSON_StringIsConst) (Shared s)) k])) :: F)).
Proof.
  intros Hs. apply refines_change; [done| |].
  - intros [Hxo Hl]%tree_ok_Tree [[Hy Hk]%tree_ok_Tree HF]%Forall_cons. split; [|done]. apply tree_ok_Tree. split; [by apply (kids_ok x l)|].
    apply Forall_app. split; [done|]. apply Forall_cons. split; [|done]. apply tree_ok_Tree. split; [|done]. apply named_ok; [done|by apply flag_other|done|]. by rewrite flag_set.
  - intros pv nx h L T Hr _ [[Hy _]%tree_ok_Tree _]%Forall_cons.
    destruct (texts_member p y k l (Z.lor (l_type y) cJSON_StringIsConst) (Shared s) F T) as [T1 T2].
    rewrite <- T1, roots_cons, <- app_assoc in Hr. destruct (add_object_cs_ok pv nx a x l p y k s h _ _ Hx Hr Hy Hs) as (h' & E & A & Hr'). exists h'. unfold exec. rewrite E. by rewrite <- T2.
Qed.

Lemma refines_add_object l p y k s nm F : holds K s nm -> short = false \/ is_const y = false ->
  refines (AddItemToObject a s p) (fill C (Tree a x l) :: Tree p y k :: F) (fun r F' => r = 0 /\
    (short = true /\ F' = fill C (Tree a x l) :: Tree p (named y (clear_flag (l_type y)) (l_string y)) k :: F \/
     exists q, F' = fill C (Tree a x (l ++ [Tree p (named y (clear_flag (l_type y)) (Owned q (nm ++ [0]))) k])) :: F)).
Proof.
  intros Hs Hshort h Hf Ha. destruct (forest_at h C _ _ K Hf) as (pv & nx & L & T & Hr & Hok & HF & Hback). pose proof Hok as [Hxo Hl]%tree_ok_Tree. pose proof HF as [Hi HF']%Forall_cons.
  pose proof Hi as [Hy Hk]%tree_ok_Tree. pose proof (fun f => proj1 (texts_member p y k l (clear_flag (l_type y)) f F (T ++ K))) as T1. pose proof (fun f => proj2 (texts_member p y k l (clear_flag (l_type y)) f F (T ++ K))) as T2.
  set (R := own (l_valuestring x) ++ own (l_string x) ++ list_texts l ++ own (l_valuestring y) ++ list_texts k ++ list_texts F ++ T ++ K) in *.
  assert (holds (own (l_string y) ++ R) s nm) as Hs' by (unfold R; rewrite !app_assoc; by apply holds_more).
  destruct (add_object_ok pv nx a x l p y k s nm h (L ++ roots F) R) as (h' & E & Hlt & Hres); [done| |done|done|].
  { eapply rep_perm; [exact Hr|rewrite roots_cons; solve_Permutation|]. rewrite (T1 Nothing). solve_Permutation. }
  exists 0, h'. unfold exec. rewrite E. destruct Hres as [[Hm Hr']|[q Hr']].
  - eexists. split_and!; [done|done|done|left; split; [by apply Ha|done]|]. apply (Hback h' (Tree a x l)); [done| |done|].
    + eapply rep_perm; [exact Hr'|rewrite roots_cons; solve_Permutation|]. rewrite (T1 Nothing), !list_texts_cons, !texts_Tree. cbn [named l_valuestring l_string]. solve_Permutation.
    + apply Forall_cons. split; [|done]. apply tree_ok_Tree. split; [|done]. apply named_ok; [done|apply flag_clear_ref|by rewrite flag_clear_const|]. intros _.
      destruct Hshort as [Hshort|Hc]; [by rewrite Ha in Hshort|]. by apply (const_not _ _ Hy).
  - eexists. split_and!; [done|done|done|right; by exists q|]. apply (Hback h' (Tree a x _)); [done| | |done].
    + eapply rep_perm; [exact Hr'|solve_Permutation|]. etrans; [exact (T2 (Owned q (nm ++ [0])))|solve_Permutation].
    + apply tree_ok_Tree. split; [by apply (kids_ok x l)|]. apply Forall_app. split; [done|]. apply Forall_cons. split; [|done]. apply tree_ok_Tree. split; [|done].
      apply named_ok; [done|apply flag_clear_ref|by rewrite flag_clear_const|done].
Qed.

(** The replacement of a member, and its name. *)
Lemma named_tree_ok p y k f nm h : tree_ok (Tree p y k) -> renamed h nm f -> tree_ok (Tree p (named y (clear_flag (l_type y)) f) k).
Proof.
  intros [Hy Hk]%tree_ok_Tree Hf. apply tree_ok_Tree. split; [|done]. apply named_ok; [done|apply flag_clear_ref|by rewrite flag_clear_const|]. intros _ b ->. by destruct Hf as [[? _]|[q ?]].
Qed.
Lemma renamed_new h s nm f : allowed h -> holds K s nm -> renamed h nm f -> new_name K short s f.
Proof. intros Ha Hs [[-> Hm]|[q ->]]; [left; split; [done|by apply Ha]|right; by exists q, nm]. Qed.
Lemma exec_replace o s i cs h : exec (ReplaceItemInObject o s i cs) h = let! (_, h) := replace_item_in_object o s i cs h in Ret (0, h).
Proof. cbn [exec]. unfold cJSON_ReplaceItemInObjectCaseSensitive, cJSON_ReplaceItemInObject. by destruct cs, (replace_item_in_object o s i _ h) as [[]| | |]. Qed.

(** The texts around a node, without those of the first tree beside it. *)
Lemma texts_beside h C' t i F pv nx L T : forest h (fill C' t :: i :: F) K -> rep h (cells pv nx t ++ L ++ roots (i :: F)) (tree_texts t ++ T ++ list_texts (i :: F) ++ K) ->
  list_texts (fill C' t :: F) ++ K ≡ₚ tree_texts t ++ T ++ list_texts F ++ K.
Proof.
  intros [Hf _] Hr. pose proof (rep_texts_perm _ _ _ _ _ Hf Hr) as HT. rewrite !list_texts_cons in *.
  apply (Permutation_app_inv_r (tree_texts i)). etrans; [|etrans; [exact HT|]]; solve_Permutation.
Qed.

Lemma refines_replace_name l1 t l2 p y k s cs F : found_at K (fill C (Tree a x (l1 ++ t :: l2)) :: F) s cs l1 t l2 ->
  refines (ReplaceItemInObject a s p cs) (fill C (Tree a x (l1 ++ t :: l2)) :: Tree p y k :: F) (fun r F' => r = 0 /\ exists f, new_name K short s f /\
    F' = fill C (Tree a x (l1 ++ Tree p (named y (clear_flag (l_type y)) f) k :: l2)) :: F).
Proof.
  intros (nm & n1 & n & n2 & Hs & Hn & Hlen & Hsame & Hno) h Hf Ha. destruct (forest_at h C _ _ K Hf) as (pv & nx & L & T & Hr & Hok & HF & Hback).
  pose proof (texts_beside _ _ _ _ _ _ _ _ _ Hf Hr) as HT. apply Forall_cons in HF as [Hi HF]. pose proof Hi as [Hy Hk]%tree_ok_Tree. pose proof Hok as [Hxo Hl]%tree_ok_Tree.
  pose proof Hl as [Hl1 [Ht Hl2]%Forall_cons]%Forall_app.
  set (U := (own (l_valuestring y) ++ list_texts k) ++ (own (l_valuestring x) ++ own (l_string x) ++ list_texts l1 ++ list_texts l2) ++ T ++ list_texts F ++ K).
  assert (tree_texts t ++ U ≡ₚ (own (l_valuestring y) ++ list_texts k) ++ list_texts (fill C (Tree a x (l1 ++ t :: l2)) :: F) ++ K) as HU.
  { rewrite HT. unfold U. rewrite texts_Tree, list_texts_app, list_texts_cons. solve_Permutation. }
  destruct (replace_name_ok pv nx a x l1 t l2 n1 n n2 p y k cs s nm h (L ++ roots F) U Hx) as (f & h' & E & Hlt & Hf' & Hr'); try done.
  - eapply rep_perm; [exact Hr|rewrite roots_cons; solve_Permutation|]. unfold U. rewrite !texts_Tree, list_texts_app, !list_texts_cons, texts_Tree. solve_Permutation.
  - eapply holds_perm; [symmetry; exact HU|]. rewrite app_assoc. by apply holds_more.
  - eapply has_names_perm; [symmetry; exact HU|]. by apply has_names_more.
  - exists 0, h'. eexists. rewrite exec_replace, E. split_and!; [done|done|done|exists f; split; [by apply (renamed_new h s nm)|done]|]. apply Hback; [done| | |done].
    + eapply rep_perm; [exact Hr'|solve_Permutation|]. unfold U. rewrite !texts_Tree, list_texts_app, !list_texts_cons, texts_Tree. cbn [named l_valuestring l_string]. solve_Permutation.
    + apply tree_ok_Tree. split; [by apply (kids_ok x (l1 ++ t :: l2))|]. apply Forall_app. split; [done|]. apply Forall_cons. split; [by apply (named_tree_ok p y k f nm h)|done].
Qed.

Lemma refines_replace_no_name l p y k s cs F : not_found K (fill C (Tree a x l) :: F) s cs l ->
  refines (ReplaceItemInObject a s p cs) (fill C (Tree a x l) :: Tree p y k :: F) (fun r F' => r = 0 /\ exists f, new_name K short s f /\
    F' = fill C (Tree a x l) :: Tree p (named y (clear_flag (l_type y)) f) k :: F).
Proof.
  intros (nm & names & Hs & Hn & Hno) h Hf Ha. destruct (forest_at h C _ _ K Hf) as (pv & nx & L & T & Hr & Hok & HF & Hback).
  pose proof (texts_beside _ _ _ _ _ _ _ _ _ Hf Hr) as HT. apply Forall_cons in HF as [Hi HF]. pose proof Hi as [Hy Hk]%tree_ok_Tree.
  set (U := (own (l_valuestring y) ++ list_texts k) ++ tree_texts (Tree a x l) ++ T ++ list_texts F ++ K).
  destruct (replace_no_name_ok pv nx a x l names p y k cs s nm h (L ++ roots F) U Hx) as (f & h' & E & Hlt & Hf' & Hr'); try done.
  - eapply rep_perm; [exact Hr|rewrite roots_cons; solve_Permutation|]. unfold U. rewrite !list_texts_cons, (texts_Tree p). solve_Permutation.
  - unfold U. apply holds_more. eapply holds_perm; [exact HT|]. by apply holds_more.
  - unfold U. apply has_names_more. by eapply has_names_perm; [exact HT|].
  - exists 0, h'. eexists. rewrite exec_replace, E. split_and!; [done|done|done|exists f; split; [by apply (renamed_new h s nm)|done]|]. apply (Hback h' (Tree a x l)); [done| |done|].
    + eapply rep_perm; [exact Hr'|rewrite roots_cons; solve_Permutation|]. unfold U. rewrite !list_texts_cons, (texts_Tree p). cbn [named l_valuestring l_string]. solve_Permutation.
    + apply Forall_cons. split; [by apply (named_tree_ok p y k f nm h)|done].
Qed.
Lemma refines_reference l p y k F :
  refines (AddItemReferenceToArray a p) (fill C (Tree a x l) :: Tree p y k :: F) (fun r F' => r = 0 /\
    (short = true /\ F' = fill C (Tree a x l) :: Tree p y k :: F \/
     exists q, F' = fill C (Tree a x (l ++ [Tree q (reference_to y (if is_ref y then l_child y else first k 0)) []])) :: Tree p y k :: F)).
Proof.
  intros h Hf Ha. destruct (forest_at h C _ _ K Hf) as (pv & nx & L & T & Hr & Hok & HF & Hback). pose proof Hok as [Hxo Hl]%tree_ok_Tree.
  set (TT := tree_texts (Tree a x l) ++ T ++ list_texts (Tree p y k :: F) ++ K) in *.
  assert (rep h (cells 0 0 (Tree p y k) ++ cells pv nx (Tree a x l) ++ L ++ roots F) TT) as Hr1 by (rewrite roots_cons in Hr; reorder Hr).
  destruct (create_reference_ok 0 0 p y k h _ _ Hr1) as (r & h1 & E1 & Hl1 & Hc). cbn [exec]. unfold cJSON_AddItemReferenceToArray.
  assert (a <> 0) as Ha0 by (rewrite cells_Tree in Hr; apply (rep_ptr _ _ _ _ _ Hr)). rewrite (proj2 (Z.eqb_neq a 0)), E1, ret_bind by done. destruct Hc as [(-> & Hm & Hr2)|[Hq Hr2]].
  - unfold cJSON_AddItemToArray. cbn. exists 0, h1. eexists. split_and!; [done|done|done|left; split; [by apply Ha|done]|].
    apply (Hback h1 (Tree a x l)); [done| |done|done]. rewrite roots_cons. reorder Hr2.
  - set (i := Tree r (reference_to y (if is_ref y then l_child y else first k 0)) []).
    destruct (add_ok pv nx a x Hx l i h1 (cells 0 0 (Tree p y k) ++ L ++ roots F) TT) as (h2 & E2 & Hr3 & A2).
    { unfold i. cbn [n_child cell] in Hr2. reorder Hr2. }
    cbn [root i] in E2. unfold i in E2. cbn [root] in E2. rewrite E2. exists 0, h2. eexists. split_and!; [done|apply (later_trans h h1); [done|by apply later_eq]|done|right; by exists r|].
    apply (Hback h2 (Tree a x (l ++ [i]))); [done| | |done].
    + eapply rep_perm; [exact Hr3|rewrite roots_cons; solve_Permutation|]. unfold TT, i. rewrite !texts_Tree, list_texts_app, !list_texts_cons, texts_Tree. unfold reference_to. cbn.
      destruct (l_valuestring y); cbn; rewrite app_nil_r; solve_Permutation.
    + apply tree_ok_Tree. split; [by apply (kids_ok x l)|]. apply Forall_app. split; [done|]. apply Forall_cons. split; [|done]. apply tree_ok_Tree. split; [|done]. apply reference_label_ok.
Qed.
End at_node.

Lemma spec_refines c F Q : spec K short c F Q -> refines c F Q.
Proof.
  induction 1.
  - by apply (refines_order c F G).
  - by apply refines_simple.
  - by apply refines_number.
  - by apply (refines_text _ _ s).
  - by apply (refines_text _ _ s).
  - apply refines_delete.
  - by apply refines_size.
  - by apply refines_index.
  - by apply refines_find.
  - by apply refines_find_none.
  - by apply refines_add.
  - by apply refines_add_object.
  - by apply refines_add_const.
  - by apply refines_reference.
  - by apply refines_detach.
  - by apply refines_detach_index.
  - by apply refines_detach_outside.
  - eapply (refines_and_delete _ (DetachItemFromArray a (zlen l1))); [reflexivity|]. by apply refines_detach_index.
  - by apply refines_detach_name.
  - eapply (refines_and_delete _ (DetachItemFromObject a s)); [reflexivity|]. by apply refines_detach_name.
  - by apply refines_insert.
  - by apply refines_replace.
  - by apply refines_replace_index.
  - by apply refines_replace_name.
  - by apply refines_replace_no_name.
  - by apply refines_duplicate.
Qed.
End refinement.

(** C11. The tree functions of cJSON implement the specification on trees: a
    client that makes allowed calls only, on a heap that holds its trees and
    texts, runs to its end without following a pointer to what is not there,
    whatever allocations fail, and then the heap holds exactly the trees that
    the specification says, so that nothing is lost. *)
Theorem client_runs K short P c F h : safe K short P c F -> forest h F K -> (may_fail h -> short = true) ->
  exists h' F', run c h = Ret h' /\ P F' /\ forest h' F' K.
Proof.
  intros Hs. revert h. induction Hs as [F HF|c k F Q Hspec _ IH]; intros h Hf Ha; [by exists h, F|].
  destruct (spec_refines K short c F Q Hspec h Hf Ha) as (r & h1 & F' & E & Hl & HQ & Hf'). cbn [run]. rewrite E, ret_bind.
  apply (IH r F' HQ h1 Hf'). by apply (allowed_later short h h1).
Qed.

(** *** A client that builds <<{"x": "x"}>> and deletes it *)
Definition demo_client : client :=
  Call CreateObject (fun o => if o =? 0 then Done else
  Call (CreateString 5) (fun s => if s =? 0 then Call (Delete o) (fun _ => Done) else
  Call (AddItemToObject o 5 s) (fun _ =>
  Call (GetArraySize o) (fun n =>
  Call (Delete o) (fun _ => if n =? 0 then Call (Delete s) (fun _ => Done) else Done))))).
Definition demo_names : texts_t := [(5, [120; 0])].

Lemma demo_client_safe : safe demo_names true (fun F => F = []) demo_client [].
Proof.
  assert (holds demo_names 5 [120]) as Hx by (exists [120; 0]; split; [by left|reflexivity]).
  eapply safe_call; [by eapply (spec_simple _ _ _ cJSON_Object)|]. intros o F [(-> & _ & ->)|(Ho & t & Et & -> & ->)]; [by apply safe_done|]. rewrite (proj2 (Z.eqb_neq o 0)) by done.
  eapply safe_call; [by eapply spec_string|]. intros s F [(-> & _ & ->)|(Hs & t & Et' & [q ->] & ->)].
  { cbn [Z.eqb]. eapply safe_call; [exact (spec_delete _ _ (Tree o (plain cJSON_Object) []) [])|]. intros r F [-> ->]. by apply safe_done. }
  rewrite (proj2 (Z.eqb_neq s 0)) by done.
  eapply safe_call; [eapply spec_order; [apply perm_swap|]; apply (spec_add_object _ _ Top o (plain cJSON_Object) [] s _ [] 5 [120] []); [done|done|by right]|].
  intros r F [-> [[_ ->]|[q' ->]]]; cbn [fill].
  - eapply safe_call; [exact (spec_size _ _ Top o (plain cJSON_Object) [] _ eq_refl)|]. intros r F [-> ->].
    eapply safe_call; [exact (spec_delete _ _ (Tree o (plain cJSON_Object) []) _)|]. intros r F [-> ->]. cbn.
    eapply safe_call; [exact (spec_delete _ _ (Tree s _ []) [])|]. intros r F [-> ->]. by apply safe_done.
  - eapply safe_call; [exact (spec_size _ _ Top o (plain cJSON_Object) _ _ eq_refl)|]. intros r F [-> ->].
    eapply safe_call; [exact (spec_delete _ _ (Tree o (plain cJSON_Object) _) [])|]. intros r F [-> ->]. by apply safe_done.
Qed.

Lemma client_runs_witness : exists h' F', run demo_client (heap_of [] demo_names 10 [true; true; true; false]) = Ret h' /\ F' = [] /\ forest h' F' demo_names.
Proof.
  apply (client_runs demo_names true (fun F => F = []) demo_client []); [exact demo_client_safe| |done]. by apply heap_of_forest.
Defined.

(** The name of the caller's that an item shares ([cJSON_StringIsConst]) is
    taken for a block of the item's own when the copy of the new name fails:
    deleting the item then frees it. *)
Example add_object_frees_name :
  run (Call CreateNull (fun i => Call CreateObject (fun o => Call CreateObject (fun o' => Call (AddItemToObjectCS o 5 i) (fun _ =>
       Call (DetachItemViaPointer o i) (fun _ => Call (AddItemToObject o' 5 i) (fun _ => Call (Delete i) (fun _ => Call (CreateString 5) (fun _ => Done)))))))))
    (heap_of [] demo_names 10 [true; true; true; false]) = Undefined.
Proof. vm_compute. reflexivity. Qed.

(** Replacing a member that is not there: the answer is [true], and the
    replacement is in nothing. *)
Example replace_missing : exists h,
  (let! (o, h) := cJSON_CreateObject (heap_of [] demo_names 10 []) in let! (i, h) := cJSON_CreateNull h in
   let! (ok, h) := replace_item_in_object o 5 i true h in let! h := cJSON_Delete o h in Ret (ok, h)) = Ret (true, h) /\ size (nodes h) = 1%nat.
Proof. eexists. split; vm_compute; reflexivity. Qed.
