(* ===== verification/CJsonMinify.v ===== *)
(** * cJSON: minifying

    [cJSON_Minify] removes white space and comments from a text in place.  The
    relation [minifies] says what is removed; a JSON text keeps its value,
    and a comment may stand wherever white space may.  A literal or a comment
    without an end makes the code run past the end of the text. *)

From stdpp Require Import base tactics numbers list option strings sets.
From Stdlib Require Import Lia.
From S2P Require Import Prelude Double CJson CJsonSpec CJsonSafe CJsonGrammar.

(** ** The code *)

(** [*into++ = *json++]: what [json] reads at [j], [into] writes at [i]. *)
Definition copy (m : bytes) (j i : Z) : outcome (bytes * (Z * Z)) :=
  let! c := arr_get m j in let! m := arr_set m i c in Ret (m, (j + 1, i + 1)).

Fixpoint line_loop (n : nat) (m : bytes) (j : Z) : outcome Z :=
  match n with
  | O => OutOfFuel
  | S n => let! c := arr_get m j in if negb (c =? 0) && negb (c =? 10) then line_loop n m (j + 1) else Ret j
  end.

(** [json[0] == c && json[1] == d]. *)
Definition two (m : bytes) (j c d : Z) : outcome bool :=
  let! x := arr_get m j in if x =? c then let! y := arr_get m (j + 1) in Ret (y =? d) else Ret false.

Fixpoint comment_loop (n : nat) (m : bytes) (j : Z) : outcome Z :=
  match n with
  | O => OutOfFuel
  | S n =>
    let! c := arr_get m j in
    if c =? 0 then Ret j else
    let! close := two m j 42 47 in
    if close : bool then Ret j else comment_loop n m (j + 1)
  end.

Fixpoint literal_loop (n : nat) (m : bytes) (j i : Z) : outcome (bytes * (Z * Z)) :=
  match n with
  | O => OutOfFuel
  | S n =>
    let! c := arr_get m j in
    if negb (c =? 0) && negb (c =? 34) then
      let! (m, (j, i)) := if c =? 92 then copy m j i else Ret (m, (j, i)) in
      let! (m, (j, i)) := copy m j i in
      literal_loop n m j i
    else Ret (m, (j, i))
  end.

(** The [while] loop and the terminator. *)
Fixpoint minify_loop (n : nat) (m : bytes) (j i : Z) : outcome bytes :=
  match n with
  | O => OutOfFuel
  | S n =>
    let! c := arr_get m j in
    if c =? 0 then arr_set m i 0 else
    if (c =? 32) || (c =? 9) || (c =? 13) || (c =? 10) then minify_loop n m (j + 1) i else
    let! line := two m j 47 47 in
    if line : bool then let! j := line_loop (S (length m)) m j in minify_loop n m j i else
    let! block := two m j 47 42 in
    if block : bool then let! j := comment_loop (S (length m)) m j in minify_loop n m (j + 2) i else
    if c =? 34 then
      let! (m, (j, i)) := copy m j i in
      let! (m, (j, i)) := literal_loop (S (length m)) m j i in
      let! (m, (j, i)) := copy m j i in
      minify_loop n m j i
    else
      let! (m, (j, i)) := copy m j i in minify_loop n m j i
  end.
Definition cJSON_Minify (json : option bytes) : outcome (option bytes) :=
  match json with
  | None => Ret None
  | Some m => let! m := minify_loop (S (length m)) m 0 0 in Ret (Some m)
  end.

(** *** Texts without an end *)
Example minify_open_literal : cJSON_Minify (Some [34; 97; 0]) = Undefined.
Proof. vm_compute. reflexivity. Qed.
Example minify_open_comment : cJSON_Minify (Some [47; 42; 0]) = Undefined.
Proof. vm_compute. reflexivity. Qed.
(** The opening of a comment is searched for its end. *)
Example minify_short_comment : cJSON_Minify (Some [47; 42; 47; 49; 0]) = Ret (Some [49; 0; 47; 49; 0]).
Proof. vm_compute. reflexivity. Qed.

(** ** What is removed *)
Definition is_blank (c : Z) : Prop := c = 32 \/ c = 9 \/ c = 13 \/ c = 10.
#[export] Instance is_blank_dec c : Decision (is_blank c).
Proof. unfold is_blank. apply _. Defined.
(** [opens c t]: [c] and the text after it begin a comment. *)
Definition opens (c : Z) (t : bytes) : Prop := c = 47 /\ match t with d :: _ => d = 47 \/ d = 42 | [] => False end.
(** No end of a comment begins in [b] when [42 47] is behind it. *)
Fixpoint no_close (b : bytes) : Prop :=
  match b with c :: b => ~ (c = 42 /\ match b with d :: _ => d = 47 | [] => False end) /\ no_close b | [] => True end.

Inductive minifies : bytes -> bytes -> Prop :=
  | min_end : minifies [] []
  | min_blank c t u : is_blank c -> minifies t u -> minifies (c :: t) u
  | min_line b t u : Forall (fun c => c <> 10) b -> match t with c :: _ => c = 10 | [] => True end -> minifies t u -> minifies (47 :: 47 :: b ++ t) u
  | min_block b t u : no_close (42 :: b) -> minifies t u -> minifies (47 :: 42 :: b ++ 42 :: 47 :: t) u
  | min_literal s t u : scans s -> minifies t u -> minifies (34 :: s ++ 34 :: t) (34 :: s ++ 34 :: u)
  | min_other c t u : ~ is_blank c -> c <> 34 -> ~ opens c t -> minifies t u -> minifies (c :: t) (c :: u).

(** ** What the loops do *)

(** The text at [j], behind [o], what is written, and the gap [g]. *)
Lemma get_at (o g t : bytes) c : arr_get (o ++ g ++ c :: t) (zlen o + zlen g) = Ret c.
Proof. rewrite app_assoc, <- zlen_app. apply arr_get_middle. Qed.
Lemma two_at (o g t : bytes) c d x : two (o ++ g ++ c :: d :: t) (zlen o + zlen g) x 47 = Ret ((c =? x) && (d =? 47)) /\ two (o ++ g ++ c :: d :: t) (zlen o + zlen g) x 42 = Ret ((c =? x) && (d =? 42)).
Proof.
  unfold two. rewrite get_at, !ret_bind. destruct (c =? x); [|done]. replace (zlen o + zlen g + 1) with (zlen o + zlen (g ++ [c])) by zlia.
  replace (o ++ g ++ c :: d :: t) with (o ++ (g ++ [c]) ++ d :: t) by (by rewrite <- !app_assoc). by rewrite get_at, !ret_bind.
Qed.

(** A byte is copied to the end of what is written; the gap moves on. *)
Lemma set_at (o g t : bytes) c d : exists g', arr_set (o ++ g ++ c :: t) (zlen o) d = Ret ((o ++ [d]) ++ g' ++ t) /\ zlen g' = zlen g.
Proof.
  destruct g as [|x g].
  - exists []. cbn [app]. split; [|done]. by rewrite arr_set_middle, <- app_assoc.
  - exists (g ++ [c]). cbn [app]. rewrite arr_set_middle, <- !app_assoc. split; [done|zlia].
Qed.
Lemma copy_at (o g t : bytes) c : exists g', copy (o ++ g ++ c :: t) (zlen o + zlen g) (zlen o) = Ret ((o ++ [c]) ++ g' ++ t, (zlen (o ++ [c]) + zlen g', zlen (o ++ [c]))) /\ zlen g' = zlen g.
Proof.
  unfold copy. rewrite get_at, ret_bind. destruct (set_at o g t c c) as (g' & -> & Hg). rewrite ret_bind. exists g'. split; [|done]. do 3 f_equal; zlia.
Qed.
(** A byte is passed over; it joins the gap. *)
Lemma pass_at (o g t : bytes) c : o ++ g ++ c :: t = o ++ (g ++ [c]) ++ t /\ zlen o + zlen g + 1 = zlen o + zlen (g ++ [c]).
Proof. split; [by rewrite <- !app_assoc|zlia]. Qed.

Lemma line_at b (o t : bytes) : forall n g, Forall (fun c => c <> 10) b -> no_nul b -> match t with c :: _ => c = 10 \/ c = 0 | [] => False end -> (length b < n)%nat ->
  line_loop n (o ++ g ++ b ++ t) (zlen o + zlen g) = Ret (zlen o + zlen (g ++ b)).
Proof.
  induction b as [|c b IH]; intros n g Hb H0 Ht Hn; (destruct n as [|n]; [cbn in Hn; lia|]); cbn [line_loop app].
  - destruct t as [|c t]; [done|]. rewrite get_at, ret_bind, app_nil_r. by destruct Ht as [-> | ->].
  - apply Forall_cons in Hb as [Hc Hb]. apply no_nul_cons in H0 as [Hc0 H0]. rewrite get_at, ret_bind, !(proj2 (Z.eqb_neq c _)) by done. cbn [negb andb].
    destruct (pass_at o g (b ++ t) c) as [-> ->]. rewrite IH; [by rewrite <- app_assoc|done|done|done|cbn in Hn; lia].
Qed.

Lemma comment_at b (o t : bytes) : forall n g, no_close b -> no_nul b -> (length b < n)%nat ->
  comment_loop n (o ++ g ++ b ++ 42 :: 47 :: t) (zlen o + zlen g) = Ret (zlen o + zlen (g ++ b)).
Proof.
  induction b as [|c b IH]; intros n g Hb H0 Hn; (destruct n as [|n]; [cbn in Hn; lia|]); cbn [comment_loop app].
  - rewrite get_at, ret_bind, app_nil_r. cbn [Z.eqb]. rewrite (proj1 (two_at o g t 42 47 42)), ret_bind. done.
  - destruct Hb as [Hc Hb]. apply no_nul_cons in H0 as [Hc0 H0]. rewrite get_at, ret_bind, (proj2 (Z.eqb_neq c 0)) by done.
    assert (exists d u, b ++ 42 :: 47 :: t = d :: u /\ (c =? 42) && (d =? 47) = false) as (d & u & E & Ed).
    { destruct b as [|d b]; [exists 42, (47 :: t); split; [done|by rewrite andb_false_r]|]. exists d, (b ++ 42 :: 47 :: t). split; [done|].
      destruct (Z.eqb_spec c 42), (Z.eqb_spec d 47); try done. tauto. }
    rewrite E, (proj1 (two_at o g u c d 42)), Ed, ret_bind, <- E. destruct (pass_at o g (b ++ 42 :: 47 :: t) c) as [-> ->]. rewrite IH; [by rewrite <- app_assoc|done|done|cbn in Hn; lia].
Qed.

Lemma literal_at s : scans s -> forall n (o g t : bytes), no_nul s -> (length s < n)%nat ->
  exists g', literal_loop n (o ++ g ++ s ++ 34 :: t) (zlen o + zlen g) (zlen o) =
    Ret ((o ++ s) ++ g' ++ 34 :: t, (zlen (o ++ s) + zlen g', zlen (o ++ s))) /\ zlen g' = zlen g.
Proof.
  induction 1 as [|c s H34 H92 _ IH|c s _ IH]; intros n o g t H0 Hn; (destruct n as [|n]; [cbn in Hn; lia|]); cbn [literal_loop app].
  - exists g. rewrite get_at, ret_bind, app_nil_r. done.
  - apply no_nul_cons in H0 as [Hc0 H0]. rewrite get_at, ret_bind, !(proj2 (Z.eqb_neq c _)) by done. cbn [negb andb]. rewrite ret_bind.
    destruct (copy_at o g (s ++ 34 :: t) c) as (g1 & -> & Hg1). rewrite ret_bind. cbn beta iota. destruct (IH n (o ++ [c]) g1 t H0 ltac:(cbn in Hn; lia)) as (g2 & -> & Hg2).
    exists g2. rewrite <- (app_assoc o [c] s). split; [done|lia].
  - apply no_nul_cons in H0 as [_ H0]. apply no_nul_cons in H0 as [Hc0 H0]. rewrite get_at, ret_bind. cbn [Z.eqb Pos.eqb negb andb].
    destruct (copy_at o g (c :: s ++ 34 :: t) 92) as (g1 & -> & Hg1). rewrite ret_bind. cbn beta iota.
    destruct (copy_at (o ++ [92]) g1 (s ++ 34 :: t) c) as (g2 & -> & Hg2). rewrite ret_bind. cbn beta iota.
    destruct (IH n ((o ++ [92]) ++ [c]) g2 t H0 ltac:(cbn in Hn; lia)) as (g3 & -> & Hg3). exists g3. rewrite <- !app_assoc. split; [done|lia].
Qed.

Lemma blank_test c : (c =? 32) || (c =? 9) || (c =? 13) || (c =? 10) = true <-> is_blank c.
Proof. unfold is_blank. rewrite !orb_true_iff, !Z.eqb_eq. tauto. Qed.
Lemma not_two (o g t r : bytes) c d : no_nul t -> d = 47 \/ d = 42 -> ~ (c = 47 /\ match t with d' :: _ => d' = d | [] => False end) ->
  two (o ++ g ++ (c :: t) ++ 0 :: r) (zlen o + zlen g) 47 d = Ret false.
Proof.
  intros H0 Hd Hno. assert (exists d' t', t ++ 0 :: r = d' :: t' /\ (c =? 47) && (d' =? d) = false) as (d' & t' & E & Ed).
  { destruct t as [|d' t]; [exists 0, r; split; [done|]; destruct Hd as [-> | ->]; by rewrite andb_false_r|].
    exists d', (t ++ 0 :: r). split; [done|]. destruct (Z.eqb_spec c 47), (Z.eqb_spec d' d); try done. tauto. }
  cbn [app]. rewrite E. by destruct Hd as [-> | ->]; [rewrite (proj1 (two_at o g t' c d' 47))|rewrite (proj2 (two_at o g t' c d' 47))]; rewrite Ed.
Qed.

Lemma minify_loop_ok t u : minifies t u -> forall n o g r, no_nul t -> (length t < n)%nat ->
  exists x, minify_loop n (o ++ g ++ t ++ 0 :: r) (zlen o + zlen g) (zlen o) = Ret (o ++ u ++ 0 :: x) /\ zlen (u ++ 0 :: x) = zlen (g ++ t ++ 0 :: r).
Proof.
  induction 1 as [|c t u Hc _ IH|b t u Hb Ht _ IH|b t u Hb _ IH|s t u Hs _ IH|c t u Hc H34 Hno _ IH]; intros n o g r H0 Hn; (destruct n as [|n]; [cbn in Hn; lia|]); cbn [minify_loop].
  - cbn [app]. rewrite get_at, ret_bind. cbn [Z.eqb]. destruct (set_at o g r 0 0) as (g' & -> & Hg). exists (g' ++ r). rewrite <- app_assoc. split; [done|zlia].
  - apply no_nul_cons in H0 as [Hc0 H0]. cbn [app]. rewrite get_at, ret_bind, (proj2 (Z.eqb_neq c 0)), (proj2 (blank_test c) Hc) by done.
    destruct (pass_at o g (t ++ 0 :: r) c) as [-> ->]. destruct (IH n o (g ++ [c]) r H0 ltac:(cbn in Hn; lia)) as (x & -> & Hx). exists x. split; [done|zlia].
  - assert (no_nul (47 :: 47 :: b)) as Hnb by (unfold no_nul in *; set_solver). assert (no_nul t) as Hnt by (unfold no_nul in *; set_solver).
    assert (forall r, (47 :: 47 :: b ++ t) ++ r = 47 :: 47 :: b ++ t ++ r) as -> by (intros; cbn; by rewrite <- app_assoc).
    rewrite get_at, ret_bind, (proj1 (two_at o g _ 47 47 47)), ret_bind. cbn [Z.eqb Pos.eqb orb andb].
    pose proof (line_at (47 :: 47 :: b) o (t ++ 0 :: r) (S (length (o ++ g ++ 47 :: 47 :: b ++ t ++ 0 :: r))) g) as E. cbn [app] in E. rewrite E; clear E; [|do 2 (apply Forall_cons; split; [done|]); exact Hb|done|destruct t; [by right|by left]|rewrite !length_app; cbn [length]; rewrite length_app; lia].
    rewrite ret_bind. destruct (IH n o (g ++ 47 :: 47 :: b) r Hnt) as (x & E & Hx); [cbn in Hn; rewrite length_app in Hn; lia|]. rewrite <- !app_assoc in E. cbn [app] in E. rewrite E. exists x. split; [done|zlia].
  - assert (no_nul (47 :: 42 :: b)) as Hnb by (unfold no_nul in *; set_solver). assert (no_nul t) as Hnt by (unfold no_nul in *; set_solver).
    assert (forall r, (47 :: 42 :: b ++ 42 :: 47 :: t) ++ r = 47 :: 42 :: b ++ 42 :: 47 :: t ++ r) as -> by (intros; cbn; rewrite <- app_assoc; done).
    rewrite get_at, ret_bind, (proj1 (two_at o g _ 47 42 47)), (proj2 (two_at o g _ 47 42 47)), !ret_bind. cbn [Z.eqb Pos.eqb orb andb].
    pose proof (comment_at (47 :: 42 :: b) o (t ++ 0 :: r) (S (length (o ++ g ++ 47 :: 42 :: b ++ 42 :: 47 :: t ++ 0 :: r))) g) as E. cbn [app] in E. rewrite E; clear E; [|split; [by intros [[=] _]|done]|done|rewrite !length_app; cbn [length]; rewrite length_app; lia].
    rewrite ret_bind. destruct (IH n o (g ++ 47 :: 42 :: b ++ [42; 47]) r Hnt) as (x & E & Hx); [cbn in Hn; rewrite length_app in Hn; cbn in Hn; lia|]. rewrite <- !app_assoc in E. cbn [app] in E. rewrite <- !app_assoc in E. cbn [app] in E.
    replace (zlen o + zlen (g ++ 47 :: 42 :: b) + 2) with (zlen o + zlen (g ++ 47 :: 42 :: b ++ [42; 47])) by zlia. rewrite E. exists x. split; [done|zlia].
  - assert (no_nul s) as Hns by (unfold no_nul in *; set_solver). assert (no_nul t) as Hnt by (unfold no_nul in *; set_solver).
    assert (forall r, (34 :: s ++ 34 :: t) ++ r = 34 :: s ++ 34 :: t ++ r) as -> by (intros; cbn; rewrite <- app_assoc; done).
    assert (two (o ++ g ++ 34 :: s ++ 34 :: t ++ 0 :: r) (zlen o + zlen g) 47 47 = Ret false /\ two (o ++ g ++ 34 :: s ++ 34 :: t ++ 0 :: r) (zlen o + zlen g) 47 42 = Ret false) as [E1 E2] by (unfold two; by rewrite get_at, ret_bind).
    rewrite get_at, ret_bind, E1, E2, !ret_bind. cbn [Z.eqb Pos.eqb orb].
    destruct (copy_at o g (s ++ 34 :: t ++ 0 :: r) 34) as (g1 & -> & Hg1). rewrite ret_bind. cbn beta iota.
    destruct (literal_at s Hs (S (length ((o ++ [34]) ++ g1 ++ s ++ 34 :: t ++ 0 :: r))) (o ++ [34]) g1 (t ++ 0 :: r) Hns) as (g2 & -> & Hg2); [rewrite !length_app; lia|]. rewrite ret_bind. cbn beta iota.
    destruct (copy_at ((o ++ [34]) ++ s) g2 (t ++ 0 :: r) 34) as (g3 & -> & Hg3). rewrite ret_bind. cbn beta iota.
    destruct (IH n (((o ++ [34]) ++ s) ++ [34]) g3 r Hnt) as (x & -> & Hx); [cbn in Hn; rewrite length_app in Hn; cbn in Hn; lia|]. exists x. rewrite <- !app_assoc. cbn [app]. rewrite <- !app_assoc. cbn [app]. split; [done|zlia].
  - pose proof H0 as H0'. apply no_nul_cons in H0 as [Hc0 H0]. unfold opens in Hno.
    rewrite !(not_two o g t r c) by (auto || (intros [-> Hd]; apply Hno; split; [done|]; destruct t; auto)). cbn [app]. rewrite get_at, !ret_bind, (proj2 (Z.eqb_neq c 0)), (proj2 (Z.eqb_neq c 34)) by done.
    rewrite (not_true_is_false _ (fun E => Hc (proj1 (blank_test c) E))). destruct (copy_at o g (t ++ 0 :: r) c) as (g1 & -> & Hg1). rewrite ret_bind. cbn beta iota.
    destruct (IH n (o ++ [c]) g1 r H0 ltac:(cbn in Hn; lia)) as (x & -> & Hx). exists x. rewrite <- !app_assoc. split; [done|zlia].
Qed.

Lemma cJSON_Minify_ok t u r : minifies t u -> no_nul t ->
  exists x, cJSON_Minify (Some (t ++ 0 :: r)) = Ret (Some (u ++ 0 :: x)) /\ zlen (u ++ 0 :: x) = zlen (t ++ 0 :: r).
Proof.
  intros Hm H0. destruct (minify_loop_ok t u Hm (S (length (t ++ 0 :: r))) [] [] r H0) as (x & E & Hx); [rewrite length_app; lia|].
  exists x. split; [|exact Hx]. unfold cJSON_Minify. cbn [app] in E. change (zlen [] + zlen []) with 0 in E. change (zlen []) with 0 in E. by rewrite E.
Qed.

(** ** JSON texts *)

(** What minifying makes of [t], whatever is behind it. *)
Definition shrinks (t u : bytes) : Prop := forall r r', minifies r r' -> minifies (t ++ r) (u ++ r').
Lemma shrinks_nil : shrinks [] [].
Proof. by intros r r'. Qed.
Lemma shrinks_app t u t' u' : shrinks t u -> shrinks t' u' -> shrinks (t ++ t') (u ++ u').
Proof. intros H H' r r' Hr. rewrite <- !app_assoc. by apply H, H'. Qed.
Definition solid (c : Z) : Prop := ~ is_blank c /\ c <> 34 /\ c <> 47.
#[export] Instance solid_dec c : Decision (solid c).
Proof. unfold solid, is_blank. apply _. Defined.
Lemma shrinks_solid t : Forall solid t -> shrinks t t.
Proof. induction 1 as [|c t (H1 & H2 & H3) _ IH]; [apply shrinks_nil|]. intros r r' Hr. cbn. apply min_other; [done|done|by intros [? _]|by apply IH]. Qed.
Lemma shrinks_literal k : scans k -> shrinks ([34] ++ k ++ [34]) ([34] ++ k ++ [34]).
Proof. intros Hk r r' Hr. cbn. rewrite <- !app_assoc. cbn. by apply min_literal. Qed.
Lemma shrinks_ws w : ws w -> exists w', ws w' /\ shrinks w w'.
Proof.
  induction 1 as [|c w Hc _ (w' & Hw' & Hs)]; [exists []; split; [constructor|apply shrinks_nil]|].
  destruct (decide (is_blank c)) as [Hb|Hb].
  - exists w'. split; [done|]. intros r r' Hr. cbn. apply min_blank; [done|by apply Hs].
  - exists (c :: w'). split; [by apply Forall_cons|]. apply (shrinks_app [c] [c]); [|done]. apply shrinks_solid, Forall_singleton. split; [done|lia].
Qed.

Lemma shrinks_number t d : number_lit t d -> shrinks t t.
Proof.
  intros ((Hn & _) & _ & _). apply shrinks_solid. eapply Forall_impl; [exact Hn|]. intros c Hc. cbv beta in Hc. unfold is_num_char, is_digit in Hc. unfold solid, is_blank.
  repeat (apply orb_true_iff in Hc as [Hc|Hc]); try apply Z.eqb_eq in Hc; try (apply andb_true_iff in Hc as [?%Z.leb_le ?%Z.leb_le]); lia.
Qed.

Definition value_shrinks n t j : Prop := exists u, value_text n u j /\ shrinks t u.
Definition elements_shrink n t l : Prop := exists u, elements_in n u l /\ shrinks t u.
Definition members_shrink n t l : Prop := exists u, members_in n u l /\ shrinks t u.

(** White space around a text that keeps its meaning. *)
Lemma shrinks_around w t w' u : ws w -> shrinks t u -> ws w' -> exists v v', ws v /\ ws v' /\ shrinks (w ++ t ++ w') (v ++ u ++ v').
Proof. intros (v & Hv & H1)%shrinks_ws H2 (v' & Hv' & H3)%shrinks_ws. exists v, v'. split_and!; [done|done|]. by repeat apply shrinks_app. Qed.
Ltac solid := apply shrinks_solid; vm_decide.

Lemma grammar_shrinks :
  (forall n t j, value_text n t j -> value_shrinks n t j) /\ (forall n t l, elements_in n t l -> elements_shrink n t l) /\ (forall n t l, members_in n t l -> members_shrink n t l).
Proof.
  apply grammar_ind.
  - intros n. eexists. split; [constructor|solid].
  - intros n. eexists. split; [constructor|solid].
  - intros n. eexists. split; [constructor|solid].
  - intros n t d Ht. exists t. split; [by constructor|by apply (shrinks_number t d)].
  - intros n t s Ht. eexists. split; [by constructor|apply shrinks_literal, (string_text_scans t s Ht)].
  - intros n w (w' & Hw' & Hs)%shrinks_ws. exists ([91] ++ w' ++ [93]). split; [by constructor|]. apply shrinks_app; [solid|]. apply shrinks_app; [done|solid].
  - intros n t l _ (u & Hu & Hs). exists ([91] ++ u ++ [93]). split; [by constructor|]. apply shrinks_app; [solid|]. apply shrinks_app; [done|solid].
  - intros n w (w' & Hw' & Hs)%shrinks_ws. exists ([123] ++ w' ++ [125]). split; [by constructor|]. apply shrinks_app; [solid|]. apply shrinks_app; [done|solid].
  - intros n t l _ (u & Hu & Hs). exists ([123] ++ u ++ [125]). split; [by constructor|]. apply shrinks_app; [solid|]. apply shrinks_app; [done|solid].
  - intros n w1 t w2 j H1 _ (u & Hu & Hs) H2. destruct (shrinks_around w1 t w2 u H1 Hs H2) as (v1 & v2 & V1 & V2 & Hv). eexists. split; [by apply (el_last n v1 u v2)|done].
  - intros n w1 t w2 j t' l H1 _ (u & Hu & Hs) H2 _ (u' & Hu' & Hs'). destruct (shrinks_around w1 t w2 u H1 Hs H2) as (v1 & v2 & V1 & V2 & Hv). eexists. split; [by apply (el_more n v1 u v2 j u' l)|].
    pose proof (shrinks_app _ _ (44 :: t') (44 :: u') Hv) as Hall. rewrite <- !app_assoc in Hall. apply Hall, (shrinks_app [44] [44]); [solid|done].
  - intros n w1 k s w2 w3 t w4 j (v1 & V1 & S1)%shrinks_ws Hk (v2 & V2 & S2)%shrinks_ws (v3 & V3 & S3)%shrinks_ws _ (u & Hu & Hs) (v4 & V4 & S4)%shrinks_ws.
    eexists. split; [by apply (me_last n v1 k s v2 v3 u v4)|]. apply shrinks_app; [done|]. apply shrinks_app; [apply shrinks_literal, (string_text_scans k s Hk)|]. apply shrinks_app; [done|].
    apply (shrinks_app [58] [58]); [solid|]. apply shrinks_app; [done|]. by apply shrinks_app.
  - intros n w1 k s w2 w3 t w4 j t' l (v1 & V1 & S1)%shrinks_ws Hk (v2 & V2 & S2)%shrinks_ws (v3 & V3 & S3)%shrinks_ws _ (u & Hu & Hs) (v4 & V4 & S4)%shrinks_ws _ (u' & Hu' & Hs').
    eexists. split; [by apply (me_more n v1 k s v2 v3 u v4 j u' l)|]. apply shrinks_app; [done|]. apply shrinks_app; [apply shrinks_literal, (string_text_scans k s Hk)|]. apply shrinks_app; [done|].
    apply (shrinks_app [58] [58]); [solid|]. apply shrinks_app; [done|]. apply shrinks_app; [done|]. apply shrinks_app; [done|]. apply (shrinks_app [44] [44]); [solid|done].
Qed.

Lemma minifies_no_nul t u : minifies t u -> no_nul t -> no_nul u.
Proof. unfold no_nul. induction 1; set_solver. Qed.
Lemma minifies_length t u : minifies t u -> zlen u <= zlen t.
Proof. induction 1; zlia. Qed.
(** There is only one minified text: the code computes it. *)
Lemma minifies_det t u u' : no_nul t -> minifies t u -> minifies t u' -> u = u'.
Proof.
  intros H0 Hu Hu'. destruct (cJSON_Minify_ok t u [] Hu H0) as (x & E & _), (cJSON_Minify_ok t u' [] Hu' H0) as (x' & E' & _). rewrite E in E'. injection E' as E'.
  pose proof (c_str_ok u x (minifies_no_nul _ _ Hu H0)) as C. rewrite E', (c_str_ok u' x' (minifies_no_nul _ _ Hu' H0)) in C. by injection C.
Qed.

(** [c] is [t] up to white space and comments between its tokens. *)
Definition commented (c t : bytes) : Prop := exists u, minifies c u /\ minifies t u.

(** C14. [cJSON_Minify] of a JSON text that is written with comments and any
    white space stays inside the block, removes the comments, blanks, tabs and
    line ends that are not in literals, and what is left is a text that
    [cJSON_Parse] reads as the same value. *)
Theorem cJSON_Minify_keeps_value `{AllocTotal} `{Memory} c w t w' j r :
  value_text (Z.to_nat CJSON_NESTING_LIMIT) t j -> ws w -> ws w' -> no_nul t -> commented c (w ++ t ++ w') -> no_nul c -> zlen c < 2 ^ 61 ->
  exists u x i, cJSON_Minify (Some (c ++ 0 :: r)) = Ret (Some (u ++ 0 :: x)) /\ zlen (u ++ 0 :: x) = zlen (c ++ 0 :: r) /\ minifies c u /\
    cJSON_Parse (Some (u ++ 0 :: x)) = Ret (Some i) /\ json_of i = Some j.
Proof.
  intros Ht Hw Hw' Ht0 (u & Hc & Htu) Hc0 Hlen. destruct (proj1 grammar_shrinks _ _ _ Ht) as (ut & Hut & Hs). destruct (shrinks_around w t w' ut Hw Hs Hw') as (v & v' & Hv & Hv' & Hall).
  specialize (Hall [] [] min_end). rewrite !app_nil_r in Hall.
  assert (forall w, ws w -> no_nul w) as Hws by (intros a Ha; apply no_nul_Forall; eapply Forall_impl; [exact Ha|cbn; lia]).
  assert (u = v ++ ut ++ v') as -> by (apply (minifies_det (w ++ t ++ w')); [apply no_nul_app; split; [by apply Hws|apply no_nul_app; auto]|done|done]).
  destruct (cJSON_Minify_ok c _ r Hc Hc0) as (x & E & Hx). pose proof (minifies_length _ _ Hc) as Hl.
  destruct (parse_whole v ut j v' x false false Hut Hv) as (i & Ei & Hi & _); [by apply (minifies_no_nul c)|lia| |done|].
  { destruct Hv' as [|b v' Hb Hv']; [done|]. destruct (follow [b] 0 []) as (b' & u' & Eb & Hnum); [constructor; [done|constructor]|done|]. by injection Eb as <- _. }
  exists (v ++ ut ++ v'), x, i. split_and!; [done|done|done| |done]. unfold cJSON_Parse. by rewrite Ei.
Qed.

(** <</* */ [ 1, // x>> and the rest on the next line. *)
Definition demo_commented : bytes := [47; 42; 32; 42; 47; 32; 91; 32; 49; 44; 47; 47; 120; 10; 34; 32; 34; 93; 32].
Definition demo_bare : bytes := [91; 49; 44; 34; 32; 34; 93].
Definition demo_array : json := JArr [JNum (of_int 1); JStr [32]].
Lemma demo_bare_value n : value_text (S n) demo_bare demo_array.
Proof.
  apply (vt_array n [49; 44; 34; 32; 34]). apply (el_more n [] [49] [] (JNum (of_int 1)) [34; 32; 34]); [constructor| |constructor|].
  - constructor. split_and!; [split; [by repeat constructor|by exists 49, []; auto]|vm_compute; reflexivity|done].
  - apply (el_last n [] [34; 32; 34] []); [constructor| |constructor]. apply (vt_string n [32] [32]). by apply text_char; [| | |constructor].
Qed.
Ltac minify_step :=
  first [apply min_end | apply (min_blank _ _ _); [unfold is_blank; lia|] | apply (min_literal [32]); [by apply scans_char; [| |constructor]|]
        | apply min_other; [unfold is_blank; lia|done|by intros [? _]|]].
Lemma demo_minifies : minifies demo_commented demo_bare.
Proof.
  apply (min_block [32]); [cbn; intuition congruence|]. do 5 minify_step. apply (min_line [120]); [by apply Forall_singleton|done|]. by repeat minify_step.
Qed.
Lemma demo_comments : commented demo_commented demo_bare.
Proof. exists demo_bare. split; [exact demo_minifies|by repeat minify_step]. Qed.

Lemma cJSON_Minify_keeps_value_witness : exists u x i, cJSON_Minify (Some (demo_commented ++ [0])) = Ret (Some (u ++ 0 :: x)) /\ u = demo_bare /\
  @cJSON_Parse big_alloc demo_memory (Some (u ++ 0 :: x)) = Ret (Some i) /\ json_of i = Some demo_array.
Proof.
  destruct (@cJSON_Minify_keeps_value big_alloc big_alloc_total demo_memory demo_commented [] demo_bare [] demo_array []) as (u & x & i & E & _ & Hm & Hi & Hj);
    [replace (Z.to_nat CJSON_NESTING_LIMIT) with (S 999) by (vm_compute; reflexivity); apply demo_bare_value|constructor|constructor|vm_decide|exact demo_comments|vm_decide|done|].
  exists u, x, i. split_and!; [exact E| |exact Hi|exact Hj]. apply (minifies_det demo_commented); [vm_decide|exact Hm|exact demo_minifies].
Defined.
