(* ===== verification/CJsonHeap.v ===== *)
(** * cJSON: from texts to trees in the heap, and back

    The parser and the printer work on items without addresses; here they are
    run on the heap of nodes and texts: what the printer reads of a node, and
    the nodes and texts that a parsed item takes.  *)

From stdpp Require Import base tactics numbers list option gmap sets.
From Stdlib Require Import Lia.
From S2P Require Import Prelude Double CJson CJsonSpec CJsonPrint CJsonPrintOk CJsonSafe CJsonDom CJsonTree CJsonDomOk CJsonCopy CJsonCompare.

(** ** What the printer sees of a node *)
Definition read_text (a : Z) (h : heap) : outcome (option bytes) := if a =? 0 then Ret None else let! b := text a h in Ret (Some b).
Fixpoint read_items (fuel : nat) (p : Z) (h : heap) : outcome (list cJSON) :=
  match fuel with
  | O => OutOfFuel
  | S fuel =>
    if p =? 0 then Ret [] else
    let! n := load p h in
    let! vs := read_text (n_valuestring n) h in
    let! s := read_text (n_string n) h in
    let! l := read_items fuel (n_child n) h in
    let! r := read_items fuel (next n) h in
    Ret (Item (n_type n) vs (n_valueint n) (n_valuedouble n) s l :: r)
  end.
Definition read_item (p : Z) (h : heap) : outcome cJSON :=
  let! n := load p h in
  let! vs := read_text (n_valuestring n) h in
  let! s := read_text (n_string n) h in
  let! l := read_items (heap_fuel h) (n_child n) h in
  Ret (Item (n_type n) vs (n_valueint n) (n_valuedouble n) s l).

Section print_node.
Context `{Allocator} `{Memory}.

(** [cJSON_Print] or [cJSON_PrintUnformatted] of a node: a new text, or
    NULL. *)
Definition print_node (fmt : bool) (p : Z) (h : heap) : outcome (Z * heap) :=
  let! i := read_item p h in
  let! t := (if fmt then cJSON_Print else cJSON_PrintUnformatted) i global_hooks in
  match t with Some b => Ret (new_text b h) | None => Ret (0, h) end.

End print_node.

(** ** Reading *)

(** All texts and children are the tree's own: what the parser makes. *)
Fixpoint self_contained (t : tree) : Prop :=
  match t with Tree _ x l => is_ref x = false /\ (forall a, l_valuestring x <> Shared a) /\ (forall a, l_string x <> Shared a) /\ foldr (fun t P => self_contained t /\ P) True l end.
Lemma self_contained_Tree p x l : self_contained (Tree p x l) <->
  is_ref x = false /\ (forall a, l_valuestring x <> Shared a) /\ (forall a, l_string x <> Shared a) /\ Forall self_contained l.
Proof. cbn. do 3 apply and_iff_compat_l. induction l as [|t l IH]; cbn; [by rewrite Forall_nil|]. by rewrite Forall_cons, IH. Qed.

Lemma read_text_ok h L T f : rep h L (own f ++ T) -> (forall a, f <> Shared a) -> read_text (ptr f) h = Ret (field_text h f).
Proof.
  intros Hr Hf. destruct f as [|a b|a]; [done| |by destruct (Hf a)]. destruct (field_in h L T (Owned a b) b Hr eq_refl) as [E Ha].
  unfold read_text. by rewrite (proj2 (Z.eqb_neq _ 0)), E.
Qed.

Lemma read_items_ok h fuel : forall l pv L T, rep h (chain pv l 0 ++ L) (list_texts l ++ T) -> Forall self_contained l -> (length (chain pv l 0) < fuel)%nat ->
  read_items fuel (first l 0) h = Ret (map (item_of h) l).
Proof.
  induction fuel as [|fuel IH]; intros [|[p x k] l] pv L T Hr Hl Hf; try (cbn in Hf; lia); [done|]. cbn [read_items first root].
  apply Forall_cons in Hl as [(Hx & Hv & Hs & Hk)%self_contained_Tree Hl]. rewrite chain_cons, cells_Tree in Hr, Hf. cbn [root] in Hr, Hf. cbn [app length] in Hf. rewrite length_app in Hf.
  rewrite list_texts_cons, texts_Tree in Hr. cbn [app] in Hr. rewrite (proj2 (Z.eqb_neq p 0)), (load_rep _ _ _ _ _ Hr), ret_bind by (by apply (rep_ptr _ _ _ _ _ Hr)).
  cbn [n_valuestring n_string n_child next n_type n_valueint n_valuedouble cell]. rewrite Hx.
  rewrite (read_text_ok h ((p, cell pv (first l 0) x k) :: (chain 0 k 0 ++ chain p l 0) ++ L) (own (l_string x) ++ list_texts k ++ list_texts l ++ T) (l_valuestring x)) by (done || reorder Hr). rewrite ret_bind.
  rewrite (read_text_ok h ((p, cell pv (first l 0) x k) :: (chain 0 k 0 ++ chain p l 0) ++ L) (own (l_valuestring x) ++ list_texts k ++ list_texts l ++ T) (l_string x)) by (done || reorder Hr). rewrite ret_bind.
  rewrite (IH k 0 ((p, cell pv (first l 0) x k) :: chain p l 0 ++ L) (own (l_valuestring x) ++ own (l_string x) ++ list_texts l ++ T)), ret_bind by (done || lia || reorder Hr).
  rewrite (IH l p ((p, cell pv (first l 0) x k) :: chain 0 k 0 ++ L) (own (l_valuestring x) ++ own (l_string x) ++ list_texts k ++ T)), ret_bind by (done || lia || reorder Hr).
  done.
Qed.

Lemma read_item_ok h pv nx t L T : rep h (cells pv nx t ++ L) (tree_texts t ++ T) -> self_contained t -> read_item (root t) h = Ret (item_of h t).
Proof.
  destruct t as [p x k]. intros Hr (Hx & Hv & Hs & Hk)%self_contained_Tree. rewrite cells_Tree, texts_Tree in Hr. unfold read_item. cbn [root app] in *.
  rewrite (load_rep _ _ _ _ _ Hr), ret_bind. cbn [n_valuestring n_string n_child n_type n_valueint n_valuedouble cell]. rewrite Hx.
  rewrite (read_text_ok h ((p, cell pv nx x k) :: chain 0 k 0 ++ L) (own (l_string x) ++ list_texts k ++ T) (l_valuestring x)) by (done || reorder Hr). rewrite ret_bind.
  rewrite (read_text_ok h ((p, cell pv nx x k) :: chain 0 k 0 ++ L) (own (l_valuestring x) ++ list_texts k ++ T) (l_string x)) by (done || reorder Hr). rewrite ret_bind.
  rewrite (read_items_ok h _ k 0 ((p, cell pv nx x k) :: L) (own (l_valuestring x) ++ own (l_string x) ++ T)); [done|reorder Hr|done|].
  rewrite (rep_fuel _ _ _ Hr). cbn [length]. rewrite length_app. lia.
Qed.

(** The addresses of a tree, whatever is beside it. *)
Definition addresses (t : tree) : list Z := (cells 0 0 t).*1.
Lemma cells_addresses pv nx t : (cells pv nx t).*1 = addresses t.
Proof. unfold addresses. by rewrite !cells_cell. Qed.
Lemma root_address t : root t ∈ addresses t.
Proof. unfold addresses. rewrite cells_cell. by left. Qed.
Lemma chain_addresses pv l nx : (chain pv l nx).*1 = flat_map addresses l.
Proof. revert pv. induction l as [|t l IH]; intros pv; [done|]. rewrite chain_cons, fmap_app, cells_addresses, IH. done. Qed.
Lemma tree_addresses pv nx a x l : (cells pv nx (Tree a x l)).*1 = a :: flat_map addresses l.
Proof. rewrite cells_Tree. cbn. by rewrite chain_addresses. Qed.

Lemma later_sure h h' : later h h' -> ~ may_fail h -> ~ may_fail h'.
Proof. intros Hl Hm Hm'. by apply Hm, (later_may_fail h h'). Qed.

Lemma no_failures F K b : ~ may_fail (heap_of F K b []).
Proof. apply not_elem_of_nil. Qed.

Section printed.
Context `{AllocTotal} `{Memory}.

(** The text of a tree that stands for a value. *)
Lemma print_node_ok fmt h pv nx t j L T : rep h (cells pv nx t ++ L) (tree_texts t ++ T) -> self_contained t -> ~ may_fail h ->
  json_of (item_of h t) = Some j -> json_ok j -> zlen (json_text fmt 0 j) + 2 <= INT_MAX ->
  exists w b h', print_node fmt (root t) h = Ret (w, h') /\ later h h' /\ text_in j fmt b /\ w <> 0 /\ rep h' (cells pv nx t ++ L) ((w, b) :: tree_texts t ++ T).
Proof.
  intros Hr Ht Hm Hj Hok Hlen. unfold print_node. rewrite (read_item_ok h pv nx t L T Hr Ht), ret_bind. assert (INT_MAX < 2 ^ 60) by done.
  destruct (print_ok (item_of h t) j fmt global_hooks Hj Hok) as (r & E & Hres); [lia|]. assert ((if fmt then cJSON_Print else cJSON_PrintUnformatted) (item_of h t) global_hooks = Ret r) as -> by (by destruct fmt). rewrite ret_bind. destruct r as [b|]; [|specialize (Hres ltac:(assumption)); lia].
  destruct (new_text b h) as [w h'] eqn:Ew. destruct (new_text_rep _ _ _ _ _ _ Ew Hr) as [Hl [(_ & Hmf & _)|[Hw Hr']]]; [done|]. by exists w, b, h'.
Qed.

End printed.

(** ** A parsed item in the heap *)

(** The blocks of an item, at the addresses from [n]. *)
Definition plant_field (b : option bytes) (n : Z) : field * Z :=
  match b with Some b => (Owned n b, n + 1) | None => (Nothing, n) end.
Section plant_list.
Variable plant : cJSON -> Z -> tree * Z.
Fixpoint plant_list (l : list cJSON) (n : Z) : list tree * Z :=
  match l with
  | [] => ([], n)
  | i :: l => let '(t, n) := plant i n in let '(k, n) := plant_list l n in (t :: k, n)
  end.
End plant_list.
Fixpoint plant (i : cJSON) (n : Z) : tree * Z :=
  match i with
  | Item t vs vi vd s l =>
    let '(v, n1) := plant_field vs (n + 1) in
    let '(m, n2) := plant_field s n1 in
    let '(k, n3) := plant_list plant l n2 in
    (Tree n (mkLabel t v vi vd m 0) k, n3)
  end.
Definition plant_in (i : cJSON) (h : heap) : Z * heap :=
  let '(t, n) := plant i (brk h) in
  (root t, mkHeap (list_to_map (cells 0 0 t) ∪ nodes h) (list_to_map (tree_texts t) ∪ texts h) n (answers h)).

(** [cJSON_Parse] of a text: the root of the tree, or NULL. *)
Definition parse_in `{Allocator} `{Memory} (value : bytes) (h : heap) : outcome (Z * heap) :=
  let! r := cJSON_Parse (Some value) in
  Ret (match r with Some i => plant_in i h | None => (0, h) end).

(** What [plant] makes: the item again, in blocks between [n] and [n']. *)
Record planted (i : cJSON) (n n' : Z) (t : tree) : Prop := {
  planted_root : root t = n;
  planted_next : n < n';
  planted_item h : item_of h t = i;
  planted_ok : tree_ok t /\ own_tree t /\ self_contained t;
  planted_cells : NoDup (addresses t) /\ Forall (fun p => n <= p < n') (addresses t);
  planted_texts : NoDup (tree_texts t).*1 /\ Forall (fun p => n <= p < n') (tree_texts t).*1
}.
Record planted_list (l : list cJSON) (n n' : Z) (k : list tree) : Prop := {
  list_next : n <= n';
  list_item h : map (item_of h) k = l;
  list_ok : Forall tree_ok k /\ Forall own_tree k /\ Forall self_contained k;
  list_cells : NoDup (flat_map addresses k) /\ Forall (fun p => n <= p < n') (flat_map addresses k);
  list_texts_ok : NoDup (list_texts k).*1 /\ Forall (fun p => n <= p < n') (list_texts k).*1
}.

(** Two lists of addresses, one below the other. *)
Lemma ranges_app (l1 l2 : list Z) n n1 n2 : n <= n1 <= n2 -> NoDup l1 /\ Forall (fun p => n <= p < n1) l1 -> NoDup l2 /\ Forall (fun p => n1 <= p < n2) l2 ->
  NoDup (l1 ++ l2) /\ Forall (fun p => n <= p < n2) (l1 ++ l2).
Proof.
  intros Hn [D1 R1] [D2 R2]. rewrite Forall_forall in R1, R2. split.
  - apply NoDup_app. split_and!; [done| |done]. intros p H1 H2. specialize (R1 p H1). specialize (R2 p H2). lia.
  - rewrite Forall_app, !Forall_forall. split; intros p Hp; [specialize (R1 p Hp)|specialize (R2 p Hp)]; lia.
Qed.
Lemma ranges_none (n n' : Z) : NoDup (@nil Z) /\ Forall (fun p => n <= p < n') [].
Proof. split; constructor. Qed.
Lemma ranges_later (l : list Z) n n1 n2 : n <= n1 -> NoDup l /\ Forall (fun p => n1 <= p < n2) l -> NoDup l /\ Forall (fun p => n <= p < n2) l.
Proof. intros Hn [D R]. split; [done|]. eapply Forall_impl; [exact R|]. cbv beta. lia. Qed.

Lemma plant_field_ok b n f n' : block_ok b -> plant_field b n = (f, n') ->
  n <= n' /\ (forall h, field_text h f = b) /\ field_ok f /\ (forall a, f <> Shared a) /\ NoDup (own f).*1 /\ Forall (fun p => n <= p < n') (own f).*1.
Proof.
  destruct b as [b|]; intros Hb [= <- <-]; split_and!; try done; try lia; cbn; try constructor; try lia; try (by constructor); apply not_elem_of_nil.
Qed.

Lemma plant_list_ok l : Forall (fun i => tidy i -> forall n t n', plant i n = (t, n') -> planted i n n' t) l -> Forall tidy l ->
  forall n k n', plant_list plant l n = (k, n') -> planted_list l n n' k.
Proof.
  induction 1 as [|i l Hi Hl IH]; intros Hp n k n'; cbn [plant_list].
  { intros [= <- <-]. split; [lia|done|by split_and!|apply ranges_none|apply ranges_none]. }
  apply Forall_cons in Hp as [Hpi Hpl]. destruct (plant i n) as [t n1] eqn:E1, (plant_list plant l n1) as [k1 n2] eqn:E2. intros [= <- <-].
  destruct (Hi Hpi n t n1 E1) as [R N V (O1 & O2 & O3) C T], (IH Hpl n1 k1 n2 E2) as [N' V' (O1' & O2' & O3') C' T']. split.
  - lia.
  - intros h. cbn. by rewrite V, V'.
  - split_and!; by apply Forall_cons.
  - apply (ranges_app _ _ n n1 n2); [lia|done|done].
  - rewrite list_texts_cons, fmap_app. apply (ranges_app _ _ n n1 n2); [lia|done|done].
Qed.

Lemma no_flags t : 0 <= t < 256 -> has_flag t cJSON_IsReference = false /\ has_flag t cJSON_StringIsConst = false.
Proof.
  intros Ht. assert (forall k, 8 <= k -> Z.land t (2 ^ k) = 0) as Hz.
  { intros k Hk. apply Z.bits_inj_iff'. intros j Hj. rewrite Z.land_spec, Z.pow2_bits_eqb, Z.bits_0 by lia.
    destruct (Z.eqb_spec k j) as [->|]; [|by rewrite andb_false_r]. rewrite andb_true_r. apply (Z.bits_above_log2 t j); [lia|].
    destruct (decide (t = 0)) as [->|]; [cbn; lia|]. apply Z.log2_lt_pow2; [lia|]. pose proof (Z.pow_le_mono_r 2 8 j). lia. }
  unfold has_flag. change cJSON_IsReference with (2 ^ 8). change cJSON_StringIsConst with (2 ^ 9). by rewrite (Hz 8), (Hz 9).
Qed.

Lemma plant_ok i : tidy i -> forall n t n', plant i n = (t, n') -> planted i n n' t.
Proof.
  induction i as [ty vs vi vd s l IH] using item_ind'. intros (Hty & Hv & Hs & Hl)%tidy_Item n t n'. cbn [plant].
  destruct (plant_field vs (n + 1)) as [v n1] eqn:E1, (plant_field s n1) as [m n2] eqn:E2, (plant_list plant l n2) as [k n3] eqn:E3. intros [= <- <-].
  destruct (plant_field_ok _ _ _ _ Hv E1) as (N1 & V1 & F1 & S1 & D1), (plant_field_ok _ _ _ _ Hs E2) as (N2 & V2 & F2 & S2 & D2).
  destruct (plant_list_ok l IH Hl _ _ _ E3) as [N3 V3 (O1 & O2 & O3) C3 T3], (no_flags ty Hty) as [G1 G2]. split.
  - done.
  - lia.
  - intros h. cbn [item_of l_type l_valuestring l_valueint l_valuedouble l_string]. by rewrite V1, V2, V3.
  - split_and!.
    + apply tree_ok_Tree. split; [|done]. split; unfold is_ref, is_const; cbn; congruence || done.
    + apply own_tree_Tree. by split_and!.
    + apply self_contained_Tree. by split_and!.
  - unfold addresses. rewrite tree_addresses. apply (ranges_app [n] _ n n2 n3); [lia|split; [apply NoDup_singleton|repeat constructor; lia]|done].
  - rewrite texts_Tree, !fmap_app. cbn [l_valuestring l_string]. apply (ranges_app _ _ n n1 n3); [lia|by apply (ranges_later _ n (n + 1)); [lia|]|].
    apply (ranges_app _ _ n1 n2 n3); [lia|done|done].
Qed.

(** The heap of a client, with the tree of the item beside its own. *)
Lemma plant_in_ok i h F K : tidy i -> forest h F K ->
  exists t h', plant_in i h = (root t, h') /\ item_of h' t = i /\ own_tree t /\ self_contained t /\ forest h' (t :: F) K /\ answers h' = answers h /\ root t <> 0.
Proof.
  intros Hi [[Hn Ht Dn Dt Hb Hz] Hok]. unfold plant_in. destruct (plant i (brk h)) as [t n'] eqn:E. destruct (plant_ok i Hi _ _ _ E) as [R N V (O1 & O2 & O3) [DC RC] [DT RT]].
  eexists t, _. split; [done|]. split; [apply V|]. split; [done|]. split; [done|]. split; [|split; [done|lia]].
  rewrite Forall_forall in RC, RT. rewrite Forall_app, !Forall_forall in Hb. destruct Hb as [B1 B2]. split; [|by apply Forall_cons].
  split; cbn [nodes texts brk]; rewrite ?roots_cons, ?list_texts_cons, <- ?app_assoc.
  - by rewrite list_to_map_app, <- Hn.
  - by rewrite list_to_map_app, <- Ht.
  - rewrite fmap_app. apply NoDup_app. split_and!; [done| |done]. intros p H1 H2. specialize (RC p H1). specialize (B1 p H2). cbn in *. lia.
  - rewrite fmap_app. apply NoDup_app. split_and!; [done| |done]. intros p H1 H2. specialize (RT p H1). specialize (B2 p H2). cbn in *. lia.
  - rewrite !fmap_app, !Forall_app, !Forall_forall. split_and!; intros p Hp; [specialize (RC p Hp)|specialize (B1 p Hp)|specialize (RT p Hp)|specialize (B2 p ltac:(by rewrite fmap_app; apply elem_of_app; left))|]; cbn in *; try lia.
    specialize (B2 p ltac:(by rewrite fmap_app; apply elem_of_app; right)). cbn in *. lia.
  - lia.
Qed.

(** Parsing: NULL, or a tree that is all its own. *)
Lemma parse_in_ok `{Allocator} `{Memory} s r h F K : no_nul s -> forest h F K ->
  exists i, cJSON_Parse (Some (s ++ 0 :: r)) = Ret i /\
    match i with
    | None => parse_in (s ++ 0 :: r) h = Ret (0, h)
    | Some i => well_typed i /\ exists t h', parse_in (s ++ 0 :: r) h = Ret (root t, h') /\ root t <> 0 /\ item_of h' t = i /\ own_tree t /\ self_contained t /\
        forest h' (t :: F) K /\ answers h' = answers h
    end.
Proof.
  intros Hs Hf. destruct (parser_total s r false false Hs) as (i & pe & ge & E & Hi). unfold parse_in.
  assert (cJSON_Parse (Some (s ++ 0 :: r)) = Ret i) as -> by (unfold cJSON_Parse; by rewrite E). exists i. split; [done|]. rewrite ret_bind. destruct i as [i|]; [|done].
  destruct Hi as [Hi _]. split; [done|]. destruct Hi as (_ & Hp & _). destruct (plant_in_ok i h F K Hp Hf) as (t & h' & -> & Hi & Ho & Hsc & Hf' & A & Hz). by exists t, h'.
Qed.

(** *** Trees that are all their own *)
Lemma item_of_self h h' t : self_contained t -> item_of h t = item_of h' t.
Proof.
  induction t as [p x l IH] using tree_ind'. intros (_ & Hv & Hs & Hl)%self_contained_Tree. cbn [item_of].
  assert (forall f, (forall a, f <> Shared a) -> field_text h f = field_text h' f) as Hf by (intros [| |a] Hf; [done|done|by destruct (Hf a)]).
  rewrite (Hf _ Hv), (Hf _ Hs). f_equal. apply map_ext_in. intros t Ht%list_elem_of_In. rewrite Forall_forall in IH, Hl. auto.
Qed.

Lemma copy_self_contained t : forall t', copy_of t t' -> self_contained t -> self_contained t'.
Proof.
  induction t as [p x l IH] using tree_ind'. intros t' Hc. inversion Hc as [? ? ? p' x' l' [C1 C2 C3 C4 C5] Hl]; subst. intros (Hx & Hv & Hs & Hk)%self_contained_Tree.
  assert (forall f f' : field, copy_field f f' -> (forall a, f <> Shared a) -> forall a, f' <> Shared a) as Hf.
  { intros f f' Hff Hn a ->. destruct f as [| |b]; [done|done|by destruct (Hn b)]. }
  apply self_contained_Tree. split_and!; [unfold is_ref; rewrite C1; apply flag_unref|by apply (Hf _ _ C4)|by apply (Hf _ _ C5)|].
  clear -IH Hl Hk. induction Hl as [|t t' l l' Ht Hl IHl]; [constructor|]. apply Forall_cons in IH as [IHt IH], Hk as [Hkt Hk]. apply Forall_cons. auto.
Qed.
