(* ===== verification/NovaJson.v ===== *)
(** * The nova client: flattening the arguments

    [main] of [nova_client/nova.c] replaces every member of the arguments that
    is an array or an object by its text.  The walk over the members goes on
    from the member it has just replaced, and so freed. *)

From stdpp Require Import base tactics numbers list option gmap sets strings.
From Stdlib Require Import Lia.
From S2P Require Import Prelude Double CJson CJsonSpec CJsonPrint CJsonPrintOk CJsonDom CJsonTree CJsonDomOk CJsonCopy CJsonCompare CJsonHeap.

Section nova.
Context `{Allocator} `{Memory}.

(** The loop over [cur]. *)
Fixpoint flatten_loop (fuel : nat) (root cur : Z) (h : heap) : outcome heap :=
  match fuel with
  | O => OutOfFuel
  | S fuel =>
    if cur =? 0 then Ret h else
    let! array := cJSON_IsArray cur h in
    let! object := cJSON_IsObject cur h in
    let! h :=
      if (array : bool) || (object : bool) then
        let! n := load cur h in
        let! (t, h) := print_node false cur h in
        let! (s, h) := cJSON_CreateString t h in
        cJSON_ReplaceItemInObject root (n_string n) s h
      else Ret h in
    let! n := load cur h in
    flatten_loop fuel root (next n) h
  end.

(** The arguments, parsed: what is sent is the text that is returned, 0 when
    there is none. [None]: the program ends with its usage. *)
Definition main_args (root : Z) (h : heap) : outcome (option (Z * heap)) :=
  if root =? 0 then Ret None else
  let! object := cJSON_IsObject root h in
  if negb object then Ret None else
  let! r := load root h in
  let! h := flatten_loop (heap_fuel h) root (n_child r) h in
  let! t := print_node false root h in
  Ret (Some t).

(** The end of [nova_invoke]: the reply, parsed, and the literals
    ["error_response"] and ["response"]. The result is what the program
    returns, and the text that it shows. *)
Definition show_reply (root error_response response : Z) (h : heap) : outcome (Z * option Z * heap) :=
  let! object := cJSON_IsObject root h in
  if (root =? 0) || negb object then Ret (1, None, h) else
  let! resp := cJSON_GetObjectItem root error_response h in
  let! (w, h) :=
    if negb (resp =? 0) then print_node true resp h
    else
      let! resp := cJSON_GetObjectItem root response h in
      if negb (resp =? 0) then print_node true resp h else print_node true root h in
  let! h := cJSON_Delete root h in
  Ret (0, Some w, h).

(** The attachment: [main] lets only an object through, [nova_invoke] shows
    that of the reply. *)
Definition valid_attach (attach : option bytes) : outcome bool :=
  match attach with
  | None => Ret true
  | Some a => let! root := cJSON_Parse (Some a) in Ret (match root with Some i => base_type i =? cJSON_Object | None => false end)
  end.
Definition show_attach (attach : bytes) (attach_len : Z) : outcome (option bytes) :=
  let! attach := arr_set attach attach_len 0 in
  if attach_len =? 0 then Ret None else
  let! r := strcmp attach (str "{}" ++ [0]) in
  if r =? 0 then Ret None else
  let! root := cJSON_Parse (Some attach) in
  match root with Some i => cJSON_PrintUnformatted i global_hooks | None => Ret None end.
End nova.

(** ** The walk over the members *)
Definition is_container (t : tree) : bool := let ty := Z.land (l_type (lab t)) 255 in (ty =? cJSON_Array) || (ty =? cJSON_Object).

Lemma load_gone h L T p : rep h L T -> p ∉ L.*1 -> load p h = Undefined.
Proof. intros [Hn _ _ _ _ _] Hp. unfold load. rewrite Hn. by rewrite (not_elem_of_list_to_map_1 _ _ Hp). Qed.

(** A replaced child is gone. *)
Lemma replaced_gone h h' pv nx a x l1 t l2 r r' L T T' : addresses r' = addresses r -> rep h (cells pv nx (Tree a x (l1 ++ t :: l2)) ++ cells 0 0 r ++ L) T ->
  rep h' (cells pv nx (Tree a x (l1 ++ r' :: l2)) ++ L) T' -> load (root t) h' = Undefined.
Proof.
  intros Ea [_ _ Hd _ _ _] Hr'. apply (load_gone _ _ _ _ Hr'). rewrite fmap_app, tree_addresses, flat_map_app in *. cbn [flat_map] in *. rewrite fmap_app, cells_addresses in Hd.
  rewrite Ea. intros Hin. pose proof (root_address t) as Ht. apply NoDup_ListNoDup in Hd.
  assert (NoDup (addresses t ++ (a :: flat_map addresses l1 ++ addresses r ++ flat_map addresses l2) ++ L.*1)) as Hd'.
  { apply NoDup_ListNoDup. eapply Permutation_NoDup; [|exact Hd]. solve_Permutation. }
  apply NoDup_app in Hd' as (_ & Hd' & _). apply (Hd' (root t) Ht). rewrite !elem_of_app in *. cbn in Hin |- *. rewrite elem_of_cons in *. rewrite !elem_of_app in *. tauto.
Qed.

Section walk.
Context `{AllocTotal} `{Memory}.

Lemma container_test h L T pv t l nx : rep h (chain pv (t :: l) nx ++ L) T ->
  (let! array := cJSON_IsArray (root t) h in let! object := cJSON_IsObject (root t) h in Ret ((array : bool) || object)) = Ret (is_container t) /\
  exists array object, cJSON_IsArray (root t) h = Ret array /\ cJSON_IsObject (root t) h = Ret object /\ array || object = is_container t.
Proof.
  intros Hr. destruct (walk_load h T _ _ _ _ _ Hr) as [E Hz]. unfold cJSON_IsArray, cJSON_IsObject, is_type, is_container.
  rewrite (proj2 (Z.eqb_neq _ 0)), E, !ret_bind by done. split; [done|]. eexists _, _. by split_and!.
Qed.

(** Scalars are passed over. *)
Lemma flatten_scalars h T a n : forall l pv rest L, rep h (chain pv (l ++ rest) 0 ++ L) T -> Forall (fun t => is_container t = false) l ->
  flatten_loop (length l + n) a (first (l ++ rest) 0) h = flatten_loop n a (first rest 0) h.
Proof.
  induction l as [|t l IH]; intros pv rest L Hr Hl; [done|]. apply Forall_cons in Hl as [Ht Hl]. cbn [app] in *. cbn [length Nat.add flatten_loop first].
  destruct (walk_load h T _ _ _ _ _ Hr) as [E Hz], (container_test h L T _ _ _ _ Hr) as [_ (ar & ob & E1 & E2 & E3)].
  rewrite (proj2 (Z.eqb_neq _ 0)), E1, ret_bind, E2, ret_bind, E3, Ht, ret_bind, E, ret_bind by done. cbn [next cell].
  apply (IH (root t) rest (cells pv (first (l ++ rest) 0) t ++ L)); [|done]. rewrite chain_cons in Hr. reorder Hr.
Qed.

(** The name of a child. *)
Lemma name_held T l1 t l2 n1 n n2 : has_names T (l1 ++ t :: l2) (n1 ++ n :: n2) -> length l1 = length n1 -> holds T (ptr (l_string (lab t))) n.
Proof. intros Hn Hlen. apply Forall2_app_inv in Hn as [_ Hn]; [|done]. by apply Forall2_cons in Hn as [Hn _]. Qed.
Lemma holds_nonzero h L T a s : rep h L T -> holds T a s -> a <> 0.
Proof. intros Hr (b & Hb & _). by apply (text_held h L T a b). Qed.

Lemma replace_frees h pv nx a x l1 t l2 n1 n n2 j L T : rep h (cells pv nx (Tree a x (l1 ++ t :: l2)) ++ L) (tree_texts t ++ T) -> is_ref x = false -> tree_ok t ->
  self_contained t -> json_of (item_of h t) = Some j -> json_ok j -> zlen (json_text false 0 j) + 2 <= INT_MAX ->
  has_names (tree_texts t ++ T) (l1 ++ t :: l2) (n1 ++ n :: n2) -> length l1 = length n1 -> Forall (fun m => ~ same_name false n m) n1 -> ~ may_fail h ->
  exists h', (let! n := load (root t) h in let! (w, h) := print_node false (root t) h in let! (s, h) := cJSON_CreateString w h in cJSON_ReplaceItemInObject a (n_string n) s h) = Ret h' /\
    load (root t) h' = Undefined.
Proof.
  intros Hr Hx Hto Hself Hj Hjok Hlen Hn Hn1 Hno Hm. pose proof Hr as Hk. apply kid_cells in Hk. rewrite (load_rep _ _ _ _ _ Hk), ret_bind. cbn [n_string cell].
  set (L1 := (a, cell pv nx x (l1 ++ t :: l2)) :: chain 0 l1 (root t) ++ chain (root t) l2 0 ++ L).
  assert (rep h (cells (final 0 l1) (first l2 0) t ++ L1) (tree_texts t ++ T)) as Hr0 by (rewrite cells_cell; unfold L1; reorder Hk).
  destruct (print_node_ok false h _ _ t j _ _ Hr0 Hself Hm Hj Hjok Hlen) as (w & b & h1 & -> & Hl1 & (rest & ->) & Hw & Hr1). rewrite ret_bind.
  set (L2 := cells pv nx (Tree a x (l1 ++ t :: l2)) ++ L). assert (rep h1 L2 ((w, json_text false 0 j ++ 0 :: rest) :: tree_texts t ++ T)) as Hr2.
  { unfold L2. rewrite cells_around. unfold L1 in Hr1. reorder Hr1. }
  pose proof (later_sure _ _ Hl1 Hm) as Hm1. assert (holds ((w, json_text false 0 j ++ 0 :: rest) :: tree_texts t ++ T) w (json_text false 0 j)) as Hwt.
  { exists (json_text false 0 j ++ 0 :: rest). split; [by left|]. apply c_str_ok. by apply no_nul_json_text. }
  destruct (create_text_ok cJSON_String w _ h1 _ _ Hr2 Hwt) as (s & h2 & E2 & Hl2 & [(_ & Hmf & _)|(q & Hs & Hr3)]); [done|]. unfold cJSON_CreateString. rewrite E2, ret_bind.
  pose proof (later_sure _ _ Hl2 Hm1) as Hm2. set (y := mkLabel cJSON_String (Owned q _) 0 _ Nothing 0) in *.
  set (U := (q, json_text false 0 j ++ [0]) :: (w, json_text false 0 j ++ 0 :: rest) :: T).
  assert (tree_texts t ++ U ≡ₚ [(q, json_text false 0 j ++ [0]); (w, json_text false 0 j ++ 0 :: rest)] ++ tree_texts t ++ T) as HU by (unfold U; solve_Permutation).
  assert (rep h2 (cells pv nx (Tree a x (l1 ++ t :: l2)) ++ cells 0 0 (Tree s y []) ++ L) (own (l_string y) ++ tree_texts t ++ U)) as Hr4.
  { eapply rep_perm; [exact Hr3|unfold L2; solve_Permutation|]. cbn [y l_string own app]. rewrite HU. done. }
  destruct (replace_name_ok pv nx a x l1 t l2 n1 n n2 s y [] false (ptr (l_string (lab t))) n h2 L U Hx Hr4 Hto) as (f & h3 & E3 & Hl3 & Hf & Hr5); try done.
  - eapply holds_perm; [symmetry; exact HU|]. apply holds_more. by apply (name_held _ l1 t l2 n1 n n2).
  - eapply has_names_perm; [symmetry; exact HU|]. by apply has_names_more.
  - exists h3. unfold cJSON_ReplaceItemInObject. rewrite E3, ret_bind. split; [done|]. by apply (replaced_gone h2 h3 pv nx a x l1 t l2 (Tree s y []) (Tree s (named y (clear_flag (l_type y)) f) []) L _ _ eq_refl Hr4 Hr5).
Qed.

(** C15. The walk of [main] over the arguments: at the first member that is an
    array or an object, when no member before it has that name (in any case)
    and there is memory for its text, [cJSON_ReplaceItemInObject] frees the
    node that [cur] points to, and [cur->next] reads it. *)
Theorem main_args_use_after_free h a x l1 t l2 n1 n n2 j F K : forest h (Tree a x (l1 ++ t :: l2) :: F) K ->
  is_ref x = false -> Z.land (l_type x) 255 = cJSON_Object -> Forall (fun t => is_container t = false) l1 -> is_container t = true -> self_contained t ->
  json_of (item_of h t) = Some j -> json_ok j -> zlen (json_text false 0 j) + 2 <= INT_MAX ->
  has_names (list_texts (Tree a x (l1 ++ t :: l2) :: F) ++ K) (l1 ++ t :: l2) (n1 ++ n :: n2) -> length l1 = length n1 -> Forall (fun m => ~ same_name false n m) n1 ->
  ~ may_fail h -> main_args a h = Undefined.
Proof.
  intros [Hr Hok] Hx Hobj Hl1 Ht Hself Hj Hjok Hlen Hn Hn1 Hno Hm. rewrite roots_cons in Hr. apply Forall_cons in Hok as [[Hxo [_ [Hto _]%Forall_cons]%Forall_app]%tree_ok_Tree _].
  set (T := list_texts (Tree a x (l1 ++ t :: l2) :: F) ++ K) in *.
  destruct (rep_kids 0 0 a x _ h _ _ Hr) as [Hc Hf]. pose proof Hr as Hp. rewrite cells_Tree in Hp. unfold main_args. rewrite (proj2 (Z.eqb_neq a 0)) by (by apply (rep_ptr _ _ _ _ _ Hp)).
  unfold cJSON_IsObject at 1, is_type at 1. rewrite (proj2 (Z.eqb_neq a 0)), (load_rep _ _ _ _ _ Hp), !ret_bind by (by apply (rep_ptr _ _ _ _ _ Hp)). cbn [n_type cell]. rewrite Hobj. cbn [Z.eqb negb].
  rewrite child_cell by done. assert (exists m, heap_fuel h = (length l1 + S m)%nat) as [m ->] by (exists (heap_fuel h - length l1 - 1)%nat; rewrite length_app in Hf; cbn [length] in Hf; lia).
  rewrite (flatten_scalars h T a (S m) l1 0 (t :: l2) _ Hc Hl1). cbn [first flatten_loop].
  change (cJSON_Object =? cJSON_Object) with true. cbn [negb].
  assert (rep h (chain (final 0 l1) (t :: l2) 0 ++ (a, cell 0 0 x (l1 ++ t :: l2)) :: chain 0 l1 (root t) ++ roots F) T) as Hc2 by (rewrite chain_app in Hc; cbn [first] in Hc; reorder Hc).
  destruct (container_test h _ _ _ _ _ _ Hc2) as [_ (ar & ob & E1 & E2 & E3)], (walk_load h _ _ _ _ _ _ Hc2) as [_ Hz]. rewrite (proj2 (Z.eqb_neq (root t) 0)), E1, ret_bind, E2, ret_bind, E3, Ht by done.
  set (T' := own (l_valuestring x) ++ own (l_string x) ++ list_texts l1 ++ list_texts l2 ++ list_texts F ++ K).
  assert (T ≡ₚ tree_texts t ++ T') as HT by (unfold T, T'; rewrite list_texts_cons, texts_Tree, list_texts_app, list_texts_cons; solve_Permutation).
  destruct (replace_frees h 0 0 a x l1 t l2 n1 n n2 j (roots F) T') as (h' & -> & E); try done.
  - by rewrite <- HT.
  - by eapply has_names_perm.
  - rewrite ret_bind, E. done.
Qed.

(** Arguments without arrays and objects: their text is sent, and nothing
    changes but that there is one text more. *)
Theorem main_args_flat h a x l j F K : forest h (Tree a x l :: F) K -> is_ref x = false -> Z.land (l_type x) 255 = cJSON_Object ->
  Forall (fun t => is_container t = false) l -> self_contained (Tree a x l) ->
  json_of (item_of h (Tree a x l)) = Some j -> json_ok j -> zlen (json_text false 0 j) + 2 <= INT_MAX -> ~ may_fail h ->
  exists w b h', main_args a h = Ret (Some (w, h')) /\ text_in j false b /\ forest h' (Tree a x l :: F) ((w, b) :: K).
Proof.
  intros [Hr Hok] Hx Hobj Hl Hself Hj Hjok Hlen Hm. rewrite roots_cons, list_texts_cons, <- app_assoc in Hr.
  destruct (rep_kids 0 0 a x _ h _ _ Hr) as [Hc Hf]. pose proof Hr as Hp. rewrite cells_Tree in Hp. unfold main_args. rewrite (proj2 (Z.eqb_neq a 0)) by (by apply (rep_ptr _ _ _ _ _ Hp)).
  unfold cJSON_IsObject at 1, is_type at 1. rewrite (proj2 (Z.eqb_neq a 0)), (load_rep _ _ _ _ _ Hp), !ret_bind by (by apply (rep_ptr _ _ _ _ _ Hp)). cbn [n_type cell]. rewrite Hobj.
  change (cJSON_Object =? cJSON_Object) with true. cbn [negb]. rewrite child_cell by done.
  destruct (print_node_ok false h 0 0 (Tree a x l) j _ _ Hr Hself Hm Hj Hjok Hlen) as (w & b & h' & E & _ & Hb & _ & Hr'). cbn [root] in E.
  assert (exists m, heap_fuel h = (length l + S m)%nat) as [m ->] by (exists (heap_fuel h - length l - 1)%nat; lia).
  pose proof (flatten_scalars h (tree_texts (Tree a x l) ++ list_texts F ++ K) a (S m) l 0 [] ((a, cell 0 0 x l) :: roots F)) as Ef. rewrite app_nil_r in Ef. rewrite (Ef Hc Hl). cbn [first flatten_loop Z.eqb]. rewrite ret_bind, E, ret_bind.
  exists w, b, h'. split_and!; [done|done|]. split; [|done]. rewrite roots_cons, list_texts_cons. reorder Hr'.
Qed.

(** *** The reply *)

(** The first member with a name. *)
Fixpoint pick (nm : bytes) (l : list (bytes * json)) : option json :=
  match l with [] => None | (k, v) :: l => if decide (same_name false nm k) then Some v else pick nm l end.
(** What is shown of a reply. *)
Definition shown (l : list (bytes * json)) : json :=
  match pick (str "error_response") l with
  | Some v => v
  | None => match pick (str "response") l with Some v => v | None => JObj l end
  end.

Lemma find_pick h nm m jm : Forall2 (is_member h) m jm ->
  find_name false nm m (fst <$> jm) = 0 /\ pick nm jm = None \/
  exists m1 u m2 k, m = m1 ++ u :: m2 /\ find_name false nm m (fst <$> jm) = root u /\ json_of (item_of h u) = Some k /\ pick nm jm = Some k /\ k ∈ (snd <$> jm).
Proof.
  induction 1 as [|u [n k] m jm [_ Hu] Hm IH]; [by left|]. cbn [fmap list_fmap find_name pick fst snd]. destruct (decide (same_name false nm n)).
  - right. exists [], u, m, k. split_and!; [done|done|done|done|by left].
  - destruct IH as [[E1 E2]|(m1 & u' & m2 & k' & -> & E1 & E2 & E3 & Hk)]; [by left|]. right. exists (u :: m1), u', m2, k'. split_and!; [done|done|done|done|by right].
Qed.

Lemma get_name_ok h a x l s nm jm L T : rep h (cells 0 0 (Tree a x l) ++ L) (tree_texts (Tree a x l) ++ T) -> is_ref x = false -> Forall2 (is_member h) l jm -> holds T s nm ->
  cJSON_GetObjectItem a s h = Ret (find_name false nm l (fst <$> jm)).
Proof.
  intros Hr Hx Hm Hs. unfold cJSON_GetObjectItem. apply (get_object_item_ok 0 0 a x l _ false s nm h L _ Hx Hr); [by apply holds_more|].
  apply (members_names h _ l jm Hm); [by eexists|apply sub_texts].
Qed.

(** A tree in a tree: what is printed of it. *)
Lemma print_kid_ok h a x m1 u m2 k L T : rep h (cells 0 0 (Tree a x (m1 ++ u :: m2)) ++ L) (tree_texts (Tree a x (m1 ++ u :: m2)) ++ T) -> self_contained u -> ~ may_fail h ->
  json_of (item_of h u) = Some k -> json_ok k -> zlen (json_text true 0 k) + 2 <= INT_MAX ->
  root u <> 0 /\ exists w b h', print_node true (root u) h = Ret (w, h') /\ later h h' /\ text_in k true b /\
    rep h' (cells 0 0 (Tree a x (m1 ++ u :: m2)) ++ L) ((w, b) :: tree_texts (Tree a x (m1 ++ u :: m2)) ++ T).
Proof.
  intros Hr Hself Hm Hj Hok Hlen. pose proof Hr as Hu. rewrite cells_around in Hu.
  set (L1 := (a, cell 0 0 x (m1 ++ u :: m2)) :: chain 0 m1 (root u) ++ chain (root u) m2 0 ++ L). set (T1 := own (l_valuestring x) ++ own (l_string x) ++ list_texts m1 ++ list_texts m2 ++ T).
  assert (tree_texts (Tree a x (m1 ++ u :: m2)) ++ T ≡ₚ tree_texts u ++ T1) as HT by (unfold T1; rewrite texts_Tree, list_texts_app, list_texts_cons; solve_Permutation).
  assert (rep h (cells (final 0 m1) (first m2 0) u ++ L1) (tree_texts u ++ T1)) as Hu' by (rewrite <- HT; unfold L1; reorder Hu).
  split; [by apply (roots_nonzero _ _ _ _ _ _ Hu')|]. destruct (print_node_ok true h _ _ u k _ _ Hu' Hself Hm Hj Hok Hlen) as (w & b & h' & E & Hl & Hb & _ & Hr').
  exists w, b, h'. split_and!; [done|done|done|]. rewrite cells_around, HT. unfold L1 in Hr'. reorder Hr'.
Qed.
Lemma json_ok_member l k : json_ok (JObj l) -> k ∈ (snd <$> l) -> json_ok k.
Proof. intros Hok%json_ok_obj (kv & -> & Hin)%list_elem_of_fmap. rewrite Forall_forall in Hok. by apply Hok. Qed.

(** C16. The reply of a nova server: when it is a JSON object the program shows
    the value of its first member [error_response] (in any case), or else of
    [response], or else all of it, frees the tree, and ends with 0. (The text
    it has shown is not freed.) *)
Theorem show_reply_ok h a x l e r jl F K : forest h (Tree a x l :: F) K -> Z.land (l_type x) 255 = cJSON_Object -> self_contained (Tree a x l) ->
  json_of (item_of h (Tree a x l)) = Some (JObj jl) -> json_ok (JObj jl) -> zlen (json_text true 0 (shown jl)) + 2 <= INT_MAX ->
  holds K e (str "error_response") -> holds K r (str "response") -> ~ may_fail h ->
  exists w b h', show_reply a e r h = Ret (0, Some w, h') /\ text_in (shown jl) true b /\ forest h' F ((w, b) :: K).
Proof.
  intros [Hr Hok] Hobj Hself Hj Hjok Hlen He Hrs Hm. rewrite roots_cons, list_texts_cons, <- app_assoc in Hr. apply Forall_cons in Hok as [Hto HF].
  pose proof Hself as (Hx & _ & _ & Hkids)%self_contained_Tree. pose proof Hr as Hp. rewrite cells_Tree in Hp. pose proof (proj2 (rep_ptr _ _ _ _ _ Hp)) as Ha.
  assert (Forall2 (is_member h) l jl) as Hmem.
  { apply json_shape in Hj. inversion Hj; subst. by apply member_list. }
  unfold show_reply, cJSON_IsObject, is_type. rewrite (proj2 (Z.eqb_neq a 0)), (load_rep _ _ _ _ _ Hp), !ret_bind by done. cbn [n_type cell]. rewrite Hobj. change (cJSON_Object =? cJSON_Object) with true. cbn [negb orb].
  rewrite (get_name_ok h a x l e _ jl _ _ Hr Hx Hmem (holds_more _ (list_texts F) _ _ He)), ret_bind.
  assert (exists w b h', (if negb (find_name false (str "error_response") l (fst <$> jl) =? 0) then print_node true (find_name false (str "error_response") l (fst <$> jl)) h
      else let! resp := cJSON_GetObjectItem a r h in if negb (resp =? 0) then print_node true resp h else print_node true a h) = Ret (w, h') /\
    text_in (shown jl) true b /\ rep h' (cells 0 0 (Tree a x l) ++ roots F) ((w, b) :: tree_texts (Tree a x l) ++ list_texts F ++ K)) as (w & b & h' & -> & Hb & Hr').
  { destruct (find_pick h (str "error_response") l jl Hmem) as [[-> E]|(m1 & u & m2 & k & -> & -> & Hu & E & Hk)].
    - cbn [Z.eqb negb]. rewrite (get_name_ok h a x l r _ jl _ _ Hr Hx Hmem (holds_more _ (list_texts F) _ _ Hrs)), ret_bind. unfold shown in Hlen |- *. rewrite E in Hlen |- *.
      destruct (find_pick h (str "response") l jl Hmem) as [[-> E']|(m1 & u & m2 & k & -> & -> & Hu & E' & Hk)]; rewrite E' in Hlen |- *.
      + cbn [Z.eqb negb]. destruct (print_node_ok true h 0 0 (Tree a x l) (JObj jl) _ _ Hr Hself Hm Hj Hjok Hlen) as (w & b & h' & E1 & _ & Hb & _ & Hr'). by exists w, b, h'.
      + apply Forall_app in Hkids as [_ [Hsu _]%Forall_cons]. destruct (print_kid_ok h a x m1 u m2 k _ _ Hr Hsu Hm Hu (json_ok_member _ _ Hjok Hk) Hlen) as [Hu0 (w & b & h' & E1 & _ & Hb & Hr')].
        rewrite (proj2 (Z.eqb_neq _ 0)) by done. by exists w, b, h'.
    - unfold shown in Hlen |- *. rewrite E in Hlen |- *. apply Forall_app in Hkids as [_ [Hsu _]%Forall_cons]. destruct (print_kid_ok h a x m1 u m2 k _ _ Hr Hsu Hm Hu (json_ok_member _ _ Hjok Hk) Hlen) as [Hu0 (w & b & h' & E1 & _ & Hb & Hr')].
      rewrite (proj2 (Z.eqb_neq _ 0)) by done. by exists w, b, h'. }
  rewrite ret_bind. destruct (cJSON_Delete_ok (Tree a x l) h' (roots F) ((w, b) :: list_texts F ++ K)) as (h2 & E2 & Hr2 & _); [reorder Hr'|done|]. cbn [root] in E2. rewrite E2, ret_bind.
  exists w, b, h2. split_and!; [done|done|]. split; [|done]. reorder Hr2.
Qed.
End walk.

(** <<{"a": [1, "x"], "b": null}>>. *)
Lemma main_args_use_after_free_witness : @main_args big_alloc demo_memory 1 (demo_heap [] [demo 1 97 98]) = Undefined.
Proof.
  assert (forest (demo_heap [] [demo 1 97 98]) [demo 1 97 98] []) as Hf.
  { apply heap_of_forest; [vm_compute; reflexivity|]. apply Forall_singleton. destruct (demo_forest [] 1 40 97 98 97 98) as [_ Hok]; [by left|by left|]. by apply Forall_cons in Hok as [Hok _]. }
  assert (of_int 1 = Fin false (2 ^ 52) 1022) as E1 by (vm_compute; reflexivity).
  refine (@main_args_use_after_free big_alloc big_alloc_total demo_memory _ 1 _ [] _ _ [] [97] [[98]] (JArr [JNum (of_int 1); JStr [120]]) [] [] Hf eq_refl eq_refl _ eq_refl _ _ _ _ _ eq_refl _ _).
  - constructor.
  - cbn. by repeat split.
  - cbn -[of_int]. reflexivity.
  - pose proof demo_json_ok as Hd. apply json_ok_obj in Hd. apply Forall_cons in Hd as [[_ Hd] _]. exact Hd.
  - vm_decide.
  - constructor; [|constructor; [|constructor]]; [exists [97; 0]|exists [98; 0]]; (split; [|reflexivity]); vm_decide.
  - constructor.
  - apply no_failures.
Defined.

(** <<{"c": 1}>>. *)
Definition flat_args : tree := Tree 1 (leaf cJSON_Object Nothing 0 Nothing) [Tree 2 (leaf cJSON_Number Nothing 1 (Owned 3 [99; 0])) []].
Lemma main_args_flat_witness : exists w b h', @main_args big_alloc demo_memory 1 (heap_of [flat_args] [] 100 []) = Ret (Some (w, h')) /\
  text_in (JObj [([99], JNum (of_int 1))]) false b /\ forest h' [flat_args] [(w, b)].
Proof.
  assert (forest (heap_of [flat_args] [] 100 []) [flat_args] []) as Hf.
  { apply heap_of_forest; [vm_compute; reflexivity|]. apply Forall_singleton. apply tree_ok_Tree. split; [by apply leaf_ok|]. apply Forall_singleton. apply tree_ok_Tree. split; [by apply leaf_ok|done]. }
  assert (canonical (of_int 1) /\ of_int 1 <> NaN) as H1.
  { assert (of_int 1 = Fin false (2 ^ 52) 1022) as E by (vm_compute; reflexivity). rewrite E. unfold canonical. split; [lia|discriminate]. }
  refine (@main_args_flat big_alloc big_alloc_total demo_memory _ 1 _ _ (JObj [([99], JNum (of_int 1))]) [] [] Hf eq_refl eq_refl _ _ _ _ _ _).
  - by apply Forall_singleton.
  - cbn. by repeat split.
  - cbn -[of_int]. reflexivity.
  - apply json_ok_obj. apply Forall_singleton. split; [vm_decide|exact H1].
  - vm_decide.
  - apply no_failures.
Defined.

(** <<{"Response": "hi"}>>. *)
Definition demo_literals : texts_t := [(10, str "error_response" ++ [0]); (11, str "response" ++ [0])].
Definition demo_reply : tree := Tree 1 (leaf cJSON_Object Nothing 0 Nothing) [Tree 2 (leaf cJSON_String (Owned 3 [104; 105; 0]) 0 (Owned 4 (str "Response" ++ [0]))) []].
Lemma show_reply_ok_witness : exists w b h', @show_reply big_alloc demo_memory 1 10 11 (heap_of [demo_reply] demo_literals 100 []) = Ret (0, Some w, h') /\
  text_in (JStr [104; 105]) true b /\ forest h' [] ((w, b) :: demo_literals).
Proof.
  assert (forest (heap_of [demo_reply] demo_literals 100 []) [demo_reply] demo_literals) as Hf.
  { apply heap_of_forest; [vm_compute; reflexivity|]. apply Forall_singleton. apply tree_ok_Tree. split; [by apply leaf_ok|]. apply Forall_singleton. apply tree_ok_Tree. split; [by apply leaf_ok|done]. }
  refine (@show_reply_ok big_alloc big_alloc_total demo_memory _ 1 _ _ 10 11 [(str "Response", JStr [104; 105])] [] demo_literals Hf eq_refl _ _ _ _ _ _ _).
  - cbn. by repeat split.
  - vm_compute. reflexivity.
  - apply json_ok_obj. apply Forall_singleton. split; vm_decide.
  - vm_decide.
  - exists (str "error_response" ++ [0]). split; [by left|reflexivity].
  - exists (str "response" ++ [0]). split; [by right; left|reflexivity].
  - apply no_failures.
Defined.

(** A reply that is no object is not freed. *)
Example show_reply_leak : exists h, @show_reply big_alloc demo_memory 1 10 11 (heap_of [Tree 1 (leaf cJSON_Array Nothing 0 Nothing) []] demo_literals 100 []) = Ret (1, None, h) /\ size (nodes h) = 1%nat.
Proof. eexists. split; vm_compute; reflexivity. Qed.

Example show_attach_1 : @show_attach big_alloc demo_memory (str "{}" ++ [7]) 2 = Ret None /\ @show_attach big_alloc demo_memory [7] 0 = Ret None /\
  (exists b, @show_attach big_alloc demo_memory ([123; 32; 34; 97; 34; 58; 32; 91; 49; 46; 53; 48; 93; 32; 125] ++ [7]) 15 = Ret (Some b) /\ c_str b = Ret [123; 34; 97; 34; 58; 91; 49; 46; 53; 93; 125]) /\
  @valid_attach big_alloc demo_memory (Some (str "[]" ++ [0])) = Ret false /\ @valid_attach big_alloc demo_memory (Some (str "{}" ++ [0])) = Ret true.
Proof. split_and!; [vm_compute; reflexivity|vm_compute; reflexivity| |vm_compute; reflexivity|vm_compute; reflexivity]. eexists. split; vm_compute; reflexivity. Qed.
