(* ===== verification/DubboJson.v ===== *)
(** * The arguments of a dubbo call: from JSON text to ASCII

    [rebuild_json_args] of [dubbo_client/dubbo_codec.c] on the heap of cJSON:
    the text is parsed, copies of its elements are collected in an array, the
    array is printed and the text escaped.  This is where [DubboCodec] has a
    parameter for what cJSON does. *)

From stdpp Require Import base tactics numbers list option gmap sets strings.
From Stdlib Require Import Lia.
From S2P Require Import Prelude ByteBuf Buffer Utf8 Hessian DubboCodec Double CJson CJsonSpec CJsonSafe CJsonGrammar CJsonPrint CJsonPrintOk CJsonDom CJsonTree CJsonDomOk CJsonCopy CJsonCompare CJsonHeap.

(** ** The code *)

(** The loop over the elements; a copy that fails is left out. *)
Fixpoint collect_loop (fuel : nat) (arr el : Z) (h : heap) : outcome heap :=
  match fuel with
  | O => OutOfFuel
  | S fuel =>
    if el =? 0 then Ret h else
    let! (copy, h) := cJSON_Duplicate el true h in
    let! h := cJSON_AddItemToArray arr copy h in
    let! n := load el h in
    collect_loop fuel arr (next n) h
  end.

Section rebuild.
Context `{Allocator} `{Memory}.

(** Up to [cJSON_PrintUnformatted]: the text in UTF-8 ([None]: NULL is
    returned before). *)
Definition args_text (json_str : bytes) (h : heap) : outcome (option Z * heap) :=
  let! (root, h) := parse_in json_str h in
  if root =? 0 then Ret (None, h) else
  let! array := cJSON_IsArray root h in
  let! object := cJSON_IsObject root h in
  if negb array && negb object then let! h := cJSON_Delete root h in Ret (None, h) else
  let! (arr, h) := cJSON_CreateArray h in
  let! r := load root h in
  let! h := collect_loop (heap_fuel h) arr (n_child r) h in
  let! h := cJSON_Delete root h in
  let! (utf8_json, h) := print_node false arr h in
  Ret (Some utf8_json, h).

Definition rebuild_json_args {B : Type} `{ByteBuf B} (json_str : bytes) (h : heap) : outcome (option bytes * heap) :=
  let! (utf8_json, h) := args_text json_str h in
  match utf8_json with
  | None => Ret (None, h)
  | Some utf8_json =>
    let! s := text utf8_json h in
    let! ascii_s := utf82ascii (B := B) s in
    let! h := free_text utf8_json h in
    Ret (ascii_s, h)
  end.

(** What it is for the codec: a function of the text, in a given heap. *)
Definition elements_in (h : heap) (json_str : bytes) : option bytes :=
  match args_text json_str h with
  | Ret (Some a, h) => match text a h with Ret s => Some s | _ => None end
  | _ => None
  end.
End rebuild.

(** ** The specification *)

(** The arguments in a JSON text: the elements of an array, or the values of
    the members of an object. *)
Definition arguments (j : json) : option (list json) :=
  match j with JArr l => Some l | JObj l => Some (snd <$> l) | _ => None end.

(** [r] is the ASCII form of the text, NULL when it is not UTF-8. *)
Definition ascii_form (text : bytes) (r : option bytes) : Prop :=
  exists cs t, Forall scalar cs /\ text = encs cs ++ t /\ (t = [] /\ r = Some (Hessian.escapes cs ++ [0]) \/ malformed t /\ r = None).

Lemma arguments_ok j vs : json_ok j -> arguments j = Some vs -> json_ok (JArr vs).
Proof.
  destruct j; intros Hj [= <-]; [done|]. apply json_ok_arr. apply json_ok_obj in Hj. rewrite Forall_fmap. eapply Forall_impl; [exact Hj|]. by intros [k v] [_ Hv].
Qed.

(** The children of the root stand for the arguments. *)
Lemma arguments_kids h p x l j vs : json_of (item_of h (Tree p x l)) = Some j -> arguments j = Some vs -> Forall2 (fun t v => json_of (item_of h t) = Some v) l vs.
Proof.
  intros Hj%json_shape Ha. inversion Hj as [| | | | |? _ El|? _ El]; subst; try done; injection Ha as <-.
  - exact (value_list h l _ El).
  - apply Forall2_fmap_r. eapply Forall2_impl; [exact (member_list h l _ El)|]. by intros t [k v] [_ Hv].
Qed.

Lemma elements_intro h l vs : Forall2 (fun t v => json_of (item_of h t) = Some v) l vs -> elements json_of (map (item_of h) l) = Some vs.
Proof. induction 1 as [|t v l vs Ht Hl IH]; [done|]. cbn. by rewrite Ht, IH. Qed.

(** Whether the root is a container, by its value. *)
Lemma container_type i j : json_of i = Some j ->
  (base_type i =? cJSON_Array) || (base_type i =? cJSON_Object) = match arguments j with Some _ => true | None => false end.
Proof. intros Hj%json_shape. inversion Hj as [E|E|E|E|? ? E|? E|? E]; subst; by rewrite E. Qed.

(** ** Collecting the copies *)
Lemma collect_ok p x q y : is_ref y = false -> forall n l2 l1 done h L T,
  rep h (cells 0 0 (Tree q y done) ++ cells 0 0 (Tree p x (l1 ++ l2)) ++ L) (tree_texts (Tree q y done) ++ tree_texts (Tree p x (l1 ++ l2)) ++ T) ->
  Forall tree_ok l2 -> Forall own_tree l2 -> Forall2 copy_of l1 done -> Forall tree_ok done -> ~ may_fail h -> (length l2 < n)%nat ->
  exists h' done', collect_loop n q (first l2 0) h = Ret h' /\ ~ may_fail h' /\
    rep h' (cells 0 0 (Tree q y done') ++ cells 0 0 (Tree p x (l1 ++ l2)) ++ L) (tree_texts (Tree q y done') ++ tree_texts (Tree p x (l1 ++ l2)) ++ T) /\
    Forall tree_ok done' /\ Forall2 copy_of (l1 ++ l2) done'.
Proof.
  intros Hy. induction n as [|n IH]; intros [|t l2] l1 done h L T Hr Hto Hown Hcopy Hok Hm Hn; [cbn in Hn; lia|cbn in Hn; lia|..]; cbn [collect_loop first].
  { exists h, done. rewrite app_nil_r in *. by split_and!. }
  apply Forall_cons in Hto as [Ht Hto], Hown as [Hot Hown]. set (s := Tree p x (l1 ++ t :: l2)) in *. set (N := Tree q y done) in *.
  set (o := first l2 0). set (d := final 0 l1). set (R := (p, cell 0 0 x (l1 ++ t :: l2)) :: chain 0 l1 (root t) ++ chain (root t) l2 0 ++ L).
  assert (cells 0 0 s ++ L ≡ₚ cells d o t ++ R) as Es by (unfold s, R; rewrite cells_around; fold o d; solve_Permutation).
  set (R' := own (l_valuestring x) ++ own (l_string x) ++ list_texts l1 ++ list_texts l2 ++ T).
  assert (tree_texts s ++ T ≡ₚ tree_texts t ++ R') as Et by (unfold s, R'; rewrite texts_Tree, list_texts_app, list_texts_cons; solve_Permutation).
  assert (rep h (cells d o t ++ cells 0 0 N ++ R) (tree_texts t ++ tree_texts N ++ R')) as Hr1.
  { rewrite Es, Et in Hr. reorder Hr. }
  rewrite (proj2 (Z.eqb_neq (root t) 0)) by (by apply (roots_nonzero _ _ _ _ _ _ Hr1)). unfold cJSON_Duplicate.
  destruct (duplicate_ok t (heap_fuel h) Ht Hot) with (pv := d) (nx := o) (h := h) (L := cells 0 0 N ++ R) (T := tree_texts N ++ R')
    as (c & h1 & -> & Hl1 & [(_ & Hmf & _)|(t' & Ec & Hc0 & Hct & Hokt & Hr2)]); [rewrite (rep_fuel _ _ _ Hr1), length_app, !cells_cell; cbn [length]; lia|exact Hr1|done|].
  rewrite ret_bind. destruct (add_ok 0 0 q y Hy done t' h1 (cells d o t ++ R) (tree_texts t' ++ tree_texts t ++ tree_texts N ++ R')) as (h2 & E2 & Hr3 & A2); [unfold N in Hr2; reorder Hr2|].
  rewrite Ec in E2. rewrite E2, ret_bind. assert (rep h2 (cells d o t ++ cells 0 0 (Tree q y (done ++ [t'])) ++ R) (tree_texts t' ++ tree_texts t ++ tree_texts N ++ R')) as Hr4 by reorder Hr3.
  pose proof Hr4 as Hr5. rewrite cells_cell in Hr5. rewrite (load_rep _ _ _ _ _ Hr5), ret_bind. cbn [next cell].
  destruct (IH l2 (l1 ++ [t]) (done ++ [t']) h2 L T) as (h3 & done' & E & Hm3 & Hr6 & Hok' & Hres); try done.
  - rewrite <- app_assoc. cbn [app]. fold s. rewrite Es, Et.
    assert (tree_texts (Tree q y (done ++ [t'])) ≡ₚ tree_texts t' ++ tree_texts N) as -> by (unfold N; rewrite !texts_Tree, list_texts_app, list_texts_cons; cbn [list_texts flat_map]; solve_Permutation). reorder Hr4.
  - apply Forall2_app; [done|]. by apply Forall2_cons.
  - apply Forall_app. split; [done|]. by apply Forall_cons.
  - apply (later_sure h1); [by apply later_eq|by apply (later_sure h)].
  - cbn in Hn. lia.
  - rewrite <- app_assoc in Hr6, Hres. cbn [app] in Hr6, Hres. fold s in Hr6. exists h3, done'. by split_and!.
Qed.

(** The copies stand for the same values. *)
Lemma copies_values h l l' vs : Forall2 copy_of l l' -> Forall own_tree l -> Forall self_contained l ->
  Forall2 (fun t v => json_of (item_of h t) = Some v) l vs ->
  Forall2 (fun t v => forall h', json_of (item_of h' t) = Some v) l' vs /\ Forall self_contained l'.
Proof.
  intros Hc. revert vs. induction Hc as [|t t' l l' Ht Hc IH]; intros vs Ho Hs Hv; inversion Hv as [|? v ? vs' Hv1 Hv2]; subst; [by split|].
  apply Forall_cons in Ho as [Hot Ho], Hs as [Hst Hs]. destruct (IH vs' Ho Hs Hv2) as [IHv IHs]. pose proof (copy_self_contained t t' Ht Hst) as Hst'.
  split; [|by apply Forall_cons]. constructor; [|done]. intros h'. rewrite (item_of_self h' h) by done. by rewrite (proj1 (copy_value h t t' Ht Hot)).
Qed.

(** The arguments in what the parser returns. *)
Definition item_arguments (i : option cJSON) : option (list json) :=
  match i with Some i => match json_of i with Some j => arguments j | None => None end | None => None end.

Section laws.
Context `{AllocTotal} `{Memory}.

(** The array of the copies, the text of it, and no trace of the parsed tree. *)
Lemma collected_ok h p x l q vs L T : rep h (cells 0 0 (Tree q (plain cJSON_Array) []) ++ cells 0 0 (Tree p x l) ++ L) (tree_texts (Tree p x l) ++ T) ->
  tree_ok (Tree p x l) -> own_tree (Tree p x l) -> self_contained (Tree p x l) -> ~ may_fail h ->
  Forall2 (fun t v => json_of (item_of h t) = Some v) l vs -> json_ok (JArr vs) -> zlen (json_text false 0 (JArr vs)) + 2 <= INT_MAX ->
  exists arr w b h', (let! r := load p h in let! h := collect_loop (heap_fuel h) q (n_child r) h in let! h := cJSON_Delete p h in
      let! (utf8_json, h) := print_node false q h in Ret (Some utf8_json, h)) = Ret (Some w, h') /\ text_in (JArr vs) false b /\
    rep h' (cells 0 0 arr ++ L) ((w, b) :: tree_texts arr ++ T) /\ tree_ok arr /\ forall h, json_of (item_of h arr) = Some (JArr vs).
Proof.
  intros Hr Hto Ho Hs Hm Hv Hj Hlen. pose proof Hto as [_ Htol]%tree_ok_Tree. pose proof Ho as (Hx & _ & _ & Hol)%own_tree_Tree. pose proof Hs as (_ & _ & _ & Hsl)%self_contained_Tree.
  assert (rep h (cells 0 0 (Tree p x l) ++ cells 0 0 (Tree q (plain cJSON_Array) []) ++ L) (tree_texts (Tree p x l) ++ T)) as Hp by reorder Hr.
  pose proof (proj2 (rep_kids 0 0 p x l _ _ _ Hp)) as Hf. rewrite cells_Tree in Hp.
  rewrite (load_rep _ _ _ _ _ Hp), ret_bind, child_cell by done.
  destruct (collect_ok p x q (plain cJSON_Array) eq_refl (heap_fuel h) l [] [] h L T) as (h1 & k & E1 & Hm1 & Hr1 & Hk & Hc); [exact Hr|done|done|constructor|constructor|done|done|]. cbn [app] in *. rewrite E1, ret_bind.
  destruct (cJSON_Delete_ok (Tree p x l) h1 (cells 0 0 (Tree q (plain cJSON_Array) k) ++ L) (tree_texts (Tree q (plain cJSON_Array) k) ++ T)) as (h2 & E2 & Hr2 & A2); [reorder Hr1|done|].
  cbn [root] in E2. rewrite E2, ret_bind. destruct (copies_values h l k vs Hc Hol Hsl Hv) as [Hkv Hks].
  assert (forall h', json_of (item_of h' (Tree q (plain cJSON_Array) k)) = Some (JArr vs)) as Hval.
  { intros h'. apply json_of_array; [done|]. apply elements_intro. eapply Forall2_impl; [exact Hkv|]. auto. }
  destruct (print_node_ok false h2 0 0 (Tree q (plain cJSON_Array) k) (JArr vs) L T Hr2) as (w & b & h3 & E3 & _ & Hb & _ & Hr3); try done.
  - by apply self_contained_Tree.
  - by apply (later_sure h1); [apply later_eq|].
  - cbn [root] in E3. rewrite E3, ret_bind. exists (Tree q (plain cJSON_Array) k), w, b, h3. split_and!; try done. by apply tree_ok_Tree.
Qed.

Lemma args_text_ok s r h F K : no_nul s -> forest h F K -> ~ may_fail h ->
  exists i, cJSON_Parse (Some (s ++ 0 :: r)) = Ret i /\
    match item_arguments i with
    | None => exists h', args_text (s ++ 0 :: r) h = Ret (None, h') /\ forest h' F K
    | Some vs => json_ok (JArr vs) /\ (zlen (json_text false 0 (JArr vs)) + 2 <= INT_MAX ->
        exists arr w b h', args_text (s ++ 0 :: r) h = Ret (Some w, h') /\ text_in (JArr vs) false b /\
          forest h' (arr :: F) ((w, b) :: K) /\ forall h, json_of (item_of h arr) = Some (JArr vs))
    end.
Proof.
  intros Hs Hf Hm. destruct (parse_in_ok s r h F K Hs Hf) as (i & E & Hi). exists i. split; [done|]. unfold args_text. destruct i as [i|]; cbn [item_arguments]; [|exists h; by rewrite Hi].
  destruct Hi as ((_ & _ & j & Hj & Hjok & _) & [p x l] & h1 & -> & Hz & Hi & Ho & Hsc & [Hr Hok] & A). rewrite Hj, ret_bind. cbn [root] in *. apply Forall_cons in Hok as [Hto HF].
  rewrite roots_cons, list_texts_cons, <- app_assoc in Hr. pose proof Hr as Hp. rewrite cells_Tree in Hp.
  rewrite (proj2 (Z.eqb_neq p 0)) by done. unfold cJSON_IsArray, cJSON_IsObject, is_type. rewrite (proj2 (Z.eqb_neq p 0)), (load_rep _ _ _ _ _ Hp), !ret_bind by done. cbn [n_type cell].
  pose proof (container_type i j Hj) as Hc. rewrite <- Hi in Hc. unfold base_type in Hc. cbn [item_of type] in Hc. rewrite <- negb_orb, Hc. destruct (arguments j) as [vs|] eqn:Ha; cbn [negb].
  - split; [by apply (arguments_ok j)|]. intros Hlen. destruct (create_item_ok (with_type cJSON_Array) (plain cJSON_Array) h1 _ _ Hr) as (q & h2 & E2 & Hl2 & [(_ & Hmf & _)|[Hq Hr2]]); [done|destruct Hm; unfold may_fail in *; by rewrite <- A|].
    unfold cJSON_CreateArray. rewrite E2, ret_bind. rewrite <- Hi in Hj.
    destruct (collected_ok h2 p x l q vs (roots F) (list_texts F ++ K)) as (arr & w & b & h3 & E3 & Hb & Hr3 & Hoka & Hv); try done.
    + apply (later_sure h1); [done|]. unfold may_fail in *. by rewrite A.
    + rewrite (item_of_self h1 h2) in Hj by done. by apply (arguments_kids h2 p x l j).
    + by apply (arguments_ok j).
    + exists arr, w, b, h3. rewrite E3. split_and!; [done|done| |done]. split; [|by apply Forall_cons]. rewrite roots_cons, list_texts_cons. reorder Hr3.
  - destruct (cJSON_Delete_ok (Tree p x l) h1 (roots F) (list_texts F ++ K) Hr Hto) as (h2 & E2 & Hr2 & _). cbn [root] in E2. rewrite E2, ret_bind. exists h2. by split.
Qed.

(** Where the codec leaves cJSON to a parameter it computes the same. *)
Lemma rebuild_codec {B : Type} `{ByteBuf B} s h a h' : rebuild_json_args (B := B) s h = Ret (a, h') -> DubboCodec.rebuild_json_args (B := B) (elements_in h) s = Ret a.
Proof.
  unfold rebuild_json_args, DubboCodec.rebuild_json_args, elements_in. destruct (args_text s h) as [[[w|] h1]| | |]; cbn; try done.
  - destruct (text w h1) as [b| | |]; cbn; try done. destruct (utf82ascii b) as [x| | |]; cbn; try done. destruct (free_text w h1); cbn; try done. by intros [= -> ->].
  - by intros [= <- <-].
Qed.

(** C22.  [rebuild_json_args] of a dubbo client on any text, when no allocation
    fails: NULL when the text is no JSON array or object, and all memory is
    given back; otherwise the ASCII form of the array of the elements, or of the
    values of the members, in their order.  The parsed tree and the UTF-8 text
    are freed; the array of the copies is not: it is left in the heap.  What
    [DubboCodec] has for it, with cJSON as its parameter, returns the same. *)
Theorem rebuild_json_args_ok {B : Type} `{ByteBufSpec B} s r h F K : no_nul s -> forest h F K -> ~ may_fail h ->
  exists i, cJSON_Parse (Some (s ++ 0 :: r)) = Ret i /\
    match item_arguments i with
    | None => exists h', rebuild_json_args (B := B) (s ++ 0 :: r) h = Ret (None, h') /\ forest h' F K /\
        DubboCodec.rebuild_json_args (B := B) (elements_in h) (s ++ 0 :: r) = Ret None
    | Some vs => let t := json_text false 0 (JArr vs) in all_bytes t -> zlen t < 2 ^ 30 ->
        exists arr a h', rebuild_json_args (B := B) (s ++ 0 :: r) h = Ret (a, h') /\ ascii_form t a /\
          forest h' (arr :: F) K /\ json_of (item_of h' arr) = Some (JArr vs) /\
          DubboCodec.rebuild_json_args (B := B) (elements_in h) (s ++ 0 :: r) = Ret a
    end.
Proof.
  intros Hs Hf Hm. destruct (args_text_ok s r h F K Hs Hf Hm) as (i & E & Hi). exists i. split; [done|]. destruct (item_arguments i) as [vs|].
  - destruct Hi as [Hok Hi]. intros t Hb Hlen. assert (zlen t + 2 <= INT_MAX) as Hlen' by (unfold INT_MAX; lia).
    destruct (Hi Hlen') as (arr & w & b & h1 & E1 & [rest ->] & [Hr Hto] & Hv). fold t in Hr.
    assert (exists a, utf82ascii (B := B) (t ++ [0] ++ rest) = Ret a /\ ascii_form t a) as (a & Ea & Hform).
    { destruct (text_split t Hb) as (cs & u & Hcs & Hu & Hmal). destruct (utf82ascii_ok (B := B) t rest cs u) as [[Hu0 Ea]|[Hu0 Ea]]; try done.
      - by apply no_nul_json_text.
      - eexists. split; [exact Ea|]. exists cs, u. auto.
      - eexists. split; [exact Ea|]. exists cs, u. auto. }
    destruct (free_text_rep h1 w (t ++ 0 :: rest) (roots (arr :: F)) (list_texts (arr :: F) ++ K)) as (h2 & E2 & Hr2 & _); [reorder Hr|].
    assert (rebuild_json_args (B := B) (s ++ 0 :: r) h = Ret (a, h2)) as Hrun.
    { unfold rebuild_json_args. rewrite E1, ret_bind. assert (rep h1 (roots (arr :: F)) ((w, t ++ 0 :: rest) :: list_texts (arr :: F) ++ K)) as Hr1 by reorder Hr.
      rewrite (text_rep _ _ _ _ _ Hr1), ret_bind. cbn [app] in Ea. by rewrite Ea, ret_bind, E2, ret_bind. }
    exists arr, a, h2. by split_and!; [| | | |apply (rebuild_codec _ _ _ h2)].
  - destruct Hi as (h1 & E1 & Hf1). assert (rebuild_json_args (B := B) (s ++ 0 :: r) h = Ret (None, h1)) as Hrun by (unfold rebuild_json_args; by rewrite E1, ret_bind).
    exists h1. split_and!; [done|done|by apply (rebuild_codec _ _ _ h1)].
Qed.

(** The parameter of the codec, for a text of the JSON grammar. *)
Lemma prints_args_text w t w' j vs cs h F K : value_text (Z.to_nat CJSON_NESTING_LIMIT) t j -> ws w -> ws w' -> no_nul t -> zlen (w ++ t ++ w') < 2 ^ 61 ->
  no_nul (w ++ t ++ w') -> arguments j = Some vs -> json_text false 0 (JArr vs) = encs cs -> zlen (encs cs) < 2 ^ 30 -> forest h F K -> ~ may_fail h ->
  prints_args (elements_in h) (w ++ t ++ w') cs /\ no_nul (encs cs).
Proof.
  intros Ht Hw Hw' Hnul Hlen Hs Ha Hcs Hsmall Hf Hm. destruct (parser_accepts w t w' j [] false false Ht Hw Hw' Hnul Hlen) as (i & E & Hj & _).
  destruct (args_text_ok (w ++ t ++ w') [] h F K Hs Hf Hm) as (i' & E' & Hi). unfold cJSON_Parse in E'. rewrite E, ret_bind in E'. injection E' as <-.
  cbn [item_arguments fst] in Hi. rewrite Hj, Ha in Hi. destruct Hi as [Hok Hi]. rewrite <- Hcs. split; [|by apply no_nul_json_text].
  destruct Hi as (arr & a & b & h' & E1 & [pad ->] & [Hr _] & _); [rewrite Hcs; unfold INT_MAX; lia|]. exists pad. unfold elements_in. change [0] with (0 :: []). rewrite E1.
  assert (rep h' (roots (arr :: F)) ((a, encs cs ++ 0 :: pad) :: list_texts (arr :: F) ++ K)) as Hr1 by (rewrite Hcs in Hr; reorder Hr). by rewrite (text_rep _ _ _ _ _ Hr1).
Qed.

(** From JSON text to the request: the arguments of the call are the elements
    of the array, or the values of the object, in ASCII. *)
Theorem request_of_text {B : Type} `{ByteBufSpec B} w t w' j vs cs h F K id service method attach :
  value_text (Z.to_nat CJSON_NESTING_LIMIT) t j -> ws w -> ws w' -> no_nul t -> zlen (w ++ t ++ w') < 2 ^ 61 -> no_nul (w ++ t ++ w') ->
  arguments j = Some vs -> json_text false 0 (JArr vs) = encs cs -> Forall scalar cs -> zlen (encs cs) < 2 ^ 30 -> forest h F K -> ~ may_fail h ->
  no_nul service -> no_nul method -> no_nul attach ->
  exists req, dubbo_req_create (B := B) (elements_in h) id (service ++ [0]) (method ++ [0]) ((w ++ t ++ w') ++ [0]) (Some (attach ++ [0])) = Ret (Some req, next_reqid id) /\
    req_describes req service method (Hessian.escapes cs).
Proof.
  intros Ht Hw Hw' Hnul Hlen Hs Ha Hcs Hsc Hsmall Hf Hm Hsv Hmt Hat. destruct (prints_args_text w t w' j vs cs h F K) as [Hp Hn]; try done.
  destruct (dubbo_req_create_ok (B := B) (elements_in h) id service method (w ++ t ++ w') attach cs) as (req & E & _ & _ & _ & Hd); try done; [|by exists req].
  intros ->. cbn in Hcs. destruct vs; discriminate.
Qed.
End laws.

(** ** On concrete texts *)
Section examples.
#[local] Existing Instances big_alloc big_alloc_total.

Definition demo_store (answers : list bool) : heap := heap_of [] [] 10 answers.
Lemma demo_store_forest l : forest (demo_store l) [] [].
Proof. apply heap_of_forest; [vm_compute; reflexivity|constructor]. Qed.
(** <<[1, "é"]>>. *)
Definition demo_args : bytes := [91; 49; 44; 32; 34; 195; 169; 34; 93].
Definition demo_values : list json := [JNum (Fin false (2 ^ 52) 1022); JStr [195; 169]].

Lemma rebuild_json_args_ok_witness : exists arr a h', @rebuild_json_args big_alloc demo_memory Buffer.buffer _ (demo_args ++ 0 :: []) (demo_store []) = Ret (a, h') /\
  ascii_form [91; 49; 44; 34; 195; 169; 34; 93] a /\ forest h' [arr] [] /\ json_of (item_of h' arr) = Some (JArr demo_values).
Proof.
  destruct (@rebuild_json_args_ok big_alloc big_alloc_total demo_memory Buffer.buffer _ _ demo_args [] (demo_store []) [] [] ltac:(vm_decide) (demo_store_forest []) (no_failures [] [] 10)) as (i & E & Hi).
  assert (item_arguments i = Some demo_values) as Ei.
  { assert (@cJSON_Parse big_alloc demo_memory (Some (demo_args ++ 0 :: [])) = Ret i -> item_arguments i = Some demo_values) as Hc; [|by apply Hc]. vm_compute. intros [= <-]. reflexivity. }
  rewrite Ei in Hi. destruct Hi as (arr & a & h' & E1 & Ha & Hf & Hv & _); [vm_decide|vm_decide|]. exists arr, a, h'. split; [exact E1|]. split; [|by split].
  assert (json_text false 0 (JArr demo_values) = [91; 49; 44; 34; 195; 169; 34; 93]) as <- by (vm_compute; reflexivity). exact Ha.
Defined.

(** The ASCII text, and the three nodes that are left behind. *)
Example rebuild_leaks : exists h', @rebuild_json_args big_alloc demo_memory Buffer.buffer _ (demo_args ++ [0]) (demo_store []) =
    Ret (Some ([91; 49; 44; 34; 92] ++ str "u00e9" ++ [34; 93; 0]), h') /\ size (nodes h') = 3%nat.
Proof. eexists. split; vm_compute; reflexivity. Qed.
(** When the copy of the first argument fails the call goes out without it. *)
Example rebuild_drops_argument : exists h', @rebuild_json_args big_alloc demo_memory Buffer.buffer _ (demo_args ++ [0]) (demo_store [true; false]) =
    Ret (Some ([91; 34; 92] ++ str "u00e9" ++ [34; 93; 0]), h').
Proof. eexists. vm_compute. reflexivity. Qed.
Example rebuild_scalar : exists h', @rebuild_json_args big_alloc demo_memory Buffer.buffer _ ([52; 50] ++ [0]) (demo_store []) = Ret (None, h') /\ size (nodes h') = 0%nat.
Proof. eexists. split; vm_compute; reflexivity. Qed.

(** An object: its values are the arguments. *)
Lemma request_of_text_witness : exists req, @dubbo_req_create Buffer.buffer _ big_alloc (@elements_in big_alloc demo_memory (demo_store [])) 7 (str "a.Svc" ++ [0]) (str "get" ++ [0])
    (([32; 10] ++ demo_text ++ [13]) ++ [0]) (Some (str "{}" ++ [0])) = Ret (Some req, next_reqid 7) /\
  req_describes req (str "a.Svc") (str "get") (Hessian.escapes (str "[[1,true],{}]")).
Proof.
  refine (@request_of_text big_alloc big_alloc_total demo_memory Buffer.buffer _ _ [32; 10] demo_text [13] CJsonGrammar.demo_json [JArr [JNum (of_int 1); JBool true]; JObj []] (str "[[1,true],{}]") (demo_store []) [] []
    7 (str "a.Svc") (str "get") (str "{}") (demo_text_value _) _ _ _ _ _ eq_refl _ _ _ (demo_store_forest []) (no_failures [] [] 10) _ _ _); vm_decide.
Defined.
End examples.
